(* ===== verification/_CoqProject ===== *)
-Q . S2P
Prelude.v
GoStrings.v
NetIP.v
NetIPProps.v
Common.v
Platform.v
GoFloat.v
Estimators.v
TimeRanges.v
Crypto.v
CryptoProps.v
Dns.v
DnsUtils.v
DnsUtilsProps.v
Certs.v
Metrics.v
MetricsProps.v
ServerTypes.v
Mds.v
MdsProps.v
Servers.v
ServersProps.v
Plugins.v
Feedback.v
PluginsProps.v
Glob.v
PrefixTree.v
PatternMatcher.v
Cache.v
UdpPool.v
Query.v
QueryProps.v
Exchange.v
RuleLog.v
RuleLogProps.v
Reload.v
NameLists.v
NameListsProps.v
IPLists.v
IPListsProps.v
Cloak.v
CloakProps.v
QueryPlugins.v
QueryPluginsProps.v
ODoH.v
Forward.v
ForwardProps.v
Clients.v
ClientsProps.v
Dns64.v
Pipeline.v
PipelineProps.v
HotReload.v
Url.v
XTransport.v
XTransportProps.v
Sources.v
SourcesProps.v
Observability.v
Monitoring.v
Prometheus.v
MonitoringUI.v
MonitoringProps.v
PrometheusProps.v
Probe.v
FetchServer.v
FetchServerProps.v
Listeners.v
ListenersProps.v
ColdStart.v
Config.v
Tls.v
Registration.v
ConfigLoad.v
ConfigProps.v
RegistrationProps.v
NetMon.v
Startup.v
App.v
Resolve.v
