(* ===== verification/Prelude.v ===== *)
(** * dnscrypt-proxy: a verification library

    dnscrypt-proxy is a DNS proxy: it takes queries from local clients over UDP, TCP and
    HTTPS, runs them through plugins, sends them to a resolver over DNSCrypt, DNS over HTTPS
    or Oblivious DoH, and runs the responses through plugins again.  This library models the
    Go code in src/dnscrypt-proxy and proves what makes it correct.  The file names below
    without a directory are those of src/dnscrypt-proxy.

    ** The program and its model

    Values are those of Go: integers are in [Z], with the conversions [uint16], [int64], ...
    written where the code relies on their width; byte slices and strings are lists of
    numbers below 256; maps are finite maps of stdpp; floating-point numbers are the IEEE 754
    numbers of Rocq (GoFloat.v).  State is passed explicitly, by a small state monad where a
    file threads it through many calls.  Errors are values of [result] or [option], and so are run-time
    panics, under a name of their own; a panic of a reload ends the process, since nothing recovers from it.  Random draws, the clock and the orders of map iterations are
    arguments.  A mutex makes a critical section a single step; where goroutines interleave,
    there is a step relation ([pool_step], [client_step], [broadcast_step], [cold_step],
    [task_step]).

    - Prelude.v, GoStrings.v, GoFloat.v, NetIP.v, Glob.v, Url.v: Go's values, the functions of
      its library that the program uses, and the lemmas and tactics shared by the rest.
    - Platform.v (permcheck_unix.go, pidfile.go, logger.go, config.go): paths, the search for the
      configuration file, the check of permissions, the PID file, the files of the logs.
    - Common.v (common.go): framing, hosts and ports, rule files.  TimeRanges.v
      (time_ranges.go): weekly schedules.  Estimators.v (estimators.go): question sizes.
    - Crypto.v (crypto.go, pq.go): padding, encryption of queries, post-quantum sessions, the
      rotation of the client key.  Certs.v (dnscrypt_certs.go): the choice of a certificate.
    - Dns.v, DnsUtils.v (dnsutils.go): messages, synthetic responses, names and times to live.
      Probe.v: [DNSExchange] and its probes for fragments.
    - Metrics.v (scheduler_metrics.go), Mds.v (scheduler_mds.go), Feedback.v
      (scheduler_feedback.go): sliding-window metrics of the resolvers, the multi-dimensional
      scheduler, and what is reported to them after an exchange.
    - ServerTypes.v, Servers.v (serversInfo.go): the registered servers and the choice of one.
      FetchServer.v: what is asked of a server, directly or through relays, before it is used,
      and the rounds of refreshes.
    - Plugins.v (plugins.go): chains of any plugins.  PrefixTree.v, PatternMatcher.v
      (pattern_matcher.go), NameLists.v, IPLists.v, Cloak.v, Forward.v, Dns64.v, Cache.v,
      QueryPlugins.v, RuleLog.v: the plugins (plugin_*.go), the addresses in their logs
      (ipcrypt.go), and the answers for captive portals (coldstart.go).  Pipeline.v: the twenty plugins of
      the program, in its order, on one state.  Reload.v (reload_utils.go, config_watcher.go):
      reloading of rule files.  HotReload.v (hot_reload.go, signal_posix.go): which plugins are
      reloaded, and when.
    - UdpPool.v (udp_conn_pool.go), Exchange.v (proxy.go): sockets, and the exchanges with
      DNSCrypt servers.  ODoH.v (oblivious_doh.go).  XTransport.v (xtransport.go): resolved
      addresses, HTTP/2 and HTTP/3, DoH queries.  Tls.v (xtransport.go): the HTTP and TLS clients
      that [rebuildTransport] makes, and the certificates they trust.
    - Query.v (query_processing.go, proxy.go): a query from the client to its answer.
      Clients.v (proxy.go, local-doh.go): listeners and the limit on clients.
    - Sources.v (sources.go): the signed lists of servers.  Config.v, Registration.v,
      ConfigLoad.v (config.go, config_loader.go, proxy.go): settings, the servers to use, and
      the loading of a configuration as a whole.  Listeners.v (proxy.go, config_loader.go,
      privilege_linux.go, systemd_linux.go): sockets, and the files of the process without
      privileges.  ColdStart.v (coldstart.go, netprobe_others.go, netprobe_windows.go): the wait for
      the network, and the goroutines that answer meanwhile.  NetMon.v (netmon.go): network changes.  Startup.v
      (proxy.go): the background tasks of the running proxy.  App.v (main.go, proxy.go,
      privilege_linux.go, service_linux.go): the program from the command line to a proxy that
      accepts clients, as the list of what a process does.
    - Observability.v, Prometheus.v (scheduler_observability.go), Monitoring.v, MonitoringUI.v
      (monitoring_ui.go): reports, metrics and the monitoring server.
    - Resolve.v (resolve.go): the command that tests a resolver.

    A file X.v has definitions; XProps.v, where there is one, has its theorems.

    ** Interfaces

    Code outside the repository is a class of operations, whose laws, where a theorem needs
    some, are a second class; instances in the files of properties show that they can hold.
    [Primitives] (Crypto.v) has the ciphers, hashes and key agreements, [Hpke] (ODoH.v) HPKE,
    [IPCryptLib] (RuleLog.v) the encryption of addresses, [DnsLib] (Dns.v) the packing of
    messages, [PrefixTree] the radix tree, [NetTable] and [PrefixSet] (IPLists.v) the tables of
    networks, [SieveCache] (Cache.v) the cache.  [Network] (Exchange.v), [ForwardEnv]
    (Forward.v), [HttpEnv] (XTransport.v), [ProbeEnv] (Probe.v) and [Upstream] (Query.v) stand
    for what the operating system and the servers do; [TlsEnv] (Tls.v), [System] and [ConfigFiles] (App.v) for
    the certificates, the users, the system calls and the files.  [ReloadablePlugin] (Reload.v) is an
    interface of the program itself: its laws are proved for each plugin, and what a reload
    guarantees is proved against them.  The decoding of stamps, minisign and Ed25519, Unicode case folding
    and the failures of file operations are section variables.

    ** What is proved

    - Queries: a client gets at most one answer, to its own question ([query_answers],
      [proxy_answers]); blocked names stay local ([blocked_stay_local]); the cache only
      answers with what was stored for the question, within its time ([cache_answers]);
      exchanges give their socket back ([exchangeWithUDPServer_socket], [pool_ownership]).
    - Cryptography: [Encrypt_classic], [Decrypt_classic], [encryptPQ_cases],
      [FetchCurrentDNSCryptCert_best], [odoh_response].
    - Scheduling: metrics are an exact sliding window ([Snapshot_window]), selection is sound
      and probes of failed resolvers are exclusive and granted ([selectCandidateLocked_sound],
      [single_probe], [half_open_probe_granted]), each exchange is accounted for once
      ([observeOutcome_accounts]), reports show what the scheduler acts on ([report_agrees]),
      and any configuration keeps it in its limits ([configured_scheduler]).
    - Rules: files of rules mean what they say ([Eval_finds_rule], [block_name_decision],
      [block_ip_decision], [forward_eval], [cloaking_loops]), reloads are all or nothing, and
      end the process where the loader of the cloaking rules panics ([reload_atomic]), with one goroutine that reloads the names in use are always a whole version of
      the file ([reloaded_rules]), and the signal reloads every plugin ([signal_reloads]).
    - Servers: only servers that the configuration allows are used, at the start and as long
      as the proxy runs ([configured_servers], [used_servers]), from signed lists only
      ([signed_sources]), after a test ([doh_server_tested], [odoh_target_tested],
      [refresh_servers]), and through relays only if there are any ([anonymized_dns]).
    - HTTP: [fetch_requests] for the requests a query makes, and for who is asked for the address of
      the server, in which order; [address_cache] and
      [address_lifetime] for the resolved addresses.
    - The process: clients are accepted only once everything is in place, and by every listener
      ([start_up]); the privileges are given up in the right order before the program runs again
      ([privileges_dropped]), and the listeners are handed to the process without privileges
      ([inherited_listeners]); the goroutines that answer before the network is there end when
      they are asked to, in every run, and leave their sockets closed ([cold_start_released]); the check of permissions looks at every directory ([permission_check]); an accepted configuration is a sane one ([loaded_settings]), whose TLS settings are those that are used
      ([loaded_tls]),
      nothing of one network is used in the next ([network_change], [fingerprint_network]),
      the limit on clients holds under every interleaving ([clients_count]), and the monitoring
      page keeps its password, its privacy levels and its limits ([monitoring_access],
      [monitoring_privacy], [monitoring_limits]).
    - The resolve command sends a bounded number of queries to one server, about the given name and
      the names that its aliases lead to ([resolve_queries]).

    ** Fuel

    Recursion is structural nearly everywhere.  Fuel is used where the code loops on something else,
    and is enough: the walks along cloaking targets have one more step than there are rules,
    and are proved to reach a verdict ([cloaking_loops]); the resolve command follows
    100 aliases, as in the source; the check of permissions goes up from directory to directory,
    at most as often as the path has bytes ([permission_check]); the decoder of PEM drops the mark of a block in every
    round ([decode_loop_fuel]); patterns, durations and the texts
    that are cut at separators are consumed by a byte at least in each round, so that their length is
    enough; a padding loop is given the number of bytes that are missing ([pad_loop_eq]).

    ** Not modelled

    The parser of certificates, the decoding of TOML and of the command line, HTML and JSON texts, the
    creation of sockets and their options, the delivery of signals, the control of services, and
    the variants of files for systems other than Linux where they only call another function of the system: these are
    calls of libraries and of the operating system with nothing of the program's own logic.  Log messages are left out, except
    for the lines that plugins write.  Rounds of the background tasks are atomic steps with
    respect to each other.  Where goroutines are known to interfere, the model is finer: the pool
    of sockets, the counter of clients, the broadcasts of the monitoring page and the reloads of
    the blocked names.

    ** Flaws

    Theorems and examples that show a flaw of the code are next to the properties of its
    component: [blocked_names_lost] and [blocked_names_partial] (two reloads at the same time), [odoh_panic],
    [prefix_shadowing], [cloak_load_panic], [http3_suppression_lost], [grace_period_raised],
    [damaged_cache_kept], [updates_too_fast], [prometheus_path_taken], [forged_line],
    [direct_probe], [nan_accepted], [letsEncrypt_not_added] (a root certificate that is never added),
    [http3_without_tls13], [portals_need_wait], [watchdog_lost] (the watchdog with [user_name]),
    [ready_before_clients], [root_after_all] (a user id of more than 32 bits), [ignored_system_asked] (the system's
    resolver with [ignore_system_dns]) and [probe_by_opening_time]. *)

From Stdlib Require Export ZArith Lia Bool String.
From stdpp Require Export base decidable numbers list list_numbers gmap strings.

#[global] Open Scope Z_scope.
#[export] Set Default Goal Selector "!".

(** ** Go values *)

Declare Scope go_scope.
Delimit Scope go_scope with go.

(** A Go byte slice or string: its bytes, each a number below 256. *)
Notation bytes := (list Z).

(** Length of a slice as Go's [len]: an [int]. *)
Definition len {A} (l : list A) : Z := Z.of_nat (length l).

(** Byte range, and the predicate that every element of a slice is a byte. *)
Definition is_byte (b : Z) : Prop := 0 <= b < 256.
Notation are_bytes := (Forall is_byte).

#[global] Instance is_byte_dec b : Decision (is_byte b).
Proof. unfold is_byte. apply _. Defined.

(** Conversions to the unsigned machine types: reduction modulo their width. *)
Definition uint8 (x : Z) : Z := x mod 2 ^ 8.
Definition uint16 (x : Z) : Z := x mod 2 ^ 16.
Definition uint32 (x : Z) : Z := x mod 2 ^ 32.
Definition uint64 (x : Z) : Z := x mod 2 ^ 64.

Definition max_int64 : Z := 2 ^ 63 - 1.
Definition min_int64 : Z := - 2 ^ 63.

(** Conversion of an out-of-range result to [int64]: two's complement. *)
Definition int64 (x : Z) : Z := (x + 2 ^ 63) mod 2 ^ 64 - 2 ^ 63.

(** A Go call that returns a value and an [error]: either the value or the
    error.  Where the code uses the value returned beside an error, the model
    returns a pair instead. *)
Inductive result (E A : Type) : Type :=
| Ok (a : A)
| Err (e : E).
Arguments Ok {E A} _.
Arguments Err {E A} _.

#[global] Instance result_ret E : MRet (result E) := fun _ a => Ok a.
#[global] Instance result_bind E : MBind (result E) := fun _ _ f m =>
  match m with Ok a => f a | Err e => Err e end.
#[global] Instance result_fmap E : FMap (result E) := fun _ _ f m =>
  match m with Ok a => Ok (f a) | Err e => Err e end.

Definition is_Ok {E A} (r : result E A) : bool :=
  match r with Ok _ => true | Err _ => false end.

#[global] Instance result_eq_dec E A `{EqDecision E, EqDecision A} :
  EqDecision (result E A).
Proof. solve_decision. Defined.

(** ** Time

    [time.Time] is the number of nanoseconds since Go's zero time, so that
    [IsZero] is a comparison with 0; [time.Duration] is a signed 64-bit number
    of nanoseconds, and [Sub] saturates as Go's does. *)
Notation Time := Z (only parsing).
Notation Duration := Z (only parsing).

Definition Millisecond : Duration := 1000000.
Definition Second : Duration := 1000000000.
Definition Minute : Duration := 60 * Second.
Definition zero_time : Time := 0.
Definition IsZero (t : Time) : bool := t =? zero_time.
Definition time_sub (t u : Time) : Duration :=
  Z.max min_int64 (Z.min max_int64 (t - u)).
Definition time_add (t : Time) (d : Duration) : Time := t + d.

(** Go's integer division and remainder truncate towards zero. *)
Definition go_div (a b : Z) : Z := Z.quot a b.
Definition go_mod (a b : Z) : Z := Z.rem a b.

(** ** Big-endian 16-bit fields ([encoding/binary]) *)

Definition be16 (hi lo : Z) : Z := hi * 256 + lo.
Definition put_be16 (v : Z) : bytes := [uint8 (v / 256); uint8 v].

(** ** Automation *)

(** Reads boolean comparisons in the context and the goal as propositions. *)
Ltac bools :=
  repeat match goal with
  | H : _ && _ = true |- _ => apply andb_true_iff in H as [??]
  | H : _ || _ = false |- _ => apply orb_false_iff in H as [??]
  | H : negb _ = true |- _ => apply negb_true_iff in H
  | H : negb _ = false |- _ => apply negb_false_iff in H
  | H : (_ <? _) = true |- _ => apply Z.ltb_lt in H
  | H : (_ <? _) = false |- _ => apply Z.ltb_ge in H
  | H : (_ <=? _) = true |- _ => apply Z.leb_le in H
  | H : (_ <=? _) = false |- _ => apply Z.leb_gt in H
  | H : (_ >? _) = _ |- _ => rewrite Z.gtb_ltb in H
  | H : (_ >=? _) = _ |- _ => rewrite Z.geb_leb in H
  | H : (_ =? _) = true |- _ => apply Z.eqb_eq in H
  | H : (_ =? _) = false |- _ => apply Z.eqb_neq in H
  | H : bool_decide _ = true |- _ => apply bool_decide_eq_true in H
  | H : bool_decide _ = false |- _ => apply bool_decide_eq_false in H
  end.

(** Case analysis on the tests the goal branches on, with their meaning. *)
Ltac split_ifs :=
  repeat match goal with
  | |- context [if ?b then _ else _] =>
      lazymatch b with
      | context [if _ then _ else _] => fail
      | _ => let H := fresh "Hif" in destruct b eqn:H
      end
  end; bools.

(** The same on a hypothesis. *)
Ltac split_ifs_in H :=
  repeat match type of H with
  | context [if ?b then _ else _] =>
      lazymatch b with
      | context [if _ then _ else _] => fail
      | _ => let H' := fresh "Hif" in destruct b eqn:H'
      end
  end; bools.

Create HintDb go discriminated.

(** ** Generic lemmas *)

Section lists.
Context {A : Type}.
Implicit Types (l k : list A).

Lemma len_nonneg l : 0 <= len l.
Proof. unfold len. lia. Qed.

Lemma len_app l k : len (l ++ k) = len l + len k.
Proof. unfold len. rewrite length_app. lia. Qed.

Lemma len_cons (x : A) l : len (x :: l) = 1 + len l.
Proof. unfold len. simpl. lia. Qed.

Lemma len_replicate n (x : A) : len (replicate n x) = Z.of_nat n.
Proof. unfold len. by rewrite length_replicate. Qed.

Lemma len_nil_inv l : len l = 0 -> l = [].
Proof. destruct l; [done|]. rewrite len_cons. pose proof (len_nonneg l). lia. Qed.

Lemma nth_lookup_lt l i (d : A) : (i < length l)%nat -> l !! i = Some (nth i l d).
Proof.
  intros Hi. destruct (l !! i) as [x|] eqn:E.
  - f_equal. symmetry. by apply nth_lookup_Some.
  - apply lookup_ge_None in E. lia.
Qed.

Lemma filter_none (P : A -> Prop) `{!forall x, Decision (P x)} l :
  Forall (fun x => ~ P x) l -> filter P l = [].
Proof. induction 1; [done|]. by rewrite filter_cons_False. Qed.

Lemma filter_Forall_iff (P Q : A -> Prop) `{!forall x, Decision (P x), !forall x, Decision (Q x)} l :
  Forall (fun x => P x <-> Q x) l -> filter P l = filter Q l.
Proof.
  induction 1 as [|x l Hx _ IH]; [done|].
  destruct (decide (P x)).
  - rewrite !filter_cons_True by tauto. by f_equal.
  - rewrite !filter_cons_False by tauto. done.
Qed.
End lists.

#[export] Hint Resolve len_nonneg : go.
#[export] Hint Rewrite @len_app @len_cons @len_replicate : go.

(** A property of a small range, checked by evaluation. *)
Lemma check_below (f : Z -> bool) n v :
  forallb (fun i => f (Z.of_nat i)) (seq 0 n) = true -> 0 <= v < Z.of_nat n -> f v = true.
Proof.
  rewrite forallb_forall. intros H Hv. rewrite <- (Z2Nat.id v) by lia. apply H, in_seq. lia.
Qed.

Lemma uint8_byte x : is_byte (uint8 x).
Proof. unfold is_byte, uint8. apply Z.mod_pos_bound. lia. Qed.

Lemma uint8_small x : is_byte x -> uint8 x = x.
Proof. unfold is_byte, uint8. intros. apply Z.mod_small. lia. Qed.

Lemma be16_put v : 0 <= v < 2 ^ 16 ->
  be16 (uint8 (v / 256)) (uint8 v) = v.
Proof.
  intros Hv. unfold be16, uint8. change (2 ^ 8) with 256.
  change (2 ^ 16) with 65536 in Hv. rewrite (Z.mod_small (v / 256)).
  - rewrite (Z.div_mod v 256) at 3 by lia. lia.
  - split; [apply Z.div_pos; lia|]. apply Z.div_lt_upper_bound; lia.
Qed.

Lemma be16_bound hi lo : is_byte hi -> is_byte lo -> 0 <= be16 hi lo < 2 ^ 16.
Proof. unfold is_byte, be16. change (2 ^ 16) with 65536. lia. Qed.

Lemma time_sub_exact t u :
  min_int64 <= t - u <= max_int64 -> time_sub t u = t - u.
Proof. unfold time_sub. lia. Qed.

Lemma time_sub_lt t u d : d <= max_int64 -> min_int64 < d ->
  (time_sub t u < d <-> t - u < d).
Proof. unfold time_sub, max_int64, min_int64. change (2 ^ 63) with 9223372036854775808. lia. Qed.

#[export] Hint Resolve uint8_byte be16_bound : go.
