(* ===== verification/GoStrings.v ===== *)
(** * Go strings

    The part of Go's [strings], [strconv], [unicode] and [unicode/utf8]
    packages that the proxy's text handling uses, on byte strings.  Rune
    decoding follows [utf8.DecodeRune]: an ill-formed sequence decodes to
    U+FFFD and consumes one byte.  The one thing left open is lower-casing of
    text outside ASCII, which needs the Unicode tables: it is the argument
    [unicode_lower] of [ToLower]. *)

From Stdlib Require Import Ascii.
From S2P Require Import Prelude.

(** A string literal of the source as its bytes. *)
Definition str (s : string) : bytes :=
  (fun c => Z.of_N (N_of_ascii c)) <$> String.list_ascii_of_string s.
Arguments str s%_string.

Definition chr (c : ascii) : Z := Z.of_N (N_of_ascii c).
Arguments chr c%_char.

(** ** Runes *)

Definition RuneError : Z := 65533.
Definition RuneSelf : Z := 128.

Definition in_range (lo hi b : Z) : bool := (lo <=? b) && (b <=? hi).
Definition is_cont (b : Z) : bool := in_range 128 191 b.

(** The rune at the head of [p] and the bytes it occupies. *)
Definition DecodeRune (p : bytes) : Z * nat :=
  match p with
  | [] => (RuneError, 0%nat)
  | b0 :: rest =>
      if b0 <? RuneSelf then (b0, 1%nat)
      else if in_range 194 223 b0 then
        match rest with
        | b1 :: _ =>
            if is_cont b1 then ((b0 mod 32) * 64 + b1 mod 64, 2%nat)
            else (RuneError, 1%nat)
        | _ => (RuneError, 1%nat)
        end
      else if in_range 224 239 b0 then
        match rest with
        | b1 :: b2 :: _ =>
            let lo := if b0 =? 224 then 160 else 128 in
            let hi := if b0 =? 237 then 159 else 191 in
            if in_range lo hi b1 && is_cont b2
            then ((b0 mod 16) * 4096 + (b1 mod 64) * 64 + b2 mod 64, 3%nat)
            else (RuneError, 1%nat)
        | _ => (RuneError, 1%nat)
        end
      else if in_range 240 244 b0 then
        match rest with
        | b1 :: b2 :: b3 :: _ =>
            let lo := if b0 =? 240 then 144 else 128 in
            let hi := if b0 =? 244 then 143 else 191 in
            if in_range lo hi b1 && is_cont b2 && is_cont b3
            then ((b0 mod 8) * 262144 + (b1 mod 64) * 4096
                  + (b2 mod 64) * 64 + b3 mod 64, 4%nat)
            else (RuneError, 1%nat)
        | _ => (RuneError, 1%nat)
        end
      else (RuneError, 1%nat)
  end.

Fixpoint runes_fuel (fuel : nat) (p : bytes) : list Z :=
  match fuel, p with
  | S fuel', _ :: _ =>
      let '(r, n) := DecodeRune p in r :: runes_fuel fuel' (drop n p)
  | _, _ => []
  end.

(** [[]rune(s)]; every rune takes a byte, so the length is fuel enough. *)
Definition runes (s : bytes) : list Z := runes_fuel (length s) s.

Definition EncodeRune (r : Z) : bytes :=
  if in_range 0 127 r then [r]
  else if in_range 128 2047 r then [192 + r / 64; 128 + r mod 64]
  else if in_range 55296 57343 r || (1114111 <? r) || (r <? 0)
  then [239; 191; 189]
  else if r <=? 65535 then
    [224 + r / 4096; 128 + (r / 64) mod 64; 128 + r mod 64]
  else [240 + r / 262144; 128 + (r / 4096) mod 64;
        128 + (r / 64) mod 64; 128 + r mod 64].

(** [string(r)] for [r : []rune]. *)
Definition of_runes (r : list Z) : bytes := r ≫= EncodeRune.

(** [unicode.IsSpace]. *)
Definition IsSpace (r : Z) : bool :=
  in_range 9 13 r || (r =? 32) || (r =? 133) || (r =? 160) || (r =? 5760)
  || in_range 8192 8202 r || (r =? 8232) || (r =? 8233) || (r =? 8239)
  || (r =? 8287) || (r =? 12288).

Definition is_ascii (s : bytes) : bool := forallb (fun b => b <? RuneSelf) s.

(** ** Searching *)

Fixpoint HasPrefix (s p : bytes) {struct p} : bool :=
  match p, s with
  | [], _ => true
  | x :: p', y :: s' => (x =? y) && HasPrefix s' p'
  | _ :: _, [] => false
  end.

Definition HasSuffix (s p : bytes) : bool := HasPrefix (reverse s) (reverse p).

Fixpoint Contains (s sub : bytes) : bool :=
  HasPrefix s sub || match s with [] => false | _ :: s' => Contains s' sub end.

Fixpoint IndexByte (s : bytes) (c : Z) : option nat :=
  match s with
  | [] => None
  | x :: s' => if x =? c then Some 0%nat else S <$> IndexByte s' c
  end.

Fixpoint LastIndexByte (s : bytes) (c : Z) : option nat :=
  match s with
  | [] => None
  | x :: s' =>
      match LastIndexByte s' c with
      | Some i => Some (S i)
      | None => if x =? c then Some 0%nat else None
      end
  end.

Definition TrimPrefix (s p : bytes) : bytes :=
  if HasPrefix s p then drop (length p) s else s.

Definition TrimSuffix (s p : bytes) : bytes :=
  if HasSuffix s p then take (length s - length p) s else s.

(** [strings.Split(s, sep)] for a one-byte separator. *)
Fixpoint Split (s : bytes) (c : Z) : list bytes :=
  match s with
  | [] => [[]]
  | x :: s' =>
      if x =? c then [] :: Split s' c
      else match Split s' c with
           | w :: ws => (x :: w) :: ws
           | [] => [[x]]
           end
  end.

(** ** White space *)

(** Bytes of the white-space rune that [s] starts with, 0 if it does not. *)
Definition space_width (s : bytes) : nat :=
  match s with
  | [] => 0%nat
  | _ => let '(r, n) := DecodeRune s in if IsSpace r then n else 0%nat
  end.

(** [strings.IndexFunc(s, unicode.IsSpace)], the search proceeding rune by
    rune. *)
Fixpoint index_space_fuel (fuel : nat) (pos : nat) (s : bytes) : option nat :=
  match fuel, s with
  | S fuel', _ :: _ =>
      let '(r, n) := DecodeRune s in
      if IsSpace r then Some pos
      else index_space_fuel fuel' (pos + n)%nat (drop n s)
  | _, _ => None
  end.
Definition IndexSpace (s : bytes) : option nat :=
  index_space_fuel (length s) 0 s.

Fixpoint trim_left_fuel (fuel : nat) (s : bytes) : bytes :=
  match fuel with
  | O => s
  | S fuel' =>
      match space_width s with
      | O => s
      | n => trim_left_fuel fuel' (drop n s)
      end
  end.
Definition TrimLeftSpace (s : bytes) : bytes := trim_left_fuel (length s) s.

(** Bytes of the white-space rune that [s] ends with: [utf8.DecodeLastRune]
    finds one exactly when the last one, two or three bytes encode it. *)
Definition last_space_width (s : bytes) : nat :=
  let ends_with n :=
    (n <=? length s)%nat
    && (space_width (drop (length s - n) s) =? n)%nat in
  if ends_with 1%nat then 1%nat
  else if ends_with 2%nat then 2%nat
  else if ends_with 3%nat then 3%nat
  else 0%nat.

Fixpoint trim_right_fuel (fuel : nat) (s : bytes) : bytes :=
  match fuel with
  | O => s
  | S fuel' =>
      match last_space_width s with
      | O => s
      | n => trim_right_fuel fuel' (take (length s - n) s)
      end
  end.
Definition TrimRightSpace (s : bytes) : bytes := trim_right_fuel (length s) s.

(** [strings.TrimSpace]. *)
Definition TrimSpace (s : bytes) : bytes := TrimRightSpace (TrimLeftSpace s).

(** [strings.FieldsFunc(s, unicode.IsSpace)], which is [strings.Fields]: the
    maximal runs of other runes. *)
Fixpoint fields_fuel (fuel : nat) (s cur : bytes) : list bytes :=
  let flush := if bool_decide (cur = []) then [] else [cur] in
  match fuel, s with
  | S fuel', _ :: _ =>
      let '(r, n) := DecodeRune s in
      if IsSpace r then flush ++ fields_fuel fuel' (drop n s) []
      else fields_fuel fuel' (drop n s) (cur ++ take n s)
  | _, _ => flush
  end.
Definition Fields (s : bytes) : list bytes := fields_fuel (length s) s [].

Example fields_ex : Fields (str " a  bc d") = [str "a"; str "bc"; str "d"].
Proof. reflexivity. Qed.

(** ** Case *)

Definition ascii_lower_byte (b : Z) : Z := if in_range 65 90 b then b + 32 else b.
Definition ascii_lower (s : bytes) : bytes := ascii_lower_byte <$> s.

(** [strings.ToLower]. *)
Definition ToLower (unicode_lower : bytes -> bytes) (s : bytes) : bytes :=
  if is_ascii s then ascii_lower s else unicode_lower s.

(** ** Numbers *)

Definition is_digit_byte (b : Z) : bool := in_range 48 57 b.

Definition digits_value (s : bytes) : Z :=
  fold_left (fun acc b => acc * 10 + (b - 48)) s 0.

(** [strconv.Atoi] on a 64-bit platform: an optional sign, at least one
    decimal digit, nothing else, and a value that fits [int]. *)
Definition Atoi (s : bytes) : option Z :=
  let '(neg, ds) :=
    match s with
    | 45 :: r => (true, r)
    | 43 :: r => (false, r)
    | _ => (false, s)
    end in
  if (length ds =? 0)%nat || negb (forallb is_digit_byte ds) then None
  else
    let v := digits_value ds in
    let v := if neg then - v else v in
    if (min_int64 <=? v) && (v <=? max_int64) then Some v else None.

Fixpoint itoa_fuel (fuel : nat) (n : Z) (acc : bytes) : bytes :=
  match fuel with
  | O => acc
  | S fuel' =>
      let acc := (48 + n mod 10) :: acc in
      if n <? 10 then acc else itoa_fuel fuel' (n / 10) acc
  end.

(** Decimal digits of a non-negative number below 2^64. *)
Definition itoa (n : Z) : bytes := itoa_fuel 20 n [].

(** ** Lemmas *)

Lemma HasPrefix_spec s p : HasPrefix s p = true <-> exists k, s = p ++ k.
Proof.
  revert s. induction p as [|x p IH]; intros s; simpl.
  - split; [intros _; by exists s|done].
  - destruct s as [|y s]; [naive_solver|].
    rewrite andb_true_iff, Z.eqb_eq, IH. split.
    + intros [-> [k ->]]. by exists k.
    + intros [k ?]. simplify_eq. eauto.
Qed.

Lemma HasSuffix_spec s p : HasSuffix s p = true <-> exists k, s = k ++ p.
Proof.
  unfold HasSuffix. rewrite HasPrefix_spec. split; intros [k Hk].
  - exists (reverse k). apply (f_equal reverse) in Hk.
    by rewrite reverse_involutive, reverse_app, reverse_involutive in Hk.
  - exists (reverse k). by rewrite Hk, reverse_app.
Qed.

Lemma Contains_spec s sub :
  Contains s sub = true <-> exists a b, s = a ++ sub ++ b.
Proof.
  induction s as [|x s IH]; simpl.
  - rewrite orb_false_r, HasPrefix_spec. split.
    + intros [k ->]. by exists [], k.
    + intros (a & b & H). destruct a; [|done]. by exists b.
  - rewrite orb_true_iff, IH, HasPrefix_spec. split.
    + intros [[k ->]|(a & b & ->)]; [by exists [], k|by exists (x :: a), b].
    + intros ([|y a] & b & H); simplify_eq/=; eauto.
Qed.

Lemma IndexByte_spec s c i :
  IndexByte s c = Some i <-> s !! i = Some c /\ c ∉ take i s.
Proof.
  revert i. induction s as [|x s IH]; intros i; simpl; [naive_solver|].
  destruct (Z.eqb_spec x c) as [->|Hne].
  - destruct i as [|i]; simpl; [set_solver|].
    split; [done|]. intros [_ H]. set_solver.
  - destruct i as [|i]; simpl.
    + rewrite fmap_Some. naive_solver.
    + rewrite fmap_Some. setoid_rewrite IH. set_solver.
Qed.

Lemma IndexByte_None s c : IndexByte s c = None <-> c ∉ s.
Proof.
  induction s as [|x s IH]; simpl; [set_solver|].
  destruct (Z.eqb_spec x c); [set_solver|]. rewrite fmap_None, IH. set_solver.
Qed.

(** Splitting a string that does not contain the separator. *)
Lemma Split_none s c : c ∉ s -> Split s c = [s].
Proof.
  induction s as [|x s IH]; simpl; [done|]. intros H.
  destruct (Z.eqb_spec x c); [set_solver|]. rewrite IH by set_solver. done.
Qed.

Lemma Split_app s c t : c ∉ s -> Split (s ++ c :: t) c = s :: Split t c.
Proof.
  induction s as [|x s IH]; simpl; intros H; [by rewrite Z.eqb_refl|].
  destruct (Z.eqb_spec x c); [set_solver|]. by rewrite IH by set_solver.
Qed.

Lemma Split_not_nil s c : Split s c <> [].
Proof. induction s; simpl; [done|]. case_match; [done|]. by case_match. Qed.

(** On ASCII text the runes are the bytes. *)
Lemma runes_fuel_ascii n s : Forall (fun b => 0 <= b < 128) s ->
  (length s <= n)%nat -> runes_fuel n s = s.
Proof.
  revert n. induction s as [|b s IH]; intros n Hs Hn; [by destruct n|].
  apply Forall_cons in Hs as [Hb Hs]. destruct n as [|n]; simpl in Hn; [lia|].
  simpl. replace (b <? RuneSelf) with true
    by (symmetry; apply Z.ltb_lt; unfold RuneSelf; lia).
  simpl. by rewrite IH by (done || lia).
Qed.

Lemma runes_ascii s : Forall (fun b => 0 <= b < 128) s -> runes s = s.
Proof. intros. by apply runes_fuel_ascii. Qed.

Lemma of_runes_ascii s : Forall (fun b => 0 <= b < 128) s -> of_runes s = s.
Proof.
  induction 1 as [|b s Hb _ IH]; [done|]. unfold of_runes in *. csimpl.
  rewrite IH. unfold EncodeRune, in_range.
  by replace ((0 <=? b) && (b <=? 127)) with true
    by (symmetry; apply andb_true_iff; rewrite !Z.leb_le; lia).
Qed.

Lemma ascii_lower_byte_idem b :
  ascii_lower_byte (ascii_lower_byte b) = ascii_lower_byte b.
Proof.
  unfold ascii_lower_byte, in_range. split_ifs; lia.
Qed.

Lemma ascii_lower_idem s : ascii_lower (ascii_lower s) = ascii_lower s.
Proof.
  unfold ascii_lower. rewrite <-list_fmap_compose. apply list_fmap_ext.
  intros. simpl. apply ascii_lower_byte_idem.
Qed.

Lemma ascii_lower_length s : length (ascii_lower s) = length s.
Proof. apply length_fmap. Qed.

(** [strings.Join]. *)
Fixpoint Join (l : list bytes) (sep : bytes) : bytes :=
  match l with
  | [] => []
  | [a] => a
  | a :: l' => a ++ sep ++ Join l' sep
  end.
