(* ===== verification/NetIP.v ===== *)
(** * IP addresses

    Go's [net.IP] as the proxy uses it: [net.ParseIP] (through
    [netip.ParseAddr], zones rejected), [IP.To4] and [IP.String].  An address
    is its 16 bytes, an IPv4 address in the mapped form ::ffff:a.b.c.d. *)

From S2P Require Import Prelude GoStrings.

Definition v4_in_v6_prefix : bytes := replicate 10 0 ++ [255; 255].

(** ** Parsing *)

(** One decimal field of a dotted quad: one to three digits, no leading zero,
    at most 255. *)
Definition parse_octet (f : bytes) : option Z :=
  if (length f =? 0)%nat || negb (forallb is_digit_byte f) then None
  else if (1 <? length f)%nat && (hd 0 f =? 48) then None
  else if (3 <? length f)%nat || (255 <? digits_value f) then None
  else Some (digits_value f).

(** [parseIPv4Fields]: exactly four fields. *)
Definition parseIPv4Fields (s : bytes) : option bytes :=
  match Split s 46 with
  | [a; b; c; d] =>
      a ← parse_octet a; b ← parse_octet b;
      c ← parse_octet c; d ← parse_octet d; Some [a; b; c; d]
  | _ => None
  end.

Definition hex_value (c : Z) : option Z :=
  if in_range 48 57 c then Some (c - 48)
  else if in_range 97 102 c then Some (c - 87)
  else if in_range 65 70 c then Some (c - 55)
  else None.

(** The hexadecimal digits at the head of [s]: their value, their number and
    what follows.  [None] on a group of more than four digits. *)
Fixpoint hex_group (s : bytes) (off : nat) (acc : Z) : option (Z * nat * bytes) :=
  match s with
  | [] => Some (acc, off, [])
  | c :: s' =>
      match hex_value c with
      | None => Some (acc, off, s)
      | Some v =>
          if (3 <? off)%nat then None else hex_group s' (S off) (acc * 16 + v)
      end
  end.

(** The loop of [parseIPv6]: the bytes parsed so far, the position of the
    ellipsis if one was met, and the rest of the string when the loop ends. *)
Fixpoint parseIPv6_loop (fuel : nat) (s : bytes) (ip : bytes) (ellipsis : option nat)
  : option (bytes * option nat * bytes) :=
  match fuel with
  | O => Some (ip, ellipsis, s)
  | S fuel' =>
      if (16 <=? length ip)%nat then Some (ip, ellipsis, s)
      else
        match hex_group s 0 0 with
        | None => None
        | Some (acc, off, rest) =>
            if (off =? 0)%nat then None
            else match rest with
            | 46 :: _ =>
                if (match ellipsis with None => true | Some _ => false end)
                   && negb (length ip =? 12)%nat then None
                else if (16 <? length ip + 4)%nat then None
                else quad ← parseIPv4Fields s; Some (ip ++ quad, ellipsis, [])
            | [] => Some (ip ++ put_be16 acc, ellipsis, [])
            | 58 :: [] => None
            | 58 :: 58 :: rest' =>
                match ellipsis with
                | Some _ => None
                | None =>
                    let ip := ip ++ put_be16 acc in
                    match rest' with
                    | [] => Some (ip, Some (length ip), [])
                    | _ => parseIPv6_loop fuel' rest' ip (Some (length ip))
                    end
                end
            | 58 :: rest' => parseIPv6_loop fuel' rest' (ip ++ put_be16 acc) ellipsis
            | _ => None
            end
        end
  end.

(** [parseIPv6] on a string without a zone; eight groups at most, so nine
    rounds of the loop are enough. *)
Definition parseIPv6 (s : bytes) : option bytes :=
  let '(ellipsis, s') :=
    if HasPrefix s [58; 58] then (Some 0%nat, drop 2 s) else (None, s) in
  if bool_decide (ellipsis = Some 0%nat /\ s' = []) then Some (replicate 16 0)
  else
    match parseIPv6_loop 9 s' [] ellipsis with
    | Some (ip, e, []) =>
        if (length ip <? 16)%nat then
          match e with
          | None => None
          | Some i => Some (take i ip ++ replicate (16 - length ip) 0 ++ drop i ip)
          end
        else match e with None => Some ip | Some _ => None end
    | _ => None
    end.

(** Whether the first separator of the address text is a dot or a colon. *)
Fixpoint first_separator (s : bytes) : option Z :=
  match s with
  | [] => None
  | c :: s' =>
      if (c =? 46) || (c =? 58) || (c =? 37) then Some c else first_separator s'
  end.

(** [net.ParseIP]; an address with a zone is rejected. *)
Definition ParseIP (s : bytes) : option bytes :=
  match first_separator s with
  | Some 46 => quad ← parseIPv4Fields s; Some (v4_in_v6_prefix ++ quad)
  | Some 58 => if bool_decide (37 ∈ s) then None else parseIPv6 s
  | _ => None
  end.

(** [IP.To4]: the four bytes of an IPv4 address, in either form. *)
Definition To4 (ip : bytes) : option bytes :=
  if (length ip =? 4)%nat then Some ip
  else if (length ip =? 16)%nat && HasPrefix ip v4_in_v6_prefix
       then Some (drop 12 ip) else None.

(** [IP.To16]. *)
Definition To16 (ip : bytes) : option bytes :=
  if (length ip =? 4)%nat then Some (v4_in_v6_prefix ++ ip)
  else if (length ip =? 16)%nat then Some ip else None.

(** ** Printing *)

Definition string_v4 (ip : bytes) : bytes :=
  match ip with
  | [a; b; c; d] => itoa a ++ 46 :: itoa b ++ 46 :: itoa c ++ 46 :: itoa d
  | _ => []
  end.

Definition hex_digit (v : Z) : Z := if v <? 10 then 48 + v else 87 + v.

(** A 16-bit group without leading zeros. *)
Definition hex_of_group (g : Z) : bytes :=
  if 4096 <=? g then
    [hex_digit (g / 4096); hex_digit (g / 256 mod 16);
     hex_digit (g / 16 mod 16); hex_digit (g mod 16)]
  else if 256 <=? g then
    [hex_digit (g / 256); hex_digit (g / 16 mod 16); hex_digit (g mod 16)]
  else if 16 <=? g then [hex_digit (g / 16); hex_digit (g mod 16)]
  else [hex_digit g].

Fixpoint groups (ip : bytes) : list Z :=
  match ip with
  | hi :: lo :: rest => be16 hi lo :: groups rest
  | _ => []
  end.

(** Length of the run of zero groups at the head of a list. *)
Fixpoint zero_run (gs : list Z) : nat :=
  match gs with 0 :: gs' => S (zero_run gs') | _ => O end.

(** The first longest run of at least two zero groups: where it starts and
    ends. *)
Fixpoint longest_zero_run (i : nat) (gs : list Z) (best : option (nat * nat))
  : option (nat * nat) :=
  match gs with
  | [] => best
  | _ :: gs' =>
      let l := zero_run gs in
      let cur := match best with Some (a, b) => (b - a)%nat | None => 0%nat end in
      longest_zero_run (S i) gs'
        (if (2 <=? l)%nat && (cur <? l)%nat then Some (i, i + l)%nat else best)
  end.

Fixpoint join_groups (gs : list Z) (first : bool) : bytes :=
  match gs with
  | [] => []
  | g :: gs' => (if first then [] else [58]) ++ hex_of_group g ++ join_groups gs' false
  end.

Definition string_v6 (ip : bytes) : bytes :=
  let gs := groups ip in
  match longest_zero_run 0 gs None with
  | None => join_groups gs true
  | Some (a, b) =>
      join_groups (take a gs) true ++ [58; 58] ++ join_groups (drop b gs) true
  end.

(** [IP.String]. *)
Definition ip_String (ip : bytes) : bytes :=
  match To4 ip with
  | Some v4 => string_v4 v4
  | None => string_v6 ip
  end.

(** ** Networks *)

(** [net.IPNet]: the address and the size of the mask, in ones and bits. *)
Record IPNet := { net_IP : bytes; net_ones : Z; net_bits : Z }.

#[global] Instance IPNet_eq_dec : EqDecision IPNet.
Proof. solve_decision. Defined.

(** The [i]-th byte of [net.CIDRMask(ones, _)]. *)
Definition mask_byte (ones : Z) (i : nat) : Z :=
  let k := ones - 8 * Z.of_nat i in
  if 8 <=? k then 255 else if k <=? 0 then 0 else 256 - 2 ^ (8 - k).

(** [IP.Mask(net.CIDRMask(ones, 8*len(ip)))]. *)
Definition mask_ip (ones : Z) (ip : bytes) : bytes := imap (fun i b => Z.land b (mask_byte ones i)) ip.

(** The network that [net.ParseCIDR] returns. *)
Definition ParseCIDR (s : bytes) : option IPNet :=
  i ← IndexByte s 47;
  let addr := take i s in
  let mask := drop (S i) s in
  ip ← ParseIP addr;
  if (length mask =? 0)%nat || negb (forallb is_digit_byte mask) then None
  else
    let n := digits_value mask in
    let is4 := bool_decide (first_separator addr = Some 46) in
    let bits := if is4 then 32 else 128 in
    if n >? bits then None
    else Some {| net_IP := mask_ip n (if is4 then drop 12 ip else ip); net_ones := n; net_bits := bits |}.

(** ** Lemmas *)

Lemma digits_value_app a b : digits_value (a ++ [b]) = digits_value a * 10 + (b - 48).
Proof. unfold digits_value. by rewrite fold_left_app. Qed.

(** Every byte value prints to a field that parses back to it; the 256 cases
    are checked by evaluation. *)
Lemma parse_octet_itoa b : is_byte b -> parse_octet (itoa b) = Some b.
Proof.
  assert (forallb (fun i => bool_decide (parse_octet (itoa (Z.of_nat i)) = Some (Z.of_nat i)))
            (seq 0 256) = true) as Hall by (vm_compute; reflexivity).
  intros [H0 H1]. rewrite forallb_forall in Hall.
  specialize (Hall (Z.to_nat b)). rewrite Z2Nat.id in Hall by lia.
  apply bool_decide_eq_true in Hall; [done|]. apply in_seq. lia.
Qed.

Lemma itoa_no_dot b : is_byte b -> 46 ∉ itoa b /\ 58 ∉ itoa b /\ 37 ∉ itoa b.
Proof.
  assert (forallb (fun i => bool_decide (46 ∉ itoa (Z.of_nat i) /\ 58 ∉ itoa (Z.of_nat i)
                                         /\ 37 ∉ itoa (Z.of_nat i)))
            (seq 0 256) = true) as Hall by (vm_compute; reflexivity).
  intros [H0 H1]. rewrite forallb_forall in Hall.
  specialize (Hall (Z.to_nat b)). rewrite Z2Nat.id in Hall by lia.
  apply bool_decide_eq_true in Hall; [done|]. apply in_seq. lia.
Qed.

Lemma parseIPv4Fields_string a b c d :
  are_bytes [a; b; c; d] -> parseIPv4Fields (string_v4 [a; b; c; d]) = Some [a; b; c; d].
Proof.
  intros H. decompose_Forall. unfold parseIPv4Fields, string_v4.
  do 3 (rewrite Split_app; [|by apply itoa_no_dot]).
  rewrite Split_none by (by apply itoa_no_dot).
  by rewrite !parse_octet_itoa.
Qed.

Lemma first_separator_app s c t :
  46 ∉ s -> 58 ∉ s -> 37 ∉ s -> (c = 46 \/ c = 58 \/ c = 37) ->
  first_separator (s ++ c :: t) = Some c.
Proof.
  intros H1 H2 H3 Hc. induction s as [|x s IH]; simpl.
  - by destruct Hc as [->|[->| ->]].
  - destruct (Z.eqb_spec x 46); [set_solver|].
    destruct (Z.eqb_spec x 58); [set_solver|].
    destruct (Z.eqb_spec x 37); [set_solver|]. simpl.
    apply IH; set_solver.
Qed.

(** An IPv4 address survives printing and parsing. *)
Lemma ParseIP_string_v4 a b c d : are_bytes [a; b; c; d] ->
  ParseIP (string_v4 [a; b; c; d]) = Some (v4_in_v6_prefix ++ [a; b; c; d]).
Proof.
  intros H. pose proof (parseIPv4Fields_string _ _ _ _ H) as Hp.
  decompose_Forall. unfold ParseIP. unfold string_v4 in *.
  rewrite first_separator_app by (apply itoa_no_dot || auto; done).
  by rewrite Hp.
Qed.

Lemma parseIPv4Fields_length s q : parseIPv4Fields s = Some q -> length q = 4%nat.
Proof.
  unfold parseIPv4Fields. intros. repeat case_match; try done. by simplify_option_eq.
Qed.

Example parse_v4 : ParseIP (str "192.168.1.20") = Some (v4_in_v6_prefix ++ [192; 168; 1; 20]).
Proof. reflexivity. Qed.
Example parse_v6 : ParseIP (str "2001:db8::1") =
  Some [32; 1; 13; 184; 0; 0; 0; 0; 0; 0; 0; 0; 0; 0; 0; 1].
Proof. reflexivity. Qed.
Example parse_v6_mapped : ParseIP (str "::ffff:1.2.3.4") =
  Some (v4_in_v6_prefix ++ [1; 2; 3; 4]).
Proof. reflexivity. Qed.
Example parse_bad : ParseIP (str "1.2.3.04") = None /\ ParseIP (str "1::2::3") = None
  /\ ParseIP (str "fe80::1%eth0") = None /\ ParseIP (str "1:2:3:4:5:6:7:8::") = None.
Proof. repeat split; reflexivity. Qed.
Example print_v6 : ip_String [32; 1; 13; 184; 0; 0; 0; 0; 0; 1; 0; 0; 0; 0; 0; 1]
  = str "2001:db8::1:0:0:1".
Proof. reflexivity. Qed.
Example print_v4 : ip_String (v4_in_v6_prefix ++ [10; 0; 0; 255]) = str "10.0.0.255".
Proof. reflexivity. Qed.

(** ** Lengths *)

Lemma parseIPv6_loop_length fuel s ip e ip' e' s' :
  (exists k, length ip = 2 * k)%nat -> (length ip <= 16)%nat ->
  (forall i, e = Some i -> (i <= length ip)%nat) ->
  parseIPv6_loop fuel s ip e = Some (ip', e', s') ->
  (length ip' <= 16)%nat /\ (forall i, e' = Some i -> (i <= length ip')%nat).
Proof.
  revert s ip e. induction fuel as [|fuel IH]; intros s ip e Hev Hle He; cbn [parseIPv6_loop].
  { by intros [= <- <- <-]. }
  destruct (Nat.leb_spec 16 (length ip)) as [|Hlt]; [by intros [= <- <- <-]|].
  destruct (hex_group s 0 0) as [[[acc off] rest]|]; [|done].
  destruct (off =? 0)%nat; [done|].
  assert (length (ip ++ put_be16 acc) = length ip + 2)%nat as Hl2 by (by rewrite length_app).
  assert (length ip + 2 <= 16)%nat as H16 by (destruct Hev as [k Hk]; lia).
  assert (exists k, length (ip ++ put_be16 acc) = 2 * k)%nat as Hev2.
  { destruct Hev as [k Hk]. exists (S k). lia. }
  assert (forall i, e = Some i -> (i <= length (ip ++ put_be16 acc))%nat) as He2.
  { intros i Hi. specialize (He i Hi). lia. }
  destruct rest as [|c rest]; [intros [= <- <- <-]; split; [lia|done]|].
  destruct (decide (c = 46)) as [->|H46].
  { destruct (_ && negb _); [done|]. destruct (Nat.ltb_spec 16 (length ip + 4)); [done|].
    destruct (parseIPv4Fields s) as [q|] eqn:Eq; [|done]. intros [= <- <- <-].
    apply parseIPv4Fields_length in Eq. rewrite length_app, Eq. split; [lia|].
    intros i Hi. specialize (He i Hi). lia. }
  destruct (decide (c = 58)) as [->|H58]; [|by repeat (case_match; try done)].
  destruct rest as [|c2 rest2]; [done|]. destruct (decide (c2 = 58)) as [->|Hc2].
  - destruct e; [done|]. destruct rest2 as [|c3 rest3].
    + intros [= <- <- <-]. split; [lia|]. by intros i [= <-].
    + intros H. eapply (IH _ _ _ Hev2); [lia| |exact H]. by intros i [= <-].
  - assert (forall A (x y : A), match c2 with 58 => x | _ => y end = y) as Hm
      by (intros; repeat (case_match; try done)).
    rewrite Hm. intros H. eapply (IH _ _ _ Hev2); [lia|exact He2|exact H].
Qed.

Lemma parseIPv6_length s ip : parseIPv6 s = Some ip -> length ip = 16%nat.
Proof.
  unfold parseIPv6. destruct (if HasPrefix s _ then _ else _) as [e s1] eqn:E0.
  case_bool_decide; [by intros [= <-]|].
  destruct (parseIPv6_loop 9 s1 [] e) as [[[ip1 e1] s2]|] eqn:E; [|done].
  apply parseIPv6_loop_length in E as [H1 H2]; [|by exists 0%nat|simpl; lia|].
  2:{ intros i ->. destruct (HasPrefix s [58; 58]); [|done]. injection E0 as <- _. simpl. lia. }
  destruct s2; [|done]. destruct (Nat.ltb_spec (length ip1) 16).
  - destruct e1 as [i|]; [|done]. intros [= <-]. specialize (H2 i eq_refl).
    rewrite !length_app, length_take, length_replicate, length_drop. lia.
  - destruct e1; [done|]. intros [= <-]. lia.
Qed.

Lemma ParseIP_length s ip : ParseIP s = Some ip -> length ip = 16%nat.
Proof.
  unfold ParseIP. destruct (first_separator s) as [c|]; [|done].
  destruct (decide (c = 46)) as [->|H46].
  { destruct (parseIPv4Fields s) as [q|] eqn:E; [|done]. cbn. intros [= <-].
    apply parseIPv4Fields_length in E. simpl. lia. }
  destruct (decide (c = 58)) as [->|H58]; [|by repeat (case_match; try done)].
  case_bool_decide; [done|]. apply parseIPv6_length.
Qed.
