(* ===== verification/NetIPProps.v ===== *)
(** * IP addresses: printing and parsing

    [net.ParseIP] reads back every address that [IP.String] prints: dotted quads,
    and the compressed form of IPv6 addresses. *)

From S2P Require Import Prelude GoStrings NetIP.

(** ** Hexadecimal digits and groups *)

Lemma hex_value_digit v : 0 <= v < 16 -> hex_value (hex_digit v) = Some v.
Proof.
  intros H. pose proof (check_below (fun v => bool_decide (hex_value (hex_digit v) = Some v)) 16 v) as Hc.
  apply bool_decide_eq_true in Hc; [done|reflexivity|done].
Qed.

(** The bytes of the text of an address. *)
Definition ip_char (c : Z) : Prop := 48 <= c <= 58 \/ 97 <= c <= 102 \/ c = 46.

Lemma hex_digit_char v : 0 <= v < 16 ->
  (48 <= hex_digit v <= 57 \/ 97 <= hex_digit v <= 102).
Proof. unfold hex_digit. intros. split_ifs; lia. Qed.

Definition is_group (g : Z) : Prop := 0 <= g < 65536.

Lemma hex_of_group_digits g : is_group g ->
  exists ds, hex_of_group g = hex_digit <$> ds /\ Forall (fun d => 0 <= d < 16) ds /\
    (1 <= length ds <= 4)%nat /\ fold_left (fun acc d => acc * 16 + d) ds 0 = g.
Proof.
  unfold is_group, hex_of_group. intros Hg. split_ifs.
  - exists [g / 4096; g / 256 mod 16; g / 16 mod 16; g mod 16].
    split_and!; [done| |simpl; lia..|simpl; Z.to_euclidean_division_equations; lia].
    repeat constructor; Z.to_euclidean_division_equations; lia.
  - exists [g / 256; g / 16 mod 16; g mod 16].
    split_and!; [done| |simpl; lia..|simpl; Z.to_euclidean_division_equations; lia].
    repeat constructor; Z.to_euclidean_division_equations; lia.
  - exists [g / 16; g mod 16].
    split_and!; [done| |simpl; lia..|simpl; Z.to_euclidean_division_equations; lia].
    repeat constructor; Z.to_euclidean_division_equations; lia.
  - exists [g]. split_and!; [done| |simpl; lia..]. repeat constructor; lia.
Qed.

(** No hexadecimal digit follows. *)
Definition stops_hex (rest : bytes) : Prop :=
  match rest with [] => True | c :: _ => hex_value c = None end.

Lemma hex_group_digits ds rest off acc : Forall (fun d => 0 <= d < 16) ds ->
  (off + length ds <= 4)%nat -> stops_hex rest ->
  hex_group ((hex_digit <$> ds) ++ rest) off acc =
    Some (fold_left (fun acc d => acc * 16 + d) ds acc, (off + length ds)%nat, rest).
Proof.
  intros Hds. revert off acc. induction Hds as [|d ds Hd _ IH]; intros off acc Hoff Hrest.
  - simpl. rewrite Nat.add_0_r. destruct rest as [|c rest]; [done|]. simpl in *. by rewrite Hrest.
  - csimpl. simpl in Hoff. rewrite hex_value_digit by done.
    destruct (Nat.ltb_spec 3 off); [lia|]. rewrite IH by (done || lia).
    by rewrite Nat.add_succ_r.
Qed.

Lemma hex_group_print g rest : is_group g -> stops_hex rest ->
  exists n, (n =? 0)%nat = false /\ hex_group (hex_of_group g ++ rest) 0 0 = Some (g, n, rest).
Proof.
  intros (ds & -> & Hds & Hn & Hv)%hex_of_group_digits Hrest.
  exists (length ds). split; [apply Nat.eqb_neq; lia|]. rewrite hex_group_digits by (done || lia).
  by rewrite Hv.
Qed.

Lemma hex_of_group_cons g : is_group g ->
  exists c r, hex_of_group g = c :: r /\ c <> 58 /\ c <> 46.
Proof.
  intros (ds & -> & Hds & Hn & _)%hex_of_group_digits. destruct ds as [|d ds]; [simpl in Hn; lia|].
  apply Forall_cons in Hds as [Hd _]. exists (hex_digit d), (hex_digit <$> ds).
  split; [done|]. pose proof (hex_digit_char d Hd). lia.
Qed.

(** ** The groups of an address *)

Definition flat (gs : list Z) : bytes := gs ≫= put_be16.

Lemma flat_app gs gs' : flat (gs ++ gs') = flat gs ++ flat gs'.
Proof. apply bind_app. Qed.

Lemma flat_length gs : length (flat gs) = (2 * length gs)%nat.
Proof. induction gs; [done|]. unfold flat in *. csimpl. lia. Qed.

Lemma flat_zeros n : flat (replicate n 0) = replicate (2 * n) 0.
Proof.
  induction n as [|n IH]; [done|]. unfold flat in *. csimpl. rewrite IH.
  by replace (n + S (n + 0))%nat with (S (2 * n)) by lia.
Qed.

Lemma groups_spec n ip : are_bytes ip -> length ip = (2 * n)%nat ->
  flat (groups ip) = ip /\ length (groups ip) = n /\ Forall is_group (groups ip).
Proof.
  revert ip. induction n as [|n IH]; intros ip Hip Hl; [by destruct ip|].
  destruct ip as [|hi [|lo ip]]; simpl in Hl; [lia..|].
  apply Forall_cons in Hip as [Hhi [Hlo Hip]%Forall_cons]. simpl.
  destruct (IH ip Hip) as (H1 & H2 & H3); [lia|]. unfold flat in *. csimpl. rewrite H1.
  unfold is_byte in *. split_and!.
  - unfold put_be16, be16, uint8. simpl. repeat f_equal; Z.to_euclidean_division_equations; lia.
  - lia.
  - constructor; [unfold is_group, be16; lia|done].
Qed.

Lemma zero_run_spec gs : exists k, gs = replicate (zero_run gs) 0 ++ k.
Proof.
  induction gs as [|g gs [k IH]]; [by exists []|].
  destruct g; [|by exists (Zpos p :: gs)|by exists (Zneg p :: gs)].
  exists k. simpl. by f_equal.
Qed.

Lemma longest_zero_run_spec i pre gs best a b :
  i = length pre ->
  (forall a b, best = Some (a, b) ->
     (a < b)%nat /\ exists l r, pre ++ gs = l ++ replicate (b - a) 0 ++ r /\ length l = a) ->
  longest_zero_run i gs best = Some (a, b) ->
  (a < b)%nat /\ exists l r, pre ++ gs = l ++ replicate (b - a) 0 ++ r /\ length l = a.
Proof.
  revert i pre best. induction gs as [|g gs IH]; intros i pre best Hi Hb; cbn [longest_zero_run].
  { intros ->. by apply Hb. }
  rewrite (cons_middle g pre), app_assoc. apply IH; [rewrite length_app; simpl; lia|].
  intros a' b'. rewrite <- app_assoc. change ([g] ++ gs) with (g :: gs).
  destruct (_ && _) eqn:Hz; [|apply Hb]. apply andb_true_iff in Hz as [Hz%Nat.leb_le _].
  intros [= <- <-]. split; [simpl in *; lia|].
  destruct (zero_run_spec (g :: gs)) as [k Hk]. exists pre, k. split; [|done].
  fold (zero_run (g :: gs)). rewrite Nat.add_comm, Nat.add_sub. by f_equal.
Qed.

(** ** Reading a printed address back *)

Lemma join_groups_next g gs : join_groups (g :: gs) false = 58 :: join_groups (g :: gs) true.
Proof. done. Qed.

Lemma not_colon {A} c (x y : A) : c <> 58 -> match c with 58 => x | _ => y end = y.
Proof. intros. repeat (case_match; try done). Qed.

(** One group followed by a colon and another group. *)
Lemma loop_step fuel g rest c r ip e : is_group g -> (length ip < 16)%nat ->
  rest = c :: r -> c <> 58 ->
  parseIPv6_loop (S fuel) (hex_of_group g ++ 58 :: rest) ip e =
  parseIPv6_loop fuel rest (ip ++ put_be16 g) e.
Proof.
  intros Hg Hl -> Hc. cbn [parseIPv6_loop]. destruct (Nat.leb_spec 16 (length ip)); [lia|].
  destruct (hex_group_print g (58 :: c :: r) Hg) as (n & Hn & ->); [done|]. rewrite Hn.
  by rewrite not_colon.
Qed.

Lemma loop_groups gs : forall fuel ip e, gs <> [] -> Forall is_group gs ->
  (length ip + 2 * length gs <= 16)%nat -> (length gs <= fuel)%nat ->
  parseIPv6_loop fuel (join_groups gs true) ip e = Some (ip ++ flat gs, e, []).
Proof.
  induction gs as [|g gs IH]; intros fuel ip e Hne Hgs Hl Hf; [done|].
  apply Forall_cons in Hgs as [Hg Hgs]. destruct fuel as [|fuel]; simpl in Hf; [lia|].
  simpl in Hl. destruct gs as [|g' gs].
  - cbn [join_groups]. cbn [parseIPv6_loop app]. destruct (Nat.leb_spec 16 (length ip)); [lia|].
    destruct (hex_group_print g [] Hg) as (n & Hn & ->); [done|]. by rewrite Hn.
  - cbn [join_groups app]. pose proof (hex_of_group_cons g') as Hc.
    apply Forall_cons in Hgs as Hgs'. destruct Hgs' as [Hg' _].
    destruct (Hc Hg') as (c & r & Hcr & Hc58 & _).
    change ([58] ++ hex_of_group g' ++ join_groups gs false)
      with (58 :: join_groups (g' :: gs) true).
    rewrite (loop_step fuel g _ c (r ++ join_groups gs false)) by
      first [done | lia | simpl; by rewrite Hcr].
    rewrite IH by first [done | rewrite ?length_app; simpl in *; lia].
    unfold flat. csimpl. by rewrite <- app_assoc.
Qed.

(** The same in front of the ellipsis. *)
Lemma loop_ellipsis gs tl : forall fuel ip, gs <> [] -> Forall is_group gs -> Forall is_group tl ->
  (length ip + 2 * length gs + 2 * length tl <= 16)%nat -> (length gs + length tl <= fuel)%nat ->
  parseIPv6_loop fuel (join_groups gs true ++ [58; 58] ++ join_groups tl true) ip None =
    Some (ip ++ flat gs ++ flat tl, Some (length (ip ++ flat gs)), []).
Proof.
  induction gs as [|g gs IH]; intros fuel ip Hne Hgs Htl Hl Hf; [done|].
  apply Forall_cons in Hgs as [Hg Hgs]. destruct fuel as [|fuel]; simpl in Hf; [lia|].
  simpl in Hl. destruct gs as [|g' gs].
  - cbn [join_groups]. cbn [parseIPv6_loop app]. rewrite app_nil_r.
    destruct (Nat.leb_spec 16 (length ip)); [lia|].
    destruct (hex_group_print g (58 :: 58 :: join_groups tl true) Hg) as (n & Hn & ->); [done|].
    rewrite Hn. unfold flat at 1 3. csimpl. destruct tl as [|t tl].
    + unfold flat. csimpl. done.
    + apply Forall_cons in Htl as Htl'. destruct Htl' as [Ht _].
      destruct (hex_of_group_cons t Ht) as (c & r & Hcr & _).
      destruct (join_groups (t :: tl) true) as [|c' r'] eqn:E; [simpl in E; by rewrite Hcr in E|].
      rewrite <- E. rewrite loop_groups by
        first [done | rewrite ?length_app; simpl in *; lia].
      by rewrite <- app_assoc.
  - cbn [join_groups app]. apply Forall_cons in Hgs as Hgs'. destruct Hgs' as [Hg' _].
    destruct (hex_of_group_cons g' Hg') as (c & r & Hcr & Hc58 & _).
    rewrite <- !app_assoc. cbn [app]. rewrite <- !app_assoc.
    change (hex_of_group g' ++ join_groups gs false ++ 58 :: 58 :: join_groups tl true)
      with (hex_of_group g' ++ join_groups gs false ++ [58; 58] ++ join_groups tl true).
    rewrite (loop_step fuel g _ c (r ++ join_groups gs false ++ [58; 58] ++ join_groups tl true)) by
      first [done | lia | by rewrite Hcr].
    rewrite (app_assoc (hex_of_group g')).
    change (hex_of_group g' ++ join_groups gs false) with (join_groups (g' :: gs) true).
    rewrite IH by first [done | rewrite ?length_app; simpl in *; lia].
    unfold flat. csimpl. by rewrite <- !app_assoc.
Qed.

Lemma hex_of_group_chars g : is_group g -> Forall ip_char (hex_of_group g).
Proof.
  intros (ds & -> & Hds & _)%hex_of_group_digits. apply Forall_fmap. eapply Forall_impl; [exact Hds|].
  intros d Hd%hex_digit_char. unfold ip_char. simpl. lia.
Qed.

Lemma join_groups_chars gs first : Forall is_group gs -> Forall ip_char (join_groups gs first).
Proof.
  intros H. revert first. induction H as [|g gs Hg _ IH]; intros first; [constructor|].
  cbn [join_groups]. apply Forall_app; split; [|apply Forall_app; split].
  - destruct first; [constructor|]. constructor; [unfold ip_char; lia|constructor].
  - by apply hex_of_group_chars.
  - apply IH.
Qed.

(** The text of an IPv6 address, as the groups before and after the ellipsis. *)
Lemma string_v6_shape ip : are_bytes ip -> length ip = 16%nat ->
  (exists gs, string_v6 ip = join_groups gs true /\ Forall is_group gs /\ length gs = 8%nat /\
     flat gs = ip) \/
  (exists hd tl n, string_v6 ip = join_groups hd true ++ [58; 58] ++ join_groups tl true /\
     Forall is_group hd /\ Forall is_group tl /\ (length hd + n + length tl = 8)%nat /\
     (1 <= n)%nat /\ ip = flat hd ++ replicate (2 * n) 0 ++ flat tl).
Proof.
  intros Hip Hl. destruct (groups_spec 8 ip Hip Hl) as (H1 & H2 & H3). unfold string_v6.
  destruct (longest_zero_run 0 (groups ip) None) as [[a b]|] eqn:E; [right|left; by exists (groups ip)].
  apply (longest_zero_run_spec 0 []) in E as (Hab & l & r & Hlr & Hla); [|done|done].
  simpl in Hlr. rewrite Hlr in H1, H2, H3 |- *. subst a.
  assert (drop b (l ++ replicate (b - length l) 0 ++ r) = r) as ->.
  { rewrite app_assoc. apply drop_app_length'. rewrite length_app, length_replicate. lia. }
  rewrite take_app_length.
  apply Forall_app in H3 as [Hh [_ Ht]%Forall_app].
  exists l, r, (b - length l)%nat. rewrite !length_app, length_replicate in H2.
  split_and!; [done..|lia|lia|]. by rewrite <- H1, !flat_app, flat_zeros.
Qed.

Lemma first_separator_groups gs rest : gs <> [] -> Forall is_group gs ->
  (1 < length gs)%nat \/ hd 0 rest = 58 -> first_separator (join_groups gs true ++ rest) = Some 58.
Proof.
  intros Hne Hgs Hhd. destruct gs as [|g gs]; [done|]. apply Forall_cons in Hgs as [Hg Hgs].
  destruct (hex_of_group_digits g Hg) as (ds & Hds & Hd & Hn & _).
  assert (forall c, (c = 46 \/ c = 58 \/ c = 37) -> c ∉ hex_of_group g) as Hno.
  { intros c Hc. rewrite Hds. intros (d & -> & Hin)%list_elem_of_fmap.
    rewrite Forall_forall in Hd. pose proof (hex_digit_char d (Hd _ Hin)). lia. }
  cbn [join_groups app]. rewrite <- app_assoc. destruct gs as [|g' gs].
  - destruct Hhd as [Hhd|Hhd]; [simpl in Hhd; lia|].
    destruct rest as [|c rest]; simpl in Hhd; [done|]. subst c.
    cbn [join_groups app]. by apply first_separator_app; auto.
  - cbn [join_groups app]. by apply first_separator_app; auto.
Qed.

(** [ParseIP] on IPv6 text is [parseIPv6]. *)
Lemma ParseIP_v6 s : first_separator s = Some 58 -> Forall ip_char s -> ParseIP s = parseIPv6 s.
Proof.
  intros Hs Hc. unfold ParseIP. rewrite Hs. rewrite bool_decide_false; [done|].
  intros Hin. rewrite Forall_forall in Hc. specialize (Hc 37 Hin). unfold ip_char in Hc. lia.
Qed.

Lemma parseIPv6_plain gs : Forall is_group gs -> length gs = 8%nat ->
  parseIPv6 (join_groups gs true) = Some (flat gs).
Proof.
  intros Hgs Hl. unfold parseIPv6. destruct gs as [|g gs]; [done|].
  pose proof Hgs as [Hg _]%Forall_cons. destruct (hex_of_group_cons g Hg) as (c & r & Hc & Hc58 & _).
  replace (HasPrefix (join_groups (g :: gs) true) [58; 58]) with false.
  2:{ cbn [join_groups app]. rewrite Hc. cbn [app HasPrefix].
      by rewrite (proj2 (Z.eqb_neq 58 c)) by done. }
  cbv iota zeta beta. rewrite bool_decide_false by (by intros [? _]).
  rewrite (loop_groups (g :: gs)) by (done || simpl in *; lia). cbn [app].
  assert (length (flat (g :: gs)) = 16)%nat as -> by (rewrite flat_length; lia). done.
Qed.

Lemma parseIPv6_ellipsis hd tl n : Forall is_group hd -> Forall is_group tl ->
  (length hd + n + length tl = 8)%nat -> (1 <= n)%nat ->
  parseIPv6 (join_groups hd true ++ [58; 58] ++ join_groups tl true) =
    Some (flat hd ++ replicate (2 * n) 0 ++ flat tl).
Proof.
  intros Hh Ht Hl Hn. unfold parseIPv6. destruct hd as [|g hd].
  - cbn [join_groups app HasPrefix]. rewrite Z.eqb_refl. cbn [andb drop flat].
    destruct tl as [|t tl].
    { rewrite bool_decide_true by done. simpl in Hl. by replace n with 8%nat by lia. }
    pose proof Ht as [Ht' _]%Forall_cons. destruct (hex_of_group_cons t Ht') as (c & r & Hc & _).
    rewrite bool_decide_false by (intros [_ ?]; simpl in *; by rewrite Hc in *).
    rewrite (loop_groups (t :: tl)) by first [done|simpl in *; lia]. cbn [app].
    rewrite flat_length. destruct (Nat.ltb_spec (2 * length (t :: tl)) 16); [|simpl in *; lia].
    rewrite take_0, drop_0. by replace (16 - 2 * length (t :: tl))%nat with (2 * n)%nat
      by (simpl in *; lia).
  - pose proof Hh as [Hg _]%Forall_cons. destruct (hex_of_group_cons g Hg) as (c & r & Hc & Hc58 & _).
    replace (HasPrefix (join_groups (g :: hd) true ++ [58; 58] ++ join_groups tl true) [58; 58])
      with false.
    2:{ cbn [join_groups app]. rewrite Hc. cbn [app HasPrefix].
        by rewrite (proj2 (Z.eqb_neq 58 c)) by done. }
    cbv iota zeta beta. rewrite bool_decide_false by (by intros [? _]).
    rewrite (loop_ellipsis (g :: hd)) by first [done|simpl in *; lia]. cbn [app].
    rewrite length_app, !flat_length.
    destruct (Nat.ltb_spec (2 * length (g :: hd) + 2 * length tl) 16); [|simpl in *; lia].
    rewrite <- (flat_length (g :: hd)), take_app_length, drop_app_length, flat_length.
    by replace (16 - (2 * length (g :: hd) + 2 * length tl))%nat with (2 * n)%nat
      by (simpl in *; lia).
Qed.

Lemma To4_v6 ip v4 : length ip = 16%nat -> To4 ip = Some v4 ->
  ip = v4_in_v6_prefix ++ v4 /\ length v4 = 4%nat.
Proof.
  intros Hl. unfold To4. rewrite Hl. cbn [Nat.eqb andb].
  destruct (HasPrefix ip v4_in_v6_prefix) eqn:E; [|done].
  intros [= <-]. apply HasPrefix_spec in E as [k ->]. rewrite length_app in Hl.
  assert (length v4_in_v6_prefix = 12)%nat as H12 by done.
  rewrite drop_app_length' by done. split; [done|]. lia.
Qed.

(** Every address that is printed is read back. *)
Lemma ParseIP_ip_String ip : are_bytes ip -> length ip = 16%nat -> ParseIP (ip_String ip) = Some ip.
Proof.
  intros Hip Hl. unfold ip_String. destruct (To4 ip) as [v4|] eqn:E.
  - apply To4_v6 in E as [-> Hv4]; [|done]. apply Forall_app in Hip as [_ Hip].
    destruct v4 as [|a [|b [|c [|d [|]]]]]; try discriminate. by apply ParseIP_string_v4.
  - destruct (string_v6_shape ip Hip Hl)
      as [(gs & -> & Hgs & Hl8 & <-)|(hd & tl & n & -> & Hh & Ht & Hl8 & Hn & ->)].
    + rewrite ParseIP_v6; [by apply parseIPv6_plain| |by apply join_groups_chars].
      rewrite <- (app_nil_r (join_groups gs true)). apply first_separator_groups; [by destruct gs|done|lia].
    + assert (Forall ip_char ([58; 58] ++ join_groups tl true)) as Hc.
      { repeat (constructor; [unfold ip_char; lia|]). by apply join_groups_chars. }
      rewrite ParseIP_v6; [by apply parseIPv6_ellipsis| |].
      * destruct hd as [|g hd]; [done|]. by apply first_separator_groups; auto.
      * apply Forall_app. split; [by apply join_groups_chars|done].
Qed.

(** The text of an address has only digits, letters, dots and colons. *)
Lemma itoa_fuel_digits fuel n acc : Forall (fun c => 48 <= c <= 57) acc ->
  Forall (fun c => 48 <= c <= 57) (itoa_fuel fuel n acc).
Proof.
  revert n acc. induction fuel as [|fuel IH]; intros n acc H; [done|]. cbn [itoa_fuel].
  assert (Forall (fun c => 48 <= c <= 57) (48 + n mod 10 :: acc)).
  { constructor; [|done]. pose proof (Z.mod_pos_bound n 10). lia. }
  destruct (n <? 10); [done|]. by apply IH.
Qed.

Lemma itoa_digits n : Forall (fun c => 48 <= c <= 57) (itoa n).
Proof. by apply itoa_fuel_digits. Qed.

Lemma ip_String_chars ip : are_bytes ip -> length ip = 16%nat -> Forall ip_char (ip_String ip).
Proof.
  intros Hip Hl. unfold ip_String. destruct (To4 ip) as [v4|] eqn:E.
  - apply To4_v6 in E as [-> Hv4]; [|done].
    destruct v4 as [|a [|b [|c [|d [|]]]]]; try discriminate. unfold string_v4.
    assert (forall n, Forall ip_char (itoa n)) as Hn.
    { intros n. eapply Forall_impl; [apply itoa_digits|]. intros. unfold ip_char. simpl in *. lia. }
    assert (ip_char 46) by (unfold ip_char; lia).
    repeat first [apply Forall_app; split; [apply Hn|] | constructor; [done|]]. apply Hn.
  - assert (ip_char 58) by (unfold ip_char; lia).
    destruct (string_v6_shape ip Hip Hl)
      as [(gs & -> & Hgs & _)|(hd & tl & n & -> & Hh & Ht & _)]; [by apply join_groups_chars|].
    apply Forall_app. split; [by apply join_groups_chars|].
    repeat (constructor; [done|]). by apply join_groups_chars.
Qed.

(** ** Parsed addresses have sixteen bytes *)

Lemma digits_value_nonneg_acc ds acc : forallb is_digit_byte ds = true -> 0 <= acc ->
  0 <= fold_left (fun acc b => acc * 10 + (b - 48)) ds acc.
Proof.
  revert acc. induction ds as [|d ds IH]; intros acc Hd Ha; simpl in *; [done|].
  apply andb_true_iff in Hd as [Hd Hds]. apply IH; [done|]. unfold is_digit_byte, in_range in Hd. lia.
Qed.

Lemma parse_octet_byte f o : parse_octet f = Some o -> is_byte o.
Proof.
  unfold parse_octet. intros Ho. repeat (case_match; try discriminate). simplify_eq.
  assert (forallb is_digit_byte f = true) as Hd by (destruct (forallb _ _); [done|]; by rewrite orb_true_r in *).
  pose proof (digits_value_nonneg_acc f 0 Hd). unfold digits_value, is_byte in *. lia.
Qed.

Lemma parseIPv4Fields_wf s q : parseIPv4Fields s = Some q -> are_bytes q /\ length q = 4%nat.
Proof.
  intros Hq. split; [|by eapply parseIPv4Fields_length]. unfold parseIPv4Fields in Hq.
  repeat (case_match; try discriminate). simplify_option_eq. eauto 10 using parse_octet_byte.
Qed.

Lemma put_be16_bytes v : are_bytes (put_be16 v).
Proof. repeat constructor; apply uint8_byte. Qed.

(** What the loop of [parseIPv6] has parsed so far. *)
Definition loop_wf (ip : bytes) (e : option nat) : Prop :=
  are_bytes ip /\ (length ip <= 16)%nat /\ Nat.Even (length ip) /\
  match e with Some i => (i <= length ip)%nat | None => True end.

Lemma loop_wf_group ip e g : loop_wf ip e -> (length ip < 16)%nat ->
  loop_wf (ip ++ put_be16 g) e /\ loop_wf (ip ++ put_be16 g) (Some (length (ip ++ put_be16 g))).
Proof.
  intros (Hb & Hl & [k Hk] & He) Hlt. unfold loop_wf. rewrite !length_app. cbn [put_be16 length].
  assert (are_bytes (ip ++ put_be16 g)) by (apply Forall_app; split; [done|apply put_be16_bytes]).
  split_and!; try done; try lia; try (exists (S k); lia). destruct e; lia.
Qed.

Lemma parseIPv6_loop_wf fuel s ip e ip' e' s' :
  loop_wf ip e -> parseIPv6_loop fuel s ip e = Some (ip', e', s') -> loop_wf ip' e'.
Proof.
  revert s ip e. induction fuel as [|fuel IH]; intros s ip e Hw; cbn [parseIPv6_loop]; [congruence|].
  destruct (Nat.leb_spec 16 (length ip)) as [|Hlt]; [congruence|].
  destruct (hex_group s 0 0) as [[[acc off] rest]|]; [|done].
  destruct (loop_wf_group ip e acc Hw Hlt) as [H1 H2].
  destruct (off =? 0)%nat; [done|].
  destruct rest as [|c rest]; [by intros [= <- <- <-]|].
  destruct (decide (c = 46)) as [->|Hn46].
  { case_match; [done|]. destruct (Nat.ltb_spec 16 (length ip + 4)); [done|].
    destruct (parseIPv4Fields s) as [q|] eqn:Eq; [|done]. intros [= <- <- <-].
    apply parseIPv4Fields_wf in Eq as [Hq Hq4]. destruct Hw as (Hb & Hl & [k Hk] & He). unfold loop_wf.
    rewrite length_app, Hq4. split_and!; [by apply Forall_app|lia|exists (k + 2)%nat; lia|].
    destruct e; [lia|done]. }
  destruct (decide (c = 58)) as [->|Hn58]; [|intros Hc; exfalso; revert Hc; repeat (case_match; try congruence)].
  destruct rest as [|c' rest]; [done|].
  destruct (decide (c' = 58)) as [->|Hn].
  - destruct e; [done|]. destruct rest; [by intros [= <- <- <-]|]. by apply IH.
  - intros Hc. apply (IH (c' :: rest) (ip ++ put_be16 acc) e H1). rewrite <-Hc.
    symmetry. repeat (case_match; try congruence).
Qed.

(** Whatever the text, a parsed address is sixteen bytes. *)
Lemma ParseIP_wf s ip : ParseIP s = Some ip -> are_bytes ip /\ length ip = 16%nat.
Proof.
  unfold ParseIP. destruct (first_separator s) as [c|]; [|done].
  destruct (decide (c = 46)) as [->|Hn46].
  { destruct (parseIPv4Fields s) as [q|] eqn:Eq; [|done]. intros [= <-].
    apply parseIPv4Fields_wf in Eq as [Hq Hq4]. split; [|simpl; lia].
    by repeat constructor. }
  destruct (decide (c = 58)) as [->|Hn58]; [|intros Hc; exfalso; revert Hc; repeat (case_match; try congruence)].
  case_bool_decide; [done|]. unfold parseIPv6.
  destruct (if HasPrefix s [58; 58] then _ else _) as [e s'] eqn:E.
  case_bool_decide; [intros [= <-]; split; [by repeat constructor|done]|].
  assert (loop_wf [] e) as Hw.
  { split_and!; [constructor|simpl; lia|by exists 0%nat|]. destruct (HasPrefix s [58; 58]); by simplify_eq. }
  destruct (parseIPv6_loop 9 s' [] e) as [[[ip' e'] rest]|] eqn:El; [|done].
  destruct (parseIPv6_loop_wf _ _ _ _ _ _ _ Hw El) as (Hb & Hl & _ & He).
  destruct rest; [|done]. destruct (Nat.ltb_spec (length ip') 16).
  - destruct e' as [i|]; [|done]. intros [= <-]. split.
    + apply Forall_app; split; [by apply Forall_take|]. apply Forall_app; split; [|by apply Forall_drop].
      apply Forall_replicate. unfold is_byte. lia.
    + rewrite !length_app, length_take, length_replicate, length_drop. lia.
  - destruct e'; [done|]. intros [= <-]. split; [done|lia].
Qed.
