(* ===== verification/Common.v ===== *)
(** * Helpers shared by the proxy (src/dnscrypt-proxy/common.go)

    Length-prefixed TCP framing ([PrefixWithSize], [ReadPrefixed]), string
    helpers, and the line-oriented rule-file parsing every rule plugin uses
    ([ProcessConfigLines], [ParseTimeBasedRule], [ParseIPRule],
    [LoadIPRules]). *)

From S2P Require Import Prelude GoStrings NetIP.

(** ** Constants *)

Inductive CryptoConstruction :=
| UndefinedConstruction | XSalsa20Poly1305 | XChacha20Poly1305 | XWingPQ.

#[global] Instance CryptoConstruction_eq_dec : EqDecision CryptoConstruction.
Proof. solve_decision. Defined.

Definition ClientMagicLen : Z := 8.
Definition CertMagic : bytes := [68; 78; 83; 67].
Definition ServerMagic : bytes := [114; 54; 102; 110; 118; 87; 106; 56].
Definition MinDNSPacketSize : Z := 12 + 5.
Definition MaxDNSPacketSize : Z := 4096.
Definition MaxDNSUDPPacketSize : Z := 4096.
Definition MaxDNSUDPSafePacketSize : Z := 1252.
Definition InitialMinQuestionSize : Z := 512.

Definition Min (a b : Z) : Z := if a <? b then a else b.
Definition Max (a b : Z) : Z := if a >? b then a else b.

(** ** Framing *)

Inductive frame_error := PacketTooLarge | PacketTooShort | ReadError.

#[global] Instance frame_error_eq_dec : EqDecision frame_error.
Proof. solve_decision. Defined.

(** Two bytes are appended, the packet is moved up by two and its length is
    written at the front. *)
Definition PrefixWithSize (packet : bytes) : result frame_error bytes :=
  let packetLen := len packet in
  if packetLen >? 65535 then Err PacketTooLarge
  else
    let packet := packet ++ [0] ++ [0] in
    let packet := take 2 packet ++ take (length packet - 2) packet in
    Ok (put_be16 (uint16 (len packet - 2)) ++ drop 2 packet).

(** What successive calls of [conn.Read] return: data or an error.  A list
    that runs out is a connection that reports an error. *)
Inductive read_outcome := RData (data : bytes) | RFail.

(** [buf[pos:]] is overwritten with as much of the data as fits. *)
Definition read_into (buf : bytes) (pos : Z) (data : bytes) : bytes * Z :=
  let data := take (Z.to_nat (len buf - pos)) data in
  (take (Z.to_nat pos) buf ++ data ++ drop (Z.to_nat pos + length data) buf, len data).

Arguments read_into : simpl never.

Fixpoint ReadPrefixed_loop (reads : list read_outcome) (buf : bytes)
    (packetLength pos : Z) : result frame_error bytes :=
  match reads with
  | [] | RFail :: _ => Err ReadError
  | RData data :: reads' =>
      let '(buf, readnb) := read_into buf pos data in
      let pos := pos + readnb in
      let continue packetLength :=
        if (packetLength >=? 0) && (pos >=? 2 + packetLength)
        then Ok (take (Z.to_nat packetLength) (drop 2 buf))
        else ReadPrefixed_loop reads' buf packetLength pos in
      if (pos >=? 2) && (packetLength <? 0) then
        let packetLength := be16 (nth 0 buf 0) (nth 1 buf 0) in
        if packetLength >? MaxDNSPacketSize - 1 then Err PacketTooLarge
        else if packetLength <? MinDNSPacketSize then Err PacketTooShort
        else continue packetLength
      else continue packetLength
  end.

Definition ReadPrefixed (conn : list read_outcome) : result frame_error bytes :=
  ReadPrefixed_loop conn (replicate (Z.to_nat (2 + MaxDNSPacketSize)) 0) (-1) 0.

(** ** Strings *)

(** The swap loop of [StringReverse], [n] rounds from [i] upwards and [j]
    downwards. *)
Fixpoint reverse_loop (n i j : nat) (r : list Z) : list Z :=
  match n with
  | O => r
  | S n' =>
      let ri := nth i r 0 in let rj := nth j r 0 in
      reverse_loop n' (S i) (j - 1)%nat (<[j := ri]> (<[i := rj]> r))
  end.

Definition StringReverse (s : bytes) : bytes :=
  let r := runes s in
  of_runes (reverse_loop (length r / 2) 0 (length r - 1) r).

Definition StringTwoFields (s : bytes) : bytes * bytes * bool :=
  if len s <? 3 then ([], [], false)
  else match IndexSpace s with
  | None => ([], [], false)
  | Some pos =>
      let a := TrimSpace (take pos s) in
      let b := TrimSpace (drop (pos + 1) s) in
      if (len a =? 0) || (len b =? 0) then (a, b, false) else (a, b, true)
  end.

Definition StringStripSpaces (s : bytes) : bytes :=
  of_runes (List.filter (fun r => negb (IsSpace r)) (runes s)).

Definition TrimAndStripInlineComments (s : bytes) : bytes :=
  match LastIndexByte s 35 with
  | Some idx =>
      if (idx =? 0)%nat || (nth 0 s 0 =? 35) then []
      else
        let prev := nth (idx - 1) s 0 in
        TrimSpace (if (prev =? 32) || (prev =? 9) then take (idx - 1) s else s)
  | None => TrimSpace s
  end.

Definition ExtractHostAndPort (s : bytes) (defaultPort : Z) : bytes * Z :=
  match LastIndexByte s 58 with
  | Some idx =>
      if (idx <? length s - 1)%nat then
        match Atoi (drop (idx + 1) s) with
        | Some portX => (take idx s, portX)
        | None => (s, defaultPort)
        end
      else (s, defaultPort)
  | None => (s, defaultPort)
  end.

Definition utf8_bom : bytes := [239; 187; 191].

(** What [ReadTextFile] makes of the file's content. *)
Definition ReadTextFile (bin : bytes) : bytes := TrimPrefix bin utf8_bom.

Definition isDigit (b : Z) : bool := (b >=? 48) && (b <=? 57).

Definition fqdn (name : bytes) : bytes :=
  if (len name =? 0) || (nth (length name - 1) name 0 =? 46) then name
  else name ++ [46].

(** ** Reverse lookup names *)

(** The labels of [v4] or of the nibbles of an IPv6 address, last first. *)
Definition reverseAddr (addr : bytes) : option bytes :=
  match ParseIP addr with
  | None => None
  | Some ip =>
      match To4 ip with
      | Some v4 =>
          Some ((reverse v4 ≫= fun b => itoa b ++ [46]) ++ str "in-addr.arpa.")
      | None =>
          Some ((reverse ip ≫= fun v =>
                   [hex_digit (Z.land v 15); 46; hex_digit (Z.shiftr v 4); 46])
                ++ str "ip6.arpa.")
      end
  end.

(** ** Rule files *)

Inductive rule_error :=
| UnexpectedAt (line : Z)
| TimeRangeNotFound (name : bytes) (line : Z)
| SuspiciousIPRule (rule : bytes) (line : Z)
| EmptyIPRule (line : Z)
| WildcardNotSuffix (rule : bytes) (line : Z).

#[global] Instance rule_error_eq_dec : EqDecision rule_error.
Proof. solve_decision. Defined.

Definition ParseTimeBasedRule {W} (line : bytes) (lineNo : Z)
    (allWeeklyRanges : gmap bytes W) : result rule_error (bytes * option W) :=
  let lookup rulePart timeRangeName :=
    if len timeRangeName >? 0 then
      match allWeeklyRanges !! timeRangeName with
      | Some w => Ok (rulePart, Some w)
      | None => Err (TimeRangeNotFound timeRangeName (1 + lineNo))
      end
    else Ok (rulePart, None) in
  match Split line 64 with
  | [rulePart; name] => lookup (TrimSpace rulePart) (TrimSpace name)
  | _ :: _ :: _ :: _ => Err (UnexpectedAt (1 + lineNo))
  | _ => lookup line []
  end.

Section rules.
Context (unicode_lower : bytes -> bytes).

Definition ParseIPRule (line : bytes) (lineNo : Z) : result rule_error (bytes * bool) :=
  let ip := ParseIP line in
  let trailingStar := HasSuffix line (str "*") in
  if (len line <? 2) || (bool_decide (is_Some ip) && trailingStar)
  then Err (SuspiciousIPRule line (1 + lineNo))
  else
    let cleanLine := line in
    let cleanLine := if trailingStar then take (length cleanLine - 1) cleanLine
                     else cleanLine in
    let cleanLine :=
      if HasSuffix cleanLine (str ":") || HasSuffix cleanLine (str ".")
      then take (length cleanLine - 1) cleanLine else cleanLine in
    if len cleanLine =? 0 then Err (EmptyIPRule (1 + lineNo))
    else if Contains cleanLine (str "*")
    then Err (WildcardNotSuffix line (1 + lineNo))
    else Ok (ToLower unicode_lower cleanLine, trailingStar).

(** The loop of [ProcessConfigLines]; the processor's captured variables are
    the state [St], kept when it reports an error. *)
Fixpoint process_lines {St E} (processor : bytes -> Z -> St -> St * option E)
    (lines : list bytes) (lineNo : Z) (st : St) : St * option E :=
  match lines with
  | [] => (st, None)
  | line :: lines' =>
      let line := TrimAndStripInlineComments line in
      if len line =? 0 then process_lines processor lines' (lineNo + 1) st
      else match processor line lineNo st with
      | (st, Some e) => (st, Some e)
      | (st, None) => process_lines processor lines' (lineNo + 1) st
      end
  end.

Definition ProcessConfigLines {St E} (lines : bytes)
    (processor : bytes -> Z -> St -> St * option E) (st : St) : St * option E :=
  process_lines processor (Split lines 10) 0 st.

(** The CIDR table is [critbitgo.Net]; [AddCIDR] returns [None] on a text
    that is not in CIDR notation. *)
Context {Net : Type} (AddCIDR : bytes -> Net -> option Net).

Record ip_rules := {
  prefixes : gset bytes;
  ips : gset bytes;
  networks : option Net;
}.

(** The closure of [LoadIPRules]. *)
Definition LoadIPRule (line : bytes) (lineNo : Z) (r : ip_rules)
    : ip_rules * option rule_error :=
  if Contains line (str "/") then
    match networks r with
    | None => (r, None)
    | Some nets =>
        match AddCIDR line nets with
        | Some nets => ({| prefixes := prefixes r; ips := ips r; networks := Some nets |}, None)
        | None => (r, None)
        end
    end
  else match ParseIPRule line lineNo with
  | Err _ => (r, None)
  | Ok (cleanLine, trailingStar) =>
      if trailingStar
      then ({| prefixes := {[cleanLine]} ∪ prefixes r; ips := ips r;
               networks := networks r |}, None)
      else ({| prefixes := prefixes r; ips := {[cleanLine]} ∪ ips r;
               networks := networks r |}, None)
  end.

Definition LoadIPRules (lines : bytes) (r : ip_rules) : ip_rules * option rule_error :=
  ProcessConfigLines lines LoadIPRule r.
End rules.
Arguments ip_rules : clear implicits.

(** ** Framing: lemmas *)

Lemma PrefixWithSize_eq packet : len packet <= 65535 ->
  PrefixWithSize packet = Ok (put_be16 (len packet) ++ packet).
Proof.
  intros H. pose proof (len_nonneg packet). unfold PrefixWithSize.
  replace (len packet >? 65535) with false by lia. f_equal.
  replace (length (packet ++ [0%Z] ++ [0%Z]) - 2)%nat with (length packet)
    by (rewrite length_app; simpl; lia).
  rewrite (take_app_length packet).
  assert (length (take 2 (packet ++ [0] ++ [0])) = 2%nat) as H2
    by (rewrite length_take, !length_app; cbn [length]; lia).
  rewrite drop_app_length' by done. rewrite len_app.
  replace (len (take 2 (packet ++ [0] ++ [0]))) with 2 by (unfold len; lia).
  unfold uint16. rewrite Z.mod_small by lia. do 2 f_equal. lia.
Qed.

Lemma read_into_spec buf pos data : 0 <= pos <= len buf ->
  let '(buf', n) := read_into buf pos data in
  len buf' = len buf /\ n = Z.min (len data) (len buf - pos) /\
  take (Z.to_nat (pos + n)) buf' = take (Z.to_nat pos) buf ++ take (Z.to_nat n) data.
Proof.
  intros Hpos. unfold read_into, len in *.
  set (d := take _ data).
  assert (Z.of_nat (length d) = Z.min (Z.of_nat (length data)) (Z.of_nat (length buf) - pos)) as Hd
    by (unfold d; rewrite length_take; lia).
  assert (length (take (Z.to_nat pos) buf) = Z.to_nat pos) as Ht by (rewrite length_take; lia).
  split_and!; [rewrite !length_app, length_drop; lia|done|].
  rewrite app_assoc. rewrite take_app_length' by (rewrite length_app; lia).
  f_equal. unfold d. rewrite length_take, Nat2Z.id.
  destruct (Nat.le_ge_cases (length data) (Z.to_nat (Z.of_nat (length buf) - pos))) as [Hl|Hl].
  - by rewrite Nat.min_r, !take_ge by lia.
  - by rewrite Nat.min_l by lia.
Qed.

(** The bytes a packet occupies on a TCP stream. *)
Definition frame (p : bytes) : bytes := put_be16 (len p) ++ p.
Arguments frame : simpl never.

Section read.
Context (p extra : bytes).
Context (Hmin : MinDNSPacketSize <= len p) (Hmax : len p <= MaxDNSPacketSize - 1).

Local Notation wire := (frame p).

(** What the read loop keeps while it still waits for data: the bytes of the
    buffer up to [pos], followed by what is still to come, are the stream. *)
Definition read_inv (buf : bytes) (packetLength pos : Z) (rest : bytes) : Prop :=
  len buf = 2 + MaxDNSPacketSize /\ 0 <= pos < 2 + len p /\
  take (Z.to_nat pos) buf ++ rest = wire ++ extra /\
  packetLength = if pos <? 2 then -1 else len p.

Lemma len_wire : len wire = 2 + len p.
Proof. unfold frame. rewrite len_app. done. Qed.

Lemma wire_head buf n : 2 <= n <= len buf ->
  take (Z.to_nat n) buf `prefix_of` wire ++ extra ->
  be16 (nth 0 buf 0) (nth 1 buf 0) = len p.
Proof.
  intros Hn Hpre. unfold MinDNSPacketSize, MaxDNSPacketSize in *.
  destruct (Z.to_nat n) as [|[|m]] eqn:En; [lia..|].
  destruct buf as [|x [|y buf]]; cbn [len length] in *; [unfold len in *; simpl in *; lia..|].
  simpl in Hpre. destruct Hpre as [k Hk]. unfold frame, put_be16 in Hk. simpl in Hk.
  injection Hk as <- <- _. simpl. apply be16_put. lia.
Qed.

Lemma wire_body buf n : 2 + len p <= n <= len buf ->
  take (Z.to_nat n) buf `prefix_of` wire ++ extra ->
  take (Z.to_nat (len p)) (drop 2 buf) = p.
Proof.
  intros Hn [k Hk]. pose proof len_wire.
  rewrite <-(take_drop (Z.to_nat n) buf).
  rewrite drop_app_le, take_app_le.
  - apply (f_equal (fun l => take (Z.to_nat (len p)) (drop 2 l))) in Hk.
    rewrite (drop_app_le (take _ _)), (take_app_le (drop _ _)) in Hk.
    + rewrite <-Hk. unfold frame, put_be16. simpl.
      rewrite drop_0, take_app_length' by (unfold len; lia). done.
    + rewrite length_drop, length_take. unfold len in *. lia.
    + rewrite length_take. unfold len in *. lia.
  - rewrite length_drop, length_take. unfold len in *. lia.
  - rewrite length_take. unfold len in *. lia.
Qed.

Lemma ReadPrefixed_loop_ok chunks buf packetLength pos :
  read_inv buf packetLength pos (concat chunks) ->
  ReadPrefixed_loop (RData <$> chunks) buf packetLength pos = Ok p.
Proof.
  revert buf packetLength pos.
  induction chunks as [|d chunks IH]; intros buf pl pos (Hbuf & Hpos & Hstr & Hpl).
  - exfalso. cbn [concat] in Hstr. rewrite app_nil_r in Hstr.
    apply (f_equal len) in Hstr. rewrite len_app, len_wire in Hstr.
    unfold len in *. rewrite length_take in Hstr. lia.
  - cbn [fmap list_fmap ReadPrefixed_loop]. pose proof (read_into_spec buf pos d) as Hread.
    unfold MinDNSPacketSize, MaxDNSPacketSize in *.
    destruct (read_into buf pos d) as [buf' n].
    destruct Hread as (Hbuf' & Hn & Htake); [lia|].
    pose proof (len_nonneg d).
    assert (take (Z.to_nat (pos + n)) buf' `prefix_of` wire ++ extra) as Hpre.
    { rewrite Htake, <-Hstr. cbn [concat].
      rewrite <-(take_drop (Z.to_nat n) d) at 2. rewrite <-!app_assoc, (app_assoc (take _ buf)).
      by eexists. }
    assert (0 <= len p) by apply len_nonneg.
    assert (forall pl', (pos + n <? 2) = false -> pl' = len p ->
      (if (pl' >=? 0) && (pos + n >=? 2 + pl')
       then Ok (take (Z.to_nat pl') (drop 2 buf'))
       else ReadPrefixed_loop (RData <$> chunks) buf' pl' (pos + n)) = Ok p) as Hcont.
    { intros ? Hge ->. bools. replace (len p >=? 0) with true by lia. cbn [andb].
      destruct (pos + n >=? 2 + len p) eqn:Hdone; bools.
      - f_equal. apply (wire_body _ (pos + n)); [lia|done].
      - apply IH. unfold read_inv, MaxDNSPacketSize. split_and!; [lia|lia|lia| |].
        + rewrite Htake, <-Hstr. cbn [concat]. rewrite <-app_assoc. f_equal.
          rewrite take_ge by (unfold len in *; lia). done.
        + by replace (pos + n <? 2) with false by lia. }
    destruct (pos + n >=? 2) eqn:H2; bools; cbn [andb].
    + destruct (pos <? 2) eqn:Hp2; subst pl; bools.
      * change (-1 <? 0) with true. cbn [andb].
        rewrite (wire_head buf' (pos + n)) by (done || lia).
        replace (len p >? 4096 - 1) with false by lia.
        replace (len p <? 12 + 5) with false by lia. apply Hcont; [lia|done].
      * replace (len p <? 0) with false by lia. apply Hcont; [lia|done].
    + assert (pos <? 2 = true) as Hp2 by lia. rewrite Hp2 in Hpl. subst pl. cbn [andb Z.geb Z.compare].
      apply IH. unfold read_inv, MaxDNSPacketSize. split_and!; [lia|lia|lia| |].
      * rewrite Htake, <-Hstr. cbn [concat]. rewrite <-app_assoc. f_equal.
        rewrite take_ge by (unfold len in *; lia). done.
      * by replace (pos + n <? 2) with true by lia.
Qed.
End read.

(** ** The swap loop reverses *)

Lemma reverse_loop_length n i j r : length (reverse_loop n i j r) = length r.
Proof.
  revert i j r. induction n as [|n IH]; intros i j r; simpl; [done|].
  by rewrite IH, !length_insert.
Qed.

(** [n] rounds exchange the outermost [n] pairs and leave the middle. *)
Lemma reverse_loop_lookup n i r t :
  (2 * (i + n) <= length r)%nat -> (t < length r)%nat ->
  reverse_loop n i (length r - 1 - i) r !! t =
  if decide (i <= t < i + n \/ length r - i - n <= t < length r - i)%nat
  then r !! (length r - 1 - t)%nat else r !! t.
Proof.
  revert i r. induction n as [|n IH]; intros i r Hn Ht; simpl.
  - rewrite decide_False by lia. done.
  - set (j := (length r - 1 - i)%nat).
    set (r' := <[j:=nth i r 0]> (<[i:=nth j r 0]> r)).
    assert (length r' = length r) as Hl by (unfold r'; by rewrite !length_insert).
    replace (j - 1)%nat with (length r' - 1 - S i)%nat by (unfold j; lia).
    rewrite IH by lia. rewrite Hl.
    assert (forall u, (u < length r)%nat -> r' !! u =
      if decide (u = i \/ u = j) then r !! (length r - 1 - u)%nat else r !! u) as Hr'.
    { intros u Hu. unfold r'. destruct (decide (u = j)) as [->|Hj].
      - rewrite list_lookup_insert_eq by (rewrite length_insert; unfold j; lia).
        rewrite decide_True by auto. replace (length r - 1 - j)%nat with i by (unfold j; lia).
        symmetry. apply nth_lookup_lt. unfold j in *; lia.
      - rewrite list_lookup_insert_ne by done. destruct (decide (u = i)) as [->|Hi].
        + rewrite list_lookup_insert_eq by lia. rewrite decide_True by auto.
          symmetry. apply nth_lookup_lt. unfold j; lia.
        + rewrite list_lookup_insert_ne by done. by rewrite decide_False by naive_solver. }
    rewrite !Hr' by lia. unfold j.
    repeat case_decide; try lia; f_equal; lia.
Qed.

Lemma reverse_loop_reverse r :
  reverse_loop (length r / 2) 0 (length r - 1) r = reverse r.
Proof.
  apply list_eq. intros t.
  destruct (decide (t < length r)%nat) as [Ht|Ht].
  - pose proof (Nat.div_mod (length r) 2 ltac:(lia)) as Hdm.
    pose proof (Nat.mod_upper_bound (length r) 2 ltac:(lia)).
    replace (length r - 1)%nat with (length r - 1 - 0)%nat by lia.
    rewrite reverse_loop_lookup by lia. rewrite reverse_lookup by lia.
    case_decide; f_equal; lia.
  - rewrite !lookup_ge_None_2; [done|..]; rewrite ?length_reverse, ?reverse_loop_length; lia.
Qed.

Lemma StringReverse_runes s : StringReverse s = of_runes (reverse (runes s)).
Proof. unfold StringReverse. by rewrite reverse_loop_reverse. Qed.

Lemma StringReverse_ascii s : Forall (fun b => 0 <= b < 128) s -> StringReverse s = reverse s.
Proof.
  intros H. rewrite StringReverse_runes, runes_ascii by done.
  apply of_runes_ascii. by apply Forall_reverse.
Qed.

Lemma ReadPrefixed_loop_bounds reads buf packetLength pos packet :
  len buf = 2 + MaxDNSPacketSize -> 0 <= pos <= len buf ->
  (packetLength < 0 \/ MinDNSPacketSize <= packetLength <= MaxDNSPacketSize - 1) ->
  ReadPrefixed_loop reads buf packetLength pos = Ok packet ->
  MinDNSPacketSize <= len packet <= MaxDNSPacketSize - 1.
Proof.
  revert buf packetLength pos.
  induction reads as [|[d|] reads IH]; intros buf pl pos Hbuf Hpos Hpl; [done| |done].
  cbn [ReadPrefixed_loop]. pose proof (read_into_spec buf pos d Hpos) as Hread.
  destruct (read_into buf pos d) as [buf' n]. destruct Hread as (Hbuf' & Hn & _).
  pose proof (len_nonneg d).
  assert (forall pl', (pl' < 0 \/ MinDNSPacketSize <= pl' <= MaxDNSPacketSize - 1) ->
    (if (pl' >=? 0) && (pos + n >=? 2 + pl')
     then Ok (take (Z.to_nat pl') (drop 2 buf'))
     else ReadPrefixed_loop reads buf' pl' (pos + n)) = Ok packet ->
    MinDNSPacketSize <= len packet <= MaxDNSPacketSize - 1) as Hcont.
  { intros pl' Hpl' Hr. split_ifs_in Hr.
    - simplify_eq. unfold len in *. rewrite length_take, length_drop.
      unfold MaxDNSPacketSize in *. lia.
    - by apply (IH buf' pl' (pos + n)); [lia..| |]. }
  intros Hr. cbv zeta in Hr.
  destruct ((pos + n >=? 2) && (pl <? 0)); [|by apply (Hcont pl)].
  destruct (be16 _ _ >? _) eqn:Hlarge; [done|].
  destruct (be16 _ _ <? _) eqn:Hshort; [done|]. bools.
  by apply (Hcont (be16 (nth 0 buf' 0) (nth 1 buf' 0))); [right; lia|].
Qed.

(** ** Properties *)

(** C9: the length-prefixed framing of DNS over TCP round-trips whatever way
    the stream is cut: when the reads deliver, in chunks of any sizes, the frame
    [PrefixWithSize] builds for a packet of an acceptable size, followed by
    anything, [ReadPrefixed] returns exactly that packet (it terminates and
    never waits for more). *)
Theorem ReadPrefixed_PrefixWithSize packet framed chunks extra :
  MinDNSPacketSize <= len packet <= MaxDNSPacketSize - 1 ->
  PrefixWithSize packet = Ok framed ->
  concat chunks = framed ++ extra ->
  ReadPrefixed (RData <$> chunks) = Ok packet.
Proof.
  intros [Hmin Hmax] Hframed Hchunks.
  unfold MinDNSPacketSize, MaxDNSPacketSize in *.
  rewrite PrefixWithSize_eq in Hframed by lia. simplify_eq.
  apply (ReadPrefixed_loop_ok packet extra Hmin Hmax).
  unfold read_inv, MaxDNSPacketSize. split_and!; [done|lia|lia|done|done].
Qed.

Lemma ReadPrefixed_PrefixWithSize_witness :
  ReadPrefixed (RData <$> [[0]; [17]; replicate 10 7; replicate 9 7]) = Ok (replicate 17 7).
Proof.
  apply (ReadPrefixed_PrefixWithSize (replicate 17 7)
           ([0; 17] ++ replicate 17 7) _ [7; 7]); [|reflexivity..].
  vm_compute; split; discriminate.
Defined.

(** Whatever the connection returns, and however it is cut, a packet that
    [ReadPrefixed] accepts has between [MinDNSPacketSize] and
    [MaxDNSPacketSize - 1] bytes; every other stream ends in an error. *)
Theorem ReadPrefixed_bounds conn packet :
  ReadPrefixed conn = Ok packet ->
  MinDNSPacketSize <= len packet <= MaxDNSPacketSize - 1.
Proof.
  apply ReadPrefixed_loop_bounds; [done|vm_compute; split; discriminate|by left].
Qed.

Lemma ReadPrefixed_bounds_witness :
  MinDNSPacketSize <= len (replicate 17 7) <= MaxDNSPacketSize - 1.
Proof.
  apply (ReadPrefixed_bounds [RData [0; 17]; RData (replicate 17 7)]). reflexivity.
Defined.
