(* ===== verification/Platform.v ===== *)
(** * Files and paths (src/dnscrypt-proxy/permcheck_unix.go, pidfile.go, logger.go, config.go)

    The paths of Go's [path] and [path/filepath] where the separator is a slash, the search of
    the configuration file, the check of the permissions of a file and of the directories
    above it, the PID file, and the files of the logs.  The file system is a set of functions.

    The check of the permissions looks at every directory above the file, from the file on, and
    ends.  A configuration file is found under an absolute path, and the relative paths
    it has are those of its directory. *)

From S2P Require Import Prelude GoStrings Common.

(** ** Paths *)

(** [filepath.Clean] where the separator is a slash; the components kept so far are
    in reverse order. *)
Definition clean_step (rooted : bool) (out : list bytes) (c : bytes) : list bytes :=
  if bool_decide (c = []) || bool_decide (c = str ".") then out
  else if bool_decide (c = str "..") then
    match out with
    | [] => if rooted then [] else [c]
    | x :: out' => if bool_decide (x = str "..") then c :: out else out'
    end
  else c :: out.

Fixpoint join_slash (l : list bytes) : bytes :=
  match l with
  | [] => []
  | [c] => c
  | c :: l' => c ++ [47] ++ join_slash l'
  end.

Definition filepath_Clean (path : bytes) : bytes :=
  let rooted := HasPrefix path (str "/") in
  let s := join_slash (reverse (fold_left (clean_step rooted) (Split path 47) [])) in
  if rooted then [47] ++ s else if bool_decide (s = []) then str "." else s.

(** [filepath.Dir] and [path.Dir]: what precedes the last slash, cleaned. *)
Definition filepath_Dir (path : bytes) : bytes :=
  filepath_Clean (match LastIndexByte path 47 with Some i => take (S i) path | None => [] end).

Definition IsAbs (path : bytes) : bool := HasPrefix path (str "/").

(** [path.Join] of two elements, the second of which is not empty. *)
Definition path_Join (a b : bytes) : bytes :=
  filepath_Clean (if bool_decide (a = []) then b else a ++ [47] ++ b).

(** ** Permissions *)

(** What [os.Stat] tells: the permission bits, and the two flags that are looked at. *)
Record FileMode := { Perm : Z; IsDir_ : bool; ModeSticky : bool }.

Definition other_writable (m : FileMode) : bool := negb (Z.land (Perm m) 2 =? 0) && negb (IsDir_ m && ModeSticky m).

(** The answer: whether other users may write, which path is the reason, and whether there was an error. *)
Inductive permissions := Writable (path : bytes) | NotAccessible (path : bytes) | Protected.

Section permcheck.
Context (Stat : bytes -> option FileMode).

(** [None] when the fuel is not enough. *)
Fixpoint permission_loop (fuel : nat) (p : bytes) : option permissions :=
  match fuel with
  | O => None
  | S fuel' =>
      if bool_decide (p = str "/") || bool_decide (p = str ".") then Some Protected
      else match Stat p with
      | None => Some (NotAccessible p)
      | Some st => if other_writable st then Some (Writable p) else permission_loop fuel' (filepath_Dir p)
      end
  end.

Definition maybeWritableByOtherUsers (p : bytes) : option permissions :=
  let p := filepath_Clean p in permission_loop (S (length p)) p.

Inductive warning := CriticalWritable (p : bytes) | WarnWritable (p px : bytes) | WarnAccess (p px : bytes).

Definition WarnIfMaybeWritableByOtherUsers (p : bytes) : option (list warning) :=
  r ← maybeWritableByOtherUsers p;
  Some (match r with
        | Writable px => [if bool_decide (px = p) then CriticalWritable p else WarnWritable p px]
        | NotAccessible px => [WarnAccess p px]
        | Protected => []
        end).
End permcheck.

(** ** The configuration file *)

Inductive found := Exists | NotExist | StatError.

Section config_file.
(** [os.Stat] in a working directory, [os.Executable], [os.Chdir], and whether [os.Getwd] works. *)
Context (stat_in : bytes -> bytes -> found) (Executable : option bytes) (Chdir : bytes -> bool) (getwd_ok : bool).

(** The working directory after [cdLocal]; an error is only reported. *)
Definition cdLocal (cwd : bytes) : bytes :=
  match Executable with
  | None => cwd
  | Some exeFileName => let dir := filepath_Dir exeFileName in if Chdir dir then dir else cwd
  end.

Definition findConfigFile (configFile cwd : bytes) : option bytes * bytes :=
  let '(ok, cwd) :=
    match stat_in cwd configFile with
    | NotExist => let cwd := cdLocal cwd in (match stat_in cwd configFile with Exists => true | _ => false end, cwd)
    | _ => (true, cwd)
    end in
  if negb ok || negb getwd_ok then (None, cwd)
  else (Some (if IsAbs configFile then configFile else path_Join cwd configFile), cwd).

(** The working directory once the configuration file is read. *)
Definition cdFileDir (fileName : bytes) : option bytes :=
  let dir := filepath_Dir fileName in if Chdir dir then Some dir else None.
End config_file.

(** ** The PID file *)

Section pidfile.
Context (MkdirAll : bytes -> bool) (WriteFile : bytes -> bytes -> bool) (Remove : bytes -> bool) (Getpid : Z).

(** Whether it succeeds; what is written is the number of the process. *)
Definition PidFileCreate (pidFile : bytes) : bool :=
  if bool_decide (pidFile = []) then true
  else MkdirAll (filepath_Dir pidFile) && WriteFile pidFile (itoa Getpid).

Definition PidFileRemove (pidFile : bytes) : bool :=
  if bool_decide (pidFile = []) then true else Remove pidFile.
End pidfile.

(** ** The files of the logs *)

Inductive log_sink :=
  | Stdout
  | SpecialFile (fileName : bytes)
  | Rotated (fileName : bytes) (MaxSize MaxAge MaxBackups : Z).

Inductive file_kind := Missing | RegularFile | Directory | OtherFile.

(** [None] is [dlog.Fatalf].  A regular file that cannot be created is only reported. *)
Definition Logger (kind : bytes -> file_kind) (OpenFile : bytes -> bool) (logMaxSize logMaxAge logMaxBackups : Z) (fileName : bytes)
    : option log_sink :=
  if bool_decide (fileName = str "/dev/stdout") then Some Stdout
  else match kind fileName with
  | Directory => None
  | OtherFile => if OpenFile fileName then Some (SpecialFile fileName) else None
  | Missing | RegularFile => Some (Rotated fileName logMaxSize logMaxAge logMaxBackups)
  end.

(** ** Properties *)

(** *** Cleaned paths *)

(** A component that stays as it is. *)
Definition plain (s : bytes) : Prop := s <> [] /\ s <> str "." /\ s <> str ".." /\ 47 ∉ s.

(** The components of a cleaned path, in reverse order: only those of a relative path may start with [..]. *)
Definition normal (rooted : bool) (out : list bytes) : Prop :=
  exists names n, out = names ++ replicate n (str "..") /\ Forall plain names /\ (rooted = true -> n = O).

Definition print_path (rooted : bool) (segs : list bytes) : bytes :=
  if rooted then 47 :: join_slash segs else match segs with [] => str "." | _ => join_slash segs end.

Lemma clean_step_normal rooted out c : 47 ∉ c -> normal rooted out -> normal rooted (clean_step rooted out c).
Proof.
  intros Hc (names & n & -> & Hn & Hr). unfold clean_step.
  destruct (bool_decide_reflect (c = [])) as [|H1]; [by exists names, n|].
  destruct (bool_decide_reflect (c = str ".")) as [|H2]; [by exists names, n|]. cbn [orb].
  destruct (bool_decide_reflect (c = str "..")) as [->|H3].
  - destruct names as [|x names]; cbn [app].
    + destruct n as [|n]; cbn [replicate app].
      * destruct rooted; [by exists [], O|]. by exists [], 1%nat.
      * rewrite bool_decide_true by done. exists [], (S (S n)). split_and!; [done|done|]. intros E. by specialize (Hr E).
    + inversion Hn as [|? ? Hx Hn']; subst. destruct Hx as (_ & _ & Hx & _). rewrite bool_decide_false by done.
      by exists names, n.
  - exists (c :: names), n. split_and!; [done| |done]. by constructor.
Qed.

Lemma Split_chars s c w : w ∈ Split s c -> c ∉ w.
Proof.
  revert w. induction s as [|x s IH]; intros w; cbn [Split]; [by intros ->%list_elem_of_singleton; set_solver|].
  destruct (Z.eqb_spec x c).
  - intros [->|Hw]%elem_of_cons; [set_solver|auto].
  - destruct (Split s c) as [|u us] eqn:E; [by destruct (Split_not_nil s c)|].
    intros [->|Hw]%elem_of_cons; [|apply IH; set_solver]. specialize (IH u). set_solver.
Qed.

Lemma clean_fold_normal rooted l : forall out, Forall (fun c => 47 ∉ c) l -> normal rooted out ->
  normal rooted (fold_left (clean_step rooted) l out).
Proof.
  induction l as [|c l IH]; intros out Hl Hn; [done|]. inversion Hl; subst. cbn. apply IH; [done|]. by apply clean_step_normal.
Qed.

(** The components of a cleaned path, read again, are the same. *)
Lemma clean_step_plain rooted out c : plain c -> clean_step rooted out c = c :: out.
Proof. intros (H1 & H2 & H3 & _). unfold clean_step. by rewrite !bool_decide_false by done. Qed.

Lemma clean_replay rooted out : normal rooted out -> fold_left (clean_step rooted) (reverse out) [] = out.
Proof.
  intros (names & n & -> & Hn & Hr). rewrite reverse_app, fold_left_app, reverse_replicate.
  assert (fold_left (clean_step rooted) (replicate n (str "..")) [] = replicate n (str "..")) as ->.
  { destruct rooted; [by rewrite Hr by done|]. clear.
    assert (forall k m, fold_left (clean_step false) (replicate k (str "..")) (replicate m (str "..")) = replicate (k + m) (str "..")) as H.
    { induction k as [|k IH]; intros m; [done|]. cbn [replicate fold_left].
      replace (clean_step false (replicate m (str "..")) (str "..")) with (replicate (S m) (str "..")) by (by destruct m).
      rewrite IH. f_equal. lia. }
    specialize (H n O). cbn [replicate] in H. rewrite H. f_equal. lia. }
  generalize (replicate n (str "..")) as base. intros base. induction Hn as [|c names Hc Hn IH]; [done|].
  rewrite reverse_cons, fold_left_app, IH. cbn. by apply clean_step_plain.
Qed.

Lemma normal_segment rooted out c : normal rooted out -> c ∈ out -> c <> [] /\ 47 ∉ c /\ c <> str ".".
Proof.
  intros (names & n & -> & Hn & _) [Hc|Hc]%elem_of_app.
  - by destruct (proj1 (Forall_forall _ _) Hn _ Hc) as (H1 & H2 & _ & H4).
  - apply elem_of_replicate in Hc as [-> _]. split_and!; [done| |done]. cbn. intros H. set_unfold in H. by destruct H as [|[|[]]].
Qed.

Lemma Split_join segs : segs <> [] -> Forall (fun c => 47 ∉ c) segs -> Split (join_slash segs) 47 = segs.
Proof.
  induction segs as [|c segs IH]; [done|]. intros _ Hs. inversion Hs; subst. destruct segs as [|d segs].
  - by apply Split_none.
  - change (join_slash (c :: d :: segs)) with (c ++ 47 :: join_slash (d :: segs)). rewrite Split_app by done.
    by rewrite IH.
Qed.

Lemma Split_slash t : Split (t ++ [47]) 47 = Split t 47 ++ [[]].
Proof.
  induction t as [|x t IH]; [done|]. cbn [app Split]. rewrite IH. destruct (x =? 47); [done|].
  by destruct (Split t 47) as [|u us] eqn:E; [destruct (Split_not_nil t 47)|].
Qed.

(** The components of a path: those of [filepath_Clean], in order. *)
Definition components (path : bytes) : list bytes :=
  reverse (fold_left (clean_step (HasPrefix path (str "/"))) (Split path 47) []).

Lemma components_normal path : normal (IsAbs path) (reverse (components path)).
Proof.
  unfold components. rewrite reverse_involutive. apply clean_fold_normal; [|by exists [], O].
  apply Forall_forall. intros w. apply Split_chars.
Qed.

Lemma join_slash_nil segs : Forall (fun c => c <> []) segs -> join_slash segs = [] -> segs = [].
Proof. destruct segs as [|c [|d segs]]; [done| |]; intros H; inversion H; subst; cbn; [by intros ->|by destruct c]. Qed.

Lemma normal_Forall rooted segs : normal rooted (reverse segs) -> Forall (fun c => c <> [] /\ 47 ∉ c /\ c <> str ".") segs.
Proof. intros Hn. apply Forall_forall. intros c Hc. eapply normal_segment; [exact Hn|]. by rewrite elem_of_reverse. Qed.

Lemma filepath_Clean_print path : filepath_Clean path = print_path (IsAbs path) (components path).
Proof.
  unfold filepath_Clean, print_path. fold (components path). change (HasPrefix path (str "/")) with (IsAbs path).
  destruct (IsAbs path) eqn:Ea; [done|]. case_bool_decide as Hj; [|by destruct (components path)].
  apply join_slash_nil in Hj; [by rewrite Hj|]. eapply Forall_impl; [by eapply normal_Forall, components_normal|].
  by intros c [? _].
Qed.

Lemma head_join segs : Forall (fun c => c <> [] /\ 47 ∉ c /\ c <> str ".") segs -> HasPrefix (join_slash segs) (str "/") = false.
Proof.
  destruct segs as [|c segs]; [done|]. intros H. inversion H as [|? ? (H1 & H2 & _)]; subst. destruct c as [|x c]; [done|].
  assert (x <> 47) as Hx by set_solver. assert (47 =? x = false) as E by lia. change (str "/") with [47].
  destruct segs; cbn [join_slash app HasPrefix]; by rewrite E.
Qed.

(** A cleaned path, with a slash at its end or not, is clean. *)
Lemma Clean_print rooted segs (Hn : normal rooted (reverse segs)) :
  filepath_Clean (print_path rooted segs) = print_path rooted segs /\
  (segs <> [] -> filepath_Clean (print_path rooted segs ++ [47]) = print_path rooted segs).
Proof.
  assert (Hf := normal_Forall _ _ Hn).
  assert (Forall (fun c => 47 ∉ c) segs) as Hs by (eapply Forall_impl; [exact Hf|]; by intros c (_ & ? & _)).
  assert (Hr := clean_replay _ _ Hn). rewrite reverse_involutive in Hr.
  assert (IsAbs (print_path rooted segs) = rooted) as Ha.
  { unfold IsAbs, print_path. destruct rooted; [done|]. destruct segs; [done|]. by apply head_join. }
  assert (segs <> [] -> fold_left (clean_step rooted) (Split (print_path rooted segs) 47) [] = reverse segs) as Hc.
  { intros Hne. unfold print_path. destruct rooted.
    - cbn [Split]. rewrite Z.eqb_refl. cbn [fold_left]. by rewrite Split_join.
    - destruct segs; [done|]. by rewrite Split_join. }
  split.
  - rewrite filepath_Clean_print. unfold components. fold (IsAbs (print_path rooted segs)). rewrite Ha.
    destruct (decide (segs = [])) as [->|Hne]; [by destruct rooted|]. rewrite Hc by done.
    by rewrite reverse_involutive.
  - intros Hne. rewrite filepath_Clean_print. unfold components. fold (IsAbs (print_path rooted segs ++ [47])).
    replace (IsAbs (print_path rooted segs ++ [47])) with rooted.
    + rewrite Split_slash, fold_left_app, Hc by done. cbn [fold_left]. unfold clean_step at 1. rewrite bool_decide_true by done.
      cbn [orb]. by rewrite reverse_involutive.
    + revert Ha. unfold IsAbs. destruct (print_path rooted segs) as [|x t] eqn:Ep; [|by cbn].
      exfalso. revert Ep. unfold print_path. destruct rooted; [done|]. destruct segs as [|c segs]; [done|].
      intros Hj%join_slash_nil; [done|]. eapply Forall_impl; [exact Hf|]. by intros c' [? _].
Qed.

Lemma normal_prefix rooted segs s : normal rooted (reverse (segs ++ [s])) -> normal rooted (reverse segs).
Proof.
  rewrite reverse_app. cbn. intros (names & n & E & Hn & Hr). destruct names as [|x names]; cbn in E.
  - destruct n as [|n]; [done|]. injection E as _ ->. exists [], n. split_and!; [done|done|]. intros H. by specialize (Hr H).
  - injection E as _ ->. inversion Hn; subst. by exists names, n.
Qed.

Lemma LastIndexByte_none s c : c ∉ s -> LastIndexByte s c = None.
Proof.
  induction s as [|x s IH]; cbn; [done|]. intros H. rewrite IH by set_solver. destruct (Z.eqb_spec x c); [set_solver|done].
Qed.

Lemma LastIndexByte_last a c b : c ∉ b -> LastIndexByte (a ++ c :: b) c = Some (length a).
Proof.
  intros Hb. induction a as [|x a IH]; cbn; [by rewrite LastIndexByte_none, Z.eqb_refl by done|]. by rewrite IH.
Qed.

Lemma join_slash_snoc segs s : segs <> [] -> join_slash (segs ++ [s]) = join_slash segs ++ 47 :: s.
Proof.
  induction segs as [|c segs IH]; [done|]. intros _. destruct segs as [|d segs]; [done|].
  change (c ++ 47 :: join_slash ((d :: segs) ++ [s]) = (c ++ 47 :: join_slash (d :: segs)) ++ 47 :: s).
  rewrite IH by done. by rewrite <- app_assoc.
Qed.

(** The directory of a cleaned path has one component less. *)
Lemma Dir_print rooted segs s : normal rooted (reverse (segs ++ [s])) ->
  filepath_Dir (print_path rooted (segs ++ [s])) = print_path rooted segs.
Proof.
  intros Hn. assert (Hp := normal_prefix _ _ _ Hn). destruct (Clean_print _ _ Hp) as [_ Hc].
  assert (47 ∉ s) as Hs.
  { assert (Hf := normal_Forall _ _ Hn). apply Forall_app in Hf as [_ Hf]. inversion Hf; subst. tauto. }
  unfold filepath_Dir. destruct (decide (segs = [])) as [->|Hne].
  - destruct rooted; cbn [app print_path join_slash].
    + change (47 :: s) with ([] ++ 47 :: s). rewrite LastIndexByte_last by done. by vm_compute.
    + rewrite LastIndexByte_none by done. by vm_compute.
  - assert (print_path rooted (segs ++ [s]) = print_path rooted segs ++ 47 :: s) as E.
    { unfold print_path. destruct rooted; [by rewrite join_slash_snoc|]. destruct segs; [done|]. cbn [app].
      by rewrite <- join_slash_snoc. }
    rewrite E, LastIndexByte_last by done. transitivity (filepath_Clean (print_path rooted segs ++ [47])); [|by apply Hc]. f_equal.
    change (47 :: s) with ([47] ++ s). rewrite app_assoc. apply take_app_length'. rewrite length_app. cbn. lia.
Qed.

(** *** The permissions of the directories *)

Section permcheck.
Context (Stat : bytes -> option FileMode).

(** The path and the directories above it, without the root or the working directory. *)
Definition ancestors (rooted : bool) (segs : list bytes) : list bytes :=
  (fun k => print_path rooted (take k segs)) <$> reverse (seq 1 (length segs)).

Fixpoint first_problem (l : list bytes) : permissions :=
  match l with
  | [] => Protected
  | p :: l' =>
      match Stat p with
      | None => NotAccessible p
      | Some st => if other_writable st then Writable p else first_problem l'
      end
  end.

Lemma ancestors_snoc rooted segs s : ancestors rooted (segs ++ [s]) = print_path rooted (segs ++ [s]) :: ancestors rooted segs.
Proof.
  unfold ancestors. rewrite length_app. cbn [length]. rewrite Nat.add_1_r, seq_S, reverse_snoc. cbn [fmap list_fmap].
  f_equal; [by rewrite take_ge by (rewrite length_app; cbn; lia)|]. apply list_fmap_ext. intros i k Hk.
  apply list_elem_of_lookup_2, elem_of_reverse, elem_of_seq in Hk. by rewrite take_app_le by lia.
Qed.

Lemma print_path_top rooted segs s : normal rooted (reverse (segs ++ [s])) ->
  print_path rooted (segs ++ [s]) <> str "/" /\ print_path rooted (segs ++ [s]) <> str ".".
Proof.
  intros Hn. assert (Hf := normal_Forall _ _ Hn). change (str "/") with [47]. change (str ".") with [46].
  destruct (decide (segs = [])) as [->|Hne].
  - inversion Hf as [|? ? (H1 & H2 & H3) _]; subst. destruct rooted; cbn [app print_path join_slash].
    + split; [by intros [=]|by destruct s].
    + split; [intros ->; set_solver|done].
  - apply Forall_app in Hf as [Hf Hl]. inversion Hl as [|? ? (H1 & _) _]; subst.
    assert (exists a b, print_path rooted (segs ++ [s]) = a ++ 47 :: b /\ b <> [] /\ (a = [] -> rooted = true)) as (a & b & E & Hb & _).
    { unfold print_path. destruct rooted; [by exists [], (join_slash (segs ++ [s])); rewrite join_slash_snoc by done; split_and!; [|destruct (join_slash segs)|]|].
      exists (join_slash segs), s. destruct segs; [done|]. cbn [app]. rewrite <- join_slash_snoc by done.
      split_and!; [done|done|]. intros Hj%join_slash_nil; [done|]. eapply Forall_impl; [exact Hf|]. by intros ? [? _]. }
    rewrite E. split; intros H; destruct a as [|x a]; injection H as H; try done; by destruct a.
Qed.

Lemma permission_loop_ancestors rooted segs : forall fuel, normal rooted (reverse segs) -> (length segs < fuel)%nat ->
  permission_loop Stat fuel (print_path rooted segs) = Some (first_problem (ancestors rooted segs)).
Proof.
  induction segs as [|s segs IH] using rev_ind; intros [|fuel] Hn Hf; [cbn in Hf; lia..| |rewrite length_app in Hf; lia|].
  - by destruct rooted.
  - cbn [permission_loop]. destruct (print_path_top _ _ _ Hn) as [H1 H2]. rewrite !bool_decide_false by done. cbn [orb].
    rewrite ancestors_snoc. cbn [first_problem]. destruct (Stat _) as [st|]; [|done]. destruct (other_writable st); [done|].
    rewrite Dir_print by done. rewrite length_app in Hf. cbn in Hf. apply IH; [by eapply normal_prefix|lia].
Qed.

Lemma join_slash_length segs : Forall (fun c => c <> []) segs -> (length segs <= length (join_slash segs))%nat.
Proof.
  induction segs as [|c segs IH]; [done|]. intros H. inversion H; subst. destruct c as [|x c]; [done|].
  destruct segs as [|d segs]; [cbn; lia|]. specialize (IH ltac:(done)).
  change (join_slash ((x :: c) :: d :: segs)) with ((x :: c) ++ 47 :: join_slash (d :: segs)).
  rewrite length_app. cbn [length] in *. lia.
Qed.

Lemma print_path_length rooted segs : normal rooted (reverse segs) -> (length segs <= length (print_path rooted segs))%nat.
Proof.
  intros Hn. assert (Forall (fun c => c <> []) segs) as Hf by (eapply Forall_impl; [by eapply normal_Forall|]; by intros c [? _]).
  assert (H := join_slash_length _ Hf). unfold print_path. destruct rooted; [cbn; lia|]. by destruct segs; [cbn; lia|].
Qed.

(** C37: the check of the permissions of a file ends, and looks at the file and at every directory above it, from the
    file on, up to the root or to the working directory, which are not looked at: the answer
    is the first of these paths that is not accessible, or that other users may write to, where a directory with the
    sticky bit does not count. *)
Theorem permission_check p :
  maybeWritableByOtherUsers Stat p = Some (first_problem (ancestors (IsAbs p) (components p))) /\
  Forall (fun c => c <> [] /\ 47 ∉ c /\ c <> str ".") (components p) /\
  (IsAbs p = true -> str ".." ∉ components p).
Proof.
  assert (Hn := components_normal p). unfold maybeWritableByOtherUsers. rewrite filepath_Clean_print.
  assert (Hl := print_path_length _ _ Hn). split_and!.
  - apply permission_loop_ancestors; [done|lia].
  - by eapply normal_Forall.
  - intros Ha. destruct Hn as (names & n & E & Hp & Hr). rewrite (Hr Ha), app_nil_r in E.
    intros Hin. rewrite <- elem_of_reverse, E in Hin. by destruct (proj1 (Forall_forall _ _) Hp _ Hin) as (_ & _ & H & _).
Qed.
End permcheck.

Example permission_ex : ancestors true (components (str "/etc//dnscrypt/../proxy/a.toml")) =
  [str "/etc/proxy/a.toml"; str "/etc/proxy"; str "/etc"].
Proof. by vm_compute. Qed.

(** *** The configuration file *)

(** A configuration file that is found has an absolute path, if the working directory has one; once it is read, the
    working directory is the one that holds it. *)
Lemma config_directory stat_in exe Chdir getwd_ok file cwd path cwd' dir :
  findConfigFile stat_in exe Chdir getwd_ok file cwd = (Some path, cwd') -> IsAbs cwd' = true ->
  cdFileDir Chdir path = Some dir -> IsAbs path = true /\ IsAbs dir = true /\ dir = filepath_Dir path /\
  (cwd' = cwd \/ stat_in cwd file = NotExist /\ exists e, exe = Some e /\ cwd' = filepath_Dir e).
Proof.
  unfold findConfigFile, cdFileDir. intros H Ha Hd.
  assert (dir = filepath_Dir path) as -> by (destruct (Chdir _); congruence). clear Hd.
  assert (IsAbs path = true /\ (cwd' = cwd \/ stat_in cwd file = NotExist /\ exists e, exe = Some e /\ cwd' = filepath_Dir e)) as [Hp Hc].
  { destruct (match stat_in cwd file with NotExist => _ | _ => _ end) as [ok c] eqn:E. destruct (negb ok || _); [done|].
    injection H as <- <-. split.
    - destruct (IsAbs file) eqn:Ef; [done|]. unfold path_Join. rewrite bool_decide_false by (by intros ->).
      rewrite filepath_Clean_print. replace (IsAbs (c ++ _)) with true; [done|]. destruct c as [|x c]; [done|]. revert Ha.
      unfold IsAbs. change (str "/") with [47]. cbn [app HasPrefix]. intros Hx. by rewrite Hx.
    - revert E. unfold cdLocal. destruct (stat_in cwd file) eqn:Es; [intros [= _ <-]; by left| |intros [= _ <-]; by left].
      destruct exe as [e|]; [|intros [= _ <-]; by left]. destruct (Chdir _); intros [= _ <-]; [right; eauto|by left]. }
  split_and!; [done| |done|done]. unfold filepath_Dir. rewrite filepath_Clean_print.
  replace (IsAbs (match LastIndexByte path 47 with Some i => take (S i) path | None => [] end)) with true; [done|].
  destruct path as [|x path]; [done|]. revert Hp. unfold IsAbs. change (str "/") with [47]. cbn [HasPrefix].
  intros [Hx%Z.eqb_eq _]%andb_true_iff. subst x. cbn [LastIndexByte]. by destruct (LastIndexByte path 47).
Qed.
