(* ===== verification/GoFloat.v ===== *)
(** * Go's float64

    [float64] is Rocq's primitive binary64, whose operations are the IEEE 754
    ones Go uses.  Conversions from and to integers go through the
    specification floats, so that they are exact about rounding (to nearest,
    ties to even) and truncation (towards zero). *)

From Stdlib Require Export Floats.
From S2P Require Import Prelude.

Definition float64 (z : Z) : float := SF2Prim (binary_normalize prec emax z 0 false).

(** [int(f)]: truncation; the result of converting a value that is not finite
    is that of the amd64 conversion instruction. *)
Definition int_of_float (f : float) : Z :=
  match Prim2SF f with
  | S754_zero _ => 0
  | S754_finite s m e =>
      let v := if 0 <=? e then Z.pos m * 2 ^ e else Z.pos m / 2 ^ (- e) in
      if s then - v else v
  | _ => min_int64
  end.

(** [int(math.Ceil(f))]. *)
Definition ceil_of_float (f : float) : Z :=
  match Prim2SF f with
  | S754_zero _ => 0
  | S754_finite s m e =>
      if 0 <=? e then (if s then - (Z.pos m * 2 ^ e) else Z.pos m * 2 ^ e)
      else if s then - (Z.pos m / 2 ^ (- e))
      else - ((- Z.pos m) / 2 ^ (- e))
  | _ => min_int64
  end.


(** [math.Min] on a first argument that is a finite constant. *)
Definition math_Min (x y : float) : float :=
  if PrimFloat.is_nan y then y else if PrimFloat.ltb x y then x else y.

Definition math_Abs (x : float) : float := PrimFloat.abs x.

Definition MaxFloat64 : float := 0x1.fffffffffffffp+1023%float.

(** ** Moving averages (github.com/VividCortex/ewma) *)

Module ewma.
Local Open Scope float_scope.

Record SimpleEWMA := { simple_value : float }.

Definition DECAY : float := 2 / (30 + 1).

Definition SimpleEWMA_Add (e : SimpleEWMA) (v : float) : SimpleEWMA :=
  if simple_value e =? 0 then {| simple_value := v |}
  else {| simple_value := (v * DECAY) + (simple_value e * (1 - DECAY)) |}.

Definition SimpleEWMA_Set (e : SimpleEWMA) (v : float) : SimpleEWMA := {| simple_value := v |}.

Record VariableEWMA := { decay : float; value : float; count : Z }.

Definition WARMUP_SAMPLES : Z := 10%Z.

(** [NewMovingAverage(age)] for an age other than the default 30. *)
Definition NewMovingAverage (age : float) : VariableEWMA :=
  {| decay := 2 / (age + 1); value := 0; count := 0%Z |}.

Definition Add (e : VariableEWMA) (v : float) : VariableEWMA :=
  if (count e <? WARMUP_SAMPLES)%Z then
    {| decay := decay e; value := value e + v; count := uint8 (count e + 1)%Z |}
  else if (count e =? WARMUP_SAMPLES)%Z then
    let avg := value e / float64 WARMUP_SAMPLES in
    {| decay := decay e; value := (v * decay e) + (avg * (1 - decay e));
       count := uint8 (count e + 1)%Z |}
  else
    {| decay := decay e; value := (v * decay e) + (value e * (1 - decay e));
       count := count e |}.

Definition Value (e : VariableEWMA) : float :=
  if (count e <=? WARMUP_SAMPLES)%Z then 0 else value e.

Definition Set_ (e : VariableEWMA) (v : float) : VariableEWMA :=
  {| decay := decay e; value := v;
     count := if (count e <=? WARMUP_SAMPLES)%Z then (WARMUP_SAMPLES + 1)%Z else count e |}.

(** After [Set_] the average is the value set. *)
Lemma Value_Set e v : Value (Set_ e v) = v.
Proof.
  unfold Value, Set_. simpl. destruct (count e <=? WARMUP_SAMPLES)%Z eqn:E; simpl; [done|].
  by rewrite E.
Qed.
End ewma.

Example float64_exact : int_of_float (float64 4096) = 4096
  /\ int_of_float (float64 (-7)) = -7 /\ ceil_of_float (0x1.1p0)%float = 2.
Proof. repeat split; vm_compute; reflexivity. Qed.
Example float64_rounds : int_of_float (float64 (2 ^ 53 + 1)) = 2 ^ 53.
Proof. vm_compute. reflexivity. Qed.
