(* ===== verification/Estimators.v ===== *)
(** * Question size estimator (src/dnscrypt-proxy/estimators.go)

    The size queries are padded to over UDP, so that responses are not larger
    than queries: doubled blindly after a truncated response, halved when the
    moving average of response sizes allows. *)

From S2P Require Import Prelude GoFloat Common.

Record QuestionSizeEstimator := {
  minQuestionSize : Z;
  ewma_ : ewma.SimpleEWMA;
}.

Definition NewQuestionSizeEstimator : QuestionSizeEstimator :=
  {| minQuestionSize := InitialMinQuestionSize;
     ewma_ := {| ewma.simple_value := 0%float |} |}.

Definition MinQuestionSize (e : QuestionSizeEstimator) : Z := minQuestionSize e.

Definition blindAdjust (e : QuestionSizeEstimator) : QuestionSizeEstimator :=
  let m := if MaxDNSUDPPacketSize - minQuestionSize e <? minQuestionSize e
           then MaxDNSUDPPacketSize else minQuestionSize e * 2 in
  {| minQuestionSize := m; ewma_ := ewma.SimpleEWMA_Set (ewma_ e) (float64 m) |}.

Definition adjust (e : QuestionSizeEstimator) (packetSize : Z) : QuestionSizeEstimator :=
  let avg := ewma.SimpleEWMA_Add (ewma_ e) (float64 packetSize) in
  let ma := int_of_float (ewma.simple_value avg) in
  let m := minQuestionSize e in
  {| minQuestionSize :=
       if (ma >? InitialMinQuestionSize) && (ma <? go_div m 2)
       then Max InitialMinQuestionSize (go_div m 2) else m;
     ewma_ := avg |}.

(** What the rest of the proxy does with the estimator: any sequence of the two
    adjustments. *)
Inductive estimator_step : QuestionSizeEstimator -> QuestionSizeEstimator -> Prop :=
| step_blind e : estimator_step e (blindAdjust e)
| step_adjust e n : estimator_step e (adjust e n).

Inductive estimator_reachable : QuestionSizeEstimator -> Prop :=
| reach_init : estimator_reachable NewQuestionSizeEstimator
| reach_step e e' : estimator_reachable e -> estimator_step e e' -> estimator_reachable e'.

Definition estimator_inv (e : QuestionSizeEstimator) : Prop :=
  InitialMinQuestionSize <= minQuestionSize e <= MaxDNSUDPPacketSize.

Lemma go_div_2 m : 0 <= m -> go_div m 2 = m / 2.
Proof. intros. unfold go_div. apply Z.quot_div_nonneg; lia. Qed.

Lemma blindAdjust_inv e : estimator_inv e -> estimator_inv (blindAdjust e).
Proof.
  unfold estimator_inv, blindAdjust, InitialMinQuestionSize, MaxDNSUDPPacketSize.
  simpl. split_ifs; lia.
Qed.

Lemma adjust_inv e n : estimator_inv e -> estimator_inv (adjust e n).
Proof.
  unfold estimator_inv, adjust, Max, InitialMinQuestionSize, MaxDNSUDPPacketSize.
  simpl. intros H. rewrite go_div_2 by lia.
  pose proof (Z.div_lt (minQuestionSize e) 2). split_ifs; lia.
Qed.

(** However responses come in, the padding target for UDP questions stays
    between 512 and 4096 bytes; a blind adjustment never lowers it (and reaches
    4096 after three of them), an averaged one never raises it. *)
Theorem estimator_bounds e :
  estimator_reachable e ->
  InitialMinQuestionSize <= MinQuestionSize e <= MaxDNSUDPPacketSize /\
  MinQuestionSize e <= MinQuestionSize (blindAdjust e) /\
  MinQuestionSize (blindAdjust (blindAdjust (blindAdjust e))) = MaxDNSUDPPacketSize /\
  forall n, MinQuestionSize (adjust e n) <= MinQuestionSize e.
Proof.
  intros Hr. assert (estimator_inv e) as Hinv.
  { induction Hr as [|e e' _ IH Hs]; [vm_compute; split; discriminate|].
    destruct Hs; [by apply blindAdjust_inv|by apply adjust_inv]. }
  unfold estimator_inv, MinQuestionSize, InitialMinQuestionSize, MaxDNSUDPPacketSize in *.
  split_and!; [lia|lia| | |].
  - unfold blindAdjust, MaxDNSUDPPacketSize; simpl. split_ifs; lia.
  - unfold blindAdjust, MaxDNSUDPPacketSize; simpl. split_ifs; lia.
  - intros n. simpl. rewrite go_div_2 by lia. unfold Max, InitialMinQuestionSize.
    pose proof (Z.div_lt (minQuestionSize e) 2). split_ifs; lia.
Qed.

Lemma estimator_bounds_witness :
  MinQuestionSize (adjust (blindAdjust NewQuestionSizeEstimator) 600) <= 1024.
Proof.
  apply (estimator_bounds (blindAdjust NewQuestionSizeEstimator)).
  eapply reach_step; [apply reach_init|apply step_blind].
Defined.
