(* ===== verification/TimeRanges.v ===== *)
(** * Weekly time ranges (src/dnscrypt-proxy/time_ranges.go)

    The [@timerange] restrictions of rule files: parsing of the configured
    ranges and the test whether a rule is active now. *)

From S2P Require Import Prelude GoStrings.

Record TimeRange := { after : Z; before : Z }.

(** [ranges] has one list per day, Sunday first. *)
Record WeeklyRanges := { ranges : list (list TimeRange) }.

Record TimeRangeStr := { After : bytes; Before : bytes }.

Record WeeklyRangesStr := {
  Sun : list TimeRangeStr; Mon : list TimeRangeStr; Tue : list TimeRangeStr;
  Wed : list TimeRangeStr; Thu : list TimeRangeStr; Fri : list TimeRangeStr;
  Sat : list TimeRangeStr;
}.

(** The one error of this file: a syntax error, with the offending text. *)
Inductive time_error := TimeSyntax (s : bytes).

Definition daySecsFromStr (s : bytes) : result time_error Z :=
  match Split s 58 with
  | [h; m] =>
      match Atoi h with
      | None => Err (TimeSyntax s)
      | Some hours =>
          if (hours <? 0) || (hours >? 23) then Err (TimeSyntax s)
          else match Atoi m with
          | None => Err (TimeSyntax s)
          | Some minutes =>
              if (minutes <? 0) || (minutes >? 59) then Err (TimeSyntax s)
              else Ok ((hours * 60 + minutes) * 60)
          end
      end
  | _ => Err (TimeSyntax s)
  end.

Fixpoint parseTimeRanges (l : list TimeRangeStr) : result time_error (list TimeRange) :=
  match l with
  | [] => Ok []
  | r :: l' =>
      a ← daySecsFromStr (After r);
      b ← daySecsFromStr (Before r);
      let '(a, b) := if a =? b then (-1, 86402) else (a, b) in
      rest ← parseTimeRanges l';
      Ok ({| after := a; before := b |} :: rest)
  end.

Fixpoint parse_days (l : list (list TimeRangeStr)) : result time_error (list (list TimeRange)) :=
  match l with
  | [] => Ok []
  | d :: l' => r ← parseTimeRanges d; rest ← parse_days l'; Ok (r :: rest)
  end.

Definition parseWeeklyRanges (w : WeeklyRangesStr) : result time_error WeeklyRanges :=
  days ← parse_days [Sun w; Mon w; Tue w; Wed w; Thu w; Fri w; Sat w];
  Ok {| ranges := days |}.

(** The map is built entry by entry; the first error ends the loop. *)
Definition ParseAllWeeklyRanges (all : gmap bytes WeeklyRangesStr)
    : result time_error (gmap bytes WeeklyRanges) :=
  foldr (fun '(name, w) acc =>
           m ← acc; r ← parseWeeklyRanges w; Ok (<[name := r]> m))
        (Ok ∅) (map_to_list all).

(** [Match] at a local time given as weekday (Sunday is 0), hour and minute. *)
Definition Match (w : WeeklyRanges) (day hour min : Z) : bool :=
  let weeklyRange := nth (Z.to_nat day) (ranges w) [] in
  if len weeklyRange =? 0 then false
  else
    let nowX := (hour * 60 + min) * 60 in
    existsb (fun r =>
      if after r >? before r
      then (nowX >=? after r) || (nowX <=? before r)
      else (nowX >=? after r) && (nowX <=? before r)) weeklyRange.

(** ** Specification *)

(** A clock time of day, and the meaning of a configured range from [a] to
    [b]: going round the clock from [a], [t] is reached no later than [b]; a
    range with equal bounds is the whole day. *)
Definition clock (t : Z) : Prop := 0 <= t < 86400.
Definition in_clock_range (a b t : Z) : Prop :=
  a = b \/ (t - a) mod 86400 <= (b - a) mod 86400.

(** [s] is the text of the clock time [t]. *)
Definition denotes (s : bytes) (t : Z) : Prop := daySecsFromStr s = Ok t.

Lemma daySecsFromStr_bounds s t : daySecsFromStr s = Ok t -> clock t.
Proof.
  unfold daySecsFromStr, clock. intros H. repeat case_match; simplify_eq; bools; lia.
Qed.

Lemma clock_mod_sub a t : clock a -> clock t ->
  (t - a) mod 86400 = if a <=? t then t - a else t - a + 86400.
Proof.
  unfold clock. intros Ha Ht. destruct (a <=? t) eqn:E; bools.
  - apply Z.mod_small. lia.
  - rewrite <-(Z.mod_add _ 1) by lia. apply Z.mod_small. lia.
Qed.

(** One parsed range is active exactly at the clock times it covers. *)
Lemma range_active a b t : clock a -> clock b -> clock t ->
  let r := if a =? b then (-1, 86402) else (a, b) in
  (if fst r >? snd r then (t >=? fst r) || (t <=? snd r)
   else (t >=? fst r) && (t <=? snd r)) = true <-> in_clock_range a b t.
Proof.
  intros Ha Hb Ht. unfold in_clock_range. rewrite !clock_mod_sub by done.
  unfold clock in *. destruct (Z.eqb_spec a b) as [->|Hne]; simpl.
  - rewrite andb_true_iff, Z.geb_leb, !Z.leb_le. lia.
  - destruct (a >? b) eqn:E, (a <=? t) eqn:E1, (a <=? b) eqn:E2; bools;
      rewrite ?orb_true_iff, ?andb_true_iff, ?Z.geb_leb, ?Z.leb_le; lia.
Qed.

Lemma parseTimeRanges_Forall2 l rs : parseTimeRanges l = Ok rs ->
  Forall2 (fun s r => exists a b, denotes (After s) a /\ denotes (Before s) b /\
    (after r, before r) = if a =? b then (-1, 86402) else (a, b)) l rs.
Proof.
  revert rs. induction l as [|s l IH]; intros rs H; simpl in H; [by simplify_eq|].
  unfold denotes.
  destruct (daySecsFromStr (After s)) as [a|] eqn:Ea; simpl in H; [|done].
  destruct (daySecsFromStr (Before s)) as [b|] eqn:Eb; simpl in H; [|done].
  destruct (if a =? b then (-1, 86402) else (a, b)) as [a' b'] eqn:Eab.
  destruct (parseTimeRanges l) as [rest|] eqn:Er; simpl in H; [|done].
  simplify_eq. constructor; [|by apply IH]. simpl. eauto.
Qed.

Lemma parse_days_Forall2 l rs : parse_days l = Ok rs ->
  Forall2 (fun d r => parseTimeRanges d = Ok r) l rs.
Proof.
  revert rs. induction l as [|d l IH]; intros rs H; simpl in H; [by simplify_eq|].
  destruct (parseTimeRanges d) eqn:Ed; simpl in H; [|done].
  destruct (parse_days l) eqn:El; simpl in H; [|done]. simplify_eq. eauto.
Qed.

Definition days_of (w : WeeklyRangesStr) : list (list TimeRangeStr) :=
  [Sun w; Mon w; Tue w; Wed w; Thu w; Fri w; Sat w].

(** Parsing followed by matching implements the configuration's meaning:
    when a weekly table parses, a rule carrying it is active on a given day
    and clock time exactly when one of that day's configured ranges covers
    that time, ranges that cross midnight and whole-day ranges (equal bounds)
    included. *)
Theorem Match_parseWeeklyRanges ws w day hour min ds :
  parseWeeklyRanges ws = Ok w ->
  days_of ws !! Z.to_nat day = Some ds ->
  0 <= hour < 24 -> 0 <= min < 60 ->
  Match w day hour min = true <->
  exists r a b, r ∈ ds /\ denotes (After r) a /\ denotes (Before r) b /\
    in_clock_range a b ((hour * 60 + min) * 60).
Proof.
  intros Hp Hd Hh Hm. unfold parseWeeklyRanges in Hp.
  destruct (parse_days _) as [days|] eqn:Hdays; simpl in Hp; [|done]. simplify_eq.
  apply parse_days_Forall2 in Hdays.
  destruct (Forall2_lookup_l _ _ _ _ _ Hdays Hd) as (rs & Hrs & Hparse).
  apply parseTimeRanges_Forall2 in Hparse. unfold Match. simpl.
  rewrite (nth_lookup_Some _ _ _ _ Hrs).
  set (t := (hour * 60 + min) * 60). assert (clock t) as Ht by (unfold clock, t; lia).
  assert (existsb (fun r => if after r >? before r
      then (t >=? after r) || (t <=? before r)
      else (t >=? after r) && (t <=? before r)) rs = true <->
    exists r a b, r ∈ ds /\ denotes (After r) a /\ denotes (Before r) b /\
      in_clock_range a b t) as Hex.
  { clear Hrs Hd. induction Hparse as [|s r ds' rs' (a & b & Ha & Hb & Hab) _ IH]; simpl.
    - set_solver.
    - pose proof (range_active a b t (daySecsFromStr_bounds _ _ Ha)
        (daySecsFromStr_bounds _ _ Hb) Ht) as Hact.
      rewrite <-Hab in Hact. simpl in Hact. rewrite orb_true_iff, Hact, IH.
      split.
      + intros [H|(r' & a' & b' & Hin & H)].
        * exists s, a, b. split_and!; [set_solver|done..].
        * exists r', a', b'. split; [set_solver|done].
      + intros (r' & a' & b' & Hin & Ha' & Hb' & H).
        apply elem_of_cons in Hin as [->|Hin]; [|right; eauto 10].
        left. unfold denotes in *. assert (a' = a /\ b' = b) as [-> ->] by (split; congruence). done. }
  destruct (len rs =? 0) eqn:El; [|done]. bools. apply len_nil_inv in El. subst.
  rewrite <-Hex. done.
Qed.

Definition night : WeeklyRangesStr :=
  {| Sun := []; Mon := [{| After := str "21:00"; Before := str "7:00" |}];
     Tue := []; Wed := []; Thu := []; Fri := []; Sat := [] |}.

Lemma Match_parseWeeklyRanges_witness :
  match parseWeeklyRanges night with
  | Ok w => Match w 1 23 30 = true /\ Match w 1 12 0 = false
  | Err _ => False
  end.
Proof.
  destruct (parseWeeklyRanges night) as [w|] eqn:E; [|vm_compute in E; discriminate].
  split; [|vm_compute in E; injection E as <-; reflexivity].
  apply (Match_parseWeeklyRanges night w 1 23 30 (Mon night)); [done|done|lia|lia|].
  exists {| After := str "21:00"; Before := str "7:00" |}, 75600, 25200.
  split; [by left|]. split; [reflexivity|]. split; [reflexivity|].
  right. vm_compute. discriminate.
Defined.
