(* ===== verification/Crypto.v ===== *)
(** * Encryption of queries (src/dnscrypt-proxy/crypto.go and pq.go)

    Padding, the DNSCrypt query and response formats for the three crypto
    constructions, and the post-quantum session state (resumption tickets and
    cached encapsulations).

    The cryptographic primitives are library code: they are the fields of the
    class [Primitives], and [PrimitivesLaws] states what the proofs need of
    them (an authenticated box opens to what was sealed and adds a 16-byte tag,
    keys and digests have their documented sizes).  Random bytes, the clock, the
    network epoch and the question size estimate are arguments. *)

From S2P Require Import Prelude GoStrings Common.

Definition NonceSize : Z := 24.
Definition HalfNonceSize : Z := 12.
Definition TagSize : Z := 16.
Definition PublicKeySize : Z := 32.
Definition QueryOverhead : Z := ClientMagicLen + PublicKeySize + HalfNonceSize + TagSize.
Definition ResponseOverhead : Z := len ServerMagic + NonceSize + TagSize.

(** ** Padding *)

Fixpoint pad_loop (fuel : nat) (packet : bytes) (minSize : Z) : bytes :=
  match fuel with
  | O => packet
  | S fuel' =>
      if len packet <? minSize then pad_loop fuel' (packet ++ [0]) minSize else packet
  end.

(** The loop appends a byte per round, so [minSize] rounds are enough. *)
Definition pad (packet : bytes) (minSize : Z) : bytes :=
  pad_loop (Z.to_nat minSize) (packet ++ [128]) minSize.

Inductive crypto_error :=
| ShortPadding | NoDelimiter | IncorrectPadding
| QuestionTooLarge | RandomError | EncapsulationError
| InvalidSizeOrPrefix | UnexpectedNonce | IncorrectTag
| PQTooShort | PQControlOverflow.

#[global] Instance crypto_error_eq_dec : EqDecision crypto_error.
Proof. solve_decision. Defined.

(** [i] is the loop variable of [unpad]. *)
Fixpoint unpad_loop (packet : bytes) (i : nat) : result crypto_error bytes :=
  match i with
  | O => Err ShortPadding
  | S i' =>
      if nth i' packet 0 =? 128 then Ok (take i' packet)
      else if negb (nth i' packet 0 =? 0) then Err NoDelimiter
      else unpad_loop packet i'
  end.

Definition unpad (packet : bytes) : result crypto_error bytes :=
  unpad_loop packet (length packet).

Definition isClassicDNSCryptConstruction (c : CryptoConstruction) : bool :=
  bool_decide (c = XSalsa20Poly1305) || bool_decide (c = XChacha20Poly1305).

(** [(x + 63) & ^63] and [(x + 63) &^ 63]. *)
Definition clear_low6 (x : Z) : Z := Z.land x (Z.lnot 63).

(** ** Primitives *)

Class Primitives := {
  xsecretbox_SharedKey : bytes -> bytes -> option bytes;
  box_Precompute : bytes -> bytes -> bytes;
  ScalarBaseMult : bytes -> bytes;
  sha512_256 : bytes -> bytes;
  sha256_Sum256 : bytes -> bytes;
  xsecretbox_Seal : bytes -> bytes -> bytes -> bytes;
  xsecretbox_Open : bytes -> bytes -> bytes -> option bytes;
  secretbox_Seal : bytes -> bytes -> bytes -> bytes;
  secretbox_Open : bytes -> bytes -> bytes -> option bytes;
  hkdfSha256 : bytes -> bytes -> bytes -> Z -> bytes;
  (* the random bytes that are drawn, and the public key *)
  xwing_Encapsulate : bytes -> bytes -> option (bytes * bytes);
}.

Class PrimitivesLaws (P : Primitives) := {
  xsecretbox_Open_Seal : forall nonce m key,
    xsecretbox_Open nonce (xsecretbox_Seal nonce m key) key = Some m;
  xsecretbox_Seal_len : forall nonce m key,
    len (xsecretbox_Seal nonce m key) = len m + TagSize;
  secretbox_Open_Seal : forall m nonce key,
    secretbox_Open (secretbox_Seal m nonce key) nonce key = Some m;
  secretbox_Seal_len : forall m nonce key,
    len (secretbox_Seal m nonce key) = len m + TagSize;
  ScalarBaseMult_len : forall sk, len (ScalarBaseMult sk) = PublicKeySize;
  xwing_Encapsulate_len : forall rnd pk ss ct,
    xwing_Encapsulate rnd pk = Some (ss, ct) -> len ct = 1120;
}.

(** ** Session state of a post-quantum server *)

Record pqSessionState := {
  ticket : option bytes;
  resumeSecret : bytes;
  expiry : Z;
  epoch : Z;
  encap : option bytes;
  encapKey : bytes;
  encapEpoch : Z;
}.

Definition zero_key : bytes := replicate 32 0.

Definition empty_session : pqSessionState :=
  {| ticket := None; resumeSecret := zero_key; expiry := zero_time; epoch := 0;
     encap := None; encapKey := zero_key; encapEpoch := 0 |}.

Definition newPqSessionState (c : CryptoConstruction) : option pqSessionState :=
  if bool_decide (c = XWingPQ) then Some empty_session else None.

(** [append([]byte(nil), b...)]: a copy, which is nil if there is nothing to copy. *)
Definition append_nil (b : bytes) : option bytes := if bool_decide (b = []) then None else Some b.

(** A server without a session ([nil] in the source) ignores what is stored. *)
Definition store (s : option pqSessionState) (t secret : bytes) (exp ep : Z)
    : option pqSessionState :=
  s ← s; Some {| ticket := append_nil t; resumeSecret := secret; expiry := exp; epoch := ep;
                 encap := encap s; encapKey := encapKey s; encapEpoch := encapEpoch s |}.

Definition get (s : option pqSessionState) (now currentEpoch : Z)
    : option pqSessionState * option (bytes * bytes) :=
  match s with
  | None => (None, None)
  | Some st =>
      match ticket st with
      | None => (s, None)
      | Some t =>
          if negb (now <? expiry st) then (s, None)
          else if negb (epoch st =? currentEpoch) then
            (Some {| ticket := None; resumeSecret := zero_key; expiry := zero_time;
                     epoch := epoch st; encap := encap st; encapKey := encapKey st;
                     encapEpoch := encapEpoch st |}, None)
          else (s, Some (t, resumeSecret st))
      end
  end.

Definition getCachedEncapsulation (s : option pqSessionState) (currentEpoch : Z)
    : option pqSessionState * option (bytes * bytes) :=
  match s with
  | None => (None, None)
  | Some st =>
      match encap st with
      | None => (s, None)
      | Some ct =>
          if negb (encapEpoch st =? currentEpoch) then
            (Some {| ticket := ticket st; resumeSecret := resumeSecret st;
                     expiry := expiry st; epoch := epoch st; encap := None;
                     encapKey := zero_key; encapEpoch := encapEpoch st |}, None)
          else (s, Some (ct, encapKey st))
      end
  end.

Definition storeEncapsulation (s : option pqSessionState) (ct key : bytes) (ep : Z)
    : option pqSessionState :=
  s ← s; Some {| ticket := ticket s; resumeSecret := resumeSecret s; expiry := expiry s;
                 epoch := epoch s; encap := append_nil ct; encapKey := key; encapEpoch := ep |}.

(** ** Servers and the proxy's key, as far as encryption reads them *)

Record CryptoServer := {
  cs_CryptoConstruction : CryptoConstruction;
  cs_ServerPk : bytes;
  cs_SharedKey : bytes;
  cs_MagicQuery : bytes;
  cs_PqPublicKey : bytes;
  cs_PqCertContext : bytes;
  cs_fragmentsBlocked : bool;
  cs_hasRelay : bool;
}.

Record ClientKey := { proxySecretKey : bytes; proxyPublicKey : bytes }.

(** What a call reads from outside: the random client nonce (a failing source
    is [None]), the random extra padding over TCP, the random key that replaces
    the shared key of a weak server key, the random bytes of an encapsulation, the clock, the network epoch and the
    estimator's question size. *)
Record CryptoEnv := {
  rnd_nonce : option bytes;
  rnd_xpad : option Z;
  rnd_key : bytes;
  rnd_encap : bytes;
  env_now : Z;
  env_epoch : Z;
  env_minQuestionSize : Z;
  ephemeralKeys : bool;
}.

Inductive proto := udp | tcp.
#[global] Instance proto_eq_dec : EqDecision proto.
Proof. solve_decision. Defined.

(** ** Post-quantum constants and helpers *)

Definition PQXWingPublicKeySize : Z := 1216.
Definition PQXWingCiphertextSize : Z := 1120.
Definition PQESVersion : bytes := [0; 3].
Definition PQResumeMagic : bytes := str "PQResume".
Definition PQControlMagic : bytes := str "PQDR".
Definition PQControlVersion : Z := 1.
Definition PQResumedPaddingFloor : Z := 256.

Definition pqProfileExtension : bytes :=
  str "PQD" ++ [1] ++ PQESVersion ++ [1; 1]
  ++ put_be16 PQXWingPublicKeySize ++ put_be16 PQXWingCiphertextSize.

(** [b[i:j]]. *)
Definition slice (b : bytes) (i j : nat) : bytes := take (j - i) (drop i b).

Definition pqCertContext (binCert : bytes) : bytes :=
  str "DNSCrypt-PQ-v1" ++ slice binCert 4 6 ++ slice binCert 6 8
  ++ slice binCert 72 1288 ++ slice binCert 1288 1296 ++ slice binCert 1296 1300
  ++ slice binCert 1300 1304 ++ slice binCert 1304 1308 ++ slice binCert 1308 1320.

(** A buffer of [target] zero bytes, the packet copied to its front and the
    delimiter written behind it. *)
Definition pqPad (packet : bytes) (floor : Z) : bytes :=
  let target := clear_low6 (len packet + 1 + 63) in
  let target := if target <? floor then floor else target in
  let padded := replicate (Z.to_nat target) 0 in
  let padded := packet ++ drop (length packet) padded in
  <[length packet := 128]> padded.

Definition pqResumedOverhead (ticketLen : Z) : Z :=
  len PQResumeMagic + 2 + ticketLen + HalfNonceSize + TagSize.

Definition pqUDPPacketLimit (server : CryptoServer) : Z :=
  if cs_fragmentsBlocked server then MaxDNSUDPSafePacketSize else MaxDNSUDPPacketSize.

Definition pqResumedPaddingFloor (minQuestionSize : Z) (server : CryptoServer)
    (ticketLen : Z) (p : proto) : Z :=
  if negb (bool_decide (p = udp)) then PQResumedPaddingFloor
  else
    let overhead := pqResumedOverhead ticketLen in
    let want := minQuestionSize - overhead in
    Max PQResumedPaddingFloor
      (Min (clear_low6 (want + 63)) (clear_low6 (pqUDPPacketLimit server - overhead))).

Section crypto.
Context `{P : Primitives}.

Definition pqDeriveSharedKey (kemSS clientMagic certContext ct : bytes) : bytes :=
  hkdfSha256 (PQESVersion ++ clientMagic) kemSS (certContext ++ ct) 32.

Definition pqResumeSecret (sharedKey clientMagic clientNonce : bytes) : bytes :=
  hkdfSha256 (clientMagic ++ clientNonce) sharedKey (str "DNSCrypt-PQ-resume-secret-v1") 32.

Definition pqResumedSharedKey (secret clientMagic clientNonce t : bytes) : bytes :=
  hkdfSha256 (clientMagic ++ clientNonce) secret
    (str "DNSCrypt-PQ-resumed-query-v1" ++ sha256_Sum256 t) 32.

(** ** Shared keys *)

(** [rnd] is what the random source delivers for a weak server key. *)
Definition ComputeSharedKey (c : CryptoConstruction) (secretKey serverPk rnd : bytes) : bytes :=
  if negb (isClassicDNSCryptConstruction c) then zero_key
  else if bool_decide (c = XChacha20Poly1305) then
    match xsecretbox_SharedKey secretKey serverPk with
    | Some k => k
    | None => rnd
    end
  else
    let k := box_Precompute serverPk secretKey in
    if fold_left Z.lor k 0 =? 0 then rnd else k.

Definition setDNSCryptClientKeyLocked (secretKey : bytes) : ClientKey :=
  {| proxySecretKey := secretKey; proxyPublicKey := ScalarBaseMult secretKey |}.

Definition recomputeServerSharedKeyLocked (key : ClientKey) (rnd : bytes)
    (s : CryptoServer) : CryptoServer :=
  if negb (isClassicDNSCryptConstruction (cs_CryptoConstruction s)) then s
  else {| cs_CryptoConstruction := cs_CryptoConstruction s; cs_ServerPk := cs_ServerPk s;
          cs_SharedKey := ComputeSharedKey (cs_CryptoConstruction s)
                            (proxySecretKey key) (cs_ServerPk s) rnd;
          cs_MagicQuery := cs_MagicQuery s; cs_PqPublicKey := cs_PqPublicKey s;
          cs_PqCertContext := cs_PqCertContext s;
          cs_fragmentsBlocked := cs_fragmentsBlocked s; cs_hasRelay := cs_hasRelay s |}.

(** Both locks are held throughout: the new key and the recomputed shared keys
    become visible together.  A failing random source changes nothing.  [rnd i]: what the
    random source delivers if the key of the server at position [i] is weak. *)
Definition rotateDNSCryptClientKey (secretKey : option bytes) (rnd : nat -> bytes)
    (key : ClientKey) (servers : list CryptoServer)
    : result crypto_error (ClientKey * list CryptoServer) :=
  match secretKey with
  | None => Err RandomError
  | Some sk =>
      let key := setDNSCryptClientKeyLocked sk in
      Ok (key, imap (fun i => recomputeServerSharedKeyLocked key (rnd i)) servers)
  end.

(** ** Queries *)

(** What [Encrypt] returns when it succeeds. *)
Record EncryptedQuery := {
  eq_sharedKey : bytes;
  eq_encrypted : bytes;
  eq_clientNonce : bytes;
  eq_queryEpoch : Z;
}.

Definition encryptPQ (env : CryptoEnv) (server : CryptoServer)
    (session : option pqSessionState) (packet : bytes) (p : proto)
    : option pqSessionState * result crypto_error EncryptedQuery :=
  let queryEpoch := env_epoch env in
  match rnd_nonce env with
  | None => (session, Err RandomError)
  | Some clientNonce =>
      let nonce := clientNonce ++ replicate 12 0 in
      match get session (env_now env) queryEpoch with
      | (session, Some (t, secret)) =>
          let key := pqResumedSharedKey secret (cs_MagicQuery server) clientNonce t in
          let padded := pqPad packet
            (pqResumedPaddingFloor (env_minQuestionSize env) server (len t) p) in
          let ct := xsecretbox_Seal nonce padded key in
          (session,
           Ok {| eq_sharedKey := key;
                 eq_encrypted := PQResumeMagic ++ put_be16 (uint16 (len t)) ++ t
                                 ++ clientNonce ++ ct;
                 eq_clientNonce := clientNonce; eq_queryEpoch := queryEpoch |})
      | (session, None) =>
          let seal session ctKem key :=
            let padded := pqPad packet 64 in
            let ct := xsecretbox_Seal nonce padded key in
            (session,
             Ok {| eq_sharedKey := key;
                   eq_encrypted := cs_MagicQuery server ++ ctKem ++ clientNonce ++ ct;
                   eq_clientNonce := clientNonce; eq_queryEpoch := queryEpoch |}) in
          match getCachedEncapsulation session queryEpoch with
          | (session, Some (ctKem, key)) => seal session ctKem key
          | (session, None) =>
              match xwing_Encapsulate (rnd_encap env) (cs_PqPublicKey server) with
              | None => (session, Err EncapsulationError)
              | Some (kemSS, ctKem) =>
                  let key := pqDeriveSharedKey kemSS (cs_MagicQuery server)
                               (cs_PqCertContext server) ctKem in
                  seal (storeEncapsulation session ctKem key queryEpoch) ctKem key
              end
          end
      end
  end.

(** The length queries are padded to: a multiple of 64 that leaves room for the
    padding delimiter, capped at 4096; the workarounds for servers that drop
    fragments and for relayed TCP replace it. *)
Definition paddedLengthFor (server : CryptoServer) (p : proto) (minQuestionSize : Z) : Z :=
  let paddedLength :=
    Min MaxDNSUDPPacketSize (clear_low6 (Max minQuestionSize QueryOverhead + 1 + 63)) in
  if cs_fragmentsBlocked server && bool_decide (p = udp) then MaxDNSUDPSafePacketSize
  else if cs_hasRelay server && bool_decide (p = tcp) then MaxDNSPacketSize
  else paddedLength.

(** The classic construction once the keys, the nonce and the size target are
    known: pad, and seal behind the header. *)
Definition sealClassic (server : CryptoServer) (p : proto)
    (sharedKey publicKey clientNonce packet : bytes) (minQuestionSize : Z)
    : result crypto_error EncryptedQuery :=
  let nonce := clientNonce ++ replicate 12 0 in
  let paddedLength := paddedLengthFor server p minQuestionSize in
  if QueryOverhead + len packet + 1 >? paddedLength then Err QuestionTooLarge
  else
    let header := cs_MagicQuery server ++ publicKey ++ take 12 nonce in
    let padded := pad packet (paddedLength - QueryOverhead) in
    let sealed :=
      if bool_decide (cs_CryptoConstruction server = XChacha20Poly1305)
      then xsecretbox_Seal nonce padded sharedKey
      else secretbox_Seal padded nonce sharedKey in
    Ok {| eq_sharedKey := sharedKey; eq_encrypted := header ++ sealed;
          eq_clientNonce := clientNonce; eq_queryEpoch := 0 |}.

Definition Encrypt (env : CryptoEnv) (key : ClientKey) (server : CryptoServer)
    (session : option pqSessionState) (packet : bytes) (p : proto)
    : option pqSessionState * result crypto_error EncryptedQuery :=
  if bool_decide (cs_CryptoConstruction server = XWingPQ) then
    match encryptPQ env server session packet p with
    | (session, Ok q) =>
        if bool_decide (p = udp) && (len (eq_encrypted q) >? pqUDPPacketLimit server)
        then (session, Err QuestionTooLarge) else (session, Ok q)
    | r => r
    end
  else
  match rnd_nonce env with
  | None => (session, Err RandomError)
  | Some clientNonce =>
      let '(sharedKey, publicKey) :=
        if ephemeralKeys env then
          let ephSk := sha512_256 (clientNonce ++ proxySecretKey key) in
          (ComputeSharedKey (cs_CryptoConstruction server) ephSk (cs_ServerPk server)
             (rnd_key env), ScalarBaseMult ephSk)
        else (cs_SharedKey server, proxyPublicKey key) in
      let minQuestionSize := QueryOverhead + len packet in
      match p with
      | udp =>
          (session, sealClassic server p sharedKey publicKey clientNonce packet
                      (Max (env_minQuestionSize env) minQuestionSize))
      | tcp =>
          match rnd_xpad env with
          | None => (session, Err RandomError)
          | Some xpad =>
              (session, sealClassic server p sharedKey publicKey clientNonce packet
                          (minQuestionSize + xpad))
          end
      end
  end.

(** ** Responses *)

Definition be32 (b : bytes) : Z :=
  ((nth 0 b 0 * 256 + nth 1 b 0) * 256 + nth 2 b 0) * 256 + nth 3 b 0.

Definition pqProcessControl (now currentEpoch : Z) (server : CryptoServer)
    (session : option pqSessionState) (sharedKey clientNonce control : bytes)
    (queryEpoch : Z) : option pqSessionState :=
  if len control <? 11 then session
  else if negb (bool_decide (slice control 0 4 = PQControlMagic))
          || negb (nth 4 control 0 =? PQControlVersion) then session
  else
    let lifetime := be32 (slice control 5 9) in
    let ticketLen := be16 (nth 9 control 0) (nth 10 control 0) in
    if 11 + ticketLen >? len control then session
    else
      let t := slice control 11 (11 + Z.to_nat ticketLen) in
      if pqResumedOverhead (len t) + PQResumedPaddingFloor >? MaxDNSUDPPacketSize
      then session
      else if negb (queryEpoch =? currentEpoch) then session
      else
        store session t (pqResumeSecret sharedKey (cs_MagicQuery server) clientNonce)
          (time_add now (lifetime * Second)) queryEpoch.

Definition pqStripControl (now currentEpoch : Z) (server : CryptoServer)
    (session : option pqSessionState) (sharedKey clientNonce plaintext : bytes)
    (queryEpoch : Z) : option pqSessionState * result crypto_error bytes :=
  if len plaintext <? 2 then (session, Err PQTooShort)
  else
    let controlLen := be16 (nth 0 plaintext 0) (nth 1 plaintext 0) in
    if 2 + controlLen >? len plaintext then (session, Err PQControlOverflow)
    else
      let control := slice plaintext 2 (2 + Z.to_nat controlLen) in
      let body := drop (2 + Z.to_nat controlLen) plaintext in
      (if controlLen >? 0
       then pqProcessControl now currentEpoch server session sharedKey clientNonce
              control queryEpoch
       else session, Ok body).

Definition Decrypt (now currentEpoch : Z) (server : CryptoServer)
    (session : option pqSessionState) (sharedKey encrypted nonce : bytes)
    (queryEpoch : Z) : option pqSessionState * result crypto_error bytes :=
  let serverMagicLen := len ServerMagic in
  let responseHeaderLen := serverMagicLen + NonceSize in
  if (len encrypted <? responseHeaderLen + TagSize + MinDNSPacketSize)
     || (len encrypted >? responseHeaderLen + TagSize + MaxDNSPacketSize)
     || negb (bool_decide (take 8 encrypted = ServerMagic))
  then (session, Err InvalidSizeOrPrefix)
  else
    let serverNonce := slice encrypted 8 32 in
    if negb (bool_decide (take 12 nonce = take 12 serverNonce))
    then (session, Err UnexpectedNonce)
    else
      let box := drop 32 encrypted in
      let opened :=
        match cs_CryptoConstruction server with
        | XChacha20Poly1305 | XWingPQ => xsecretbox_Open serverNonce box sharedKey
        | _ => secretbox_Open box serverNonce sharedKey
        end in
      match opened with
      | None => (session, Err IncorrectTag)
      | Some packet =>
          let '(session, stripped) :=
            if bool_decide (cs_CryptoConstruction server = XWingPQ)
            then pqStripControl now currentEpoch server session sharedKey nonce packet queryEpoch
            else (session, Ok packet) in
          match stripped with
          | Err e => (session, Err e)
          | Ok packet =>
              match unpad packet with
              | Err _ => (session, Err IncorrectPadding)
              | Ok packet =>
                  if len packet <? MinDNSPacketSize
                  then (session, Err IncorrectPadding) else (session, Ok packet)
              end
          end
      end.
End crypto.
