(* ===== verification/CryptoProps.v ===== *)
(** * Properties of the encryption layer

    Padding round trips, the size and the content of encrypted queries, the
    acceptance condition for responses, and the post-quantum session rules. *)

From S2P Require Import Prelude GoStrings Common Crypto.

(** ** Padding *)

Lemma clear_low6_eq x : clear_low6 x = 64 * (x / 64).
Proof.
  unfold clear_low6. rewrite <-Z.ldiff_land. change 63 with (Z.ones 6).
  rewrite Z.ldiff_ones_r by lia. rewrite Z.shiftl_mul_pow2, Z.shiftr_div_pow2 by lia.
  change (2 ^ 6) with 64. lia.
Qed.

Lemma clear_low6_round x : x <= clear_low6 (x + 63) < x + 64 /\ clear_low6 (x + 63) mod 64 = 0.
Proof.
  rewrite clear_low6_eq. pose proof (Z.div_mod (x + 63) 64 ltac:(lia)).
  pose proof (Z.mod_pos_bound (x + 63) 64 ltac:(lia)). split; [lia|].
  rewrite Z.mul_comm. apply Z.mod_mul. lia.
Qed.

Lemma clear_low6_le x : x - 64 < clear_low6 x <= x /\ clear_low6 x mod 64 = 0.
Proof.
  rewrite clear_low6_eq. pose proof (Z.div_mod x 64 ltac:(lia)).
  pose proof (Z.mod_pos_bound x 64 ltac:(lia)). split; [lia|].
  rewrite Z.mul_comm. apply Z.mod_mul. lia.
Qed.

Lemma pad_loop_eq fuel packet minSize : minSize - len packet <= Z.of_nat fuel ->
  pad_loop fuel packet minSize = packet ++ replicate (Z.to_nat (minSize - len packet)) 0.
Proof.
  revert packet. induction fuel as [|fuel IH]; intros packet H; simpl.
  - replace (Z.to_nat (minSize - len packet)) with 0%nat by lia. by rewrite app_nil_r.
  - destruct (len packet <? minSize) eqn:E; bools.
    + assert (len (packet ++ [0]) = len packet + 1) as Hl by (rewrite len_app; done).
      rewrite IH by lia. rewrite Hl, <-app_assoc. f_equal.
      replace (Z.to_nat (minSize - len packet))
        with (S (Z.to_nat (minSize - (len packet + 1)))) by lia. done.
    + replace (Z.to_nat (minSize - len packet)) with 0%nat by lia. by rewrite app_nil_r.
Qed.

Lemma pad_eq packet minSize :
  pad packet minSize = packet ++ 128 :: replicate (Z.to_nat (minSize - len packet - 1)) 0.
Proof.
  unfold pad. pose proof (len_nonneg packet).
  assert (len (packet ++ [128]) = len packet + 1) as Hl by (rewrite len_app; done).
  rewrite pad_loop_eq by lia. rewrite Hl, <-app_assoc. simpl. do 2 f_equal. f_equal. lia.
Qed.

Lemma len_pad packet minSize : len (pad packet minSize) = Z.max minSize (len packet + 1).
Proof.
  rewrite pad_eq, len_app, len_cons, len_replicate. lia.
Qed.

Lemma unpad_loop_zeros packet n k : (k <= n)%nat ->
  unpad_loop (packet ++ 128 :: replicate n 0) (length packet + 1 + k) = Ok packet.
Proof.
  intros Hk. induction k as [|k IH].
  - rewrite Nat.add_0_r, Nat.add_1_r. simpl.
    rewrite app_nth2, Nat.sub_diag by lia. simpl. by rewrite take_app_length.
  - replace (length packet + 1 + S k)%nat with (S (length packet + 1 + k)) by lia. simpl.
    rewrite app_nth2 by lia. replace (length packet + 1 + k - length packet)%nat with (S k) by lia.
    simpl. assert (nth k (replicate n 0) 0 = 0) as ->.
    { by rewrite nth_lookup, lookup_replicate_2 by lia. }
    apply IH. lia.
Qed.

Lemma unpad_delimited packet n : unpad (packet ++ 128 :: replicate n 0) = Ok packet.
Proof.
  unfold unpad. rewrite length_app. simpl. rewrite length_replicate.
  rewrite <-(unpad_loop_zeros packet n n) by lia. f_equal. lia.
Qed.

Lemma padding_unpad packet target : unpad (pad packet target) = Ok packet.
Proof. rewrite pad_eq. apply unpad_delimited. Qed.

Lemma pqPad_eq packet floor :
  exists n, pqPad packet floor = packet ++ 128 :: replicate n 0 /\
    len (pqPad packet floor) = Z.max floor (clear_low6 (len packet + 1 + 63)).
Proof.
  pose proof (clear_low6_round (len packet + 1)) as [Hr _].
  set (target := if clear_low6 (len packet + 1 + 63) <? floor then floor
                 else clear_low6 (len packet + 1 + 63)).
  assert (target = Z.max floor (clear_low6 (len packet + 1 + 63))) as Ht
    by (unfold target; split_ifs; lia).
  exists (Z.to_nat target - length packet - 1)%nat.
  assert (pqPad packet floor =
    packet ++ 128 :: replicate (Z.to_nat target - length packet - 1) 0) as Heq.
  { unfold pqPad. fold target. rewrite drop_replicate.
    rewrite (insert_app_r_alt packet _ (length packet)) by lia. rewrite Nat.sub_diag.
    destruct (Z.to_nat target - length packet)%nat as [|m] eqn:Em.
    - unfold len in *. lia.
    - simpl. by rewrite Nat.sub_0_r. }
  split; [done|]. rewrite Heq, len_app, len_cons, len_replicate, <-Ht. unfold len in *. lia.
Qed.

(** Padding is reversible and exact: removing the padding of a padded
    packet gives the packet back, for both padding routines and any target;
    the classic one fills exactly to the target (or adds only the delimiter
    when the packet is already that large), the post-quantum one to the larger
    of its floor and the next multiple of 64 that has room for the delimiter. *)
Theorem padding_roundtrip packet target :
  unpad (pad packet target) = Ok packet /\
  len (pad packet target) = Z.max target (len packet + 1) /\
  unpad (pqPad packet target) = Ok packet /\
  len (pqPad packet target) = Z.max target (64 * ((len packet + 64) / 64)).
Proof.
  split_and!.
  - apply padding_unpad.
  - apply len_pad.
  - destruct (pqPad_eq packet target) as (n & -> & _). apply unpad_delimited.
  - destruct (pqPad_eq packet target) as (n & _ & ->).
    rewrite clear_low6_eq. do 3 f_equal. lia.
Qed.

Lemma unpad_sound_helper padded packet :
  unpad padded = Ok packet ->
  exists n, padded = packet ++ 128 :: replicate n 0.
Proof.
  assert (forall i, (i <= length padded)%nat ->
    unpad_loop padded i = Ok packet ->
    (forall j, (i <= j < length padded)%nat -> padded !! j = Some 0) ->
    exists n, padded = packet ++ 128 :: replicate n 0) as Hloop.
  { intros i. induction i as [|i IH]; intros Hi Hu Hz; simpl in Hu; [done|].
    destruct (Z.eqb_spec (nth i padded 0) 128) as [E|E].
    - simplify_eq. exists (length padded - i - 1)%nat.
      rewrite <-(take_drop i padded) at 1. f_equal.
      rewrite (drop_S padded 128) by (rewrite (nth_lookup_lt _ _ 0), E by lia; done).
      f_equal. apply list_eq. intros j.
      rewrite lookup_drop. destruct (decide (S i + j < length padded)%nat).
      + rewrite Hz by lia. symmetry. apply lookup_replicate_2. lia.
      + rewrite !lookup_ge_None_2; [done|rewrite length_replicate; lia|lia].
    - destruct (Z.eqb_spec (nth i padded 0) 0) as [E0|E0]; simpl in Hu; [|done].
      apply IH; [lia|done|]. intros j Hj.
      destruct (decide (j = i)) as [->|]; [|apply Hz; lia].
      rewrite (nth_lookup_lt _ _ 0), E0 by lia. done. }
  intros Hu. eapply Hloop; [done|exact Hu|lia].
Qed.

(** [unpad] accepts nothing else: it returns a packet exactly when the
    padded form is that packet, the delimiter, and zeros only. *)
Theorem unpad_sound padded packet :
  unpad padded = Ok packet <-> exists n, padded = packet ++ 128 :: replicate n 0.
Proof.
  split; [apply unpad_sound_helper|]. intros [n ->]. apply unpad_delimited.
Qed.

(** ** Classic queries *)

Section classic.
Context `{P : Primitives} {L : PrimitivesLaws P}.

(** How a resolver that knows the shared key reads a classic query: behind the
    8-byte magic and the 32-byte public key comes the client's half of the
    nonce, then the box. *)
Definition resolver_open (c : CryptoConstruction) (sharedKey query : bytes)
    : option (result crypto_error bytes) :=
  let nonce := slice query 40 52 ++ replicate 12 0 in
  let box := drop 52 query in
  unpad <$> (if bool_decide (c = XChacha20Poly1305)
             then xsecretbox_Open nonce box sharedKey
             else secretbox_Open box nonce sharedKey).

(** The largest query datagram for a classic server. *)
Definition classic_limit (server : CryptoServer) (p : proto) : Z :=
  if cs_fragmentsBlocked server && bool_decide (p = udp)
  then MaxDNSUDPSafePacketSize else MaxDNSPacketSize.

Lemma paddedLength_fits server p m n :
  QueryOverhead + n <= m -> 0 <= n ->
  (QueryOverhead + n + 1 >? paddedLengthFor server p m) = true <->
  QueryOverhead + n + 1 > classic_limit server p.
Proof.
  intros Hm Hn. unfold paddedLengthFor, classic_limit.
  pose proof (clear_low6_round (m + 1)) as [Hr _].
  unfold Min, Max, MaxDNSUDPPacketSize, MaxDNSPacketSize, MaxDNSUDPSafePacketSize in *.
  change QueryOverhead with 68 in *. replace (m >? 68) with (68 <? m) by lia.
  destruct (cs_fragmentsBlocked server && bool_decide (p = udp)); [lia|].
  destruct (cs_hasRelay server && bool_decide (p = tcp)); [lia|].
  destruct (Z.ltb_spec 68 m).
  - split_ifs; lia.
  - assert (m = 68) as -> by lia. split_ifs; lia.
Qed.

Lemma paddedLength_cases server p m : 0 <= m ->
  (paddedLengthFor server p m mod 64 = 0 \/ paddedLengthFor server p m = MaxDNSUDPSafePacketSize)
  /\ paddedLengthFor server p m <= classic_limit server p.
Proof.
  intros Hm. unfold paddedLengthFor, classic_limit.
  pose proof (clear_low6_round (Max m QueryOverhead + 1)) as [_ Hr].
  unfold Min, MaxDNSUDPPacketSize, MaxDNSPacketSize, MaxDNSUDPSafePacketSize in *.
  destruct (cs_fragmentsBlocked server && bool_decide (p = udp)); [lia|].
  destruct (cs_hasRelay server && bool_decide (p = tcp)); [split; [by left|lia]|].
  destruct (Z.ltb_spec 4096 (clear_low6 (Max m QueryOverhead + 1 + 63)));
    split; try lia; left; done.
Qed.

Lemma sealClassic_spec server p sharedKey publicKey clientNonce packet m :
  len clientNonce = HalfNonceSize -> len publicKey = PublicKeySize ->
  len (cs_MagicQuery server) = ClientMagicLen -> QueryOverhead + len packet <= m ->
  if QueryOverhead + len packet + 1 >? classic_limit server p
  then sealClassic server p sharedKey publicKey clientNonce packet m = Err QuestionTooLarge
  else exists q,
    sealClassic server p sharedKey publicKey clientNonce packet m = Ok q /\
    eq_clientNonce q = clientNonce /\ eq_sharedKey q = sharedKey /\
    take 8 (eq_encrypted q) = cs_MagicQuery server /\
    len (eq_encrypted q) = paddedLengthFor server p m /\
    resolver_open (cs_CryptoConstruction server) sharedKey (eq_encrypted q)
      = Some (Ok packet).
Proof.
  intros Hnl Hpub Hmagic Hm. pose proof (len_nonneg packet) as Hp0.
  pose proof (paddedLength_fits server p m (len packet) Hm Hp0) as Hfit.
  unfold sealClassic.
  destruct (QueryOverhead + len packet + 1 >? classic_limit server p) eqn:Hlim.
  { rewrite (proj2 Hfit) by lia. done. }
  destruct (QueryOverhead + len packet + 1 >? paddedLengthFor server p m) eqn:Hpl.
  { pose proof (proj1 Hfit eq_refl). lia. }
  bools. change QueryOverhead with 68 in *. change HalfNonceSize with 12 in *.
  change PublicKeySize with 32 in *. change ClientMagicLen with 8 in *.
  rewrite (take_app_length' clientNonce) by (unfold len in *; lia).
  set (padded := pad packet (paddedLengthFor server p m - 68)).
  assert (len padded = paddedLengthFor server p m - 68) as Hpad
    by (unfold padded; rewrite len_pad; lia).
  set (header := cs_MagicQuery server ++ publicKey ++ clientNonce).
  assert (len header = 52) as Hh by (unfold header; rewrite !len_app; lia).
  eexists. split; [reflexivity|]. cbn [eq_clientNonce eq_encrypted eq_sharedKey].
  split_and!; [done|done| | |].
  - unfold header. rewrite <-app_assoc, take_app_length' by (unfold len in *; lia). done.
  - rewrite len_app. case_bool_decide; rewrite ?xsecretbox_Seal_len, ?secretbox_Seal_len, Hpad;
      change TagSize with 16; lia.
  - unfold resolver_open, slice. rewrite (drop_app_length' header _ 52) by (unfold len in *; lia).
    assert (forall k, take (52 - 40) (drop 40 (header ++ k)) = clientNonce) as Hn.
    { intros k. unfold header. rewrite (app_assoc (cs_MagicQuery server)), <-(app_assoc (_ ++ publicKey)).
      rewrite (drop_app_length' (cs_MagicQuery server ++ publicKey))
        by (rewrite length_app; unfold len in *; lia).
      apply take_app_length'. unfold len in *. lia. }
    rewrite Hn. case_bool_decide; rewrite ?xsecretbox_Open_Seal, ?secretbox_Open_Seal; simpl;
      unfold padded; by rewrite padding_unpad.
Qed.

(** C7: for a classic server and working random sources, [Encrypt] fails
    exactly when the packet, the overhead and the padding delimiter do not fit
    the datagram limit (1252 bytes over UDP when the server drops fragments,
    4096 otherwise).  Otherwise the query it builds starts with the server's
    magic, fits that limit, has a length that is a multiple of 64 (or is 1252),
    and the resolver recovers exactly the packet from it. *)
Theorem Encrypt_classic env key server session packet p clientNonce xpad :
  cs_CryptoConstruction server <> XWingPQ ->
  rnd_nonce env = Some clientNonce -> len clientNonce = HalfNonceSize ->
  rnd_xpad env = Some xpad -> is_byte xpad ->
  len (cs_MagicQuery server) = ClientMagicLen ->
  len (proxyPublicKey key) = PublicKeySize ->
  if QueryOverhead + len packet + 1 >? classic_limit server p
  then Encrypt env key server session packet p = (session, Err QuestionTooLarge)
  else exists q,
    Encrypt env key server session packet p = (session, Ok q) /\
    eq_clientNonce q = clientNonce /\
    take 8 (eq_encrypted q) = cs_MagicQuery server /\
    len (eq_encrypted q) <= classic_limit server p /\
    (len (eq_encrypted q) mod 64 = 0 \/ len (eq_encrypted q) = MaxDNSUDPSafePacketSize) /\
    resolver_open (cs_CryptoConstruction server) (eq_sharedKey q) (eq_encrypted q)
      = Some (Ok packet).
Proof.
  intros Hc Hn Hnl Hx Hxb Hmagic Hpk. pose proof (len_nonneg packet).
  unfold Encrypt. rewrite bool_decide_false by done. rewrite Hn, Hx.
  destruct (if ephemeralKeys env then _ else _) as [sharedKey publicKey] eqn:Hkeys.
  assert (len publicKey = PublicKeySize) as Hpub.
  { destruct (ephemeralKeys env); simplify_eq; [apply ScalarBaseMult_len|done]. }
  set (m := match p with udp => Max (env_minQuestionSize env) (QueryOverhead + len packet)
                       | tcp => QueryOverhead + len packet + xpad end).
  assert (QueryOverhead + len packet <= m) as Hm
    by (unfold m, Max, is_byte in *; destruct p; split_ifs; lia).
  pose proof (sealClassic_spec server p sharedKey publicKey clientNonce packet m
                Hnl Hpub Hmagic Hm) as Hseal.
  destruct (QueryOverhead + len packet + 1 >? classic_limit server p).
  - destruct p; unfold m in Hseal; by rewrite Hseal.
  - destruct Hseal as (q & Hq & Hqn & Hk & H8 & Hlen & Hopen). exists q.
    destruct (paddedLength_cases server p m) as [Hmod Hle]; [change QueryOverhead with 68 in *; lia|].
    rewrite Hk, Hlen. split_and!; try done. destruct p; unfold m in Hq; by rewrite Hq.
Qed.
End classic.

(** ** Witness: toy primitives

    A box that carries the message behind a 16-byte tag in the clear satisfies
    the laws: they constrain sizes and round trips, not secrecy. *)
Definition toy_open (nonce box key : bytes) : option bytes :=
  if (16 <=? length box)%nat then Some (drop 16 box) else None.

#[global] Instance toy : Primitives := {|
  xsecretbox_SharedKey sk pk := Some (take 32 (sk ++ pk));
  box_Precompute pk sk := take 32 (pk ++ sk);
  ScalarBaseMult sk := take 32 (sk ++ replicate 32 9);
  sha512_256 m := take 32 (m ++ replicate 32 1);
  sha256_Sum256 m := take 32 (m ++ replicate 32 2);
  xsecretbox_Seal nonce m key := replicate 16 7 ++ m;
  xsecretbox_Open := toy_open;
  secretbox_Seal m nonce key := replicate 16 7 ++ m;
  secretbox_Open box nonce key := toy_open nonce box key;
  hkdfSha256 salt ikm info n := replicate (Z.to_nat n) 3;
  xwing_Encapsulate rnd pk := Some (replicate 32 4, replicate 1120 5);
|}.

#[global] Instance toy_laws : PrimitivesLaws toy.
Proof.
  split; intros; try reflexivity.
  - change (len (replicate 16 7 ++ m) = len m + 16). rewrite len_app, len_replicate. lia.
  - change (len (replicate 16 7 ++ m) = len m + 16). rewrite len_app, len_replicate. lia.
  - change (len (take 32 (sk ++ replicate 32 9)) = 32).
    unfold len. rewrite length_take, length_app, length_replicate. lia.
  - cbn in *. by simplify_eq.
Qed.

Definition toy_server (c : CryptoConstruction) : CryptoServer :=
  {| cs_CryptoConstruction := c; cs_ServerPk := replicate 32 1;
     cs_SharedKey := replicate 32 2; cs_MagicQuery := replicate 8 3;
     cs_PqPublicKey := replicate 1216 4; cs_PqCertContext := [];
     cs_fragmentsBlocked := false; cs_hasRelay := false |}.

Definition toy_env : CryptoEnv :=
  {| rnd_nonce := Some (replicate 12 6); rnd_xpad := Some 10; rnd_key := replicate 32 0; rnd_encap := replicate 64 0;
     env_now := 1000; env_epoch := 1; env_minQuestionSize := 512; ephemeralKeys := true |}.

Definition toy_key : ClientKey :=
  {| proxySecretKey := replicate 32 1; proxyPublicKey := replicate 32 2 |}.

Lemma Encrypt_classic_witness :
  exists q, Encrypt toy_env toy_key (toy_server XChacha20Poly1305) None (replicate 30 5) udp
            = (None, Ok q) /\ len (eq_encrypted q) = 576.
Proof.
  pose proof (Encrypt_classic toy_env toy_key (toy_server XChacha20Poly1305) None
    (replicate 30 5) udp (replicate 12 6) 10 ltac:(discriminate) eq_refl eq_refl eq_refl
    ltac:(vm_compute; split; [discriminate|reflexivity]) eq_refl eq_refl) as H.
  cbv [classic_limit toy_server cs_fragmentsBlocked andb] in H.
  change (QueryOverhead + len (replicate 30 5) + 1 >? MaxDNSPacketSize) with false in H.
  destruct H as (q & Hq & _). exists q. split; [exact Hq|].
  vm_compute in Hq. injection Hq as <-. reflexivity.
Defined.

(** ** Responses *)

Lemma take_drop_slice (b : bytes) i j : (i <= j)%nat ->
  b = take i b ++ slice b i j ++ drop j b.
Proof.
  intros H. unfold slice. rewrite <-(take_drop i b) at 1. f_equal.
  rewrite <-(take_drop (j - i) (drop i b)) at 1. f_equal.
  rewrite drop_drop. f_equal. lia.
Qed.

Section responses.
Context `{P : Primitives} {L : PrimitivesLaws P}.

Definition open_response (c : CryptoConstruction) (nonce box key : bytes) : option bytes :=
  match c with
  | XChacha20Poly1305 | XWingPQ => xsecretbox_Open nonce box key
  | _ => secretbox_Open box nonce key
  end.

(** The shape of a response whose box opens to [plaintext] under [key], as an
    answer to a query sent with [nonce]. *)
Definition response_of (c : CryptoConstruction) (key nonce encrypted plaintext : bytes) : Prop :=
  exists serverNonce box,
    encrypted = ServerMagic ++ serverNonce ++ box /\
    len serverNonce = NonceSize /\ take 12 nonce = take 12 serverNonce /\
    TagSize + MinDNSPacketSize <= len box <= TagSize + MaxDNSPacketSize /\
    open_response c serverNonce box key = Some plaintext.

Lemma Decrypt_opened now ep server session key encrypted nonce qe plaintext :
  response_of (cs_CryptoConstruction server) key nonce encrypted plaintext ->
  Decrypt now ep server session key encrypted nonce qe =
    let '(session, stripped) :=
      if bool_decide (cs_CryptoConstruction server = XWingPQ)
      then pqStripControl now ep server session key nonce plaintext qe
      else (session, Ok plaintext) in
    match stripped with
    | Err e => (session, Err e)
    | Ok packet =>
        match unpad packet with
        | Err _ => (session, Err IncorrectPadding)
        | Ok packet =>
            if len packet <? MinDNSPacketSize
            then (session, Err IncorrectPadding) else (session, Ok packet)
        end
    end.
Proof.
  intros (sn & box & -> & Hsn & Hnonce & Hbox & Hopen). unfold Decrypt.
  rewrite !len_app, Hsn. change (len ServerMagic) with 8.
  change NonceSize with 24 in *. change TagSize with 16 in *.
  unfold MinDNSPacketSize, MaxDNSPacketSize in *.
  replace (8 + (24 + len box) <? 8 + 24 + 16 + (12 + 5)) with false by lia.
  replace (8 + (24 + len box) >? 8 + 24 + 16 + 4096) with false by lia.
  rewrite (take_app_length' ServerMagic _ 8) by done.
  rewrite bool_decide_true by done. cbn [orb negb].
  assert (slice (ServerMagic ++ sn ++ box) 8 32 = sn) as ->.
  { unfold slice. rewrite (drop_app_length' ServerMagic) by done.
    apply take_app_length'. unfold len in *. lia. }
  rewrite bool_decide_true by done. cbn [negb].
  rewrite (app_assoc ServerMagic), (drop_app_length' (ServerMagic ++ sn) box 32)
    by (rewrite length_app; unfold len in *; simpl; lia).
  unfold open_response in Hopen.
  destruct (cs_CryptoConstruction server); rewrite Hopen; done.
Qed.

Lemma Decrypt_inv now ep server session session' key encrypted nonce qe packet :
  Decrypt now ep server session key encrypted nonce qe = (session', Ok packet) ->
  exists plaintext, response_of (cs_CryptoConstruction server) key nonce encrypted plaintext.
Proof.
  unfold Decrypt. change (len ServerMagic) with 8.
  change NonceSize with 24. change TagSize with 16.
  destruct ((len encrypted <? _) || _ || _) eqn:Hguard; [done|].
  apply orb_false_iff in Hguard as [Hsize Hmagic]. bools.
  destruct (bool_decide (take 12 nonce = _)) eqn:Hnonce; simpl; [|done]. bools.
  destruct (match cs_CryptoConstruction server with | XChacha20Poly1305 | XWingPQ => _ | _ => _ end)
    as [plaintext|] eqn:Hopen; [|done].
  intros _. exists plaintext, (slice encrypted 8 32), (drop 32 encrypted).
  unfold slice, len, MinDNSPacketSize, MaxDNSPacketSize in *.
  rewrite length_take, !length_drop. change NonceSize with 24. change TagSize with 16.
  split_and!; [| |done| | |done].
  - rewrite <-Hmagic. apply take_drop_slice. lia.
  - lia.
  - lia.
  - lia.
Qed.

(** C8: the responses [Decrypt] accepts from a classic server are exactly those
    with the server's magic, a nonce whose first half is the one the query
    carried, and a box that opens, under the query's key, to the packet
    followed by valid padding, the packet being at least a minimal DNS packet;
    the packet returned is that one, and nothing else changes. *)
Theorem Decrypt_classic now ep server session session' key encrypted nonce qe packet :
  cs_CryptoConstruction server <> XWingPQ ->
  Decrypt now ep server session key encrypted nonce qe = (session', Ok packet) <->
  session' = session /\ MinDNSPacketSize <= len packet /\
  exists n, response_of (cs_CryptoConstruction server) key nonce encrypted
              (packet ++ 128 :: replicate n 0).
Proof.
  intros Hc. split.
  - intros H. pose proof H as H'. apply Decrypt_inv in H' as [pt Hpt].
    rewrite (Decrypt_opened _ _ _ _ _ _ _ _ _ Hpt), bool_decide_false in H by done.
    destruct (unpad pt) as [pk|] eqn:Hu; [|done]. apply unpad_sound_helper in Hu as [n ->].
    destruct (len pk <? MinDNSPacketSize) eqn:Hl; simplify_eq. bools. eauto.
  - intros (-> & Hl & n & Hr). rewrite (Decrypt_opened _ _ _ _ _ _ _ _ _ Hr).
    rewrite bool_decide_false, unpad_delimited by done.
    by replace (len packet <? MinDNSPacketSize) with false by lia.
Qed.
End responses.

Lemma Decrypt_classic_witness :
  Decrypt 0 0 (toy_server XSalsa20Poly1305) None []
    (ServerMagic ++ replicate 24 6 ++ replicate 16 7 ++ replicate 20 1 ++ [128; 0])
    (replicate 12 6) 0 = (None, Ok (replicate 20 1)).
Proof.
  apply (Decrypt_classic 0 0 (toy_server XSalsa20Poly1305)); [discriminate|].
  split; [reflexivity|]. split; [vm_compute; discriminate|].
  exists 1%nat, (replicate 24 6), (replicate 16 7 ++ replicate 20 1 ++ [128; 0]).
  repeat split; vm_compute; discriminate.
Defined.

(** ** Post-quantum queries *)

Section pq.
Context `{P : Primitives} {L : PrimitivesLaws P}.

(** A size of the padded packet: the smallest multiple of 64 that has room for the packet
    and the delimiter, at least 64. *)
Definition fresh_size (packet : bytes) (size : Z) : Prop :=
  (64 | size) /\ len packet + 1 <= size < len packet + 1 + 64.

(** The same for a resumed query of [total] bytes, with a minimum of 256.  Over UDP the
    query grows to the size [want] that leaves room for a response, but not above the
    [limit] of the datagrams because of it; no padding is added beyond that. *)
Definition resumed_size (p : proto) (want limit : Z) (packet query : bytes) (size : Z) : Prop :=
  let total := len query in
  (64 | size) /\ len packet + 1 <= size /\ 256 <= size /\
  (p = udp -> want <= total \/ limit < total + 64) /\
  (size = 256 \/ size < len packet + 1 + 64 \/ (p = udp /\ total < want + 64 /\ total <= limit)).

Lemma clear_low6_divide x : (64 | clear_low6 x).
Proof. rewrite clear_low6_eq. exists (x / 64). lia. Qed.

Lemma max_divide k a b : (k | a) -> (k | b) -> (k | Z.max a b).
Proof. intros. by destruct (Z.max_spec a b) as [[_ ->]|[_ ->]]. Qed.

Lemma fresh_size_ok packet : fresh_size packet (Z.max 64 (clear_low6 (len packet + 1 + 63))).
Proof.
  pose proof (clear_low6_round (len packet + 1)) as [Hr _]. pose proof (len_nonneg packet).
  destruct (clear_low6_divide (len packet + 1 + 63)) as [k Hk].
  split; [apply max_divide; [by exists 1|by exists k]|]. lia.
Qed.

Lemma resumed_size_ok p want server ticketLen packet query :
  let floor := pqResumedPaddingFloor want server ticketLen p in
  let size := Z.max floor (clear_low6 (len packet + 1 + 63)) in
  len query = pqResumedOverhead ticketLen + size ->
  resumed_size p want (pqUDPPacketLimit server) packet query size.
Proof.
  cbv zeta. unfold pqResumedPaddingFloor, PQResumedPaddingFloor, resumed_size.
  pose proof (clear_low6_round (len packet + 1)) as [Hr _].
  pose proof (clear_low6_divide (len packet + 1 + 63)) as Hd.
  destruct p; [rewrite bool_decide_true by done|rewrite bool_decide_false by done]; cbn [negb]; intros Hq; rewrite Hq.
  - set (o := pqResumedOverhead ticketLen) in *. set (l := pqUDPPacketLimit server) in *.
    pose proof (clear_low6_round (want - o)) as [Ha _]. pose proof (clear_low6_le (l - o)) as [Hb _].
    pose proof (clear_low6_divide (want - o + 63)) as Hd1. pose proof (clear_low6_divide (l - o)) as Hd2.
    assert ((64 | 256)) as Hd3 by (by exists 4).
    unfold Max, Min in *. split_and!; [|lia|repeat case_match; lia|intros _; repeat case_match; lia|].
    + apply max_divide; [|done]. by repeat case_match.
    + enough (forall A B C E : Prop, A \/ B \/ (C /\ E) -> A \/ B \/ (udp = udp /\ C /\ E)) as Hx by (apply Hx; repeat case_match; lia). tauto.
  - split_and!; [apply max_divide; [by exists 4|done]|lia|lia|done|lia].
Qed.

(** The query a resolver holding [key] reads: a header, the client's half of
    the nonce, and a box that opens to the padded packet. *)
Definition pq_query (header nonce key packet query : bytes) (size : Z) : Prop :=
  exists box, query = header ++ nonce ++ box /\
    (unpad <$> xsecretbox_Open (nonce ++ replicate 12 0) box key) = Some (Ok packet) /\
    len box = TagSize + size.

Lemma pq_seal header nonce key packet floor :
  pq_query header nonce key packet
    (header ++ nonce ++ xsecretbox_Seal (nonce ++ replicate 12 0) (pqPad packet floor) key)
    (Z.max floor (clear_low6 (len packet + 1 + 63))).
Proof.
  destruct (pqPad_eq packet floor) as (n & Heq & Hlen).
  eexists. split; [done|]. split.
  - rewrite xsecretbox_Open_Seal. simpl. by rewrite Heq, unpad_delimited.
  - rewrite xsecretbox_Seal_len, Hlen. lia.
Qed.

Lemma get_session s now ep : exists s1, fst (get (Some s) now ep) = Some s1 /\
  encap s1 = encap s /\ encapKey s1 = encapKey s /\ encapEpoch s1 = encapEpoch s.
Proof. unfold get. repeat case_match; simpl; eauto 10. Qed.

Lemma get_hit s now ep s1 t secret : get (Some s) now ep = (s1, Some (t, secret)) ->
  ticket s = Some t /\ epoch s = ep /\ now < expiry s /\ s1 = Some s /\
  secret = resumeSecret s.
Proof. unfold get. intros H. repeat case_match; simplify_eq; bools; eauto 10. Qed.

Lemma getCachedEncapsulation_hit s ep s1 ct key :
  getCachedEncapsulation (Some s) ep = (s1, Some (ct, key)) ->
  s1 = Some s /\ encap s = Some ct /\ key = encapKey s /\ encapEpoch s = ep.
Proof. unfold getCachedEncapsulation. intros H. repeat case_match; simplify_eq; bools; eauto 10. Qed.

Lemma getCachedEncapsulation_session s ep :
  exists s1, fst (getCachedEncapsulation (Some s) ep) = Some s1.
Proof. unfold getCachedEncapsulation. repeat case_match; simpl; eauto. Qed.

(** C6: key material never crosses a network change.  A query encrypted for a
    post-quantum server is one of three: a resumed query under a ticket that
    was stored in the current network epoch and has not expired; a query that
    reuses the encapsulation cached in the current epoch; or one with a fresh
    encapsulation, which is then cached for the current epoch.  In each case the resolver holding
    the corresponding key recovers the packet, which was padded to the next multiple of 64; to
    at least 256 bytes in a resumed query, and to more over UDP, where that query grows to the
    question size of the estimator as far as the limit of the datagrams allows. *)
Theorem encryptPQ_cases env server s packet p clientNonce session' q :
  rnd_nonce env = Some clientNonce -> len clientNonce = HalfNonceSize ->
  encryptPQ env server (Some s) packet p = (session', Ok q) ->
  (exists t size, ticket s = Some t /\ epoch s = env_epoch env /\ env_now env < expiry s /\
     session' = Some s /\
     eq_sharedKey q = pqResumedSharedKey (resumeSecret s) (cs_MagicQuery server) clientNonce t /\
     pq_query (PQResumeMagic ++ put_be16 (uint16 (len t)) ++ t) clientNonce
       (eq_sharedKey q) packet (eq_encrypted q) size /\
     resumed_size p (env_minQuestionSize env)
       (if cs_fragmentsBlocked server then 1252 else 4096) packet (eq_encrypted q) size) \/
  (exists s' ct size, session' = Some s' /\ encap s' = Some ct /\
     encapEpoch s' = env_epoch env /\ encapKey s' = eq_sharedKey q /\
     ((encap s = Some ct /\ encapEpoch s = env_epoch env /\ encapKey s = eq_sharedKey q) \/
      exists kemSS, xwing_Encapsulate (rnd_encap env) (cs_PqPublicKey server) = Some (kemSS, ct) /\
        eq_sharedKey q = pqDeriveSharedKey kemSS (cs_MagicQuery server)
                           (cs_PqCertContext server) ct) /\
     pq_query (cs_MagicQuery server ++ ct) clientNonce (eq_sharedKey q) packet
       (eq_encrypted q) size /\ fresh_size packet size).
Proof.
  intros Hn Hnl H. unfold encryptPQ in H. rewrite Hn in H.
  destruct (get_session s (env_now env) (env_epoch env)) as (s1 & Hs1 & He & Hk & Hep).
  destruct (get (Some s) (env_now env) (env_epoch env)) as [? [[t secret]|]] eqn:Hget;
    simpl in Hs1; subst.
  - left. apply get_hit in Hget as (Ht & Hepoch & Hexp & ? & ->). simplify_eq.
    set (floor := pqResumedPaddingFloor (env_minQuestionSize env) server (len t) p).
    exists t, (Z.max floor (clear_low6 (len packet + 1 + 63))). split_and!; try done; cbn [eq_sharedKey eq_encrypted];
      [|apply resumed_size_ok; destruct (pqPad_eq packet floor) as (n & _ & Hl); fold floor;
        rewrite !len_cons, !len_app, xsecretbox_Seal_len, Hl, Hnl; unfold pqResumedOverhead;
        change (len PQResumeMagic) with 8; lia].
    pose proof (pq_seal (PQResumeMagic ++ put_be16 (uint16 (len t)) ++ t) clientNonce
      (pqResumedSharedKey (resumeSecret s) (cs_MagicQuery server) clientNonce t) packet
      (pqResumedPaddingFloor (env_minQuestionSize env) server (len t) p)) as Hs.
    by rewrite <-!app_assoc in Hs.
  - right. destruct (getCachedEncapsulation_session s1 (env_epoch env)) as (s2 & Hs2).
    destruct (getCachedEncapsulation (Some s1) (env_epoch env)) as [? [[ct key]|]] eqn:Hc;
      simpl in Hs2; subst.
    + apply getCachedEncapsulation_hit in Hc as (? & Hct & -> & Hce). simplify_eq.
      eexists s1, ct, _. split_and!; try done; [left; cbn [eq_sharedKey]; split_and!; congruence| |apply fresh_size_ok].
      cbn [eq_sharedKey eq_encrypted]. rewrite (app_assoc (cs_MagicQuery server)). apply pq_seal.
    + destruct (xwing_Encapsulate _) as [[kemSS ct]|] eqn:Hx; simplify_eq.
      eexists _, ct, _. split_and!; try reflexivity; [|right; by exists kemSS| |apply fresh_size_ok].
      { pose proof (xwing_Encapsulate_len _ _ _ _ Hx). cbn. unfold append_nil. by destruct ct. }
      cbn [eq_sharedKey eq_encrypted]. rewrite (app_assoc (cs_MagicQuery server)). apply pq_seal.
Qed.
End pq.

Definition toy_session : pqSessionState :=
  {| ticket := Some (replicate 20 8); resumeSecret := replicate 32 9; expiry := 5000; epoch := 1;
     encap := None; encapKey := zero_key; encapEpoch := 0 |}.

Lemma encryptPQ_cases_witness :
  match encryptPQ toy_env (toy_server XWingPQ) (Some toy_session) (replicate 30 5) udp with
  | (session', Ok q) => session' = Some toy_session
  | _ => False
  end.
Proof.
  destruct (encryptPQ toy_env (toy_server XWingPQ) (Some toy_session) (replicate 30 5) udp)
    as [session' [q|e]] eqn:E; [|vm_compute in E; discriminate].
  destruct (encryptPQ_cases toy_env (toy_server XWingPQ) toy_session (replicate 30 5) udp
    (replicate 12 6) session' q eq_refl eq_refl E) as [(t & size & _ & _ & _ & H & _)|(s' & ct & size & H & Hct & _)];
    [exact H|].
  vm_compute in E. injection E as <- <-. injection H as <-. discriminate Hct.
Defined.
