(* ===== verification/Dns.v ===== *)
(** * DNS messages

    The message type of the DNS library the proxy uses (codeberg.org/miekg/dns),
    as far as the proxy reads or writes it.  Packing, unpacking and the
    case-insensitive name comparison are library code: they are the fields of
    the class [DnsLib]. *)

From S2P Require Import Prelude GoStrings.

(** ** Resource records *)

Record Header := { Name : bytes; Class_ : Z; TTL : Z }.

Definition ClassINET : Z := 1.

Definition TypeA : Z := 1.
Definition TypeNS : Z := 2.
Definition TypeCNAME : Z := 5.
Definition TypeSOA : Z := 6.
Definition TypePTR : Z := 12.
Definition TypeHINFO : Z := 13.
Definition TypeMX : Z := 15.
Definition TypeTXT : Z := 16.
Definition TypeAAAA : Z := 28.
Definition TypeOPT : Z := 41.
Definition TypeSVCB : Z := 64.
Definition TypeHTTPS : Z := 65.

(** The record types whose content the proxy looks at or builds; any other
    type is [RD_other]. *)
Inductive rdata :=
| RD_A (addr : bytes)
| RD_AAAA (addr : bytes)
| RD_CNAME (target : bytes)
| RD_SVCB (priority : Z) (target : bytes)
| RD_HTTPS (priority : Z) (target : bytes)
| RD_PTR (ptr : bytes)
| RD_NS (ns : bytes)
| RD_MX (preference : Z) (mx : bytes)
| RD_TXT (txt : list bytes)
| RD_HINFO (cpu os : bytes)
| RD_SOA (ns mbox : bytes) (serial refresh retry expire minttl : Z)
| RD_OPT
| RD_other (rrtype : Z).

Record RR := { hdr : Header; data : rdata }.

Definition RRToType (rr : RR) : Z :=
  match data rr with
  | RD_A _ => TypeA | RD_AAAA _ => TypeAAAA | RD_CNAME _ => TypeCNAME
  | RD_SVCB _ _ => TypeSVCB | RD_HTTPS _ _ => TypeHTTPS | RD_PTR _ => TypePTR
  | RD_NS _ => TypeNS | RD_MX _ _ => TypeMX
  | RD_TXT _ => TypeTXT | RD_HINFO _ _ => TypeHINFO
  | RD_SOA _ _ _ _ _ _ _ => TypeSOA | RD_OPT => TypeOPT | RD_other t => t
  end.

(** A question: only the name, the type and the class of the record that holds
    it in the source. *)
Record Question := { q_Name : bytes; q_Type : Z; q_Class : Z }.

(** EDNS options, kept in the message's virtual pseudo section. *)
Inductive pseudo :=
| PS_EDE (infoCode : Z) (extraText : bytes)
| PS_PADDING (padding : bytes)
| PS_SUBNET (family netmask scope : Z) (address : bytes)
| PS_other (code : Z).

#[global] Instance Header_eq_dec : EqDecision Header.
Proof. solve_decision. Defined.
#[global] Instance rdata_eq_dec : EqDecision rdata.
Proof. solve_decision. Defined.
#[global] Instance RR_eq_dec : EqDecision RR.
Proof. solve_decision. Defined.
#[global] Instance Question_eq_dec : EqDecision Question.
Proof. solve_decision. Defined.
#[global] Instance pseudo_eq_dec : EqDecision pseudo.
Proof. solve_decision. Defined.

(** ** Messages *)

Record MsgHeader := {
  Opcode : Z; ID : Z; Rcode_ : Z; UDPSize : Z; Version : Z;
  Response : bool; Authoritative : bool; Truncated : bool;
  RecursionDesired : bool; RecursionAvailable : bool; Zero_ : bool;
  AuthenticatedData : bool; CheckingDisabled : bool;
  Security : bool; CompactAnswers : bool; Delegation : bool;
}.

Definition zero_MsgHeader : MsgHeader :=
  {| Opcode := 0; ID := 0; Rcode_ := 0; UDPSize := 0; Version := 0;
     Response := false; Authoritative := false; Truncated := false;
     RecursionDesired := false; RecursionAvailable := false; Zero_ := false;
     AuthenticatedData := false; CheckingDisabled := false;
     Security := false; CompactAnswers := false; Delegation := false |}.

Record Msg := {
  MH : MsgHeader;
  Questions : list Question;
  Answer : list RR;
  Ns : list RR;
  Extra : list RR;
  Pseudo : list pseudo;
}.

#[global] Instance MsgHeader_eq_dec : EqDecision MsgHeader.
Proof. solve_decision. Defined.
#[global] Instance Msg_eq_dec : EqDecision Msg.
Proof. solve_decision. Defined.

Definition RcodeSuccess : Z := 0.
Definition RcodeServerFailure : Z := 2.
Definition RcodeNameError : Z := 3.
Definition RcodeRefused : Z := 5.
Definition RcodeNotAuth : Z := 9.

Definition ExtendedErrorForgedAnswer : Z := 4.
Definition ExtendedErrorFiltered : Z := 17.

(** Assignments to fields of a message. *)
Definition set_header (f : MsgHeader -> MsgHeader) (m : Msg) : Msg :=
  {| MH := f (MH m); Questions := Questions m; Answer := Answer m; Ns := Ns m;
     Extra := Extra m; Pseudo := Pseudo m |}.
Definition set_Questions (q : list Question) (m : Msg) : Msg :=
  {| MH := MH m; Questions := q; Answer := Answer m; Ns := Ns m;
     Extra := Extra m; Pseudo := Pseudo m |}.
Definition set_Answer (a : list RR) (m : Msg) : Msg :=
  {| MH := MH m; Questions := Questions m; Answer := a; Ns := Ns m;
     Extra := Extra m; Pseudo := Pseudo m |}.
Definition set_Ns (a : list RR) (m : Msg) : Msg :=
  {| MH := MH m; Questions := Questions m; Answer := Answer m; Ns := a;
     Extra := Extra m; Pseudo := Pseudo m |}.
Definition set_Extra (a : list RR) (m : Msg) : Msg :=
  {| MH := MH m; Questions := Questions m; Answer := Answer m; Ns := Ns m;
     Extra := a; Pseudo := Pseudo m |}.
Definition set_Pseudo (p : list pseudo) (m : Msg) : Msg :=
  {| MH := MH m; Questions := Questions m; Answer := Answer m; Ns := Ns m;
     Extra := Extra m; Pseudo := p |}.

Definition set_ID (v : Z) (h : MsgHeader) : MsgHeader :=
  {| Opcode := Opcode h; ID := v; Rcode_ := Rcode_ h; UDPSize := UDPSize h;
     Version := Version h; Response := Response h; Authoritative := Authoritative h;
     Truncated := Truncated h; RecursionDesired := RecursionDesired h;
     RecursionAvailable := RecursionAvailable h; Zero_ := Zero_ h;
     AuthenticatedData := AuthenticatedData h; CheckingDisabled := CheckingDisabled h;
     Security := Security h; CompactAnswers := CompactAnswers h; Delegation := Delegation h |}.
Definition set_Response (v : bool) (h : MsgHeader) : MsgHeader :=
  {| Opcode := Opcode h; ID := ID h; Rcode_ := Rcode_ h; UDPSize := UDPSize h;
     Version := Version h; Response := v; Authoritative := Authoritative h;
     Truncated := Truncated h; RecursionDesired := RecursionDesired h;
     RecursionAvailable := RecursionAvailable h; Zero_ := Zero_ h;
     AuthenticatedData := AuthenticatedData h; CheckingDisabled := CheckingDisabled h;
     Security := Security h; CompactAnswers := CompactAnswers h; Delegation := Delegation h |}.
Definition set_Rcode (v : Z) (h : MsgHeader) : MsgHeader :=
  {| Opcode := Opcode h; ID := ID h; Rcode_ := v; UDPSize := UDPSize h;
     Version := Version h; Response := Response h; Authoritative := Authoritative h;
     Truncated := Truncated h; RecursionDesired := RecursionDesired h;
     RecursionAvailable := RecursionAvailable h; Zero_ := Zero_ h;
     AuthenticatedData := AuthenticatedData h; CheckingDisabled := CheckingDisabled h;
     Security := Security h; CompactAnswers := CompactAnswers h; Delegation := Delegation h |}.
Definition set_Truncated (v : bool) (h : MsgHeader) : MsgHeader :=
  {| Opcode := Opcode h; ID := ID h; Rcode_ := Rcode_ h; UDPSize := UDPSize h;
     Version := Version h; Response := Response h; Authoritative := Authoritative h;
     Truncated := v; RecursionDesired := RecursionDesired h;
     RecursionAvailable := RecursionAvailable h; Zero_ := Zero_ h;
     AuthenticatedData := AuthenticatedData h; CheckingDisabled := CheckingDisabled h;
     Security := Security h; CompactAnswers := CompactAnswers h; Delegation := Delegation h |}.
Definition set_EDNS (size : Z) (security : bool) (h : MsgHeader) : MsgHeader :=
  {| Opcode := Opcode h; ID := ID h; Rcode_ := Rcode_ h; UDPSize := size;
     Version := Version h; Response := Response h; Authoritative := Authoritative h;
     Truncated := Truncated h; RecursionDesired := RecursionDesired h;
     RecursionAvailable := RecursionAvailable h; Zero_ := Zero_ h;
     AuthenticatedData := AuthenticatedData h; CheckingDisabled := CheckingDisabled h;
     Security := security; CompactAnswers := CompactAnswers h; Delegation := Delegation h |}.

Definition set_AuthenticatedData (v : bool) (h : MsgHeader) : MsgHeader :=
  {| Opcode := Opcode h; ID := ID h; Rcode_ := Rcode_ h; UDPSize := UDPSize h;
     Version := Version h; Response := Response h; Authoritative := Authoritative h;
     Truncated := Truncated h; RecursionDesired := RecursionDesired h;
     RecursionAvailable := RecursionAvailable h; Zero_ := Zero_ h;
     AuthenticatedData := v; CheckingDisabled := CheckingDisabled h;
     Security := Security h; CompactAnswers := CompactAnswers h; Delegation := Delegation h |}.
Definition set_RecursionDesired (v : bool) (h : MsgHeader) : MsgHeader :=
  {| Opcode := Opcode h; ID := ID h; Rcode_ := Rcode_ h; UDPSize := UDPSize h;
     Version := Version h; Response := Response h; Authoritative := Authoritative h;
     Truncated := Truncated h; RecursionDesired := v;
     RecursionAvailable := RecursionAvailable h; Zero_ := Zero_ h;
     AuthenticatedData := AuthenticatedData h; CheckingDisabled := CheckingDisabled h;
     Security := Security h; CompactAnswers := CompactAnswers h; Delegation := Delegation h |}.

(** [dns.NewMsg]: a question of class IN with recursion desired; the number of the
    message is random. *)
Definition NewMsg (id : Z) (z : bytes) (t : Z) : Msg :=
  {| MH := set_RecursionDesired true (set_ID id zero_MsgHeader);
     Questions := [{| q_Name := if HasSuffix z (str ".") then z else z ++ str "."; q_Type := t;
                      q_Class := ClassINET |}];
     Answer := []; Ns := []; Extra := []; Pseudo := [] |}.

(** ** The library's operations *)

Class DnsLib := {
  Unpack : bytes -> option Msg;
  Pack : Msg -> option bytes;
  EqualName : bytes -> bytes -> bool;
}.

(** Names are equal to themselves.  Nothing is assumed of what packing does to a message. *)
Class DnsLibLaws (D : DnsLib) := { EqualName_refl : forall n, EqualName n n = true }.
