(* ===== verification/DnsUtils.v ===== *)
(** * DNS utilities (src/dnscrypt-proxy/dnsutils.go)

    Response validation, synthetic responses, name normalization, TTL
    computation for the cache, EDNS padding and TXT unescaping. *)

From S2P Require Import Prelude GoStrings NetIP Common Dns.

(** ** Validation of responses *)

Inductive validation_error :=
| UnexpectedNumberOfQuestions
| QuestionMismatch
| MissingQueryOrResponse
| ResponseBitNotSet
| IDMismatch.

#[global] Instance validation_error_eq_dec : EqDecision validation_error.
Proof. solve_decision. Defined.

Section validation.
Context `{D : DnsLib}.

(** [None] is a nil pointer. *)
Definition validateResponseQuestion (query response : option Msg)
    : option validation_error :=
  match query, response with
  | Some query, Some response =>
      match Questions query, Questions response with
      | [q], [r] =>
          if negb (q_Type q =? q_Type r) || negb (q_Class q =? q_Class r)
             || negb (EqualName (q_Name q) (q_Name r))
          then Some QuestionMismatch else None
      | _, _ => Some UnexpectedNumberOfQuestions
      end
  | _, _ => Some UnexpectedNumberOfQuestions
  end.

Definition validateResponseForQuery (query response : option Msg)
    : option validation_error :=
  match query, response with
  | Some q, Some r =>
      if negb (Response (MH r)) then Some ResponseBitNotSet
      else if negb (ID (MH r) =? ID (MH q)) then Some IDMismatch
      else validateResponseQuestion query response
  | _, _ => Some MissingQueryOrResponse
  end.
End validation.

(** ** Synthetic responses *)

Definition EmptyResponseFromMessage (srcMsg : Msg) : Msg :=
  {| MH := {| ID := ID (MH srcMsg); Opcode := Opcode (MH srcMsg);
              Response := true; RecursionAvailable := true;
              RecursionDesired := RecursionDesired (MH srcMsg);
              CheckingDisabled := false; AuthenticatedData := false;
              UDPSize := if UDPSize (MH srcMsg) >? 0 then UDPSize (MH srcMsg) else 0;
              Security := if UDPSize (MH srcMsg) >? 0 then Security (MH srcMsg) else false;
              Rcode_ := 0; Version := 0; Authoritative := false; Truncated := false;
              Zero_ := false; CompactAnswers := false; Delegation := false |};
     Questions := Questions srcMsg; Answer := []; Ns := []; Extra := []; Pseudo := [] |}.

Definition TruncatedResponse `{D : DnsLib} (packet : bytes) : option bytes :=
  srcMsg ← Unpack packet;
  Pack (set_header (set_Truncated true) (EmptyResponseFromMessage srcMsg)).

Definition blocked_cpu : bytes := str "This query has been locally blocked".
Definition blocked_os : bytes := str "by dnscrypt-proxy".
Definition blocked_text : bytes :=
  str "This query has been locally blocked by dnscrypt-proxy".

(** The record placed in the answer section of a synthetic response to a
    blocked query, and whether it is a forged address. *)
Definition refused_answer (q : Question) (ipv4 ipv6 : option bytes) (ttl : Z) : RR * bool :=
  let h := {| Name := q_Name q; Class_ := ClassINET; TTL := ttl |} in
  let hinfo := ({| hdr := h; data := RD_HINFO blocked_cpu blocked_os |}, false) in
  if bool_decide (is_Some ipv4) && (q_Type q =? TypeA) then
    match ip ← ipv4; To4 ip with
    | Some ip4 => ({| hdr := h; data := RD_A ip4 |}, true)
    | None => hinfo
    end
  else if bool_decide (is_Some ipv6) && (q_Type q =? TypeAAAA) then
    match ip ← ipv6; To16 ip with
    | Some ip6 => ({| hdr := h; data := RD_AAAA ip6 |}, true)
    | None => hinfo
    end
  else hinfo.

(** The EDE option is appended first and filled in later through the shared
    pointer, so the response carries its final content. *)
Definition RefusedResponseFromMessage (srcMsg : Msg) (refusedCode : bool)
    (ipv4 ipv6 : option bytes) (ttl : Z) : Msg :=
  let dstMsg := EmptyResponseFromMessage srcMsg in
  let with_ede code text m :=
    if UDPSize (MH dstMsg) >? 0 then set_Pseudo [PS_EDE code text] m else m in
  if refusedCode then
    with_ede ExtendedErrorFiltered [] (set_header (set_Rcode RcodeRefused) dstMsg)
  else
    let dstMsg := set_header (set_Rcode RcodeSuccess) dstMsg in
    match Questions srcMsg with
    | [] => with_ede ExtendedErrorFiltered [] dstMsg
    | question :: _ =>
        let '(rr, forged) := refused_answer question ipv4 ipv6 ttl in
        if forged
        then with_ede ExtendedErrorForgedAnswer blocked_text (set_Answer [rr] dstMsg)
        else with_ede ExtendedErrorFiltered [] (set_Answer [rr] dstMsg)
    end.

(** ** Packet fields *)

Definition HasTCFlag (packet : bytes) : bool := Z.land (nth 2 packet 0) 2 =? 2.

Definition TransactionID (packet : bytes) : Z := be16 (nth 0 packet 0) (nth 1 packet 0).

Definition SetTransactionID (packet : bytes) (tid : Z) : bytes := put_be16 tid ++ drop 2 packet.

Definition Rcode (packet : bytes) : Z := Z.land (nth 3 packet 0) 15.

(** ** Names *)

Definition NormalizeRawQName (name : bytes) : bytes :=
  (fun c => if (c >=? 65) && (c <=? 90) then c + 32 else c) <$> name.

Inductive name_error := NotASCII.

(** The first pass over the name: whether an upper-case letter occurs, [None]
    when a byte outside ASCII does. *)
Fixpoint scan_qname (s : bytes) (hasUpper : bool) : option bool :=
  match s with
  | [] => Some hasUpper
  | c :: s' =>
      if c >=? RuneSelf then None
      else scan_qname s' (hasUpper || ((65 <=? c) && (c <=? 90)))
  end.

Definition NormalizeQName (s : bytes) : result name_error bytes :=
  if (len s =? 0) || bool_decide (s = str ".") then Ok (str ".")
  else
    let s := TrimSuffix s (str ".") in
    match scan_qname s false with
    | None => Err NotASCII
    | Some false => Ok s
    | Some true =>
        Ok ((fun c => if (65 <=? c) && (c <=? 90) then c + (97 - 65) else c) <$> s)
    end.

(** ** TTLs *)

Definition min_rr_ttl (rrs : list RR) (ttl : Z) : Z :=
  fold_left (fun ttl rr => if TTL (hdr rr) <? ttl then TTL (hdr rr) else ttl) rrs ttl.

Definition getMinTTL (msg : Msg) (minTTL maxTTL cacheNegMinTTL cacheNegMaxTTL : Z) : Duration :=
  let rcode := Rcode_ (MH msg) in
  if (negb (rcode =? RcodeSuccess) && negb (rcode =? RcodeNameError))
     || ((len (Answer msg) <=? 0) && (len (Ns msg) <=? 0))
  then cacheNegMinTTL * Second
  else
    let ttl := if rcode =? RcodeSuccess then maxTTL else cacheNegMaxTTL in
    let ttl := if len (Answer msg) >? 0 then min_rr_ttl (Answer msg) ttl
               else min_rr_ttl (Ns msg) ttl in
    let ttl := if rcode =? RcodeSuccess
               then (if ttl <? minTTL then minTTL else ttl)
               else (if ttl <? cacheNegMinTTL then cacheNegMinTTL else ttl) in
    ttl * Second.

Definition set_rr_ttl (ttl : Z) (rr : RR) : RR :=
  {| hdr := {| Name := Name (hdr rr); Class_ := Class_ (hdr rr); TTL := ttl |};
     data := data rr |}.

(** The number of seconds left until [expiration], rounded to the nearest. *)
Definition remaining_ttl (now expiration : Time) : Z :=
  let until := time_sub expiration now in
  if until >? 0 then
    let ttl := uint32 (go_div until Second) in
    if until - ttl * Second >=? go_div Second 2 then uint32 (ttl + 1) else ttl
  else 0.

Definition updateTTL (msg : Msg) (now expiration : Time) : Msg :=
  let ttl := remaining_ttl now expiration in
  {| MH := MH msg; Questions := Questions msg;
     Answer := set_rr_ttl ttl <$> Answer msg;
     Ns := set_rr_ttl ttl <$> Ns msg;
     Extra := (fun rr => if RRToType rr =? TypeOPT then rr else set_rr_ttl ttl rr) <$> Extra msg;
     Pseudo := Pseudo msg |}.

(** ** EDNS padding *)

Definition is_padding (p : pseudo) : bool :=
  match p with PS_PADDING _ => true | _ => false end.

Definition hasEDNS0Padding `{D : DnsLib} (packet : bytes) : option bool :=
  msg ← Unpack packet; Some (existsb is_padding (Pseudo msg)).

(** [strings.Repeat(s, n)]. *)
Definition repeat_bytes (s : bytes) (n : Z) : bytes := concat (replicate (Z.to_nat n) s).

Definition addEDNS0PaddingIfNoneFound `{D : DnsLib} (msg : Msg) (unpaddedPacket : bytes)
    (paddingLen : Z) : Msg * option bytes :=
  let msg := if UDPSize (MH msg) =? 0
             then set_header (set_EDNS (uint16 MaxDNSPacketSize) (Security (MH msg))) msg
             else msg in
  if existsb is_padding (Pseudo msg) then (msg, Some unpaddedPacket)
  else
    let msg := set_Pseudo (Pseudo msg ++ [PS_PADDING (repeat_bytes (str "58") paddingLen)]) msg in
    (msg, Pack msg).

Definition removeEDNS0Options (msg : Msg) : Msg * bool :=
  if len (Pseudo msg) =? 0 then (msg, false) else (set_Pseudo [] msg, true).

(** ** TXT records *)

Definition dddToByte (a b c : Z) : option Z :=
  let n := (a - 48) * 100 + (b - 48) * 10 + (c - 48) in
  if n >? 255 then None else Some n.

(** A backslash followed by anything but three digits. *)
Definition simple_escape (c : Z) : Z :=
  if c =? 116 then 9 else if c =? 114 then 13 else if c =? 110 then 10 else c.

Fixpoint PackTXTRR (bs : bytes) : bytes :=
  match bs with
  | [] => []
  | b :: rest =>
      if b =? 92 then
        match rest with
        | [] => []
        | c :: rest1 =>
            match rest1 with
            | d1 :: d2 :: rest3 =>
                if isDigit c && isDigit d1 && isDigit d2 then
                  match dddToByte c d1 d2 with
                  | Some b => b :: PackTXTRR rest3
                  | None => PackTXTRR rest3
                  end
                else simple_escape c :: PackTXTRR rest1
            | _ => simple_escape c :: PackTXTRR rest1
            end
        end
      else b :: PackTXTRR rest
  end.

(** How the DNS library presents the bytes of a TXT string it has unpacked:
    quotes and backslashes are escaped, unprintable bytes become three decimal
    digits. *)
Definition escape_byte (b : Z) : bytes :=
  if (b =? 34) || (b =? 92) then [92; b]
  else if (b <? 32) || (b >? 126) then [92; 48 + b / 100; 48 + b / 10 mod 10; 48 + b mod 10]
  else [b].
Definition escape_txt (bs : bytes) : bytes := bs ≫= escape_byte.
