(* ===== verification/DnsUtilsProps.v ===== *)
(** * Properties of the DNS utilities *)

From S2P Require Import Prelude GoStrings NetIP Common Dns DnsUtils.

(** ** TXT records *)

Lemma digits_of_byte b : is_byte b ->
  b = 100 * (b / 100) + 10 * (b / 10 mod 10) + b mod 10.
Proof.
  intros H. unfold is_byte in H.
  pose proof (Z.div_mod b 10 ltac:(lia)). pose proof (Z.div_mod (b / 10) 10 ltac:(lia)).
  rewrite Z.div_div in * by lia. change (10 * 10) with 100 in *. lia.
Qed.

Lemma PackTXTRR_escape_byte b rest : is_byte b ->
  PackTXTRR (escape_byte b ++ rest) = b :: PackTXTRR rest.
Proof.
  intros Hb. unfold escape_byte. unfold is_byte in Hb.
  destruct ((b =? 34) || (b =? 92)) eqn:E1.
  - assert (b = 34 \/ b = 92) as [->| ->] by lia; destruct rest as [|d1 [|d2 r]]; reflexivity.
  - destruct ((b <? 32) || (b >? 126)) eqn:E2.
    + simpl. pose proof (digits_of_byte b Hb) as Hd. unfold isDigit, dddToByte.
      pose proof (Z.mod_pos_bound b 10 ltac:(lia)).
      pose proof (Z.mod_pos_bound (b / 10) 10 ltac:(lia)).
      assert (0 <= b / 100 < 3) by (split; [apply Z.div_pos; lia|];
        apply Z.div_lt_upper_bound; lia).
      set (h := b / 100) in *. set (t := b / 10 mod 10) in *. set (u := b mod 10) in *.
      clearbody h t u.
      replace ((48 + h >=? 48) && (48 + h <=? 57) && ((48 + t >=? 48) && (48 + t <=? 57))
        && ((48 + u >=? 48) && (48 + u <=? 57))) with true by lia.
      replace ((48 + h - 48) * 100 + (48 + t - 48) * 10 + (48 + u - 48)) with b by lia.
      by replace (b >? 255) with false by lia.
    + simpl. replace (b =? 92) with false by lia. done.
Qed.

(** The bytes of a TXT record (a resolver's certificate) survive the DNS
    library's escaping: unescaping what the library presents for a byte string,
    cut into TXT strings in any way, gives the byte string back. *)
Theorem PackTXTRR_escape chunks :
  Forall are_bytes chunks ->
  PackTXTRR (concat (escape_txt <$> chunks)) = concat chunks.
Proof.
  assert (forall bs rest, are_bytes bs ->
    PackTXTRR (escape_txt bs ++ rest) = bs ++ PackTXTRR rest) as Hstep.
  { intros bs rest. induction 1 as [|b bs Hb _ IH]; [done|].
    unfold escape_txt in *. csimpl. rewrite <-app_assoc, PackTXTRR_escape_byte by done.
    by rewrite IH. }
  induction 1 as [|c chunks Hc _ IH]; [done|]. csimpl. by rewrite Hstep, IH.
Qed.

Lemma PackTXTRR_escape_witness :
  PackTXTRR (concat (escape_txt <$> [[0; 34; 200]; [92; 65]])) = [0; 34; 200; 92; 65].
Proof.
  apply (PackTXTRR_escape [[0; 34; 200]; [92; 65]]).
  repeat constructor; vm_compute; discriminate.
Defined.

(** ** Names *)

Lemma scan_qname_spec s u : scan_qname s u =
  if is_ascii s then Some (u || existsb (fun c => (65 <=? c) && (c <=? 90)) s) else None.
Proof.
  revert u. induction s as [|c s IH]; intros u; simpl; [by rewrite orb_false_r|].
  rewrite Z.geb_leb. destruct (RuneSelf <=? c) eqn:E.
  - replace (c <? RuneSelf) with false by lia. done.
  - replace (c <? RuneSelf) with true by lia. rewrite IH. simpl.
    destruct (is_ascii s); [|done]. by rewrite orb_assoc.
Qed.

Lemma lower_no_upper s : existsb (fun c => (65 <=? c) && (c <=? 90)) s = false ->
  ascii_lower s = s.
Proof.
  intros H. induction s as [|c s IH]; [done|]. simpl in H. bools.
  unfold ascii_lower in *. csimpl. rewrite IH by done. f_equal.
  unfold ascii_lower_byte, in_range. by rewrite H.
Qed.

(** [NormalizeQName] without its fast path. *)
Lemma NormalizeQName_eq s : NormalizeQName s =
  if (len s =? 0) || bool_decide (s = str ".") then Ok (str ".")
  else let s' := TrimSuffix s (str ".") in
       if is_ascii s' then Ok (ascii_lower s') else Err NotASCII.
Proof.
  unfold NormalizeQName. destruct ((len s =? 0) || _); [done|]. cbv zeta.
  rewrite scan_qname_spec. destruct (is_ascii _); [|done]. simpl.
  destruct (existsb _ _) eqn:E; [done|]. by rewrite lower_no_upper.
Qed.

Lemma TrimSuffix_dot s :
  TrimSuffix s (str ".") = match last s with Some 46 => take (length s - 1) s | _ => s end.
Proof.
  unfold TrimSuffix. destruct (HasSuffix s (str ".")) eqn:E.
  - apply HasSuffix_spec in E as [k ->]. change (str ".") with [46]. by rewrite last_snoc.
  - destruct (last s) as [c|] eqn:El; [|done].
    destruct (decide (c = 46)) as [->|Hne].
    + exfalso. apply last_Some in El as [k ->].
      assert (HasSuffix (k ++ [46]) (str ".") = true) as Ht by (apply HasSuffix_spec; by exists k).
      congruence.
    + repeat (case_match; try done).
Qed.

Lemma TrimSuffix_dot_id s : last s <> Some 46 -> TrimSuffix s (str ".") = s.
Proof. intros H. rewrite TrimSuffix_dot. repeat (case_match; try done). Qed.

Lemma NormalizeQName_no_dot n : n <> [] -> last n <> Some 46 ->
  NormalizeQName n = if is_ascii n then Ok (ascii_lower n) else Err NotASCII.
Proof.
  intros Hne Hl. rewrite NormalizeQName_eq, bool_decide_false by (intros ->; done).
  destruct (len n =? 0) eqn:E; [bools; by apply len_nil_inv in E|].
  simpl. by rewrite TrimSuffix_dot_id.
Qed.

Lemma ascii_lower_range s c : is_ascii s = true -> c ∈ ascii_lower s ->
  c < 128 /\ ~ (65 <= c <= 90).
Proof.
  intros Ha Hc. unfold ascii_lower in Hc. apply list_elem_of_fmap in Hc as (b & -> & Hb).
  unfold is_ascii in Ha. rewrite forallb_forall in Ha.
  apply list_elem_of_In in Hb. apply Ha in Hb. bools. unfold RuneSelf in *.
  unfold ascii_lower_byte, in_range. split_ifs; lia.
Qed.

Lemma is_ascii_lower s : is_ascii (ascii_lower s) = is_ascii s.
Proof.
  unfold is_ascii, ascii_lower. induction s as [|c s IH]; [done|]. csimpl. rewrite IH. f_equal.
  unfold ascii_lower_byte, in_range, RuneSelf. split_ifs; lia.
Qed.

(** Normalization of query names.  A name is rejected exactly when it has
    a byte outside ASCII before its final dot; otherwise the result is the name
    without that dot, in lower case ("." for the root).  The result has neither
    upper-case letters nor bytes outside ASCII, and normalizing it again changes
    nothing unless it still ends in a dot. *)
Theorem NormalizeQName_spec s :
  NormalizeQName s =
    (if bool_decide (s = [] \/ s = str ".") then Ok (str ".")
     else let s' := TrimSuffix s (str ".") in
          if is_ascii s' then Ok (ascii_lower s') else Err NotASCII) /\
  (forall n, NormalizeQName s = Ok n ->
     (forall c, c ∈ n -> c < 128 /\ ~ (65 <= c <= 90)) /\
     (n <> [] -> last n <> Some 46 -> NormalizeQName n = Ok n)).
Proof.
  split.
  { rewrite NormalizeQName_eq.
    destruct (decide (s = [])) as [->|H1]; [done|].
    destruct (decide (s = str ".")) as [->|H2]; [done|].
    destruct (len s =? 0) eqn:E; [bools; by apply len_nil_inv in E|].
    rewrite !bool_decide_false by tauto. done. }
  intros n. rewrite NormalizeQName_eq.
  destruct ((len s =? 0) || _) eqn:E0.
  { intros [= <-]. split; [|done]. intros c Hc. change (str ".") with [46] in Hc.
    apply list_elem_of_singleton in Hc as ->. lia. }
  cbv zeta. destruct (is_ascii (TrimSuffix s (str "."))) eqn:Ea; [|done]. intros [= <-].
  split; [intros c; by apply ascii_lower_range|]. intros Hne Hl.
  rewrite NormalizeQName_no_dot by done. by rewrite is_ascii_lower, Ea, ascii_lower_idem.
Qed.

(** ** TTLs *)

Lemma min_rr_ttl_spec rrs t : let m := min_rr_ttl rrs t in
  m <= t /\ (forall rr, rr ∈ rrs -> m <= TTL (hdr rr)) /\
  (m = t \/ exists rr, rr ∈ rrs /\ m = TTL (hdr rr)).
Proof.
  unfold min_rr_ttl. simpl. revert t. induction rrs as [|r rrs IH]; intros t; simpl.
  { split_and!; [lia| |by left]. intros rr Hrr. by apply not_elem_of_nil in Hrr. }
  destruct (IH (if TTL (hdr r) <? t then TTL (hdr r) else t)) as (H1 & H2 & H3).
  split_and!.
  - split_ifs; lia.
  - intros rr [->|Hin]%elem_of_cons; [split_ifs; lia|by apply H2].
  - destruct H3 as [H3|(rr & Hin & H3)].
    + rewrite H3. destruct (TTL (hdr r) <? t); [right; exists r|by left].
      split; [by constructor|done].
    + right. exists rr. split; [by constructor|done].
Qed.

(** The records whose TTLs bound how long a response is kept. *)
Definition ttl_records (msg : Msg) : list RR :=
  match Answer msg with [] => Ns msg | _ => Answer msg end.

(** How long a response is kept.  Failures and responses without records
    are kept for the negative minimum; otherwise, with consistent limits, the
    time is within the limits of its response code (positive or NXDOMAIN), and
    above the minimum never longer than the TTL of a record of the answer (or,
    when there is none, of the authority section). *)
Theorem getMinTTL_bounds msg minTTL maxTTL negMin negMax :
  minTTL <= maxTTL -> negMin <= negMax ->
  let d := getMinTTL msg minTTL maxTTL negMin negMax in
  let rcode := Rcode_ (MH msg) in
  if bool_decide ((rcode = RcodeSuccess \/ rcode = RcodeNameError) /\ ttl_records msg <> [])
  then
    let lo := if rcode =? RcodeSuccess then minTTL else negMin in
    let hi := if rcode =? RcodeSuccess then maxTTL else negMax in
    exists t, d = t * Second /\ lo <= t <= hi /\
      (t = lo \/ forall rr, rr ∈ ttl_records msg -> t <= TTL (hdr rr)) /\
      (t = lo \/ t = hi \/ exists rr, rr ∈ ttl_records msg /\ t = TTL (hdr rr))
  else d = negMin * Second.
Proof.
  intros H1 H2. cbv zeta. unfold getMinTTL, ttl_records.
  case_bool_decide as Hc.
  - destruct Hc as [Hr Hne].
    replace ((negb (Rcode_ (MH msg) =? RcodeSuccess) &&
              negb (Rcode_ (MH msg) =? RcodeNameError)) || _) with false.
    2:{ symmetry. apply orb_false_iff. split.
        - destruct Hr as [-> | ->]; done.
        - destruct (Answer msg), (Ns msg); try done; rewrite ?len_cons;
            apply andb_false_iff; try (left; pose proof (len_nonneg l); lia);
        right; pose proof (len_nonneg l); lia. }
    set (hi := if Rcode_ (MH msg) =? RcodeSuccess then maxTTL else negMax).
    set (rrs := match Answer msg with [] => Ns msg | _ => Answer msg end) in *.
    replace (if len (Answer msg) >? 0 then min_rr_ttl (Answer msg) hi
             else min_rr_ttl (Ns msg) hi) with (min_rr_ttl rrs hi).
    2:{ unfold rrs. destruct (Answer msg); [done|]. rewrite len_cons.
        pose proof (len_nonneg l). by replace (1 + len l >? 0) with true by lia. }
    pose proof (min_rr_ttl_spec rrs hi) as (Hm1 & Hm2 & Hm3).
    set (m := min_rr_ttl rrs hi) in *. unfold hi in *.
    destruct (Rcode_ (MH msg) =? RcodeSuccess).
    + eexists. split; [done|]. destruct (m <? minTTL) eqn:E; bools.
      * split_and!; [lia|lia|by left|by left].
      * split_and!; [lia|lia|by right|]. tauto.
    + eexists. split; [done|]. destruct (m <? negMin) eqn:E; bools.
      * split_and!; [lia|lia|by left|by left].
      * split_and!; [lia|lia|by right|]. tauto.
  - replace ((negb (Rcode_ (MH msg) =? RcodeSuccess) &&
              negb (Rcode_ (MH msg) =? RcodeNameError)) || _) with true; [done|].
    symmetry. apply orb_true_iff.
    destruct (decide (Rcode_ (MH msg) = RcodeSuccess \/ Rcode_ (MH msg) = RcodeNameError)).
    + right. destruct (Answer msg), (Ns msg); try done; exfalso; apply Hc; by split.
    + left. apply andb_true_iff. split; apply negb_true_iff, Z.eqb_neq; tauto.
Qed.

(** A message with the given response code and answer, and nothing else. *)
Definition sample_msg (rcode : Z) (ttls : list Z) : Msg :=
  {| MH := set_Rcode rcode zero_MsgHeader;
     Questions := [{| q_Name := str "a."; q_Type := TypeA; q_Class := ClassINET |}];
     Answer := (fun t => {| hdr := {| Name := str "a."; Class_ := ClassINET; TTL := t |};
                            data := RD_A [1; 2; 3; 4] |}) <$> ttls;
     Ns := []; Extra := []; Pseudo := [] |}.

Lemma getMinTTL_bounds_witness : exists t,
  getMinTTL (sample_msg RcodeSuccess [300; 90]) 60 3600 10 600 = t * Second /\ 60 <= t <= 3600.
Proof.
  destruct (getMinTTL_bounds (sample_msg RcodeSuccess [300; 90]) 60 3600 10 600
    ltac:(lia) ltac:(lia)) as (t & H1 & H2 & _).
  exists t. split; [exact H1|exact H2].
Defined.

Lemma remaining_ttl_exact now expiration : 0 < expiration - now < 2 ^ 31 * Second ->
  2 * Z.abs (remaining_ttl now expiration * Second - (expiration - now)) <= Second.
Proof.
  intros H. unfold remaining_ttl, time_sub, max_int64, min_int64.
  change (2 ^ 63) with 9223372036854775808. unfold Second in *.
  change (2 ^ 31) with 2147483648 in H.
  replace (Z.max _ _) with (expiration - now) by lia.
  set (u := expiration - now) in *. clearbody u. replace (u >? 0) with true by lia.
  unfold go_div, uint32. change (2 ^ 32) with 4294967296.
  rewrite (Z.quot_div_nonneg u) by lia. change (Z.quot 1000000000 2) with 500000000.
  pose proof (Z.div_mod u 1000000000 ltac:(lia)).
  pose proof (Z.mod_pos_bound u 1000000000 ltac:(lia)).
  rewrite (Z.mod_small (u / 1000000000)) by lia.
  destruct (_ >=? 500000000) eqn:E; bools; rewrite ?Z.mod_small by lia; lia.
Qed.

Lemma remaining_ttl_expired now expiration : expiration <= now -> remaining_ttl now expiration = 0.
Proof.
  intros H. unfold remaining_ttl, time_sub, min_int64, max_int64.
  change (2 ^ 63) with 9223372036854775808. by replace (_ >? 0) with false by lia.
Qed.

(** The TTLs of a response served from the cache.  Every record of the
    answer and authority sections, and every additional record but the OPT
    record, gets the time left until the entry expires, to the nearest second,
    and 0 once it has expired; names, data, sections and EDNS options are kept. *)
Theorem updateTTL_spec msg now expiration :
  expiration - now < 2 ^ 31 * Second ->
  let out := updateTTL msg now expiration in
  let t := remaining_ttl now expiration in
  2 * Z.abs (t * Second - Z.max 0 (expiration - now)) <= Second /\
  (expiration <= now -> t = 0) /\
  (forall rr, rr ∈ Answer out ++ Ns out -> TTL (hdr rr) = t) /\
  (forall rr, rr ∈ Extra out -> RRToType rr <> TypeOPT -> TTL (hdr rr) = t) /\
  MH out = MH msg /\ Questions out = Questions msg /\ Pseudo out = Pseudo msg /\
  data <$> Answer out = data <$> Answer msg /\
  (fun rr => Name (hdr rr)) <$> Answer out = (fun rr => Name (hdr rr)) <$> Answer msg.
Proof.
  intros H. cbv zeta. split_and!; try done.
  - destruct (decide (expiration <= now)) as [Hle|Hgt].
    + rewrite remaining_ttl_expired by done. unfold Second. lia.
    + rewrite Z.max_r by lia. apply remaining_ttl_exact. lia.
  - apply remaining_ttl_expired.
  - intros rr [(r & -> & _)%list_elem_of_fmap|(r & -> & _)%list_elem_of_fmap]%elem_of_app; done.
  - intros rr (r & -> & _)%list_elem_of_fmap. destruct (RRToType r =? TypeOPT) eqn:E; [|done].
    bools. done.
  - unfold updateTTL. cbn [Answer]. by rewrite <-list_fmap_compose.
  - unfold updateTTL. cbn [Answer]. by rewrite <-list_fmap_compose.
Qed.

Lemma updateTTL_spec_witness :
  Forall (fun rr => TTL (hdr rr) = 90) (Answer (updateTTL (sample_msg 0 [300; 10]) 0 (90 * Second))).
Proof.
  destruct (updateTTL_spec (sample_msg 0 [300; 10]) 0 (90 * Second) ltac:(unfold Second; lia))
    as (_ & _ & H & _).
  apply Forall_forall. intros rr Hrr. apply H, elem_of_app. left. exact Hrr.
Defined.

(** ** Synthetic responses *)

(** ** Responses *)

(** [m] is a response to [q0]: it has the response bit, the identifier of [q0], and the one
    question of [q0], whose name may be written in another case. *)
Definition replies_to `{D : DnsLib} (q0 m : Msg) : Prop :=
  exists q r, Response (MH m) = true /\ ID (MH m) = ID (MH q0) /\
    Questions q0 = [q] /\ Questions m = [r] /\
    q_Type r = q_Type q /\ q_Class r = q_Class q /\ EqualName (q_Name q) (q_Name r) = true.

Lemma validate_replies `{D : DnsLib} q0 m :
  validateResponseForQuery (Some q0) (Some m) = None <-> replies_to q0 m.
Proof.
  unfold validateResponseForQuery, validateResponseQuestion, replies_to. split.
  - intros H. destruct (Response (MH m)) eqn:Er; [|done]. destruct (ID (MH m) =? ID (MH q0)) eqn:Ei; [|done]. simpl in H.
    destruct (Questions q0) as [|q [|]] eqn:Eq; [done| |done].
    destruct (Questions m) as [|r [|]] eqn:Em; [done| |done].
    destruct (q_Type q =? q_Type r) eqn:Et; [|done]. destruct (q_Class q =? q_Class r) eqn:Ec; [|done].
    destruct (EqualName (q_Name q) (q_Name r)) eqn:En; [|done].
    exists q, r. split_and!; try done; lia.
  - intros (q & r & -> & -> & -> & -> & -> & -> & ->). by rewrite !Z.eqb_refl.
Qed.

Section synthetic.
Context `{D : DnsLib} `{!DnsLibLaws D}.

Lemma validate_same_question query response q :
  Questions query = [q] -> Questions response = [q] ->
  Response (MH response) = true -> ID (MH response) = ID (MH query) ->
  validateResponseForQuery (Some query) (Some response) = None.
Proof.
  intros Hq Hr H1 H2. unfold validateResponseForQuery, validateResponseQuestion.
  rewrite H1, H2, Z.eqb_refl, Hq, Hr, !Z.eqb_refl, EqualName_refl. done.
Qed.

Lemma RefusedResponse_fields srcMsg refusedCode ipv4 ipv6 ttl :
  let r := RefusedResponseFromMessage srcMsg refusedCode ipv4 ipv6 ttl in
  Response (MH r) = true /\ ID (MH r) = ID (MH srcMsg) /\ Questions r = Questions srcMsg /\
  Rcode_ (MH r) = (if refusedCode then RcodeRefused else RcodeSuccess) /\
  (Pseudo r <> [] -> UDPSize (MH srcMsg) > 0) /\ Ns r = [] /\ Extra r = [].
Proof.
  cbv zeta. unfold RefusedResponseFromMessage.
  assert (UDPSize (MH (EmptyResponseFromMessage srcMsg)) >? 0 = (UDPSize (MH srcMsg) >? 0)) as ->.
  { simpl. by destruct (UDPSize (MH srcMsg) >? 0) eqn:E. }
  destruct (UDPSize (MH srcMsg) >? 0) eqn:Eu; bools;
    (destruct refusedCode; [|destruct (Questions srcMsg) eqn:Eq;
      [|destruct (refused_answer _ _ _ _) as [rr []]]]);
    split_and!; try done; first [exact Eq | intros _; lia].
Qed.

(** The responses the proxy forges are accepted where real ones would be.
    For a query with one question, the empty, the truncated and the blocked
    response all pass the validation of responses against that query; a blocked
    response carries the configured response code, an extended error only if
    the client announced EDNS, and an address only for a question of that
    address's type, under the question's own name. *)
Theorem synthetic_responses_validate srcMsg q refusedCode ipv4 ipv6 ttl :
  Questions srcMsg = [q] ->
  let r := RefusedResponseFromMessage srcMsg refusedCode ipv4 ipv6 ttl in
  validateResponseForQuery (Some srcMsg) (Some (EmptyResponseFromMessage srcMsg)) = None /\
  validateResponseForQuery (Some srcMsg)
    (Some (set_header (set_Truncated true) (EmptyResponseFromMessage srcMsg))) = None /\
  validateResponseForQuery (Some srcMsg) (Some r) = None /\
  Rcode_ (MH r) = (if refusedCode then RcodeRefused else RcodeSuccess) /\
  (Pseudo r <> [] -> UDPSize (MH srcMsg) > 0) /\
  (refusedCode = true -> Answer r = []) /\
  (forall rr, rr ∈ Answer r -> Name (hdr rr) = q_Name q /\ TTL (hdr rr) = ttl /\
     match data rr with
     | RD_A a => q_Type q = TypeA /\ (ipv4 ≫= To4) = Some a
     | RD_AAAA a => q_Type q = TypeAAAA /\ (ipv6 ≫= To16) = Some a
     | RD_HINFO _ _ => True
     | _ => False
     end).
Proof.
  intros Hq. cbv zeta.
  pose proof (RefusedResponse_fields srcMsg refusedCode ipv4 ipv6 ttl) as (F1 & F2 & F3 & F4 & F5 & _).
  split_and!; try done.
  - by apply (validate_same_question _ _ q).
  - by apply (validate_same_question _ _ q).
  - apply (validate_same_question _ _ q); congruence.
  - intros ->. unfold RefusedResponseFromMessage. by destruct (_ >? 0).
  - intros rr Hrr. unfold RefusedResponseFromMessage in Hrr. rewrite Hq in Hrr.
    destruct refusedCode.
    { destruct (_ >? 0); by apply not_elem_of_nil in Hrr. }
    assert (rr = fst (refused_answer q ipv4 ipv6 ttl)) as ->.
    { destruct (refused_answer q ipv4 ipv6 ttl) as [x []]; destruct (_ >? 0);
        by apply list_elem_of_singleton in Hrr. }
    unfold refused_answer.
    destruct (bool_decide (is_Some ipv4) && (q_Type q =? TypeA)) eqn:E4.
    { apply andb_true_iff in E4 as [[ip ->]%bool_decide_eq_true Ht%Z.eqb_eq]. simpl.
      destruct (To4 ip) eqn:Et; simpl; done. }
    destruct (bool_decide (is_Some ipv6) && (q_Type q =? TypeAAAA)) eqn:E6; [|done].
    apply andb_true_iff in E6 as [[ip ->]%bool_decide_eq_true Ht%Z.eqb_eq]. simpl.
    destruct (To16 ip) eqn:Et; simpl; done.
Qed.
End synthetic.

(** A DNS library for concrete examples: it compares names after lowering ASCII
    letters and packs nothing. *)
Definition sample_DnsLib : DnsLib :=
  {| Unpack := fun _ => None; Pack := fun _ => None;
     EqualName := fun a b => bool_decide (ascii_lower a = ascii_lower b) |}.

Lemma sample_DnsLibLaws : DnsLibLaws sample_DnsLib.
Proof. split. intros n. simpl. by rewrite bool_decide_true. Qed.

Lemma synthetic_responses_validate_witness :
  validateResponseForQuery (D := sample_DnsLib) (Some (sample_msg 0 []))
    (Some (RefusedResponseFromMessage (sample_msg 0 []) false (Some [10; 0; 0; 1]) None 10)) = None /\
  Answer (RefusedResponseFromMessage (sample_msg 0 []) false (Some [10; 0; 0; 1]) None 10)
    = [{| hdr := {| Name := str "a."; Class_ := 1; TTL := 10 |}; data := RD_A [10; 0; 0; 1] |}].
Proof.
  split; [|reflexivity].
  by apply (@synthetic_responses_validate sample_DnsLib sample_DnsLibLaws (sample_msg 0 [])
    {| q_Name := str "a."; q_Type := TypeA; q_Class := ClassINET |} false (Some [10; 0; 0; 1]) None 10).
Defined.
