(* ===== verification/Certs.v ===== *)
(** * Certificates (src/dnscrypt-proxy/dnscrypt_certs.go)

    Retrieval of a DNSCrypt server's certificates and the choice of the one to
    use.  The network exchange, the signature check, the random source and the
    clock are arguments. *)

From S2P Require Import Prelude GoStrings Common Crypto CryptoProps Dns DnsUtils DnsUtilsProps.

Record CertInfo := {
  ServerPk : bytes;
  SharedKey : bytes;
  MagicQuery : bytes;
  CryptoConstruction_ : CryptoConstruction;
  ForwardSecurity : bool;
  PqPublicKey : option bytes;
  PqCertContext : option bytes;
}.

Definition zero_CertInfo : CertInfo :=
  {| ServerPk := replicate 32 0; SharedKey := replicate 32 0; MagicQuery := replicate 8 0;
     CryptoConstruction_ := UndefinedConstruction; ForwardSecurity := false;
     PqPublicKey := None; PqCertContext := None |}.

(** The constructions are numbered in the order of preference. *)
Definition construction_rank (c : CryptoConstruction) : Z :=
  match c with
  | UndefinedConstruction => 0 | XSalsa20Poly1305 => 1
  | XChacha20Poly1305 => 2 | XWingPQ => 3
  end.

Record CertProxy := {
  pqDNSCrypt : bool;
  certIgnoreTimestamp : bool;
  anonDirectCertFallback : bool;
  client_key : ClientKey;
}.

Inductive cert_error := InvalidPublicKeyLength | ExchangeError | NoUsableCertificate.

Section certs.
Context `{P : Primitives}.
(** [ed25519.Verify(pk, signed, signature)]. *)
Context (Verify : bytes -> bytes -> bytes -> bool).
Context (proxy : CertProxy) (pk : bytes) (now : Z).
(** What the random source delivers while the key of a certificate is computed. *)
Context (rnd : bytes -> bytes).

Definition es_version (binCert : bytes) : option CryptoConstruction :=
  let v := be16 (nth 4 binCert 0) (nth 5 binCert 0) in
  if v =? 1 then Some XSalsa20Poly1305
  else if v =? 2 then Some XChacha20Poly1305
  else if v =? 3 then Some XWingPQ
  else None.

(** Offsets of the serial number and of the two timestamps. *)
Definition cert_offsets (isPQ : bool) : nat * nat * nat :=
  if isPQ then (1296, 1300, 1304)%nat else (112, 116, 120)%nat.

(** First part of a round of the loop over the answer section, up to the check
    of the dates: the certificate, its construction, its serial number and its
    validity period; [None] is [continue]. *)
Definition check_cert (answerRr : RR) : option (bytes * CryptoConstruction * Z * Z) :=
  match data answerRr with
  | RD_TXT Txt =>
      let binCert := PackTXTRR (concat Txt) in
      if len binCert <? 124 then None
      else if negb (bool_decide (slice binCert 0 4 = CertMagic)) then None
      else match es_version binCert with
      | None => None
      | Some cryptoConstruction =>
          let isPQ := bool_decide (cryptoConstruction = XWingPQ) in
          if isPQ && negb (pqDNSCrypt proxy) then None
          else if isPQ && (len binCert <? 1320) then None
          else
          let signature := slice binCert 8 72 in
          let signed := drop 72 binCert in
          if negb (Verify pk signed signature) then None
          else
          let ext := slice binCert 1308 1320 in
          if isPQ && (negb (bool_decide (ext = pqProfileExtension))
                      || negb (bool_decide (slice binCert 4 6 = slice ext 4 6))) then None
          else
          let '(serialOff, tsBeginOff, tsEndOff) := cert_offsets isPQ in
          let serial := be32 (slice binCert serialOff (serialOff + 4)) in
          let tsBegin := be32 (slice binCert tsBeginOff (tsBeginOff + 4)) in
          let tsEnd := be32 (slice binCert tsEndOff (tsEndOff + 4)) in
          if tsBegin >=? tsEnd then None
          else if negb (certIgnoreTimestamp proxy) && ((now >? tsEnd) || (now <? tsBegin)) then None
          else Some (binCert, cryptoConstruction, serial, uint32 (tsEnd - tsBegin))
      end
  | _ => None
  end.

(** A round of the loop: the certificate kept so far and its serial number. *)
Definition cert_step (st : CertInfo * Z) (answerRr : RR) : CertInfo * Z :=
  let '(certInfo, highestSerial) := st in
  match check_cert answerRr with
  | None => st
  | Some (binCert, cryptoConstruction, serial, ttl) =>
      if serial <? highestSerial then st
      else if (serial =? highestSerial)
           && (construction_rank cryptoConstruction
               <? construction_rank (CryptoConstruction_ certInfo)) then st
      else if bool_decide (cryptoConstruction = XWingPQ) then
        ({| ServerPk := replicate 32 0; SharedKey := replicate 32 0;
            MagicQuery := slice binCert 1288 1296;
            CryptoConstruction_ := cryptoConstruction;
            ForwardSecurity := ttl <=? 86400 * 7;
            PqPublicKey := Some (slice binCert 72 1288);
            PqCertContext := Some (pqCertContext binCert) |}, serial)
      else
        let serverPk := slice binCert 72 104 in
        ({| ServerPk := serverPk;
            SharedKey := ComputeSharedKey cryptoConstruction
                           (proxySecretKey (client_key proxy)) serverPk (rnd binCert);
            MagicQuery := slice binCert 104 112;
            CryptoConstruction_ := cryptoConstruction;
            ForwardSecurity := ttl <=? 86400 * 7;
            PqPublicKey := None; PqCertContext := None |}, serial)
  end.

Definition select_cert (answer : list RR) : CertInfo * Z :=
  fold_left cert_step answer (zero_CertInfo, 0).

(** Network exchange of a query: transport, query, relay, whether fragments are tried;
    the response, the round-trip time in ns and the detected fragmentation problem (also
    returned beside an error), and the state after it. *)
Context {W R : Type} (DNSExchange : proto -> Msg -> option R -> bool -> W -> option (Msg * Duration) * bool * W).

(** [id] is the identifier drawn for the query. *)
Definition FetchCurrentDNSCryptCert (id : Z) (p : proto) (providerName : bytes) (relay : option R)
    (fragmentsBlocked_known : bool) (w : W)
    : result (cert_error * bool) (CertInfo * Z * bool) * W :=
  if negb (len pk =? 32) then (Err (InvalidPublicKeyLength, false), w)
  else
  let providerName := if HasSuffix providerName (str ".") then providerName
                      else providerName ++ str "." in
  let query := NewMsg id providerName TypeTXT in
  let relay := if negb (HasPrefix providerName (str "2.dnscrypt-cert.")) then
                 if negb (anonDirectCertFallback proxy) then relay else None
               else relay in
  let tryFragmentsSupport := negb fragmentsBlocked_known in
  match DNSExchange p query relay tryFragmentsSupport w with
  | (None, fragmentsBlocked, w) => (Err (ExchangeError, fragmentsBlocked), w)
  | (Some (resp, rtt), fragmentsBlocked, w) =>
      let '(resp, w) :=
        if Truncated (MH resp) && negb (bool_decide (p = tcp)) then
          match DNSExchange tcp query relay false w with
          | (Some (inTCP, _), _, w) => (inTCP, w)
          | (None, _, w) => (resp, w)
          end
        else (resp, w) in
      let certInfo := (select_cert (Answer resp)).1 in
      if bool_decide (CryptoConstruction_ certInfo = UndefinedConstruction)
      then (Err (NoUsableCertificate, fragmentsBlocked), w)
      else (Ok (certInfo, go_div rtt 1000000, fragmentsBlocked), w)
  end.

(** ** Specification *)

(** What a certificate that may be used must satisfy: the bytes [binCert],
    the construction [c] and the serial number. *)
Definition usable (binCert : bytes) (c : CryptoConstruction) (serial : Z) : Prop :=
  let isPQ := bool_decide (c = XWingPQ) in
  let '(serialOff, tsBeginOff, tsEndOff) := cert_offsets isPQ in
  let tsBegin := be32 (slice binCert tsBeginOff (tsBeginOff + 4)) in
  let tsEnd := be32 (slice binCert tsEndOff (tsEndOff + 4)) in
  (if isPQ then 1320 else 124) <= len binCert /\
  slice binCert 0 4 = CertMagic /\
  es_version binCert = Some c /\
  (isPQ = true -> pqDNSCrypt proxy = true /\ slice binCert 1308 1320 = pqProfileExtension) /\
  Verify pk (drop 72 binCert) (slice binCert 8 72) = true /\
  tsBegin < tsEnd /\
  (certIgnoreTimestamp proxy = false -> tsBegin <= now <= tsEnd) /\
  serial = be32 (slice binCert serialOff (serialOff + 4)).

Definition offers (answer : list RR) (binCert : bytes) : Prop :=
  exists rr Txt, rr ∈ answer /\ data rr = RD_TXT Txt /\ binCert = PackTXTRR (concat Txt).

(** The fields the proxy uses are those of the certificate. *)
Definition describes (ci : CertInfo) (binCert : bytes) (c : CryptoConstruction) : Prop :=
  CryptoConstruction_ ci = c /\
  if bool_decide (c = XWingPQ) then
    PqPublicKey ci = Some (slice binCert 72 1288) /\
    PqCertContext ci = Some (pqCertContext binCert) /\
    MagicQuery ci = slice binCert 1288 1296
  else
    ServerPk ci = slice binCert 72 104 /\ MagicQuery ci = slice binCert 104 112 /\
    PqPublicKey ci = None /\ PqCertContext ci = None /\
    SharedKey ci = ComputeSharedKey c (proxySecretKey (client_key proxy))
                     (slice binCert 72 104) (rnd binCert).

(** Preference among certificates: serial number, then construction. *)
Definition cert_le (s1 : Z) (c1 : CryptoConstruction) (s2 : Z) (c2 : CryptoConstruction) : Prop :=
  s1 < s2 \/ (s1 = s2 /\ construction_rank c1 <= construction_rank c2).

Definition chosen (answer : list RR) (st : CertInfo * Z) : Prop :=
  (exists binCert c, offers answer binCert /\ usable binCert c st.2 /\ describes st.1 binCert c) /\
  (forall binCert c serial, offers answer binCert -> usable binCert c serial ->
     cert_le serial c st.2 (CryptoConstruction_ st.1)).

Definition none_usable (answer : list RR) : Prop :=
  forall binCert c serial, offers answer binCert -> ~ usable binCert c serial.

(** ** Proofs *)

Lemma check_cert_offers rr b c s ttl : check_cert rr = Some (b, c, s, ttl) ->
  exists Txt, data rr = RD_TXT Txt /\ b = PackTXTRR (concat Txt).
Proof.
  unfold check_cert. destruct (data rr); try discriminate.
  repeat (case_match; try discriminate). intros [= <- <- <- <-]. eauto.
Qed.

(** The version bytes of a certificate are those of the profile extension. *)
Lemma es_version_slice b : are_bytes b -> 124 <= len b -> es_version b = Some XWingPQ ->
  slice b 4 6 = PQESVersion.
Proof.
  intros Hb Hl. unfold es_version, slice, be16.
  do 6 (destruct b as [|? b]; [done|]). simpl.
  repeat (apply Forall_cons in Hb as [? Hb]). unfold is_byte in *.
  split_ifs; intros [= ]. change PQESVersion with [0; 3]. destruct b; simpl; repeat f_equal; lia.
Qed.

(** The checks of a round accept exactly the usable certificates. *)
Lemma check_cert_usable rr Txt c s : data rr = RD_TXT Txt ->
  are_bytes (PackTXTRR (concat Txt)) ->
  usable (PackTXTRR (concat Txt)) c s <->
  exists ttl, check_cert rr = Some (PackTXTRR (concat Txt), c, s, ttl).
Proof.
  intros Hd Hb. unfold check_cert. rewrite Hd. set (b := PackTXTRR (concat Txt)) in *.
  unfold usable. split.
  - destruct (cert_offsets _) as [[o bo] eo] eqn:Eo.
    intros (H1 & H2 & H3 & H4 & H5 & H6 & H7 & ->).
    replace (len b <? 124) with false by (destruct (bool_decide _); lia).
    rewrite (bool_decide_true _ H2), H3. cbn [negb andb orb].
    rewrite H5, Eo. destruct (bool_decide (c = XWingPQ)) eqn:Ec; cbn [negb andb orb].
    + destruct (H4 eq_refl) as [-> ->]. apply bool_decide_eq_true in Ec as ->.
      replace (len b <? 1320) with false by lia. cbn [negb andb orb].
      rewrite (es_version_slice b) by (done || lia).
      rewrite !bool_decide_true by reflexivity. cbn [negb andb orb].
      replace (_ >=? _) with false by lia.
      destruct (certIgnoreTimestamp proxy); cbn [negb andb orb]; [eauto|].
      replace (_ || _) with false by (specialize (H7 eq_refl); lia). eauto.
    + replace (_ >=? _) with false by lia.
      destruct (certIgnoreTimestamp proxy); cbn [negb andb orb]; [eauto|].
      replace (_ || _) with false by (specialize (H7 eq_refl); lia). eauto.
  - intros [ttl H]. destruct (len b <? 124) eqn:E1; [discriminate|].
    case_bool_decide as E2; [|discriminate]. cbn [negb andb orb] in H.
    destruct (es_version b) as [c'|] eqn:E3; [|discriminate].
    destruct (_ && negb (pqDNSCrypt proxy)) eqn:E4; [discriminate|].
    destruct (_ && (len b <? 1320)) eqn:E5; [discriminate|].
    destruct (Verify _ _ _) eqn:E6; [|discriminate]. cbn [negb andb orb] in H.
    destruct (_ && (negb _ || _)) eqn:E7; [discriminate|].
    destruct (cert_offsets _) as [[o bo] eo] eqn:Eo.
    destruct (_ >=? _) eqn:E8; [discriminate|].
    destruct (negb _ && _) eqn:E9; [discriminate|].
    injection H as <- <- <-. rewrite Eo.
    destruct (bool_decide (c' = XWingPQ)); cbn [negb andb orb] in E4, E5, E7; bools; split_and!; try done; try lia.
    + intros Hi. rewrite Hi in E9. cbn [negb andb orb] in E9. lia.
    + intros Hi. rewrite Hi in E9. cbn [negb andb orb] in E9. lia.
Qed.

Definition rr_bytes (rr : RR) : Prop :=
  match data rr with RD_TXT Txt => Forall are_bytes Txt | _ => True end.

Lemma dddToByte_byte a b c v : isDigit a && isDigit b && isDigit c = true ->
  dddToByte a b c = Some v -> is_byte v.
Proof. unfold isDigit, dddToByte, is_byte. split_ifs; intros ? [= <-]. bools. lia. Qed.

Lemma PackTXTRR_bytes bs : are_bytes bs -> are_bytes (PackTXTRR bs).
Proof.
  remember (length bs) as n eqn:Hn. revert bs Hn.
  induction (lt_wf n) as [n _ IH]. intros bs -> Hb.
  destruct bs as [|b bs]; [constructor|]. apply Forall_cons in Hb as [Hb Hbs].
  assert (forall l, (length l <= length bs)%nat -> are_bytes l -> are_bytes (PackTXTRR l)) as IH'.
  { intros l Hl. apply (IH (length l)); [simpl; lia|done]. }
  cbn [PackTXTRR]. destruct (b =? 92); [|constructor; auto].
  destruct bs as [|c rest1]; [constructor|]. apply Forall_cons in Hbs as [Hc Hr].
  assert (are_bytes (simple_escape c :: PackTXTRR rest1)) as Hsimple.
  { constructor; [unfold is_byte, simple_escape in *; split_ifs; lia|].
    apply IH'; [simpl; lia|done]. }
  destruct rest1 as [|d1 [|d2 rest3]]; [done|done|].
  destruct (isDigit c && isDigit d1 && isDigit d2) eqn:Edig; [|done].
  apply Forall_cons in Hr as [_ Hr]. apply Forall_cons in Hr as [_ Hr].
  destruct (dddToByte c d1 d2) eqn:Eb; [constructor; [by eapply dddToByte_byte|]|];
    (apply IH'; [simpl; lia|done]).
Qed.

Lemma rr_bytes_cert rr Txt : rr_bytes rr -> data rr = RD_TXT Txt ->
  are_bytes (PackTXTRR (concat Txt)).
Proof.
  unfold rr_bytes. intros H E. rewrite E in H. apply PackTXTRR_bytes, Forall_concat. done.
Qed.

Lemma be32_nonneg b : are_bytes b -> 0 <= be32 b.
Proof.
  intros Hb. assert (forall i, 0 <= nth i b 0) as H.
  { intros i. destruct (nth_in_or_default i b 0) as [Hin| ->]; [|lia].
    rewrite Forall_forall in Hb. apply Hb. by apply list_elem_of_In. }
  unfold be32. pose proof (H 0%nat). pose proof (H 1%nat). pose proof (H 2%nat).
  pose proof (H 3%nat). lia.
Qed.

Lemma usable_serial b c s : are_bytes b -> usable b c s ->
  0 <= s /\ 0 < construction_rank c.
Proof.
  intros Hb. unfold usable. destruct (cert_offsets _) as [[o bo] eo].
  intros (_ & _ & H3 & _ & _ & _ & _ & ->). split.
  - apply be32_nonneg, Forall_take, Forall_drop, Hb.
  - revert H3. unfold es_version. split_ifs; intros [= <-]; simpl; lia.
Qed.

(** A round either leaves the state alone, and then a usable certificate of the
    record is worse than the one kept, or it takes a usable certificate
    that is no worse. *)
Lemma cert_step_spec st rr : rr_bytes rr ->
  (cert_step st rr = st /\
   forall b c s, offers [rr] b -> usable b c s ->
     s < st.2 \/ (s = st.2 /\ construction_rank c < construction_rank (CryptoConstruction_ st.1))) \/
  (exists b c, offers [rr] b /\ usable b c (cert_step st rr).2 /\
     describes (cert_step st rr).1 b c /\
     cert_le st.2 (CryptoConstruction_ st.1) (cert_step st rr).2 c /\
     (forall b' c' s', offers [rr] b' -> usable b' c' s' -> c' = c /\ s' = (cert_step st rr).2)).
Proof.
  intros Hrr. destruct st as [ci hs]. unfold cert_step. simpl fst. simpl snd.
  assert (forall b c s, offers [rr] b -> usable b c s ->
    exists ttl, check_cert rr = Some (b, c, s, ttl)) as Hall.
  { intros b c s (r & Txt & ->%list_elem_of_singleton & Hd & ->) Hu.
    apply (check_cert_usable rr Txt); [done|by eapply rr_bytes_cert|done]. }
  destruct (check_cert rr) as [[[[b c] s] ttl]|] eqn:E.
  2:{ left. split; [done|]. intros b c s Ho Hu. destruct (Hall b c s Ho Hu). congruence. }
  destruct (check_cert_offers _ _ _ _ _ E) as (Txt & Hd & ->).
  assert (usable (PackTXTRR (concat Txt)) c s) as Hu.
  { apply (check_cert_usable rr Txt); [done|by eapply rr_bytes_cert|eauto]. }
  assert (forall b' c' s', offers [rr] b' -> usable b' c' s' -> c' = c /\ s' = s) as Hsame.
  { intros b' c' s' Ho' Hu'. destruct (Hall b' c' s' Ho' Hu'). split; congruence. }
  destruct (s <? hs) eqn:E1; bools.
  { left. split; [done|]. intros ??? Ho' Hu'. destruct (Hsame _ _ _ Ho' Hu') as [-> ->]. by left. }
  destruct (_ && _) eqn:E2; bools.
  { left. split; [done|]. intros ??? Ho' Hu'. destruct (Hsame _ _ _ Ho' Hu') as [-> ->]. by right. }
  right. exists (PackTXTRR (concat Txt)), c.
  assert (cert_le hs (CryptoConstruction_ ci) s c).
  { unfold cert_le. destruct (s =? hs) eqn:E3; bools; simpl in E2; bools; lia. }
  split.
  { exists rr, Txt. split; [by constructor|done]. }
  unfold describes. destruct (bool_decide (c = XWingPQ)); simpl; done.
Qed.

Definition keeps_best (answer : list RR) (st : CertInfo * Z) : Prop :=
  (st = (zero_CertInfo, 0) /\ none_usable answer) \/
  (chosen answer st /\ 0 < construction_rank (CryptoConstruction_ st.1)).

Lemma offers_app a1 a2 b : offers (a1 ++ a2) b <-> offers a1 b \/ offers a2 b.
Proof.
  unfold offers. split.
  - intros (rr & T & [H|H]%elem_of_app & ?); [left|right]; eauto.
  - intros [(rr & T & H & ?)|(rr & T & H & ?)]; exists rr, T; (split; [apply elem_of_app; tauto|done]).
Qed.

Lemma offers_bytes answer b : Forall rr_bytes answer -> offers answer b -> are_bytes b.
Proof.
  intros Hall (rr & T & Hin & Hd & ->). rewrite Forall_forall in Hall. by eapply rr_bytes_cert; eauto.
Qed.

Lemma cert_le_trans s1 c1 s2 c2 s3 c3 :
  cert_le s1 c1 s2 c2 -> cert_le s2 c2 s3 c3 -> cert_le s1 c1 s3 c3.
Proof. unfold cert_le. lia. Qed.

Lemma keeps_best_step answer st rr : Forall rr_bytes (answer ++ [rr]) ->
  keeps_best answer st -> keeps_best (answer ++ [rr]) (cert_step st rr).
Proof.
  intros Hall Hst. pose proof Hall as [_ Hrr]%Forall_app. apply Forall_cons in Hrr as [Hrr _].
  destruct (cert_step_spec st rr Hrr) as [[-> Hno]|(b & c & Ho & Hu & Hd & Hle & Hsame)].
  - destruct Hst as [[-> Hn]|[[Hex Hmax] Hr]].
    + left. split; [done|]. intros b c s [Ho|Ho]%offers_app Hu; [by eapply Hn|].
      destruct (usable_serial b c s); [eapply (offers_bytes [rr]); eauto|done|].
      destruct (Hno b c s Ho Hu) as [?|[? ?]]; simpl in *; lia.
    + right. split; [split|done].
      * destruct Hex as (b & c & Ho & ?). exists b, c. split; [apply offers_app; by left|done].
      * intros b c s [Ho|Ho]%offers_app Hu; [by eapply Hmax|].
        unfold cert_le. destruct (Hno b c s Ho Hu); lia.
  - right. pose proof Hd as [Hc _]. split; [split|].
    + exists b, c. split; [apply offers_app; by right|done].
    + intros b' c' s' [Ho'|Ho']%offers_app Hu'.
      * rewrite Hc. eapply cert_le_trans; [|exact Hle].
        destruct Hst as [[-> Hn]|[[Hex Hmax] Hr]]; [by destruct (Hn _ _ _ Ho' Hu')|by eapply Hmax].
      * destruct (Hsame _ _ _ Ho' Hu') as [-> ->]. rewrite Hc. unfold cert_le. lia.
    + rewrite Hc. apply (usable_serial b c _ (offers_bytes [rr] b ltac:(by constructor) Ho) Hu).
Qed.

Lemma select_cert_keeps_best answer : Forall rr_bytes answer ->
  keeps_best answer (select_cert answer).
Proof.
  unfold select_cert. induction answer as [|rr answer IH] using rev_ind; intros Hall.
  - left. split; [done|]. intros b c s (r & T & Hin & _). by apply not_elem_of_nil in Hin.
  - rewrite fold_left_app. apply keeps_best_step; [done|]. apply IH.
    by apply Forall_app in Hall as [? _].
Qed.

(** C21: the certificate a server is used with.  When certificates are fetched,
    the result describes a certificate of a received answer that is long enough,
    has the right magic, a known construction (post-quantum only if enabled and
    with the expected profile), a valid signature of the provider and current
    dates (unless they are ignored); no other such certificate of that answer
    has a higher serial number, or the same with a stronger construction.  The
    fetch fails for lack of a certificate only if the answer has none. *)
Theorem FetchCurrentDNSCryptCert_best id p providerName relay known w :
  (forall p q r f w m rtt fb w', DNSExchange p q r f w = (Some (m, rtt), fb, w') -> Forall rr_bytes (Answer m)) ->
  match (FetchCurrentDNSCryptCert id p providerName relay known w).1 with
  | Ok (ci, _, _) => exists p' q' r' f' w1 m rtt fb w2 serial,
      DNSExchange p' q' r' f' w1 = (Some (m, rtt), fb, w2) /\ chosen (Answer m) (ci, serial)
  | Err (NoUsableCertificate, _) => exists p' q' r' f' w1 m rtt fb w2,
      DNSExchange p' q' r' f' w1 = (Some (m, rtt), fb, w2) /\ none_usable (Answer m)
  | Err _ => True
  end.
Proof.
  intros Hb. unfold FetchCurrentDNSCryptCert.
  destruct (negb (len pk =? 32)); [done|]. cbv zeta.
  set (rl := if negb (HasPrefix _ _) then _ else relay). clearbody rl. set (query := NewMsg _ _ _). clearbody query.
  destruct (DNSExchange p query rl _ w) as [[[[m rtt]|] fb] w1] eqn:Ex; [|done].
  set (mw := if _ && _ then _ else (m, w1)).
  assert (exists p' r' f' v rtt' fb' v', DNSExchange p' query r' f' v = (Some (mw.1, rtt'), fb', v'))
    as (p' & r' & f' & v & rtt' & fb' & v' & Ex').
  { unfold mw. destruct (_ && negb _); [|eauto 10].
    destruct (DNSExchange tcp query rl false w1) as [[[[m2 rtt2]|] fb2] w2] eqn:Ex2; eauto 10. }
  clearbody mw. destruct mw as [m' w3]. cbn [fst] in Ex'.
  pose proof (select_cert_keeps_best _ (Hb _ _ _ _ _ _ _ _ _ Ex')) as Hk.
  destruct (select_cert (Answer m')) as [ci serial]. simpl.
  case_bool_decide as Hu; destruct Hk as [[[= -> ->] Hn]|[Hc Hr]]; simpl in *.
  - by exists p', query, r', f', v, m', rtt', fb', v'.
  - rewrite Hu in Hr. simpl in Hr. lia.
  - done.
  - by exists p', query, r', f', v, m', rtt', fb', v', serial.
Qed.

End certs.

(** A certificate for the XChaCha20 construction with serial number [serial],
    valid from 1 to 65536, and an exchange that returns it twice. *)
Definition sample_cert (serial : Z) : bytes :=
  CertMagic ++ [0; 2; 0; 0] ++ replicate 64 0 ++ replicate 32 7 ++ replicate 8 9
  ++ [0; 0; 0; serial] ++ [0; 0; 0; 1] ++ [0; 1; 0; 0].

Definition sample_cert_rr (serial : Z) : RR :=
  {| hdr := {| Name := str "2.dnscrypt-cert.test."; Class_ := ClassINET; TTL := 60 |};
     data := RD_TXT [escape_txt (sample_cert serial)] |}.

Definition sample_cert_msg : Msg :=
  set_Answer [sample_cert_rr 5; sample_cert_rr 4] (sample_msg 0 []).

Definition sample_cert_proxy : CertProxy :=
  {| pqDNSCrypt := false; certIgnoreTimestamp := false; anonDirectCertFallback := false;
     client_key := {| proxySecretKey := replicate 32 1; proxyPublicKey := replicate 32 2 |} |}.

Lemma sample_cert_bytes : Forall rr_bytes (Answer sample_cert_msg).
Proof.
  assert (forall b, forallb (fun x => (0 <=? x) && (x <? 256)) b = true -> are_bytes b) as H.
  { intros b Hb. apply Forall_forall. intros x Hx. rewrite forallb_forall in Hb.
    apply list_elem_of_In, Hb in Hx. unfold is_byte. lia. }
  assert (forall s, forallb (fun x => (0 <=? x) && (x <? 256)) (escape_txt (sample_cert s)) = true ->
    rr_bytes (sample_cert_rr s)) as H'.
  { intros s Hs. constructor; [by apply H|constructor]. }
  constructor; [|constructor; [|constructor]]; apply H'; vm_compute; reflexivity.
Qed.

Lemma FetchCurrentDNSCryptCert_best_witness :
  exists ci serial,
    FetchCurrentDNSCryptCert (fun _ _ _ => true) sample_cert_proxy (replicate 32 3) 1000
      (fun _ => replicate 32 8) (R := unit) (fun _ _ _ _ w => (Some (sample_cert_msg, 5000000), false, w))
      7 udp (str "2.dnscrypt-cert.test") None false tt = (Ok (ci, 5, false), tt) /\
    MagicQuery ci = replicate 8 9 /\
    chosen (fun _ _ _ => true) sample_cert_proxy (replicate 32 3) 1000 (fun _ => replicate 32 8)
      (Answer sample_cert_msg) (ci, serial).
Proof.
  pose proof (FetchCurrentDNSCryptCert_best (fun _ _ _ => true) sample_cert_proxy (replicate 32 3)
    1000 (fun _ => replicate 32 8) (R := unit) (fun _ _ _ _ w => (Some (sample_cert_msg, 5000000), false, w))
    7 udp (str "2.dnscrypt-cert.test") None false tt) as H.
  destruct (FetchCurrentDNSCryptCert _ _ _ _ _ _ _ _ _ _ _ _) as [[[[ci rtt] fb]|e] []] eqn:E.
  2:{ vm_compute in E. discriminate E. }
  destruct H as (p' & q' & r' & f' & w1 & m & rtt' & fb' & w2 & serial & [= <- <- <- <-] & Hc).
  { intros ????????? [= <- <- <- <-]. exact sample_cert_bytes. }
  exists ci, serial. vm_compute in E. injection E as <- <- <-. split; [reflexivity|].
  split; [reflexivity|exact Hc].
Defined.
