(* ===== verification/Metrics.v ===== *)
(** * Per-resolver metrics (src/dnscrypt-proxy/scheduler_metrics.go)

    Outcomes of exchanges are counted in a ring of ten epochs that together
    cover a sliding window; latencies go to a fixed histogram.  The clock is an
    argument of the operations. *)

From S2P Require Import Prelude GoFloat.

Definition metricsWindow : Duration := 5 * Minute.
Definition metricsEpochCount : Z := 10.

Definition latencyBucketFirstMs : float := 1%float.
Definition latencyBucketGrowth : float := 0x1.4p0%float.
Definition latencyBucketMaxMs : float := 10000%float.
Definition latencyEwmaSpan : float := 10%float.

Inductive ExchangeTransport :=
| TransportUnknown | TransportDNSCryptUDP | TransportDNSCryptTCP
| TransportDoHH2 | TransportDoHH3 | TransportODoH.

Record ExchangeOutcome := {
  o_Duration : Duration;
  o_Transport : ExchangeTransport;
  o_Timeout : bool; o_Error : bool; o_Servfail : bool; o_DNSSECBogus : bool;
  o_UpstreamTruncated : bool; o_LocalTruncated : bool;
  o_TCPFallback : bool; o_QUICFallback : bool; o_ConnReused : bool;
  o_ECSReturned : bool;
}.

Record metricsEpoch := {
  latencyBuckets : list Z;
  total : Z; success : Z; timeout : Z; errors : Z; servfail : Z; dnssecBogus : Z;
  upstreamTruncated : Z; localTruncated : Z; tcpFallback : Z; quicFallback : Z;
  connNew : Z; connReused : Z; ecsReturned : Z;
}.

Definition newMetricsEpoch (bucketCount : nat) : metricsEpoch :=
  {| latencyBuckets := replicate bucketCount 0;
     total := 0; success := 0; timeout := 0; errors := 0; servfail := 0; dnssecBogus := 0;
     upstreamTruncated := 0; localTruncated := 0; tcpFallback := 0; quicFallback := 0;
     connNew := 0; connReused := 0; ecsReturned := 0 |}.

Definition reset (e : metricsEpoch) : metricsEpoch :=
  {| latencyBuckets := (fun _ => 0) <$> latencyBuckets e;
     total := 0; success := 0; timeout := 0; errors := 0; servfail := 0; dnssecBogus := 0;
     upstreamTruncated := 0; localTruncated := 0; tcpFallback := 0; quicFallback := 0;
     connNew := 0; connReused := 0; ecsReturned := 0 |}.

Record MetricsWindow := {
  Samples : Z; TotalSamples_ : Z;
  Success : Z; Timeout : Z; Errors : Z; Servfail : Z; DNSSECBogus : Z;
  UpstreamTruncated : Z; LocalTruncated : Z; TCPFallback : Z; QUICFallback : Z;
  ConnNew : Z; ConnReused : Z; ECSReturned : Z;
  LatencyEwmaMs : float; JitterEwmaMs : float;
  FirstSeen : Time; LastSeen : Time;
}.

Definition w_Truncated (w : MetricsWindow) : Z :=
  uint64 (UpstreamTruncated w + LocalTruncated w).

Record ResolverMetrics := {
  epochs : list metricsEpoch;
  curEpoch : Z;
  epochStart : Time;
  totalSamples : Z;
  firstSeen : Time; lastSeen : Time;
  latencyEwmaMs : float; jitterEwmaMs : float;
  hasLatency : bool; prevLatencyMs : float;
  window : Duration; epochDur : Duration;
}.

(** ** Latency buckets *)

(** The loop multiplies by 1.25 from 1 up to 10000: 42 rounds, well within the
    fuel. *)
Fixpoint edges_loop (fuel : nat) (v : float) : list float :=
  match fuel with
  | O => []
  | S fuel' =>
      if (v <? latencyBucketMaxMs)%float
      then v :: edges_loop fuel' (v * latencyBucketGrowth)%float
      else []
  end.

Definition buildLatencyBucketEdges : list float :=
  edges_loop 64 latencyBucketFirstMs ++ [latencyBucketMaxMs].

Definition latencyBucketEdges : list float := Eval vm_compute in buildLatencyBucketEdges.

Lemma latencyBucketEdges_eq : latencyBucketEdges = buildLatencyBucketEdges.
Proof. vm_compute. reflexivity. Qed.

(** [sort.SearchFloat64s]: binary search between [i] and [j]; the distance at
    least halves in every round. *)
Fixpoint search_loop (fuel : nat) (a : list float) (x : float) (i j : nat) : nat :=
  match fuel with
  | O => i
  | S fuel' =>
      if (i <? j)%nat then
        let h := ((i + j) / 2)%nat in
        if (nth h a 0 <? x)%float then search_loop fuel' a x (S h) j
        else search_loop fuel' a x i h
      else i
  end.
Definition SearchFloat64s (a : list float) (x : float) : nat :=
  search_loop (length a) a x 0 (length a).

Definition latencyBucketIndex (latencyMs : float) : nat :=
  if (latencyMs <=? nth 0 latencyBucketEdges 0)%float then 0%nat
  else if (latencyBucketMaxMs <=? latencyMs)%float then (length latencyBucketEdges - 1)%nat
  else SearchFloat64s latencyBucketEdges latencyMs.

(** ** The store *)

Definition NewResolverMetricsWithWindow (w : Duration) : ResolverMetrics :=
  let w := if w <=? 0 then metricsWindow else w in
  {| epochs := replicate (Z.to_nat metricsEpochCount)
                 (newMetricsEpoch (length latencyBucketEdges));
     curEpoch := 0; epochStart := zero_time; totalSamples := 0;
     firstSeen := zero_time; lastSeen := zero_time;
     latencyEwmaMs := 0; jitterEwmaMs := 0; hasLatency := false; prevLatencyMs := 0;
     window := w; epochDur := go_div w metricsEpochCount |}.

Definition NewResolverMetrics : ResolverMetrics := NewResolverMetricsWithWindow metricsWindow.

Definition Window (m : ResolverMetrics) : Duration := window m.

Definition with_ring (es : list metricsEpoch) (cur : Z) (start : Time)
    (m : ResolverMetrics) : ResolverMetrics :=
  {| epochs := es; curEpoch := cur; epochStart := start; totalSamples := totalSamples m;
     firstSeen := firstSeen m; lastSeen := lastSeen m;
     latencyEwmaMs := latencyEwmaMs m; jitterEwmaMs := jitterEwmaMs m;
     hasLatency := hasLatency m; prevLatencyMs := prevLatencyMs m;
     window := window m; epochDur := epochDur m |}.

(** The rotation by fewer than ten epochs. *)
Fixpoint rotate_loop (steps : nat) (es : list metricsEpoch) (cur : Z)
    : list metricsEpoch * Z :=
  match steps with
  | O => (es, cur)
  | S steps' =>
      let cur := go_mod (cur + 1) metricsEpochCount in
      rotate_loop steps' (alter reset (Z.to_nat cur) es) cur
  end.

Definition advanceLocked (now : Time) (m : ResolverMetrics) : ResolverMetrics :=
  if IsZero (epochStart m) then with_ring (epochs m) (curEpoch m) now m
  else
    let steps := go_div (time_sub now (epochStart m)) (epochDur m) in
    if steps <=? 0 then m
    else
      let '(es, cur) :=
        if steps >=? metricsEpochCount
        then (reset <$> epochs m, go_mod (curEpoch m + steps) metricsEpochCount)
        else rotate_loop (Z.to_nat steps) (epochs m) (curEpoch m) in
      with_ring es cur (time_add (epochStart m) (steps * epochDur m)) m.

Definition incr (b : bool) (n : Z) : Z := if b then uint64 (n + 1) else n.

Definition latency_ms (o : ExchangeOutcome) : float :=
  let l := (float64 (o_Duration o) / float64 Millisecond)%float in
  if (l <? 0)%float then 0%float else l.

Definition succeeded (o : ExchangeOutcome) : bool :=
  negb (o_Timeout o) && negb (o_Error o) && negb (o_Servfail o) && negb (o_DNSSECBogus o).

(** The part of [Observe] that updates the current epoch. *)
Definition epoch_observe (e : metricsEpoch) (o : ExchangeOutcome) : metricsEpoch :=
  {| latencyBuckets := alter (incr true) (latencyBucketIndex (latency_ms o)) (latencyBuckets e);
     total := incr true (total e);
     success := incr (succeeded o) (success e);
     timeout := incr (o_Timeout o) (timeout e);
     errors := incr (o_Error o) (errors e);
     servfail := incr (o_Servfail o) (servfail e);
     dnssecBogus := incr (o_DNSSECBogus o) (dnssecBogus e);
     upstreamTruncated := incr (o_UpstreamTruncated o) (upstreamTruncated e);
     localTruncated := incr (o_LocalTruncated o) (localTruncated e);
     tcpFallback := incr (o_TCPFallback o) (tcpFallback e);
     quicFallback := incr (o_QUICFallback o) (quicFallback e);
     connNew := incr (negb (o_ConnReused o)) (connNew e);
     connReused := incr (o_ConnReused o) (connReused e);
     ecsReturned := incr (o_ECSReturned o) (ecsReturned e) |}.

Definition Observe (now : Time) (o : ExchangeOutcome) (m : ResolverMetrics) : ResolverMetrics :=
  let latencyMs := latency_ms o in
  let alpha := (2 / (latencyEwmaSpan + 1))%float in
  let m := advanceLocked now m in
  {| epochs := alter (fun e => epoch_observe e o) (Z.to_nat (curEpoch m)) (epochs m);
     curEpoch := curEpoch m; epochStart := epochStart m;
     totalSamples := uint64 (totalSamples m + 1);
     firstSeen := if IsZero (firstSeen m) then now else firstSeen m;
     lastSeen := now;
     latencyEwmaMs := if negb (hasLatency m) then latencyMs
       else (alpha * latencyMs + (1 - alpha) * latencyEwmaMs m)%float;
     jitterEwmaMs := if negb (hasLatency m) then jitterEwmaMs m
       else let delta := math_Abs (latencyMs - prevLatencyMs m)%float in
            (alpha * delta + (1 - alpha) * jitterEwmaMs m)%float;
     hasLatency := true; prevLatencyMs := latencyMs;
     window := window m; epochDur := epochDur m |}.

Definition add_epoch (w : MetricsWindow) (e : metricsEpoch) : MetricsWindow :=
  {| Samples := uint64 (Samples w + total e); TotalSamples_ := TotalSamples_ w;
     Success := uint64 (Success w + success e);
     Timeout := uint64 (Timeout w + timeout e);
     Errors := uint64 (Errors w + errors e);
     Servfail := uint64 (Servfail w + servfail e);
     DNSSECBogus := uint64 (DNSSECBogus w + dnssecBogus e);
     UpstreamTruncated := uint64 (UpstreamTruncated w + upstreamTruncated e);
     LocalTruncated := uint64 (LocalTruncated w + localTruncated e);
     TCPFallback := uint64 (TCPFallback w + tcpFallback e);
     QUICFallback := uint64 (QUICFallback w + quicFallback e);
     ConnNew := uint64 (ConnNew w + connNew e);
     ConnReused := uint64 (ConnReused w + connReused e);
     ECSReturned := uint64 (ECSReturned w + ecsReturned e);
     LatencyEwmaMs := LatencyEwmaMs w; JitterEwmaMs := JitterEwmaMs w;
     FirstSeen := FirstSeen w; LastSeen := LastSeen w |}.

Definition aggregateLocked (m : ResolverMetrics) : MetricsWindow :=
  fold_left add_epoch (epochs m)
    {| Samples := 0; TotalSamples_ := totalSamples m; Success := 0; Timeout := 0; Errors := 0;
       Servfail := 0; DNSSECBogus := 0; UpstreamTruncated := 0; LocalTruncated := 0;
       TCPFallback := 0; QUICFallback := 0; ConnNew := 0; ConnReused := 0; ECSReturned := 0;
       LatencyEwmaMs := latencyEwmaMs m; JitterEwmaMs := jitterEwmaMs m;
       FirstSeen := firstSeen m; LastSeen := lastSeen m |}.

(** Reading rotates the ring too, so the store is part of the result. *)
Definition Snapshot (now : Time) (m : ResolverMetrics) : ResolverMetrics * MetricsWindow :=
  let m := advanceLocked now m in (m, aggregateLocked m).

(** [aggregated[b] += c] for every bucket of an epoch. *)
Definition add_buckets (aggregated buckets : list Z) : list Z :=
  zip_with (fun a c => uint64 (a + c)) aggregated buckets.

(** The scan for the first bucket that reaches the rank. *)
Fixpoint rank_loop (buckets : list Z) (b : nat) (cumulative rank : Z) : option nat :=
  match buckets with
  | [] => None
  | c :: buckets' =>
      let cumulative := uint64 (cumulative + c) in
      if cumulative >=? rank then Some b else rank_loop buckets' (S b) cumulative rank
  end.

Definition edge_duration (b : nat) : Duration :=
  int_of_float (nth b latencyBucketEdges 0 * float64 Millisecond)%float.

(** The accumulator passed by the caller is cleared, or replaced when it is too
    small; it is returned for reuse. *)
Definition PercentileBuf (now : Time) (p : float) (aggregated : list Z) (m : ResolverMetrics)
    : ResolverMetrics * option Duration * list Z :=
  let p := if (p <? 0)%float then 0%float else if (1 <? p)%float then 1%float else p in
  let m := advanceLocked now m in
  let bucketCount := length latencyBucketEdges in
  let aggregated := if (length aggregated <? bucketCount)%nat then replicate bucketCount 0
                    else (fun _ => 0) <$> take bucketCount aggregated in
  let '(n, aggregated) :=
    fold_left (fun '(n, agg) e => (uint64 (n + total e), add_buckets agg (latencyBuckets e)))
      (epochs m) (0, aggregated) in
  if n =? 0 then (m, None, aggregated)
  else
    let rank := uint64 (ceil_of_float (float64 n * p)%float) in
    let rank := if rank =? 0 then 1 else rank in
    match rank_loop aggregated 0 0 rank with
    | Some b => (m, Some (edge_duration b), aggregated)
    | None => (m, Some (edge_duration (bucketCount - 1)), aggregated)
    end.

Definition Percentile (now : Time) (p : float) (m : ResolverMetrics)
    : ResolverMetrics * option Duration :=
  (PercentileBuf now p [] m).1.

Definition Warm (warmupSamples : Z) (m : ResolverMetrics) : bool :=
  totalSamples m <? warmupSamples.
Definition TotalSamples (m : ResolverMetrics) : Z := totalSamples m.
