(* ===== verification/MetricsProps.v ===== *)
(** * Properties of the resolver metrics

    The ring of epochs refines a plain log: every outcome is kept with the
    number of the epoch it was observed in, and the window consists of the last
    ten epochs of the log.  Buckets of the latency histogram bracket what they
    count. *)

From S2P Require Import Prelude GoFloat Metrics.

(** ** Latency buckets *)

Lemma search_loop_spec a x fuel i j :
  (i <= j <= length a)%nat -> (j - i <= fuel)%nat ->
  (i = 0%nat \/ (nth (i - 1) a 0 <? x)%float = true) ->
  (j = length a \/ (nth j a 0 <? x)%float = false) ->
  let r := search_loop fuel a x i j in
  (i <= r <= j)%nat /\
  (r = 0%nat \/ (nth (r - 1) a 0 <? x)%float = true) /\
  (r = length a \/ (nth r a 0 <? x)%float = false).
Proof.
  revert i j. induction fuel as [|fuel IH]; intros i j Hij Hf Hi Hj; cbn [search_loop].
  { assert (i = j) as -> by lia. split; [lia|tauto]. }
  destruct (Nat.ltb_spec i j) as [Hlt|Hge]; [|assert (i = j) as -> by lia; cbv zeta; split; [lia|tauto]].
  assert (i <= (i + j) / 2 < j)%nat as Hh.
  { split; [apply Nat.div_le_lower_bound; lia|apply Nat.div_lt_upper_bound; lia]. }
  set (h := ((i + j) / 2)%nat) in *. clearbody h. cbv zeta in IH.
  destruct (nth h a 0 <? x)%float eqn:E.
  - destruct (IH (S h) j) as (H1 & H2); [lia|lia| |done|split; [lia|done]].
    right. by rewrite Nat.sub_1_r.
  - destruct (IH i h) as (H1 & H2); [lia|lia|done|by right|].
    split; [lia|done].
Qed.

(** Comparisons of floats, from the specification of the primitives. *)
Lemma leb_false_ltb x y : (x <=? y)%float = false -> (x <? y)%float = false.
Proof.
  rewrite FloatAxioms.leb_spec, FloatAxioms.ltb_spec. unfold SFleb, SFltb.
  by destruct (SFcompare _ _) as [[]|].
Qed.

Lemma SFcompare_swap x y : SFcompare y x = option_map CompOpp (SFcompare x y).
Proof.
  assert (forall m n, Pos.compare_cont Eq m n = CompOpp (Pos.compare_cont Eq n m)) as Hopp.
  { intros m n. exact (Pos.compare_antisym n m). }
  destruct x as [[]|[]| |[] m1 e1], y as [[]|[]| |[] m2 e2]; simpl; try done;
    rewrite (Z.compare_antisym e1 e2), (Hopp m2 m1);
    destruct (e1 ?= e2); simpl; try done; destruct (Pos.compare_cont Eq m1 m2); simpl; done.
Qed.

Lemma SFcompare_Lt_Gt x y : SFcompare x y = Some Lt -> SFcompare y x = Some Gt.
Proof. intros H. by rewrite SFcompare_swap, H. Qed.
Lemma SFcompare_Gt_Lt x y : SFcompare x y = Some Gt -> SFcompare y x = Some Lt.
Proof. intros H. by rewrite SFcompare_swap, H. Qed.

Lemma leb_not_ltb x y : (x <=? y)%float = true -> (y <? x)%float = false.
Proof.
  rewrite FloatAxioms.leb_spec, FloatAxioms.ltb_spec. unfold SFleb, SFltb. intros H.
  destruct (SFcompare (Prim2SF y) (Prim2SF x)) as [[]|] eqn:E; try done.
  apply SFcompare_Lt_Gt in E. by rewrite E in H.
Qed.

Lemma ltb_asym x y : (x <? y)%float = true -> (y <? x)%float = false.
Proof.
  rewrite !FloatAxioms.ltb_spec. unfold SFltb. intros H.
  destruct (SFcompare (Prim2SF x) (Prim2SF y)) as [[]|] eqn:E; try done.
  by rewrite (SFcompare_Lt_Gt _ _ E).
Qed.

Definition bucketCount : nat := length latencyBucketEdges.

Lemma last_edge : nth (bucketCount - 1) latencyBucketEdges 0%float = latencyBucketMaxMs.
Proof. vm_compute. reflexivity. Qed.

Lemma bucketCount_pos : (0 < bucketCount)%nat.
Proof. vm_compute. lia. Qed.

(** The latency histogram.  Every latency, whatever its value, falls into a
    bucket of the histogram, so counting it is never out of range.  The last
    bucket takes the latencies from 10 s on; otherwise the bucket's upper bound
    is not less than the latency, and the upper bound of the previous one is
    less. *)
Theorem latencyBucketIndex_spec x :
  let i := latencyBucketIndex x in
  (i < bucketCount)%nat /\
  ((latencyBucketMaxMs <=? x)%float = true /\ i = (bucketCount - 1)%nat \/
   (nth i latencyBucketEdges 0 <? x)%float = false /\
   (i = 0%nat \/ (nth (i - 1) latencyBucketEdges 0 <? x)%float = true)).
Proof.
  cbv zeta. unfold latencyBucketIndex. fold bucketCount. pose proof bucketCount_pos.
  destruct (x <=? nth 0 latencyBucketEdges 0)%float eqn:E0.
  { split; [done|]. right. split; [by apply leb_not_ltb|by left]. }
  destruct (latencyBucketMaxMs <=? x)%float eqn:E1; [split; [lia|by left]|].
  destruct (search_loop_spec latencyBucketEdges x bucketCount 0 bucketCount)
    as (H1 & H2 & H3); [unfold bucketCount; lia|lia|by left|by left|].
  unfold SearchFloat64s. fold bucketCount in *.
  set (r := search_loop bucketCount latencyBucketEdges x 0 bucketCount) in *. clearbody r.
  apply leb_false_ltb in E1. rewrite <-last_edge in E1.
  assert (r <> bucketCount) as Hr.
  { intros ->. destruct H2 as [H2|H2]; [lia|congruence]. }
  split; [lia|]. right. split; [tauto|done].
Qed.

(** ** The log *)

Record entry := { at_epoch : Z; at_time : Time; outcome : ExchangeOutcome }.

Record log := { l_start : Time; l_epoch : Z; l_log : list entry }.

Definition empty_log : log := {| l_start := zero_time; l_epoch := 0; l_log := [] |}.

(** The epoch number follows the clock, from the first use on, and never goes
    back. *)
Definition log_advance (dur : Duration) (now : Time) (s : log) : log :=
  if IsZero (l_start s) then {| l_start := now; l_epoch := l_epoch s; l_log := l_log s |}
  else
    let steps := go_div (time_sub now (l_start s + l_epoch s * dur)) dur in
    {| l_start := l_start s; l_epoch := l_epoch s + Z.max 0 steps; l_log := l_log s |}.

Definition log_observe (dur : Duration) (now : Time) (o : ExchangeOutcome) (s : log) : log :=
  let s := log_advance dur now s in
  {| l_start := l_start s; l_epoch := l_epoch s;
     l_log := l_log s ++ [{| at_epoch := l_epoch s; at_time := now; outcome := o |}] |}.

(** The last ten epochs. *)
Definition log_window (s : log) : list ExchangeOutcome :=
  outcome <$> filter (fun e => l_epoch s - 10 < at_epoch e) (l_log s).

(** The part of the window an element of the ring holds. *)
Definition log_slot (s : log) (j : Z) : list ExchangeOutcome :=
  outcome <$> filter (fun e => l_epoch s - 10 < at_epoch e /\ at_epoch e mod 10 = j) (l_log s).

Definition count_if (P : ExchangeOutcome -> bool) (l : list ExchangeOutcome) : Z :=
  len (List.filter P l).

Definition epoch_of (l : list ExchangeOutcome) : metricsEpoch :=
  fold_left epoch_observe l (newMetricsEpoch bucketCount).

(** ** Refinement *)

Record refines (m : ResolverMetrics) (s : log) : Prop := {
  ref_dur : 0 < epochDur m;
  ref_len : length (epochs m) = 10%nat;
  ref_slot : forall j, 0 <= j < 10 -> epochs m !! Z.to_nat j = Some (epoch_of (log_slot s j));
  ref_cur : curEpoch m = l_epoch s mod 10;
  ref_epoch : 0 <= l_epoch s;
  ref_past : Forall (fun e => 0 <= at_epoch e <= l_epoch s) (l_log s);
  ref_unset : l_start s = 0 -> l_epoch s = 0 /\ l_log s = [];
  ref_start : epochStart m = if IsZero (l_start s) then 0 else l_start s + l_epoch s * epochDur m;
  ref_pos : 0 <= l_start s;
  ref_total : totalSamples m = uint64 (len (l_log s));
}.

Lemma epoch_of_buckets l : length (latencyBuckets (epoch_of l)) = bucketCount.
Proof.
  unfold epoch_of. induction l as [|o l IH] using rev_ind; [apply length_replicate|].
  rewrite fold_left_app. simpl. by rewrite length_alter.
Qed.

Lemma reset_epoch e : length (latencyBuckets e) = bucketCount -> reset e = epoch_of [].
Proof.
  intros H. unfold reset, epoch_of, newMetricsEpoch. cbn [fold_left]. f_equal.
  rewrite <-H. clear H.
  induction (latencyBuckets e) as [|x l IH]; [done|]. csimpl. by rewrite IH.
Qed.

Lemma go_mod_succ k : 0 <= k -> go_mod (k mod 10 + 1) 10 = (k + 1) mod 10.
Proof.
  intros. unfold go_mod. pose proof (Z.mod_pos_bound k 10). rewrite Z.rem_mod_nonneg by lia.
  by rewrite Zplus_mod_idemp_l.
Qed.

Lemma mod10_eq a b : a mod 10 = b mod 10 -> -10 < a - b < 10 -> a = b.
Proof.
  intros. pose proof (Z.div_mod a 10). pose proof (Z.div_mod b 10). lia.
Qed.

(** Moving to another epoch number changes the content of the slots. *)
Definition at_epoch_number (K : Z) (s : log) : log :=
  {| l_start := l_start s; l_epoch := K; l_log := l_log s |}.

Lemma log_slot_next s K j : 0 <= j < 10 -> Forall (fun e => 0 <= at_epoch e <= K) (l_log s) ->
  log_slot (at_epoch_number (K + 1) s) j =
  if j =? (K + 1) mod 10 then [] else log_slot (at_epoch_number K s) j.
Proof.
  intros Hj Hp. unfold log_slot, at_epoch_number. simpl. destruct (j =? _) eqn:E; bools.
  - rewrite filter_none; [done|]. eapply Forall_impl; [exact Hp|].
    intros e He [H1 H2]. simpl in *. subst j. apply mod10_eq in H2; lia.
  - f_equal. apply filter_Forall_iff. eapply Forall_impl; [exact Hp|]. intros e He. cbv beta.
    split; [intros [? ?]; split; [lia|done]|]. intros [H1 H2]. split; [|done].
    assert (at_epoch e <> K + 1 - 10); [|lia]. intros Heq. apply E. rewrite <-H2, Heq.
    replace (K + 1 - 10) with (K + 1 + (-1) * 10) by lia. by rewrite Z.mod_add by lia.
Qed.

(** The ring after moving on by fewer than ten epochs, one at a time. *)
Lemma rotate_loop_spec s steps es K :
  length es = 10%nat -> 0 <= K ->
  Forall (fun e => 0 <= at_epoch e <= K) (l_log s) ->
  (forall j, 0 <= j < 10 ->
     es !! Z.to_nat j = Some (epoch_of (log_slot (at_epoch_number K s) j))) ->
  let r := rotate_loop steps es (K mod 10) in
  let K' := K + Z.of_nat steps in
  length r.1 = 10%nat /\ r.2 = K' mod 10 /\
  (forall j, 0 <= j < 10 ->
     r.1 !! Z.to_nat j = Some (epoch_of (log_slot (at_epoch_number K' s) j))).
Proof.
  revert es K. induction steps as [|n IH]; intros es K Hl HK Hp Hs; cbn [rotate_loop].
  { cbv zeta. rewrite Z.add_0_r. done. }
  unfold metricsEpochCount. rewrite go_mod_succ by done.
  replace (K + Z.of_nat (S n)) with ((K + 1) + Z.of_nat n) by lia.
  apply IH; [by rewrite length_alter|lia|by eapply Forall_impl; [exact Hp|simpl; lia]|].
  intros j Hj. rewrite log_slot_next by done.
  pose proof (Z.mod_pos_bound (K + 1) 10 ltac:(lia)).
  destruct (j =? (K + 1) mod 10) eqn:E; bools.
  - subst j. rewrite list_lookup_alter_eq, Hs by done. simpl.
    by rewrite reset_epoch by apply epoch_of_buckets.
  - rewrite list_lookup_alter_ne by (intros ?%Z2Nat.inj; lia). by apply Hs.
Qed.

Lemma log_slot_far s K j : Forall (fun e => 0 <= at_epoch e <= K - 10) (l_log s) ->
  log_slot (at_epoch_number K s) j = [].
Proof.
  intros Hp. unfold log_slot. simpl. rewrite filter_none; [done|].
  eapply Forall_impl; [exact Hp|]. simpl. intros e ? []. lia.
Qed.

Lemma at_epoch_number_id s : at_epoch_number (l_epoch s) s = s.
Proof. by destruct s. Qed.

Lemma advance_ring m s steps : refines m s -> 0 < steps ->
  let r := if steps >=? metricsEpochCount
           then (reset <$> epochs m, go_mod (curEpoch m + steps) metricsEpochCount)
           else rotate_loop (Z.to_nat steps) (epochs m) (curEpoch m) in
  let K := l_epoch s + steps in
  length r.1 = 10%nat /\ r.2 = K mod 10 /\
  (forall j, 0 <= j < 10 ->
     r.1 !! Z.to_nat j = Some (epoch_of (log_slot (at_epoch_number K s) j))).
Proof.
  intros R Hs. destruct (steps >=? metricsEpochCount) eqn:E; unfold metricsEpochCount in *; bools;
    cbv zeta.
  - pose proof (ref_epoch _ _ R). rewrite (ref_cur _ _ R). split_and!.
    + cbn [fst]. by rewrite length_fmap, (ref_len _ _ R).
    + pose proof (Z.mod_pos_bound (l_epoch s) 10 ltac:(lia)). unfold go_mod. cbn [snd].
      rewrite Z.rem_mod_nonneg by lia. apply Zplus_mod_idemp_l.
    + intros j Hj. cbn [fst]. rewrite list_lookup_fmap, (ref_slot _ _ R) by done. simpl.
      rewrite reset_epoch by apply epoch_of_buckets. rewrite log_slot_far; [done|].
      eapply Forall_impl; [apply (ref_past _ _ R)|]. simpl. lia.
  - rewrite (ref_cur _ _ R).
    destruct (rotate_loop_spec s (Z.to_nat steps) (epochs m) (l_epoch s)) as (H1 & H2 & H3).
    + apply (ref_len _ _ R).
    + apply (ref_epoch _ _ R).
    + apply (ref_past _ _ R).
    + rewrite at_epoch_number_id. apply (ref_slot _ _ R).
    + rewrite Z2Nat.id in * by lia. done.
Qed.

Lemma IsZero_pos t : 0 < t -> IsZero t = false.
Proof. unfold IsZero, zero_time. lia. Qed.

Lemma advance_refines m s now : refines m s -> 0 < now ->
  refines (advanceLocked now m) (log_advance (epochDur m) now s) /\
  epochDur (advanceLocked now m) = epochDur m /\
  0 < l_start (log_advance (epochDur m) now s) /\
  totalSamples (advanceLocked now m) = totalSamples m.
Proof.
  intros R Hnow. pose proof R as [R1 R2 R3 R4 R5 R6 R7 R8 R9 R10].
  unfold advanceLocked, log_advance. rewrite R8.
  destruct (IsZero (l_start s)) eqn:E0; unfold IsZero, zero_time in E0; bools.
  - simpl. destruct (R7 E0) as [E1 E2]. split; [|done].
    split; simpl; try done; try lia.
    + rewrite IsZero_pos by done. rewrite E1. lia.
  - rewrite (IsZero_pos (l_start s + _)) by nia.
    set (steps := go_div _ _). destruct (steps <=? 0) eqn:Es; bools.
    + rewrite Z.max_l, Z.add_0_r by lia. split; [|split_and!; [done|simpl; lia|done]].
      destruct s; done.
    + rewrite Z.max_r by lia. destruct (advance_ring m s steps R Es) as (H1 & H2 & H3).
      cbv zeta in H1, H2, H3. destruct (if steps >=? metricsEpochCount then _ else _) as [es cur].
      cbn [fst snd] in *. split; [|split_and!; [done|simpl; lia|done]].
      split; simpl; try done; try lia.
      * eapply Forall_impl; [exact R6|]. simpl. lia.
      * unfold time_add. rewrite IsZero_pos by lia. lia.
Qed.

Lemma log_slot_snoc s e j : log_slot {| l_start := l_start s; l_epoch := l_epoch s;
    l_log := l_log s ++ [e] |} j =
  log_slot s j ++ (if decide (l_epoch s - 10 < at_epoch e /\ at_epoch e mod 10 = j)
                   then [outcome e] else []).
Proof.
  unfold log_slot. simpl. rewrite filter_app, fmap_app. f_equal.
  by rewrite filter_cons; case_decide.
Qed.

Lemma observe_refines m s now o : refines m s -> 0 < now ->
  refines (Observe now o m) (log_observe (epochDur m) now o s) /\
  epochDur (Observe now o m) = epochDur m.
Proof.
  intros R Hnow. destruct (advance_refines m s now R Hnow) as (R' & Hd & Hst & _).
  unfold Observe, log_observe. cbv zeta. set (m' := advanceLocked now m) in *.
  set (s' := log_advance (epochDur m) now s) in *. clearbody m' s'.
  destruct R' as [R1 R2 R3 R4 R5 R6 R7 R8 R9 R10].
  pose proof (Z.mod_pos_bound (l_epoch s') 10 ltac:(lia)).
  split; [|done]. split; simpl; try done; try lia.
  - by rewrite length_alter.
  - intros j Hj. rewrite log_slot_snoc. simpl. rewrite R4.
    destruct (decide (j = l_epoch s' mod 10)) as [->|Hne].
    + rewrite list_lookup_alter_eq, R3 by done. simpl. rewrite decide_True by (split; [lia|done]).
      unfold epoch_of. by rewrite fold_left_app.
    + rewrite list_lookup_alter_ne by (intros ?%Z2Nat.inj; lia).
      rewrite decide_False by (intros [_ ?]; done). rewrite app_nil_r. by apply R3.
  - apply Forall_app. split; [done|]. constructor; [simpl; lia|constructor].
  - rewrite R10. unfold uint64. rewrite Zplus_mod_idemp_l, len_app. done.
Qed.

Lemma new_refines w : 10 <= w -> refines (NewResolverMetricsWithWindow w) empty_log.
Proof.
  intros Hw. unfold NewResolverMetricsWithWindow. replace (w <=? 0) with false by lia.
  split; simpl; try done; try lia.
  - unfold go_div, metricsEpochCount. apply Z.quot_str_pos. lia.
  - intros j Hj. assert (Z.to_nat j < 10)%nat as Hn by lia. revert Hn.
    generalize (Z.to_nat j). intros n Hn. do 10 (destruct n as [|n]; [reflexivity|]). lia.
Qed.

(** Any use of the store: observations and reads, at the given times. *)
Inductive metrics_op :=
| op_observe (now : Time) (o : ExchangeOutcome)
| op_read (now : Time).

Definition op_time (op : metrics_op) : Time :=
  match op with op_observe now _ => now | op_read now => now end.

Definition run_op (m : ResolverMetrics) (op : metrics_op) : ResolverMetrics :=
  match op with op_observe now o => Observe now o m | op_read now => (Snapshot now m).1 end.

Definition log_op (dur : Duration) (s : log) (op : metrics_op) : log :=
  match op with
  | op_observe now o => log_observe dur now o s
  | op_read now => log_advance dur now s
  end.

Lemma run_refines dur ops m s : refines m s -> epochDur m = dur ->
  Forall (fun op => 0 < op_time op) ops ->
  refines (fold_left run_op ops m) (fold_left (log_op dur) ops s) /\
  epochDur (fold_left run_op ops m) = dur.
Proof.
  intros R Hd Hops. revert m s R Hd. induction Hops as [|op ops Hop _ IH]; intros m s R Hd; [done|].
  cbn [fold_left]. destruct op as [now o|now]; cbn [run_op log_op op_time] in *.
  - destruct (observe_refines m s now o R Hop) as [R' Hd']. subst dur. apply IH; [done|congruence].
  - destruct (advance_refines m s now R Hop) as (R' & Hd' & _). subst dur. apply IH; [done|].
    done.
Qed.

(** ** What the counters count *)

(** A counter of an epoch, the corresponding counter of the window, and the
    outcomes it counts. *)
Definition counters :
    list ((metricsEpoch -> Z) * (MetricsWindow -> Z) * (ExchangeOutcome -> bool)) :=
  [(total, Samples, fun _ => true); (success, Success, succeeded);
   (timeout, Timeout, o_Timeout); (errors, Errors, o_Error);
   (servfail, Servfail, o_Servfail); (dnssecBogus, DNSSECBogus, o_DNSSECBogus);
   (upstreamTruncated, UpstreamTruncated, o_UpstreamTruncated);
   (localTruncated, LocalTruncated, o_LocalTruncated);
   (tcpFallback, TCPFallback, o_TCPFallback); (quicFallback, QUICFallback, o_QUICFallback);
   (connNew, ConnNew, fun o => negb (o_ConnReused o)); (connReused, ConnReused, o_ConnReused);
   (ecsReturned, ECSReturned, o_ECSReturned)].

Definition counts (fe : metricsEpoch -> Z) (P : ExchangeOutcome -> bool) : Prop :=
  fe (newMetricsEpoch bucketCount) = 0 /\
  forall e o, fe (epoch_observe e o) = incr (P o) (fe e).

Definition sums (fe : metricsEpoch -> Z) (fw : MetricsWindow -> Z) : Prop :=
  forall w e, fw (add_epoch w e) = uint64 (fw w + fe e).

Lemma counters_ok : Forall (fun '(fe, fw, P) => counts fe P /\ sums fe fw /\
  forall m, fw (aggregateLocked m) = fold_left (fun a e => uint64 (a + fe e)) (epochs m) 0) counters.
Proof.
  assert (forall fe (fw : MetricsWindow -> Z), sums fe fw -> forall es w,
    fw (fold_left add_epoch es w) = fold_left (fun a e => uint64 (a + fe e)) es (fw w)) as Hs.
  { intros fe fw H es. induction es as [|e es IH]; intros w; [done|]. simpl. by rewrite IH, H. }
  assert (forall fe fw P, counts fe P -> sums fe fw ->
    (forall m, fw (aggregateLocked m) = fold_left (fun a e => uint64 (a + fe e)) (epochs m)
                 (fw (aggregateLocked (with_ring [] 0 0 m)))) /\ counts fe P /\ sums fe fw) as H.
  { intros fe fw P Hc Hf. split; [|done]. intros m. unfold aggregateLocked. by rewrite (Hs fe). }
  unfold counters.
  repeat first [apply Forall_nil_2 | apply Forall_cons_2; [
    match goal with |- counts ?fe ?P /\ sums ?fe ?fw /\ _ =>
      destruct (H fe fw P) as (H1 & H2 & H3); [by split|by intros ??|]; split; [done|split; [done|]];
      intros m; apply H1 end|]].
Qed.

Lemma count_epoch_of fe P l : counts fe P -> fe (epoch_of l) = uint64 (count_if P l).
Proof.
  intros [H0 H]. unfold epoch_of, count_if. induction l as [|o l IH] using rev_ind; [done|].
  rewrite fold_left_app. simpl. rewrite H, IH, List.filter_app, len_app. simpl. unfold incr, uint64.
  destruct (P o); [by rewrite Zplus_mod_idemp_l|]. by rewrite Z.add_0_r.
Qed.

Lemma fold_uint64_mod (l : list Z) a :
  fold_left (fun a c => uint64 (a + uint64 c)) l (uint64 a) = uint64 (a + fold_right Z.add 0 l).
Proof.
  revert a. induction l as [|c l IH]; intros a; simpl; [by rewrite Z.add_0_r|].
  replace (uint64 (uint64 a + uint64 c)) with (uint64 (a + c)).
  - rewrite IH. f_equal. lia.
  - unfold uint64. by rewrite <-Zplus_mod.
Qed.

Definition sum_over (f : nat -> Z) (l : list nat) : Z := fold_right Z.add 0 (f <$> l).

Lemma sum_over_add f g l : sum_over (fun j => f j + g j) l = sum_over f l + sum_over g l.
Proof. unfold sum_over. induction l as [|j l IH]; [done|]. csimpl. lia. Qed.

Lemma sum_over_ext f g l : (forall j, f j = g j) -> sum_over f l = sum_over g l.
Proof. intros H. unfold sum_over. induction l as [|j l IH]; [done|]. csimpl. by rewrite H, IH. Qed.

Lemma sum_over_pick r x a n :
  sum_over (fun j => if r =? Z.of_nat j then x else 0) (seq a n) =
  if (Z.of_nat a <=? r) && (r <? Z.of_nat a + Z.of_nat n) then x else 0.
Proof.
  revert a. induction n as [|n IH]; intros a.
  - cbn [seq]. unfold sum_over. cbn [fmap list_fmap fold_right].
    destruct (_ && _) eqn:E; [bools; lia|done].
  - cbn [seq]. unfold sum_over in *. csimpl. rewrite IH. split_ifs; repeat match goal with H : _ && _ = false |- _ => apply andb_false_iff in H as [H|H] end; bools; lia.
Qed.

(** The ten slots together are the window. *)
Lemma slots_count P s :
  sum_over (fun j => count_if P (log_slot s (Z.of_nat j))) (seq 0 10) = count_if P (log_window s).
Proof.
  unfold log_slot, log_window. induction (l_log s) as [|e l IH]; [done|].
  set (x := if decide (l_epoch s - 10 < at_epoch e)
            then if P (outcome e) then 1 else 0 else 0).
  pose proof (Z.mod_pos_bound (at_epoch e) 10 ltac:(lia)) as Hb.
  erewrite sum_over_ext; [rewrite (sum_over_add (fun j => if at_epoch e mod 10 =? Z.of_nat j
     then x else 0)), IH, sum_over_pick|].
  - rewrite (proj2 (andb_true_iff _ _)) by (split; [apply Z.leb_le|apply Z.ltb_lt]; lia).
    rewrite filter_cons. unfold x. case_decide; [|lia]. csimpl. unfold count_if. simpl.
    destruct (P (outcome e)); [rewrite len_cons|]; lia.
  - intros j. cbv beta. rewrite filter_cons. unfold x.
    destruct (at_epoch e mod 10 =? Z.of_nat j) eqn:E; bools.
    + destruct (decide (l_epoch s - 10 < at_epoch e)).
      * rewrite decide_True by done. csimpl. unfold count_if. simpl.
        destruct (P (outcome e)); [rewrite len_cons|]; lia.
      * rewrite decide_False by tauto. lia.
    + rewrite decide_False by tauto. lia.
Qed.

Lemma refines_epochs m s : refines m s ->
  epochs m = (fun j => epoch_of (log_slot s (Z.of_nat j))) <$> seq 0 10.
Proof.
  intros R. apply list_eq. intros i.
  destruct (decide (i < 10)%nat) as [Hi|Hi].
  - rewrite list_lookup_fmap, lookup_seq_lt by done. simpl.
    pose proof (ref_slot _ _ R (Z.of_nat i) ltac:(lia)) as H. by rewrite Nat2Z.id in H.
  - rewrite !lookup_ge_None_2; [done| |]; rewrite ?length_fmap, ?length_seq, ?(ref_len _ _ R); lia.
Qed.

Lemma fold_uint64_sum fe P s : counts fe P ->
  fold_left (fun a e => uint64 (a + fe e))
    ((fun j => epoch_of (log_slot s (Z.of_nat j))) <$> seq 0 10) 0 =
  uint64 (count_if P (log_window s)).
Proof.
  intros Hc. rewrite <-slots_count. unfold sum_over.
  pose proof (fold_uint64_mod ((fun j => count_if P (log_slot s (Z.of_nat j))) <$> seq 0 10) 0)
    as H. rewrite Z.add_0_l in H. rewrite <-H. clear H. change (uint64 0) with 0.
  assert (forall l a, fold_left (fun a e => uint64 (a + fe e))
      ((fun j => epoch_of (log_slot s (Z.of_nat j))) <$> l) a =
    fold_left (fun a c => uint64 (a + uint64 c))
      ((fun j => count_if P (log_slot s (Z.of_nat j))) <$> l) a) as Hl; [|apply Hl].
  intros l. induction l as [|j l IH]; intros a; [done|].
  cbn [fmap list_fmap fold_left]. by rewrite (count_epoch_of fe P), IH.
Qed.

Lemma aggregate_counts m s : refines m s ->
  Forall (fun '(_, fw, P) => fw (aggregateLocked m) = uint64 (count_if P (log_window s))) counters.
Proof.
  intros R. eapply Forall_impl; [apply counters_ok|]. intros [[fe fw] P] (Hc & _ & Hagg).
  rewrite Hagg, (refines_epochs m s R). by apply fold_uint64_sum.
Qed.

(** C1: the ring of epochs is a sliding window, for any window of at least ten
    nanoseconds.  Whatever observations and reads are made, at positive times, every counter of a snapshot is the
    number of matching outcomes in the last ten epochs of the complete log of
    observations (as a 64-bit number), and the lifetime count is the length of
    that log. *)
Theorem Snapshot_window w ops now :
  10 <= w -> Forall (fun op => 0 < op_time op) ops -> 0 < now ->
  let dur := epochDur (NewResolverMetricsWithWindow w) in
  let s := log_advance dur now (fold_left (log_op dur) ops empty_log) in
  let W := (Snapshot now (fold_left run_op ops (NewResolverMetricsWithWindow w))).2 in
  Forall (fun '(_, fw, P) => fw W = uint64 (count_if P (log_window s))) counters /\
  TotalSamples_ W = uint64 (len (l_log s)).
Proof.
  intros Hw Hops Hnow. cbv zeta. set (m0 := NewResolverMetricsWithWindow w).
  destruct (run_refines (epochDur m0) ops m0 empty_log) as [R Hd]; [by apply new_refines|done|done|].
  destruct (advance_refines _ _ now R Hnow) as (R' & Hd' & _). rewrite Hd in R'.
  split; [by apply aggregate_counts|].
  rewrite <-(ref_total _ _ R'). unfold Snapshot. cbn [snd]. unfold aggregateLocked.
  generalize (epochs (advanceLocked now (fold_left run_op ops m0))). intros es.
  assert (forall es w, TotalSamples_ (fold_left add_epoch es w) = TotalSamples_ w) as ->; [|done].
  intros l. induction l as [|e l IH]; intros w'; [done|]. simpl. by rewrite IH.
Qed.

Definition sample_outcome (d : Duration) (failed : bool) : ExchangeOutcome :=
  {| o_Duration := d; o_Transport := TransportDNSCryptUDP; o_Timeout := failed; o_Error := false;
     o_Servfail := false; o_DNSSECBogus := false; o_UpstreamTruncated := false;
     o_LocalTruncated := false; o_TCPFallback := false; o_QUICFallback := false;
     o_ConnReused := false; o_ECSReturned := false |}.

Definition sample_ops : list metrics_op :=
  [op_observe Second (sample_outcome (20 * Millisecond) false); op_read (2 * Second);
   op_observe (200 * Second) (sample_outcome (30 * Millisecond) true)].

Lemma Snapshot_window_witness :
  let W := (Snapshot (400 * Second) (fold_left run_op sample_ops NewResolverMetrics)).2 in
  Samples W = 1 /\ Timeout W = 1 /\ TotalSamples_ W = 2.
Proof.
  destruct (Snapshot_window metricsWindow sample_ops (400 * Second)) as [H1 H2].
  { vm_compute; discriminate. }
  { repeat constructor. }
  { reflexivity. }
  unfold counters in H1. apply Forall_cons in H1 as [H1 H3]. apply Forall_cons in H3 as [_ H3].
  apply Forall_cons in H3 as [H3 _]. split; [exact H1|]. split; [exact H3|exact H2].
Defined.

(** ** The window in real time *)

(** With a clock at [t] that never goes back, the epoch of the log and of its
    entries contain the time. *)
Definition timed (dur : Duration) (t : Time) (s : log) : Prop :=
  (l_start s = 0 /\ l_epoch s = 0 /\ l_log s = []) \/
  (0 < l_start s <= t /\
   l_start s + l_epoch s * dur <= t /\ 0 <= l_epoch s /\
   Forall (fun e => at_time e <= t /\
     l_start s + at_epoch e * dur <= at_time e < l_start s + (at_epoch e + 1) * dur) (l_log s)).

Lemma log_advance_timed dur t now s : 0 < dur -> 0 < now -> t <= now -> now < 2 ^ 62 ->
  timed dur t s ->
  timed dur now (log_advance dur now s) /\ 0 < l_start (log_advance dur now s) /\
  now < l_start (log_advance dur now s) + (l_epoch (log_advance dur now s) + 1) * dur /\
  l_log (log_advance dur now s) = l_log s.
Proof.
  intros Hdur Hnow Ht Hmax [(H1 & H2 & H3)|(H1 & H2 & H3 & H4)]; unfold log_advance.
  - rewrite H1. simpl. rewrite H2, H3. split_and!; [right|done|lia|done]. simpl.
    split_and!; [lia|lia|lia|lia|constructor].
  - rewrite IsZero_pos by lia. cbn [l_start l_epoch l_log].
    change (2 ^ 62) with 4611686018427387904 in Hmax.
    rewrite time_sub_exact by (unfold min_int64, max_int64;
      change (2 ^ 63) with 9223372036854775808; nia).
    unfold go_div. rewrite Z.quot_div_nonneg by nia.
    set (d := now - (l_start s + l_epoch s * dur)).
    assert (0 <= d) by (unfold d; nia).
    pose proof (Z.div_mod d dur ltac:(lia)). pose proof (Z.mod_pos_bound d dur ltac:(lia)).
    pose proof (Z.div_pos d dur ltac:(lia) ltac:(lia)). rewrite Z.max_r by lia.
    split_and!; [|lia|unfold d in *; nia|done].
    right. cbn [l_start l_epoch l_log]. split_and!; [lia|lia|unfold d in *; nia|lia|].
    eapply Forall_impl; [exact H4|]. simpl. lia.
Qed.

Lemma log_op_timed dur t op s : 0 < dur -> 0 < op_time op -> t <= op_time op < 2 ^ 62 ->
  timed dur t s -> timed dur (op_time op) (log_op dur s op).
Proof.
  intros Hdur Hpos [Hle Hmax] Hs. destruct op as [now o|now]; simpl in *;
    destruct (log_advance_timed dur t now s Hdur Hpos Hle Hmax Hs) as (H1 & H2 & H3 & H4); [|done].
  unfold log_observe. destruct H1 as [(E1 & _)|(E1 & E2 & E3 & E4)]; [lia|].
  right. cbn [l_start l_epoch l_log]. split_and!; [lia|lia|lia|lia|].
  apply Forall_app. split; [done|]. constructor; [|constructor]. cbn [at_time at_epoch]. lia.
Qed.

Fixpoint nondecreasing (t : Time) (ops : list metrics_op) : Prop :=
  match ops with
  | [] => True
  | op :: ops => t <= op_time op < 2 ^ 62 /\ nondecreasing (op_time op) ops
  end.

Lemma nondecreasing_pos t ops : 0 < t -> nondecreasing t ops ->
  Forall (fun op => 0 < op_time op) ops.
Proof.
  revert t. induction ops as [|op ops IH]; intros t Ht Ho; constructor; destruct Ho; [lia|].
  eapply IH; [|done]. lia.
Qed.

Lemma log_ops_timed dur t ops s : 0 < dur -> 0 < t ->
  nondecreasing t ops -> timed dur t s -> exists t',
  timed dur t' (fold_left (log_op dur) ops s) /\ t <= t' /\
  t' = List.last (op_time <$> ops) t.
Proof.
  intros Hdur. revert t s. induction ops as [|op ops IH]; intros t s Ht Ho Hs.
  { exists t. split_and!; [done|lia|done]. }
  destruct Ho as [Ho1 Ho2]. destruct (IH (op_time op) (log_op dur s op)) as (t' & H1 & H2 & H3);
    [lia|done|eapply log_op_timed; eauto; lia|].
  exists t'. split_and!; [done|lia|]. rewrite H3. csimpl.
  destruct ops as [|op' ops']; [done|]. csimpl.
  clear. revert op'. induction ops' as [|o ops' IH]; intros op'; [done|]. csimpl. apply IH.
Qed.

Lemma filter_length_le {A} (P Q : A -> Prop) `{!forall x, Decision (P x), !forall x, Decision (Q x)}
    (l : list A) :
  Forall (fun x => P x -> Q x) l -> (length (filter P l) <= length (filter Q l))%nat.
Proof.
  induction 1 as [|x l Hx _ IH]; [done|]. rewrite !filter_cons.
  repeat case_decide; simpl; try lia. tauto.
Qed.

(** The window in real time.  If the clock does not go back, and fewer than
    2^64 outcomes were observed, a snapshot counts every outcome younger than
    nine tenths of the window (nine epochs) and none older than the whole window
    (ten epochs). *)
Theorem Snapshot_real_time w ops now :
  10 <= w -> nondecreasing 1 ops -> List.last (op_time <$> ops) 1 <= now < 2 ^ 62 ->
  let dur := epochDur (NewResolverMetricsWithWindow w) in
  let observed := l_log (fold_left (log_op dur) ops empty_log) in
  let W := (Snapshot now (fold_left run_op ops (NewResolverMetricsWithWindow w))).2 in
  len observed < 2 ^ 64 ->
  len (filter (fun e => now - at_time e < 9 * dur) observed) <= Samples W <=
  len (filter (fun e => now - at_time e < 10 * dur) observed).
Proof.
  intros Hw Hops Hnow. cbv zeta. set (m0 := NewResolverMetricsWithWindow w).
  intros Hlen. set (dur := epochDur m0) in *.
  assert (0 < dur) as Hdur by (apply (ref_dur _ _ (new_refines w Hw))).
  destruct (log_ops_timed dur 1 ops empty_log Hdur ltac:(lia) Hops) as (t & Ht & Ht1 & Htl);
    [by left|].
  pose proof (nondecreasing_pos 1 ops ltac:(lia) Hops) as Hpos.
  destruct (run_refines dur ops m0 empty_log) as [R Hd]; [by apply new_refines|done|done|].
  set (s := fold_left (log_op dur) ops empty_log) in *.
  destruct (advance_refines _ _ now R ltac:(lia)) as (R' & Hd' & _). rewrite Hd in R'.
  pose proof (aggregate_counts _ _ R') as Hc. apply Forall_cons in Hc as [Hc _]. cbv beta iota in Hc.
  unfold Snapshot. cbn [snd]. rewrite Hc. unfold log_window, count_if.
  destruct (log_advance_timed dur t now s Hdur ltac:(lia) ltac:(lia) ltac:(lia) Ht)
    as (T1 & T2 & T3 & T4).
  rewrite T4. set (s' := log_advance dur now s) in *.
  assert (forall l : list ExchangeOutcome, List.filter (fun _ => true) l = l) as ->.
  { intros l. induction l; simpl; congruence. }
  unfold len. rewrite length_fmap. unfold uint64. rewrite Z.mod_small.
  2:{ split; [lia|]. eapply Z.le_lt_trans; [|exact Hlen]. unfold len.
      apply Nat2Z.inj_le, length_filter. }
  destruct T1 as [(E1 & _)|(_ & E2 & E3 & E4)]; [lia|]. rewrite T4 in E4.
  split; apply Nat2Z.inj_le, filter_length_le; eapply Forall_impl; eauto; cbv beta; intros e He; nia.
Qed.

Lemma Snapshot_real_time_witness :
  Samples (Snapshot (400 * Second) (fold_left run_op sample_ops NewResolverMetrics)).2 <= 1.
Proof.
  apply (Snapshot_real_time metricsWindow sample_ops (400 * Second)); vm_compute;
    repeat split; discriminate.
Defined.

(** ** Percentiles *)

Definition in_bucket (b : nat) (o : ExchangeOutcome) : bool :=
  (latencyBucketIndex (latency_ms o) =? b)%nat.
Definition up_to_bucket (b : nat) (o : ExchangeOutcome) : bool :=
  (latencyBucketIndex (latency_ms o) <=? b)%nat.

Lemma epoch_of_bucket l b : (b < bucketCount)%nat ->
  latencyBuckets (epoch_of l) !! b = Some (uint64 (count_if (in_bucket b) l)).
Proof.
  intros Hb. induction l as [|o l IH] using rev_ind.
  { unfold epoch_of, newMetricsEpoch. cbn [fold_left latencyBuckets].
    by rewrite lookup_replicate_2. }
  assert (epoch_of (l ++ [o]) = epoch_observe (epoch_of l) o) as ->
    by (unfold epoch_of; by rewrite fold_left_app).
  unfold epoch_observe, count_if in *. cbn [latencyBuckets]. rewrite List.filter_app, len_app.
  cbn [List.filter]. unfold in_bucket at 2.
  destruct (Nat.eqb_spec (latencyBucketIndex (latency_ms o)) b) as [->|Hne].
  - rewrite list_lookup_alter_eq, IH. simpl. unfold incr, uint64. by rewrite Zplus_mod_idemp_l.
  - rewrite list_lookup_alter_ne by done. rewrite IH. simpl. by rewrite Z.add_0_r.
Qed.

Definition agg_step : Z * list Z -> metricsEpoch -> Z * list Z :=
  fun '(n, agg) e => (uint64 (n + total e), add_buckets agg (latencyBuckets e)).

Lemma agg_fold_len es n agg : length agg = bucketCount ->
  Forall (fun e => length (latencyBuckets e) = bucketCount) es ->
  length (fold_left agg_step es (n, agg)).2 = bucketCount.
Proof.
  intros H Hes. revert n agg H. induction Hes as [|e es He _ IH]; intros n agg H; [done|].
  cbn [fold_left agg_step]. apply IH. unfold add_buckets. rewrite length_zip_with. lia.
Qed.

Lemma agg_fold_total es n agg : (fold_left agg_step es (n, agg)).1 =
  fold_left (fun a e => uint64 (a + total e)) es n.
Proof. revert n agg. induction es as [|e es IH]; intros n agg; [done|]. simpl. apply IH. Qed.

Lemma agg_fold_bucket s b js n agg a : (b < bucketCount)%nat -> agg !! b = Some a ->
  (fold_left agg_step ((fun j => epoch_of (log_slot s (Z.of_nat j))) <$> js) (n, agg)).2 !! b =
  Some (fold_left (fun a c => uint64 (a + uint64 c))
    ((fun j => count_if (in_bucket b) (log_slot s (Z.of_nat j))) <$> js) a).
Proof.
  intros Hb. revert n agg a. induction js as [|j js IH]; intros n agg a Ha; [done|].
  cbn [fmap list_fmap fold_left agg_step]. apply IH.
  unfold add_buckets. rewrite lookup_zip_with, Ha, epoch_of_bucket by done. done.
Qed.

(** The aggregated histogram of a store that refines a log. *)
Lemma aggregated_histogram m s agg : refines m s -> agg = replicate bucketCount 0 ->
  fold_left agg_step (epochs m) (0, agg) =
  (uint64 (len (log_window s)),
   (fun b => uint64 (count_if (in_bucket b) (log_window s))) <$> seq 0 bucketCount).
Proof.
  intros R ->. rewrite (refines_epochs m s R). apply injective_projections.
  - rewrite agg_fold_total. rewrite (fold_uint64_sum total (fun _ => true)) by (by split).
    cbn [fst]. unfold count_if. do 2 f_equal. induction (log_window s); simpl; congruence.
  - cbn [snd]. apply list_eq. intros b. destruct (decide (b < bucketCount)%nat) as [Hb|Hb].
    + rewrite (agg_fold_bucket s b _ 0 _ 0) by (try done; by rewrite lookup_replicate_2).
      rewrite list_lookup_fmap, lookup_seq_lt by done. cbn [fmap option_fmap option_map].
      rewrite <-slots_count. unfold sum_over. f_equal.
      etransitivity; [exact (fold_uint64_mod _ 0)|]. done.
    + rewrite !lookup_ge_None_2; [done| |].
      * rewrite length_fmap, length_seq. lia.
      * rewrite agg_fold_len; [lia|by rewrite length_replicate|].
        apply Forall_fmap, Forall_forall. intros j _. apply epoch_of_buckets.
Qed.

Lemma up_to_bucket_split l b :
  count_if (up_to_bucket b) l =
  (if decide (b = 0%nat) then 0 else count_if (up_to_bucket (b - 1)) l) + count_if (in_bucket b) l.
Proof.
  unfold count_if. induction l as [|o l IH]; [by case_decide|].
  cbn [List.filter].
  change (up_to_bucket b o) with (latencyBucketIndex (latency_ms o) <=? b)%nat.
  change (up_to_bucket (b - 1) o) with (latencyBucketIndex (latency_ms o) <=? b - 1)%nat.
  change (in_bucket b o) with (latencyBucketIndex (latency_ms o) =? b)%nat.
  destruct (Nat.leb_spec (latencyBucketIndex (latency_ms o)) b);
  destruct (Nat.leb_spec (latencyBucketIndex (latency_ms o)) (b - 1));
  destruct (Nat.eqb_spec (latencyBucketIndex (latency_ms o)) b);
  case_decide; rewrite ?len_cons; try lia.
Qed.

Lemma rank_loop_spec l rank n b0 :
  len l < 2 ^ 64 ->
  let cum b := if decide (b = 0%nat) then 0 else count_if (up_to_bucket (b - 1)) l in
  match rank_loop ((fun b => uint64 (count_if (in_bucket b) l)) <$> seq b0 n) b0 (cum b0) rank with
  | Some b => (b0 <= b < b0 + n)%nat /\ rank <= count_if (up_to_bucket b) l /\
      (forall b', (b0 <= b' < b)%nat -> count_if (up_to_bucket b') l < rank)
  | None => forall b', (b0 <= b' < b0 + n)%nat -> count_if (up_to_bucket b') l < rank
  end.
Proof.
  intros Hl. cbv zeta.
  assert (forall P, 0 <= count_if P l < 2 ^ 64) as Hc.
  { intros P. unfold count_if. split; [apply len_nonneg|]. eapply Z.le_lt_trans; [|exact Hl].
    unfold len. apply Nat2Z.inj_le. clear. induction l as [|o l IH]; simpl; [lia|].
    destruct (P o); simpl; lia. }
  revert b0. induction n as [|n IH]; intros b0; [simpl; intros; lia|].
  cbn [seq fmap list_fmap rank_loop].
  replace (uint64 (_ + uint64 _)) with (count_if (up_to_bucket b0) l).
  2:{ rewrite up_to_bucket_split. pose proof (Hc (up_to_bucket b0)) as Hb.
      rewrite up_to_bucket_split in Hb. unfold uint64. rewrite Zplus_mod_idemp_r, Z.mod_small; lia. }
  destruct (_ >=? rank) eqn:E; bools; [split_and!; [lia|lia|lia|intros; lia]|].
  specialize (IH (S b0)). replace (S b0 - 1)%nat with b0 in IH by lia.
  rewrite decide_False in IH by lia.
  assert (forall b', b' = b0 -> count_if (up_to_bucket b') l < rank) as Hb0 by (intros ? ->; lia).
  destruct (rank_loop _ (S b0) _ rank) as [b|].
  - destruct IH as (H1 & H2 & H3). split_and!; [lia|lia|lia|].
    intros b' Hb'. destruct (decide (b' = b0)); [by apply Hb0|apply H3; lia].
  - intros b' Hb'. destruct (decide (b' = b0)); [by apply Hb0|apply IH; lia].
Qed.

Definition clamp_p (p : float) : float :=
  if (p <? 0)%float then 0%float else if (1 <? p)%float then 1%float else p.
Definition percentile_rank (n : Z) (p : float) : Z :=
  let rank := uint64 (ceil_of_float (float64 n * clamp_p p)%float) in
  if rank =? 0 then 1 else rank.

(** Percentiles.  For a store that refines a log with fewer than 2^64
    outcomes, there is a percentile exactly if the window is not empty.  It is
    the upper bound of the first bucket up to which the histogram holds at least
    [rank] outcomes, [rank] being the requested fraction of the number of
    outcomes, rounded up and at least 1 (the last bucket, if the rank is beyond
    them all).  The accumulator the caller passes does not matter. *)
Theorem PercentileBuf_rank w ops now p buf :
  10 <= w -> Forall (fun op => 0 < op_time op) ops -> 0 < now ->
  let dur := epochDur (NewResolverMetricsWithWindow w) in
  let outcomes := log_window (log_advance dur now (fold_left (log_op dur) ops empty_log)) in
  let '(_, d, _) := PercentileBuf now p buf (fold_left run_op ops (NewResolverMetricsWithWindow w)) in
  len outcomes < 2 ^ 64 ->
  if bool_decide (outcomes = []) then d = None
  else
    let rank := percentile_rank (len outcomes) p in
    exists b, (b < bucketCount)%nat /\ d = Some (edge_duration b) /\
      (forall b', (b' < b)%nat -> count_if (up_to_bucket b') outcomes < rank) /\
      (rank <= count_if (up_to_bucket b) outcomes \/
       b = (bucketCount - 1)%nat /\ count_if (up_to_bucket b) outcomes < rank).
Proof.
  intros Hw Hops Hnow. cbv zeta. set (m0 := NewResolverMetricsWithWindow w).
  destruct (run_refines (epochDur m0) ops m0 empty_log) as [R Hd]; [by apply new_refines|done|done|].
  destruct (advance_refines _ _ now R Hnow) as (R' & Hd' & _). rewrite Hd in R'.
  set (s := log_advance _ now _) in *. set (m := fold_left run_op ops m0) in *.
  unfold PercentileBuf. fold (clamp_p p). fold bucketCount agg_step.
  rewrite (aggregated_histogram _ _ _ R').
  2:{ destruct (Nat.ltb_spec (length buf) bucketCount) as [Hlt|Hge]; [done|].
      apply list_eq. intros i. rewrite list_lookup_fmap.
      destruct (decide (i < bucketCount)%nat).
      - rewrite lookup_take_lt, lookup_replicate_2 by done.
        by destruct (lookup_lt_is_Some_2 buf i ltac:(lia)) as [x ->].
      - rewrite lookup_take_ge by lia. symmetry. apply lookup_replicate_None. lia. }
  clearbody s m. set (outs := log_window s).
  destruct (uint64 (len outs) =? 0) eqn:E0; bools.
  { intros Hl. pose proof (len_nonneg outs). unfold uint64 in E0. rewrite Z.mod_small in E0 by lia.
    apply len_nil_inv in E0. by rewrite bool_decide_true. }
  fold (percentile_rank (uint64 (len outs)) p).
  pose proof (rank_loop_spec outs (percentile_rank (uint64 (len outs)) p) bucketCount 0) as Hr.
  cbv beta zeta in Hr. rewrite decide_True in Hr by done.
  pose proof bucketCount_pos as Hpos.
  destruct (rank_loop _ 0 0 _) as [b|]; intros Hl; specialize (Hr Hl);
    pose proof (len_nonneg outs); unfold uint64 in E0, Hr; rewrite Z.mod_small in E0, Hr by lia;
    (rewrite bool_decide_false by (intros ->; done)).
  - exists b. destruct Hr as (H1 & H2 & H3). split_and!; [lia|done|intros; apply H3; lia|by left].
  - exists (bucketCount - 1)%nat. split_and!; [lia|done|intros; apply Hr; lia|].
    right. split; [done|apply Hr; lia].
Qed.

Lemma PercentileBuf_rank_witness :
  (Percentile (400 * Second) 0.95%float (fold_left run_op sample_ops NewResolverMetrics)).2
    <> None.
Proof.
  assert (10 <= metricsWindow) as Hw by (vm_compute; discriminate).
  assert (Forall (fun op => 0 < op_time op) sample_ops) as Hops by repeat constructor.
  pose proof (PercentileBuf_rank metricsWindow sample_ops (400 * Second) 0.95%float []
    Hw Hops eq_refl) as H.
  unfold Percentile, NewResolverMetrics. destruct (PercentileBuf _ _ _ _) as [[m d] buf].
  cbv zeta in H. rewrite bool_decide_false in H by (vm_compute; discriminate).
  destruct H as (b & _ & -> & _); [vm_compute; reflexivity|discriminate].
Defined.
