(* ===== verification/ServerTypes.v ===== *)
(** * Servers (data types of src/dnscrypt-proxy/serversInfo.go)

    What is kept of a resolver; keys and certificates are those of
    [Crypto.CryptoServer]. *)

From S2P Require Import Prelude GoFloat Common Crypto Metrics.

(** Protocol numbers and property bits of a stamp (go-dnsstamps). *)
Definition StampProtoTypePlain : Z := 0.
Definition StampProtoTypeDNSCrypt : Z := 1.
Definition StampProtoTypeDoH : Z := 2.
Definition StampProtoTypeTLS : Z := 3.
Definition StampProtoTypeODoHTarget : Z := 5.
Definition StampProtoTypeDNSCryptRelay : Z := 129.
Definition StampProtoTypeODoHRelay : Z := 133.

Definition ServerInformalPropertyDNSSEC : Z := 1.
Definition ServerInformalPropertyNoLog : Z := 2.
Definition ServerInformalPropertyNoFilter : Z := 4.

(** The parts of a URL; the scheme is always https. *)
Record URL := { url_Host : bytes; url_Path : bytes; url_RawQuery : bytes }.

#[global] Instance URL_eq_dec : EqDecision URL.
Proof. solve_decision. Defined.

Definition no_URL : URL := {| url_Host := []; url_Path := []; url_RawQuery := [] |}.

(** Addresses and the relay; the ODoH configurations are opaque. *)
Record SockAddr := { addr_IP : bytes; addr_Port : Z }.

Record Relay := {
  r_Proto : Z;
  r_Dnscrypt : option (SockAddr * SockAddr);  (* RelayUDPAddr, RelayTCPAddr *)
  r_ODoH : option URL;
  r_Name : bytes;
}.

Record Endpoint := {
  UDPAddr : SockAddr;
  TCPAddr : SockAddr;
  s_URL : URL;
  s_Relay : option Relay;
  odohTargetConfigs : list bytes;
}.

Record ServerInfo := {
  Name_ : bytes;
  Proto : Z;
  Props : Z;
  initialRtt : Z;
  rtt : ewma.VariableEWMA;
  lastActionTS : Time;
  lastUpdateTime : Time;
  lastDecayTS : Time;
  totalQueries : Z;
  failedQueries : Z;
  s_Timeout : Duration;
  useGet : bool;
  crypto : CryptoServer;
  endpoint : Endpoint;
}.

Definition SupportsDNSSEC (s : ServerInfo) : bool :=
  negb (Z.land (Props s) ServerInformalPropertyDNSSEC =? 0).
Definition SupportsNoLog (s : ServerInfo) : bool :=
  negb (Z.land (Props s) ServerInformalPropertyNoLog =? 0).
Definition SupportsNoFilter (s : ServerInfo) : bool :=
  negb (Z.land (Props s) ServerInformalPropertyNoFilter =? 0).

Record ResolverCandidate := { Server : ServerInfo; Metrics_ : ResolverMetrics }.

(** Assignments to the mutable fields. *)
Definition set_rtt (r : ewma.VariableEWMA) (s : ServerInfo) : ServerInfo :=
  {| Name_ := Name_ s; Proto := Proto s; Props := Props s; initialRtt := initialRtt s; rtt := r;
     lastActionTS := lastActionTS s; lastUpdateTime := lastUpdateTime s;
     lastDecayTS := lastDecayTS s; totalQueries := totalQueries s;
     failedQueries := failedQueries s; s_Timeout := s_Timeout s; useGet := useGet s;
     crypto := crypto s; endpoint := endpoint s |}.
Definition set_counters (total failed : Z) (s : ServerInfo) : ServerInfo :=
  {| Name_ := Name_ s; Proto := Proto s; Props := Props s; initialRtt := initialRtt s;
     rtt := rtt s; lastActionTS := lastActionTS s; lastUpdateTime := lastUpdateTime s;
     lastDecayTS := lastDecayTS s; totalQueries := total; failedQueries := failed;
     s_Timeout := s_Timeout s; useGet := useGet s; crypto := crypto s; endpoint := endpoint s |}.
Definition set_times (action update decay : Time) (s : ServerInfo) : ServerInfo :=
  {| Name_ := Name_ s; Proto := Proto s; Props := Props s; initialRtt := initialRtt s;
     rtt := rtt s; lastActionTS := action; lastUpdateTime := update; lastDecayTS := decay;
     totalQueries := totalQueries s; failedQueries := failedQueries s;
     s_Timeout := s_Timeout s; useGet := useGet s; crypto := crypto s; endpoint := endpoint s |}.
Definition set_crypto (c : CryptoServer) (s : ServerInfo) : ServerInfo :=
  {| Name_ := Name_ s; Proto := Proto s; Props := Props s; initialRtt := initialRtt s;
     rtt := rtt s; lastActionTS := lastActionTS s; lastUpdateTime := lastUpdateTime s;
     lastDecayTS := lastDecayTS s; totalQueries := totalQueries s;
     failedQueries := failedQueries s; s_Timeout := s_Timeout s; useGet := useGet s;
     crypto := c; endpoint := endpoint s |}.

(** Comparison of strings: lexicographic on bytes. *)
Fixpoint str_ltb (a b : bytes) : bool :=
  match a, b with
  | _, [] => false
  | [], _ :: _ => true
  | x :: a', y :: b' => (x <? y) || ((x =? y) && str_ltb a' b')
  end.
