(* ===== verification/Mds.v ===== *)
(** * The multi-dimensional scheduler (src/dnscrypt-proxy/scheduler_mds.go)

    Scores of the resolvers, the sticky primary, random exploration and the
    circuit breakers.  Every method runs under the lock of the server list; the
    clock reading of a call and the numbers drawn from the random source are
    arguments. *)

From S2P Require Import Prelude GoFloat Metrics ServerTypes.

Record MDSParams := {
  WarmupSamples : Z; PenaltyMinSamples : Z;
  SwitchMargin : float; TieBand : float; Dwell : Duration; ExploreProb : float;
  BreakerThreshold : Z; HalfOpenInterval : Duration;
  WeightTimeout : float; WeightErrors : float; WeightServfail : float; WeightBogus : float;
  WeightTruncated : float; WeightFallback : float; WeightConnNew : float; WeightJitter : float;
}.

Definition DefaultMDSParams : MDSParams :=
  {| WarmupSamples := 20; PenaltyMinSamples := 10;
     SwitchMargin := 0.15; TieBand := 0.03; Dwell := 5 * Second; ExploreProb := 0.15;
     BreakerThreshold := 3; HalfOpenInterval := 10 * Second;
     WeightTimeout := 0.5; WeightErrors := 0.3; WeightServfail := 0.2; WeightBogus := 0.5;
     WeightTruncated := 0.05; WeightFallback := 0.1; WeightConnNew := 0.05;
     WeightJitter := 0.1 |}%float.

Record mdsCircuit := {
  consecHardFails : Z;
  open : bool;
  probing : bool;
  openedAt : Time;
  nextProbeAt : Time;
  recoverUntilTotal : Z;
}.

Definition zero_circuit : mdsCircuit :=
  {| consecHardFails := 0; open := false; probing := false; openedAt := zero_time;
     nextProbeAt := zero_time; recoverUntilTotal := 0 |}.

Record LBStrategyMDS := {
  params : MDSParams;
  primaryName : bytes;
  primarySince : Time;
  circuits : gmap bytes mdsCircuit;
  totalSwitches : Z;
  switchesByName : gmap bytes Z;
}.

Definition newLBStrategyMDS (p : MDSParams) : LBStrategyMDS :=
  {| params := p; primaryName := []; primarySince := zero_time; circuits := ∅;
     totalSwitches := 0; switchesByName := ∅ |}.

Record mdsScored := {
  name : bytes; warming : bool; sc_open : bool;
  tailMs : float; cost : float; penalty : float; base : float; soft : float;
}.

(** ** Scores *)

Section scores.
Context (mds : LBStrategyMDS).

Definition isWarmingLocked (n : bytes) (totalSamples warmupSamples : Z) : bool :=
  if totalSamples <? warmupSamples then true
  else match circuits mds !! n with
       | Some cb => recoverUntilTotal cb >? totalSamples
       | None => false
       end.

Definition circuit_open (n : bytes) : bool :=
  match circuits mds !! n with Some cb => open cb | None => false end.

Definition softPreference (server : ServerInfo) (w : MetricsWindow) (warming : bool) : float :=
  let soft := 0%float in
  let soft := if SupportsNoFilter server then (soft + 1)%float else soft in
  let soft := if SupportsDNSSEC server then (soft + 1)%float else soft in
  if negb warming && (Samples w >=? PenaltyMinSamples (params mds))
  then (soft + float64 (ECSReturned w) / float64 (Samples w))%float else soft.

(** The quality penalties of a resolver that is not warming up. *)
Definition quality_penalty (w : MetricsWindow) (tail : float) : float :=
  let p := params mds in
  let rate n := (float64 n / float64 (Samples w))%float in
  let jitterRatio := if (0 <? tail)%float then math_Min 1 (JitterEwmaMs w / tail)%float
                     else 0%float in
  let penalty := 0%float in
  let penalty := (penalty + WeightTimeout p * rate (Timeout w))%float in
  let penalty := (penalty + WeightErrors p * rate (Errors w))%float in
  let penalty := (penalty + WeightServfail p * rate (Servfail w))%float in
  let penalty := (penalty + WeightBogus p * rate (DNSSECBogus w))%float in
  let penalty := (penalty + WeightTruncated p * rate (w_Truncated w))%float in
  let penalty := (penalty + WeightFallback p * rate (uint64 (TCPFallback w + QUICFallback w)))%float in
  let penalty := (penalty + WeightConnNew p * rate (ConnNew w))%float in
  (penalty + WeightJitter p * jitterRatio)%float.

(** First loop of [scoreAll]: state of the loop and one round of it. *)
Record score_state := {
  pctBuf : list Z; bestTail : float; worstTail : float;
  scored_so_far : list mdsScored; stores : list ResolverMetrics;
}.

(** [clk]: the successive readings of the clock, two for a candidate. *)
Definition score_one (clk : nat -> Time) (st : score_state) (c : ResolverCandidate) : score_state :=
  let p := params mds in
  let i := length (stores st) in
  let '(m, w) := Snapshot (clk (2 * i)%nat) (Metrics_ c) in
  let warming := isWarmingLocked (Name_ (Server c)) (TotalSamples_ w) (WarmupSamples p) in
  let initialMs := float64 (initialRtt (Server c)) in
  let '(m, buf, tail, penalty) :=
    if warming then (m, pctBuf st, initialMs, 0%float)
    else
      let latency := if (LatencyEwmaMs w <=? 0)%float then initialMs else LatencyEwmaMs w in
      let '(m, pct, buf) := PercentileBuf (clk (2 * i + 1)%nat) 0.95%float (pctBuf st) m in
      let '(tail, buf) :=
        match pct with
        | Some p95 =>
            let p95ms := (float64 p95 / float64 Millisecond)%float in
            ((0.6 * latency + 0.4 * p95ms)%float, buf)
        | None => (latency, pctBuf st)
        end in
      let tail := if (tail <=? 0)%float then initialMs else tail in
      (m, buf, tail,
       if Samples w >=? PenaltyMinSamples p then quality_penalty w tail else 0%float) in
  {| pctBuf := buf;
     bestTail := if (tail <? bestTail st)%float then tail else bestTail st;
     worstTail := if (worstTail st <? tail)%float then tail else worstTail st;
     scored_so_far := scored_so_far st ++
       [{| name := Name_ (Server c); warming := warming;
           sc_open := circuit_open (Name_ (Server c));
           tailMs := tail; cost := 0; penalty := penalty; base := 0;
           soft := softPreference (Server c) w warming |}];
     stores := stores st ++ [m] |}.

(** Second loop: the cost relative to the best and the worst resolver. *)
Definition set_base (best worst : float) (s : mdsScored) : mdsScored :=
  let spread := (worst - best)%float in
  let c := if (1e-9 <? spread)%float then
             let c := ((tailMs s - best) / spread)%float in
             if (c <? 0)%float then 0%float else if (1 <? c)%float then 1%float else c
           else 0%float in
  {| name := name s; warming := warming s; sc_open := sc_open s; tailMs := tailMs s;
     cost := c; penalty := penalty s; base := (1 - c - penalty s)%float; soft := soft s |}.

(** The scores, and the stores, whose epochs the reads have advanced. *)
Definition scoreAll (clk : nat -> Time) (candidates : list ResolverCandidate)
    : list mdsScored * list ResolverMetrics :=
  let st := fold_left (score_one clk) candidates
    {| pctBuf := []; bestTail := MaxFloat64; worstTail := 0; scored_so_far := []; stores := [] |} in
  (set_base (bestTail st) (worstTail st) <$> scored_so_far st, stores st).

Definition better (a b : mdsScored) : bool :=
  if (TieBand (params mds) <? math_Abs (base a - base b))%float then (base b <? base a)%float
  else if negb (soft a =? soft b)%float then (soft b <? soft a)%float
  else str_ltb (name a) (name b).

(** ** Choices among the scored resolvers: [-1] is [None] *)

(** The loop of [pickHalfOpenProbe]: the pick after the resolver at index [i].
    A missing circuit cannot be open. *)
Definition probe_step (now : Time) (s : mdsScored) (i : nat) (pick : option (nat * Time))
    : option (nat * Time) :=
  if negb (sc_open s) then pick
  else match circuits mds !! name s with
  | None => pick
  | Some cb =>
      if probing cb || (nextProbeAt cb >? now) then pick
      else match pick with
           | None => Some (i, openedAt cb)
           | Some (_, earliest) =>
               if openedAt cb <? earliest then Some (i, openedAt cb) else pick
           end
  end.
Fixpoint probe_loop (now : Time) (scored : list mdsScored) (i : nat)
    (pick : option (nat * Time)) : option (nat * Time) :=
  match scored with
  | [] => pick
  | s :: scored' => probe_loop now scored' (S i) (probe_step now s i pick)
  end.
Definition pickHalfOpenProbe (now : Time) (scored : list mdsScored) : option nat :=
  fst <$> probe_loop now scored 0 None.

(** Indices of the resolvers that may be explored, and of the warming ones. *)
Fixpoint explore_loop (scored : list mdsScored) (i : nat) (primaryIdx : option nat)
    : list nat * list nat :=
  match scored with
  | [] => ([], [])
  | s :: scored' =>
      let '(healthy, warm) := explore_loop scored' (S i) primaryIdx in
      if bool_decide (Some i = primaryIdx) || sc_open s then (healthy, warm)
      else (i :: healthy, if warming s then i :: warm else warm)
  end.

(** [intn n] is the number drawn below [n]. *)
Definition pickExploreTarget (intn : nat -> nat) (scored : list mdsScored)
    (primaryIdx : option nat) : option nat :=
  let '(healthy, warm) := explore_loop scored 0 primaryIdx in
  let pool := if (0 <? length warm)%nat then warm else healthy in
  if (length pool =? 0)%nat then None else pool !! intn (length pool).

Fixpoint best_loop (all scored : list mdsScored) (i : nat) (exclude best : option nat)
    : option nat :=
  match scored with
  | [] => best
  | s :: scored' =>
      let best' :=
        if bool_decide (Some i = exclude) || sc_open s then best
        else match best with
             | None => Some i
             | Some b => match all !! b with
                         | Some sb => if better s sb then Some i else best
                         | None => best
                         end
             end in
      best_loop all scored' (S i) exclude best'
  end.
Definition bestHealthy (scored : list mdsScored) (exclude : option nat) : option nat :=
  best_loop scored scored 0 exclude None.

(** The best score whatever the circuits say; used when all of them are open. *)
Fixpoint fallback_loop (all scored : list mdsScored) (i best : nat) : nat :=
  match scored with
  | [] => best
  | s :: scored' =>
      let best' := match all !! best with
                   | Some sb => if better s sb then i else best
                   | None => best
                   end in
      fallback_loop all scored' (S i) best'
  end.

Fixpoint index_of (n : bytes) (scored : list mdsScored) (i : nat) : option nat :=
  match scored with
  | [] => None
  | s :: scored' => if bool_decide (name s = n) then Some i else index_of n scored' (S i)
  end.
End scores.

(** ** Transitions *)

Definition with_circuits (c : gmap bytes mdsCircuit) (mds : LBStrategyMDS) : LBStrategyMDS :=
  {| params := params mds; primaryName := primaryName mds; primarySince := primarySince mds;
     circuits := c; totalSwitches := totalSwitches mds; switchesByName := switchesByName mds |}.

(** [now]: a reading of the clock of its own. *)
Definition becomePrimary (now : Time) (n : bytes) (mds : LBStrategyMDS) : LBStrategyMDS :=
  if bool_decide (primaryName mds = n) then mds
  else {| params := params mds; primaryName := n; primarySince := now; circuits := circuits mds;
          totalSwitches := uint64 (totalSwitches mds + 1);
          switchesByName := <[n := uint64 (default 0 (switchesByName mds !! n) + 1)]>
                              (switchesByName mds) |}.

Definition set_probing (b : bool) (cb : mdsCircuit) : mdsCircuit :=
  {| consecHardFails := consecHardFails cb; open := open cb; probing := b;
     openedAt := openedAt cb; nextProbeAt := nextProbeAt cb;
     recoverUntilTotal := recoverUntilTotal cb |}.

(** Open or missing primary: the last part of [selectCandidateLocked]. *)
Definition replace_primary (later : Time) (scored : list mdsScored) (mds : LBStrategyMDS)
    : LBStrategyMDS * nat :=
  let best := match bestHealthy mds scored None with
              | Some b => b
              | None => fallback_loop mds scored (drop 1 scored) 1 0
              end in
  match scored !! best with
  | Some s => (becomePrimary later (name s) mds, best)
  | None => (mds, best)
  end.

(** Sticky primary, and the above. *)
Definition choose_primary (now later : Time) (scored : list mdsScored) (primaryIdx : option nat)
    (mds : LBStrategyMDS) : LBStrategyMDS * nat :=
  match primaryIdx with
  | Some pi =>
      match scored !! pi with
      | Some primary =>
          if sc_open primary then replace_primary later scored mds
          else match bestHealthy mds scored (Some pi) with
          | None => (mds, pi)
          | Some bestOther =>
              if time_sub now (primarySince mds) <? Dwell (params mds) then (mds, pi)
              else match scored !! bestOther with
              | Some other =>
                  if (SwitchMargin (params mds) <=? base other - base primary)%float
                     && better mds other primary
                  then (becomePrimary later (name other) mds, bestOther)
                  else (mds, pi)
              | None => (mds, pi)
              end
          end
      | None => replace_primary later scored mds
      end
  | None => replace_primary later scored mds
  end.

(** What a selection draws or reads, besides the time at its start: random numbers, the
    readings of the clock for the scores, and the one at a change of the primary. *)
Record draws := { draw_float : float; draw_intn : nat -> nat; draw_clock : nat -> Time; draw_later : Time }.

Definition selectCandidateLocked (now : Time) (d : draws) (candidates : list ResolverCandidate)
    (mds : LBStrategyMDS) : LBStrategyMDS * list ResolverMetrics * nat :=
  match candidates with
  | [] => (mds, [], 0%nat)
  | [c] => (becomePrimary (draw_later d) (Name_ (Server c)) mds, [Metrics_ c], 0%nat)
  | _ =>
      let '(scored, stores) := scoreAll mds (draw_clock d) candidates in
      let primaryIdx := index_of (primaryName mds) scored 0 in
      match pickHalfOpenProbe mds now scored with
      | Some probeIdx =>
          let n := default [] (name <$> scored !! probeIdx) in
          (with_circuits (alter (set_probing true) n (circuits mds)) mds, stores, probeIdx)
      | None =>
          let explore := if (draw_float d <? ExploreProb (params mds))%float
                         then pickExploreTarget (draw_intn d) scored primaryIdx else None in
          match explore with
          | Some exploreIdx => (mds, stores, exploreIdx)
          | None => let '(mds', i) := choose_primary now (draw_later d) scored primaryIdx mds in (mds', stores, i)
          end
      end
  end.

(** ** Feedback *)

Definition circuitFor (n : bytes) (mds : LBStrategyMDS) : mdsCircuit :=
  default zero_circuit (circuits mds !! n).

Definition circuit_feedback (p : MDSParams) (now : Time) (o : ExchangeOutcome)
    (totalSamples : Z) (cb : mdsCircuit) : mdsCircuit :=
  if o_Timeout o || o_Error o then
    if open cb && probing cb then
      {| consecHardFails := uint32 (consecHardFails cb + 1); open := open cb; probing := false;
         openedAt := openedAt cb; nextProbeAt := time_add now (HalfOpenInterval p);
         recoverUntilTotal := recoverUntilTotal cb |}
    else if recoverUntilTotal cb >? totalSamples then
      {| consecHardFails := 1; open := open cb; probing := probing cb; openedAt := openedAt cb;
         nextProbeAt := nextProbeAt cb; recoverUntilTotal := 0 |}
    else if totalSamples <? WarmupSamples p then
      {| consecHardFails := 0; open := open cb; probing := probing cb; openedAt := openedAt cb;
         nextProbeAt := nextProbeAt cb; recoverUntilTotal := recoverUntilTotal cb |}
    else
      let fails := uint32 (consecHardFails cb + 1) in
      if negb (open cb) && (fails >=? BreakerThreshold p) then
        {| consecHardFails := fails; open := true; probing := false; openedAt := now;
           nextProbeAt := time_add now (HalfOpenInterval p); recoverUntilTotal := 0 |}
      else
        {| consecHardFails := fails; open := open cb; probing := probing cb;
           openedAt := openedAt cb; nextProbeAt := nextProbeAt cb;
           recoverUntilTotal := recoverUntilTotal cb |}
  else if open cb && probing cb then
    {| consecHardFails := 0; open := false; probing := false; openedAt := openedAt cb;
       nextProbeAt := nextProbeAt cb;
       recoverUntilTotal := uint64 (totalSamples + WarmupSamples p) |}
  else
    {| consecHardFails := 0; open := open cb; probing := probing cb; openedAt := openedAt cb;
       nextProbeAt := nextProbeAt cb; recoverUntilTotal := recoverUntilTotal cb |}.

Definition observeFeedbackLocked (now : Time) (n : bytes) (o : ExchangeOutcome)
    (totalSamples : Z) (mds : LBStrategyMDS) : LBStrategyMDS :=
  with_circuits (<[n := circuit_feedback (params mds) now o totalSamples (circuitFor n mds)]>
                   (circuits mds)) mds.

Record MDSTats := {
  PrimaryName : bytes; TotalSwitches : Z; SwitchesByName : gmap bytes Z;
  OpenCircuits : list bytes;
}.

(** The order of the open circuits is that of the map iteration. *)
Definition Stats (mds : LBStrategyMDS) : MDSTats :=
  {| PrimaryName := primaryName mds; TotalSwitches := totalSwitches mds;
     SwitchesByName := switchesByName mds;
     OpenCircuits := fst <$> filter (fun nc => open nc.2 = true) (map_to_list (circuits mds)) |}.
