(* ===== verification/MdsProps.v ===== *)
(** * Properties of the multi-dimensional scheduler *)

From S2P Require Import Prelude GoFloat Metrics ServerTypes Mds MetricsProps.

Implicit Types (mds : LBStrategyMDS) (scored : list mdsScored).

(** ** The scored candidates *)

Definition cand_name (c : ResolverCandidate) : bytes := Name_ (Server c).

(** What selection uses of a scored candidate. *)
Definition scored_as mds (s : mdsScored) (c : ResolverCandidate) : Prop :=
  name s = cand_name c /\ sc_open s = circuit_open mds (cand_name c).

Lemma score_one_spec mds now st c : exists s m,
  scored_so_far (score_one mds now st c) = scored_so_far st ++ [s] /\
  stores (score_one mds now st c) = stores st ++ [m] /\ scored_as mds s c.
Proof.
  unfold score_one. destruct (Snapshot _ (Metrics_ c)) as [m w].
  destruct (if isWarmingLocked _ _ _ _ then _ else _) as [[[m' buf] tail] pen].
  do 2 eexists. split; [reflexivity|]. split; [reflexivity|]. done.
Qed.

Lemma score_fold_spec mds now cs st : exists ss ms,
  scored_so_far (fold_left (score_one mds now) cs st) = scored_so_far st ++ ss /\
  stores (fold_left (score_one mds now) cs st) = stores st ++ ms /\
  Forall2 (scored_as mds) ss cs /\ length ms = length cs.
Proof.
  revert st. induction cs as [|c cs IH]; intros st.
  { exists [], []. rewrite !app_nil_r. by split_and!. }
  cbn [fold_left]. destruct (score_one_spec mds now st c) as (s & m & E1 & E2 & E3).
  destruct (IH (score_one mds now st c)) as (ss & ms & H1 & H2 & H3 & H4).
  exists (s :: ss), (m :: ms). rewrite H1, H2, E1, E2, <-!app_assoc.
  split_and!; [done|done|by constructor|simpl; lia].
Qed.

Lemma scoreAll_spec mds now cs :
  Forall2 (scored_as mds) (scoreAll mds now cs).1 cs /\
  length (scoreAll mds now cs).2 = length cs.
Proof.
  unfold scoreAll. destruct (score_fold_spec mds now cs
    {| pctBuf := []; bestTail := MaxFloat64; worstTail := 0; scored_so_far := []; stores := [] |})
    as (ss & ms & H1 & H2 & H3 & H4).
  cbn [fst snd]. rewrite H1, H2. split; [|done]. cbn [scored_so_far app].
  apply Forall2_fmap_l. eapply Forall2_impl; [exact H3|]. intros s c [? ?]. done.
Qed.

(** ** The choices *)

(** An open circuit that may get a probe. *)
Definition due mds (now : Time) (s : mdsScored) (cb : mdsCircuit) : Prop :=
  sc_open s = true /\ circuits mds !! name s = Some cb /\
  probing cb = false /\ nextProbeAt cb <= now.

Definition earlier_than (t : Time) (pick : option (nat * Time)) : Prop :=
  forall i' t', pick = Some (i', t') -> t < t'.

Lemma probe_step_spec mds now s i pick :
  (probe_step mds now s i pick = pick /\
   forall cb, due mds now s cb -> exists i' t', pick = Some (i', t') /\ t' <= openedAt cb) \/
  (exists cb, due mds now s cb /\ probe_step mds now s i pick = Some (i, openedAt cb) /\
     earlier_than (openedAt cb) pick).
Proof.
  unfold probe_step, due. destruct (sc_open s); cbn [negb]; [|left; split; [done|]; by intros cb []].
  destruct (circuits mds !! name s) as [cb|];
    [|left; split; [done|]; intros cb (_ & ? & _); done].
  destruct (probing cb) eqn:Epr; cbn [orb].
  { left. split; [done|]. intros cb' (_ & [= <-] & ? & _). congruence. }
  destruct (nextProbeAt cb >? now) eqn:En; bools.
  { left. split; [done|]. intros cb' (_ & [= <-] & _ & ?). lia. }
  destruct pick as [[i' t]|].
  - destruct (openedAt cb <? t) eqn:Et; bools.
    + right. exists cb. split_and!; try done. intros ?? [= <- <-]. lia.
    + left. split; [done|]. intros cb' (_ & [= <-] & _ & _). eauto.
  - right. exists cb. by split_and!.
Qed.

Lemma probe_loop_spec mds now scored i0 pick :
  match probe_loop mds now scored i0 pick with
  | None => pick = None /\ forall s cb, s ∈ scored -> ~ due mds now s cb
  | Some (i, t) =>
      (pick = Some (i, t) \/
       exists s cb, scored !! (i - i0)%nat = Some s /\ (i0 <= i)%nat /\
         due mds now s cb /\ t = openedAt cb) /\
      (forall i' t', pick = Some (i', t') -> t <= t') /\
      (forall s cb, s ∈ scored -> due mds now s cb -> t <= openedAt cb)
  end.
Proof.
  revert i0 pick. induction scored as [|s scored IH]; intros i0 pick; cbn [probe_loop].
  { assert (forall s cb, s ∈ [] -> ~ due mds now s cb) as Hnil
      by (intros s cb Hin; by apply not_elem_of_nil in Hin).
    destruct pick as [[i t]|]; [|done].
    split; [by left|]. split; [intros ? ? [= <- <-]; lia|]. intros s cb Hin Hd. by destruct (Hnil s cb). }
  assert (forall i s', scored !! (i - S i0)%nat = Some s' -> (S i0 <= i)%nat ->
    (s :: scored) !! (i - i0)%nat = Some s') as Hshift.
  { intros i s' H Hi. by replace (i - i0)%nat with (S (i - S i0)) by lia. }
  specialize (IH (S i0) (probe_step mds now s i0 pick)).
  destruct (probe_step_spec mds now s i0 pick) as [[Heq Hno]|(cb & Hdue & Hpk & Hlt)];
    [rewrite Heq in *|]; destruct (probe_loop mds now scored (S i0) _) as [[i t]|].
  - destruct IH as (H1 & H2 & H3). split_and!; [|done|].
    + destruct H1 as [H1|(s' & cb & H1 & Hi & ?)]; [by left|]. right.
      exists s', cb. split; [by apply Hshift|]. split; [lia|done].
    + intros s' cb [->|Hin]%elem_of_cons Hd; [|by eapply H3].
      destruct (Hno cb Hd) as (i' & t' & Hp & ?). specialize (H2 _ _ Hp). lia.
  - destruct IH as [-> H2]. split; [done|]. intros s' cb [->|Hin]%elem_of_cons Hd; [|by eapply H2].
    destruct (Hno cb Hd) as (i' & t' & ? & _). done.
  - destruct IH as (H1 & H2 & H3). pose proof (H2 _ _ Hpk) as Hle. split_and!.
    + right. destruct H1 as [H1|(s' & cb' & H1 & Hi & ?)].
      * rewrite Hpk in H1. injection H1 as <- <-. exists s, cb. rewrite Nat.sub_diag. done.
      * exists s', cb'. split; [by apply Hshift|]. split; [lia|done].
    + intros i' t' Hp. specialize (Hlt _ _ Hp). lia.
    + intros s' cb' [->|Hin]%elem_of_cons Hd; [|by eapply H3].
      destruct Hd as (_ & Hc' & _), Hdue as (_ & Hc & _). rewrite Hc in Hc'. by injection Hc' as <-.
  - destruct IH as [H1 _]. congruence.
Qed.

Lemma pickHalfOpenProbe_spec mds now scored :
  match pickHalfOpenProbe mds now scored with
  | None => forall s cb, s ∈ scored -> ~ due mds now s cb
  | Some i => exists s cb, scored !! i = Some s /\ due mds now s cb /\
      (forall s' cb', s' ∈ scored -> due mds now s' cb' -> openedAt cb <= openedAt cb')
  end.
Proof.
  unfold pickHalfOpenProbe. pose proof (probe_loop_spec mds now scored 0 None) as H.
  destruct (probe_loop mds now scored 0 None) as [[i t]|]; simpl; [|by destruct H].
  destruct H as ([?|(s & cb & H1 & _ & H2 & ->)] & _ & H3); [done|].
  rewrite Nat.sub_0_r in H1. eauto.
Qed.

Lemma explore_loop_spec scored i0 pi healthy warm :
  explore_loop scored i0 pi = (healthy, warm) ->
  Forall (fun i => (i0 <= i)%nat /\ exists s, scored !! (i - i0)%nat = Some s /\
    sc_open s = false /\ Some i <> pi) healthy /\ warm ⊆ healthy.
Proof.
  revert i0 healthy warm. induction scored as [|s scored IH]; intros i0 healthy warm; cbn.
  { intros [= <- <-]. done. }
  destruct (explore_loop scored (S i0) pi) as [h w] eqn:E.
  destruct (IH _ _ _ E) as [Hh Hw].
  assert (Forall (fun i => (i0 <= i)%nat /\ exists s', (s :: scored) !! (i - i0)%nat = Some s' /\
    sc_open s' = false /\ Some i <> pi) h) as Hh'.
  { eapply Forall_impl; [exact Hh|]. intros i (Hi & s' & H1 & H2). split; [lia|].
    exists s'. by replace (i - i0)%nat with (S (i - S i0)) by lia. }
  destruct (bool_decide (Some i0 = pi)) eqn:Ep; cbn [orb]; [by intros [= <- <-]|].
  destruct (sc_open s) eqn:Eo; [by intros [= <- <-]|]. bools. intros [= <- <-]. split.
  - constructor; [|done]. split; [lia|]. exists s. by rewrite Nat.sub_diag.
  - destruct (warming s); set_solver.
Qed.

Lemma pickExploreTarget_spec intn scored pi i : (forall n, (0 < n)%nat -> (intn n < n)%nat) ->
  pickExploreTarget intn scored pi = Some i ->
  exists s, scored !! i = Some s /\ sc_open s = false /\ Some i <> pi.
Proof.
  intros Hintn. unfold pickExploreTarget.
  destruct (explore_loop scored 0 pi) as [h w] eqn:E.
  destruct (explore_loop_spec _ _ _ _ _ E) as [Hh Hw].
  set (pool := if (0 <? length w)%nat then w else h).
  assert (pool ⊆ h) as Hp by (unfold pool; destruct (0 <? length w)%nat; set_solver).
  destruct (Nat.eqb_spec (length pool) 0); [done|]. intros Hi.
  apply list_elem_of_lookup_2 in Hi. rewrite Forall_forall in Hh.
  destruct (Hh i (Hp i Hi)) as (_ & s & H). rewrite Nat.sub_0_r in H. eauto.
Qed.

Lemma best_loop_spec mds all scored i0 exclude best :
  all !! i0 = scored !! 0%nat -> drop i0 all = scored ->
  (forall b, best = Some b -> exists s, all !! b = Some s /\ sc_open s = false /\ Some b <> exclude) ->
  match best_loop mds all scored i0 exclude best with
  | Some b => exists s, all !! b = Some s /\ sc_open s = false /\ Some b <> exclude
  | None => best = None /\ forall i s, scored !! i = Some s ->
      sc_open s = true \/ Some (i0 + i)%nat = exclude
  end.
Proof.
  revert i0 best. induction scored as [|s scored IH]; intros i0 best Hhd Hd Hb; cbn [best_loop].
  { destruct best as [b|]; [by apply Hb|]. split; [done|]. intros i s H. by rewrite lookup_nil in H. }
  simpl in Hhd. set (best' := if _ || _ then best else _).
  assert (forall b, best' = Some b ->
    exists s, all !! b = Some s /\ sc_open s = false /\ Some b <> exclude) as Hb'.
  { intros b. unfold best'. destruct (bool_decide _) eqn:Ee; cbn [orb]; [by apply Hb|].
    destruct (sc_open s) eqn:Eo; [by apply Hb|]. bools.
    assert (exists s, all !! i0 = Some s /\ sc_open s = false /\ Some i0 <> exclude) by eauto.
    destruct best as [b0|]; [|by intros [= <-]].
    destruct (all !! b0) as [sb|]; [|apply Hb]. destruct (better mds s sb); [by intros [= <-]|apply Hb]. }
  assert (drop (S i0) all = scored) as Hd'.
  { rewrite (drop_S all s i0 Hhd) in Hd. by injection Hd. }
  assert (all !! S i0 = scored !! 0%nat) as Hhd'.
  { rewrite <-Hd', lookup_drop. f_equal. lia. }
  specialize (IH (S i0) best' Hhd' Hd' Hb').
  destruct (best_loop mds all scored (S i0) exclude best') as [b|]; [done|].
  destruct IH as [Hn Hall]. unfold best' in Hn.
  destruct (bool_decide (Some i0 = exclude)) eqn:Ee; cbn [orb] in Hn; bools.
  - split; [done|]. intros [|i] s' Hi; [right; by rewrite Nat.add_0_r|].
    rewrite Nat.add_succ_r. by apply (Hall i).
  - destruct (sc_open s) eqn:Eo.
    + split; [done|]. intros [|i] s' Hi; [left; by injection Hi as <-|].
      rewrite Nat.add_succ_r. by apply (Hall i).
    + exfalso. destruct best as [b0|]; [|done]. destruct (all !! b0); [|done]. by destruct (better _ _ _).
Qed.

Lemma bestHealthy_spec mds scored exclude :
  match bestHealthy mds scored exclude with
  | Some b => exists s, scored !! b = Some s /\ sc_open s = false /\ Some b <> exclude
  | None => forall i s, scored !! i = Some s -> sc_open s = true \/ Some i = exclude
  end.
Proof.
  unfold bestHealthy. pose proof (best_loop_spec mds scored scored 0 exclude None
    eq_refl eq_refl ltac:(done)) as H.
  destruct (best_loop _ _ _ _ _ _); [done|]. by destruct H.
Qed.

Lemma fallback_loop_lt mds all scored i best :
  (best < length all)%nat -> (i + length scored <= length all)%nat ->
  (fallback_loop mds all scored i best < length all)%nat.
Proof.
  revert i best. induction scored as [|s scored IH]; intros i best Hb Hi; cbn [fallback_loop]; [done|].
  simpl in Hi. apply IH; [|lia]. destruct (all !! best); [|done]. destruct (better _ _ _); lia.
Qed.

Lemma index_of_spec n scored i0 :
  match index_of n scored i0 with
  | Some i => (i0 <= i)%nat /\ exists s, scored !! (i - i0)%nat = Some s /\ name s = n
  | None => forall s, s ∈ scored -> name s <> n
  end.
Proof.
  revert i0. induction scored as [|s scored IH]; intros i0; cbn [index_of].
  { intros s Hin. by apply not_elem_of_nil in Hin. }
  case_bool_decide as Hn; [split; [lia|]; exists s; by rewrite Nat.sub_diag|].
  specialize (IH (S i0)). destruct (index_of n scored (S i0)) as [i|].
  - destruct IH as (Hi & s' & H1 & H2). split; [lia|]. exists s'.
    by replace (i - i0)%nat with (S (i - S i0)) by lia.
  - intros s' [->|Hin]%elem_of_cons; [done|by apply IH].
Qed.

(** ** Selection *)

(** Why a resolver may be selected although its circuit is open. *)
Definition probe_granted mds mds' (now : Time) (n : bytes) : Prop :=
  exists cb, circuits mds !! n = Some cb /\ open cb = true /\ probing cb = false /\
    nextProbeAt cb <= now /\ circuits mds' !! n = Some (set_probing true cb).

Lemma scored_lookup mds now cs i s : (scoreAll mds now cs).1 !! i = Some s ->
  exists c, cs !! i = Some c /\ scored_as mds s c.
Proof.
  destruct (scoreAll_spec mds now cs) as [H _]. intros Hi.
  destruct (Forall2_lookup_l _ _ _ _ _ H Hi) as (c & ? & ?). eauto.
Qed.

Lemma due_open mds now s cb c : due mds now s cb -> scored_as mds s c -> open cb = true.
Proof.
  intros (H1 & H2 & _) [E1 E2]. rewrite H1 in E2. unfold circuit_open in E2.
  rewrite <-E1, H2 in E2. done.
Qed.

Lemma becomePrimary_keeps now n mds :
  circuits (becomePrimary now n mds) = circuits mds /\ params (becomePrimary now n mds) = params mds.
Proof. unfold becomePrimary. by case_bool_decide. Qed.

(** A resolver that selection may end on, the probes apart. *)
Definition acceptable scored (s : mdsScored) : Prop :=
  sc_open s = false \/ forall s', s' ∈ scored -> sc_open s' = true.

Lemma replace_primary_spec mds later scored : scored <> [] ->
  exists i s, replace_primary later scored mds = (becomePrimary later (name s) mds, i) /\
    scored !! i = Some s /\ acceptable scored s.
Proof.
  intros Hne. unfold replace_primary. pose proof (bestHealthy_spec mds scored None) as Hb.
  destruct (bestHealthy mds scored None) as [b|].
  - destruct Hb as (s & H1 & H2 & _). rewrite H1. exists b, s. split_and!; try done. by left.
  - assert (fallback_loop mds scored (drop 1 scored) 1 0 < length scored)%nat as Hlt.
    { destruct scored; [done|]. apply fallback_loop_lt; simpl; rewrite ?drop_0; lia. }
    apply lookup_lt_is_Some_2 in Hlt as [s Hs]. rewrite Hs. eexists _, s. split; [done|].
    split; [done|right]. intros s' Hin. apply list_elem_of_lookup in Hin as [j Hj].
    by destruct (Hb j s' Hj).
Qed.

(** When the primary [p] gives way to [s]. *)
Definition may_replace mds (now : Time) (p s : mdsScored) : Prop :=
  name p = primaryName mds /\
  (sc_open p = true \/
   Dwell (params mds) <= time_sub now (primarySince mds) /\
   (SwitchMargin (params mds) <=? base s - base p)%float = true /\ better mds s p = true).

Lemma choose_primary_spec mds now later scored pi : scored <> [] ->
  (forall i, pi = Some i -> exists s, scored !! i = Some s /\ name s = primaryName mds) ->
  exists i s mds', choose_primary now later scored pi mds = (mds', i) /\
  scored !! i = Some s /\ acceptable scored s /\
  (mds' = mds \/
   mds' = becomePrimary later (name s) mds /\
   (pi = None \/ exists p, p ∈ scored /\ may_replace mds now p s)).
Proof.
  intros Hne Hpi. unfold choose_primary.
  destruct (replace_primary_spec mds later scored Hne) as (ri & rs & Hr & Hri & Hra).
  destruct pi as [i|]; [|exists ri, rs; eauto 10].
  destruct (Hpi i eq_refl) as (p & Hp & Hn). rewrite Hp.
  assert (p ∈ scored) by (by eapply list_elem_of_lookup_2).
  destruct (sc_open p) eqn:Eo.
  { exists ri, rs. eexists. split_and!; try done. right. split; [done|]. right.
    exists p. split; [done|]. split; [done|by left]. }
  assert (acceptable scored p) by (by left).
  pose proof (bestHealthy_spec mds scored (Some i)) as Hb.
  destruct (bestHealthy mds scored (Some i)) as [b|]; [|by eauto 10].
  destruct Hb as (other & H1 & H2 & _). rewrite H1.
  destruct (time_sub now (primarySince mds) <? Dwell (params mds)) eqn:Ed; bools; [by eauto 10|].
  destruct (_ && better mds other p) eqn:Em; [|by eauto 10].
  apply andb_true_iff in Em as [??].
  exists b, other. eexists. split_and!; [done|done|by left|]. right. split; [done|]. right.
  exists p. split; [done|]. split; [done|by right].
Qed.

Definition draws_ok (d : draws) : Prop := forall n, (0 < n)%nat -> (draw_intn d n < n)%nat.

(** The cases of a selection among two or more candidates. *)
Inductive select_case mds (now later : Time) (cs : list ResolverCandidate) scored
    : LBStrategyMDS -> nat -> Prop :=
| case_probe i s c cb : scored !! i = Some s -> cs !! i = Some c -> scored_as mds s c ->
    due mds now s cb ->
    (forall s' cb', s' ∈ scored -> due mds now s' cb' -> openedAt cb <= openedAt cb') ->
    select_case mds now later cs scored
      (with_circuits (alter (set_probing true) (cand_name c) (circuits mds)) mds) i
| case_explore i s c : scored !! i = Some s -> cs !! i = Some c -> scored_as mds s c ->
    (forall s cb, s ∈ scored -> ~ due mds now s cb) -> sc_open s = false ->
    select_case mds now later cs scored mds i
| case_primary i s c mds' : scored !! i = Some s -> cs !! i = Some c -> scored_as mds s c ->
    (forall s cb, s ∈ scored -> ~ due mds now s cb) -> acceptable scored s ->
    (mds' = mds \/ mds' = becomePrimary later (name s) mds /\
      ((forall s, s ∈ scored -> name s <> primaryName mds) \/
       exists p, p ∈ scored /\ may_replace mds now p s)) ->
    select_case mds now later cs scored mds' i.

Lemma select_cases mds now d cs : (2 <= length cs)%nat -> draws_ok d ->
  exists mds' i, selectCandidateLocked now d cs mds = (mds', (scoreAll mds (draw_clock d) cs).2, i) /\
  select_case mds now (draw_later d) cs (scoreAll mds (draw_clock d) cs).1 mds' i.
Proof.
  intros Hlen Hd. destruct cs as [|c0 [|c1 cs]]; [simpl in Hlen; lia|simpl in Hlen; lia|].
  unfold selectCandidateLocked. set (all := c0 :: c1 :: cs) in *.
  pose proof (scoreAll_spec mds (draw_clock d) all) as [Hall _].
  pose proof (scored_lookup mds (draw_clock d) all) as Hl.
  destruct (scoreAll mds (draw_clock d) all) as [scored ms] eqn:Es. cbn [fst snd] in *.
  pose proof (pickHalfOpenProbe_spec mds now scored) as Hp.
  destruct (pickHalfOpenProbe mds now scored) as [i|].
  { destruct Hp as (s & cb & H1 & H2 & H3). destruct (Hl i s H1) as (c & Hc & Hs).
    do 2 eexists. split; [reflexivity|]. rewrite H1. cbn [fmap option_fmap option_map default id].
    rewrite (proj1 Hs). by eapply case_probe. }
  destruct (if (_ <? _)%float then _ else None) as [i|] eqn:Ee.
  { destruct (_ <? _)%float; [|done].
    destruct (pickExploreTarget_spec _ _ _ _ Hd Ee) as (s & H1 & H2 & _).
    destruct (Hl i s H1) as (c & Hc & Hs). do 2 eexists. split; [reflexivity|].
    by eapply case_explore. }
  pose proof (index_of_spec (primaryName mds) scored 0) as Hi.
  destruct (choose_primary_spec mds now (draw_later d) scored (index_of (primaryName mds) scored 0))
    as (i & s & mds' & -> & H1 & H2 & H3).
  { intros ->. by apply Forall2_nil_inv_l in Hall. }
  { intros i' Hpi. rewrite Hpi in Hi. rewrite Nat.sub_0_r in Hi. destruct Hi as (_ & s & H). eauto. }
  destruct (Hl i s H1) as (c & Hc & Hs). do 2 eexists. split; [reflexivity|].
  eapply case_primary; try done. destruct H3 as [?|[? H3]]; [by left|]. right. split; [done|].
  destruct H3 as [H3|?]; [|by right]. left. by rewrite H3 in Hi.
Qed.

Lemma scored_of_cand mds now cs c : c ∈ cs ->
  exists s, s ∈ (scoreAll mds now cs).1 /\ scored_as mds s c.
Proof.
  intros Hin. apply list_elem_of_lookup in Hin as [j Hj].
  destruct (scoreAll_spec mds now cs) as [Hall _].
  destruct (Forall2_lookup_r _ _ _ _ _ Hall Hj) as (s & Hs & ?).
  exists s. split; [by eapply list_elem_of_lookup_2|done].
Qed.

Lemma cand_of_scored mds now cs s : s ∈ (scoreAll mds now cs).1 ->
  exists c, c ∈ cs /\ scored_as mds s c.
Proof.
  intros Hin. apply list_elem_of_lookup in Hin as [j Hj].
  destruct (scored_lookup mds now cs j s Hj) as (c & Hc & ?).
  exists c. split; [by eapply list_elem_of_lookup_2|done].
Qed.

Lemma selectCandidateLocked_some mds now d cs : cs <> [] -> draws_ok d ->
  let '(_, _, i) := selectCandidateLocked now d cs mds in exists c, cs !! i = Some c.
Proof.
  intros Hne Hd. destruct (decide (length cs = 1%nat)) as [H1|H1].
  { destruct cs as [|c0 [|]]; [done| |done]. by exists c0. }
  destruct (select_cases mds now d cs) as (mds' & i & -> & Hc); [|done|].
  { destruct cs as [|? [|]]; simpl in *; [done|done|lia]. }
  destruct Hc; eauto.
Qed.

(** C3: selection is sound.  From a non-empty list of candidates, the scheduler
    returns the index of one of them, with the stores of all of them.  The
    circuit of the selected resolver is closed, unless it is the only candidate,
    or it is granted a half-open probe that was due (and which is then in
    flight), or the circuits of all the candidates are open. *)
Theorem selectCandidateLocked_sound mds now d cs : cs <> [] -> draws_ok d ->
  let '(mds', ms, i) := selectCandidateLocked now d cs mds in
  length ms = length cs /\
  exists c, cs !! i = Some c /\
  (circuit_open mds (cand_name c) = false \/ length cs = 1%nat \/
   probe_granted mds mds' now (cand_name c) \/
   forall c', c' ∈ cs -> circuit_open mds (cand_name c') = true).
Proof.
  intros Hne Hd. destruct (decide (length cs = 1%nat)) as [H1|H1].
  { destruct cs as [|c0 [|]]; [done| |done]. split; [done|]. exists c0. split; [done|]. right. by left. }
  destruct (select_cases mds now d cs) as (mds' & i & -> & Hc); [|done|].
  { destruct cs as [|? [|]]; simpl in *; [done|done|lia]. }
  split; [apply scoreAll_spec|].
  destruct Hc as [i s c cb Hs Hc Has Hdue _|i s c Hs Hc [_ Has] _ Ho|i s c mds' Hs Hc [_ Has] _ Ho _];
    exists c; (split; [done|]).
  - right; right; left. exists cb. pose proof (due_open _ _ _ _ _ Hdue Has).
    destruct Hdue as (_ & D2 & D3 & D4), Has as [<- _]. unfold with_circuits. cbn [circuits].
    by rewrite lookup_alter_eq, D2.
  - left. congruence.
  - destruct Ho as [Ho|Ho]; [left; congruence|]. right; right; right. intros c' Hin.
    destruct (scored_of_cand mds (draw_clock d) cs c' Hin) as (s' & Hs' & _ & <-). by apply Ho.
Qed.

Definition sample_server (n : string) (r : Z) : ServerInfo :=
  {| Name_ := GoStrings.str n; Proto := StampProtoTypeDNSCrypt; Props := 0; initialRtt := r;
     rtt := ewma.Set_ (ewma.NewMovingAverage 10) (float64 r); lastActionTS := 0; lastUpdateTime := 0;
     lastDecayTS := 0; totalQueries := 0; failedQueries := 0; s_Timeout := 5 * Second;
     useGet := false;
     crypto := {| Crypto.cs_CryptoConstruction := Common.XChacha20Poly1305;
       Crypto.cs_ServerPk := []; Crypto.cs_SharedKey := []; Crypto.cs_MagicQuery := [];
       Crypto.cs_PqPublicKey := []; Crypto.cs_PqCertContext := [];
       Crypto.cs_fragmentsBlocked := false; Crypto.cs_hasRelay := false |};
     endpoint := {| UDPAddr := {| addr_IP := []; addr_Port := 443 |};
                    TCPAddr := {| addr_IP := []; addr_Port := 443 |};
                    s_URL := no_URL; s_Relay := None; odohTargetConfigs := [] |} |}.

Definition sample_candidates : list ResolverCandidate :=
  [{| Server := sample_server "a" 30; Metrics_ := NewResolverMetrics |};
   {| Server := sample_server "b" 10; Metrics_ := NewResolverMetrics |}].

Definition sample_draws : draws := {| draw_float := 0.5%float; draw_intn := fun _ => 0%nat;
  draw_clock := fun _ => Second; draw_later := 2 * Second |}.

Lemma selectCandidateLocked_sound_witness :
  (selectCandidateLocked Second sample_draws sample_candidates
    (newLBStrategyMDS DefaultMDSParams)).2 = 1%nat /\
  length (selectCandidateLocked Second sample_draws sample_candidates
    (newLBStrategyMDS DefaultMDSParams)).1.2 = 2%nat.
Proof.
  pose proof (selectCandidateLocked_sound (newLBStrategyMDS DefaultMDSParams) Second sample_draws
    sample_candidates) as H.
  split; [vm_compute; reflexivity|].
  destruct (selectCandidateLocked _ _ _ _) as [[mds' ms] i]. apply H; [discriminate|].
  intros n Hn. exact Hn.
Defined.

(** The primary is sticky.  A selection changes the primary only to the
    resolver it returns, and only if there is a single candidate, or no
    candidate is the primary, or the primary's circuit is open, or the primary
    has been kept for the dwell time and the other one is better by the switch
    margin.  Every change is counted, once, and restarts the dwell time; nothing
    else changes the primary, its date or the count. *)
Theorem selectCandidateLocked_sticky mds now d cs : cs <> [] -> draws_ok d ->
  let '(mds', _, i) := selectCandidateLocked now d cs mds in
  (primaryName mds' = primaryName mds /\ primarySince mds' = primarySince mds /\
   totalSwitches mds' = totalSwitches mds /\ switchesByName mds' = switchesByName mds) \/
  (totalSwitches mds' = uint64 (totalSwitches mds + 1) /\ primarySince mds' = draw_later d /\
   exists c, cs !! i = Some c /\ primaryName mds' = cand_name c /\ cand_name c <> primaryName mds /\
   (length cs = 1%nat \/
    (forall c', c' ∈ cs -> cand_name c' <> primaryName mds) \/
    circuit_open mds (primaryName mds) = true \/
    exists p s, p ∈ (scoreAll mds (draw_clock d) cs).1 /\ name p = primaryName mds /\
      (scoreAll mds (draw_clock d) cs).1 !! i = Some s /\
      Dwell (params mds) <= time_sub now (primarySince mds) /\
      (SwitchMargin (params mds) <=? base s - base p)%float = true /\ better mds s p = true)).
Proof.
  intros Hne Hd. assert (forall n, becomePrimary (draw_later d) n mds = mds \/
    (n <> primaryName mds /\ primaryName (becomePrimary (draw_later d) n mds) = n /\
     primarySince (becomePrimary (draw_later d) n mds) = draw_later d /\
     totalSwitches (becomePrimary (draw_later d) n mds) = uint64 (totalSwitches mds + 1))) as Hbp.
  { intros n. unfold becomePrimary. case_bool_decide; [by left|right]. by split_and!. }
  destruct (decide (length cs = 1%nat)) as [H1|H1].
  { destruct cs as [|c0 [|]]; [done| |done]. cbn [selectCandidateLocked].
    destruct (Hbp (cand_name c0)) as [Hb|(B1 & B2 & B3 & B4)]; unfold cand_name in *.
    - rewrite Hb. by left.
    - right. split_and!; try done. exists c0. split_and!; try done. by left. }
  destruct (select_cases mds now d cs) as (mds' & i & -> & Hc); [|done|].
  { destruct cs as [|? [|]]; simpl in *; [done|done|lia]. }
  destruct Hc as [i s c cb Hs Hc Has Hdue _|i s c Hs Hc _ _ Ho|i s c mds' Hs Hc [Hn _] _ _ Hm];
    [by left|by left|].
  destruct Hm as [->|[-> Hm]]; [by left|].
  destruct (Hbp (name s)) as [->|(B1 & B2 & B3 & B4)]; [by left|]. right.
  split_and!; try done. exists c. rewrite <-Hn. split_and!; try done.
  right. destruct Hm as [Hm|(p & Hp & Hpn & Hm)].
  - left. intros c' Hin. destruct (scored_of_cand mds (draw_clock d) cs c' Hin) as (s' & Hs' & <- & _). by apply Hm.
  - right. destruct Hm as [Hm|Hm]; [left|right; by exists p, s].
    destruct (cand_of_scored mds (draw_clock d) cs p Hp) as (c' & _ & E1 & E2). congruence.
Qed.

Lemma selectCandidateLocked_sticky_witness :
  totalSwitches (selectCandidateLocked Second sample_draws sample_candidates
    (newLBStrategyMDS DefaultMDSParams)).1.1 = 1.
Proof.
  pose proof (selectCandidateLocked_sticky (newLBStrategyMDS DefaultMDSParams) Second sample_draws
    sample_candidates ltac:(discriminate) (fun n Hn => Hn)) as H.
  assert (primaryName (selectCandidateLocked Second sample_draws sample_candidates
    (newLBStrategyMDS DefaultMDSParams)).1.1 <> []) as Hp by (vm_compute; discriminate).
  destruct (selectCandidateLocked _ _ _ _) as [[mds' ms] i]. cbn [fst] in *.
  destruct H as [(H & _)|(H & _)]; [exfalso; apply Hp, H|exact H].
Defined.

(** C39: recovery is always attempted.  When the circuit of some candidate is
    open, no probe of it is in flight and its waiting time is over, the next
    selection among two or more candidates grants a probe: it returns such a
    resolver, the one whose circuit was opened first (the comment on
    [pickHalfOpenProbe] says another one, see [probe_by_opening_time]). *)
Theorem half_open_probe_granted mds now d cs c cb :
  (2 <= length cs)%nat -> draws_ok d ->
  c ∈ cs -> circuits mds !! cand_name c = Some cb ->
  open cb = true -> probing cb = false -> nextProbeAt cb <= now ->
  let '(mds', _, i) := selectCandidateLocked now d cs mds in
  exists c' cb', cs !! i = Some c' /\ circuits mds !! cand_name c' = Some cb' /\
    openedAt cb' <= openedAt cb /\ probe_granted mds mds' now (cand_name c').
Proof.
  intros Hlen Hd Hin Hcb Ho Hpr Hnx. destruct (select_cases mds now d cs Hlen Hd)
    as (mds' & i & -> & Hc).
  destruct (scored_of_cand mds (draw_clock d) cs c Hin) as (s & Hs & Has).
  assert (due mds now s cb) as Hdue.
  { destruct Has as [E1 E2]. split_and!; try done; [|by rewrite E1].
    rewrite E2. unfold circuit_open. by rewrite Hcb. }
  destruct Hc as [i s' c' cb' Hs' Hc' Has' Hdue' Hmin|i s' c' _ _ _ Hno _|i s' c' mds' _ _ _ Hno _ _].
  - exists c', cb'. pose proof (due_open _ _ _ _ _ Hdue' Has').
    destruct Hdue' as (_ & D2 & D3 & D4). pose proof Has' as [E _]. rewrite E in D2.
    split_and!; [done|done|by eapply Hmin|]. exists cb'. split_and!; try done.
    unfold with_circuits. cbn [circuits]. by rewrite lookup_alter_eq, D2.
  - by destruct (Hno s cb Hs).
  - by destruct (Hno s cb Hs).
Qed.

Definition tripped : mdsCircuit :=
  {| consecHardFails := 3; open := true; probing := false; openedAt := Second;
     nextProbeAt := 11 * Second; recoverUntilTotal := 0 |}.
Definition sample_tripped : LBStrategyMDS :=
  with_circuits {[GoStrings.str "a" := tripped]} (newLBStrategyMDS DefaultMDSParams).

Lemma half_open_probe_granted_witness :
  exists c, probe_granted sample_tripped
    (selectCandidateLocked (20 * Second) sample_draws sample_candidates sample_tripped).1.1
    (20 * Second) (cand_name c).
Proof.
  pose proof (half_open_probe_granted sample_tripped (20 * Second) sample_draws sample_candidates
    {| Server := sample_server "a" 30; Metrics_ := NewResolverMetrics |} tripped
    ltac:(simpl; lia) (fun n Hn => Hn) ltac:(by constructor) ltac:(vm_compute; reflexivity)
    eq_refl eq_refl ltac:(vm_compute; discriminate)) as H.
  destruct (selectCandidateLocked _ _ _ _) as [[mds' ms] i].
  destruct H as (c & cb & _ & _ & _ & H). exists c. exact H.
Defined.

(** The comment on [pickHalfOpenProbe] says that the probe goes to the resolver that has
    waited the longest since the time of its next probe.  It goes to the one whose circuit
    was opened first: [a], whose probe has failed at 49 s, is preferred at 60 s to [b],
    which waits since 12 s. *)
Definition failed_probe : mdsCircuit :=
  circuit_feedback DefaultMDSParams (49 * Second)
    {| o_Duration := 0; o_Transport := TransportUnknown; o_Timeout := true; o_Error := false; o_Servfail := false;
       o_DNSSECBogus := false; o_UpstreamTruncated := false; o_LocalTruncated := false; o_TCPFallback := false;
       o_QUICFallback := false; o_ConnReused := false; o_ECSReturned := false |} 50 (set_probing true tripped).

Lemma probe_by_opening_time :
  let a := failed_probe in
  let b := {| consecHardFails := 3; open := true; probing := false; openedAt := 2 * Second;
              nextProbeAt := 12 * Second; recoverUntilTotal := 0 |} in
  let mds := with_circuits {[GoStrings.str "a" := a; GoStrings.str "b" := b]} (newLBStrategyMDS DefaultMDSParams) in
  nextProbeAt b < nextProbeAt a <= 60 * Second /\
  (selectCandidateLocked (60 * Second) sample_draws sample_candidates mds).2 = 0%nat /\
  cand_name <$> sample_candidates !! 0%nat = Some (GoStrings.str "a").
Proof. cbv zeta. split_and!; by vm_compute. Qed.

(** ** Circuits *)

(** What happens to the scheduler between the answers of one resolver: any
    selection, and feedback about the others. *)
Inductive step_without (n : bytes) : LBStrategyMDS -> LBStrategyMDS -> Prop :=
| step_select mds now d cs : draws_ok d ->
    step_without n mds (selectCandidateLocked now d cs mds).1.1
| step_feedback mds now n' o total : n' <> n ->
    step_without n mds (observeFeedbackLocked now n' o total mds).

Lemma select_circuits mds now d cs : draws_ok d ->
  circuits (selectCandidateLocked now d cs mds).1.1 = circuits mds \/
  exists n, probe_granted mds (selectCandidateLocked now d cs mds).1.1 now n /\
    circuits (selectCandidateLocked now d cs mds).1.1 = alter (set_probing true) n (circuits mds).
Proof.
  intros Hd. destruct (decide (2 <= length cs)%nat) as [Hlen|Hlen].
  2:{ left. destruct cs as [|c [|]]; simpl in *; [done| |lia]. apply becomePrimary_keeps. }
  destruct (select_cases mds now d cs Hlen Hd) as (mds' & i & -> & Hc). cbn [fst].
  destruct Hc as [i s c cb Hs Hc Has Hdue _|i s c _ _ _ _ _|i s c mds' _ _ _ _ _ Hm].
  - right. exists (cand_name c). split; [|done]. exists cb.
    pose proof (due_open _ _ _ _ _ Hdue Has). destruct Hdue as (_ & D2 & D3 & D4), Has as [<- _].
    unfold with_circuits. cbn [circuits]. by rewrite lookup_alter_eq, D2.
  - by left.
  - left. destruct Hm as [->|[-> _]]; [done|]. apply becomePrimary_keeps.
Qed.

(** At most one probe of a resolver is in flight.  Once a probe of a
    resolver with an open circuit has been granted, its circuit stays as it is
    whatever else happens, and no selection grants it another probe, until
    feedback about that resolver arrives. *)
Theorem single_probe n mds mds' cb :
  rtc (step_without n) mds mds' ->
  circuits mds !! n = Some cb -> open cb = true -> probing cb = true ->
  circuits mds' !! n = Some cb /\
  forall now d cs, draws_ok d ->
    ~ probe_granted mds' (selectCandidateLocked now d cs mds').1.1 now n.
Proof.
  intros Hrtc Hcb Ho Hp. assert (circuits mds' !! n = Some cb) as Hcb'.
  { induction Hrtc as [|mds mds1 mds2 Hs _ IH]; [done|]. apply IH. clear IH.
    destruct Hs as [mds now d cs Hd|mds now n' o total Hne].
    - destruct (select_circuits mds now d cs Hd) as [->|(n' & (cb' & Hc' & _ & Hp' & _) & ->)]; [done|].
      rewrite lookup_alter_ne; [done|]. intros ->. congruence.
    - unfold observeFeedbackLocked, with_circuits. cbn [circuits]. by rewrite lookup_insert_ne. }
  split; [done|]. intros now d cs Hd (cb' & Hc' & _ & Hp' & _). congruence.
Qed.

Lemma single_probe_witness :
  circuits (observeFeedbackLocked Second (GoStrings.str "b") (sample_outcome Second true) 50
    (with_circuits {[GoStrings.str "a" := set_probing true tripped]} sample_tripped))
    !! GoStrings.str "a" = Some (set_probing true tripped).
Proof.
  eapply (single_probe (GoStrings.str "a")
    (with_circuits {[GoStrings.str "a" := set_probing true tripped]} sample_tripped)).
  - eapply rtc_once. constructor. discriminate.
  - vm_compute. reflexivity.
  - reflexivity.
  - reflexivity.
Defined.

(** [k] answers of a resolver, all hard failures, at times and sample counts
    [ts]. *)
Definition failures (p : MDSParams) (ts : list (Time * ExchangeOutcome * Z)) (cb : mdsCircuit)
    : mdsCircuit :=
  fold_left (fun cb '(now, o, total) => circuit_feedback p now o total cb) ts cb.

Definition hard (o : ExchangeOutcome) : bool := o_Timeout o || o_Error o.

Lemma failures_counting p ts cb :
  open cb = false -> recoverUntilTotal cb <= WarmupSamples p ->
  Forall (fun '(_, o, total) => hard o = true /\ WarmupSamples p <= total) ts ->
  0 <= consecHardFails cb -> consecHardFails cb + len ts < BreakerThreshold p < 2 ^ 32 ->
  failures p ts cb = {| consecHardFails := consecHardFails cb + len ts; open := false;
    probing := probing cb; openedAt := openedAt cb; nextProbeAt := nextProbeAt cb;
    recoverUntilTotal := recoverUntilTotal cb |}.
Proof.
  intros Ho Hr Hts. revert cb Ho Hr.
  induction Hts as [|[[now o] total] ts [Hh Ht] _ IH]; intros cb Ho Hr H0 Hk.
  { simpl. rewrite Z.add_0_r, <-Ho. by destruct cb. }
  rewrite len_cons in *. pose proof (len_nonneg ts).
  change (failures p ((now, o, total) :: ts) cb)
    with (failures p ts (circuit_feedback p now o total cb)).
  replace (circuit_feedback p now o total cb) with
    {| consecHardFails := consecHardFails cb + 1; open := false; probing := probing cb;
       openedAt := openedAt cb; nextProbeAt := nextProbeAt cb;
       recoverUntilTotal := recoverUntilTotal cb |}.
  - rewrite IH by (simpl; try done; lia). simpl. f_equal. lia.
  - unfold circuit_feedback. fold (hard o). rewrite Hh, Ho. cbn [andb negb].
    replace (recoverUntilTotal cb >? total) with false by lia.
    replace (total <? WarmupSamples p) with false by lia.
    unfold uint32. rewrite Z.mod_small by lia.
    by replace (_ >=? BreakerThreshold p) with false by lia.
Qed.

(** The circuit breaker.  On a resolver past its warm-up and outside a
    recovery probation, a closed circuit without earlier failures stays closed
    during [k] consecutive hard failures below the threshold; at the threshold
    it opens, and asks for a first probe one interval later.  A failed probe
    keeps it open for another interval; an answered probe, whatever the answer,
    closes it and starts a probation of as many samples as a warm-up.  Before
    the warm-up is over, failures never open it; an answer always clears the
    count of failures. *)
Theorem circuit_breaker p cb ts now o total :
  open cb = false -> consecHardFails cb = 0 -> recoverUntilTotal cb <= WarmupSamples p ->
  Forall (fun '(_, o, total) => hard o = true /\ WarmupSamples p <= total) ts ->
  1 <= BreakerThreshold p < 2 ^ 32 -> 0 <= WarmupSamples p -> 0 <= total ->
  total + WarmupSamples p < 2 ^ 64 ->
  (len ts < BreakerThreshold p -> open (failures p ts cb) = false) /\
  (len ts = BreakerThreshold p - 1 -> hard o = true -> WarmupSamples p <= total ->
   let cb' := circuit_feedback p now o total (failures p ts cb) in
   open cb' = true /\ probing cb' = false /\ openedAt cb' = now /\
   nextProbeAt cb' = now + HalfOpenInterval p) /\
  (forall c, open c = true -> probing c = true ->
   let c' := circuit_feedback p now o total c in
   if hard o then open c' = true /\ probing c' = false /\ nextProbeAt c' = now + HalfOpenInterval p
   else open c' = false /\ probing c' = false /\
        recoverUntilTotal c' = total + WarmupSamples p) /\
  (forall c, open c = false -> total < WarmupSamples p ->
   open (circuit_feedback p now o total c) = false) /\
  (forall c, hard o = false -> consecHardFails (circuit_feedback p now o total c) = 0).
Proof.
  intros Ho H0 Hr Hts Hthr Hw Ht0 Htot.
  split_and!.
  - intros Hlt. rewrite failures_counting by (try done; lia). done.
  - intros Hlen Hh Hmat. rewrite failures_counting by (try done; lia). rewrite H0.
    unfold circuit_feedback. fold (hard o). rewrite Hh. cbn [andb negb open probing recoverUntilTotal
      consecHardFails].
    replace (recoverUntilTotal cb >? total) with false by lia.
    replace (total <? WarmupSamples p) with false by lia.
    unfold uint32. rewrite Z.mod_small by lia.
    by replace (_ >=? BreakerThreshold p) with true by lia.
  - intros c Hoc Hpc. unfold circuit_feedback. fold (hard o).
    destruct (hard o); rewrite Hoc, Hpc; cbn; [done|]. split_and!; try done.
    unfold uint64. rewrite Z.mod_small; [done|]. lia.
  - intros c Hoc Hlt. unfold circuit_feedback. rewrite Hoc. cbn [andb].
    replace (total <? WarmupSamples p) with true by lia.
    split_ifs; done.
  - intros c Hh. unfold circuit_feedback. fold (hard o). rewrite Hh. split_ifs; done.
Qed.

Lemma circuit_breaker_witness :
  open (failures DefaultMDSParams (replicate 3 (Second, sample_outcome Second true, 50)) zero_circuit)
    = true /\
  open (failures DefaultMDSParams (replicate 2 (Second, sample_outcome Second true, 50)) zero_circuit)
    = false.
Proof.
  assert (Forall (fun '(_, o, total) => hard o = true /\ WarmupSamples DefaultMDSParams <= total)
    (replicate 2 (Second, sample_outcome Second true, 50))) as Hts.
  { repeat constructor; simpl; lia. }
  destruct (circuit_breaker DefaultMDSParams zero_circuit
    (replicate 2 (Second, sample_outcome Second true, 50)) Second (sample_outcome Second true) 50
    eq_refl eq_refl ltac:(simpl; lia) Hts ltac:(simpl; lia) ltac:(simpl; lia) ltac:(lia)
    ltac:(simpl; lia)) as (H1 & H2 & _).
  split; [apply H2; [reflexivity|reflexivity|simpl; lia]|apply H1; reflexivity].
Defined.
