(* ===== verification/Servers.v ===== *)
(** * The server list (src/dnscrypt-proxy/serversInfo.go)

    Registration, refresh, load-balancing strategies, choice of a server,
    choice of a relay, and the slots that serialize the refresh of ODoH keys.
    Every operation is one critical section of the source; random draws, the
    clock and network exchanges are arguments. *)

From S2P Require Import Prelude GoStrings NetIP GoFloat Common Crypto Metrics ServerTypes Mds.

(** ** Stamps and relays *)

Record ServerStamp := {
  st_Proto : Z;
  ServerAddrStr : bytes;
  ProviderName : bytes;
  Path : bytes;
  st_Props : Z;
  st_ServerPk : bytes;
  st_Hashes : list bytes;
}.

#[global] Instance ServerStamp_eq_dec : EqDecision ServerStamp.
Proof. solve_decision. Defined.

Record RegisteredServer := { rs_name : bytes; rs_stamp : ServerStamp; rs_description : bytes }.

(** ** Strategies *)

Inductive LBStrategy :=
| LBStrategyP2
| LBStrategyPN (n : Z)
| LBStrategyPH
| LBStrategyFirst
| LBStrategyRandom
| LBStrategyWP2
| LBMds (mds : LBStrategyMDS).

Definition DefaultLBStrategy : LBStrategy := LBStrategyWP2.

(** [intn] is [rand.Intn]. *)
Definition getCandidate (intn : Z -> Z) (s : LBStrategy) (serversCount : Z) : Z :=
  match s with
  | LBStrategyP2 => intn (Min serversCount 2)
  | LBStrategyPN n => intn (Min serversCount n)
  | LBStrategyPH => intn (go_div (serversCount + 1) 2)
  | LBStrategyFirst => 0
  | LBStrategyRandom => intn serversCount
  | LBStrategyWP2 => if serversCount <=? 1 then 0 else intn serversCount
  | LBMds _ => 0
  end.

Definition getActiveCount (s : LBStrategy) (serversCount : Z) : Z :=
  match s with
  | LBStrategyP2 => Min serversCount 2
  | LBStrategyPN n => Min serversCount n
  | LBStrategyPH => go_div (serversCount + 1) 2
  | LBStrategyFirst => 1
  | LBStrategyRandom => serversCount
  | LBStrategyWP2 => serversCount
  | LBMds _ => serversCount
  end.

Record ServersInfo := {
  inner : list ServerInfo;
  registeredServers : list RegisteredServer;
  registeredRelays : list RegisteredServer;
  lbStrategy : LBStrategy;
  lbEstimator : bool;
  metrics : gmap bytes ResolverMetrics;
  metricsWindow_ : Duration;
  odohRefreshInFlight : gset bytes;
  odohLastFailureAt : gmap bytes Time;
}.

Definition NewServersInfo : ServersInfo :=
  {| inner := []; registeredServers := []; registeredRelays := [];
     lbStrategy := DefaultLBStrategy; lbEstimator := true; metrics := ∅;
     metricsWindow_ := metricsWindow; odohRefreshInFlight := ∅; odohLastFailureAt := ∅ |}.

(** Assignments. *)
Definition set_inner (l : list ServerInfo) (si : ServersInfo) : ServersInfo :=
  {| inner := l; registeredServers := registeredServers si;
     registeredRelays := registeredRelays si; lbStrategy := lbStrategy si;
     lbEstimator := lbEstimator si; metrics := metrics si; metricsWindow_ := metricsWindow_ si;
     odohRefreshInFlight := odohRefreshInFlight si; odohLastFailureAt := odohLastFailureAt si |}.
Definition set_registered (servers relays : list RegisteredServer) (si : ServersInfo) : ServersInfo :=
  {| inner := inner si; registeredServers := servers; registeredRelays := relays;
     lbStrategy := lbStrategy si; lbEstimator := lbEstimator si; metrics := metrics si;
     metricsWindow_ := metricsWindow_ si; odohRefreshInFlight := odohRefreshInFlight si;
     odohLastFailureAt := odohLastFailureAt si |}.
Definition set_scheduler (s : LBStrategy) (m : gmap bytes ResolverMetrics) (si : ServersInfo)
    : ServersInfo :=
  {| inner := inner si; registeredServers := registeredServers si;
     registeredRelays := registeredRelays si; lbStrategy := s; lbEstimator := lbEstimator si;
     metrics := m; metricsWindow_ := metricsWindow_ si;
     odohRefreshInFlight := odohRefreshInFlight si; odohLastFailureAt := odohLastFailureAt si |}.
Definition set_odoh (inFlight : gset bytes) (failures : gmap bytes Time) (si : ServersInfo)
    : ServersInfo :=
  {| inner := inner si; registeredServers := registeredServers si;
     registeredRelays := registeredRelays si; lbStrategy := lbStrategy si;
     lbEstimator := lbEstimator si; metrics := metrics si; metricsWindow_ := metricsWindow_ si;
     odohRefreshInFlight := inFlight; odohLastFailureAt := failures |}.

(** ** Metrics of the servers *)

Definition metricsForLocked (name : bytes) (si : ServersInfo) : ResolverMetrics * ServersInfo :=
  match metrics si !! name with
  | Some m => (m, si)
  | None =>
      let m := NewResolverMetricsWithWindow (metricsWindow_ si) in
      (m, set_scheduler (lbStrategy si) (<[name := m]> (metrics si)) si)
  end.

Definition candidatesLocked (si : ServersInfo) : list ResolverCandidate :=
  (fun server => {| Server := server;
     Metrics_ := default (NewResolverMetricsWithWindow (metricsWindow_ si))
                   (metrics si !! Name_ server) |}) <$> inner si.

(** ** Slots for the refresh of ODoH keys *)

Definition beginODoHRefresh (now : Time) (name : bytes) (failureCooldown : Duration)
    (si : ServersInfo) : bool * ServersInfo :=
  if bool_decide (name ∈ odohRefreshInFlight si) then (false, si)
  else if match odohLastFailureAt si !! name with
          | Some last => time_sub now last <? failureCooldown
          | None => false
          end then (false, si)
  else (true, set_odoh ({[name]} ∪ odohRefreshInFlight si) (odohLastFailureAt si) si).

Definition endODoHRefresh (now : Time) (name : bytes) (success : bool) (si : ServersInfo)
    : ServersInfo :=
  set_odoh (odohRefreshInFlight si ∖ {[name]})
    (if success then delete name (odohLastFailureAt si)
     else <[name := now]> (odohLastFailureAt si)) si.

Definition cancelODoHRefresh (name : bytes) (si : ServersInfo) : ServersInfo :=
  set_odoh (odohRefreshInFlight si ∖ {[name]}) (odohLastFailureAt si) si.

(** ** Registration *)

(** Replaces the first entry with the name, or appends. *)
Fixpoint register (new : RegisteredServer) (l : list RegisteredServer) : list RegisteredServer :=
  match l with
  | [] => [new]
  | old :: l' => if bool_decide (rs_name old = rs_name new) then new :: l'
                 else old :: register new l'
  end.

Definition registerServer (name : bytes) (stamp : ServerStamp) (si : ServersInfo) : ServersInfo :=
  set_registered (register {| rs_name := name; rs_stamp := stamp; rs_description := [] |} (registeredServers si))
    (registeredRelays si) si.

Definition registerRelay (name : bytes) (stamp : ServerStamp) (si : ServersInfo) : ServersInfo :=
  set_registered (registeredServers si)
    (register {| rs_name := name; rs_stamp := stamp; rs_description := [] |} (registeredRelays si)) si.

Fixpoint replace_server (new : ServerInfo) (l : list ServerInfo) : option (list ServerInfo) :=
  match l with
  | [] => None
  | old :: l' => if bool_decide (Name_ old = Name_ new) then Some (new :: l')
                 else cons old <$> replace_server new l'
  end.

Definition RTTEwmaDecay : float := 10%float.

(** [refreshServer] once the information about the server has been fetched:
    [None] is a failed fetch.  The shared key is recomputed with the current
    client key before the server is published. *)
Definition refreshServer `{P : Primitives} (key : ClientKey) (rnd : bytes) (name : bytes)
    (stamp : ServerStamp) (fetched : option ServerInfo) (si : ServersInfo) : bool * ServersInfo :=
  match fetched with
  | None => (false, si)
  | Some newServer =>
      let newServer := set_rtt (ewma.Set_ (ewma.NewMovingAverage RTTEwmaDecay)
                                  (float64 (initialRtt newServer))) newServer in
      let newServer := set_crypto (recomputeServerSharedKeyLocked key rnd (crypto newServer))
                         newServer in
      let '(found, l) := match replace_server newServer (inner si) with
                         | Some l => (true, l)
                         | None => (false, inner si ++ [newServer])
                         end in
      let '(_, si) := metricsForLocked name (set_inner l si) in
      (true, if found then si else registerServer name stamp si)
  end.

(** The sort at the end of [refresh]: stable, by the initial latency. *)
Fixpoint insert_by_rtt (s : ServerInfo) (l : list ServerInfo) : list ServerInfo :=
  match l with
  | [] => [s]
  | s' :: l' => if initialRtt s' <? initialRtt s then s' :: insert_by_rtt s l' else s :: l
  end.
Definition sort_by_initial_rtt (l : list ServerInfo) : list ServerInfo :=
  fold_right insert_by_rtt [] l.

(** ** Order of the servers *)

(** A pass over the list that swaps neighbours out of order. *)
Fixpoint bubble (s : ServerInfo) (l : list ServerInfo) : list ServerInfo :=
  match l with
  | [] => [s]
  | s' :: l' => if (ewma.Value (rtt s') <? ewma.Value (rtt s))%float then s' :: bubble s l'
                else s :: bubble s' l'
  end.
Definition sortByRtt (l : list ServerInfo) : list ServerInfo :=
  match l with [] => [] | s :: l' => bubble s l' end.

Definition swap (i j : nat) (l : list ServerInfo) : list ServerInfo :=
  match l !! i, l !! j with
  | Some a, Some b => <[i := b]> (<[j := a]> l)
  | _, _ => l
  end.

(** [None] is an index out of range. *)
Definition estimatorUpdate (intn : Z -> Z) (currentActive : Z) (si : ServersInfo)
    : option ServersInfo :=
  let serversCount := len (inner si) in
  let activeCount := getActiveCount (lbStrategy si) serversCount in
  if activeCount =? serversCount then Some si
  else
    let candidate := Z.to_nat (intn (serversCount - activeCount) + activeCount) in
    let currentActive := Z.to_nat currentActive in
    match inner si !! candidate, inner si !! currentActive with
    | Some c, Some a =>
        let candidateRtt := ewma.Value (rtt c) in
        let currentActiveRtt := ewma.Value (rtt a) in
        if (currentActiveRtt <? 0)%float then
          Some (set_inner (<[currentActive := set_rtt (ewma.Set_ (rtt a) candidateRtt) a]>
                             (inner si)) si)
        else if (candidateRtt <? currentActiveRtt)%float then
          Some (set_inner (sortByRtt (swap candidate currentActive (inner si))) si)
        else Some si
    | _, _ => None
    end.

Definition best_rtt (l : list ServerInfo) (first : float) : float :=
  fold_left (fun best s => let r := ewma.Value (rtt s) in
                           if (0 <? r)%float && (r <? best)%float then r else best) l first.

Definition needs_recovery (now : Time) (bestRtt : float) (s : ServerInfo) : bool :=
  negb (ewma.Value (rtt s) <=? bestRtt * 4)%float
  && negb (time_sub now (lastActionTS s) <=? Minute)
  && negb (time_sub now (lastDecayTS s) <=? 10 * Second).

Definition recover_server (now : Time) (bestRtt : float) (s : ServerInfo) : ServerInfo :=
  let targetRtt := float64 (initialRtt s) in
  let targetRtt := if (targetRtt <=? 0)%float then bestRtt else targetRtt in
  set_times (lastActionTS s) (lastUpdateTime s) now
    (set_counters 0 0 (set_rtt (ewma.Add (rtt s) targetRtt) s)).

Definition recoverDormantServers (now : Time) (si : ServersInfo) : ServersInfo :=
  match inner si with
  | [] | [_] => si
  | s0 :: _ =>
      let bestRtt := best_rtt (inner si) (ewma.Value (rtt s0)) in
      if (bestRtt <=? 0)%float then si
      else
        let l := (fun s => if needs_recovery now bestRtt s then recover_server now bestRtt s else s)
                   <$> inner si in
        if existsb (needs_recovery now bestRtt) (inner si)
        then set_inner (sortByRtt l) si else set_inner l si
  end.

(** ** Choice of a server *)

Definition calculateServerScore (server : ServerInfo) : float :=
  let r := ewma.Value (rtt server) in
  let r := if (r <=? 0)%float then 1000%float else r in
  let rttScore := (1 - r / 1000)%float in
  let rttScore := if (rttScore <? 0)%float then 0%float else rttScore in
  let successRate :=
    if totalQueries server >? 0
    then (float64 (uint64 (totalQueries server - failedQueries server))
          / float64 (totalQueries server))%float
    else 1%float in
  (rttScore * 0.7 + successRate * 0.3)%float.

(** The random numbers of a choice: [second] is the first draw of the loop that
    differs from [first]. *)
Record lb_draws := {
  intn : Z -> Z;
  wp2_first : Z; wp2_second : Z; wp2_tie : float;
  mds_draws : draws;
}.

Definition getWeightedCandidate (d : lb_draws) (l : list ServerInfo) : option Z :=
  if len l <=? 1 then Some 0
  else
    match l !! Z.to_nat (wp2_first d), l !! Z.to_nat (wp2_second d) with
    | Some server1, Some server2 =>
        let score1 := calculateServerScore server1 in
        let score2 := calculateServerScore server2 in
        if (score2 <? score1)%float then Some (wp2_first d)
        else if (score1 <? score2)%float then Some (wp2_second d)
        else if (wp2_tie d <? 0.5)%float then Some (wp2_first d) else Some (wp2_second d)
    | _, _ => None
    end.

Fixpoint server_index (name : bytes) (l : list ServerInfo) (i : Z) : option Z :=
  match l with
  | [] => None
  | s :: l' => if bool_decide (Name_ s = name) then Some i else server_index name l' (i + 1)
  end.

(** The stores read by the scheduler are those of the map, when they are in it. *)
Definition store_back (cs : list ResolverCandidate) (ms : list ResolverMetrics)
    (m : gmap bytes ResolverMetrics) : gmap bytes ResolverMetrics :=
  fold_left (fun m '(c, store) =>
    if bool_decide (is_Some (m !! Name_ (Server c))) then <[Name_ (Server c) := store]> m else m)
    (zip cs ms) m.

(** [None] is an index out of range, or the nil result of an empty list. *)
Definition getOne (now : Time) (d : lb_draws) (si : ServersInfo)
    : option (ServerInfo * ServersInfo) :=
  if len (inner si) <=? 0 then None
  else
    let si := recoverDormantServers now si in
    '(candidate, si) ←
      match lbStrategy si with
      | LBMds mds =>
          let candidates := candidatesLocked si in
          let '(mds', ms, picked) := selectCandidateLocked now (mds_draws d) candidates mds in
          c ← candidates !! picked;
          let candidate := default 0 (server_index (Name_ (Server c)) (inner si) 0) in
          Some (candidate, set_scheduler (LBMds mds') (store_back candidates ms (metrics si)) si)
      | LBStrategyWP2 =>
          candidate ← getWeightedCandidate d (inner si);
          Some (candidate, si)
      | _ =>
          let candidate := getCandidate (intn d) (lbStrategy si) (len (inner si)) in
          if lbEstimator si
          then si ← estimatorUpdate (intn d) candidate si; Some (candidate, si)
          else Some (candidate, si)
      end;
    server ← inner si !! Z.to_nat candidate;
    Some (server, si).

Definition noticeBegin (now : Time) (s : ServerInfo) : ServerInfo :=
  set_times now (lastUpdateTime s) (lastDecayTS s) s.

Definition serverByNameLocked (name : bytes) (si : ServersInfo) : option ServerInfo :=
  i ← server_index name (inner si) 0; inner si !! Z.to_nat i.

(** ** Relays *)

Definition relayProtoForServerProto (proto : Z) : option Z :=
  if proto =? StampProtoTypeDNSCrypt then Some StampProtoTypeDNSCryptRelay
  else if proto =? StampProtoTypeODoHTarget then Some StampProtoTypeODoHRelay
  else None.

(** [bits.LeadingZeros8]. *)
Definition LeadingZeros8 (x : Z) : Z := if x <=? 0 then 8 else 7 - Z.log2 x.

(** The loop over the bytes of the two addresses. *)
Fixpoint same_prefix_bits (a b : bytes) : Z :=
  match a, b with
  | x :: a', y :: b' =>
      let d := Z.lxor x y in
      LeadingZeros8 d + (if negb (d =? 0) then 0 else same_prefix_bits a' b')
  | _, _ => 0
  end.

(** Number of leading bits a relay's address shares with the server's; [None]
    when the relay cannot be used with it. *)
Definition relay_distance (serverAddr : bytes) (relayStamp : ServerStamp) : option Z :=
  if negb (st_Proto relayStamp =? StampProtoTypeDNSCryptRelay) then None
  else
    let '(relayAddrStr, _) := ExtractHostAndPort (ServerAddrStr relayStamp) 443 in
    relayAddr ← ParseIP relayAddrStr;
    let relayIsIPv6 := negb (bool_decide (is_Some (To4 relayAddr))) in
    let serverIsIPv6 := negb (bool_decide (is_Some (To4 serverAddr))) in
    if negb (Bool.eqb relayIsIPv6 serverIsIPv6) then None
    else
      let firstByte := if relayIsIPv6 then 0%nat else 12%nat in
      Some (same_prefix_bits (drop firstByte serverAddr) (drop firstByte relayAddr)).

(** The indices of the relays that share the fewest bits, so far. *)
Fixpoint farthest_loop (serverAddr : bytes) (relayStamps : list ServerStamp) (relayIdx : nat)
    (bestIdxs : list nat) (bestBits : Z) : list nat * Z :=
  match relayStamps with
  | [] => (bestIdxs, bestBits)
  | relayStamp :: relayStamps' =>
      let '(bestIdxs, bestBits) :=
        match relay_distance serverAddr relayStamp with
        | None => (bestIdxs, bestBits)
        | Some samePrefixBits =>
            if samePrefixBits <? bestBits then ([relayIdx], samePrefixBits)
            else if samePrefixBits =? bestBits then (bestIdxs ++ [relayIdx], bestBits)
            else (bestIdxs, bestBits)
        end in
      farthest_loop serverAddr relayStamps' (S relayIdx) bestIdxs bestBits
  end.

Fixpoint relay_candidates (relayStamps : list ServerStamp) (relayIdx : nat) : list nat :=
  match relayStamps with
  | [] => []
  | relayStamp :: relayStamps' =>
      if st_Proto relayStamp =? StampProtoTypeODoHRelay
      then relayIdx :: relay_candidates relayStamps' (S relayIdx)
      else relay_candidates relayStamps' (S relayIdx)
  end.

Definition findFarthestRoute (pick : nat -> nat) (si : ServersInfo) (name : bytes)
    (relayStamps : list ServerStamp) : option ServerStamp :=
  server ← list_find (fun s => rs_name s = name) (registeredServers si);
  let stamp := rs_stamp server.2 in
  if st_Proto stamp =? StampProtoTypeODoHTarget then
    let candidates := relay_candidates relayStamps 0 in
    if (length candidates =? 0)%nat then None
    else i ← candidates !! pick (length candidates); relayStamps !! i
  else if negb (st_Proto stamp =? StampProtoTypeDNSCrypt) then None
  else
    let '(serverAddrStr, _) := ExtractHostAndPort (ServerAddrStr stamp) 443 in
    serverAddr ← ParseIP serverAddrStr;
    if (length (registeredRelays si) =? 0)%nat then None
    else
      let '(bestRelayIdxs, _) := farthest_loop serverAddr relayStamps 0 [] 128 in
      if (length bestRelayIdxs =? 0)%nat then None
      else i ← bestRelayIdxs !! pick (length bestRelayIdxs); relayStamps !! i.
