(* ===== verification/ServersProps.v ===== *)
(** * Properties of the server list *)

From S2P Require Import Prelude GoStrings NetIP GoFloat Common Crypto Metrics ServerTypes Mds.
From S2P Require Import MetricsProps MdsProps Servers.

(** ** Choice of a server *)

Lemma bubble_perm s l : bubble s l ≡ₚ s :: l.
Proof.
  revert s. induction l as [|s' l IH]; intros s; simpl; [done|].
  destruct (_ <? _)%float; [rewrite IH; constructor|by rewrite IH].
Qed.

Lemma sortByRtt_perm l : sortByRtt l ≡ₚ l.
Proof. destruct l; [done|]. apply bubble_perm. Qed.

Lemma swap_perm i j l : swap i j l ≡ₚ l.
Proof.
  unfold swap. destruct (l !! i) as [a|] eqn:Hi, (l !! j) as [b|] eqn:Hj; try done.
  destruct (decide (i = j)) as [->|Hne].
  - rewrite Hi in Hj. injection Hj as <-. rewrite list_insert_insert_eq, list_insert_id; done.
  - apply Permutation_insert_swap; done.
Qed.

Notation names l := (Name_ <$> l).

(** Everything but the order and the statistics of the servers is kept. *)
Definition same_servers (si si' : ServersInfo) : Prop :=
  names (inner si') ≡ₚ names (inner si) /\ lbStrategy si' = lbStrategy si /\
  lbEstimator si' = lbEstimator si /\ metrics si' = metrics si /\
  metricsWindow_ si' = metricsWindow_ si.

Lemma same_servers_refl si : same_servers si si.
Proof. by split_and!. Qed.

Lemma same_servers_set_inner si l : names l ≡ₚ names (inner si) -> same_servers si (set_inner l si).
Proof. intros H. by split_and!. Qed.

Lemma same_servers_trans a b c : same_servers a b -> same_servers b c -> same_servers a c.
Proof.
  intros (H1 & H2 & H3 & H4 & H5) (K1 & K2 & K3 & K4 & K5). split_and!; [by etrans|congruence..].
Qed.

Lemma same_servers_len si si' : same_servers si si' -> len (inner si') = len (inner si).
Proof.
  intros (H & _). unfold len. rewrite <-!(length_fmap Name_). by rewrite H.
Qed.

Lemma recoverDormantServers_same now si : same_servers si (recoverDormantServers now si).
Proof.
  unfold recoverDormantServers. destruct (inner si) as [|s0 [|s1 l]] eqn:E;
    [apply same_servers_refl..|].
  rewrite <-E. destruct (_ <=? 0)%float; [apply same_servers_refl|].
  assert (forall f, (forall s, Name_ (f s) = Name_ s) ->
    names (f <$> inner si) = names (inner si)) as Hn.
  { intros f Hf. rewrite <-list_fmap_compose. apply list_fmap_ext. intros ? s _. apply Hf. }
  destruct (existsb _ _); apply same_servers_set_inner; rewrite ?sortByRtt_perm, Hn; try done;
    intros s; by destruct (needs_recovery _ _ s).
Qed.

Lemma lookup_len {A} (l : list A) z : 0 <= z < len l -> exists x, l !! Z.to_nat z = Some x.
Proof. unfold len. intros H. apply lookup_lt_is_Some_2. lia. Qed.

Definition lb_draws_ok (d : lb_draws) (count : Z) : Prop :=
  (forall n, 0 < n -> 0 <= intn d n < n) /\ draws_ok (mds_draws d) /\
  (2 <= count -> 0 <= wp2_first d < count /\ 0 <= wp2_second d < count /\
                 wp2_first d <> wp2_second d).

Definition strategy_ok (s : LBStrategy) : Prop :=
  match s with LBStrategyPN n => 1 <= n | _ => True end.

Lemma getActiveCount_range s count : strategy_ok s -> 0 < count ->
  1 <= getActiveCount s count <= count.
Proof.
  intros Hs Hc. destruct s; simpl in *; unfold Min, go_div;
    rewrite ?Z.quot_div_nonneg by lia; try (split_ifs; lia).
  pose proof (Z.div_mod (count + 1) 2 ltac:(lia)). pose proof (Z.mod_pos_bound (count + 1) 2). lia.
Qed.

Lemma getCandidate_range d s count : (forall n, 0 < n -> 0 <= intn d n < n) ->
  strategy_ok s -> 0 < count -> 0 <= getCandidate (intn d) s count < count.
Proof.
  intros Hd Hs Hc. pose proof (getActiveCount_range s count Hs Hc) as Ha.
  destruct s; simpl in *; try lia; try (specialize (Hd _ Hc); lia).
  - specialize (Hd (Min count 2)). lia.
  - specialize (Hd (Min count n)). lia.
  - specialize (Hd (go_div (count + 1) 2)). lia.
  - specialize (Hd _ Hc). split_ifs; lia.
Qed.

Lemma estimatorUpdate_same d active si : (forall n, 0 < n -> 0 <= intn d n < n) ->
  strategy_ok (lbStrategy si) -> 0 <= active < len (inner si) ->
  exists si', estimatorUpdate (intn d) active si = Some si' /\ same_servers si si'.
Proof.
  intros Hd Hs Ha. unfold estimatorUpdate.
  pose proof (getActiveCount_range _ (len (inner si)) Hs ltac:(lia)) as Hac.
  set (ac := getActiveCount _ _) in *. clearbody ac.
  destruct (ac =? len (inner si)) eqn:E; bools; [eauto using same_servers_refl|].
  specialize (Hd (len (inner si) - ac) ltac:(lia)).
  destruct (lookup_len (inner si) (intn d (len (inner si) - ac) + ac) ltac:(lia)) as [c Hc].
  destruct (lookup_len (inner si) active Ha) as [a Haa]. rewrite Hc, Haa.
  destruct (_ <? 0)%float; [|destruct (_ <? _)%float]; [| |eauto using same_servers_refl].
  - eexists. split; [done|]. apply same_servers_set_inner. rewrite list_fmap_insert. cbn [Name_].
    rewrite list_insert_id; [done|]. by rewrite list_lookup_fmap, Haa.
  - eexists. split; [done|]. apply same_servers_set_inner. by rewrite sortByRtt_perm, swap_perm.
Qed.

Lemma server_index_spec n l i0 : match server_index n l i0 with
  | Some i => i0 <= i < i0 + len l /\ exists s, l !! Z.to_nat (i - i0) = Some s /\ Name_ s = n
  | None => forall s, s ∈ l -> Name_ s <> n
  end.
Proof.
  revert i0. induction l as [|s l IH]; intros i0; cbn [server_index].
  { intros s Hin. by apply not_elem_of_nil in Hin. }
  rewrite len_cons. pose proof (len_nonneg l). case_bool_decide as Hn.
  { split; [lia|]. exists s. by rewrite Z.sub_diag. }
  specialize (IH (i0 + 1)). destruct (server_index n l (i0 + 1)) as [i|].
  - destruct IH as (Hi & s' & H1 & H2). split; [lia|]. exists s'. split; [|done].
    by replace (Z.to_nat (i - i0)) with (S (Z.to_nat (i - (i0 + 1)))) by lia.
  - intros s' [->|Hin]%elem_of_cons; [done|by apply IH].
Qed.

(** WP2: of the two servers drawn, one that scores no less than the other. *)
Definition weighted_choice (d : lb_draws) (l : list ServerInfo) (s : ServerInfo) : Prop :=
  exists s1 s2, l !! Z.to_nat (wp2_first d) = Some s1 /\ l !! Z.to_nat (wp2_second d) = Some s2 /\
  (s = s1 /\ (calculateServerScore s1 <? calculateServerScore s2)%float = false \/
   s = s2 /\ (calculateServerScore s2 <? calculateServerScore s1)%float = false).

Lemma getWeightedCandidate_spec d l : l <> [] ->
  (2 <= len l -> 0 <= wp2_first d < len l /\ 0 <= wp2_second d < len l) ->
  exists i s, getWeightedCandidate d l = Some i /\ l !! Z.to_nat i = Some s /\
    (2 <= len l -> weighted_choice d l s).
Proof.
  intros Hne Hd. unfold getWeightedCandidate. destruct (len l <=? 1) eqn:E; bools.
  { destruct l as [|s l]; [done|]. exists 0, s. split_and!; try done. lia. }
  destruct (Hd ltac:(lia)) as [H1 H2].
  destruct (lookup_len l _ H1) as [s1 E1], (lookup_len l _ H2) as [s2 E2]. rewrite E1, E2.
  destruct (calculateServerScore s2 <? calculateServerScore s1)%float eqn:Ea.
  { exists (wp2_first d), s1. split_and!; try done. intros _. exists s1, s2. split_and!; try done.
    left. split; [done|]. by apply ltb_asym. }
  destruct (calculateServerScore s1 <? calculateServerScore s2)%float eqn:Eb.
  { exists (wp2_second d), s2. split_and!; try done. intros _. exists s1, s2.
    split_and!; try done. by right. }
  destruct (_ <? 0.5)%float; [exists (wp2_first d), s1|exists (wp2_second d), s2];
    split_and!; try done; intros _; exists s1, s2; (split_and!; try done); [by left|by right].
Qed.

(** A server is always found.  With at least one live server, and random
    numbers in their ranges, every strategy returns a server of the list:
    no index is ever out of range.  The list keeps the same servers, whatever
    the reordering and the recovery of dormant ones.  Under the default strategy
    the server is one of the two distinct ones drawn, and the other one does not
    score better. *)
Theorem getOne_total now d si :
  inner si <> [] -> lb_draws_ok d (len (inner si)) -> strategy_ok (lbStrategy si) ->
  exists s si', getOne now d si = Some (s, si') /\ s ∈ inner si' /\
    names (inner si') ≡ₚ names (inner si) /\
    (lbStrategy si = LBStrategyWP2 -> 2 <= len (inner si) ->
       inner si' = inner (recoverDormantServers now si) /\ weighted_choice d (inner si') s).
Proof.
  intros Hne (Hd & Hdm & Hw) Hs. unfold getOne.
  assert (0 < len (inner si)) as Hpos.
  { destruct (inner si) as [|? l]; [done|]. rewrite len_cons. pose proof (len_nonneg l). lia. }
  replace (len (inner si) <=? 0) with false by lia.
  pose proof (recoverDormantServers_same now si) as Hsame.
  set (si1 := recoverDormantServers now si) in *. pose proof (same_servers_len _ _ Hsame) as Hlen.
  destruct Hsame as (Hn & Hstr & _). rewrite <-Hstr in Hs |- *. rewrite <-Hlen in *.
  assert (forall i si2, 0 <= i < len (inner si2) -> names (inner si2) ≡ₚ names (inner si1) ->
    lbStrategy si1 <> LBStrategyWP2 ->
    exists s si', (server ← inner si2 !! Z.to_nat i; Some (server, si2)) = Some (s, si') /\
      s ∈ inner si' /\ names (inner si') ≡ₚ names (inner si) /\
      (lbStrategy si1 = LBStrategyWP2 -> 2 <= len (inner si1) ->
       inner si' = inner si1 /\ weighted_choice d (inner si') s)) as Hfin.
  { intros i si2 Hi Hp Hnw. destruct (lookup_len _ _ Hi) as [s E]. rewrite E. exists s, si2.
    split_and!; [done|by eapply list_elem_of_lookup_2|by rewrite Hp|done..]. }
  destruct (lbStrategy si1) as [| n | | | | |mds] eqn:Estr.
  6:{ assert (inner si1 <> []) as Hne1 by (intros E; rewrite E in Hpos; done).
      destruct (getWeightedCandidate_spec d (inner si1) Hne1) as (i & s & -> & Hi & Hwc).
      { intros H2. destruct (Hw H2) as (? & ? & _). done. }
      cbn. rewrite Hi. exists s, si1. split_and!; [done|by eapply list_elem_of_lookup_2|done|].
      intros _ H2. split; [done|by apply Hwc]. }
  6:{ assert (candidatesLocked si1 <> []) as Hc.
      { unfold candidatesLocked. destruct (inner si1); done. }
      pose proof (selectCandidateLocked_some mds now (mds_draws d) (candidatesLocked si1) Hc Hdm) as Hsel.
      destruct (selectCandidateLocked _ _ _ _) as [[mds' ms] picked].
      destruct Hsel as (c & Hpk). rewrite Hpk. cbn.
      assert (exists s, s ∈ inner si1 /\ Name_ s = Name_ (Server c)) as (s & Hs1 & Hs2).
      { unfold candidatesLocked in Hpk. rewrite list_lookup_fmap in Hpk.
        destruct (inner si1 !! picked) as [s|] eqn:E; [|done]. injection Hpk as <-.
        exists s. split; [by eapply list_elem_of_lookup_2|done]. }
      pose proof (server_index_spec (Name_ (Server c)) (inner si1) 0) as Hix.
      destruct (server_index _ _ _) as [i|]; [|by destruct (Hix s)].
      apply (Hfin i (set_scheduler (LBMds mds') _ si1)); [simpl; lia|done|done]. }
  all: pose proof (getCandidate_range d (lbStrategy si1) _ Hd ltac:(by rewrite Estr) Hpos) as Hg;
    rewrite Estr in Hg; set (cand := getCandidate _ _ _) in *; clearbody cand;
    destruct (lbEstimator si1); [|apply (Hfin cand si1); done];
    destruct (estimatorUpdate_same d cand si1 Hd ltac:(by rewrite Estr) Hg) as (si2 & -> & Hsm); cbn;
    apply (Hfin cand si2); [by rewrite (same_servers_len _ _ Hsm)|apply Hsm|done].
Qed.

Definition sample_servers (strategy : LBStrategy) : ServersInfo :=
  set_scheduler strategy ∅ (set_inner [sample_server "a" 30; sample_server "b" 10] NewServersInfo).

Definition sample_lb_draws : lb_draws :=
  {| intn := fun _ => 0; wp2_first := 0; wp2_second := 1; wp2_tie := 0%float;
     mds_draws := sample_draws |}.

Lemma sample_lb_draws_ok : lb_draws_ok sample_lb_draws 2.
Proof. split_and!; [intros n Hn; simpl; lia|intros n Hn; exact Hn|simpl; lia]. Qed.

Lemma getOne_total_witness :
  exists s si', getOne (100 * Second) sample_lb_draws (sample_servers LBStrategyWP2) = Some (s, si')
    /\ weighted_choice sample_lb_draws (inner si') s.
Proof.
  destruct (getOne_total (100 * Second) sample_lb_draws (sample_servers LBStrategyWP2))
    as (s & si' & H1 & _ & _ & H2); [discriminate|exact sample_lb_draws_ok|exact I|].
  exists s, si'. split; [exact H1|]. apply H2; [reflexivity|vm_compute; discriminate].
Defined.

(** ** Refresh of ODoH keys *)

(** The list of the names whose slot is held, with the state of the slots.  A
    slot is given back only by whoever holds it. *)
Inductive odoh_step : ServersInfo * list bytes -> ServersInfo * list bytes -> Prop :=
| odoh_begin si hs now n cooldown ok si' :
    beginODoHRefresh now n cooldown si = (ok, si') ->
    odoh_step (si, hs) (si', if ok then n :: hs else hs)
| odoh_end si hs1 hs2 now n success :
    odoh_step (si, hs1 ++ n :: hs2) (endODoHRefresh now n success si, hs1 ++ hs2)
| odoh_cancel si hs1 hs2 n :
    odoh_step (si, hs1 ++ n :: hs2) (cancelODoHRefresh n si, hs1 ++ hs2).

Definition slots_match (st : ServersInfo * list bytes) : Prop :=
  NoDup st.2 /\ forall n, n ∈ odohRefreshInFlight st.1 <-> n ∈ st.2.

Lemma odoh_step_slots st st' : odoh_step st st' -> slots_match st -> slots_match st'.
Proof.
  assert (forall hs1 hs2 n (fl : gset bytes), NoDup (hs1 ++ n :: hs2) ->
    (forall m, m ∈ fl <-> m ∈ hs1 ++ n :: hs2) ->
    NoDup (hs1 ++ hs2) /\ forall m, m ∈ fl ∖ {[n]} <-> m ∈ hs1 ++ hs2) as Hrel.
  { intros hs1 hs2 n fl Hnd Hfl.
    assert (hs1 ++ n :: hs2 ≡ₚ n :: (hs1 ++ hs2)) as Hp by (by rewrite Permutation_middle).
    rewrite Hp in Hnd. apply NoDup_cons in Hnd as [Hni Hnd]. split; [done|].
    intros m. rewrite elem_of_difference, elem_of_singleton, Hfl, Hp, elem_of_cons.
    split; [tauto|]. intros Hm. split; [tauto|]. intros ->. done. }
  intros Hs [Hnd Hfl]. destruct Hs as [si hs now n cd ok si' H|si hs1 hs2 now n success|si hs1 hs2 n].
  - unfold beginODoHRefresh in H. case_bool_decide as Hin; [by injection H as <- <-|].
    destruct (match odohLastFailureAt si !! n with Some _ => _ | None => _ end); injection H as <- <-;
      [done|]. cbn [fst snd] in *. split.
    + constructor; [|done]. by rewrite <-Hfl.
    + intros m. unfold set_odoh. cbn [odohRefreshInFlight fst snd].
      rewrite elem_of_union, elem_of_singleton, Hfl, elem_of_cons. done.
  - apply (Hrel hs1 hs2 n); done.
  - apply (Hrel hs1 hs2 n); done.
Qed.

(** The refresh of an ODoH key is exclusive and throttled.  However the
    calls of concurrent queries interleave, no two of them hold the refresh slot
    of the same server, and the slot is marked as taken exactly while it is
    held.  After a failed refresh, no slot is granted before the cooldown is
    over; after a successful one, it may be taken again at once. *)
Theorem odoh_refresh_exclusive si hs n now now' cooldown :
  rtc odoh_step (NewServersInfo, []) (si, hs) ->
  NoDup hs /\
  (n ∈ hs -> (beginODoHRefresh now' n cooldown si).1 = false) /\
  (time_sub now' now < cooldown ->
   (beginODoHRefresh now' n cooldown (endODoHRefresh now n false si)).1 = false) /\
  (beginODoHRefresh now' n cooldown (endODoHRefresh now n true si)).1 = true.
Proof.
  intros Hr. assert (slots_match (si, hs)) as [Hnd Hfl].
  { assert (slots_match (NewServersInfo, [])) as H0 by (split; [constructor|set_solver]).
    induction Hr; [done|]. eauto using odoh_step_slots. }
  cbn [fst snd] in *. split_and!.
  - done.
  - intros Hin. unfold beginODoHRefresh. by rewrite bool_decide_true by (by apply Hfl).
  - intros Hlt. unfold beginODoHRefresh, endODoHRefresh, set_odoh.
    cbn [odohRefreshInFlight odohLastFailureAt]. rewrite bool_decide_false by set_solver.
    rewrite lookup_insert_eq. by replace (_ <? cooldown) with true by lia.
  - unfold beginODoHRefresh, endODoHRefresh, set_odoh.
    cbn [odohRefreshInFlight odohLastFailureAt]. rewrite bool_decide_false by set_solver.
    by rewrite lookup_delete_eq.
Qed.

Lemma odoh_refresh_exclusive_witness :
  let si := (beginODoHRefresh Second (str "a") Second NewServersInfo).2 in
  (beginODoHRefresh Second (str "a") Second si).1 = false.
Proof.
  assert (rtc odoh_step (NewServersInfo, [])
    ((beginODoHRefresh Second (str "a") Second NewServersInfo).2, [str "a"])) as H.
  { eapply rtc_once, (odoh_begin NewServersInfo [] Second (str "a") Second true). reflexivity. }
  apply (odoh_refresh_exclusive _ _ (str "a") Second Second Second H). constructor.
Defined.

(** ** Relays *)

Lemma LeadingZeros8_le x : LeadingZeros8 x <= 8.
Proof. unfold LeadingZeros8. split_ifs; [lia|]. pose proof (Z.log2_nonneg x). lia. Qed.

Lemma same_prefix_bits_le a b : same_prefix_bits a b <= 8 * len a.
Proof.
  revert b. induction a as [|x a IH]; intros [|y b]; cbn [same_prefix_bits]; rewrite ?len_cons;
    try (pose proof (len_nonneg a)); try (unfold len; simpl; lia).
  pose proof (LeadingZeros8_le (Z.lxor x y)). specialize (IH b). split_ifs; lia.
Qed.

Lemma relay_distance_le addr st d : len addr <= 16 -> relay_distance addr st = Some d -> d <= 128.
Proof.
  intros Hl. unfold relay_distance. destruct (negb _); [done|].
  destruct (ExtractHostAndPort _ _) as [h p]. intros H.
  destruct (ParseIP h) as [ra|]; [|done]. cbn in H. destruct (negb (Bool.eqb _ _)); [done|].
  injection H as <-. set (k := if negb (bool_decide (is_Some (To4 ra))) then 0%nat else 12%nat).
  pose proof (same_prefix_bits_le (drop k addr) (drop k ra)).
  assert (len (drop k addr) <= len addr) by (unfold len; rewrite length_drop; lia). lia.
Qed.

Lemma farthest_loop_spec addr stamps i0 idxs bits : len addr <= 16 -> bits <= 128 ->
  let '(idxs', bits') := farthest_loop addr stamps i0 idxs bits in
  bits' <= bits /\
  (forall st d, st ∈ stamps -> relay_distance addr st = Some d -> bits' <= d) /\
  (forall i, i ∈ idxs' -> (i ∈ idxs /\ bits' = bits) \/
     ((i0 <= i)%nat /\ exists st, stamps !! (i - i0)%nat = Some st /\
      relay_distance addr st = Some bits')) /\
  (idxs' = [] -> idxs = [] /\ (bits = 128 -> forall st, st ∈ stamps -> relay_distance addr st = None)).
Proof.
  intros Hl. revert i0 idxs bits. induction stamps as [|st stamps IH]; intros i0 idxs bits Hb;
    cbn [farthest_loop].
  { split_and!; [lia|intros ?? Hin; by apply not_elem_of_nil in Hin|by left|].
    intros ->. split; [done|]. intros _ ? Hin. by apply not_elem_of_nil in Hin. }
  assert (forall i st', stamps !! (i - S i0)%nat = Some st' -> (S i0 <= i)%nat ->
    (st :: stamps) !! (i - i0)%nat = Some st') as Hshift.
  { intros i s' H Hi. by replace (i - i0)%nat with (S (i - S i0)) by lia. }
  destruct (relay_distance addr st) as [d|] eqn:Ed.
  2:{ specialize (IH (S i0) idxs bits Hb). destruct (farthest_loop _ _ _ _ _) as [idxs' bits'].
      destruct IH as (H1 & H2 & H3 & H4). split_and!; [done| | |].
      - intros st' d' [->|Hin]%elem_of_cons Hd'; [congruence|by eapply H2].
      - intros i Hi. destruct (H3 i Hi) as [?|(? & st' & ? & ?)]; [by left|right].
        split; [lia|]. exists st'. split; [by apply Hshift|done].
      - intros He. destruct (H4 He) as [? H5]. split; [done|].
        intros Hb' st' [->|Hin]%elem_of_cons; [done|by apply H5]. }
  pose proof (relay_distance_le _ _ _ Hl Ed) as Hd.
  set (step := if d <? bits then ([i0], d) else if d =? bits then (idxs ++ [i0], bits) else (idxs, bits)).
  assert (exists idxs1 bits1, step = (idxs1, bits1) /\ bits1 <= bits /\ bits1 <= d /\ bits1 <= 128 /\
    (forall i, i ∈ idxs1 -> (i ∈ idxs /\ bits1 = bits) \/ (i = i0 /\ bits1 = d)) /\
    (idxs1 = [] -> idxs = [] /\ bits <> 128)) as (idxs1 & bits1 & -> & B1 & B2 & B3 & B4 & B5).
  { unfold step. destruct (d <? bits) eqn:E1; [|destruct (d =? bits) eqn:E2]; bools;
      do 2 eexists; (split; [done|]); split_and!; try lia; try done.
    - intros i ->%list_elem_of_singleton. by right.
    - intros i [?| ->%list_elem_of_singleton]%elem_of_app; [by left|by right].
    - intros He. by destruct idxs.
    - intros i ?. by left.
    - intros He. split; [done|lia]. }
  specialize (IH (S i0) idxs1 bits1 B3). destruct (farthest_loop _ _ _ _ _) as [idxs' bits'].
  destruct IH as (H1 & H2 & H3 & H4). split_and!; [lia| | |].
  - intros st' d' [->|Hin]%elem_of_cons Hd'; [assert (d' = d) by congruence; lia|by eapply H2].
  - intros i Hi. destruct (H3 i Hi) as [[Hi1 He]|(Hge & st' & ? & ?)].
    + destruct (B4 i Hi1) as [[? ?]|[-> ?]]; [left; split; [done|lia]|right].
      split; [lia|]. exists st. rewrite Nat.sub_diag. split; [done|congruence].
    + right. split; [lia|]. exists st'. split; [by apply Hshift|done].
  - intros He. destruct (H4 He) as [He1 _]. destruct (B5 He1) as [He2 Hne]. split; [done|].
    intros ?. done.
Qed.

Lemma relay_candidates_spec stamps i0 i : i ∈ relay_candidates stamps i0 ->
  (i0 <= i)%nat /\ exists st, stamps !! (i - i0)%nat = Some st /\ st_Proto st = StampProtoTypeODoHRelay.
Proof.
  revert i0. induction stamps as [|st stamps IH]; intros i0; cbn [relay_candidates].
  { intros H. by apply not_elem_of_nil in H. }
  assert (i ∈ relay_candidates stamps (S i0) -> (i0 <= i)%nat /\ exists st', 
    (st :: stamps) !! (i - i0)%nat = Some st' /\ st_Proto st' = StampProtoTypeODoHRelay) as Hrec.
  { intros H. destruct (IH _ H) as (Hi & st' & H1 & H2). split; [lia|]. exists st'.
    by replace (i - i0)%nat with (S (i - S i0)) by lia. }
  destruct (st_Proto st =? StampProtoTypeODoHRelay) eqn:E; [|done]. bools.
  intros [->|Hin]%elem_of_cons; [|by apply Hrec]. split; [lia|]. exists st. by rewrite Nat.sub_diag.
Qed.

(** The relay for a server.  When the relays are chosen by distance, the
    relay returned is one of those offered, of the kind the server's protocol
    needs.  For DNSCrypt it has an address of the same family as the server's,
    and no relay offered shares fewer leading address bits with the server; and
    if there is no relay, none of those offered was usable. *)
Theorem findFarthestRoute_farthest pick si name stamps i server :
  (forall n, (0 < n)%nat -> (pick n < n)%nat) ->
  list_find (fun s => rs_name s = name) (registeredServers si) = Some (i, server) ->
  registeredRelays si <> [] ->
  match findFarthestRoute pick si name stamps with
  | Some r => r ∈ stamps /\
      (st_Proto (rs_stamp server) = StampProtoTypeODoHTarget /\ st_Proto r = StampProtoTypeODoHRelay \/
       st_Proto (rs_stamp server) = StampProtoTypeDNSCrypt /\
       exists addr d, ParseIP (ExtractHostAndPort (ServerAddrStr (rs_stamp server)) 443).1 = Some addr /\
         relay_distance addr r = Some d /\
         forall r' d', r' ∈ stamps -> relay_distance addr r' = Some d' -> d <= d')
  | None => st_Proto (rs_stamp server) = StampProtoTypeDNSCrypt ->
      forall addr, ParseIP (ExtractHostAndPort (ServerAddrStr (rs_stamp server)) 443).1 = Some addr ->
      forall r', r' ∈ stamps -> relay_distance addr r' = None
  end.
Proof.
  intros Hpick Hs Hr. unfold findFarthestRoute. rewrite Hs. cbn.
  assert (forall l : list nat, l <> [] -> exists k, l !! pick (length l) = Some k /\ k ∈ l) as Hp.
  { intros l Hl. destruct (lookup_lt_is_Some_2 l (pick (length l))) as [k Hk].
    - apply Hpick. destruct l; [done|simpl; lia].
    - exists k. split; [done|by eapply list_elem_of_lookup_2]. }
  destruct (st_Proto (rs_stamp server) =? StampProtoTypeODoHTarget) eqn:E1; bools.
  { destruct (Nat.eqb_spec (length (relay_candidates stamps 0)) 0) as [|Hne].
    { rewrite E1. done. }
    destruct (Hp (relay_candidates stamps 0)) as (k & -> & Hk); [intros Hn; by rewrite Hn in Hne|].
    destruct (relay_candidates_spec _ _ _ Hk) as (_ & st & Hst & Hpr).
    rewrite Nat.sub_0_r in Hst. cbn. rewrite Hst. split; [by eapply list_elem_of_lookup_2|].
    by left. }
  destruct (st_Proto (rs_stamp server) =? StampProtoTypeDNSCrypt) eqn:E2; bools; cbn [negb]; [|done].
  destruct (ExtractHostAndPort _ _) as [h p]. cbn [fst].
  destruct (ParseIP h) as [addr|] eqn:Ea; cbn; [|done].
  destruct (Nat.eqb_spec (length (registeredRelays si)) 0) as [Hz|_];
    [by apply length_zero_iff_nil in Hz|].
  pose proof (farthest_loop_spec addr stamps 0 [] 128) as Hf.
  destruct (farthest_loop addr stamps 0 [] 128) as [idxs bits].
  destruct Hf as (H1 & H2 & H3 & H4);
    [unfold len; rewrite (ParseIP_length _ _ Ea); lia|lia|].
  destruct (Nat.eqb_spec (length idxs) 0) as [Hz|Hne].
  { apply length_zero_iff_nil in Hz. destruct (H4 Hz) as [_ H5]. intros _ a [= <-]. by apply H5. }
  destruct (Hp idxs) as (k & -> & Hk); [by intros ->|]. cbn.
  destruct (H3 k Hk) as [[Hin _]|(_ & st & Hst & Hd)]; [by apply not_elem_of_nil in Hin|].
  rewrite Nat.sub_0_r in Hst. rewrite Hst. split; [by eapply list_elem_of_lookup_2|]. right.
  split; [done|]. exists addr, bits. by split_and!.
Qed.

Definition sample_stamp (p : Z) (addr : string) : ServerStamp :=
  {| st_Proto := p; ServerAddrStr := str addr; ProviderName := []; Path := []; st_Props := 0;
     st_ServerPk := []; st_Hashes := [] |}.
Definition sample_relays : list ServerStamp :=
  [sample_stamp StampProtoTypeDNSCryptRelay "10.0.0.9:443";
   sample_stamp StampProtoTypeDNSCryptRelay "192.0.2.1:443"].
Definition sample_routing : ServersInfo :=
  registerRelay (str "r") (sample_stamp StampProtoTypeDNSCryptRelay "10.0.0.9:443")
    (registerServer (str "s") (sample_stamp StampProtoTypeDNSCrypt "10.0.0.1:443") NewServersInfo).

Lemma findFarthestRoute_farthest_witness :
  findFarthestRoute (fun _ => 0%nat) sample_routing (str "s") sample_relays
    = Some (sample_stamp StampProtoTypeDNSCryptRelay "192.0.2.1:443") /\
  sample_stamp StampProtoTypeDNSCryptRelay "192.0.2.1:443" ∈ sample_relays.
Proof.
  pose proof (findFarthestRoute_farthest (fun _ => 0%nat) sample_routing (str "s") sample_relays 0
    {| rs_name := str "s"; rs_stamp := sample_stamp StampProtoTypeDNSCrypt "10.0.0.1:443"; rs_description := [] |}
    (fun n Hn => Hn) ltac:(vm_compute; reflexivity) ltac:(discriminate)) as H.
  assert (findFarthestRoute (fun _ => 0%nat) sample_routing (str "s") sample_relays
    = Some (sample_stamp StampProtoTypeDNSCryptRelay "192.0.2.1:443")) as E
    by (vm_compute; reflexivity).
  rewrite E in H. split; [exact E|]. destruct H as [H _]. exact H.
Defined.

(** An IPv6 address is written in brackets in a stamp, and the brackets are not
    removed before the address is parsed: there is never a farthest relay for a
    server with an IPv6 address. *)
Lemma ParseIP_bracket s : ParseIP (91 :: s) = None.
Proof.
  unfold ParseIP. change (first_separator (91 :: s)) with (first_separator s).
  destruct (first_separator s) as [c|]; [|done].
  destruct (decide (c = 46)) as [->|H46].
  { unfold parseIPv4Fields. cbn [Split]. destruct (Split s 46) as [|h t]; [done|].
    by destruct t as [|b [|d [|e [|]]]]. }
  destruct (decide (c = 58)) as [->|H58]; [|by repeat (case_match; try done)].
  case_bool_decide; [done|]. unfold parseIPv6. change (HasPrefix (91 :: s) [58; 58]) with false. cbv beta iota.
  by rewrite bool_decide_false by (intros [? _]; discriminate).
Qed.

Lemma findFarthestRoute_IPv6_none pick si name stamps i server s :
  list_find (fun s => rs_name s = name) (registeredServers si) = Some (i, server) ->
  st_Proto (rs_stamp server) = StampProtoTypeDNSCrypt ->
  (ExtractHostAndPort (ServerAddrStr (rs_stamp server)) 443).1 = 91 :: s ->
  findFarthestRoute pick si name stamps = None.
Proof.
  intros Hs Hp Ha. unfold findFarthestRoute. rewrite Hs. cbn. rewrite Hp. cbn.
  destruct (ExtractHostAndPort _ _) as [h p]. cbn [fst] in Ha. subst h.
  by rewrite ParseIP_bracket.
Qed.

Example findFarthestRoute_IPv6 :
  ExtractHostAndPort (str "[2001:db8::1]:443") 443 = (str "[2001:db8::1]", 443).
Proof. reflexivity. Qed.
