(* ===== verification/Plugins.v ===== *)
(** * The plugin pipeline (src/dnscrypt-proxy/plugins.go)

    The state of a query, the chains of plugins and what they are applied to.
    A plugin is a function on the state of the rest of the proxy ([W]: caches,
    rules, files), the state of the query and the message; it may fail.  The two
    entries of [sessionData] that the plugins use are fields of the state.

    [questionMsg] points to the message the query plugins edit: it is kept equal
    to that message while they run. *)

From S2P Require Import Prelude GoStrings NetIP Common Crypto Dns DnsUtils Metrics.

Inductive PluginsAction :=
| PluginsActionNone | PluginsActionContinue | PluginsActionDrop
| PluginsActionReject | PluginsActionSynth.

#[global] Instance PluginsAction_eq_dec : EqDecision PluginsAction.
Proof. solve_decision. Defined.

Inductive PluginsReturnCode :=
| PluginsReturnCodePass | PluginsReturnCodeForward | PluginsReturnCodeDrop
| PluginsReturnCodeReject | PluginsReturnCodeSynth | PluginsReturnCodeParseError
| PluginsReturnCodeNXDomain | PluginsReturnCodeResponseError | PluginsReturnCodeServFail
| PluginsReturnCodeNetworkError | PluginsReturnCodeCloak | PluginsReturnCodeServerTimeout
| PluginsReturnCodeNotReady.

#[global] Instance PluginsReturnCode_eq_dec : EqDecision PluginsReturnCode.
Proof. solve_decision. Defined.

Inductive client_proto := client_udp | client_tcp | client_local_doh | client_trampoline.

#[global] Instance client_proto_eq_dec : EqDecision client_proto.
Proof. solve_decision. Defined.

Record PluginsState := {
  requestStart : Time;
  requestEnd : Time;
  clientProto : client_proto;
  serverName : bytes;
  relayName : bytes;
  serverProto : proto;
  qName : bytes;
  clientAddr : option bytes;
  synthResponse : option Msg;
  questionMsg : option Msg;
  whitelisted : bool;
  stale : option Msg;
  action : PluginsAction;
  ps_timeout : Duration;
  returnCode : PluginsReturnCode;
  maxPayloadSize : Z;
  originalMaxPayloadSize : Z;
  maxUnencryptedUDPSafePayloadSize : Z;
  rejectTTL : Z;
  cacheMaxTTL : Z;
  cacheNegMaxTTL : Z;
  cacheNegMinTTL : Z;
  cacheMinTTL : Z;
  cacheHit : bool;
  dnssec : bool;
  exchange : ExchangeOutcome;
  exchangeStart : Time;
}.

Definition set_synthResponse (v : option Msg) (ps : PluginsState) : PluginsState :=
  {| requestStart := requestStart ps; requestEnd := requestEnd ps;
     clientProto := clientProto ps; serverName := serverName ps; relayName := relayName ps;
     serverProto := serverProto ps; qName := qName ps; clientAddr := clientAddr ps;
     synthResponse := v; questionMsg := questionMsg ps; whitelisted := whitelisted ps;
     stale := stale ps; action := action ps; ps_timeout := ps_timeout ps;
     returnCode := returnCode ps; maxPayloadSize := maxPayloadSize ps;
     originalMaxPayloadSize := originalMaxPayloadSize ps;
     maxUnencryptedUDPSafePayloadSize := maxUnencryptedUDPSafePayloadSize ps;
     rejectTTL := rejectTTL ps; cacheMaxTTL := cacheMaxTTL ps;
     cacheNegMaxTTL := cacheNegMaxTTL ps; cacheNegMinTTL := cacheNegMinTTL ps;
     cacheMinTTL := cacheMinTTL ps; cacheHit := cacheHit ps; dnssec := dnssec ps;
     exchange := exchange ps; exchangeStart := exchangeStart ps |}.

Definition set_questionMsg (v : option Msg) (ps : PluginsState) : PluginsState :=
  {| requestStart := requestStart ps; requestEnd := requestEnd ps;
     clientProto := clientProto ps; serverName := serverName ps; relayName := relayName ps;
     serverProto := serverProto ps; qName := qName ps; clientAddr := clientAddr ps;
     synthResponse := synthResponse ps; questionMsg := v; whitelisted := whitelisted ps;
     stale := stale ps; action := action ps; ps_timeout := ps_timeout ps;
     returnCode := returnCode ps; maxPayloadSize := maxPayloadSize ps;
     originalMaxPayloadSize := originalMaxPayloadSize ps;
     maxUnencryptedUDPSafePayloadSize := maxUnencryptedUDPSafePayloadSize ps;
     rejectTTL := rejectTTL ps; cacheMaxTTL := cacheMaxTTL ps;
     cacheNegMaxTTL := cacheNegMaxTTL ps; cacheNegMinTTL := cacheNegMinTTL ps;
     cacheMinTTL := cacheMinTTL ps; cacheHit := cacheHit ps; dnssec := dnssec ps;
     exchange := exchange ps; exchangeStart := exchangeStart ps |}.

Definition set_whitelisted (v : bool) (ps : PluginsState) : PluginsState :=
  {| requestStart := requestStart ps; requestEnd := requestEnd ps;
     clientProto := clientProto ps; serverName := serverName ps; relayName := relayName ps;
     serverProto := serverProto ps; qName := qName ps; clientAddr := clientAddr ps;
     synthResponse := synthResponse ps; questionMsg := questionMsg ps; whitelisted := v;
     stale := stale ps; action := action ps; ps_timeout := ps_timeout ps;
     returnCode := returnCode ps; maxPayloadSize := maxPayloadSize ps;
     originalMaxPayloadSize := originalMaxPayloadSize ps;
     maxUnencryptedUDPSafePayloadSize := maxUnencryptedUDPSafePayloadSize ps;
     rejectTTL := rejectTTL ps; cacheMaxTTL := cacheMaxTTL ps;
     cacheNegMaxTTL := cacheNegMaxTTL ps; cacheNegMinTTL := cacheNegMinTTL ps;
     cacheMinTTL := cacheMinTTL ps; cacheHit := cacheHit ps; dnssec := dnssec ps;
     exchange := exchange ps; exchangeStart := exchangeStart ps |}.

Definition set_stale (v : option Msg) (ps : PluginsState) : PluginsState :=
  {| requestStart := requestStart ps; requestEnd := requestEnd ps;
     clientProto := clientProto ps; serverName := serverName ps; relayName := relayName ps;
     serverProto := serverProto ps; qName := qName ps; clientAddr := clientAddr ps;
     synthResponse := synthResponse ps; questionMsg := questionMsg ps;
     whitelisted := whitelisted ps; stale := v; action := action ps;
     ps_timeout := ps_timeout ps; returnCode := returnCode ps;
     maxPayloadSize := maxPayloadSize ps;
     originalMaxPayloadSize := originalMaxPayloadSize ps;
     maxUnencryptedUDPSafePayloadSize := maxUnencryptedUDPSafePayloadSize ps;
     rejectTTL := rejectTTL ps; cacheMaxTTL := cacheMaxTTL ps;
     cacheNegMaxTTL := cacheNegMaxTTL ps; cacheNegMinTTL := cacheNegMinTTL ps;
     cacheMinTTL := cacheMinTTL ps; cacheHit := cacheHit ps; dnssec := dnssec ps;
     exchange := exchange ps; exchangeStart := exchangeStart ps |}.

Definition set_action (v : PluginsAction) (ps : PluginsState) : PluginsState :=
  {| requestStart := requestStart ps; requestEnd := requestEnd ps;
     clientProto := clientProto ps; serverName := serverName ps; relayName := relayName ps;
     serverProto := serverProto ps; qName := qName ps; clientAddr := clientAddr ps;
     synthResponse := synthResponse ps; questionMsg := questionMsg ps;
     whitelisted := whitelisted ps; stale := stale ps; action := v;
     ps_timeout := ps_timeout ps; returnCode := returnCode ps;
     maxPayloadSize := maxPayloadSize ps;
     originalMaxPayloadSize := originalMaxPayloadSize ps;
     maxUnencryptedUDPSafePayloadSize := maxUnencryptedUDPSafePayloadSize ps;
     rejectTTL := rejectTTL ps; cacheMaxTTL := cacheMaxTTL ps;
     cacheNegMaxTTL := cacheNegMaxTTL ps; cacheNegMinTTL := cacheNegMinTTL ps;
     cacheMinTTL := cacheMinTTL ps; cacheHit := cacheHit ps; dnssec := dnssec ps;
     exchange := exchange ps; exchangeStart := exchangeStart ps |}.

Definition set_returnCode (v : PluginsReturnCode) (ps : PluginsState) : PluginsState :=
  {| requestStart := requestStart ps; requestEnd := requestEnd ps;
     clientProto := clientProto ps; serverName := serverName ps; relayName := relayName ps;
     serverProto := serverProto ps; qName := qName ps; clientAddr := clientAddr ps;
     synthResponse := synthResponse ps; questionMsg := questionMsg ps;
     whitelisted := whitelisted ps; stale := stale ps; action := action ps;
     ps_timeout := ps_timeout ps; returnCode := v; maxPayloadSize := maxPayloadSize ps;
     originalMaxPayloadSize := originalMaxPayloadSize ps;
     maxUnencryptedUDPSafePayloadSize := maxUnencryptedUDPSafePayloadSize ps;
     rejectTTL := rejectTTL ps; cacheMaxTTL := cacheMaxTTL ps;
     cacheNegMaxTTL := cacheNegMaxTTL ps; cacheNegMinTTL := cacheNegMinTTL ps;
     cacheMinTTL := cacheMinTTL ps; cacheHit := cacheHit ps; dnssec := dnssec ps;
     exchange := exchange ps; exchangeStart := exchangeStart ps |}.

Definition set_maxPayloadSize (v : Z) (ps : PluginsState) : PluginsState :=
  {| requestStart := requestStart ps; requestEnd := requestEnd ps;
     clientProto := clientProto ps; serverName := serverName ps; relayName := relayName ps;
     serverProto := serverProto ps; qName := qName ps; clientAddr := clientAddr ps;
     synthResponse := synthResponse ps; questionMsg := questionMsg ps;
     whitelisted := whitelisted ps; stale := stale ps; action := action ps;
     ps_timeout := ps_timeout ps; returnCode := returnCode ps; maxPayloadSize := v;
     originalMaxPayloadSize := originalMaxPayloadSize ps;
     maxUnencryptedUDPSafePayloadSize := maxUnencryptedUDPSafePayloadSize ps;
     rejectTTL := rejectTTL ps; cacheMaxTTL := cacheMaxTTL ps;
     cacheNegMaxTTL := cacheNegMaxTTL ps; cacheNegMinTTL := cacheNegMinTTL ps;
     cacheMinTTL := cacheMinTTL ps; cacheHit := cacheHit ps; dnssec := dnssec ps;
     exchange := exchange ps; exchangeStart := exchangeStart ps |}.

Definition set_originalMaxPayloadSize (v : Z) (ps : PluginsState) : PluginsState :=
  {| requestStart := requestStart ps; requestEnd := requestEnd ps;
     clientProto := clientProto ps; serverName := serverName ps; relayName := relayName ps;
     serverProto := serverProto ps; qName := qName ps; clientAddr := clientAddr ps;
     synthResponse := synthResponse ps; questionMsg := questionMsg ps;
     whitelisted := whitelisted ps; stale := stale ps; action := action ps;
     ps_timeout := ps_timeout ps; returnCode := returnCode ps;
     maxPayloadSize := maxPayloadSize ps; originalMaxPayloadSize := v;
     maxUnencryptedUDPSafePayloadSize := maxUnencryptedUDPSafePayloadSize ps;
     rejectTTL := rejectTTL ps; cacheMaxTTL := cacheMaxTTL ps;
     cacheNegMaxTTL := cacheNegMaxTTL ps; cacheNegMinTTL := cacheNegMinTTL ps;
     cacheMinTTL := cacheMinTTL ps; cacheHit := cacheHit ps; dnssec := dnssec ps;
     exchange := exchange ps; exchangeStart := exchangeStart ps |}.

Definition set_maxUnencryptedUDPSafePayloadSize (v : Z) (ps : PluginsState) : PluginsState :=
  {| requestStart := requestStart ps; requestEnd := requestEnd ps;
     clientProto := clientProto ps; serverName := serverName ps; relayName := relayName ps;
     serverProto := serverProto ps; qName := qName ps; clientAddr := clientAddr ps;
     synthResponse := synthResponse ps; questionMsg := questionMsg ps;
     whitelisted := whitelisted ps; stale := stale ps; action := action ps;
     ps_timeout := ps_timeout ps; returnCode := returnCode ps;
     maxPayloadSize := maxPayloadSize ps;
     originalMaxPayloadSize := originalMaxPayloadSize ps;
     maxUnencryptedUDPSafePayloadSize := v; rejectTTL := rejectTTL ps;
     cacheMaxTTL := cacheMaxTTL ps; cacheNegMaxTTL := cacheNegMaxTTL ps;
     cacheNegMinTTL := cacheNegMinTTL ps; cacheMinTTL := cacheMinTTL ps;
     cacheHit := cacheHit ps; dnssec := dnssec ps; exchange := exchange ps;
     exchangeStart := exchangeStart ps |}.

Definition set_cacheHit (v : bool) (ps : PluginsState) : PluginsState :=
  {| requestStart := requestStart ps; requestEnd := requestEnd ps;
     clientProto := clientProto ps; serverName := serverName ps; relayName := relayName ps;
     serverProto := serverProto ps; qName := qName ps; clientAddr := clientAddr ps;
     synthResponse := synthResponse ps; questionMsg := questionMsg ps;
     whitelisted := whitelisted ps; stale := stale ps; action := action ps;
     ps_timeout := ps_timeout ps; returnCode := returnCode ps;
     maxPayloadSize := maxPayloadSize ps;
     originalMaxPayloadSize := originalMaxPayloadSize ps;
     maxUnencryptedUDPSafePayloadSize := maxUnencryptedUDPSafePayloadSize ps;
     rejectTTL := rejectTTL ps; cacheMaxTTL := cacheMaxTTL ps;
     cacheNegMaxTTL := cacheNegMaxTTL ps; cacheNegMinTTL := cacheNegMinTTL ps;
     cacheMinTTL := cacheMinTTL ps; cacheHit := v; dnssec := dnssec ps;
     exchange := exchange ps; exchangeStart := exchangeStart ps |}.

Definition set_dnssec (v : bool) (ps : PluginsState) : PluginsState :=
  {| requestStart := requestStart ps; requestEnd := requestEnd ps;
     clientProto := clientProto ps; serverName := serverName ps; relayName := relayName ps;
     serverProto := serverProto ps; qName := qName ps; clientAddr := clientAddr ps;
     synthResponse := synthResponse ps; questionMsg := questionMsg ps;
     whitelisted := whitelisted ps; stale := stale ps; action := action ps;
     ps_timeout := ps_timeout ps; returnCode := returnCode ps;
     maxPayloadSize := maxPayloadSize ps;
     originalMaxPayloadSize := originalMaxPayloadSize ps;
     maxUnencryptedUDPSafePayloadSize := maxUnencryptedUDPSafePayloadSize ps;
     rejectTTL := rejectTTL ps; cacheMaxTTL := cacheMaxTTL ps;
     cacheNegMaxTTL := cacheNegMaxTTL ps; cacheNegMinTTL := cacheNegMinTTL ps;
     cacheMinTTL := cacheMinTTL ps; cacheHit := cacheHit ps; dnssec := v;
     exchange := exchange ps; exchangeStart := exchangeStart ps |}.

Definition set_exchange (v : ExchangeOutcome) (ps : PluginsState) : PluginsState :=
  {| requestStart := requestStart ps; requestEnd := requestEnd ps;
     clientProto := clientProto ps; serverName := serverName ps; relayName := relayName ps;
     serverProto := serverProto ps; qName := qName ps; clientAddr := clientAddr ps;
     synthResponse := synthResponse ps; questionMsg := questionMsg ps;
     whitelisted := whitelisted ps; stale := stale ps; action := action ps;
     ps_timeout := ps_timeout ps; returnCode := returnCode ps;
     maxPayloadSize := maxPayloadSize ps;
     originalMaxPayloadSize := originalMaxPayloadSize ps;
     maxUnencryptedUDPSafePayloadSize := maxUnencryptedUDPSafePayloadSize ps;
     rejectTTL := rejectTTL ps; cacheMaxTTL := cacheMaxTTL ps;
     cacheNegMaxTTL := cacheNegMaxTTL ps; cacheNegMinTTL := cacheNegMinTTL ps;
     cacheMinTTL := cacheMinTTL ps; cacheHit := cacheHit ps; dnssec := dnssec ps;
     exchange := v; exchangeStart := exchangeStart ps |}.

Definition set_exchangeStart (v : Time) (ps : PluginsState) : PluginsState :=
  {| requestStart := requestStart ps; requestEnd := requestEnd ps;
     clientProto := clientProto ps; serverName := serverName ps; relayName := relayName ps;
     serverProto := serverProto ps; qName := qName ps; clientAddr := clientAddr ps;
     synthResponse := synthResponse ps; questionMsg := questionMsg ps;
     whitelisted := whitelisted ps; stale := stale ps; action := action ps;
     ps_timeout := ps_timeout ps; returnCode := returnCode ps;
     maxPayloadSize := maxPayloadSize ps;
     originalMaxPayloadSize := originalMaxPayloadSize ps;
     maxUnencryptedUDPSafePayloadSize := maxUnencryptedUDPSafePayloadSize ps;
     rejectTTL := rejectTTL ps; cacheMaxTTL := cacheMaxTTL ps;
     cacheNegMaxTTL := cacheNegMaxTTL ps; cacheNegMinTTL := cacheNegMinTTL ps;
     cacheMinTTL := cacheMinTTL ps; cacheHit := cacheHit ps; dnssec := dnssec ps;
     exchange := exchange ps; exchangeStart := v |}.

Definition set_serverName (v : bytes) (ps : PluginsState) : PluginsState :=
  {| requestStart := requestStart ps; requestEnd := requestEnd ps;
     clientProto := clientProto ps; serverName := v; relayName := relayName ps;
     serverProto := serverProto ps; qName := qName ps; clientAddr := clientAddr ps;
     synthResponse := synthResponse ps; questionMsg := questionMsg ps;
     whitelisted := whitelisted ps; stale := stale ps; action := action ps;
     ps_timeout := ps_timeout ps; returnCode := returnCode ps;
     maxPayloadSize := maxPayloadSize ps;
     originalMaxPayloadSize := originalMaxPayloadSize ps;
     maxUnencryptedUDPSafePayloadSize := maxUnencryptedUDPSafePayloadSize ps;
     rejectTTL := rejectTTL ps; cacheMaxTTL := cacheMaxTTL ps;
     cacheNegMaxTTL := cacheNegMaxTTL ps; cacheNegMinTTL := cacheNegMinTTL ps;
     cacheMinTTL := cacheMinTTL ps; cacheHit := cacheHit ps; dnssec := dnssec ps;
     exchange := exchange ps; exchangeStart := exchangeStart ps |}.

Definition set_relayName (v : bytes) (ps : PluginsState) : PluginsState :=
  {| requestStart := requestStart ps; requestEnd := requestEnd ps;
     clientProto := clientProto ps; serverName := serverName ps; relayName := v;
     serverProto := serverProto ps; qName := qName ps; clientAddr := clientAddr ps;
     synthResponse := synthResponse ps; questionMsg := questionMsg ps;
     whitelisted := whitelisted ps; stale := stale ps; action := action ps;
     ps_timeout := ps_timeout ps; returnCode := returnCode ps;
     maxPayloadSize := maxPayloadSize ps;
     originalMaxPayloadSize := originalMaxPayloadSize ps;
     maxUnencryptedUDPSafePayloadSize := maxUnencryptedUDPSafePayloadSize ps;
     rejectTTL := rejectTTL ps; cacheMaxTTL := cacheMaxTTL ps;
     cacheNegMaxTTL := cacheNegMaxTTL ps; cacheNegMinTTL := cacheNegMinTTL ps;
     cacheMinTTL := cacheMinTTL ps; cacheHit := cacheHit ps; dnssec := dnssec ps;
     exchange := exchange ps; exchangeStart := exchangeStart ps |}.

Definition set_qName (v : bytes) (ps : PluginsState) : PluginsState :=
  {| requestStart := requestStart ps; requestEnd := requestEnd ps;
     clientProto := clientProto ps; serverName := serverName ps; relayName := relayName ps;
     serverProto := serverProto ps; qName := v; clientAddr := clientAddr ps;
     synthResponse := synthResponse ps; questionMsg := questionMsg ps;
     whitelisted := whitelisted ps; stale := stale ps; action := action ps;
     ps_timeout := ps_timeout ps; returnCode := returnCode ps;
     maxPayloadSize := maxPayloadSize ps;
     originalMaxPayloadSize := originalMaxPayloadSize ps;
     maxUnencryptedUDPSafePayloadSize := maxUnencryptedUDPSafePayloadSize ps;
     rejectTTL := rejectTTL ps; cacheMaxTTL := cacheMaxTTL ps;
     cacheNegMaxTTL := cacheNegMaxTTL ps; cacheNegMinTTL := cacheNegMinTTL ps;
     cacheMinTTL := cacheMinTTL ps; cacheHit := cacheHit ps; dnssec := dnssec ps;
     exchange := exchange ps; exchangeStart := exchangeStart ps |}.

Definition set_requestEnd (v : Time) (ps : PluginsState) : PluginsState :=
  {| requestStart := requestStart ps; requestEnd := v; clientProto := clientProto ps;
     serverName := serverName ps; relayName := relayName ps; serverProto := serverProto ps;
     qName := qName ps; clientAddr := clientAddr ps; synthResponse := synthResponse ps;
     questionMsg := questionMsg ps; whitelisted := whitelisted ps; stale := stale ps;
     action := action ps; ps_timeout := ps_timeout ps; returnCode := returnCode ps;
     maxPayloadSize := maxPayloadSize ps;
     originalMaxPayloadSize := originalMaxPayloadSize ps;
     maxUnencryptedUDPSafePayloadSize := maxUnencryptedUDPSafePayloadSize ps;
     rejectTTL := rejectTTL ps; cacheMaxTTL := cacheMaxTTL ps;
     cacheNegMaxTTL := cacheNegMaxTTL ps; cacheNegMinTTL := cacheNegMinTTL ps;
     cacheMinTTL := cacheMinTTL ps; cacheHit := cacheHit ps; dnssec := dnssec ps;
     exchange := exchange ps; exchangeStart := exchangeStart ps |}.

(** ** Plugins *)

(** [PluginPanic] stands for a run-time panic. *)
Inductive plugin_error :=
| PluginPanic | UnpackError | PackError | UnexpectedQuestions | InvalidName | InvalidResponse | PluginFailed
| QuestionNotFound.

#[global] Instance plugin_error_eq_dec : EqDecision plugin_error.
Proof. solve_decision. Defined.

Record PluginsConfig := {
  refusedCodeInResponses : bool;
  respondWithIPv4 : option bytes;
  respondWithIPv6 : option bytes;
}.

Section plugins.
Context `{D : DnsLib} {W : Type}.

(** [Eval]: [None] is a nil error. *)
Definition Plugin : Type := W -> PluginsState -> Msg -> option plugin_error * W * PluginsState * Msg.

Record PluginsGlobals := {
  queryPlugins : list Plugin;
  responsePlugins : list Plugin;
  loggingPlugins : list Plugin;
  config : PluginsConfig;
}.

Definition with_refusal (cfg : PluginsConfig) (ps : PluginsState) (msg : Msg) : PluginsState :=
  if bool_decide (action ps = PluginsActionReject) then
    set_synthResponse (Some (RefusedResponseFromMessage msg (refusedCodeInResponses cfg)
      (respondWithIPv4 cfg) (respondWithIPv6 cfg) (rejectTTL ps))) ps
  else ps.

(** The loop over a chain of plugins, which stops at an error or at the first
    action other than "continue".  [sync] is what the plugin's edits of the
    message do to the state of the query. *)
Fixpoint run_plugins (sync : Msg -> PluginsState -> PluginsState) (cfg : PluginsConfig)
    (plugins : list Plugin) (w : W) (ps : PluginsState) (msg : Msg)
    : option plugin_error * W * PluginsState * Msg :=
  match plugins with
  | [] => (None, w, ps, msg)
  | plugin :: plugins' =>
      let '(err, w, ps, msg) := plugin w ps msg in
      let ps := sync msg ps in
      match err with
      | Some e => (Some e, w, set_action PluginsActionDrop ps, msg)
      | None =>
          let ps := with_refusal cfg ps msg in
          if negb (bool_decide (action ps = PluginsActionContinue)) then (None, w, ps, msg)
          else run_plugins sync cfg plugins' w ps msg
      end
  end.

(** [getServerInfo] also reports whether the query needs padding; it selects a
    server, which changes the state of the proxy. *)
Definition ApplyQueryPlugins (g : PluginsGlobals) (getServerInfo : option (W -> W * bool))
    (packet : bytes) (w : W) (ps : PluginsState)
    : option plugin_error * W * PluginsState * bytes :=
  match Unpack packet with
  | None => (Some UnpackError, w, ps, packet)
  | Some msg =>
      match Questions msg with
      | [question] =>
          match NormalizeQName (q_Name question) with
          | Err _ => (Some InvalidName, w, ps, packet)
          | Ok qName =>
              let ps := set_questionMsg (Some msg) (set_qName qName ps) in
              let '(err, w, ps, msg) :=
                run_plugins (fun m => set_questionMsg (Some m)) (config g) (queryPlugins g) w ps msg in
              match err with
              | Some e => (Some e, w, ps, packet)
              | None =>
                  match Pack msg with
                  | None => (Some PackError, w, ps, packet)
                  | Some packet2 =>
                      if bool_decide (action ps = PluginsActionContinue) then
                        match getServerInfo with
                        | None => (None, w, ps, packet2)
                        | Some get =>
                            let '(w, needsEDNS0Padding) := get w in
                            if needsEDNS0Padding then
                              let padLen := 63 - Z.land (len packet2 + 63) 63 in
                              let '(msg, padded) := addEDNS0PaddingIfNoneFound msg packet2 padLen in
                              let ps := set_questionMsg (Some msg) ps in
                              match padded with
                              | Some paddedPacket2 => (None, w, ps, paddedPacket2)
                              | None => (None, w, ps, packet2)
                              end
                            else (None, w, ps, packet2)
                        end
                      else (None, w, ps, packet2)
                  end
              end
          end
      | _ => (Some UnexpectedQuestions, w, ps, packet)
      end
  end.

Definition return_code_of_rcode (rcode : Z) : PluginsReturnCode :=
  if rcode =? RcodeSuccess then PluginsReturnCodePass
  else if rcode =? RcodeNameError then PluginsReturnCodeNXDomain
  else if rcode =? RcodeServerFailure then PluginsReturnCodeServFail
  else PluginsReturnCodeResponseError.

Definition ApplyResponsePlugins (g : PluginsGlobals) (packet : bytes) (w : W) (ps : PluginsState)
    : option plugin_error * W * PluginsState * bytes :=
  match Unpack packet with
  | None => (Some UnpackError, w, ps, packet)
  | Some msg =>
      match validateResponseForQuery (questionMsg ps) (Some msg) with
      | Some _ => (Some InvalidResponse, w, ps, packet)
      | None =>
          let ps := set_returnCode (return_code_of_rcode (Rcode packet)) ps in
          let '(msg, _) := removeEDNS0Options msg in
          let '(err, w, ps, msg) :=
            run_plugins (fun _ ps => ps) (config g) (responsePlugins g) w ps msg in
          match err with
          | Some e => (Some e, w, ps, packet)
          | None =>
              match validateResponseForQuery (questionMsg ps) (Some msg) with
              | Some _ => (Some InvalidResponse, w, ps, packet)
              | None =>
                  match Pack msg with
                  | None => (Some PackError, w, ps, packet)
                  | Some data => (None, w, ps, data)
                  end
              end
          end
      end
  end.

Fixpoint run_logging (plugins : list Plugin) (w : W) (ps : PluginsState) (msg : Msg)
    : option plugin_error * W * PluginsState * Msg :=
  match plugins with
  | [] => (None, w, ps, msg)
  | plugin :: plugins' =>
      let '(err, w, ps, msg) := plugin w ps msg in
      match err with
      | Some e => (Some e, w, ps, msg)
      | None => run_logging plugins' w ps msg
      end
  end.

Definition ApplyLoggingPlugins (now : Time) (g : PluginsGlobals) (w : W) (ps : PluginsState)
    : option plugin_error * W * PluginsState :=
  match loggingPlugins g with
  | [] => (None, w, ps)
  | plugins =>
      let ps := set_requestEnd now ps in
      match questionMsg ps with
      | None => (Some QuestionNotFound, w, ps)
      | Some q =>
          let '(err, w, ps, q) := run_logging plugins w ps q in
          (err, w, set_questionMsg (Some q) ps)
      end
  end.
End plugins.

Arguments Plugin : clear implicits.
Arguments PluginsGlobals : clear implicits.

(** ** Configuration of the pipeline *)

(** The plugins [InitPluginsGlobals] may put in the chains. *)
Inductive plugin_name :=
| CaptivePortal | QueryMeta | AllowName | Firefox | ECS | BlockName | BlockIPv6 | Cloak
| GetSetPayloadSize | Cache | Forward | BlockUnqualified | BlockUndelegated
| NxLog | AllowedIP | BlockNameResponse | BlockIP | DNS64 | CacheResponse | QueryLog.

#[global] Instance plugin_name_eq_dec : EqDecision plugin_name.
Proof. solve_decision. Defined.

(** Which options are set. *)
Record PluginOptions := {
  opt_captivePortal : bool; opt_queryMeta : bool; opt_allowName : bool; opt_ecs : bool;
  opt_blockName : bool; opt_blockIPv6 : bool; opt_cloak : bool; opt_cache : bool;
  opt_forward : bool; opt_blockUnqualified : bool; opt_blockUndelegated : bool;
  opt_nxLog : bool; opt_allowedIP : bool; opt_blockIP : bool;
  opt_dns64Resolvers : bool; opt_dns64Prefixes : bool; opt_queryLog : bool;
}.

Definition when (b : bool) (p : plugin_name) : list plugin_name := if b then [p] else [].

Definition query_chain (o : PluginOptions) : list plugin_name :=
  when (opt_captivePortal o) CaptivePortal ++ when (opt_queryMeta o) QueryMeta
  ++ when (opt_allowName o) AllowName ++ [Firefox] ++ when (opt_ecs o) ECS
  ++ when (opt_blockName o) BlockName ++ when (opt_blockIPv6 o) BlockIPv6
  ++ when (opt_cloak o) Cloak ++ [GetSetPayloadSize] ++ when (opt_cache o) Cache
  ++ when (opt_forward o) Forward ++ when (opt_blockUnqualified o) BlockUnqualified
  ++ when (opt_blockUndelegated o) BlockUndelegated.

Definition response_chain (o : PluginOptions) : list plugin_name :=
  when (opt_nxLog o) NxLog ++ when (opt_allowedIP o) AllowedIP
  ++ when (opt_blockName o) BlockNameResponse ++ when (opt_blockIP o) BlockIP
  ++ when (opt_dns64Resolvers o || opt_dns64Prefixes o) DNS64
  ++ when (opt_cache o) CacheResponse.

Definition logging_chain (o : PluginOptions) : list plugin_name :=
  when (opt_queryLog o) QueryLog.

(** The chains, unless the initialization of a plugin fails. *)
Definition InitPluginsGlobals {W} (init : plugin_name -> option (Plugin W))
    (o : PluginOptions) (cfg : PluginsConfig) : option (PluginsGlobals W) :=
  qs ← mapM init (query_chain o);
  rs ← mapM init (response_chain o);
  ls ← mapM init (logging_chain o);
  Some {| queryPlugins := qs; responsePlugins := rs; loggingPlugins := ls; config := cfg |}.

(** [strings.Trim(s, "[]")]. *)
Definition trim_brackets (s : bytes) : bytes :=
  let drop_while := fix go (s : bytes) : bytes :=
    match s with c :: s' => if (c =? 91) || (c =? 93) then go s' else s | [] => [] end in
  reverse (drop_while (reverse (drop_while s))).

Definition parseBlockedQueryResponse (unicode_lower : bytes -> bytes) (blockedResponse : bytes)
    (g : PluginsConfig) : PluginsConfig :=
  let blockedResponse := StringStripSpaces (ToLower unicode_lower blockedResponse) in
  if HasPrefix blockedResponse (str "a:") then
    let blockedIPStrings := Split blockedResponse 44 in
    match ParseIP (TrimPrefix (nth 0 blockedIPStrings []) (str "a:")) with
    | None => {| refusedCodeInResponses := false; respondWithIPv4 := None;
                 respondWithIPv6 := respondWithIPv6 g |}
    | Some ipv4 =>
        let ipv6 :=
          if (1 <? length blockedIPStrings)%nat then
            let field := nth 1 blockedIPStrings [] in
            if HasPrefix field (str "aaaa:") then
              let ipv6Response := TrimPrefix field (str "aaaa:") in
              let ipv6Response := if HasPrefix ipv6Response (str "[")
                                  then trim_brackets ipv6Response else ipv6Response in
              ParseIP ipv6Response
            else respondWithIPv6 g
          else respondWithIPv6 g in
        {| refusedCodeInResponses := refusedCodeInResponses g; respondWithIPv4 := Some ipv4;
           respondWithIPv6 := Some (default ipv4 ipv6) |}
    end
  else
    {| refusedCodeInResponses := bool_decide (blockedResponse = str "refused");
       respondWithIPv4 := respondWithIPv4 g; respondWithIPv6 := respondWithIPv6 g |}.

(** ** State of a new query *)

Record ProxyTTLs := {
  p_cacheNegMinTTL : Z; p_cacheNegMaxTTL : Z; p_cacheMinTTL : Z; p_cacheMaxTTL : Z;
  p_rejectTTL : Z; p_timeout : Duration;
}.

Definition zero_outcome : ExchangeOutcome :=
  {| o_Duration := 0; o_Transport := TransportUnknown; o_Timeout := false; o_Error := false;
     o_Servfail := false; o_DNSSECBogus := false; o_UpstreamTruncated := false;
     o_LocalTruncated := false; o_TCPFallback := false; o_QUICFallback := false;
     o_ConnReused := false; o_ECSReturned := false |}.

Definition NewPluginsState (proxy : ProxyTTLs) (cp : client_proto) (addr : option bytes)
    (sp : proto) (start : Time) : PluginsState :=
  {| action := PluginsActionContinue; returnCode := PluginsReturnCodePass;
     maxPayloadSize := MaxDNSUDPPacketSize - ResponseOverhead;
     clientProto := cp; clientAddr := addr;
     cacheNegMinTTL := p_cacheNegMinTTL proxy; cacheNegMaxTTL := p_cacheNegMaxTTL proxy;
     cacheMinTTL := p_cacheMinTTL proxy; cacheMaxTTL := p_cacheMaxTTL proxy;
     rejectTTL := p_rejectTTL proxy; questionMsg := None; qName := []; serverName := str "-";
     serverProto := sp; ps_timeout := p_timeout proxy; requestStart := start;
     maxUnencryptedUDPSafePayloadSize := MaxDNSUDPSafePacketSize;
     requestEnd := zero_time; relayName := []; synthResponse := None; whitelisted := false;
     stale := None; originalMaxPayloadSize := 0; cacheHit := false; dnssec := false;
     exchange := zero_outcome; exchangeStart := zero_time |}.
