(* ===== verification/Feedback.v ===== *)
(** * Feedback to the schedulers (src/dnscrypt-proxy/scheduler_feedback.go)

    Classification of the response of an upstream exchange and the update of
    the statistics of the server, of its metrics and of its circuit. *)

From S2P Require Import Prelude GoStrings GoFloat Common Crypto Dns DnsUtils DnsUtilsProps Metrics ServerTypes Mds MdsProps.
From S2P Require Import Servers ServersProps Plugins.

(** [net.Error] in the error chain: whether it is a timeout. *)
Inductive exchange_error := TimeoutError | OtherError.

#[global] Instance exchange_error_eq_dec : EqDecision exchange_error.
Proof. solve_decision. Defined.

Definition isTimeoutError (err : option exchange_error) : bool :=
  bool_decide (err = Some TimeoutError).

Definition is_ecs (p : pseudo) : bool :=
  match p with PS_SUBNET _ _ scope _ => negb (scope =? 0) | _ => false end.

Section feedback.
Context `{D : DnsLib}.

(** Whether the response is a SERVFAIL, a SERVFAIL under DNSSEC, and whether it
    carries a client subnet with a scope. *)
Definition classifyExchangeResponse (response : bytes) (dnssecExpected : bool)
    : bool * bool * bool :=
  if len response <? MinDNSPacketSize then (false, false, false)
  else
    let failure := Rcode response =? RcodeServerFailure in
    let bogus := failure && dnssecExpected in
    let servfail := failure && negb dnssecExpected in
    match Unpack response with
    | None => (servfail, bogus, false)
    | Some msg => (servfail, bogus, existsb is_ecs (Pseudo msg))
    end.

Definition with_class (timeout error servfail bogus ecs : bool) (d : Duration)
    (o : ExchangeOutcome) : ExchangeOutcome :=
  {| o_Duration := d; o_Transport := o_Transport o; o_Timeout := timeout; o_Error := error;
     o_Servfail := servfail; o_DNSSECBogus := bogus; o_UpstreamTruncated := o_UpstreamTruncated o;
     o_LocalTruncated := o_LocalTruncated o; o_TCPFallback := o_TCPFallback o;
     o_QUICFallback := o_QUICFallback o; o_ConnReused := o_ConnReused o; o_ECSReturned := ecs |}.

Definition exchange_failed (response : bytes) (err : option exchange_error) : bool :=
  bool_decide (is_Some err) ||
  negb ((len response >=? MinDNSPacketSize) && (len response <=? MaxDNSPacketSize)).

(** The outcome recorded for an exchange that started at [exchangeStart ps]. *)
Definition classify_outcome (now : Time) (proxy_timeout : Duration) (ps : PluginsState)
    (response : bytes) (err : option exchange_error) : ExchangeOutcome :=
  let o := exchange ps in
  if exchange_failed response err then
    if bool_decide (returnCode ps = PluginsReturnCodeServerTimeout) || isTimeoutError err
    then with_class true (o_Error o) (o_Servfail o) (o_DNSSECBogus o) (o_ECSReturned o)
           proxy_timeout o
    else with_class (o_Timeout o) true (o_Servfail o) (o_DNSSECBogus o) (o_ECSReturned o)
           proxy_timeout o
  else
    let '(servfail, bogus, ecs) := classifyExchangeResponse response (dnssec ps) in
    with_class (o_Timeout o) (o_Error o) servfail bogus ecs
      (time_sub now (exchangeStart ps)) o.

(** The update of the statistics kept with the server. *)
Definition update_server (now : Time) (proxy_timeout : Duration) (ps : PluginsState)
    (failed : bool) (o : ExchangeOutcome) (elapsed : Duration) (s : ServerInfo) : ServerInfo :=
  let total := uint64 (totalQueries s + 1) in
  let fails := if failed then uint64 (failedQueries s + 1) else failedQueries s in
  let s := set_times (lastActionTS s) now (lastDecayTS s) s in
  let s := if total >? 10000 then set_counters (total / 2) (fails / 2) s
           else set_counters total fails s in
  if failed || o_Servfail o then
    set_rtt (ewma.Add (rtt s) (float64 (go_div proxy_timeout Millisecond))) s
  else if o_DNSSECBogus o || bool_decide (action ps = PluginsActionDrop) then s
  else
    let elapsedMs := go_div elapsed Millisecond in
    if (elapsedMs >? 0) && (elapsed <? proxy_timeout)
    then set_rtt (ewma.Add (rtt s) (float64 elapsedMs)) s else s.

Definition observeOutcome (now : Time) (proxy_timeout : Duration) (ps : PluginsState)
    (response : bytes) (err : option exchange_error) (si : ServersInfo) : ServersInfo :=
  let name := serverName ps in
  if (len name =? 0) || IsZero (exchangeStart ps) then si
  else
    let failed := exchange_failed response err in
    let o := classify_outcome now proxy_timeout ps response err in
    let elapsed := time_sub now (exchangeStart ps) in
    let si := match server_index name (inner si) 0 with
              | Some i => set_inner (alter (update_server now proxy_timeout ps failed o elapsed)
                                       (Z.to_nat i) (inner si)) si
              | None => si
              end in
    let '(m, si) := metricsForLocked name si in
    let m := Observe now o m in
    let strategy := match lbStrategy si with
                    | LBMds mds => LBMds (observeFeedbackLocked now name o (TotalSamples m) mds)
                    | s => s
                    end in
    set_scheduler strategy (<[name := m]> (metrics si)) si.
End feedback.

(** ** Properties *)

(** The counters of a server. *)
Definition counters_ok (s : ServerInfo) : Prop :=
  0 <= failedQueries s <= totalQueries s /\ totalQueries s <= 10000.

Lemma update_server_counters now t ps failed o elapsed s :
  counters_ok s ->
  let s' := update_server now t ps failed o elapsed s in
  Name_ s' = Name_ s /\ counters_ok s' /\
  (if totalQueries s =? 10000 then totalQueries s' = 5000
   else totalQueries s' = totalQueries s + 1 /\
        failedQueries s' = failedQueries s + (if failed then 1 else 0)).
Proof.
  intros [H1 H2]. cbv zeta.
  assert (exists r, update_server now t ps failed o elapsed s =
    set_rtt r (let total := totalQueries s + 1 in
               let fails := if failed then failedQueries s + 1 else failedQueries s in
               let s1 := set_times (lastActionTS s) now (lastDecayTS s) s in
               if total >? 10000 then set_counters (total / 2) (fails / 2) s1
               else set_counters total fails s1)) as [r ->].
  { unfold update_server. cbv zeta.
    replace (uint64 (totalQueries s + 1)) with (totalQueries s + 1)
      by (unfold uint64; symmetry; apply Z.mod_small; lia).
    replace (uint64 (failedQueries s + 1)) with (failedQueries s + 1)
      by (unfold uint64; symmetry; apply Z.mod_small; lia).
    destruct (totalQueries s + 1 >? 10000);
      (destruct (failed || o_Servfail o); [by eexists|]);
      (destruct (o_DNSSECBogus o || _); [by exists (rtt s); destruct s|]);
      (destruct (_ && (elapsed <? t)); [by eexists|by exists (rtt s); destruct s]). }
  cbv zeta. destruct (totalQueries s =? 10000) eqn:E; bools.
  - rewrite E. cbn [Z.add Z.gtb]. change (10000 + 1 >? 10000) with true.
    change ((10000 + 1) / 2) with 5000. split_and!; try done.
    unfold counters_ok. cbn. rewrite E in *. destruct failed.
    + split; [|lia]. split; [apply Z.div_pos; lia|]. apply (Z.div_le_mono _ 10001); lia.
    + split; [|lia]. split; [apply Z.div_pos; lia|]. apply (Z.div_le_mono _ 10001); lia.
  - replace (totalQueries s + 1 >? 10000) with false by lia. unfold counters_ok. cbn.
    split_and!; try done; destruct failed; lia.
Qed.

(** The outcome is in one class: exactly one of success, timeout, error,
    SERVFAIL and bogus. *)
Definition classes (o : ExchangeOutcome) : list bool :=
  [succeeded o; o_Timeout o; o_Error o; o_Servfail o; o_DNSSECBogus o].

Definition no_class (o : ExchangeOutcome) : Prop :=
  o_Timeout o = false /\ o_Error o = false /\ o_Servfail o = false /\ o_DNSSECBogus o = false.

Section feedback.
Context `{D : DnsLib}.

Lemma classify_outcome_class now t ps response err :
  no_class (exchange ps) ->
  let o := classify_outcome now t ps response err in
  length (List.filter (fun b => b) (classes o)) = 1%nat /\
  (hard o = exchange_failed response err) /\
  (exchange_failed response err = true -> o_Duration o = t).
Proof.
  intros (H1 & H2 & H3 & H4). cbv zeta. unfold classify_outcome, hard.
  destruct (exchange_failed response err).
  - destruct (_ || isTimeoutError err); unfold with_class, classes, succeeded; cbn;
      rewrite ?H1, ?H2, ?H3, ?H4; done.
  - unfold classifyExchangeResponse.
    destruct (len response <? MinDNSPacketSize);
      [|destruct (Rcode response =? RcodeServerFailure), (dnssec ps), (Unpack response)];
      unfold with_class, classes, succeeded; cbn; rewrite ?H1, ?H2; done.
Qed.

(** C38: the accounting of an exchange.  For an exchange with a named server, whose outcome has
    not been classified before,
    exactly one outcome is recorded, in the metrics of that server and of no
    other one, and it is in exactly one of the classes success, timeout, error,
    SERVFAIL and bogus; a failed exchange, and no other, is a hard failure and
    counts as a full timeout in the latencies.  The counters of the servers stay
    consistent (failures never exceed queries, queries never exceed 10000), and
    no server is added, removed or reordered. *)
Theorem observeOutcome_accounts now t ps response err si :
  no_class (exchange ps) -> serverName ps <> [] -> exchangeStart ps <> zero_time ->
  Forall counters_ok (inner si) ->
  let si' := observeOutcome now t ps response err si in
  let o := classify_outcome now t ps response err in
  let before := default (NewResolverMetricsWithWindow (metricsWindow_ si))
                  (metrics si !! serverName ps) in
  metrics si' = <[serverName ps := Observe now o before]> (metrics si) /\
  length (List.filter (fun b => b) (classes o)) = 1%nat /\
  hard o = exchange_failed response err /\
  (exchange_failed response err = true -> o_Duration o = t) /\
  Forall counters_ok (inner si') /\ names (inner si') = names (inner si).
Proof.
  intros Hcl Hn He Hok. cbv zeta.
  destruct (classify_outcome_class now t ps response err Hcl) as (C1 & C2 & C3).
  unfold observeOutcome. replace (len (serverName ps) =? 0) with false.
  2:{ destruct (serverName ps) as [|? l]; [done|]. rewrite len_cons. pose proof (len_nonneg l). lia. }
  replace (IsZero (exchangeStart ps)) with false by (unfold IsZero; lia). cbn [orb].
  set (o := classify_outcome now t ps response err) in *. clearbody o.
  set (upd := update_server _ _ _ _ _ _).
  set (si1 := match server_index (serverName ps) (inner si) 0 with Some i => _ | None => si end).
  assert (metrics si1 = metrics si /\ metricsWindow_ si1 = metricsWindow_ si /\
    Forall counters_ok (inner si1) /\ names (inner si1) = names (inner si)) as (M1 & M2 & M3 & M4).
  { unfold si1. destruct (server_index _ _ _) as [i|]; [|done]. cbn [set_inner inner metrics
      metricsWindow_]. split_and!; [done|done| |].
    - apply Forall_alter; [done|]. intros s _ Hs. by apply update_server_counters.
    - rewrite (list_fmap_alter Name_ upd (fun n => n)); [by rewrite list_alter_id|].
      eapply Forall_impl; [exact Hok|]. intros s Hs. by apply update_server_counters. }
  clearbody si1. unfold metricsForLocked. rewrite M1, M2.
  destruct (metrics si !! serverName ps) as [m|]; cbn [default].
  - cbn [set_scheduler metrics inner]. rewrite M1. by split_and!.
  - cbn [set_scheduler metrics inner lbStrategy]. rewrite insert_insert_eq. by split_and!.
Qed.
End feedback.

Definition sample_ttls : ProxyTTLs :=
  {| p_cacheNegMinTTL := 60; p_cacheNegMaxTTL := 600; p_cacheMinTTL := 60; p_cacheMaxTTL := 86400;
     p_rejectTTL := 600; p_timeout := 5 * Second |}.

Definition sample_exchange : PluginsState :=
  set_exchangeStart Second (set_serverName (str "a")
    (NewPluginsState sample_ttls client_udp None udp Second)).

Lemma observeOutcome_accounts_witness :
  let si' := observeOutcome (D := sample_DnsLib) (2 * Second) (5 * Second) sample_exchange []
    (Some TimeoutError) (sample_servers LBStrategyWP2) in
  Forall counters_ok (inner si') /\ failedQueries <$> inner si' = [1; 0].
Proof.
  split; [|vm_compute; reflexivity].
  apply (@observeOutcome_accounts sample_DnsLib (2 * Second) (5 * Second) sample_exchange []
    (Some TimeoutError) (sample_servers LBStrategyWP2)).
  - by split_and!.
  - discriminate.
  - discriminate.
  - repeat constructor; simpl; lia.
Defined.
