(* ===== verification/PluginsProps.v ===== *)
(** * Properties of the plugin pipeline *)

From S2P Require Import Prelude GoStrings NetIP Common Crypto Dns DnsUtils DnsUtilsProps.
From S2P Require Import Metrics Plugins.

(** ** Chains *)

Section chains.
Context `{D : DnsLib} {W : Type}.
Implicit Types (ps : PluginsState) (plugins : list (Plugin W)).

Definition stops (r : option plugin_error * W * PluginsState * Msg) : bool :=
  let '(err, _, ps, _) := r in
  bool_decide (is_Some err) || negb (bool_decide (action ps = PluginsActionContinue)).

(** The rest of a chain is run exactly when the first part neither fails nor
    decides. *)
Lemma run_plugins_app sync cfg plugins plugins' w ps msg :
  action ps = PluginsActionContinue ->
  let r := run_plugins sync cfg plugins w ps msg in
  run_plugins sync cfg (plugins ++ plugins') w ps msg =
  if stops r then r
  else let '(_, w', ps', msg') := r in run_plugins sync cfg plugins' w' ps' msg'.
Proof.
  revert w ps msg. induction plugins as [|p plugins IH]; intros w ps msg Hc; cbn [run_plugins app].
  { unfold stops. rewrite bool_decide_false by (intros [? ?]; done). by rewrite bool_decide_true. }
  destruct (p w ps msg) as [[[err w1] ps1] msg1]. destruct err as [e|]; [done|].
  destruct (bool_decide (action (with_refusal cfg (sync msg1 ps1) msg1) = PluginsActionContinue)) eqn:E;
    cbn [negb].
  - bools. by apply IH.
  - unfold stops. by rewrite E, orb_true_r.
Qed.

(** A chain that ends with a rejection has built the refusal of the message. *)
Lemma run_plugins_reject sync cfg plugins w ps msg w' ps' msg' :
  (forall m ps, synthResponse (sync m ps) = synthResponse ps) ->
  action ps = PluginsActionContinue ->
  run_plugins sync cfg plugins w ps msg = (None, w', ps', msg') ->
  action ps' = PluginsActionReject ->
  synthResponse ps' = Some (RefusedResponseFromMessage msg' (refusedCodeInResponses cfg)
    (respondWithIPv4 cfg) (respondWithIPv6 cfg) (rejectTTL ps')).
Proof.
  intros Hsync. revert w ps msg. induction plugins as [|p plugins IH]; intros w ps msg Hc; cbn [run_plugins].
  { intros [= <- <- <-]. congruence. }
  destruct (p w ps msg) as [[[err w1] ps1] msg1]. destruct err as [e|]; [done|].
  destruct (bool_decide (action (with_refusal cfg (sync msg1 ps1) msg1) = PluginsActionContinue)) eqn:E;
    cbn [negb].
  - bools. intros H Hr. by eapply IH.
  - intros [= <- <- <-]. unfold with_refusal.
    destruct (bool_decide (action (sync msg1 ps1) = PluginsActionReject)) eqn:Hr; [done|].
    bools. done.
Qed.

(** The chain of query plugins.  A query is only handed on ("continue") if
    every plugin of the chain saw it and let it pass; a plugin that fails or
    decides ends the chain, and plugins after it have no effect at all. *)
Theorem query_chain_short_circuit cfg plugins plugins' w ps msg :
  action ps = PluginsActionContinue ->
  let sync := fun m => set_questionMsg (Some m) in
  let r := run_plugins sync cfg plugins w ps msg in
  let all := run_plugins sync cfg (plugins ++ plugins') w ps msg in
  (stops r = true -> all = r) /\
  (stops all = false ->
     stops r = false /\
     exists w' ps' msg', r = (None, w', ps', msg') /\ action ps' = PluginsActionContinue /\
       all = run_plugins sync cfg plugins' w' ps' msg').
Proof.
  intros Hc. cbv zeta.
  pose proof (run_plugins_app (fun m => set_questionMsg (Some m)) cfg plugins plugins' w ps msg Hc) as H.
  cbv zeta in H. rewrite H. destruct (run_plugins _ cfg plugins w ps msg) as [[[err w1] ps1] m1] eqn:E.
  destruct (stops (err, w1, ps1, m1)) eqn:Es.
  - split; [done|]. intros Hf. congruence.
  - split; [done|]. intros _. split; [done|]. unfold stops in Es. apply orb_false_iff in Es as [E1 E2].
    bools. exists w1, ps1, m1. split_and!; [|done|done].
    destruct err; [|done]. destruct E1; eauto.
Qed.

Context `{!DnsLibLaws D}.

(** A response is only accepted if it answers the question.  Whatever the
    response plugins do, a packet comes out of the response chain without an
    error only if the received packet was a response with the identifier, the
    name, the type and the class of the question, and the packet that comes out is
    made of a message that is one too. *)
Theorem ApplyResponsePlugins_answers (g : PluginsGlobals W) packet w ps w' ps' out :
  ApplyResponsePlugins g packet w ps = (None, w', ps', out) ->
  exists m m', Unpack packet = Some m /\
    validateResponseForQuery (questionMsg ps) (Some m) = None /\
    Pack m' = Some out /\ validateResponseForQuery (questionMsg ps') (Some m') = None.
Proof.
  unfold ApplyResponsePlugins. destruct (Unpack packet) as [m|]; [|done].
  destruct (validateResponseForQuery (questionMsg ps) (Some m)) eqn:E1; [done|].
  destruct (removeEDNS0Options m) as [m1 b].
  destruct (run_plugins _ _ _ _ _ _) as [[[err w1] ps1] m2]. destruct err; [done|].
  destruct (validateResponseForQuery (questionMsg ps1) (Some m2)) eqn:E2; [done|].
  destruct (Pack m2) as [d|] eqn:Ep; [|done]. intros [= <- <- <-].
  by exists m, m2.
Qed.

Lemma run_plugins_question cfg plugins (w : W) ps msg w' ps' msg' err :
  questionMsg ps = Some msg ->
  run_plugins (fun m => set_questionMsg (Some m)) cfg plugins w ps msg = (err, w', ps', msg') ->
  questionMsg ps' = Some msg'.
Proof.
  assert (forall ps m, questionMsg (with_refusal cfg ps m) = questionMsg ps) as Hq.
  { intros ps0 m. unfold with_refusal. by case_bool_decide. }
  revert w ps msg. induction plugins as [|p plugins IH]; intros w ps msg Hm; cbn [run_plugins].
  { by intros [= <- <- <- <-]. }
  destruct (p w ps msg) as [[[e w1] ps1] msg1]. destruct e as [e|]; [by intros [= <- <- <- <-]|].
  destruct (negb _); [intros [= <- <- <- <-]; by rewrite Hq|]. apply IH. by rewrite Hq.
Qed.

(** Rejected queries.  When the query plugins reject a query, the response
    they leave is the configured refusal of the message they have edited, and it
    passes the validation of responses against the question as edited. *)
Theorem ApplyQueryPlugins_reject (g : PluginsGlobals W) get packet w ps w' ps' out q :
  action ps = PluginsActionContinue ->
  ApplyQueryPlugins g get packet w ps = (None, w', ps', out) ->
  action ps' = PluginsActionReject ->
  (forall m, questionMsg ps' = Some m -> Questions m = [q]) ->
  exists m r, questionMsg ps' = Some m /\ synthResponse ps' = Some r /\
    r = RefusedResponseFromMessage m (refusedCodeInResponses (config g))
          (respondWithIPv4 (config g)) (respondWithIPv6 (config g)) (rejectTTL ps') /\
    validateResponseForQuery (Some m) (Some r) = None.
Proof.
  intros Hc. unfold ApplyQueryPlugins. destruct (Unpack packet) as [m|]; [|done].
  destruct (Questions m) as [|q0 [|]]; [done| |done].
  destruct (NormalizeQName _) as [n|]; [|done].
  set (ps0 := set_questionMsg (Some m) (set_qName n ps)).
  destruct (run_plugins _ _ _ _ _ _) as [[[err w1] ps1] m1] eqn:Er. destruct err; [done|].
  pose proof (run_plugins_question (config g) _ w ps0 m _ _ _ _ eq_refl Er) as Hq1.
  destruct (Pack m1) as [p2|]; [|done]. intros Happ Hact Hqs.
  assert (ps' = ps1) as ->.
  { destruct (bool_decide (action ps1 = PluginsActionContinue)) eqn:Ea;
      [|by injection Happ as <- <- <-]. bools.
    destruct get as [gf|]; [|by injection Happ as <- <- <-].
    destruct (gf w1) as [w2 []]; [|by injection Happ as <- <- <-].
    destruct (addEDNS0PaddingIfNoneFound _ _ _) as [m2 [pp|]]; injection Happ as <- <- <-;
      cbn [set_questionMsg action] in Hact; congruence. }
  exists m1. eexists. split; [done|].
  rewrite (run_plugins_reject (fun m => set_questionMsg (Some m)) (config g) _ w ps0 m _ _ _
    (fun _ _ => eq_refl) Hc Er Hact).
  split_and!; [done|done|].
  destruct (RefusedResponse_fields m1 (refusedCodeInResponses (config g))
    (respondWithIPv4 (config g)) (respondWithIPv6 (config g)) (rejectTTL ps1)) as (R1 & R2 & R3 & _).
  apply (validate_same_question _ _ q); [by apply Hqs|rewrite R3; by apply Hqs|done|done].
Qed.
End chains.

(** ** Order of the plugins *)

(** Position of the query plugins in the chain. *)
Definition query_rank (p : plugin_name) : nat :=
  match p with
  | CaptivePortal => 0 | QueryMeta => 1 | AllowName => 2 | Firefox => 3 | ECS => 4 | BlockName => 5
  | BlockIPv6 => 6 | Cloak => 7 | GetSetPayloadSize => 8 | Cache => 9 | Forward => 10
  | BlockUnqualified => 11 | BlockUndelegated => 12 | _ => 99
  end.

Definition response_rank (p : plugin_name) : nat :=
  match p with
  | NxLog => 0 | AllowedIP => 1 | BlockNameResponse => 2 | BlockIP => 3 | DNS64 => 4
  | CacheResponse => 5 | _ => 99
  end.

(** Strictly increasing from [lo] on. *)
Fixpoint increasing (rank : plugin_name -> nat) (lo : nat) (l : list plugin_name) : Prop :=
  match l with
  | [] => True
  | p :: l' => (lo <= rank p)%nat /\ increasing rank (S (rank p)) l'
  end.

Lemma increasing_weaken rank lo lo' l : (lo' <= lo)%nat -> increasing rank lo l -> increasing rank lo' l.
Proof. destruct l; [done|]. intros H [? ?]. split; [lia|done]. Qed.

Lemma increasing_when rank lo b p l : (lo <= rank p)%nat -> increasing rank (S (rank p)) l ->
  increasing rank lo (when b p ++ l).
Proof.
  intros H1 H2. destruct b; [done|]. eapply increasing_weaken; [|exact H2]. lia.
Qed.

Lemma increasing_before rank lo l p q l1 l2 : increasing rank lo l -> l = l1 ++ p :: l2 -> q ∈ l2 ->
  (rank p < rank q)%nat.
Proof.
  assert (forall lo l q, increasing rank lo l -> q ∈ l -> (lo <= rank q)%nat) as Hge.
  { intros lo0 l0 q0. revert lo0. induction l0 as [|x l0 IH]; intros lo0 Hi Hin.
    - by apply not_elem_of_nil in Hin.
    - destruct Hi as [H1 H2]. apply elem_of_cons in Hin as [->|Hin]; [done|].
      specialize (IH _ H2 Hin). lia. }
  intros Hi -> Hin. revert lo Hi. induction l1 as [|x l1 IH]; intros lo [H1 H2].
  - by apply (Hge _ _ _ H2 Hin).
  - by eapply IH.
Qed.

(** The order of the plugins.  Whatever is configured, in the chains that are
    set up a plugin comes before another one only if its rank is lower: names
    are allowed before they are blocked; blocking, cloaking and the reading of
    the client's payload size and DNSSEC flag precede the cache lookup, which
    precedes forwarding; addresses are allowed, then blocked, before a response
    enters the cache. *)
Theorem plugin_order o p q l1 l2 :
  (query_chain o = l1 ++ p :: l2 -> q ∈ l2 -> (query_rank p < query_rank q)%nat) /\
  (response_chain o = l1 ++ p :: l2 -> q ∈ l2 -> (response_rank p < response_rank q)%nat).
Proof.
  split; intros H Hin.
  - eapply (increasing_before _ 0 _ p q l1 l2); [|exact H|done]. unfold query_chain.
    repeat (apply increasing_when; [simpl; lia|]; cbn [query_rank]).
    cbn [app increasing query_rank]. split; [lia|].
    repeat (apply increasing_when; [simpl; lia|]; cbn [query_rank]).
    cbn [app increasing query_rank]. split; [lia|].
    repeat (apply increasing_when; [simpl; lia|]; cbn [query_rank]).
    destruct (opt_blockUndelegated o); simpl; [split; [lia|done]|done].
  - eapply (increasing_before _ 0 _ p q l1 l2); [|exact H|done]. unfold response_chain.
    repeat (apply increasing_when; [simpl; lia|]; cbn [response_rank]).
    destruct (opt_cache o); simpl; [split; [lia|done]|done].
Qed.

(** ** Examples *)

(** A DNS library that knows a few messages, and their positions as packets. *)
Definition few_messages (msgs : list Msg) : DnsLib :=
  {| Unpack := fun b => match b with z :: _ => msgs !! Z.to_nat z | [] => None end;
     Pack := fun m => '(i, _) ← list_find (eq m) msgs; Some (Z.of_nat i :: replicate 19 0);
     EqualName := fun a b => bool_decide (ascii_lower a = ascii_lower b) |}.

Lemma few_messages_laws msgs : DnsLibLaws (few_messages msgs).
Proof.
  split. intros n. simpl. by apply bool_decide_true.
Qed.

Definition sample_question : Msg := sample_msg 0 [].
Definition sample_response : Msg := set_header (set_Response true) (sample_msg 0 [300]).
Definition sample_lib : DnsLib := few_messages [sample_question; sample_response].
Definition sample_packet (i : Z) : bytes := i :: replicate 19 0.

Definition reject_plugin : Plugin unit :=
  fun w ps msg => (None, w, set_returnCode PluginsReturnCodeReject
                              (set_action PluginsActionReject ps), msg).
Definition pass_plugin : Plugin unit := fun w ps msg => (None, w, ps, msg).

Definition sample_globals (qs : list (Plugin unit)) : PluginsGlobals unit :=
  {| queryPlugins := qs; responsePlugins := [pass_plugin]; loggingPlugins := [];
     config := {| refusedCodeInResponses := true; respondWithIPv4 := None; respondWithIPv6 := None |} |}.

Definition sample_state : PluginsState :=
  NewPluginsState {| p_cacheNegMinTTL := 60; p_cacheNegMaxTTL := 600; p_cacheMinTTL := 60;
    p_cacheMaxTTL := 86400; p_rejectTTL := 600; p_timeout := 5 * Second |} client_udp None udp Second.

Lemma query_chain_short_circuit_witness :
  run_plugins (fun m => set_questionMsg (Some m)) (config (sample_globals []))
    ([reject_plugin] ++ [pass_plugin]) tt sample_state sample_question =
  run_plugins (fun m => set_questionMsg (Some m)) (config (sample_globals []))
    [reject_plugin] tt sample_state sample_question.
Proof.
  apply (query_chain_short_circuit (config (sample_globals [])) [reject_plugin] [pass_plugin] tt
    sample_state sample_question); reflexivity.
Defined.

Lemma ApplyResponsePlugins_answers_witness :
  exists m', Unpack (DnsLib := sample_lib) (sample_packet 1) = Some m' /\ Answer m' <> [].
Proof.
  destruct (@ApplyResponsePlugins_answers sample_lib unit
    (sample_globals []) (sample_packet 1) tt
    (set_questionMsg (Some sample_question) sample_state) tt
    (set_questionMsg (Some sample_question) sample_state) (sample_packet 1)
    ltac:(vm_compute; reflexivity)) as (m & m' & H1 & _ & H2 & _).
  exists m. split; [exact H1|]. vm_compute in H1. injection H1 as <-. discriminate.
Defined.

Lemma ApplyQueryPlugins_reject_witness :
  exists w' ps' out r, ApplyQueryPlugins (D := sample_lib) (sample_globals [reject_plugin]) None
    (sample_packet 0) tt sample_state = (None, w', ps', out) /\
  synthResponse ps' = Some r /\ Rcode_ (MH r) = RcodeRefused.
Proof.
  assert (exists w' ps' out, ApplyQueryPlugins (D := sample_lib) (sample_globals [reject_plugin]) None
    (sample_packet 0) tt sample_state = (None, w', ps', out) /\ action ps' = PluginsActionReject /\
    questionMsg ps' = Some sample_question) as (w' & ps' & out & E & Ea & Eq).
  { do 3 eexists. split; [vm_compute; reflexivity|]. split; reflexivity. }
  destruct (@ApplyQueryPlugins_reject sample_lib unit (few_messages_laws _)
    (sample_globals [reject_plugin]) None (sample_packet 0) tt sample_state w' ps' out
    {| q_Name := str "a."; q_Type := TypeA; q_Class := ClassINET |} eq_refl E Ea)
    as (m & r & H1 & H2 & H3 & _).
  { intros m Hm. rewrite Eq in Hm. injection Hm as <-. reflexivity. }
  exists w', ps', out, r. split; [exact E|]. split; [exact H2|].
  rewrite Eq in H1. injection H1 as <-. subst r. reflexivity.
Defined.

Definition sample_options : PluginOptions :=
  {| opt_captivePortal := false; opt_queryMeta := false; opt_allowName := true; opt_ecs := false;
     opt_blockName := true; opt_blockIPv6 := false; opt_cloak := true; opt_cache := true;
     opt_forward := false; opt_blockUnqualified := false; opt_blockUndelegated := false;
     opt_nxLog := false; opt_allowedIP := false; opt_blockIP := true; opt_dns64Resolvers := false;
     opt_dns64Prefixes := false; opt_queryLog := false |}.

Lemma plugin_order_witness : (query_rank AllowName < query_rank BlockName)%nat.
Proof.
  apply (plugin_order sample_options AllowName BlockName []
    [Firefox; BlockName; Cloak; GetSetPayloadSize; Cache]); [reflexivity|].
  do 2 constructor.
Defined.
