(* ===== verification/Glob.v ===== *)
(** * Shell patterns

    Go's [path/filepath.Match] (on systems other than Windows), as the pattern
    matcher uses it: [None] is [ErrBadPattern].  Every round of a loop consumes
    at least a byte of the pattern, so its length is fuel enough. *)

From S2P Require Import Prelude GoStrings.

(** Length of the next chunk: up to a star outside a character class. *)
Fixpoint chunk_length (p : bytes) (inrange : bool) : nat :=
  match p with
  | [] => 0
  | 92 :: _ :: p' => S (S (chunk_length p' inrange))
  | 92 :: [] => 1
  | 91 :: p' => S (chunk_length p' true)
  | 93 :: p' => S (chunk_length p' false)
  | 42 :: p' => if inrange then S (chunk_length p' inrange) else 0
  | _ :: p' => S (chunk_length p' inrange)
  end.

Fixpoint skip_stars (p : bytes) : bool * bytes :=
  match p with
  | 42 :: p' => (true, (skip_stars p').2)
  | _ => (false, p)
  end.

(** Whether the chunk is preceded by a star, the chunk, and the rest. *)
Definition scanChunk (pattern : bytes) : bool * bytes * bytes :=
  let '(star, p) := skip_stars pattern in
  let n := chunk_length p false in
  (star, take n p, drop n p).

Definition getEsc (chunk : bytes) : option (Z * bytes) :=
  match chunk with
  | [] | 45 :: _ | 93 :: _ => None
  | 92 :: [] => None
  | _ =>
      let chunk := match chunk with 92 :: c => c | _ => chunk end in
      let '(r, n) := DecodeRune chunk in
      if (r =? RuneError) && (n =? 1)%nat then None
      else match drop n chunk with [] => None | nchunk => Some (r, nchunk) end
  end.

(** The ranges of a character class: whether [r] is in one of them, and what
    follows the class. *)
Fixpoint class_loop (fuel : nat) (r : Z) (chunk : bytes) (nrange : nat) (matched : bool)
    : option (bool * bytes) :=
  match fuel with
  | O => None
  | S fuel' =>
      match chunk, nrange with
      | 93 :: chunk', S _ => Some (matched, chunk')
      | _, _ =>
          '(lo, chunk) ← getEsc chunk;
          '(hi, chunk) ← match chunk with
                         | 45 :: chunk' => getEsc chunk'
                         | _ => Some (lo, chunk)
                         end;
          class_loop fuel' r chunk (S nrange) (matched || ((lo <=? r) && (r <=? hi)))
      end
  end.

Definition Separator : Z := 47.

(** [failed] stays set once the chunk cannot match; the rest of it is still
    checked.  [Some None]: no match. *)
Fixpoint matchChunk_loop (fuel : nat) (chunk s : bytes) (failed : bool)
    : option (option bytes) :=
  match fuel with
  | O => None
  | S fuel' =>
      match chunk with
      | [] => Some (if failed then None else Some s)
      | c :: chunk' =>
          let failed := failed || (len s =? 0) in
          if c =? 91 then
            let '(r, n) := if failed then (0, 0%nat) else DecodeRune s in
            let s := drop n s in
            let '(negated, chunk') := match chunk' with
                                      | 94 :: chunk'' => (true, chunk'')
                                      | _ => (false, chunk')
                                      end in
            '(matched, chunk') ← class_loop (S (length chunk')) r chunk' 0 false;
            matchChunk_loop fuel' chunk' s (failed || Bool.eqb matched negated)
          else if c =? 63 then
            let bad := match s with x :: _ => x =? Separator | [] => false end in
            let n := if failed then 0%nat else (DecodeRune s).2 in
            matchChunk_loop fuel' chunk' (drop n s) (failed || bad)
          else
            lit ← (if c =? 92 then match chunk' with
                                   | [] => None
                                   | c' :: chunk'' => Some (c', chunk'')
                                   end
                   else Some (c, chunk'));
            let '(c, chunk') := lit in
            if failed then matchChunk_loop fuel' chunk' s true
            else match s with
                 | x :: s' => matchChunk_loop fuel' chunk' s' (negb (c =? x))
                 | [] => matchChunk_loop fuel' chunk' s true
                 end
      end
  end.

Definition matchChunk (chunk s : bytes) : option (option bytes) :=
  matchChunk_loop (S (length chunk)) chunk s false.

(** The positions after a star, up to a separator: the rest of the name after
    the first one where the chunk matches. *)
Fixpoint star_loop (chunk name : bytes) (last : bool) : option (option bytes) :=
  match name with
  | [] => Some None
  | x :: name' =>
      if x =? Separator then Some None
      else
        m ← matchChunk chunk name';
        match m with
        | Some t => if last && (0 <? length t)%nat then star_loop chunk name' last
                    else Some (Some t)
        | None => star_loop chunk name' last
        end
  end.

(** The check of the rest of a pattern that does not match. *)
Fixpoint check_rest (fuel : nat) (pattern : bytes) : option bool :=
  match fuel, pattern with
  | O, _ | _, [] => Some false
  | S fuel', _ =>
      let '(_, chunk, rest) := scanChunk pattern in
      _ ← matchChunk chunk [];
      check_rest fuel' rest
  end.

Fixpoint match_loop (fuel : nat) (pattern name : bytes) : option bool :=
  match fuel, pattern with
  | O, _ => None
  | _, [] => Some (len name =? 0)
  | S fuel', _ =>
      let '(star, chunk, rest) := scanChunk pattern in
      if star && (len chunk =? 0) then Some (negb (bool_decide (Separator ∈ name)))
      else
        m ← matchChunk chunk name;
        match m with
        | Some t =>
            if (len t =? 0) || (len rest >? 0) then match_loop fuel' rest t
            else if star then
              m ← star_loop chunk name (len rest =? 0);
              match m with
              | Some t => match_loop fuel' rest t
              | None => check_rest fuel' rest
              end
            else check_rest fuel' rest
        | None =>
            if star then
              m ← star_loop chunk name (len rest =? 0);
              match m with
              | Some t => match_loop fuel' rest t
              | None => check_rest fuel' rest
              end
            else check_rest fuel' rest
        end
  end.

Definition filepath_Match (pattern name : bytes) : option bool :=
  match_loop (S (length pattern)) pattern name.

Example glob_star : filepath_Match (str "ads*.example.com") (str "ads12.example.com") = Some true
  /\ filepath_Match (str "ads*.example.com") (str "example.com") = Some false.
Proof. split; vm_compute; reflexivity. Qed.
Example glob_class : filepath_Match (str "[a-c]?.x") (str "bz.x") = Some true
  /\ filepath_Match (str "[^a-c]?.x") (str "bz.x") = Some false.
Proof. split; vm_compute; reflexivity. Qed.
Example glob_bad : filepath_Match (str "a[b") (str "zz") = None
  /\ filepath_Match (str "x*[]") (str "zz") = None.
Proof. split; vm_compute; reflexivity. Qed.
Example glob_two_stars : filepath_Match (str "a*b*c") (str "axxbyybzc") = Some true.
Proof. vm_compute. reflexivity. Qed.
