(* ===== verification/PrefixTree.v ===== *)
(** * Prefix trees

    The interface of the radix tree the rules are kept in (critbitgo): the
    first value inserted under a key stays, and the longest key that is a
    prefix of a string can be found.  [PrefixTreeLaws] is what clients are
    proved against; finite maps searched from the longest prefix down are an
    instance. *)

From S2P Require Import Prelude GoStrings.

Class PrefixTree (T : Type -> Type) := {
  tree_empty : forall {V}, T V;
  tree_insert : forall {V}, bytes -> V -> T V -> T V;
  tree_longest_prefix : forall {V}, T V -> bytes -> option (bytes * V);
  tree_map : forall {V}, T V -> gmap bytes V;
}.

Class PrefixTreeLaws (T : Type -> Type) `{P : PrefixTree T} := {
  tree_map_empty : forall V, tree_map (tree_empty : T V) = ∅;
  tree_map_insert : forall V k v (t : T V),
    tree_map (tree_insert k v t) =
      match tree_map t !! k with Some _ => tree_map t | None => <[k := v]> (tree_map t) end;
  tree_longest_prefix_Some : forall V (t : T V) s k v,
    tree_longest_prefix t s = Some (k, v) ->
    tree_map t !! k = Some v /\ HasPrefix s k = true /\
    (forall k', is_Some (tree_map t !! k') -> HasPrefix s k' = true -> (length k' <= length k)%nat);
  tree_longest_prefix_None : forall V (t : T V) s,
    tree_longest_prefix t s = None ->
    forall k, is_Some (tree_map t !! k) -> HasPrefix s k = false;
}.

(** ** Finite maps *)

(** The longest of the prefixes of [s] with at most [n] bytes. *)
Fixpoint search_prefix {V} (m : gmap bytes V) (s : bytes) (n : nat) : option (bytes * V) :=
  match m !! take n s with
  | Some v => Some (take n s, v)
  | None => match n with O => None | S n' => search_prefix m s n' end
  end.

#[global] Instance gmap_tree : PrefixTree (gmap bytes) := {|
  tree_empty V := ∅;
  tree_insert V k v m := match m !! k with Some _ => m | None => <[k := v]> m end;
  tree_longest_prefix V m s := search_prefix m s (length s);
  tree_map V m := m;
|}.

Lemma HasPrefix_take s k : HasPrefix s k = true -> k = take (length k) s /\ (length k <= length s)%nat.
Proof.
  rewrite HasPrefix_spec. intros [r ->]. rewrite take_app_length, length_app. split; [done|lia].
Qed.

Lemma take_HasPrefix s n : HasPrefix s (take n s) = true.
Proof. apply HasPrefix_spec. exists (drop n s). by rewrite take_drop. Qed.

Lemma search_prefix_spec {V} (m : gmap bytes V) s n : (n <= length s)%nat ->
  match search_prefix m s n with
  | Some (k, v) => m !! k = Some v /\ HasPrefix s k = true /\
      forall k', is_Some (m !! k') -> HasPrefix s k' = true -> (length k' <= n)%nat ->
        (length k' <= length k)%nat
  | None => forall k, is_Some (m !! k) -> HasPrefix s k = true -> (n < length k)%nat
  end.
Proof.
  induction n as [|n IH]; intros Hn; cbn [search_prefix].
  - destruct (m !! take 0 s) as [v|] eqn:E.
    + split_and!; [done|apply take_HasPrefix|]. intros k' _ _ H. simpl. lia.
    + intros k Hk Hp. destruct (HasPrefix_take _ _ Hp) as [Hkt _].
      destruct (length k) eqn:El; [|lia]. rewrite take_0 in E, Hkt. subst k.
      rewrite E in Hk. by destruct Hk.
  - destruct (m !! take (S n) s) as [v|] eqn:E.
    + split_and!; [done|apply take_HasPrefix|]. intros k' _ _ H. rewrite length_take. lia.
    + specialize (IH ltac:(lia)). destruct (search_prefix m s n) as [[k v]|].
      * destruct IH as (H1 & H2 & H3). split_and!; try done. intros k' Hk' Hp Hl.
        apply H3; [done|done|]. destruct (HasPrefix_take _ _ Hp) as [Hkt _].
        assert (length k' <> S n); [|lia]. intros El. rewrite El in Hkt. subst k'.
        rewrite E in Hk'. by destruct Hk'.
      * intros k Hk Hp. specialize (IH k Hk Hp). destruct (HasPrefix_take _ _ Hp) as [Hkt _].
        assert (length k <> S n); [|lia]. intros El. rewrite El in Hkt. subst k.
        rewrite E in Hk. by destruct Hk.
Qed.

#[global] Instance gmap_tree_laws : PrefixTreeLaws (gmap bytes).
Proof.
  split.
  - done.
  - done.
  - intros V t s k v H. simpl in *. pose proof (search_prefix_spec t s (length s) ltac:(lia)) as Hs.
    rewrite H in Hs. destruct Hs as (H1 & H2 & H3). split_and!; try done.
    intros k' Hk' Hp. apply H3; [done|done|]. by destruct (HasPrefix_take _ _ Hp).
  - intros V t s H k Hk. simpl in *. pose proof (search_prefix_spec t s (length s) ltac:(lia)) as Hs.
    rewrite H in Hs. destruct (HasPrefix s k) eqn:E; [|done].
    specialize (Hs k Hk E). destruct (HasPrefix_take _ _ E). lia.
Qed.
