(* ===== verification/PatternMatcher.v ===== *)
(** * Pattern matcher (src/dnscrypt-proxy/pattern_matcher.go)

    The rules of block and allow lists, of cloaking and of others: exact names,
    suffixes, prefixes, substrings and shell patterns, looked up in that
    order. *)

From S2P Require Import Prelude GoStrings Common Glob PrefixTree.

Inductive PatternType :=
| PatternTypePrefix | PatternTypeSuffix | PatternTypeSubstring
| PatternTypePattern | PatternTypeExact.

#[global] Instance PatternType_eq_dec : EqDecision PatternType.
Proof. solve_decision. Defined.

(** The scan of [isGlobCandidate]; [i] is the index of the next byte and [n] the
    length of the whole string.  The characters looked for are ASCII, so that
    scanning bytes or runes is the same. *)
Fixpoint glob_scan (s : bytes) (i n : nat) : bool :=
  match s with
  | [] => false
  | c :: s' =>
      if (c =? 63) || (c =? 91) then true
      else if (c =? 42) && negb (i =? 0)%nat && negb (i =? n - 1)%nat then true
      else glob_scan s' (S i) n
  end.
Definition isGlobCandidate (s : bytes) : bool := glob_scan s 0 (length s).

(** First part of [Add]: the type of a rule and its text without the
    wildcards; [None] is a syntax error. *)
Definition classify_pattern (unicode_lower : bytes -> bytes) (pattern : bytes)
    : option (PatternType * bytes) :=
  let leadingStar := HasPrefix pattern (str "*") in
  let trailingStar := HasSuffix pattern (str "*") in
  let exact := HasPrefix pattern (str "=") in
  '(ty, p) ←
    (if isGlobCandidate pattern then
       if (len pattern <? 2) || bool_decide (filepath_Match pattern (str "example.com") = None)
       then None else Some (PatternTypePattern, pattern)
     else if leadingStar && trailingStar then
       if len pattern <? 3 then None
       else Some (PatternTypeSubstring, take (length pattern - 2) (drop 1 pattern))
     else if trailingStar then
       if len pattern <? 2 then None
       else Some (PatternTypePrefix, take (length pattern - 1) pattern)
     else if exact then
       if len pattern <? 2 then None else Some (PatternTypeExact, drop 1 pattern)
     else
       let pattern := if leadingStar then drop 1 pattern else pattern in
       Some (PatternTypeSuffix, TrimPrefix pattern (str ".")));
  if len p =? 0 then None else Some (ty, ToLower unicode_lower p).

Section matcher.
Context {T : Type -> Type} `{PT : PrefixTree T} {V : Type}.

Record PatternMatcher := {
  prefixes : T V;
  suffixes : T V;
  substrings : list bytes;
  patterns : list bytes;
  exact : gmap bytes V;
  indirectVals : gmap bytes V;
}.

Definition NewPatternMatcher : PatternMatcher :=
  {| prefixes := tree_empty; suffixes := tree_empty; substrings := []; patterns := [];
     exact := ∅; indirectVals := ∅ |}.

Definition add_classified (ty : PatternType) (p : bytes) (val : V) (m : PatternMatcher)
    : PatternMatcher :=
  match ty with
  | PatternTypeSubstring =>
      {| prefixes := prefixes m; suffixes := suffixes m; substrings := substrings m ++ [p];
         patterns := patterns m; exact := exact m;
         indirectVals := <[p := val]> (indirectVals m) |}
  | PatternTypePattern =>
      {| prefixes := prefixes m; suffixes := suffixes m; substrings := substrings m;
         patterns := patterns m ++ [p]; exact := exact m;
         indirectVals := <[p := val]> (indirectVals m) |}
  | PatternTypePrefix =>
      {| prefixes := tree_insert p val (prefixes m); suffixes := suffixes m;
         substrings := substrings m; patterns := patterns m; exact := exact m;
         indirectVals := indirectVals m |}
  | PatternTypeSuffix =>
      {| prefixes := prefixes m; suffixes := tree_insert (StringReverse p ++ str ".") val (suffixes m);
         substrings := substrings m; patterns := patterns m; exact := exact m;
         indirectVals := indirectVals m |}
  | PatternTypeExact =>
      {| prefixes := prefixes m; suffixes := suffixes m; substrings := substrings m;
         patterns := patterns m; exact := <[p := val]> (exact m);
         indirectVals := indirectVals m |}
  end.

(** [Add]; [None] is the error. *)
Definition pm_Add (unicode_lower : bytes -> bytes) (pattern : bytes) (val : V) (m : PatternMatcher)
    : option PatternMatcher :=
  '(ty, p) ← classify_pattern unicode_lower pattern; Some (add_classified ty p val m).

(** [Eval]: the reason and the value of the rule that matches.  A value missing
    from [indirectVals] would be a nil value. *)
Definition pm_Eval (m : PatternMatcher) (qName : bytes) : option (bytes * option V) :=
  if len qName <? 2 then None
  else match exact m !! qName with
  | Some xval => Some (qName, Some xval)
  | None =>
      match tree_longest_prefix (suffixes m) (StringReverse qName ++ str ".") with
      | Some (k, xval) =>
          Some (str "*." ++ StringReverse (take (length k - 1) k), Some xval)
      | None =>
          match tree_longest_prefix (prefixes m) qName with
          | Some (k, xval) => Some (k ++ str "*", Some xval)
          | None =>
              match List.find (Contains qName) (substrings m) with
              | Some s => Some (str "*" ++ s ++ str "*", indirectVals m !! s)
              | None =>
                  match List.find (fun p => bool_decide (filepath_Match p qName = Some true))
                          (patterns m) with
                  | Some p => Some (p, indirectVals m !! p)
                  | None => None
                  end
              end
          end
      end
  end.

(** ** Specification *)

(** What a rule of a type matches. *)
Definition rule_matches (ty : PatternType) (p qName : bytes) : Prop :=
  match ty with
  | PatternTypeExact => qName = p
  | PatternTypeSuffix => qName = p \/ exists s, qName = s ++ [46] ++ p
  | PatternTypePrefix => exists s, qName = p ++ s
  | PatternTypeSubstring => exists a b, qName = a ++ p ++ b
  | PatternTypePattern => filepath_Match p qName = Some true
  end.

Notation rule := (PatternType * bytes * V)%type.

Definition load (rules : list rule) : PatternMatcher :=
  fold_left (fun m '(ty, p, val) => add_classified ty p val m) rules NewPatternMatcher.

Definition ascii_bytes (s : bytes) : Prop := Forall (fun b => 0 <= b < 128) s.

(** Every rule kept by the matcher comes from the list of rules, and every rule
    of the list is kept; a value that differs comes from another rule with the
    same type and text. *)
Definition has_rule (rules : list rule) (ty : PatternType) (p : bytes) : Prop :=
  exists v, (ty, p, v) ∈ rules.

(** A tree, and the map of the exact names, that hold the rules of type [ty]
    under the keys [f p]. *)
Definition map_holds (f : bytes -> bytes) (ty : PatternType) (t : gmap bytes V)
    (rules : list rule) : Prop :=
  (forall k v, t !! k = Some v -> exists p, k = f p /\ (ty, p, v) ∈ rules) /\
  (forall p, has_rule rules ty p -> is_Some (t !! f p)).

Definition list_holds (ty : PatternType) (l : list bytes) (rules : list rule) : Prop :=
  forall p, p ∈ l <-> has_rule rules ty p.

Definition indirect_holds (t : gmap bytes V) (rules : list rule) : Prop :=
  (forall p v, t !! p = Some v ->
     (PatternTypeSubstring, p, v) ∈ rules \/ (PatternTypePattern, p, v) ∈ rules) /\
  (forall p, has_rule rules PatternTypeSubstring p \/ has_rule rules PatternTypePattern p ->
     is_Some (t !! p)).

Definition suffix_key (p : bytes) : bytes := StringReverse p ++ str ".".

Record holds (m : PatternMatcher) (rules : list rule) : Prop := {
  h_exact : map_holds id PatternTypeExact (exact m) rules;
  h_suffix : map_holds suffix_key PatternTypeSuffix (tree_map (suffixes m)) rules;
  h_prefix : map_holds id PatternTypePrefix (tree_map (prefixes m)) rules;
  h_substring : list_holds PatternTypeSubstring (substrings m) rules;
  h_pattern : list_holds PatternTypePattern (patterns m) rules;
  h_indirect : indirect_holds (indirectVals m) rules;
}.

Context `{!PrefixTreeLaws T}.

Lemma has_rule_snoc rules ty p ty' p' (v' : V) :
  has_rule (rules ++ [(ty', p', v')]) ty p <-> has_rule rules ty p \/ (ty = ty' /\ p = p').
Proof.
  unfold has_rule. split.
  - intros [v [H|H]%elem_of_app]; [left; eauto|]. apply list_elem_of_singleton in H. right. by simplify_eq.
  - intros [[v H]|[-> ->]]; [exists v|exists v']; apply elem_of_app; [by left|right; by constructor].
Qed.

Lemma map_holds_other f ty ty' p v t rules : ty <> ty' ->
  map_holds f ty t rules -> map_holds f ty t (rules ++ [(ty', p, v)]).
Proof.
  intros Hne [H1 H2]. split.
  - intros k w (q & -> & Hq)%H1. exists q. split; [done|]. apply elem_of_app. by left.
  - intros q [Hq|[? _]]%has_rule_snoc; [auto|done].
Qed.

Lemma map_holds_insert f ty p v t rules :
  map_holds f ty t rules -> map_holds f ty (<[f p := v]> t) (rules ++ [(ty, p, v)]).
Proof.
  intros [H1 H2]. split.
  - intros k w [[Hk Hw]|[_ (q & -> & Hq)%H1]]%lookup_insert_Some.
    + subst. exists p. split; [done|]. apply elem_of_app. right. by constructor.
    + exists q. split; [done|]. apply elem_of_app. by left.
  - intros q [Hq|[_ Hq]]%has_rule_snoc; apply lookup_insert_is_Some'; [right; auto|left; by subst].
Qed.

Lemma map_holds_tree f ty p v (t : T V) rules :
  map_holds f ty (tree_map t) rules ->
  map_holds f ty (tree_map (tree_insert (f p) v t)) (rules ++ [(ty, p, v)]).
Proof.
  intros H. rewrite tree_map_insert. destruct (tree_map t !! f p) eqn:E.
  - destruct H as [H1 H2]. split.
    + intros k w (q & -> & Hq)%H1. exists q. split; [done|]. apply elem_of_app. by left.
    + intros q [Hq|[_ Hq]]%has_rule_snoc; [auto|subst; eauto].
  - by apply map_holds_insert.
Qed.

Lemma list_holds_other ty ty' p v l rules : ty <> ty' ->
  list_holds ty l rules -> list_holds ty l (rules ++ [(ty', p, v)]).
Proof. intros Hne H q. rewrite has_rule_snoc, <- (H q). naive_solver. Qed.

Lemma list_holds_snoc ty p v l rules :
  list_holds ty l rules -> list_holds ty (l ++ [p]) (rules ++ [(ty, p, v)]).
Proof.
  intros H q. rewrite has_rule_snoc, <- (H q), elem_of_app, list_elem_of_singleton. naive_solver.
Qed.

Lemma indirect_holds_other ty p v t rules :
  ty <> PatternTypeSubstring -> ty <> PatternTypePattern ->
  indirect_holds t rules -> indirect_holds t (rules ++ [(ty, p, v)]).
Proof.
  intros Hs Hp [H1 H2]. split.
  - intros q w [Hq|Hq]%H1; [left|right]; apply elem_of_app; by left.
  - intros q. rewrite !has_rule_snoc. naive_solver.
Qed.

Lemma indirect_holds_insert ty p v t rules :
  ty = PatternTypeSubstring \/ ty = PatternTypePattern ->
  indirect_holds t rules -> indirect_holds (<[p := v]> t) (rules ++ [(ty, p, v)]).
Proof.
  intros Hty [H1 H2]. split.
  - intros q w [[Hk Hw]|[_ Hq]]%lookup_insert_Some.
    + subst. destruct Hty; subst; [left|right]; apply elem_of_app; right; by constructor.
    + destruct (H1 _ _ Hq); [left|right]; apply elem_of_app; by left.
  - intros q. rewrite !has_rule_snoc, lookup_insert_is_Some'. naive_solver.
Qed.

Lemma holds_new : holds NewPatternMatcher [].
Proof.
  assert (forall ty p, ~ has_rule [] ty p) as Hno by (intros ty p [v Hv]; by apply not_elem_of_nil in Hv).
  split; cbn [NewPatternMatcher exact suffixes prefixes substrings patterns indirectVals];
    rewrite ?tree_map_empty; try (split; intros *; rewrite ?lookup_empty; naive_solver).
  all: intros p; split; [by intros ?%not_elem_of_nil|intros Hp; by apply Hno in Hp].
Qed.

Lemma holds_add m rules ty p v : holds m rules ->
  holds (add_classified ty p v m) (rules ++ [(ty, p, v)]).
Proof.
  intros [H1 H2 H3 H4 H5 H6].
  destruct ty; split; cbn [add_classified exact suffixes prefixes substrings patterns indirectVals];
    first [ by apply map_holds_other | by apply (map_holds_insert id)
          | by apply (map_holds_tree id) | by apply (map_holds_tree suffix_key)
          | by apply list_holds_other | by apply list_holds_snoc
          | by apply indirect_holds_other | by apply indirect_holds_insert; auto ].
Qed.

Lemma holds_load_from m rules0 rules : holds m rules0 ->
  holds (fold_left (fun m '(ty, p, val) => add_classified ty p val m) rules m) (rules0 ++ rules).
Proof.
  revert m rules0. induction rules as [|[[ty p] v] rules IH]; intros m rules0 H; simpl.
  - by rewrite app_nil_r.
  - rewrite (cons_middle (ty, p, v)), app_assoc. apply IH. by apply holds_add.
Qed.

Lemma holds_load rules : holds (load rules) rules.
Proof. apply (holds_load_from _ []). apply holds_new. Qed.

(** ** Which rule is found *)

Lemma suffix_key_ascii p : ascii_bytes p -> suffix_key p = reverse (46 :: p).
Proof. intros H. unfold suffix_key. by rewrite StringReverse_ascii, reverse_cons. Qed.

Lemma suffix_key_match p q : ascii_bytes p -> ascii_bytes q ->
  HasPrefix (suffix_key q) (suffix_key p) = true <-> rule_matches PatternTypeSuffix p q.
Proof.
  intros Hp Hq. rewrite !suffix_key_ascii by done.
  change (HasPrefix (reverse (46 :: q)) (reverse (46 :: p))) with (HasSuffix (46 :: q) (46 :: p)).
  rewrite HasSuffix_spec. simpl. split.
  - intros [[|x k] Hk]; simplify_eq/=; [by left|right; by exists k].
  - intros [->|[k ->]]; [by exists []|by exists (46 :: k)].
Qed.

Lemma suffix_key_length p : ascii_bytes p -> length (suffix_key p) = S (length p).
Proof. intros H. rewrite suffix_key_ascii by done. by rewrite length_reverse. Qed.

Lemma suffix_key_text p : ascii_bytes p ->
  StringReverse (take (length (suffix_key p) - 1) (suffix_key p)) = p.
Proof.
  intros H. rewrite suffix_key_length by done. replace (S (length p) - 1)%nat with (length p) by lia.
  unfold suffix_key. rewrite !(StringReverse_ascii p) by done.
  rewrite <- (length_reverse p) at 1. rewrite take_app_length.
  rewrite StringReverse_ascii by (by apply Forall_reverse). apply reverse_involutive.
Qed.

(** The order in which the types are looked up, and how a rule is shown. *)
Definition rank (ty : PatternType) : nat :=
  match ty with
  | PatternTypeExact => 0 | PatternTypeSuffix => 1 | PatternTypePrefix => 2
  | PatternTypeSubstring => 3 | PatternTypePattern => 4
  end.

Definition rule_text (ty : PatternType) (p : bytes) : bytes :=
  match ty with
  | PatternTypeExact | PatternTypePattern => p
  | PatternTypeSuffix => str "*." ++ p
  | PatternTypePrefix => p ++ str "*"
  | PatternTypeSubstring => str "*" ++ p ++ str "*"
  end.

(** [p] is the rule to use for [q]: it matches, no matching rule has a type
    looked up earlier, and no longer suffix or prefix matches. *)
Definition best_rule (rules : list rule) (q : bytes) (ty : PatternType) (p : bytes) : Prop :=
  rule_matches ty p q /\
  (forall ty' p', has_rule rules ty' p' -> rule_matches ty' p' q ->
     (rank ty <= rank ty')%nat /\
     (ty' = ty -> ty = PatternTypeSuffix \/ ty = PatternTypePrefix ->
        (length p' <= length p)%nat)).

(** Texts of shell patterns contain a wildcard, texts of substrings do not: the
    two can share a map of values. *)
Definition wild (p : bytes) : Prop := Exists (fun c => c = 42 \/ c = 63 \/ c = 91) p.

Record wf_rules (rules : list rule) : Prop := {
  wf_ascii : forall ty p, has_rule rules ty p -> ascii_bytes p;
  wf_pattern : forall p, has_rule rules PatternTypePattern p -> wild p;
  wf_substring : forall p, has_rule rules PatternTypeSubstring p -> ~ wild p;
}.

Lemma indirect_value t rules ty p : wf_rules rules -> indirect_holds t rules ->
  ty = PatternTypeSubstring \/ ty = PatternTypePattern -> has_rule rules ty p ->
  exists v, t !! p = Some v /\ (ty, p, v) ∈ rules.
Proof.
  intros Hwf [H1 H2] Hty Hr. destruct (H2 p) as [v Hv]; [destruct Hty; subst; auto|].
  exists v. split; [done|].
  destruct (H1 _ _ Hv) as [H|H], Hty as [->| ->]; try done; exfalso.
  - by eapply (wf_substring _ Hwf p); [by exists v|apply (wf_pattern _ Hwf)].
  - by eapply (wf_substring _ Hwf p); [done|apply (wf_pattern _ Hwf); by exists v].
Qed.

Lemma no_exact m rules q p : holds m rules -> exact m !! q = None ->
  has_rule rules PatternTypeExact p -> ~ rule_matches PatternTypeExact p q.
Proof. intros [[_ H] _ _ _ _ _] Hq [v Hv]%H Hm. simpl in Hm. subst. unfold id in *. congruence. Qed.

Lemma no_suffix m rules q p : holds m rules -> wf_rules rules -> ascii_bytes q ->
  tree_longest_prefix (suffixes m) (suffix_key q) = None ->
  has_rule rules PatternTypeSuffix p -> ~ rule_matches PatternTypeSuffix p q.
Proof.
  intros [_ [_ H] _ _ _ _] Hwf Hq Hn Hp Hm.
  pose proof (tree_longest_prefix_None _ _ _ Hn _ (H _ Hp)) as Hf.
  apply suffix_key_match in Hm; [congruence|by eapply wf_ascii|done].
Qed.

Lemma no_prefix m rules q p : holds m rules ->
  tree_longest_prefix (prefixes m) q = None ->
  has_rule rules PatternTypePrefix p -> ~ rule_matches PatternTypePrefix p q.
Proof.
  intros [_ _ [_ H] _ _ _] Hn Hp Hm.
  pose proof (tree_longest_prefix_None _ _ _ Hn _ (H _ Hp)) as Hf.
  apply HasPrefix_spec in Hm. unfold id in *. congruence.
Qed.

Lemma no_listed (f : bytes -> bool) (l : list bytes) p : List.find f l = None -> p ∈ l -> f p = false.
Proof. intros H Hp. eapply List.find_none; [done|]. by apply list_elem_of_In. Qed.

Lemma rank_le rules q ty p :
  (forall ty' p', has_rule rules ty' p' -> rule_matches ty' p' q -> (rank ty <= rank ty')%nat) ->
  rule_matches ty p q ->
  (ty = PatternTypeSuffix \/ ty = PatternTypePrefix ->
     forall p', has_rule rules ty p' -> rule_matches ty p' q -> (length p' <= length p)%nat) ->
  best_rule rules q ty p.
Proof.
  intros Hr Hm Hl. split; [done|]. intros ty' p' H1 H2. split; [eauto|]. intros ->. eauto.
Qed.

Lemma longest_suffix m rules q k v : holds m rules -> wf_rules rules -> ascii_bytes q ->
  tree_longest_prefix (suffixes m) (suffix_key q) = Some (k, v) ->
  exists p, k = suffix_key p /\ ascii_bytes p /\ (PatternTypeSuffix, p, v) ∈ rules /\
    rule_matches PatternTypeSuffix p q /\
    forall p', has_rule rules PatternTypeSuffix p' -> rule_matches PatternTypeSuffix p' q ->
      (length p' <= length p)%nat.
Proof.
  intros [_ Hs _ _ _ _] Hwf Hq E.
  destruct (tree_longest_prefix_Some _ _ _ _ _ E) as (Hk & Hpre & Hmax).
  destruct (proj1 Hs _ _ Hk) as (p & -> & Hin).
  assert (ascii_bytes p) as Hap by (eapply wf_ascii; [done|by exists v]).
  exists p. split_and!; [done|done|done|by apply suffix_key_match|].
  intros p' Hp' Hm. pose proof (wf_ascii _ Hwf _ _ Hp').
  specialize (Hmax (suffix_key p') (proj2 Hs _ Hp')).
  rewrite !suffix_key_length in Hmax by done. apply suffix_key_match in Hm; [|done..].
  specialize (Hmax Hm). lia.
Qed.

Lemma longest_prefix m rules q k v : holds m rules ->
  tree_longest_prefix (prefixes m) q = Some (k, v) ->
  (PatternTypePrefix, k, v) ∈ rules /\ rule_matches PatternTypePrefix k q /\
  forall p', has_rule rules PatternTypePrefix p' -> rule_matches PatternTypePrefix p' q ->
    (length p' <= length k)%nat.
Proof.
  intros [_ _ Hp _ _ _] E.
  destruct (tree_longest_prefix_Some _ _ _ _ _ E) as (Hk & Hpre & Hmax).
  destruct (proj1 Hp _ _ Hk) as (p & Heq & Hin). unfold id in Heq. subst k.
  split_and!; [done|by apply HasPrefix_spec|].
  intros p' Hp' Hm. apply Hmax; [by apply (proj2 Hp)|by apply HasPrefix_spec].
Qed.

Lemma pm_Eval_rules m rules q : holds m rules -> wf_rules rules -> ascii_bytes q -> 2 <= len q ->
  match pm_Eval m q with
  | Some (reason, val) => exists ty p v, (ty, p, v) ∈ rules /\ best_rule rules q ty p /\
      reason = rule_text ty p /\ val = Some v
  | None => forall ty p, has_rule rules ty p -> ~ rule_matches ty p q
  end.
Proof.
  intros Hh Hwf Hq Hlen. pose proof Hh as [He Hs Hp Hsub Hpat Hind].
  unfold pm_Eval. rewrite (proj2 (Z.ltb_ge _ _)) by done.
  destruct (exact m !! q) as [v|] eqn:E1.
  { destruct (proj1 He _ _ E1) as (p & Hk & Hin). unfold id in Hk. subst p.
    exists PatternTypeExact, q, v. split_and!; try done. apply rank_le; [simpl; lia|done|by intros [?|?]]. }
  pose proof (fun p => no_exact m rules q p Hh E1) as N1.
  fold (suffix_key q). destruct (tree_longest_prefix (suffixes m) (suffix_key q)) as [[k v]|] eqn:E2.
  { destruct (longest_suffix _ _ _ _ _ Hh Hwf Hq E2) as (p & -> & Hap & Hin & Hm & Hmax).
    rewrite suffix_key_text by done. exists PatternTypeSuffix, p, v. split_and!; try done.
    apply rank_le; [|done|auto]. intros [] p' Hp' Hm'; simpl; try lia. by destruct (N1 p' Hp'). }
  pose proof (fun p => no_suffix m rules q p Hh Hwf Hq E2) as N2.
  destruct (tree_longest_prefix (prefixes m) q) as [[k v]|] eqn:E3.
  { destruct (longest_prefix _ _ _ _ _ Hh E3) as (Hin & Hm & Hmax).
    exists PatternTypePrefix, k, v. split_and!; try done. apply rank_le; [|done|auto].
    intros [] p' Hp' Hm'; simpl; try lia; [by destruct (N2 p' Hp')|by destruct (N1 p' Hp')]. }
  pose proof (fun p => no_prefix m rules q p Hh E3) as N3.
  destruct (List.find (Contains q) (substrings m)) as [p|] eqn:E4.
  { apply List.find_some in E4 as [Hin%list_elem_of_In Hc]. apply Hsub in Hin.
    destruct (indirect_value _ _ _ _ Hwf Hind (or_introl eq_refl) Hin) as (v & Hv & Hr).
    exists PatternTypeSubstring, p, v. split_and!; try done.
    apply rank_le; [|by apply Contains_spec|by intros [?|?]].
    intros [] p' Hp' Hm; simpl; try lia;
      [by destruct (N3 p' Hp')|by destruct (N2 p' Hp')|by destruct (N1 p' Hp')]. }
  assert (forall p, has_rule rules PatternTypeSubstring p -> ~ rule_matches PatternTypeSubstring p q) as N4.
  { intros p Hin%Hsub Hm%Contains_spec. rewrite (no_listed _ _ _ E4 Hin) in Hm. done. }
  destruct (List.find _ (patterns m)) as [p|] eqn:E5.
  { apply List.find_some in E5 as [Hin%list_elem_of_In Hc%bool_decide_eq_true]. apply Hpat in Hin.
    destruct (indirect_value _ _ _ _ Hwf Hind (or_intror eq_refl) Hin) as (v & Hv & Hr).
    exists PatternTypePattern, p, v. split_and!; try done.
    apply rank_le; [|done|by intros [?|?]].
    intros [] p' Hp' Hm; simpl; try lia; exfalso; naive_solver. }
  intros [] p Hp' Hm; try naive_solver.
  apply Hpat in Hp'. pose proof (no_listed _ _ _ E5 Hp') as Hf. simpl in Hm.
  apply bool_decide_eq_false in Hf. done.
Qed.

(** ** From the lines of a list to its rules *)

Lemma glob_scan_wild s i n : glob_scan s i n = true -> wild s.
Proof.
  revert i. induction s as [|c s IH]; intros i; simpl; [done|].
  destruct ((c =? 63) || (c =? 91)) eqn:E1.
  { intros _. left. apply orb_true_iff in E1 as [?%Z.eqb_eq|?%Z.eqb_eq]; auto. }
  destruct (c =? 42) eqn:E2; simpl.
  { intros _. left. apply Z.eqb_eq in E2. auto. }
  intros H. right. by eapply IH.
Qed.

Lemma glob_scan_plain s i n j c : glob_scan s i n = false -> s !! j = Some c ->
  (i + j <> 0)%nat -> (i + j <> n - 1)%nat -> c <> 42 /\ c <> 63 /\ c <> 91.
Proof.
  revert i j. induction s as [|x s IH]; intros i j; simpl; [done|].
  destruct ((x =? 63) || (x =? 91)) eqn:E1; [done|]. apply orb_false_iff in E1 as [E1 E1'].
  destruct ((x =? 42) && negb (i =? 0)%nat && negb (i =? n - 1)%nat) eqn:E2; [done|].
  intros H Hj H0 Hn. destruct j as [|j].
  - injection Hj as ->. apply Z.eqb_neq in E1, E1'. split_and!; [|done|done]. intros ->.
    rewrite Nat.add_0_r in *. apply Nat.eqb_neq in H0, Hn. by rewrite H0, Hn in E2.
  - apply (IH (S i) j); [done|done|lia|lia].
Qed.

Lemma ascii_is_ascii p : ascii_bytes p -> is_ascii p = true.
Proof.
  intros H. apply forallb_forall. intros b Hb%list_elem_of_In.
  apply Z.ltb_lt. unfold RuneSelf. by apply (proj1 (Forall_forall _ _) H).
Qed.

Lemma wild_lower lower p : ascii_bytes p -> wild (ToLower lower p) <-> wild p.
Proof.
  intros H. unfold ToLower. rewrite ascii_is_ascii by done.
  unfold wild, ascii_lower. rewrite !Exists_exists. split.
  - intros (c & (b & -> & Hb)%list_elem_of_fmap & Hc). exists b. split; [done|].
    unfold ascii_lower_byte, in_range in Hc. destruct (65 <=? b) eqn:E1, (b <=? 90) eqn:E2; simpl in Hc; lia.
  - intros (c & Hb & Hc). exists (ascii_lower_byte c). split; [apply list_elem_of_fmap; eauto|].
    unfold ascii_lower_byte, in_range. by destruct Hc as [->|[->| ->]]; simpl; auto.
Qed.

Lemma ascii_ToLower lower p : ascii_bytes p -> ascii_bytes (ToLower lower p).
Proof.
  intros H. unfold ToLower. rewrite ascii_is_ascii by done.
  unfold ascii_bytes, ascii_lower. rewrite Forall_fmap. eapply Forall_impl; [done|].
  intros b Hb. simpl in *. unfold ascii_lower_byte, in_range.
  destruct (65 <=? b) eqn:E1, (b <=? 90) eqn:E2; simpl; lia.
Qed.

Lemma plain_middle line : isGlobCandidate line = false ->
  ~ wild (take (length line - 2) (drop 1 line)).
Proof.
  intros H (c & Hc & Hw)%Exists_exists. apply list_elem_of_lookup in Hc as [j Hj].
  apply lookup_take_Some in Hj as [Hj Hlt]. rewrite lookup_drop in Hj.
  pose proof (glob_scan_plain line 0 (length line) (1 + j) c H Hj). lia.
Qed.

(** What a line that is accepted becomes. *)
Lemma classify_pattern_inv lower line ty p :
  ascii_bytes line -> classify_pattern lower line = Some (ty, p) ->
  ascii_bytes p /\ (ty = PatternTypePattern -> wild p) /\ (ty = PatternTypeSubstring -> ~ wild p).
Proof.
  intros Ha. unfold classify_pattern. intros ([ty' p0] & Hc & Hlast)%bind_Some.
  destruct (len p0 =? 0) eqn:El; [done|]. injection Hlast as -> <-.
  assert (ascii_bytes p0 /\ (ty = PatternTypePattern -> wild p0) /\
          (ty = PatternTypeSubstring -> ~ wild p0)) as (H1 & H2 & H3).
  2: { rewrite wild_lower by done. split_and!; [by apply ascii_ToLower|done|done]. }
  destruct (isGlobCandidate line) eqn:Eg.
  { apply glob_scan_wild in Eg. destruct (_ || _); simplify_eq. done. }
  repeat (destruct (_ && _) || destruct (HasSuffix _ _) || destruct (HasPrefix _ _)
          || destruct (_ <? _)); simplify_eq; split_and!; try done;
    unfold TrimPrefix; repeat case_match;
    try (by repeat first [done|apply Forall_take|apply Forall_drop]).
  intros _. by apply plain_middle.
Qed.

(** ** The syntax of the rules *)

(** No wildcard. *)
Definition plain (w : bytes) : Prop := Forall (fun c => c <> 42 /\ c <> 63 /\ c <> 91) w.

(** A question mark, a bracket, or a star that is neither at the start nor at the end. *)
Definition shell_pattern (line : bytes) : Prop :=
  exists a c b, line = a ++ [c] ++ b /\ (c = 63 \/ c = 91 \/ (c = 42 /\ a <> [] /\ b <> [])).

(** What a line means, for a line of ASCII characters: [=name] is a name, [*text*] a
    substring, [text*] a prefix, a line with other wildcards a shell pattern, and [name],
    [.name], [*name] and [*.name] are the name and all the names under it.  The texts are in lower
    case, and not empty. *)
Definition rule_means (line : bytes) (ty : PatternType) (p : bytes) : Prop :=
  exists w, w <> [] /\ p = ascii_lower w /\
  match ty with
  | PatternTypeExact => line = str "=" ++ w /\ plain w
  | PatternTypeSubstring => line = str "*" ++ w ++ str "*" /\ plain w
  | PatternTypePrefix => line = w ++ str "*" /\ plain w
  | PatternTypeSuffix => plain w /\ head line <> Some 61 /\
      exists star dot, line = star ++ dot ++ w /\ (star = [] \/ star = str "*") /\
        (dot = str "." \/ dot = [] /\ head w <> Some 46)
  | PatternTypePattern => line = w /\ shell_pattern line /\ 2 <= len line /\
      filepath_Match line (str "example.com") <> None
  end.

Lemma glob_scan_iff s i n : glob_scan s i n = true <->
  exists a c b, s = a ++ [c] ++ b /\
    (c = 63 \/ c = 91 \/ (c = 42 /\ (i + length a)%nat <> 0%nat /\ (i + length a)%nat <> (n - 1)%nat)).
Proof.
  revert i. induction s as [|x s IH]; intros i; cbn [glob_scan].
  { split; [done|]. by intros ([|] & c & b & ? & _). }
  destruct ((x =? 63) || (x =? 91)) eqn:E1.
  { split; [intros _|done]. exists [], x, s. split; [done|]. apply orb_true_iff in E1. lia. }
  destruct ((x =? 42) && negb (i =? 0)%nat && negb (i =? n - 1)%nat) eqn:E2.
  { split; [intros _|done]. exists [], x, s. split; [done|]. right. right.
    rewrite !andb_true_iff, !negb_true_iff, Z.eqb_eq, !Nat.eqb_neq in E2. simpl. lia. }
  rewrite IH. apply orb_false_iff in E1 as [?%Z.eqb_neq ?%Z.eqb_neq]. split.
  - intros (a & c & b & -> & Hc). exists (x :: a), c, b. split; [done|]. simpl.
    replace (i + S (length a))%nat with (S i + length a)%nat by lia. done.
  - intros (a & c & b & Heq & Hc). destruct a as [|y a].
    + injection Heq as -> _. exfalso. destruct Hc as [?|[?|(-> & H1 & H2)]]; [done..|].
      simpl in *. rewrite Nat.add_0_r in *. apply Nat.eqb_neq in H1, H2. by rewrite H1, H2 in E2.
    + injection Heq as <- ->. exists a, c, b. split; [done|]. simpl in Hc.
      by replace (i + S (length a))%nat with (S i + length a)%nat in Hc by lia.
Qed.

Lemma isGlobCandidate_iff line : isGlobCandidate line = true <-> shell_pattern line.
Proof.
  unfold isGlobCandidate, shell_pattern. rewrite glob_scan_iff. split; intros (a & c & b & -> & Hc); exists a, c, b.
  - split; [done|]. rewrite !length_app in Hc. simpl in Hc.
    destruct Hc as [?|[?|(? & H1 & H2)]]; [auto..|]. right. right. split_and!; [done| |]; intros ->; simpl in *; lia.
  - split; [done|]. rewrite !length_app. simpl. destruct Hc as [?|[?|(? & H1 & H2)]]; [auto..|].
    right. right. destruct a, b; simpl; try done. split_and!; [done|lia|lia].
Qed.

(** Stars around a plain text do not make a shell pattern. *)
Lemma not_shell_pattern l w r : plain w -> l = [] \/ l = [42] -> r = [] \/ r = [42] ->
  isGlobCandidate (l ++ w ++ r) = false.
Proof.
  intros Hw Hl Hr. destruct (isGlobCandidate _) eqn:E; [|done]. exfalso.
  apply isGlobCandidate_iff in E as (a & c & b & Heq & Hc).
  assert ((l ++ w ++ r) !! length a = Some c) as Hlk by (rewrite Heq; by apply list_lookup_middle).
  assert (length (l ++ w ++ r) = length a + S (length b))%nat as Hlen
    by (rewrite Heq, !length_app; simpl; lia).
  rewrite !length_app in Hlen.
  apply lookup_app_Some in Hlk as [Hlk|[Hlt Hlk]].
  { destruct Hl as [->| ->]; [done|]. apply list_lookup_singleton_Some in Hlk as [Ha <-].
    destruct Hc as [?|[?|(_ & Ha' & _)]]; [done..|]. by destruct a. }
  apply lookup_app_Some in Hlk as [Hlk|[Hlt' Hlk]].
  { pose proof (Forall_lookup_1 _ _ _ _ Hw Hlk) as (? & ? & ?). naive_solver. }
  destruct Hr as [->| ->]; [done|]. apply list_lookup_singleton_Some in Hlk as [Ha <-].
  destruct Hc as [?|[?|(_ & _ & Hb)]]; [done..|]. destruct b; [done|]. simpl in Hlen. lia.
Qed.

(** And without one, the wildcards are stars at the ends. *)
Lemma plain_inside l w r : isGlobCandidate (l ++ w ++ r) = false ->
  (l = [] -> head w <> Some 42) -> (r = [] -> last w <> Some 42) -> plain w.
Proof.
  intros Hg Hl Hr. apply Forall_forall. intros c (a & b & ->)%list_elem_of_split.
  assert (forall P : Prop, (~ shell_pattern (l ++ (a ++ c :: b) ++ r) -> P) -> P) as Hn.
  { intros P HP. apply HP. intros H%isGlobCandidate_iff. congruence. }
  apply Hn. intros Hno. split_and!; intros ->; apply Hno; exists (l ++ a);
    eexists _, (b ++ r); (split; [by rewrite <-!app_assoc|]); auto.
  right. right. split_and!; [done| |].
  - intros [-> ->]%app_nil. by apply Hl.
  - intros [-> ->]%app_nil. apply Hr; [done|]. by rewrite last_snoc.
Qed.

Lemma HasPrefix_byte s c : HasPrefix s [c] = bool_decide (head s = Some c).
Proof.
  apply eq_true_iff_eq. rewrite HasPrefix_spec, bool_decide_eq_true. destruct s as [|x s]; simpl.
  - split; [by intros [? ?]|done].
  - split; [by intros [k [= -> _]]|intros [= ->]; by exists s].
Qed.

Lemma HasSuffix_byte s c : HasSuffix s [c] = bool_decide (last s = Some c).
Proof.
  apply eq_true_iff_eq. rewrite HasSuffix_spec, bool_decide_eq_true, last_Some. done.
Qed.

Lemma plain_head w : plain w -> head w <> Some 42.
Proof. destruct 1 as [|c w [Hc _] _]; [done|]. intros [= ->]. done. Qed.

Lemma plain_last w : plain w -> last w <> Some 42.
Proof. intros Hw (k & ->)%last_Some. apply Forall_app in Hw as [_ Hw]. inversion Hw. naive_solver. Qed.

Lemma ToLower_ascii lower p : ascii_bytes p -> ToLower lower p = ascii_lower p.
Proof. intros H. unfold ToLower. by rewrite ascii_is_ascii. Qed.

(** The parts of [classify_pattern] before the text is put in lower case. *)
Definition raw_pattern (pattern : bytes) : option (PatternType * bytes) :=
  let leadingStar := bool_decide (head pattern = Some 42) in
  let trailingStar := bool_decide (last pattern = Some 42) in
  if isGlobCandidate pattern then
    if (len pattern <? 2) || bool_decide (filepath_Match pattern (str "example.com") = None)
    then None else Some (PatternTypePattern, pattern)
  else if leadingStar && trailingStar then
    if len pattern <? 3 then None
    else Some (PatternTypeSubstring, take (length pattern - 2) (drop 1 pattern))
  else if trailingStar then
    if len pattern <? 2 then None
    else Some (PatternTypePrefix, take (length pattern - 1) pattern)
  else if bool_decide (head pattern = Some 61) then
    if len pattern <? 2 then None else Some (PatternTypeExact, drop 1 pattern)
  else
    Some (PatternTypeSuffix,
      let pattern := if leadingStar then drop 1 pattern else pattern in
      if bool_decide (head pattern = Some 46) then drop 1 pattern else pattern).

Lemma classify_raw lower line ty p : ascii_bytes line ->
  classify_pattern lower line = Some (ty, p) <->
  exists w, w <> [] /\ p = ascii_lower w /\ raw_pattern line = Some (ty, w).
Proof.
  intros Ha. unfold classify_pattern. cbv zeta.
  change (str "*") with [42]. change (str "=") with [61]. change (str ".") with [46].
  unfold TrimPrefix. rewrite !HasPrefix_byte, HasSuffix_byte. change (length [46]) with 1%nat.
  match goal with |- mbind _ ?e = _ <-> _ => assert (e = raw_pattern line) as -> end.
  { unfold raw_pattern. cbv zeta. by destruct (isGlobCandidate line), (bool_decide (head line = Some 42)),
      (bool_decide (last line = Some 42)), (bool_decide (head line = Some 61)). }
  assert (forall w, raw_pattern line = Some (ty, w) -> ascii_bytes w) as Haw.
  { intros w. unfold raw_pattern. cbv zeta. intros H. repeat case_match; simplify_eq; try done;
      by repeat first [done|apply Forall_take|apply Forall_drop]. }
  split.
  - intros ([ty' w] & Hr & Hw)%bind_Some. destruct w as [|x w]; [done|]. cbn in Hw.
    replace (len (x :: w) =? 0) with false in Hw by (rewrite len_cons; pose proof (len_nonneg w); lia).
    injection Hw as -> <-. exists (x :: w). split_and!; [done| |done]. apply ToLower_ascii. by apply Haw.
  - intros (w & Hne & -> & Hr). rewrite Hr. simpl. destruct w as [|x w]; [done|].
    replace (len (x :: w) =? 0) with false by (rewrite len_cons; pose proof (len_nonneg w); lia).
    by rewrite ToLower_ascii by (by apply Haw).
Qed.

Lemma raw_shape line ty w : w <> [] -> raw_pattern line = Some (ty, w) ->
  match ty with
  | PatternTypeExact => line = [61] ++ w /\ plain w
  | PatternTypeSubstring => line = [42] ++ w ++ [42] /\ plain w
  | PatternTypePrefix => line = w ++ [42] /\ plain w
  | PatternTypeSuffix => plain w /\ head line <> Some 61 /\
      exists star dot, line = star ++ dot ++ w /\ (star = [] \/ star = [42]) /\
        (dot = [46] \/ dot = [] /\ head w <> Some 46)
  | PatternTypePattern => line = w /\ shell_pattern line /\ 2 <= len line /\
      filepath_Match line (str "example.com") <> None
  end.
Proof.
  intros Hne. unfold raw_pattern. cbv zeta. destruct (isGlobCandidate line) eqn:Eg.
  { destruct (_ || _) eqn:E; [done|]. apply orb_false_iff in E as [?%Z.ltb_ge ?%bool_decide_eq_false].
    intros [= <- <-]. by apply isGlobCandidate_iff in Eg. }
  case_bool_decide as Hl; [apply head_Some in Hl as [k ->]|];
    (case_bool_decide as Ht; [apply last_Some in Ht as [k' Hk']|]); cbn [andb].
  - destruct (_ <? 3) eqn:E; [done|]. apply Z.ltb_ge in E. intros [= <- <-].
    destruct k' as [|x k']; simplify_eq/=.
    rewrite drop_0, length_app in *. simpl. replace (length k' + 1 - 1)%nat with (length k') by lia.
    rewrite take_app_length. split; [done|]. by apply (plain_inside [42] k' [42]).
  - rewrite bool_decide_false by done. change (drop 1 (42 :: k)) with k. intros [= <- <-].
    case_bool_decide as Hd; [apply head_Some in Hd as [k' ->]; simpl in *; rewrite drop_0 in *|].
    + split_and!; [|done|exists [42], [46]; auto].
      apply (plain_inside [42; 46] k' []); [by rewrite app_nil_r|done|]. intros _ H. apply Ht.
      by destruct k'.
    + split_and!; [|done|exists [42], []; auto].
      apply (plain_inside [42] k []); [by rewrite app_nil_r|done|]. intros _ H. apply Ht. by destruct k.
  - destruct (_ <? 2) eqn:E; [done|]. apply Z.ltb_ge in E. intros [= <- <-]. subst line.
    rewrite length_app in *. simpl in *. replace (length k' + 1 - 1)%nat with (length k') in * by lia.
    rewrite take_app_length in *. split; [done|]. apply (plain_inside [] k' [42]); [done| |done].
    intros _ H. apply Hl. by destruct k'.
  - case_bool_decide as He; [apply head_Some in He as [k ->]|].
    + destruct (_ <? 2); [done|]. intros [= <- <-]. simpl in *. rewrite drop_0 in *. split; [done|].
      apply (plain_inside [61] k []); [by rewrite app_nil_r|done|]. intros _ H. apply Ht. by destruct k.
    + intros [= <- <-]. case_bool_decide as Hd; [apply head_Some in Hd as [k ->]; simpl in *; rewrite drop_0 in *|].
      * split_and!; [|done|exists [], [46]; auto].
        apply (plain_inside [46] k []); [by rewrite app_nil_r|done|]. intros _ H. apply Ht. by destruct k.
      * split_and!; [|done|exists [], []; auto]. apply (plain_inside [] line []); by rewrite ?app_nil_r.
Qed.

Lemma shape_raw line ty w : w <> [] ->
  match ty with
  | PatternTypeExact => line = [61] ++ w /\ plain w
  | PatternTypeSubstring => line = [42] ++ w ++ [42] /\ plain w
  | PatternTypePrefix => line = w ++ [42] /\ plain w
  | PatternTypeSuffix => plain w /\ head line <> Some 61 /\
      exists star dot, line = star ++ dot ++ w /\ (star = [] \/ star = [42]) /\
        (dot = [46] \/ dot = [] /\ head w <> Some 46)
  | PatternTypePattern => line = w /\ shell_pattern line /\ 2 <= len line /\
      filepath_Match line (str "example.com") <> None
  end -> raw_pattern line = Some (ty, w).
Proof.
  intros Hne. assert (forall l : bytes, last (l ++ w) = last w) as Hlast.
  { intros l. destruct (last w) as [x|] eqn:E; [|by apply last_None in E].
    apply last_Some in E as [w' ->]. by rewrite app_assoc, last_snoc. }
  assert (1 <= len w) as Hlen by (destruct w; [done|]; rewrite len_cons; pose proof (len_nonneg w); lia).
  unfold raw_pattern. destruct ty; cbv zeta.
  - intros [-> Hw]. pose proof (not_shell_pattern [] w [42] Hw) as Hg. cbn [app] in Hg. rewrite Hg by auto.
    rewrite (bool_decide_false (head _ = _)) by (destruct w; [done|]; by apply (plain_head _ Hw)).
    rewrite bool_decide_true by apply last_snoc. cbn [andb].
    rewrite len_app. change (len [42]) with 1. destruct (_ <? 2) eqn:E; [lia|].
    rewrite length_app. simpl. replace (length w + 1 - 1)%nat with (length w) by lia. by rewrite take_app_length.
  - intros (Hw & Hh & star & dot & -> & Hs & Hd).
    assert (isGlobCandidate (star ++ dot ++ w) = false) as ->.
    { rewrite <-(app_nil_r (dot ++ w)). apply not_shell_pattern; [|done|auto].
      destruct Hd as [->|[-> _]]; [|done]. apply Forall_app. split; [|done]. by repeat constructor. }
    rewrite app_assoc, (bool_decide_false (last _ = _)) by (rewrite Hlast; by apply plain_last).
    rewrite <-app_assoc, andb_false_r, (bool_decide_false (head _ = Some 61)) by done. do 2 f_equal.
    destruct Hs as [->| ->]; simpl.
    + rewrite (bool_decide_false (head _ = Some 42)).
      * destruct Hd as [->|[-> Hd]]; simpl; [by rewrite drop_0|by rewrite bool_decide_false].
      * destruct Hd as [->|[-> Hd]]; [done|]. by apply plain_head.
    + rewrite drop_0. destruct Hd as [->|[-> Hd]]; simpl; [by rewrite drop_0|by rewrite bool_decide_false].
  - intros [-> Hw]. rewrite (not_shell_pattern [42] w [42] Hw) by auto. cbn [app].
    rewrite (bool_decide_true (head _ = _)) by done.
    rewrite (bool_decide_true (last _ = _)) by (by rewrite app_comm_cons, last_snoc). cbn [andb].
    rewrite len_cons, len_app. change (len [42]) with 1. destruct (_ <? 3) eqn:E; [lia|].
    cbn [drop length]. rewrite drop_0, length_app. simpl.
    replace (length w + 1 - 1)%nat with (length w) by lia. by rewrite take_app_length.
  - intros (-> & Hg%isGlobCandidate_iff & Hl & Hm). rewrite Hg.
    rewrite bool_decide_false by done. destruct (_ <? 2) eqn:E; [lia|done].
  - intros [-> Hw].
    assert (isGlobCandidate ([61] ++ w) = false) as ->.
    { rewrite <-(app_nil_l ([61] ++ w)), <-(app_nil_r ([61] ++ w)). apply not_shell_pattern; [|auto..].
      apply Forall_app. split; [|done]. by repeat constructor. }
    rewrite (bool_decide_false (last _ = _)) by (rewrite Hlast; by apply plain_last).
    rewrite andb_false_r. cbn [app head]. rewrite bool_decide_true by done.
    rewrite len_cons. destruct (_ <? 2) eqn:E; [lia|]. simpl. by rewrite drop_0.
Qed.

(** The first part of [Add] accepts the lines that mean something, and reads them so. *)
Lemma classify_denotes lower line ty p : ascii_bytes line ->
  classify_pattern lower line = Some (ty, p) <-> rule_means line ty p.
Proof.
  intros Ha. rewrite classify_raw by done. unfold rule_means. split; intros (w & Hne & -> & H); exists w.
  - split_and!; [done|done|]. apply raw_shape in H; [|done]. by destruct ty.
  - split_and!; [done|done|]. apply shape_raw; [done|]. by destruct ty.
Qed.

(** The rules of a list; a line with a syntax error is skipped. *)
Definition rules_of (lower : bytes -> bytes) (lines : list (bytes * V)) : list rule :=
  omap (fun '(line, v) => '(ty, p) ← classify_pattern lower line; Some (ty, p, v)) lines.

Definition add_lines (lower : bytes -> bytes) (lines : list (bytes * V)) (m : PatternMatcher)
    : PatternMatcher :=
  fold_left (fun m '(line, v) => default m (pm_Add lower line v m)) lines m.

Lemma add_lines_load lower lines m :
  add_lines lower lines m =
  fold_left (fun m '(ty, p, v) => add_classified ty p v m) (rules_of lower lines) m.
Proof.
  revert m. induction lines as [|[line v] lines IH]; intros m; [done|].
  unfold add_lines, rules_of, pm_Add in *. simpl. rewrite IH.
  by destruct (classify_pattern lower line) as [[ty p]|].
Qed.

Lemma wf_rules_of lower lines : Forall (fun l => ascii_bytes l.1) lines ->
  wf_rules (rules_of lower lines).
Proof.
  intros H.
  assert (forall ty p, has_rule (rules_of lower lines) ty p ->
    ascii_bytes p /\ (ty = PatternTypePattern -> wild p) /\ (ty = PatternTypeSubstring -> ~ wild p)) as Hall.
  { intros ty p [v ([line w] & Hl & Hc)%list_elem_of_omap].
    apply bind_Some in Hc as ([ty' p'] & Hc & ?). simplify_eq.
    apply (classify_pattern_inv lower line); [|done]. by apply (proj1 (Forall_forall _ _) H _ Hl). }
  split; intros; by eapply Hall.
Qed.

(** A line of the list is this rule, with this value. *)
Definition rule_written (lines : list (bytes * V)) (ty : PatternType) (p : bytes) (v : V) : Prop :=
  exists line, (line, v) ∈ lines /\ rule_means line ty p.

(** [p] is the rule of [R] to use for [q]. *)
Definition best_among (R : PatternType -> bytes -> V -> Prop) (q : bytes) (ty : PatternType) (p : bytes) : Prop :=
  rule_matches ty p q /\
  (forall ty' p' v', R ty' p' v' -> rule_matches ty' p' q ->
     (rank ty <= rank ty')%nat /\
     (ty' = ty -> ty = PatternTypeSuffix \/ ty = PatternTypePrefix ->
        (length p' <= length p)%nat)).

Lemma rules_of_written lower lines ty p v : Forall (fun l => ascii_bytes l.1) lines ->
  (ty, p, v) ∈ rules_of lower lines <-> rule_written lines ty p v.
Proof.
  intros Ha. unfold rules_of, rule_written. rewrite list_elem_of_omap. split.
  - intros ([line w] & Hin & Hc). apply bind_Some in Hc as ([ty' p'] & Hc & ?). simplify_eq.
    exists line. split; [done|]. apply (classify_denotes lower); [|done]. by apply (proj1 (Forall_forall _ _) Ha _ Hin).
  - intros (line & Hin & Hd). exists (line, v). split; [done|].
    apply (classify_denotes lower) in Hd; [by rewrite Hd|]. by apply (proj1 (Forall_forall _ _) Ha _ Hin).
Qed.

Lemma best_written lower lines q ty p : Forall (fun l => ascii_bytes l.1) lines ->
  best_rule (rules_of lower lines) q ty p <-> best_among (rule_written lines) q ty p.
Proof.
  intros Ha. unfold best_rule, best_among. apply and_iff_compat_l. split.
  - intros H ty' p' v' Hw. apply H. exists v'. by apply rules_of_written.
  - intros H ty' p' [v' Hv']. apply (H ty' p' v'). by apply (rules_of_written lower).
Qed.

(** The rule to use for a name, or none. *)
Lemma Eval_written lower lines q :
  Forall (fun l => ascii_bytes l.1) lines -> ascii_bytes q -> 2 <= len q ->
  match pm_Eval (add_lines lower lines NewPatternMatcher) q with
  | Some (reason, val) => exists ty p v, rule_written lines ty p v /\ best_among (rule_written lines) q ty p /\
      reason = rule_text ty p /\ val = Some v
  | None => forall ty p v, rule_written lines ty p v -> ~ rule_matches ty p q
  end.
Proof.
  intros Hl Hq Hlen.
  pose proof (pm_Eval_rules (add_lines lower lines NewPatternMatcher) (rules_of lower lines) q) as H.
  rewrite add_lines_load in H at 1. specialize (H (holds_load _) (wf_rules_of _ _ Hl) Hq Hlen).
  destruct (pm_Eval _ q) as [[reason val]|].
  - destruct H as (ty & p & v & Hin & Hb & Hr & Hv). exists ty, p, v.
    split_and!; [by apply (rules_of_written lower)|by apply (best_written lower)|done|done].
  - intros ty p v Hw. apply H. exists v. by apply rules_of_written.
Qed.

Lemma Eval_short m q : len q < 2 -> pm_Eval m q = None.
Proof. intros H. unfold pm_Eval. by rewrite (proj2 (Z.ltb_lt _ _)). Qed.

(** C10: a list of rules is used as it is written, if it is written in ASCII.  The lines
    [=name], [*text*], [text*], [name], [.name], [*name], [*.name] and shell patterns mean an
    exact name, a substring, a prefix, a suffix (at a label boundary) or a shell pattern, in
    lower case; other lines mean nothing.  For an ASCII name of at least two bytes, [Eval] reports the
    rule to use: one that matches, of the first type that has a match (exact, suffix,
    prefix, substring, shell pattern) and the longest one for suffixes and prefixes, with a
    value the list gives it; and it reports nothing only when no rule of the list matches.
    It reports nothing for a shorter name. *)
Theorem Eval_finds_rule lower lines q :
  Forall (fun l => ascii_bytes l.1) lines -> ascii_bytes q ->
  match pm_Eval (add_lines lower lines NewPatternMatcher) q with
  | Some (reason, val) => 2 <= len q /\
      exists ty p v, rule_written lines ty p v /\ best_among (rule_written lines) q ty p /\
        reason = rule_text ty p /\ val = Some v
  | None => len q < 2 \/ forall ty p v, rule_written lines ty p v -> ~ rule_matches ty p q
  end.
Proof.
  intros Hl Hq. destruct (Z.lt_ge_cases (len q) 2) as [Hs|Hs].
  - rewrite Eval_short by done. by left.
  - pose proof (Eval_written lower lines q Hl Hq Hs) as H. destruct (pm_Eval _ q) as [[reason val]|]; [done|by right].
Qed.

End matcher.

Definition ex_lines : list (bytes * Z) :=
  [(str "*tracker*", 1); (str "example.com", 2); (str "*.ads.Example.com", 3); (str "=foo.org", 4)].

Lemma Eval_finds_rule_witness :
  pm_Eval (T := gmap bytes) (add_lines id ex_lines NewPatternMatcher) (str "x.ads.example.com")
    = Some (str "*.ads.example.com", Some 3) /\
  exists ty p v, rule_written ex_lines ty p v /\ best_among (rule_written ex_lines) (str "x.ads.example.com") ty p /\
    str "*.ads.example.com" = rule_text ty p /\ Some 3 = Some v.
Proof.
  assert (pm_Eval (T := gmap bytes) (add_lines id ex_lines NewPatternMatcher) (str "x.ads.example.com")
    = Some (str "*.ads.example.com", Some 3)) as He by (vm_compute; reflexivity).
  split; [exact He|].
  assert (Forall (fun l => ascii_bytes l.1) ex_lines) as Hl.
  { repeat constructor; simpl; lia. }
  assert (ascii_bytes (str "x.ads.example.com")) as Hq by (repeat constructor; lia).
  pose proof (Eval_finds_rule (T := gmap bytes) id ex_lines (str "x.ads.example.com") Hl Hq) as H.
  rewrite He in H. exact (proj2 H).
Defined.
