(* ===== verification/Cache.v ===== *)
(** * The cache (src/dnscrypt-proxy/plugin_cache.go)

    The two plugins that share the cache of responses: the reader, a query
    plugin, and the writer, a response plugin.  The cache itself (a third-party
    SIEVE cache) is the interface [SieveCache]: a look-up finds what was last
    inserted under the key, unless it has been evicted.

    A message is a value here, so that the deep copies the code takes with
    [cloneMsg] before it changes a message are the message itself. *)

From S2P Require Import Prelude GoStrings NetIP Common Crypto Dns DnsUtils DnsUtilsProps Metrics Plugins.

Class SieveCache (C : Type) (V : Type) := {
  cache_new : Z -> option C;
  cache_get : C -> bytes -> C * option V;
  cache_insert : C -> bytes -> V -> C;
  cache_map : C -> gmap bytes V;
}.

Class SieveCacheLaws C V `{SC : SieveCache C V} := {
  cache_new_empty : forall n c, cache_new n = Some c -> cache_map c = ∅;
  cache_get_value : forall c k, (cache_get c k).2 = cache_map c !! k;
  cache_get_map : forall c k, cache_map (cache_get c k).1 = cache_map c;
  cache_insert_same : forall c k v, cache_map (cache_insert c k v) !! k = Some v;
  cache_insert_other : forall c k v k' v', k' <> k ->
    cache_map (cache_insert c k v) !! k' = Some v' -> cache_map c !! k' = Some v';
}.

Definition StaleResponseTTL : Duration := 30 * Second.

Record CachedResponse := { expiration : Time; cached_msg : Msg }.

(** A map that never evicts, as an instance. *)
#[global] Instance gmap_cache {V} : SieveCache (gmap bytes V) V := {|
  cache_new n := if n <=? 0 then None else Some ∅;
  cache_get c k := (c, c !! k);
  cache_insert c k v := <[k := v]> c;
  cache_map c := c;
|}.

#[global] Instance gmap_cache_laws {V} : SieveCacheLaws (gmap bytes V) V.
Proof.
  split; simpl.
  - intros n c H. by destruct (n <=? 0); simplify_eq.
  - done.
  - done.
  - intros. by rewrite lookup_insert_eq.
  - intros c k v k' v' Hne. by rewrite lookup_insert_ne.
Qed.

Section cache.
Context {C : Type} `{SC : SieveCache C CachedResponse}.
Context (sha512_256 : bytes -> bytes).

Definition initCachedResponses (cacheSize : Z) (cachedResponses : option C) : option (option C) :=
  match cachedResponses with
  | Some c => Some (Some c)
  | None => c ← cache_new cacheSize; Some (Some c)
  end.

(** [binary.LittleEndian.PutUint16]. *)
Definition put_le16 (v : Z) : bytes := [uint8 v; uint8 (v / 256)].

(** What is hashed into the key. *)
Definition cache_key_input (ps : PluginsState) (msg : Msg) (question : Question) : bytes :=
  put_le16 (q_Type question) ++ put_le16 (q_Class question)
  ++ [Z.lor (if dnssec ps then 1 else 0) (if CheckingDisabled (MH msg) then 2 else 0)]
  ++ NormalizeRawQName (q_Name question).

(** [None] is the panic of [msg.Question[0]]. *)
Definition computeCacheKey (ps : PluginsState) (msg : Msg) : option bytes :=
  question ← head (Questions msg);
  Some (sha512_256 (cache_key_input ps msg question)).

(** [PluginCache.Eval]; [t1], [t2], [t3]: the readings of the clock. *)
Definition PluginCache_Eval (t1 t2 t3 : Time) : Plugin (option C) :=
  fun cachedResponses ps msg =>
  match cachedResponses with
  | None => (None, None, ps, msg)
  | Some cache =>
      match computeCacheKey ps msg with
      | None => (Some PluginPanic, Some cache, ps, msg)
      | Some cacheKey =>
          let '(cache, cached) := cache_get cache cacheKey in
          match cached with
          | None => (None, Some cache, ps, msg)
          | Some cached =>
              let synth := cached_msg cached in
              let synth := set_header (set_ID (ID (MH msg))) synth in
              let synth := set_header (set_Response true) synth in
              let synth := set_Questions (Questions msg) synth in
              if t1 >? expiration cached then
                let expiration2 := t2 + StaleResponseTTL in
                let synth := updateTTL synth t3 expiration2 in
                (None, Some cache, set_stale (Some synth) ps, msg)
              else
                let synth := updateTTL synth t3 (expiration cached) in
                let ps := set_synthResponse (Some synth) ps in
                let ps := set_action PluginsActionSynth ps in
                (None, Some cache, set_cacheHit true ps, msg)
          end
      end
  end.

(** The guards of the writer. *)
Definition cacheable (msg : Msg) : bool :=
  let rcode := Rcode_ (MH msg) in
  negb (negb (rcode =? RcodeSuccess) && negb (rcode =? RcodeNameError) && negb (rcode =? RcodeNotAuth))
  && negb (Truncated (MH msg)).

(** [PluginCacheResponse.Eval]. *)
Definition PluginCacheResponse_Eval (t1 t2 : Time) : Plugin (option C) :=
  fun cachedResponses ps msg =>
  if negb (cacheable msg) then (None, cachedResponses, ps, msg)
  else match cachedResponses with
  | None => (None, None, ps, msg)
  | Some cache =>
      match computeCacheKey ps msg with
      | None => (Some PluginPanic, Some cache, ps, msg)
      | Some cacheKey =>
          let ttl := getMinTTL msg (cacheMinTTL ps) (cacheMaxTTL ps) (cacheNegMinTTL ps)
                       (cacheNegMaxTTL ps) in
          let expiration := t1 + ttl in
          let cachedMsg := set_Questions [] msg in
          let cache := cache_insert cache cacheKey
                         {| expiration := expiration; cached_msg := cachedMsg |} in
          (None, Some cache, ps, updateTTL msg t2 expiration)
      end
  end.

(** ** The life of the cache *)

(** Uses of the cache, oldest first; a write records the readings of the clock,
    the state of the query and the response. *)
Inductive cache_event :=
| Ev_read (t1 t2 t3 : Time) (ps : PluginsState) (msg : Msg)
| Ev_write (t1 t2 : Time) (ps : PluginsState) (msg : Msg).

Definition cache_step (c : option C) (e : cache_event) : option C :=
  match e with
  | Ev_read t1 t2 t3 ps msg => (PluginCache_Eval t1 t2 t3 c ps msg).1.1.2
  | Ev_write t1 t2 ps msg => (PluginCacheResponse_Eval t1 t2 c ps msg).1.1.2
  end.

Definition run_cache (c : option C) (events : list cache_event) : option C :=
  fold_left cache_step events c.

(** How long the writer keeps a response. *)
Definition cache_ttl (ps : PluginsState) (msg : Msg) : Duration :=
  getMinTTL msg (cacheMinTTL ps) (cacheMaxTTL ps) (cacheNegMinTTL ps) (cacheNegMaxTTL ps).

(** The responses that may be kept: success, NXDOMAIN or NOTAUTH, and not truncated. *)
Definition storable (msg : Msg) : Prop :=
  (Rcode_ (MH msg) = RcodeSuccess \/ Rcode_ (MH msg) = RcodeNameError \/ Rcode_ (MH msg) = RcodeNotAuth) /\
  Truncated (MH msg) = false.

Lemma cacheable_storable msg : cacheable msg = true <-> storable msg.
Proof.
  unfold cacheable, storable. cbv zeta. rewrite andb_true_iff, negb_true_iff, negb_true_iff, !andb_false_iff,
    !negb_false_iff, !Z.eqb_eq. tauto.
Qed.

(** [events] contains a write under [key] that stored [v], and none under that
    key later. *)
Definition is_write (key : bytes) (e : cache_event) (v : CachedResponse) : Prop :=
  match e with
  | Ev_write t1 t2 ps msg => storable msg /\ computeCacheKey ps msg = Some key /\
      v = {| expiration := t1 + cache_ttl ps msg; cached_msg := set_Questions [] msg |}
  | Ev_read _ _ _ _ _ => False
  end.

Definition last_write (events : list cache_event) (key : bytes) (v : CachedResponse) : Prop :=
  exists before e after, events = before ++ e :: after /\ is_write key e v /\
    forall e' v', e' ∈ after -> ~ is_write key e' v'.

Context `{!SieveCacheLaws C CachedResponse}.

Lemma last_write_snoc events e key v :
  last_write events key v -> (forall v', ~ is_write key e v') -> last_write (events ++ [e]) key v.
Proof.
  intros (b & e0 & a & -> & Hw & Ha) He. exists b, e0, (a ++ [e]). split_and!.
  - by rewrite <-app_assoc.
  - done.
  - intros e' v' [H|H%list_elem_of_singleton]%elem_of_app; [by apply Ha|by subst].
Qed.

(** What a use of the cache does to its contents. *)
Lemma cache_step_map c e c' : cache_step (Some c) e = Some c' ->
  (cache_map c' = cache_map c /\ forall k v, ~ is_write k e v) \/
  (exists k v, is_write k e v /\ (forall k' v', is_write k' e v' -> k' = k) /\ cache_map c' !! k = Some v /\
     forall k' v', k' <> k -> cache_map c' !! k' = Some v' -> cache_map c !! k' = Some v').
Proof.
  destruct e as [t1 t2 t3 ps msg|t1 t2 ps msg]; simpl.
  - unfold PluginCache_Eval. destruct (computeCacheKey ps msg) as [k|]; [|intros; left; naive_solver].
    pose proof (cache_get_map c k) as Hm. destruct (cache_get c k) as [c1 r]. simpl in *.
    intros H. left. split; [|naive_solver].
    destruct r as [r|]; [destruct (t1 >? expiration r)|]; simpl in H; congruence.
  - unfold PluginCacheResponse_Eval. pose proof (cacheable_storable msg) as Hst.
    destruct (cacheable msg) eqn:Ec; [simpl|intros; left; naive_solver].
    destruct (computeCacheKey ps msg) as [k|] eqn:Ek; [|intros; left; naive_solver].
    intros [= <-]. right. eexists k, _. split_and!; [by apply Hst|done|reflexivity|naive_solver|apply cache_insert_same|].
    intros k' v' Hne. by apply cache_insert_other.
Qed.

Lemma cache_step_Some c e : exists c', cache_step (Some c) e = Some c'.
Proof.
  destruct e; simpl; unfold PluginCache_Eval, PluginCacheResponse_Eval;
    repeat (case_match; simpl); eauto.
Qed.

(** The cache only holds, for each key, what was last written there. *)
Lemma run_cache_last events c0 : cache_map c0 = ∅ ->
  exists c, run_cache (Some c0) events = Some c /\
    forall k v, cache_map c !! k = Some v -> last_write events k v.
Proof.
  intros H0. induction events as [|e events IH] using rev_ind.
  { exists c0. split; [done|]. intros k v. by rewrite H0. }
  destruct IH as (c & Hc & IH). unfold run_cache in *. rewrite fold_left_app, Hc. simpl.
  destruct (cache_step_Some c e) as [c' Hc']. exists c'. split; [done|]. intros k v Hk.
  destruct (cache_step_map _ _ _ Hc') as [[Hm Hno]|(k0 & v0 & Hw & Hu & Hk0 & Ho)].
  - apply last_write_snoc; [apply IH; by rewrite <-Hm|naive_solver].
  - destruct (decide (k = k0)) as [->|Hne].
    + exists events, e, []. simplify_eq. split_and!; [done|done|]. by intros ? ? ?%not_elem_of_nil.
    + apply last_write_snoc; [naive_solver|]. intros v' Hw'. naive_solver.
Qed.

(** A stored response turned into the answer to a query. *)
Definition as_answer (stored msg : Msg) : Msg :=
  set_Questions (Questions msg)
    (set_header (set_Response true) (set_header (set_ID (ID (MH msg))) stored)).

Lemma PluginCache_Eval_cases t1 t2 t3 c ps msg key : computeCacheKey ps msg = Some key ->
  exists c', cache_map c' = cache_map c /\
  PluginCache_Eval t1 t2 t3 (Some c) ps msg =
  (None, Some c',
   match cache_map c !! key with
   | None => ps
   | Some r =>
       if t1 >? expiration r
       then set_stale (Some (updateTTL (as_answer (cached_msg r) msg) t3 (t2 + StaleResponseTTL))) ps
       else set_cacheHit true (set_action PluginsActionSynth
              (set_synthResponse (Some (updateTTL (as_answer (cached_msg r) msg) t3 (expiration r))) ps))
   end, msg).
Proof.
  intros Hk. unfold PluginCache_Eval. rewrite Hk.
  pose proof (cache_get_map c key) as Hm. pose proof (cache_get_value c key) as Hv.
  destruct (cache_get c key) as [c' r]. simpl in *. exists c'. split; [done|]. subst r.
  destruct (cache_map c !! key) as [r|]; [|done]. by destruct (t1 >? expiration r).
Qed.

Context `{D : DnsLib} `{!DnsLibLaws D}.

Lemma as_answer_valid stored msg q now e : Questions msg = [q] ->
  validateResponseForQuery (Some msg) (Some (updateTTL (as_answer stored msg) now e)) = None.
Proof. intros Hq. by apply (validate_same_question _ _ q). Qed.

(** A write that no other write follows is in the cache. *)
Lemma run_cache_found before e after c0 c key v :
  run_cache (Some c0) (before ++ e :: after) = Some c -> is_write key e v ->
  (forall e' k' v', e' ∈ after -> ~ is_write k' e' v') -> cache_map c !! key = Some v.
Proof.
  unfold run_cache. rewrite fold_left_app. simpl. intros Hrun Hw. revert c Hrun.
  induction after as [|e' after IH] using rev_ind; intros c Hrun Ha.
  - simpl in Hrun. assert (exists c1, fold_left cache_step before (Some c0) = Some c1) as [c1 Hc1].
    { clear. induction before as [|e' before IH] using rev_ind; [by eexists|].
      destruct IH as [c1 Hc1]. rewrite fold_left_app, Hc1. apply cache_step_Some. }
    rewrite Hc1 in Hrun. destruct (cache_step_map _ _ _ Hrun) as [[_ Hno]|(k & v' & Hw' & Hu & Hk & _)].
    + by destruct (Hno key v).
    + rewrite <-(Hu _ _ Hw) in Hk. rewrite Hk. f_equal. rewrite <-(Hu _ _ Hw) in Hw'.
      destruct e; [done|]. destruct Hw as (_ & _ & ->). by destruct Hw' as (_ & _ & ->).
  - rewrite fold_left_app in Hrun. simpl in Hrun.
    destruct (fold_left cache_step after _) as [c1|] eqn:Hc1.
    + specialize (IH c1 eq_refl). rewrite <-IH.
      * destruct (cache_step_map _ _ _ Hrun) as [[Hm _]|(k & v' & Hw' & _)]; [by rewrite Hm|].
        destruct (Ha e' k v'); [set_solver|done].
      * intros e1 k1 v1 He1. apply Ha. set_solver.
    + destruct e' as [|? ? ? m]; [done|]. simpl in Hrun. unfold PluginCacheResponse_Eval in Hrun.
      by destruct (cacheable m).
Qed.

(** [rr'] is [rr] with another TTL. *)
Definition with_ttl (ttl : Z) (rr rr' : RR) : Prop :=
  Name (hdr rr') = Name (hdr rr) /\ Class_ (hdr rr') = Class_ (hdr rr) /\ data rr' = data rr /\
  TTL (hdr rr') = ttl.

(** [answer] is what was stored, as an answer to the query [msg]: under its identifier,
    with its question, and with the time left until [expires], to the nearest second, as
    the TTL of its answers and of its authority records. *)
Definition served (stored msg : Msg) (now expires : Time) (answer : Msg) : Prop :=
  Response (MH answer) = true /\ ID (MH answer) = ID (MH msg) /\ Questions answer = Questions msg /\
  Rcode_ (MH answer) = Rcode_ (MH stored) /\
  exists ttl, Forall2 (with_ttl ttl) (Answer stored) (Answer answer) /\
    Forall2 (with_ttl ttl) (Ns stored) (Ns answer) /\
    (expires - now < 2 ^ 31 * Second -> 2 * Z.abs (ttl * Second - Z.max 0 (expires - now)) <= Second).

Lemma served_updateTTL stored msg now expires :
  served stored msg now expires (updateTTL (as_answer stored msg) now expires).
Proof.
  unfold served. split_and!; try done. exists (remaining_ttl now expires). split_and!.
  - simpl. induction (Answer stored); simpl; constructor; [done|done].
  - simpl. induction (Ns stored); simpl; constructor; [done|done].
  - intros H. destruct (Z.le_gt_cases expires now).
    + rewrite remaining_ttl_expired by done. unfold Second. lia.
    + rewrite Z.max_r by lia. apply remaining_ttl_exact. lia.
Qed.

(** How long a response is kept: the smallest TTL of its answers (or of its authority
    records if it has none), within the limits that are configured for successes and for
    failures; a response without records is kept for the minimum of failures. *)
Definition lifetime (ps : PluginsState) (msg : Msg) (d : Duration) : Prop :=
  cacheMinTTL ps <= cacheMaxTTL ps -> cacheNegMinTTL ps <= cacheNegMaxTTL ps ->
  let rcode := Rcode_ (MH msg) in
  if bool_decide ((rcode = RcodeSuccess \/ rcode = RcodeNameError) /\ ttl_records msg <> [])
  then
    let lo := if rcode =? RcodeSuccess then cacheMinTTL ps else cacheNegMinTTL ps in
    let hi := if rcode =? RcodeSuccess then cacheMaxTTL ps else cacheNegMaxTTL ps in
    exists t, d = t * Second /\ lo <= t <= hi /\
      (t = lo \/ forall rr, rr ∈ ttl_records msg -> t <= TTL (hdr rr)) /\
      (t = lo \/ t = hi \/ exists rr, rr ∈ ttl_records msg /\ t = TTL (hdr rr))
  else d = cacheNegMinTTL ps * Second.

Lemma cache_ttl_lifetime ps msg : lifetime ps msg (cache_ttl ps msg).
Proof. intros H1 H2. apply (getMinTTL_bounds msg _ _ _ _ H1 H2). Qed.

(** What a look-up does to the state of the query, for the response [r] that the cache
    has under its key. *)
Definition looked_up (t1 t2 t3 : Time) (msg : Msg) (r : option CachedResponse)
    (ps ps' : PluginsState) : Prop :=
  match r with
  | None => ps' = ps
  | Some r =>
      exists answer, validateResponseForQuery (Some msg) (Some answer) = None /\
      if t1 <=? expiration r then
        served (cached_msg r) msg t3 (expiration r) answer /\
        ps' = set_cacheHit true (set_action PluginsActionSynth (set_synthResponse (Some answer) ps))
      else
        served (cached_msg r) msg t3 (t2 + 30 * Second) answer /\ ps' = set_stale (Some answer) ps
  end.

(** C5: answers from the cache, after any use of it.  A query with one question leaves
    the contents of the cache and the query itself as they are, and is told what the
    cache has under its key.  If that is nothing, the state of the query is unchanged.
    Otherwise it is the last response stored under that key, one that may be cached
    (success, NXDOMAIN or NOTAUTH, and not truncated), until the time computed from its
    TTLs: up to then that response, with the identifier and the question of the query
    and the TTLs that are left, is the answer; after it, it is only kept aside as a stale
    answer, with 30 seconds to live.  It is accepted as a response to the query either
    way.  A response that was stored under the key, with no other stored since, is in the
    cache. *)
Theorem cache_answers events n c0 t1 t2 t3 ps msg q :
  cache_new n = Some c0 -> Questions msg = [q] ->
  exists c c' key ps', run_cache (Some c0) events = Some c /\ computeCacheKey ps msg = Some key /\
  PluginCache_Eval t1 t2 t3 (Some c) ps msg = (None, Some c', ps', msg) /\
  cache_map c' = cache_map c /\
  looked_up t1 t2 t3 msg (cache_map c !! key) ps ps' /\
  (forall r, cache_map c !! key = Some r ->
   exists t u psw mw before after,
     events = before ++ Ev_write t u psw mw :: after /\
     (forall e v, e ∈ after -> ~ is_write key e v) /\
     computeCacheKey psw mw = Some key /\ storable mw /\
     cached_msg r = set_Questions [] mw /\
     exists d, lifetime psw mw d /\ expiration r = t + d) /\
  (forall before t u psw mw after, events = before ++ Ev_write t u psw mw :: after ->
     computeCacheKey psw mw = Some key -> storable mw ->
     (forall e k v, e ∈ after -> ~ is_write k e v) ->
     exists r, cache_map c !! key = Some r /\ cached_msg r = set_Questions [] mw).
Proof.
  intros Hnew Hq. destruct (run_cache_last events c0) as (c & Hc & Hlast).
  { by eapply cache_new_empty. }
  assert (exists key, computeCacheKey ps msg = Some key) as [key Hkey]
    by (unfold computeCacheKey; rewrite Hq; simpl; eauto).
  destruct (PluginCache_Eval_cases t1 t2 t3 c ps msg key Hkey) as (c' & Hm & He).
  exists c, c', key. eexists. split_and!; [done|done|exact He|done| | |].
  - unfold looked_up. destruct (cache_map c !! key) as [r|]; [|done].
    rewrite Z.gtb_ltb, Z.ltb_antisym.
    destruct (t1 <=? expiration r); simpl; eexists; split_and!; try done;
      by first [eapply as_answer_valid | apply served_updateTTL].
  - intros r Er. destruct (Hlast _ _ Er) as (before & e & after & Hev & Hw & Ha).
    destruct e as [|t u psw mw]; [done|]. destruct Hw as (Hca & Hk & ->).
    exists t, u, psw, mw, before, after. split_and!; try done.
    exists (cache_ttl psw mw). split; [apply cache_ttl_lifetime|done].
  - intros before t u psw mw after -> Hk Hs Ha.
    exists {| expiration := t + cache_ttl psw mw; cached_msg := set_Questions [] mw |}. split; [|done].
    by eapply run_cache_found.
Qed.

Lemma put_le16_inj v w : 0 <= v < 2 ^ 16 -> 0 <= w < 2 ^ 16 ->
  uint8 v = uint8 w -> uint8 (v / 256) = uint8 (w / 256) -> v = w.
Proof.
  intros Hv Hw H1 H2. rewrite <-(be16_put v), <-(be16_put w) by done. by rewrite H1, H2.
Qed.

(** What shares an entry of the cache.  Two messages have the same key only
    if they ask for the same type and class and the same name up to case, both
    or none of the queries want DNSSEC records, and both or none have checking
    disabled (unless the hash collides on them); and then they do. *)
Theorem cache_key_spec ps ps' msg msg' q q' :
  Questions msg = [q] -> Questions msg' = [q'] ->
  0 <= q_Type q < 2 ^ 16 -> 0 <= q_Type q' < 2 ^ 16 ->
  0 <= q_Class q < 2 ^ 16 -> 0 <= q_Class q' < 2 ^ 16 ->
  (sha512_256 (cache_key_input ps msg q) = sha512_256 (cache_key_input ps' msg' q') ->
   cache_key_input ps msg q = cache_key_input ps' msg' q') ->
  computeCacheKey ps msg = computeCacheKey ps' msg' <->
  q_Type q = q_Type q' /\ q_Class q = q_Class q' /\ dnssec ps = dnssec ps' /\
  CheckingDisabled (MH msg) = CheckingDisabled (MH msg') /\
  NormalizeRawQName (q_Name q) = NormalizeRawQName (q_Name q').
Proof.
  intros Hq Hq' H1 H2 H3 H4 Hsha. unfold computeCacheKey. rewrite Hq, Hq'. simpl. split.
  - intros [= Heq%Hsha]. unfold cache_key_input in Heq. simpl in Heq.
    injection Heq as Ha Hb Hc Hd He Hf.
    split_and!; try done.
    + by apply put_le16_inj.
    + by apply put_le16_inj.
    + by destruct (dnssec ps), (dnssec ps'), (CheckingDisabled (MH msg)), (CheckingDisabled (MH msg')).
    + by destruct (dnssec ps), (dnssec ps'), (CheckingDisabled (MH msg)), (CheckingDisabled (MH msg')).
  - intros (Ha & Hb & Hc & Hd & He). unfold cache_key_input. by rewrite Ha, Hb, Hc, Hd, He.
Qed.

End cache.

Definition ex_query_state : PluginsState :=
  NewPluginsState {| p_timeout := 5 * Second; p_cacheNegMinTTL := 60; p_cacheNegMaxTTL := 600;
                     p_cacheMinTTL := 60; p_cacheMaxTTL := 3600; p_rejectTTL := 10 |}
    client_udp None udp 0.

Definition ex_events : list cache_event :=
  [Ev_read 0 0 0 ex_query_state (sample_msg 0 []); Ev_write (5 * Second) (5 * Second) ex_query_state (sample_msg 0 [300])].

(** At 100 s the answer stored at 5 s, for 300 s, has 205 s left; at 400 s it is
    stale. *)
Lemma cache_answers_witness :
  (exists c key, run_cache (C := gmap bytes CachedResponse) id (Some ∅) ex_events = Some c /\
    computeCacheKey id ex_query_state (sample_msg 0 []) = Some key) /\
  (forall c, run_cache (C := gmap bytes CachedResponse) id (Some ∅) ex_events = Some c ->
    synthResponse (PluginCache_Eval id (100 * Second) (100 * Second) (100 * Second) (Some c)
      ex_query_state (sample_msg 0 [])).1.2 = Some (as_answer (sample_msg 0 [205]) (sample_msg 0 []))).
Proof.
  split.
  - destruct (@cache_answers (gmap bytes CachedResponse) gmap_cache id gmap_cache_laws sample_DnsLib sample_DnsLibLaws
      ex_events 10 ∅ 0 0 0 ex_query_state (sample_msg 0 []) (hd {| q_Name := []; q_Type := 0; q_Class := 0 |}
      (Questions (sample_msg 0 []))) ltac:(reflexivity) ltac:(reflexivity)) as (c & _ & key & _ & H1 & H2 & _).
    exists c, key. split; [exact H1|exact H2].
  - intros c H. vm_compute in H. injection H as <-. vm_compute. reflexivity.
Defined.

Definition ex_upper (m : Msg) : Msg :=
  set_Questions [{| q_Name := str "EXAMPLE.com."; q_Type := TypeA; q_Class := ClassINET |}] m.
Definition ex_lower (m : Msg) : Msg :=
  set_Questions [{| q_Name := str "example.com."; q_Type := TypeA; q_Class := ClassINET |}] m.

Lemma cache_key_spec_witness :
  computeCacheKey id ex_query_state (ex_upper (sample_msg 0 [])) =
  computeCacheKey id ex_query_state (ex_lower (sample_msg 0 [])).
Proof.
  apply (cache_key_spec id ex_query_state ex_query_state (ex_upper (sample_msg 0 [])) (ex_lower (sample_msg 0 []))
    {| q_Name := str "EXAMPLE.com."; q_Type := TypeA; q_Class := ClassINET |}
    {| q_Name := str "example.com."; q_Type := TypeA; q_Class := ClassINET |});
    try reflexivity; try (vm_compute; split; [discriminate|reflexivity]).
  split_and!; vm_compute; reflexivity.
Defined.
