(* ===== verification/UdpPool.v ===== *)
(** * The pool of UDP sockets (src/dnscrypt-proxy/udp_conn_pool.go)

    Sockets are numbered in the order they are dialed.  The operations of the
    pool are its critical sections, each a function on the pool; the step
    relation [pool_step] interleaves them, [Put] and [Close] being several
    steps each, with the sockets that callers hold and those that are closed. *)

From S2P Require Import Prelude GoStrings.

Definition UDPPoolMaxConnsPerAddr : Z := 4.
Definition UDPPoolMaxIdleTime : Duration := 30 * Second.
Definition UDPPoolShards : Z := 64.

Record pooledConn := { conn : Z; lastUsed : Time }.

Notation poolShard := (gmap bytes (list pooledConn)).

Record UDPConnPool := {
  shards : list poolShard;
  pool_closed : bool;
  pool_stopped : bool;
}.

Definition NewUDPConnPool : UDPConnPool :=
  {| shards := replicate (Z.to_nat UDPPoolShards) ∅; pool_closed := false; pool_stopped := false |}.

(** The index of the shard of an address. *)
Definition getShard (addr : bytes) : nat :=
  Z.to_nat (fold_left (fun h c => uint32 (h * 31 + c)) addr 0 mod UDPPoolShards).

Definition shard_at (p : UDPConnPool) (i : nat) : poolShard := default ∅ (shards p !! i).

Definition set_shard (i : nat) (m : poolShard) (p : UDPConnPool) : UDPConnPool :=
  {| shards := <[i := m]> (shards p); pool_closed := pool_closed p; pool_stopped := pool_stopped p |}.

(** The sockets kept for an address. *)
Definition conns_of (m : poolShard) (addr : bytes) : list pooledConn := default [] (m !! addr).

(** The critical section of [Get]: the last socket kept for the address, if
    any. *)
Definition Get_locked (addrStr : bytes) (p : UDPConnPool) : option Z * UDPConnPool :=
  let i := getShard addrStr in
  let conns := conns_of (shard_at p i) addrStr in
  match last conns with
  | Some pc => (Some (conn pc),
                set_shard i (<[addrStr := take (length conns - 1) conns]> (shard_at p i)) p)
  | None => (None, p)
  end.

(** The critical section of [Put]; [Some c]: the socket to close. *)
Definition Put_locked (now : Time) (addrStr : bytes) (c : Z) (p : UDPConnPool)
    : option Z * UDPConnPool :=
  if pool_closed p then (Some c, p)
  else
    let i := getShard addrStr in
    let conns := conns_of (shard_at p i) addrStr in
    if len conns >=? UDPPoolMaxConnsPerAddr then (Some c, p)
    else (None, set_shard i (<[addrStr := conns ++ [{| conn := c; lastUsed := now |}]]>
                               (shard_at p i)) p).

(** The body of the loop of [cleanupStale] over the shards: the sockets it
    closes and the shard it leaves. *)
Definition is_stale (now : Time) (pc : pooledConn) : bool :=
  time_sub now (lastUsed pc) >? UDPPoolMaxIdleTime.

Definition keep_active (now : Time) (conns : list pooledConn) : option (list pooledConn) :=
  match filter (fun pc => is_stale now pc = false) conns with
  | [] => None
  | active => Some active
  end.

Definition shard_conns (m : poolShard) : list Z :=
  map_to_list m ≫= fun '(_, conns) => conn <$> conns.

Definition cleanup_shard (now : Time) (m : poolShard) : list Z * poolShard :=
  (map_to_list m ≫= fun '(_, conns) => conn <$> filter (fun pc => is_stale now pc = true) conns,
   omap (keep_active now) m).

(** The body of the loop of [Close] over the shards. *)
Definition close_shard (m : poolShard) : list Z * poolShard := (shard_conns m, ∅).

Definition Stats (p : UDPConnPool) : Z * Z :=
  fold_left (fun '(totalConns, addrCount) m =>
    (totalConns + len (shard_conns m), addrCount + Z.of_nat (size m))) (shards p) (0, 0).

(** ** The pool among its callers *)

Record pool_world := {
  pool : UDPConnPool;
  held : list Z;          (* returned by [Get], not given back yet *)
  pending : list Z;       (* given to [Put], before its critical section *)
  closed_conns : list Z;  (* closed *)
  next_conn : Z;          (* the next socket to be dialed *)
}.

Definition initial_world : pool_world :=
  {| pool := NewUDPConnPool; held := []; pending := []; closed_conns := []; next_conn := 0 |}.

Definition pool_conns (p : UDPConnPool) : list Z := shards p ≫= shard_conns.

Inductive pool_label :=
| L_Get (addr : bytes) | L_Put_start (c : Z) | L_Put_locked (addr : bytes) (c : Z)
| L_Discard (c : Z) | L_cleanup_shard (i : nat) | L_Close | L_close_shard (i : nat).

(** A caller gives up or acquires a socket only through the pool's operations;
    [Put_start] is the test of [closed] before the lock is taken. *)
Inductive pool_step : pool_label -> pool_world -> pool_world -> Prop :=
| step_Get_reuse w addr c p' :
    Get_locked addr (pool w) = (Some c, p') ->
    pool_step (L_Get addr) w
      {| pool := p'; held := c :: held w; pending := pending w;
         closed_conns := closed_conns w; next_conn := next_conn w |}
| step_Get_dial w addr p' :
    Get_locked addr (pool w) = (None, p') ->
    pool_step (L_Get addr) w
      {| pool := p'; held := next_conn w :: held w; pending := pending w;
         closed_conns := closed_conns w; next_conn := next_conn w + 1 |}
| step_Put_start_closed w c held' :
    pool_closed (pool w) = true -> held w ≡ₚ c :: held' ->
    pool_step (L_Put_start c) w
      {| pool := pool w; held := held'; pending := pending w;
         closed_conns := c :: closed_conns w; next_conn := next_conn w |}
| step_Put_start_open w c held' :
    pool_closed (pool w) = false -> held w ≡ₚ c :: held' ->
    pool_step (L_Put_start c) w
      {| pool := pool w; held := held'; pending := c :: pending w;
         closed_conns := closed_conns w; next_conn := next_conn w |}
| step_Put_locked w now addr c pending' r p' :
    pending w ≡ₚ c :: pending' -> Put_locked now addr c (pool w) = (r, p') ->
    pool_step (L_Put_locked addr c) w
      {| pool := p'; held := held w; pending := pending';
         closed_conns := option_list r ++ closed_conns w; next_conn := next_conn w |}
| step_Discard w c held' :
    held w ≡ₚ c :: held' ->
    pool_step (L_Discard c) w
      {| pool := pool w; held := held'; pending := pending w;
         closed_conns := c :: closed_conns w; next_conn := next_conn w |}
| step_cleanup_shard w now i closing m' :
    (i < length (shards (pool w)))%nat ->
    cleanup_shard now (shard_at (pool w) i) = (closing, m') ->
    pool_step (L_cleanup_shard i) w
      {| pool := set_shard i m' (pool w); held := held w; pending := pending w;
         closed_conns := closing ++ closed_conns w; next_conn := next_conn w |}
| step_Close w :
    pool_step L_Close w
      {| pool := {| shards := shards (pool w); pool_closed := true; pool_stopped := true |};
         held := held w; pending := pending w;
         closed_conns := closed_conns w; next_conn := next_conn w |}
| step_close_shard w i closing m' :
    pool_closed (pool w) = true -> (i < length (shards (pool w)))%nat ->
    close_shard (shard_at (pool w) i) = (closing, m') ->
    pool_step (L_close_shard i) w
      {| pool := set_shard i m' (pool w); held := held w; pending := pending w;
         closed_conns := closing ++ closed_conns w; next_conn := next_conn w |}.

Inductive pool_exec : list pool_label -> pool_world -> pool_world -> Prop :=
| exec_nil w : pool_exec [] w w
| exec_snoc tr l w w1 w2 : pool_exec tr w w1 -> pool_step l w1 w2 -> pool_exec (tr ++ [l]) w w2.

(** [cleanupStale] and [Close] when nothing else runs: their loops over the
    shards, one critical section each. *)
Definition shard_step (f : poolShard -> list Z * poolShard) (w : pool_world) (i : nat) : pool_world :=
  let '(closing, m) := f (shard_at (pool w) i) in
  {| pool := set_shard i m (pool w); held := held w; pending := pending w;
     closed_conns := closing ++ closed_conns w; next_conn := next_conn w |}.

Definition cleanupStale (now : Time) (w : pool_world) : pool_world :=
  fold_left (shard_step (cleanup_shard now)) (seq 0 (length (shards (pool w)))) w.

Definition Close (w : pool_world) : pool_world :=
  let w := {| pool := {| shards := shards (pool w); pool_closed := true; pool_stopped := true |};
              held := held w; pending := pending w; closed_conns := closed_conns w;
              next_conn := next_conn w |} in
  fold_left (shard_step close_shard) (seq 0 (length (shards (pool w)))) w.

Lemma exec_app tr w w1 tr' w2 : pool_exec tr w w1 -> pool_exec tr' w1 w2 -> pool_exec (tr ++ tr') w w2.
Proof.
  intros H1 H2. induction H2 as [w1|tr' l w1 w2 w3 H2 IH Hstep]; [by rewrite app_nil_r|].
  rewrite app_assoc. eapply exec_snoc; [by apply IH|done].
Qed.

Lemma shard_steps_exec f (label : nat -> pool_label) b l w :
  (forall w i, pool_closed (pool w) = b -> (i < length (shards (pool w)))%nat ->
     pool_step (label i) w (shard_step f w i)) ->
  pool_closed (pool w) = b -> Forall (fun i => (i < length (shards (pool w)))%nat) l ->
  pool_exec (label <$> l) w (fold_left (shard_step f) l w).
Proof.
  intros Hf. revert w. induction l as [|i l IH]; intros w Hw Hl; [constructor|].
  apply Forall_cons in Hl as [Hi Hl]. csimpl. apply (exec_app [label i] w (shard_step f w i)).
  - apply (exec_snoc [] (label i) w w); [constructor|]. by apply Hf.
  - apply IH; unfold shard_step; destruct (f _); simpl; [done|]. by rewrite length_insert.
Qed.

Lemma cleanupStale_exec now w :
  pool_exec (L_cleanup_shard <$> seq 0 (length (shards (pool w)))) w (cleanupStale now w).
Proof.
  apply (shard_steps_exec _ _ (pool_closed (pool w)));
    [|done|apply Forall_forall; intros i Hi%elem_of_seq; lia].
  intros w0 i _ Hi. unfold shard_step. destruct (cleanup_shard now _) eqn:E. by eapply step_cleanup_shard.
Qed.

Lemma Close_exec w :
  pool_exec (L_Close :: (L_close_shard <$> seq 0 (length (shards (pool w))))) w (Close w).
Proof.
  eapply (exec_app [L_Close]).
  - eapply (exec_snoc [] L_Close w w); [constructor|]. apply step_Close.
  - apply (shard_steps_exec close_shard L_close_shard true);
      [|done|apply Forall_forall; intros i Hi%elem_of_seq; simpl; lia].
    intros w0 i Hc Hi. unfold shard_step. destruct (close_shard _) eqn:E. by eapply step_close_shard.
Qed.

(** ** Counting sockets *)

Lemma shard_conns_at m addr :
  shard_conns m ≡ₚ (conn <$> conns_of m addr) ++ shard_conns (delete addr m).
Proof.
  unfold shard_conns, conns_of. destruct (m !! addr) as [l|] eqn:E; simpl.
  - by rewrite <-(map_to_list_delete m addr l) by done.
  - by rewrite delete_id.
Qed.

Lemma shard_conns_insert m addr l :
  shard_conns (<[addr := l]> m) ≡ₚ (conn <$> l) ++ shard_conns (delete addr m).
Proof.
  rewrite (shard_conns_at _ addr). unfold conns_of. rewrite lookup_insert_eq. simpl.
  by rewrite delete_insert_eq.
Qed.

Lemma pool_conns_at p i : (i < length (shards p))%nat ->
  exists rest, pool_conns p ≡ₚ shard_conns (shard_at p i) ++ rest /\
    forall m, pool_conns (set_shard i m p) ≡ₚ shard_conns m ++ rest.
Proof.
  intros Hi. unfold shard_at. destruct (lookup_lt_is_Some_2 (shards p) i Hi) as [m Hm]. rewrite Hm. simpl.
  exists ((take i (shards p) ≫= shard_conns) ++ (drop (S i) (shards p) ≫= shard_conns)). split.
  - unfold pool_conns. rewrite <-(take_drop_middle _ _ _ Hm) at 1. rewrite bind_app, bind_cons.
    by rewrite Permutation_app_swap_app.
  - intros m'. unfold pool_conns, set_shard. simpl. rewrite insert_take_drop by done.
    rewrite bind_app, bind_cons. by rewrite Permutation_app_swap_app.
Qed.

Definition stale_conns (now : Time) (conns : list pooledConn) : list Z :=
  conn <$> filter (fun pc => is_stale now pc = true) conns.

Lemma keep_active_split now conns :
  conn <$> conns ≡ₚ stale_conns now conns ++ (conn <$> default [] (keep_active now conns)).
Proof.
  transitivity (stale_conns now conns ++ (conn <$> filter (fun pc => is_stale now pc = false) conns)).
  - unfold stale_conns. induction conns as [|pc conns IH]; [done|].
    rewrite !filter_cons. destruct (is_stale now pc); repeat case_decide; try done; csimpl.
    + by rewrite IH.
    + by rewrite <-Permutation_middle, IH.
  - unfold keep_active. by destruct (filter _ _).
Qed.

Lemma cleanup_split now m :
  shard_conns m ≡ₚ (cleanup_shard now m).1 ++ shard_conns (cleanup_shard now m).2.
Proof.
  unfold cleanup_shard, shard_conns. cbn [fst snd]. induction m as [|a l m Hm IH] using map_ind; [done|].
  rewrite omap_insert. rewrite !map_to_list_insert by done. rewrite !bind_cons, IH.
  change (conn <$> filter _ l) with (stale_conns now l).
  rewrite (keep_active_split now l) at 1. rewrite <-!app_assoc. f_equiv.
  destruct (keep_active now l) as [l'|] eqn:E; cbn [default].
  - rewrite map_to_list_insert by (by rewrite lookup_omap, Hm). rewrite bind_cons.
    apply Permutation_app_swap_app.
  - rewrite delete_id by (by rewrite lookup_omap, Hm). done.
Qed.

(** Every socket dialed so far is in one place. *)
Definition all_conns (w : pool_world) : list Z :=
  held w ++ pending w ++ closed_conns w ++ pool_conns (pool w).

Lemma getShard_bound addr : (getShard addr < 64)%nat.
Proof.
  unfold getShard. pose proof (Z.mod_pos_bound (fold_left (fun h c => uint32 (h * 31 + c)) addr 0) UDPPoolShards
    ltac:(done)). unfold UDPPoolShards in *. lia.
Qed.

Lemma Get_locked_conns addr p c p' : length (shards p) = 64%nat -> Get_locked addr p = (Some c, p') ->
  pool_conns p ≡ₚ c :: pool_conns p' /\ length (shards p') = 64%nat /\ pool_closed p' = pool_closed p.
Proof.
  intros Hlen. unfold Get_locked. pose proof (getShard_bound addr) as Hb.
  destruct (pool_conns_at p (getShard addr)) as (rest & H1 & H2); [lia|].
  set (m := shard_at p (getShard addr)) in *. set (l := conns_of m addr).
  destruct (last l) as [pc|] eqn:El; [|done]. intros [= <- <-].
  split_and!; [|by simpl; rewrite length_insert|done].
  rewrite H1, H2, (shard_conns_at m addr), shard_conns_insert. fold l.
  apply last_Some in El as [l' Hl]. rewrite Hl, length_app. simpl.
  replace (length l' + 1 - 1)%nat with (length l') by lia. rewrite take_app_length, fmap_app. simpl.
  by rewrite <-!Permutation_middle, app_nil_r.
Qed.

Lemma Put_locked_conns now addr c p r p' : length (shards p) = 64%nat ->
  Put_locked now addr c p = (r, p') ->
  c :: pool_conns p ≡ₚ option_list r ++ pool_conns p' /\ length (shards p') = 64%nat /\
  pool_closed p' = pool_closed p.
Proof.
  intros Hlen. unfold Put_locked. pose proof (getShard_bound addr) as Hb.
  destruct (pool_closed p) eqn:Ec; [by intros [= <- <-]|].
  destruct (_ >=? _); [by intros [= <- <-]|]. intros [= <- <-].
  destruct (pool_conns_at p (getShard addr)) as (rest & H1 & H2); [lia|].
  split_and!; [|by simpl; rewrite length_insert|done]. simpl option_list. simpl app.
  rewrite H1, H2, (shard_conns_at _ addr), shard_conns_insert, fmap_app. simpl.
  rewrite <-!app_assoc. simpl. by rewrite <-Permutation_middle.
Qed.

(** ** Invariants *)

Record pool_inv (w : pool_world) : Prop := {
  inv_places : all_conns w ≡ₚ seqZ 0 (next_conn w);
  inv_next : 0 <= next_conn w;
  inv_shards : length (shards (pool w)) = 64%nat;
  inv_cap : forall i addr conns, shard_at (pool w) i !! addr = Some conns ->
    len conns <= UDPPoolMaxConnsPerAddr;
}.

Lemma shard_at_set p i j m : (i < length (shards p))%nat ->
  shard_at (set_shard i m p) j = if decide (j = i) then m else shard_at p j.
Proof.
  intros Hi. unfold shard_at, set_shard. simpl. case_decide as E.
  - subst. by rewrite list_lookup_insert_eq.
  - by rewrite list_lookup_insert_ne.
Qed.

Lemma initial_inv : pool_inv initial_world.
Proof.
  split; [|done|reflexivity|].
  - apply Permutation_refl'. vm_compute. reflexivity.
  - intros i addr conns. unfold shard_at. cbn [initial_world pool NewUDPConnPool shards].
    destruct (replicate _ _ !! i) as [m|] eqn:E; simpl; [|by rewrite lookup_empty].
    apply lookup_replicate in E as [-> _]. by rewrite lookup_empty.
Qed.

Lemma cap_set p i m :
  (i < length (shards p))%nat ->
  (forall addr conns, m !! addr = Some conns -> len conns <= UDPPoolMaxConnsPerAddr) ->
  (forall j addr conns, shard_at p j !! addr = Some conns -> len conns <= UDPPoolMaxConnsPerAddr) ->
  forall j addr conns, shard_at (set_shard i m p) j !! addr = Some conns ->
    len conns <= UDPPoolMaxConnsPerAddr.
Proof. intros Hi Hm H j addr conns. rewrite shard_at_set by done. case_decide; eauto. Qed.

Lemma cap_conns_of m addr : (forall conns, m !! addr = Some conns -> len conns <= UDPPoolMaxConnsPerAddr) ->
  len (conns_of m addr) <= UDPPoolMaxConnsPerAddr.
Proof.
  intros H. unfold conns_of. destruct (m !! addr) as [l|]; simpl; [by apply H|].
  unfold len, UDPPoolMaxConnsPerAddr. simpl. lia.
Qed.

Lemma step_cap l w w' : length (shards (pool w)) = 64%nat -> pool_step l w w' ->
  (forall i addr conns, shard_at (pool w) i !! addr = Some conns -> len conns <= UDPPoolMaxConnsPerAddr) ->
  forall i addr conns, shard_at (pool w') i !! addr = Some conns -> len conns <= UDPPoolMaxConnsPerAddr.
Proof.
  intros Hlen Hstep Hcap. pose proof getShard_bound as Hb.
  destruct Hstep as [w addr c p' Hg|w addr p' Hg|w c h Hc Hh|w c h Hc Hh|w now addr c pend r p' Hp Hput
    |w c h Hh|w now i cl m' Hi Hcl|w|w i cl m' Hc Hi Hcl]; simpl; try done.
  - unfold Get_locked in Hg. destruct (last _) eqn:El; [|done]. injection Hg as <- <-.
    apply cap_set; [rewrite Hlen; apply Hb| |done]. intros a l.
    intros [[Ha Hl]|[_ Hl]]%lookup_insert_Some; [|by eapply Hcap]. subst l.
    pose proof (cap_conns_of (shard_at (pool w) (getShard addr)) addr (Hcap _ addr)).
    unfold len in *. rewrite length_take. lia.
  - unfold Get_locked in Hg. by destruct (last _); simplify_eq.
  - unfold Put_locked in Hput. destruct (pool_closed _); [by simplify_eq|].
    destruct (_ >=? _) eqn:Ecap; [by simplify_eq|]. injection Hput as <- <-.
    apply cap_set; [rewrite Hlen; apply Hb| |done]. intros a l.
    intros [[Ha Hl]|[_ Hl]]%lookup_insert_Some; [|by eapply Hcap]. subst l.
    bools. unfold len, UDPPoolMaxConnsPerAddr in *. rewrite length_app. simpl. lia.
  - injection Hcl as _ <-. apply cap_set; [done| |done]. intros a l.
    rewrite lookup_omap. intros (l0 & Hl0 & Hk)%bind_Some. specialize (Hcap _ _ _ Hl0).
    unfold keep_active in Hk. destruct (filter _ l0) as [|x f] eqn:Ef; simplify_eq.
    pose proof (length_filter (fun pc => is_stale now pc = false) l0) as Hf. rewrite Ef in Hf.
    unfold len in *. lia.
  - injection Hcl as _ <-. apply cap_set; [done| |done]. intros a l. by rewrite lookup_empty.
Qed.

Lemma step_shards l w w' : length (shards (pool w)) = 64%nat -> pool_step l w w' ->
  length (shards (pool w')) = 64%nat.
Proof.
  intros Hlen Hstep. destruct Hstep; simpl; rewrite ?length_insert; try done.
  - by destruct (Get_locked_conns _ _ _ _ Hlen H) as (_ & ? & _).
  - unfold Get_locked in H. by destruct (last _); simplify_eq.
  - by destruct (Put_locked_conns _ _ _ _ _ _ Hlen H0) as (_ & ? & _).
Qed.

(** A step moves sockets from one place to another, or adds a new one. *)
Lemma step_places l w w' : length (shards (pool w)) = 64%nat -> pool_step l w w' ->
  (all_conns w' ≡ₚ all_conns w /\ next_conn w' = next_conn w) \/
  (all_conns w' ≡ₚ next_conn w :: all_conns w /\ next_conn w' = next_conn w + 1).
Proof.
  intros Hlen Hstep.
  destruct Hstep as [w addr c p' Hg|w addr p' Hg|w c h Hc Hh|w c h Hc Hh|w now addr c pend r p' Hp Hput
    |w c h Hh|w now i cl m' Hi Hcl|w|w i cl m' Hc Hi Hcl]; unfold all_conns; simpl.
  - left. split; [|done]. destruct (Get_locked_conns _ _ _ _ Hlen Hg) as [-> _].
    rewrite !app_assoc. apply Permutation_middle.
  - right. split; [|done]. unfold Get_locked in Hg. by destruct (last _); simplify_eq.
  - left. split; [|done]. rewrite Hh. solve_Permutation.
  - left. split; [|done]. rewrite Hh. solve_Permutation.
  - left. split; [|done]. destruct (Put_locked_conns _ _ _ _ _ _ Hlen Hput) as [Hperm _].
    rewrite Hp, <-app_assoc, (Permutation_app_swap_app (option_list r)), <-Hperm. solve_Permutation.
  - left. split; [|done]. rewrite Hh. solve_Permutation.
  - left. split; [|done]. do 2 f_equiv. destruct (pool_conns_at (pool w) i Hi) as (rest & H1 & H2).
    rewrite H1, H2, (cleanup_split now (shard_at (pool w) i)), Hcl. simpl.
    rewrite <-!app_assoc. apply Permutation_app_swap_app.
  - left. done.
  - left. split; [|done]. do 2 f_equiv. destruct (pool_conns_at (pool w) i Hi) as (rest & H1 & H2).
    injection Hcl as <- <-. rewrite H1, H2. change (shard_conns ∅) with (@nil Z). simpl.
    rewrite <-!app_assoc. apply Permutation_app_swap_app.
Qed.

Lemma step_inv l w w' : pool_inv w -> pool_step l w w' -> pool_inv w'.
Proof.
  intros [H1 H2 H3 H4] Hstep. split.
  - destruct (step_places _ _ _ H3 Hstep) as [[-> ->]|[-> ->]]; [done|].
    rewrite H1, seqZ_app by lia. rewrite Z.add_0_l.
    change (seqZ (next_conn w) 1) with [next_conn w]. by rewrite <-Permutation_cons_append.
  - destruct (step_places _ _ _ H3 Hstep) as [[_ ->]|[_ ->]]; lia.
  - by eapply step_shards.
  - by eapply step_cap.
Qed.

Lemma exec_inv tr w w' : pool_exec tr w w' -> pool_inv w -> pool_inv w'.
Proof. induction 1; eauto using step_inv. Qed.

(** C4: sockets are neither shared nor lost.  In every interleaving of [Get],
    [Put], [Discard], the clean-up and [Close], each socket ever dialed is in
    exactly one place (held by one caller, about to be put back, in the pool,
    or closed), at most four are kept for an address, and a socket taken from
    the pool is one that no caller holds and nobody has closed. *)
Theorem pool_ownership tr w :
  pool_exec tr initial_world w ->
  NoDup (all_conns w) /\
  (forall c, 0 <= c < next_conn w <-> c ∈ all_conns w) /\
  (forall i addr, len (conns_of (shard_at (pool w) i) addr) <= UDPPoolMaxConnsPerAddr) /\
  (forall addr c p', Get_locked addr (pool w) = (Some c, p') ->
     c ∉ held w /\ c ∉ pending w /\ c ∉ closed_conns w /\ c ∉ pool_conns p').
Proof.
  intros Hex. destruct (exec_inv _ _ _ Hex initial_inv) as [H1 H2 H3 H4].
  assert (NoDup (all_conns w)) as Hnd by (rewrite H1; apply NoDup_seqZ).
  split_and!; [done| | |].
  - intros c. rewrite H1, elem_of_seqZ. lia.
  - intros i addr. apply cap_conns_of. intros conns. apply H4.
  - intros addr c p' Hg. destruct (Get_locked_conns _ _ _ _ H3 Hg) as [Hp _].
    unfold all_conns in Hnd. rewrite Hp in Hnd. rewrite !app_assoc, <-Permutation_middle in Hnd.
    apply NoDup_cons in Hnd as [Hnot _]. rewrite !not_elem_of_app in Hnot. tauto.
Qed.

Lemma step_closed l w w' : pool_step l w w' -> pool_closed (pool w) = true ->
  pool_closed (pool w') = true.
Proof.
  intros Hstep Hc. destruct Hstep; simpl; try done.
  - unfold Get_locked in H. by destruct (last _); simplify_eq.
  - unfold Get_locked in H. by destruct (last _); simplify_eq.
  - unfold Put_locked in H0. rewrite Hc in H0. by simplify_eq.
Qed.

Lemma shard_conns_nil m addr : shard_conns m = [] -> conns_of m addr = [].
Proof.
  intros H. pose proof (shard_conns_at m addr) as Hp. rewrite H in Hp.
  apply Permutation_nil_l in Hp. symmetry in Hp. apply app_eq_nil in Hp as [Hp _].
  by destruct (conns_of m addr).
Qed.

(** Once the pool is closed, a shard without sockets stays so. *)
Lemma step_shard_empty l w w' i : pool_step l w w' -> pool_closed (pool w) = true ->
  shard_conns (shard_at (pool w) i) = [] -> shard_conns (shard_at (pool w') i) = [].
Proof.
  intros Hstep Hc He.
  destruct Hstep as [w addr c p' Hg|w addr p' Hg|w c h _ Hh|w c h _ Hh|w now addr c pend r p' Hp Hput
    |w c h Hh|w now j cl m' Hj Hcl|w|w j cl m' _ Hj Hcl]; simpl; try done.
  - unfold Get_locked in Hg. destruct (last _) as [pc|] eqn:El; [|done]. injection Hg as <- <-.
    destruct (decide (i = getShard addr)) as [->|Hne].
    + by rewrite (shard_conns_nil _ _ He) in El.
    + unfold shard_at, set_shard. simpl. by rewrite list_lookup_insert_ne.
  - unfold Get_locked in Hg. by destruct (last _); simplify_eq.
  - unfold Put_locked in Hput. rewrite Hc in Hput. by simplify_eq.
  - rewrite shard_at_set by done. case_decide as E; [subst j|done].
    pose proof (cleanup_split now (shard_at (pool w) i)) as Hs. rewrite He, Hcl in Hs.
    apply Permutation_nil_l in Hs. symmetry in Hs. by apply app_eq_nil in Hs as [_ ?].
  - rewrite shard_at_set by done. case_decide as E; [|done]. by injection Hcl as _ <-.
Qed.

(** What holds after a trace that closes the pool and then a shard. *)
Lemma exec_shard_closed tr w w' : pool_exec tr w w' ->
  (L_Close ∈ tr -> pool_closed (pool w') = true) /\
  (forall i, L_close_shard i ∈ tr ->
     pool_closed (pool w') = true /\ shard_conns (shard_at (pool w') i) = []).
Proof.
  induction 1 as [w|tr l w w1 w2 Hex [IH1 IH2] Hstep].
  { split; [by intros ?%not_elem_of_nil|by intros ? ?%not_elem_of_nil]. }
  split.
  - intros [H|H%list_elem_of_singleton]%elem_of_app; [by eapply step_closed; eauto|].
    subst. by inversion Hstep; subst.
  - intros i [H|H%list_elem_of_singleton]%elem_of_app.
    + destruct (IH2 i H) as [Hc He]. split; [by eapply step_closed|by eapply step_shard_empty].
    + subst. inversion Hstep as [| | | | | | | |w0 i' cl m' Hc Hi Hcl]; subst. simpl. split; [done|].
      rewrite shard_at_set, decide_True by done. by injection Hcl as _ <-.
Qed.

Lemma list_eq_nil_bind {A B} (f : A -> list B) (l : list A) :
  (forall x, x ∈ l -> f x = []) -> l ≫= f = [].
Proof.
  induction l as [|x l IH]; intros H; [done|]. csimpl.
  rewrite (H x) by constructor. apply IH. intros y Hy. apply H. by constructor.
Qed.

(** After [Close] has gone through the shards the pool is empty and stays
    so, whatever runs at the same time: a caller that was putting a socket back
    finds the pool closed and closes it.  Every socket is then closed but
    those callers still have. *)
Theorem pool_close tr w :
  pool_exec tr initial_world w ->
  (forall i, (i < Z.to_nat UDPPoolShards)%nat -> L_close_shard i ∈ tr) ->
  pool_conns (pool w) = [] /\
  (forall c, 0 <= c < next_conn w -> c ∈ held w \/ c ∈ pending w \/ c ∈ closed_conns w) /\
  (forall now addr c, Put_locked now addr c (pool w) = (Some c, pool w)) /\
  (forall addr, Get_locked addr (pool w) = (None, pool w)).
Proof.
  intros Hex Hall. destruct (exec_inv _ _ _ Hex initial_inv) as [H1 H2 H3 H4].
  destruct (exec_shard_closed _ _ _ Hex) as [_ Hcl].
  assert (forall i, (i < 64)%nat -> shard_conns (shard_at (pool w) i) = []) as Hempty
    by (intros i Hi; by apply Hcl, Hall).
  assert (pool_conns (pool w) = []) as Hnil.
  { unfold pool_conns. apply list_eq_nil_bind. intros m Hm.
    apply list_elem_of_lookup in Hm as [i Hi]. pose proof (lookup_lt_Some _ _ _ Hi).
    specialize (Hempty i ltac:(lia)). unfold shard_at in Hempty. by rewrite Hi in Hempty. }
  split_and!; [done| | |].
  - intros c Hc. assert (c ∈ all_conns w) as Hin by (rewrite H1, elem_of_seqZ; lia).
    unfold all_conns in Hin. rewrite Hnil, !elem_of_app in Hin.
    destruct Hin as [?|[?|[?|?%not_elem_of_nil]]]; auto. done.
  - intros now addr c. unfold Put_locked.
    by rewrite (proj1 (Hcl 0%nat (Hall 0%nat ltac:(unfold UDPPoolShards; lia)))).
  - intros addr. unfold Get_locked.
    by rewrite (shard_conns_nil _ addr (Hempty _ (getShard_bound addr))).
Qed.

(** ** Examples *)

Definition one_held : pool_world :=
  {| pool := NewUDPConnPool; held := [0]; pending := []; closed_conns := []; next_conn := 1 |}.

Lemma exec_one_held addr : pool_exec [L_Get addr] initial_world one_held.
Proof.
  apply (exec_snoc [] _ _ initial_world); [constructor|].
  apply (step_Get_dial initial_world addr NewUDPConnPool). unfold Get_locked.
  replace (conns_of _ _) with (@nil pooledConn); [done|]. unfold conns_of, shard_at.
  cbn [initial_world pool NewUDPConnPool shards].
  rewrite lookup_replicate_2; [done|]. apply getShard_bound.
Qed.

Lemma pool_ownership_witness : NoDup (all_conns one_held) /\ 0 ∈ all_conns one_held.
Proof.
  destruct (pool_ownership _ _ (exec_one_held (str "9.9.9.9:443"))) as (H1 & H2 & _).
  split; [exact H1|]. apply H2. split; [done|reflexivity].
Defined.

Lemma pool_close_witness :
  pool_conns (pool (Close initial_world)) = [] /\
  Get_locked (str "9.9.9.9:443") (pool (Close initial_world)) = (None, pool (Close initial_world)).
Proof.
  destruct (pool_close _ _ (Close_exec initial_world)) as (H1 & _ & _ & H4).
  - intros i Hi. apply elem_of_cons. right. apply list_elem_of_fmap. exists i. split; [done|].
    apply elem_of_seq. split; [lia|exact Hi].
  - split; [exact H1|apply H4].
Defined.
