(* ===== verification/Query.v ===== *)
(** * Processing of a query (src/dnscrypt-proxy/query_processing.go and
      [processIncomingQuery] of src/dnscrypt-proxy/proxy.go)

    One query from the client's packet to the response: the query plugins, the
    choice of a server, the exchange, the response plugins, what is sent, and
    the feedback that is recorded when the function returns.  The transports
    are the interface [Upstream]; the code is written in a state monad over
    [World], the part of the proxy that a query can change and its own
    variables. *)

From S2P Require Import Prelude GoStrings GoFloat NetIP Common Crypto Dns DnsUtils Metrics Estimators.
From S2P Require Import ServerTypes Mds Servers Plugins Feedback.

Record FetchTrace := {
  UsedHTTP3 : bool; QUICFallback : bool; ConnReused : bool; TLSResumed : bool;
  NegotiatedProto : bytes;
}.

(** What the HTTP transport returns to a DoH or ODoH query. *)
Record http_reply := {
  http_body : bytes;
  http_status : Z;
  tls_complete : bool;             (* tls != nil && tls.HandshakeComplete *)
  http_trace : option FetchTrace;
  http_err : option exchange_error;
}.

Record ODoHQuery := { odohMessage : bytes; decryptResponse : bytes -> option bytes }.

(** The transports: [Encrypt] and the exchanges of the DNSCrypt protocol,
    [DoHQuery], [ObliviousDoHQuery], and the fetch of a server's keys. *)
Class Upstream (U : Type) := {
  up_encrypt : ServerInfo -> bytes -> proto -> U -> result exchange_error EncryptedQuery * U;
  up_udp : ServerInfo -> EncryptedQuery -> U -> result exchange_error bytes * bool * U;
  up_tcp : ServerInfo -> EncryptedQuery -> U -> result exchange_error bytes * U;
  up_doh : bool -> URL -> bytes -> U -> http_reply * U;
  up_odoh_encrypt : bytes -> bytes -> U -> result exchange_error ODoHQuery * U;
  up_odoh : bool -> URL -> bytes -> U -> http_reply * U;
  up_fetch : bytes -> ServerStamp -> U -> option ServerInfo * U;
}.

(** Assignments to the fields of the outcome of an exchange. *)
Definition set_transport (t : ExchangeTransport) (o : ExchangeOutcome) : ExchangeOutcome :=
  {| o_Duration := o_Duration o; o_Transport := t; o_Timeout := o_Timeout o; o_Error := o_Error o;
     o_Servfail := o_Servfail o; o_DNSSECBogus := o_DNSSECBogus o;
     o_UpstreamTruncated := o_UpstreamTruncated o; o_LocalTruncated := o_LocalTruncated o;
     o_TCPFallback := o_TCPFallback o; o_QUICFallback := o_QUICFallback o;
     o_ConnReused := o_ConnReused o; o_ECSReturned := o_ECSReturned o |}.
Definition set_connReused (b : bool) (o : ExchangeOutcome) : ExchangeOutcome :=
  {| o_Duration := o_Duration o; o_Transport := o_Transport o; o_Timeout := o_Timeout o;
     o_Error := o_Error o; o_Servfail := o_Servfail o; o_DNSSECBogus := o_DNSSECBogus o;
     o_UpstreamTruncated := o_UpstreamTruncated o; o_LocalTruncated := o_LocalTruncated o;
     o_TCPFallback := o_TCPFallback o; o_QUICFallback := o_QUICFallback o;
     o_ConnReused := b; o_ECSReturned := o_ECSReturned o |}.
Definition set_fallbacks (upstreamTruncated tcpFallback quicFallback : bool) (o : ExchangeOutcome)
    : ExchangeOutcome :=
  {| o_Duration := o_Duration o; o_Transport := o_Transport o; o_Timeout := o_Timeout o;
     o_Error := o_Error o; o_Servfail := o_Servfail o; o_DNSSECBogus := o_DNSSECBogus o;
     o_UpstreamTruncated := upstreamTruncated; o_LocalTruncated := o_LocalTruncated o;
     o_TCPFallback := tcpFallback; o_QUICFallback := quicFallback;
     o_ConnReused := o_ConnReused o; o_ECSReturned := o_ECSReturned o |}.
Definition set_localTruncated (b : bool) (o : ExchangeOutcome) : ExchangeOutcome :=
  {| o_Duration := o_Duration o; o_Transport := o_Transport o; o_Timeout := o_Timeout o;
     o_Error := o_Error o; o_Servfail := o_Servfail o; o_DNSSECBogus := o_DNSSECBogus o;
     o_UpstreamTruncated := o_UpstreamTruncated o; o_LocalTruncated := b;
     o_TCPFallback := o_TCPFallback o; o_QUICFallback := o_QUICFallback o;
     o_ConnReused := o_ConnReused o; o_ECSReturned := o_ECSReturned o |}.

Definition on_exchange (f : ExchangeOutcome -> ExchangeOutcome) (ps : PluginsState) : PluginsState :=
  set_exchange (f (exchange ps)) ps.

Definition validateQuery (query : bytes) : bool :=
  if len query <? MinDNSPacketSize then false
  else if len query >? MaxDNSPacketSize then false
  else true.

Definition applyHTTPFetchTrace (ft : option FetchTrace) (odoh : bool) (ps : PluginsState)
    : PluginsState :=
  match ft with
  | None => ps
  | Some ft =>
      let ps := on_exchange (fun o => set_fallbacks (o_UpstreamTruncated o) (o_TCPFallback o)
                                        (QUICFallback ft) o) ps in
      let ps := on_exchange (set_connReused (ConnReused ft)) ps in
      if odoh then on_exchange (set_transport TransportODoH) ps
      else if UsedHTTP3 ft || bool_decide (NegotiatedProto ft = str "h3")
      then on_exchange (set_transport TransportDoHH3) ps
      else on_exchange (set_transport TransportDoHH2) ps
  end.

(** [handleSynthesizedResponse]; [None] is an error. *)
Definition handleSynthesizedResponse `{D : DnsLib} (ps : PluginsState) (synth : Msg)
    : option bytes * PluginsState :=
  match validateResponseForQuery (questionMsg ps) (Some synth) with
  | Some _ => (None, set_returnCode PluginsReturnCodeParseError ps)
  | None =>
      match Pack synth with
      | None => (None, set_returnCode PluginsReturnCodeParseError ps)
      | Some data => (Some data, ps)
      end
  end.

(** ** The world of a query *)

(** [ticks] counts the readings of the clock and the random choices;
    [outbox] is what has been written to the client, oldest first; [selected]
    is the variable [serverInfo] of [processIncomingQuery]. *)
Record World {U X : Type} := {
  up : U;
  servers : ServersInfo;
  pdata : X;
  estimator : QuestionSizeEstimator;
  outbox : list bytes;
  ps : PluginsState;
  selected : option ServerInfo;
  ticks : nat;
}.
Arguments World : clear implicits.

Definition M (U X A : Type) : Type := World U X -> A * World U X.
Definition ret {U X A} (a : A) : M U X A := fun w => (a, w).
Definition bind {U X A B} (m : M U X A) (k : A -> M U X B) : M U X B :=
  fun w => let '(a, w) := m w in k a w.

Declare Scope query_scope.
Delimit Scope query_scope with query.
Open Scope query_scope.
Notation "x <-- m ;; k" := (bind m (fun x => k))
  (at level 100, m at next level, right associativity) : query_scope.
Notation "' p <-- m ;; k" := (bind m (fun x => match x with p => k end))
  (at level 100, p pattern, m at next level, right associativity) : query_scope.
Notation "m ;;; k" := (bind m (fun _ => k)) (at level 100, right associativity) : query_scope.

Section world.
Context {U X : Type}.

Definition with_up (u : U) (w : World U X) : World U X :=
  {| up := u; servers := servers w; pdata := pdata w; estimator := estimator w;
     outbox := outbox w; ps := ps w; selected := selected w; ticks := ticks w |}.
Definition with_servers (si : ServersInfo) (w : World U X) : World U X :=
  {| up := up w; servers := si; pdata := pdata w; estimator := estimator w;
     outbox := outbox w; ps := ps w; selected := selected w; ticks := ticks w |}.
Definition with_pdata (x : X) (w : World U X) : World U X :=
  {| up := up w; servers := servers w; pdata := x; estimator := estimator w;
     outbox := outbox w; ps := ps w; selected := selected w; ticks := ticks w |}.
Definition with_estimator (e : QuestionSizeEstimator) (w : World U X) : World U X :=
  {| up := up w; servers := servers w; pdata := pdata w; estimator := e;
     outbox := outbox w; ps := ps w; selected := selected w; ticks := ticks w |}.
Definition with_outbox (l : list bytes) (w : World U X) : World U X :=
  {| up := up w; servers := servers w; pdata := pdata w; estimator := estimator w;
     outbox := l; ps := ps w; selected := selected w; ticks := ticks w |}.
Definition with_ps (p : PluginsState) (w : World U X) : World U X :=
  {| up := up w; servers := servers w; pdata := pdata w; estimator := estimator w;
     outbox := outbox w; ps := p; selected := selected w; ticks := ticks w |}.
Definition with_selected (s : option ServerInfo) (w : World U X) : World U X :=
  {| up := up w; servers := servers w; pdata := pdata w; estimator := estimator w;
     outbox := outbox w; ps := ps w; selected := s; ticks := ticks w |}.
Definition tick (w : World U X) : World U X :=
  {| up := up w; servers := servers w; pdata := pdata w; estimator := estimator w;
     outbox := outbox w; ps := ps w; selected := selected w; ticks := S (ticks w) |}.

Definition get_ps : M U X PluginsState := fun w => (ps w, w).
Definition on_ps (f : PluginsState -> PluginsState) : M U X unit := fun w => (tt, with_ps (f (ps w)) w).
Definition on_up {A} (f : U -> A * U) : M U X A :=
  fun w => let '(a, u) := f (up w) in (a, with_up u w).
Definition on_servers {A} (f : ServersInfo -> A * ServersInfo) : M U X A :=
  fun w => let '(a, si) := f (servers w) in (a, with_servers si w).
Definition write_client (packet : bytes) : M U X unit :=
  fun w => (tt, with_outbox (outbox w ++ [packet]) w).
Definition on_estimator (f : QuestionSizeEstimator -> QuestionSizeEstimator) : M U X unit :=
  fun w => (tt, with_estimator (f (estimator w)) w).

(** A plugin works on its own data. *)
Definition lift_plugin (p : Plugin X) : Plugin (World U X) :=
  fun w ps msg => let '(err, x, ps, msg) := p (pdata w) ps msg in (err, with_pdata x w, ps, msg).

Definition lift_globals (g : PluginsGlobals X) : PluginsGlobals (World U X) :=
  {| queryPlugins := lift_plugin <$> queryPlugins g;
     responsePlugins := lift_plugin <$> responsePlugins g;
     loggingPlugins := lift_plugin <$> loggingPlugins g; config := config g |}.
End world.

(** What does not change while queries are processed; [readings] and
    [choices] are the clock and the random numbers. *)
Record Proxy {X : Type} := {
  pluginsGlobals : PluginsGlobals X;
  ttls : ProxyTTLs;
  clientKey : ClientKey;
  readings : nat -> Time;
  choices : nat -> lb_draws;
  pick_target : nat -> nat -> nat;     (* rand.Intn *)
  random_key : nat -> bytes;
  updateMetrics : PluginsState -> X -> X;  (* of the monitoring page, when enabled *)
}.
Arguments Proxy : clear implicits.

Section query.
Context `{D : DnsLib} `{P : Primitives} {U : Type} `{UP : Upstream U} {X : Type}.
Context (proxy : Proxy X).

Notation Q := (M U X).
Notation reply := (bytes * option exchange_error)%type.

Definition now : Q Time := fun w => (readings proxy (ticks w), tick w).

(** [ApplyLoggingPlugins]; its error is ignored by every caller. *)
Definition applyLoggingPlugins : Q unit :=
  t <-- now ;;
  fun w =>
    let '(_, w', ps') := ApplyLoggingPlugins t (lift_globals (pluginsGlobals proxy)) w (ps w) in
    (tt, with_ps ps' w').

(** A failure: the return code is set and the query is logged. *)
Definition fail_with (code : PluginsReturnCode) : Q unit :=
  on_ps (set_returnCode code) ;;; applyLoggingPlugins.

(** [serverInfo.noticeBegin]: the record of the server in the list is shared. *)
Definition notice_begin (server : ServerInfo) : Q unit :=
  t <-- now ;;
  on_servers (fun si =>
    (tt, match server_index (Name_ server) (inner si) 0 with
         | Some i => set_inner (alter (noticeBegin t) (Z.to_nat i) (inner si)) si
         | None => si
         end)).

(** The stale response kept aside, when there is one that can be packed. *)
Definition stale_response : Q (option bytes) :=
  st <-- get_ps ;;
  ret (m ← stale st; Pack m).

Definition exchange_tcp (server : ServerInfo) (q : EncryptedQuery) : Q (result exchange_error bytes) :=
  on_ps (on_exchange (set_transport TransportDNSCryptTCP)) ;;;
  on_ps (on_exchange (set_connReused false)) ;;;
  on_up (up_tcp server q).

Definition is_timeout {A} (r : result exchange_error A) : bool :=
  match r with Err TimeoutError => true | _ => false end.

(** The exchange of [processDNSCryptQuery] once the query is encrypted for
    [serverProto]; [inl]: the query could not be encrypted again for TCP. *)
Definition dnscrypt_exchange (server : ServerInfo) (query : bytes) (serverProto : proto)
    (q : EncryptedQuery) : Q (exchange_error + result exchange_error bytes) :=
  match serverProto with
  | udp =>
      '(response, connReused) <-- on_up (up_udp server q) ;;
      on_ps (on_exchange (set_connReused connReused)) ;;;
      let truncated := match response with
                       | Ok response => (len response >=? MinDNSPacketSize) && HasTCFlag response
                       | Err _ => false
                       end in
      (if truncated
       then on_ps (on_exchange (fun o => set_fallbacks true (o_TCPFallback o) (o_QUICFallback o) o))
       else ret tt) ;;;
      if truncated || is_timeout response then
        on_ps (on_exchange (fun o => set_fallbacks (o_UpstreamTruncated o) true (o_QUICFallback o) o)) ;;;
        r <-- on_up (up_encrypt server query tcp) ;;
        match r with
        | Err err => ret (inl err)
        | Ok q => response <-- exchange_tcp server q ;; ret (inr response)
        end
      else ret (inr response)
  | tcp => response <-- exchange_tcp server q ;; ret (inr response)
  end.

Definition processDNSCryptQuery (server : ServerInfo) (query : bytes) (serverProto : proto) : Q reply :=
  r <-- on_up (up_encrypt server query serverProto) ;;
  '(serverProto, r) <--
    (match r, serverProto with
     | Err _, udp => r <-- on_up (up_encrypt server query tcp) ;; ret (tcp, r)
     | _, _ => ret (serverProto, r)
     end) ;;
  match r with
  | Err err => fail_with PluginsReturnCodeParseError ;;; ret ([], Some err)
  | Ok q =>
      notice_begin server ;;;
      on_ps (on_exchange (set_transport TransportDNSCryptUDP)) ;;;
      response <-- dnscrypt_exchange server query serverProto q ;;
      match response with
      | inl err => fail_with PluginsReturnCodeParseError ;;; ret ([], Some err)
      | inr (Ok response) => ret (response, None)
      | inr (Err err) =>
          old <-- stale_response ;;
          match old with
          | Some data => ret (data, None)
          | None =>
              fail_with (match err with
                         | TimeoutError => PluginsReturnCodeServerTimeout
                         | OtherError => PluginsReturnCodeNetworkError
                         end) ;;;
              ret ([], Some err)
          end
      end
  end.

Definition processDoHQuery (server : ServerInfo) (query : bytes) : Q reply :=
  let tid := TransactionID query in
  let query := SetTransactionID query 0 in
  notice_begin server ;;;
  r <-- on_up (up_doh (useGet server) (s_URL (endpoint server)) query) ;;
  on_ps (applyHTTPFetchTrace (http_trace r) false) ;;;
  if bool_decide (http_err r = None) && tls_complete r then
    let response := http_body r in
    ret (if len response >=? MinDNSPacketSize then SetTransactionID response tid else response, None)
  else
    old <-- stale_response ;;
    match old with
    | Some data => ret (data, None)
    | None => fail_with PluginsReturnCodeNetworkError ;;; ret ([], http_err r)
    end.

(** [Some err]: the refresh failed. *)
Definition refreshODoHKey (server : ServerInfo) (stamp : ServerStamp) : Q (option exchange_error) :=
  t <-- now ;;
  began <-- on_servers (beginODoHRefresh t (Name_ server) (10 * Second)) ;;
  if negb began then ret None
  else
    fetched <-- on_up (up_fetch (Name_ server) stamp) ;;
    success <-- (fun w => on_servers (refreshServer (clientKey proxy) (random_key proxy (ticks w))
                                        (Name_ server) stamp fetched) (tick w)) ;;
    t <-- now ;;
    on_servers (fun si => (tt, endODoHRefresh t (Name_ server) success si)) ;;;
    ret (if success then None else Some OtherError).

Definition processODoHQuery (server : ServerInfo) (query : bytes) : Q reply :=
  let tid := TransactionID query in
  let e := endpoint server in
  match odohTargetConfigs e with
  | [] => ret ([], None)
  | first :: _ =>
      notice_begin server ;;;
      target <-- (fun w => (default first
        (odohTargetConfigs e !! pick_target proxy (ticks w) (length (odohTargetConfigs e))), tick w)) ;;
      q <-- on_up (up_odoh_encrypt target query) ;;
      match q with
      | Err err => ret ([], Some err)
      | Ok odohQuery =>
          let targetURL := default (s_URL e) (r ← s_Relay e; r_ODoH r) in
          r <-- on_up (up_odoh (useGet server) targetURL (odohMessage odohQuery)) ;;
          on_ps (applyHTTPFetchTrace (http_trace r) true) ;;;
          let responseBody := http_body r in
          if bool_decide (http_err r = None) && (len responseBody >? 0) && (http_status r =? 200) then
            match decryptResponse odohQuery responseBody with
            | None => ret ([], Some OtherError)
            | Some response =>
                ret (if len response >=? MinDNSPacketSize then SetTransactionID response tid
                     else response, None)
            end
          else
            err <--
              (if (http_status r =? 401) || ((http_status r =? 200) && (len responseBody =? 0)) then
                 fun w =>
                   match List.find (fun rs => bool_decide (rs_name rs = Name_ server))
                           (registeredServers (servers w)) with
                   | Some rs => (refreshErr <-- refreshODoHKey server (rs_stamp rs) ;;
                                 ret (match refreshErr with Some _ => refreshErr | None => http_err r end)) w
                   | None => (http_err r, w)
                   end
               else ret (http_err r)) ;;
            fail_with PluginsReturnCodeNetworkError ;;;
            ret ([], err)
      end
  end.

(** [handleDNSExchange]; the first component is [None] for a nil response.  An
    unknown protocol ends the process, which the last branch stands for. *)
Definition handleDNSExchange (server : ServerInfo) (query : bytes) (serverProto : proto)
    : Q (option bytes * option exchange_error) :=
  t <-- now ;;
  on_ps (set_exchangeStart t) ;;;
  '(response, err) <--
    (if Proto server =? StampProtoTypeDNSCrypt then processDNSCryptQuery server query serverProto
     else if Proto server =? StampProtoTypeDoH then processDoHQuery server query
     else if Proto server =? StampProtoTypeODoHTarget then processODoHQuery server query
     else ret ([], Some OtherError)) ;;
  match err with
  | Some e => ret (None, Some e)
  | None =>
      if (len response <? MinDNSPacketSize) || (len response >? MaxDNSPacketSize)
      then fail_with PluginsReturnCodeParseError ;;; ret (None, None)
      else ret (Some response, None)
  end.

(** [processPlugins]; [None] is an error. *)
Definition processPlugins (response : bytes) : Q (option bytes) :=
  r <-- (fun w =>
    let '(err, w', ps', response) :=
      ApplyResponsePlugins (lift_globals (pluginsGlobals proxy)) response w (ps w) in
    ((err, response), with_ps ps' w')) ;;
  match r with
  | (Some _, _) => fail_with PluginsReturnCodeParseError ;;; ret None
  | (None, response) =>
      st <-- get_ps ;;
      if bool_decide (action st = PluginsActionDrop)
      then fail_with PluginsReturnCodeDrop ;;; ret (Some response)
      else match synthResponse st with
      | None => ret (Some response)
      | Some synth =>
          let '(data, st') := handleSynthesizedResponse st synth in
          on_ps (fun _ => st') ;;;
          match data with
          | Some data => ret (Some data)
          | None => applyLoggingPlugins ;;; ret None
          end
      end
  end.

(** [sendResponse]; [clientPc]: whether there is a connection to write to. *)
Definition sendResponse (response : bytes) (cp : client_proto) (clientPc : bool) : Q unit :=
  if (len response <? MinDNSPacketSize) || (len response >? MaxDNSPacketSize) then
    fail_with (if len response =? 0 then PluginsReturnCodeNotReady else PluginsReturnCodeParseError)
  else match cp with
  | client_udp =>
      st <-- get_ps ;;
      truncated <--
        (if len response >? maxUnencryptedUDPSafePayloadSize st then
           match TruncatedResponse response with
           | None => ret None
           | Some response => on_ps (on_exchange (set_localTruncated true)) ;;; ret (Some response)
           end
         else ret (Some response)) ;;
      match truncated with
      | None => fail_with PluginsReturnCodeParseError
      | Some response =>
          write_client response ;;;
          on_estimator (if HasTCFlag response then blindAdjust
                        else fun e => adjust e (ResponseOverhead + len response))
      end
  | client_tcp =>
      match PrefixWithSize response with
      | Err _ => fail_with PluginsReturnCodeParseError
      | Ok framed => if clientPc then write_client framed else ret tt
      end
  | _ => ret tt
  end.

Definition updateMonitoringMetrics : Q unit :=
  fun w => (tt, match questionMsg (ps w) with
                | Some _ => with_pdata (updateMetrics proxy (ps w) (pdata w)) w
                | None => w
                end).

(** The choice of a server, once per query. *)
Definition select_server (w : World U X) : World U X :=
  match selected w with
  | Some _ => w
  | None =>
      let w := tick w in
      match getOne (readings proxy (ticks w)) (choices proxy (ticks w)) (servers w) with
      | Some (server, si) => with_selected (Some server) (with_servers si w)
      | None => w
      end
  end.

(** The function given to [ApplyQueryPlugins]. *)
Definition getServerInfo (w : World U X) : World U X * bool :=
  let w := select_server w in
  (w, match selected w with
      | Some server => (Proto server =? StampProtoTypeDoH) || (Proto server =? StampProtoTypeTLS)
      | None => false
      end).

Definition applyQueryPlugins (query : bytes) : Q (option plugin_error * bytes) :=
  fun w =>
    let '(err, w', ps', query) :=
      ApplyQueryPlugins (lift_globals (pluginsGlobals proxy)) (Some getServerInfo) query w (ps w) in
    ((err, query), with_ps ps' w').

(** The end of [processIncomingQuery]: the response is checked and sent. *)
Definition finish (response : bytes) (cp : client_proto) (clientPc : bool) : Q reply :=
  if (len response <? MinDNSPacketSize) || (len response >? MaxDNSPacketSize) then
    fail_with (if len response =? 0 then PluginsReturnCodeNotReady else PluginsReturnCodeParseError) ;;;
    ret (response, Some OtherError)
  else
    sendResponse response cp clientPc ;;;
    applyLoggingPlugins ;;;
    updateMonitoringMetrics ;;;
    ret (response, None).

(** A query that no plugin has answered. *)
Definition resolve (query : bytes) (serverProto : proto) (cp : client_proto) (clientPc : bool)
    : Q reply :=
  (fun w => (tt, select_server w)) ;;;
  server <-- (fun w => (selected w, w)) ;;
  match server with
  | None => finish [] cp clientPc
  | Some server =>
      on_ps (set_serverName (Name_ server)) ;;;
      (match s_Relay (endpoint server) with
       | Some relay => on_ps (set_relayName (r_Name relay))
       | None => ret tt
       end) ;;;
      '(response, err) <-- handleDNSExchange server query serverProto ;;
      match response, err with
      | Some response, None =>
          processed <-- processPlugins response ;;
          match processed with
          | None => ret ([], Some OtherError)
          | Some response => finish response cp clientPc
          end
      | _, _ => ret ([], err)
      end
  end.

(** The body of [processIncomingQuery] after the first check; the second
    component is [queryErr]. *)
Definition query_body (query : bytes) (serverProto : proto) (cp : client_proto) (clientPc onlyCached : bool)
    : Q reply :=
  '(err, query) <-- applyQueryPlugins query ;;
  match err with
  | Some _ =>
      on_ps (set_action PluginsActionDrop) ;;; fail_with PluginsReturnCodeDrop ;;; ret ([], None)
  | None =>
      if negb (validateQuery query) then ret ([], None)
      else
      st <-- get_ps ;;
      if bool_decide (action st = PluginsActionDrop)
      then fail_with PluginsReturnCodeDrop ;;; ret ([], None)
      else
      let '(synth, st') := match synthResponse st with
                           | Some synth => let '(data, st') := handleSynthesizedResponse st synth in
                                           (Some data, st')
                           | None => (None, st)
                           end in
      on_ps (fun _ => st') ;;;
      match synth with
      | Some None => ret ([], None)
      | _ =>
          let response := default [] (default None synth) in
          if onlyCached then
            if len response =? 0 then ret ([], None)
            else (fun w => (tt, with_selected None w)) ;;; finish response cp clientPc
          else if len response =? 0 then resolve query serverProto cp clientPc
          else finish response cp clientPc
      end
  end.

(** The deferred call: the outcome of an exchange is observed. *)
Definition observe (response : bytes) (queryErr : option exchange_error) : Q unit :=
  fun w =>
    match selected w with
    | Some _ =>
        if IsZero (exchangeStart (ps w)) then (tt, w)
        else (tt, with_servers (observeOutcome (readings proxy (ticks w)) (p_timeout (ttls proxy)) (ps w)
                                  response queryErr (servers w)) (tick w))
    | None => (tt, w)
    end.

(** [processIncomingQuery]: the response, and what happened. *)
Definition processIncomingQuery (cp : client_proto) (serverProto : proto) (query : bytes)
    (clientAddr : option bytes) (clientPc : bool) (start : Time) (onlyCached : bool) : Q bytes :=
  if negb (validateQuery query) then ret []
  else
    (fun w => (tt, with_selected None
                     (with_ps (NewPluginsState (ttls proxy) cp clientAddr serverProto start) w))) ;;;
    '(response, queryErr) <-- query_body query serverProto cp clientPc onlyCached ;;
    observe response queryErr ;;;
    ret response.

End query.
