(* ===== verification/QueryProps.v ===== *)
(** * Properties of the processing of queries

    What a client receives, and what a query can change, whatever the
    transports and the plugins do. *)

From S2P Require Import Prelude GoStrings GoFloat NetIP Common Crypto Dns DnsUtils Metrics Estimators.
From S2P Require Import ServerTypes Mds MdsProps Servers ServersProps Plugins PluginsProps Feedback Query.
From S2P Require Import CryptoProps DnsUtilsProps.

(** ** Framing *)

(** A computation keeps a part of the world. *)
Definition keeps {U X A T} (part : World U X -> T) (m : M U X A) : Prop :=
  forall w, part (m w).2 = part w.

Section keeps.
Context {U X T : Type} (part : World U X -> T).

Lemma keeps_ret {A} (a : A) : keeps part (ret a).
Proof. done. Qed.

Lemma keeps_bind {A B} (m : M U X A) (k : A -> M U X B) :
  keeps part m -> (forall a, keeps part (k a)) -> keeps part (bind m k).
Proof.
  intros Hm Hk w. unfold bind. specialize (Hm w). destruct (m w) as [a w1]. simpl in Hm.
  by rewrite (Hk a w1).
Qed.

Lemma keeps_on_ps f : (forall w, part (with_ps (f (ps w)) w) = part w) -> keeps part (on_ps f).
Proof. intros H w. apply H. Qed.
End keeps.

(** What holds of the result and the world after a computation. *)
Definition post {U X A} (m : M U X A) (w : World U X) (Q : A -> World U X -> Prop) : Prop :=
  Q (m w).1 (m w).2.

Lemma post_bind {U X A B} (m : M U X A) (k : A -> M U X B) w Q :
  post m w (fun a w' => post (k a) w' Q) -> post (bind m k) w Q.
Proof. unfold post, bind. by destruct (m w) as [a w']. Qed.

Lemma post_keeps {U X A T} (part : World U X -> T) (m : M U X A) w (Q : A -> World U X -> Prop) :
  keeps part m -> (forall a w', part w' = part w -> Q a w') -> post m w Q.
Proof. intros Hk H. apply H. apply Hk. Qed.

(** The parts of the world that are followed. *)
Definition question {U X} (w : World U X) : option Msg := questionMsg (ps w).

Create HintDb frame.
#[export] Hint Resolve keeps_ret keeps_bind : frame.

Section lift.
Context `{D : DnsLib} {U X : Type}.

Definition only_pdata (w w' : World U X) : Prop := exists x, w' = with_pdata x w.

Lemma only_pdata_refl w : only_pdata w w.
Proof. exists (pdata w). by destruct w. Qed.

Lemma only_pdata_trans w1 w2 w3 : only_pdata w1 w2 -> only_pdata w2 w3 -> only_pdata w1 w3.
Proof. intros [x ->] [y ->]. by exists y. Qed.

Lemma lift_plugin_pdata p w st msg :
  only_pdata w ((lift_plugin (U := U) p : Plugin (World U X)) w st msg).1.1.2.
Proof. unfold lift_plugin. destruct (p (pdata w) st msg) as [[[e x] st'] msg']. by exists x. Qed.

Lemma run_plugins_pdata sync cfg (plugins : list (Plugin X)) w st msg :
  only_pdata w (run_plugins sync cfg (lift_plugin (U := U) <$> plugins) w st msg).1.1.2.
Proof.
  revert w st msg. induction plugins as [|p plugins IH]; intros w st msg; csimpl; [apply only_pdata_refl|].
  pose proof (lift_plugin_pdata p w st msg) as Hp.
  destruct (lift_plugin p w st msg) as [[[e w1] st1] msg1]. simpl in Hp.
  destruct e; [done|]. destruct (negb _); [done|]. by eapply only_pdata_trans.
Qed.

Lemma run_logging_pdata (plugins : list (Plugin X)) w st msg :
  only_pdata w (run_logging (lift_plugin (U := U) <$> plugins) w st msg).1.1.2.
Proof.
  revert w st msg. induction plugins as [|p plugins IH]; intros w st msg; csimpl; [apply only_pdata_refl|].
  pose proof (lift_plugin_pdata p w st msg) as Hp.
  destruct (lift_plugin p w st msg) as [[[e w1] st1] msg1]. simpl in Hp.
  destruct e; [done|]. by eapply only_pdata_trans.
Qed.

(** A plugin that does not change the size of the packets the client accepts. *)
Definition keeps_limit (p : Plugin X) : Prop := forall x st msg,
  maxUnencryptedUDPSafePayloadSize (p x st msg).1.2 = maxUnencryptedUDPSafePayloadSize st.

Lemma run_logging_limit (plugins : list (Plugin X)) w st msg : Forall keeps_limit plugins ->
  maxUnencryptedUDPSafePayloadSize (run_logging (lift_plugin (U := U) <$> plugins) w st msg).1.2 =
  maxUnencryptedUDPSafePayloadSize st.
Proof.
  intros Hp. revert w st msg. induction Hp as [|p plugins Hp _ IH]; intros w st msg; csimpl; [done|].
  unfold lift_plugin at 1. specialize (Hp (pdata w) st msg).
  destruct (p (pdata w) st msg) as [[[e x] st1] msg1]. simpl in Hp. destruct e; [done|].
  by rewrite IH.
Qed.

(** ** Plugins that respect the question *)

Definition same_question (m m0 : Msg) : Prop :=
  ID (MH m) = ID (MH m0) /\ Questions m = Questions m0.

Lemma validate_same m m0 r : same_question m m0 ->
  validateResponseForQuery (Some m) r = validateResponseForQuery (Some m0) r.
Proof.
  intros [H1 H2]. unfold validateResponseForQuery, validateResponseQuestion. by rewrite H1, H2.
Qed.

(** A query plugin may edit the message, but not its identifier nor its
    question; a response plugin does not replace the question. *)
Definition respects_query (p : Plugin X) : Prop := forall x st msg err x' st' msg',
  p x st msg = (err, x', st', msg') -> same_question msg' msg.
Definition respects_question (p : Plugin X) : Prop := forall x st msg err x' st' msg',
  p x st msg = (err, x', st', msg') -> questionMsg st' = questionMsg st.

Lemma run_query_same sync cfg (plugins : list (Plugin X)) w st msg err w' st' msg' :
  Forall respects_query plugins ->
  run_plugins sync cfg (lift_plugin (U := U) <$> plugins) w st msg = (err, w', st', msg') ->
  same_question msg' msg.
Proof.
  intros Hall. revert w st msg. induction Hall as [|p plugins Hp Hall IH]; intros w st msg; csimpl.
  { by intros [= <- <- <- <-]. }
  unfold lift_plugin at 1. destruct (p (pdata w) st msg) as [[[e x] st1] msg1] eqn:E.
  pose proof (Hp _ _ _ _ _ _ _ E) as [H1 H2]. destruct e; [by intros [= <- <- <- <-]|].
  destruct (negb _); [by intros [= <- <- <- <-]|]. intros [H3 H4]%IH. split; congruence.
Qed.

Lemma run_response_question cfg (plugins : list (Plugin X)) w st msg err w' st' msg' :
  Forall respects_question plugins ->
  run_plugins (fun _ st => st) cfg (lift_plugin (U := U) <$> plugins) w st msg = (err, w', st', msg') ->
  questionMsg st' = questionMsg st.
Proof.
  intros Hall. revert w st msg. induction Hall as [|p plugins Hp Hall IH]; intros w st msg; csimpl.
  { by intros [= <- <- <- <-]. }
  unfold lift_plugin at 1. destruct (p (pdata w) st msg) as [[[e x] st1] msg1] eqn:E.
  pose proof (Hp _ _ _ _ _ _ _ E) as H1.
  assert (questionMsg (with_refusal cfg st1 msg1) = questionMsg st1) as H2
    by (unfold with_refusal; by case_bool_decide).
  destruct e; [by intros [= <- <- <- <-]|].
  destruct (negb _); [intros [= <- <- <- <-]; congruence|]. intros ->%IH. congruence.
Qed.
End lift.

(** ** The exchange *)

(** A computation that, when its result is a success, has kept the question. *)
Definition keeps_if {U X A} (ok : A -> bool) (m : M U X A) : Prop :=
  forall w, ok (m w).1 = true -> question (m w).2 = question w.

Section keeps_if.
Context {U X A : Type} (ok : A -> bool).

Lemma keeps_if_bind {B} (m : M U X B) (k : B -> M U X A) :
  keeps question m -> (forall b, keeps_if ok (k b)) -> keeps_if ok (bind m k).
Proof.
  intros Hm Hk w. unfold bind. specialize (Hm w). destruct (m w) as [b w1]. simpl in *.
  intros H. rewrite (Hk b w1 H). done.
Qed.

Lemma keeps_if_fail {B} (m : M U X B) (a : A) : ok a = false -> keeps_if ok (m ;;; ret a).
Proof.
  intros Ha w. unfold bind. destruct (m w) as [b w1]. simpl. congruence.
Qed.

Lemma keeps_if_if {B} (ok' : B -> bool) (m : M U X B) (k : B -> M U X A) :
  keeps_if ok' m -> (forall b, ok' b = true -> keeps_if ok (k b)) ->
  (forall b w, ok' b = false -> ok (k b w).1 = false) -> keeps_if ok (bind m k).
Proof.
  intros Hm H1 H2 w. unfold bind. specialize (Hm w). destruct (m w) as [b w1]. simpl in *.
  destruct (ok' b) eqn:E; [|rewrite (H2 b w1 E); done].
  intros H. rewrite (H1 b E w1 H). auto.
Qed.

Lemma keeps_if_keeps (m : M U X A) : keeps question m -> keeps_if ok m.
Proof. intros H w _. apply H. Qed.
End keeps_if.

Ltac frame_step :=
  lazymatch goal with
  | |- keeps _ (bind _ _) => apply keeps_bind; [|intros]
  | |- keeps _ (ret _) => apply keeps_ret
  | |- keeps _ (match ?x with _ => _ end) => destruct x
  | |- keeps _ (let '_ := ?x in _) => destruct x
  end.

Section exchange.
Context `{D : DnsLib} `{P : Primitives} {U : Type} `{UP : Upstream U} {X : Type}.
Context (proxy : Proxy X).

Lemma now_keeps {T} (part : World U X -> T) :
  (forall w, part (tick w) = part w) -> keeps part (now proxy).
Proof. intros H w. apply H. Qed.

Lemma on_up_keeps {A T} (part : World U X -> T) (f : U -> A * U) :
  (forall u w, part (with_up u w) = part w) -> keeps part (on_up f).
Proof. intros H w. unfold on_up. destruct (f (up w)). apply H. Qed.

Lemma on_servers_keeps {A T} (part : World U X -> T) (f : ServersInfo -> A * ServersInfo) :
  (forall si w, part (with_servers si w) = part w) -> keeps part (on_servers f).
Proof. intros H w. unfold on_servers. destruct (f (servers w)). apply H. Qed.

Lemma get_ps_keeps {T} (part : World U X -> T) : keeps part get_ps.
Proof. by intros w. Qed.

(** Logging changes the plugins' data, the state of the query and the clock. *)
Lemma logging_keeps {T} (part : World U X -> T) :
  (forall w, part (tick w) = part w) -> (forall x w, part (with_pdata x w) = part w) ->
  (forall s w, part (with_ps s w) = part w) -> keeps part (applyLoggingPlugins proxy).
Proof.
  intros H1 H2 H3 w. unfold applyLoggingPlugins, bind, now. cbn beta iota zeta.
  set (t := readings proxy (ticks w)). unfold ApplyLoggingPlugins.
  cbn [lift_globals loggingPlugins]. rewrite <-(H1 w).
  destruct (loggingPlugins (pluginsGlobals proxy)) as [|p l] eqn:El.
  { simpl. apply H3. }
  rewrite <-El in *. clear El. destruct (lift_plugin <$> loggingPlugins _) eqn:E; [simpl; apply H3|].
  rewrite <-E. clear E.
  destruct (questionMsg _) as [q|]; [|simpl; apply H3].
  pose proof (run_logging_pdata (loggingPlugins (pluginsGlobals proxy)) (tick w)
    (set_requestEnd t (ps (tick w))) q) as [x Hx].
  destruct (run_logging _ _ _ _) as [[[e w'] st'] q']. simpl in *. subst w'. by rewrite H3, H2.
Qed.

Lemma fail_with_keeps {T} (part : World U X -> T) code :
  (forall w, part (tick w) = part w) -> (forall x w, part (with_pdata x w) = part w) ->
  (forall s w, part (with_ps s w) = part w) -> keeps part (fail_with proxy code).
Proof.
  intros H1 H2 H3. apply keeps_bind; [by apply keeps_on_ps|]. intros _. by apply logging_keeps.
Qed.

Ltac frame :=
  repeat first
    [ frame_step
    | apply keeps_on_ps; done
    | apply on_up_keeps; done
    | apply on_servers_keeps; done
    | apply now_keeps; done
    | apply get_ps_keeps
    | apply fail_with_keeps; done
    | apply logging_keeps; done ].

Lemma notice_begin_keeps {T} (part : World U X -> T) server :
  (forall w, part (tick w) = part w) -> (forall si w, part (with_servers si w) = part w) ->
  keeps part (notice_begin proxy server).
Proof. intros H1 H2. unfold notice_begin. frame; by first [apply now_keeps|apply on_servers_keeps]. Qed.

Lemma dnscrypt_exchange_outbox server query p q :
  keeps outbox (dnscrypt_exchange (X := X) server query p q).
Proof. unfold dnscrypt_exchange, exchange_tcp. destruct p; frame. Qed.

Lemma dnscrypt_exchange_question server query p q :
  keeps question (dnscrypt_exchange (X := X) server query p q).
Proof. unfold dnscrypt_exchange, exchange_tcp. destruct p; frame. Qed.

Lemma refreshODoHKey_keeps {T} (part : World U X -> T) server stamp :
  (forall w, part (tick w) = part w) -> (forall si w, part (with_servers si w) = part w) ->
  (forall u w, part (with_up u w) = part w) -> keeps part (refreshODoHKey proxy server stamp).
Proof.
  intros H1 H2 H3. unfold refreshODoHKey.
  repeat first [frame_step|by apply now_keeps|by apply on_servers_keeps|by apply on_up_keeps].
  intros w. rewrite <-(H1 w). by apply on_servers_keeps.
Qed.

(** The computations of the transports, for the packets written to the client
    and for the question. *)
Ltac exchange_frame :=
  repeat first
    [ frame_step
    | apply keeps_on_ps; intros; by repeat case_match
    | apply on_up_keeps; done
    | apply on_servers_keeps; done
    | apply now_keeps; done
    | apply get_ps_keeps
    | apply notice_begin_keeps; done
    | apply refreshODoHKey_keeps; done
    | apply dnscrypt_exchange_outbox
    | apply dnscrypt_exchange_question
    | apply fail_with_keeps; done
    | apply logging_keeps; done
    | by intros w ].

Lemma trace_outbox ft odoh : keeps outbox (on_ps (U := U) (X := X) (applyHTTPFetchTrace ft odoh)).
Proof. by apply keeps_on_ps. Qed.

Lemma trace_question ft odoh : keeps question (on_ps (U := U) (X := X) (applyHTTPFetchTrace ft odoh)).
Proof.
  apply keeps_on_ps. intros w. unfold question, applyHTTPFetchTrace.
  destruct ft as [ft|]; [|done]. destruct odoh; [done|]. by destruct (_ || _).
Qed.

Lemma processDNSCryptQuery_outbox server query p : keeps outbox (processDNSCryptQuery proxy server query p).
Proof. unfold processDNSCryptQuery, stale_response. exchange_frame. Qed.

Lemma processDoHQuery_outbox server query : keeps outbox (processDoHQuery proxy server query).
Proof. unfold processDoHQuery, stale_response. exchange_frame. Qed.

Lemma refresh_registered_keeps {T} (part : World U X -> T) server (err : option exchange_error) :
  (forall w, part (tick w) = part w) -> (forall si w, part (with_servers si w) = part w) ->
  (forall u w, part (with_up u w) = part w) ->
  keeps part (fun w =>
    match List.find (fun rs => bool_decide (rs_name rs = Name_ server)) (registeredServers (servers w)) with
    | Some rs => (refreshErr <-- refreshODoHKey proxy server (rs_stamp rs) ;;
                  ret (match refreshErr with Some _ => refreshErr | None => err end)) w
    | None => (err, w)
    end).
Proof.
  intros H1 H2 H3 w. destruct (List.find _ _) as [rs|]; [|done].
  apply (keeps_bind part); [by apply refreshODoHKey_keeps|]. intros. apply keeps_ret.
Qed.

Lemma processODoHQuery_outbox server query : keeps outbox (processODoHQuery proxy server query).
Proof.
  unfold processODoHQuery. destruct (odohTargetConfigs _); [done|].
  exchange_frame; by apply refresh_registered_keeps.
Qed.

Lemma handleDNSExchange_outbox server query p : keeps outbox (handleDNSExchange proxy server query p).
Proof.
  unfold handleDNSExchange.
  repeat first [ apply processDNSCryptQuery_outbox | apply processDoHQuery_outbox
               | apply processODoHQuery_outbox | exchange_frame ].
Qed.

(** A reply that is used: no error, and long enough. *)
Definition usable (r : bytes * option exchange_error) : bool :=
  bool_decide (r.2 = None) && (len r.1 >=? MinDNSPacketSize).

Ltac usable_frame :=
  repeat match goal with
  | |- keeps_if _ (?m ;;; ret ?a) => apply keeps_if_fail; done
  | |- keeps_if _ (bind _ _) => apply keeps_if_bind; [by exchange_frame|intros]
  | |- keeps_if _ (match ?x with _ => _ end) => destruct x
  | |- keeps_if _ (ret _) => by apply keeps_if_keeps
  end.

Lemma processDNSCryptQuery_usable server query p :
  keeps_if usable (processDNSCryptQuery proxy server query p).
Proof. unfold processDNSCryptQuery, stale_response. usable_frame. Qed.

Lemma trace_if {A} (ok : A -> bool) ft odoh (k : M U X A) :
  keeps_if ok k -> keeps_if ok (on_ps (applyHTTPFetchTrace ft odoh) ;;; k).
Proof. intros H. apply keeps_if_bind; [apply trace_question|done]. Qed.

Lemma unusable_nil e : usable ([], e) = false.
Proof. unfold usable. simpl. by rewrite andb_false_r. Qed.

Lemma processDoHQuery_usable server query : keeps_if usable (processDoHQuery proxy server query).
Proof.
  unfold processDoHQuery, stale_response.
  apply keeps_if_bind; [by exchange_frame|intros]. apply keeps_if_bind; [by exchange_frame|intros].
  apply trace_if. destruct (_ && _); [by apply keeps_if_keeps|].
  apply keeps_if_bind; [by exchange_frame|intros old]. destruct old; [by apply keeps_if_keeps|].
  apply keeps_if_fail, unusable_nil.
Qed.

Lemma processODoHQuery_usable server query : keeps_if usable (processODoHQuery proxy server query).
Proof.
  unfold processODoHQuery. destruct (odohTargetConfigs _); [by apply keeps_if_keeps|].
  apply keeps_if_bind; [by exchange_frame|intros]. apply keeps_if_bind; [by exchange_frame|intros].
  apply keeps_if_bind; [by exchange_frame|intros q]. destruct q as [q|]; [|by apply keeps_if_keeps].
  apply keeps_if_bind; [by exchange_frame|intros]. apply trace_if. cbv zeta.
  destruct (_ && _); [destruct (decryptResponse _ _); by apply keeps_if_keeps|].
  apply keeps_if_bind; [|intros err].
  - destruct (_ || _); [by apply refresh_registered_keeps|done].
  - apply keeps_if_fail, unusable_nil.
Qed.

(** A response that [handleDNSExchange] returns has kept the question. *)
Lemma handleDNSExchange_question server query p :
  keeps_if (fun r => bool_decide (is_Some r.1)) (handleDNSExchange proxy server query p).
Proof.
  unfold handleDNSExchange.
  apply keeps_if_bind; [by exchange_frame|intros t]. apply keeps_if_bind; [by exchange_frame|intros _].
  apply (keeps_if_if _ usable).
  - destruct (_ =? _); [apply processDNSCryptQuery_usable|].
    destruct (_ =? _); [apply processDoHQuery_usable|].
    destruct (_ =? _); [apply processODoHQuery_usable|by apply keeps_if_keeps].
  - intros [response [e|]] _; [by apply keeps_if_keeps|].
    destruct (_ || _); [by apply keeps_if_fail|by apply keeps_if_keeps].
  - intros [response err] w. unfold usable. cbn [fst snd]. destruct err as [e|]; [done|].
    rewrite bool_decide_true, andb_true_l, Z.geb_leb, Z.leb_antisym by done.
    intros ->%negb_false_iff. simpl. unfold bind. by destruct (fail_with _ _ _).
Qed.

(** ** Responses *)

(** [data] is a response to [q0]. *)
Definition answers (q0 : Msg) (data : bytes) : Prop := exists m, Pack m = Some data /\ replies_to q0 m.

Lemma valid_answers q0 m data : Pack m = Some data ->
  validateResponseForQuery (Some q0) (Some m) = None -> answers q0 data.
Proof. intros Hp Hv. exists m. split; [done|]. by apply validate_replies. Qed.

(** The query being processed asks what [q0] asks. *)
Definition asks (q0 : Msg) (w : World U X) : Prop :=
  exists m, question w = Some m /\ same_question m q0.

(** [packet] is the truncation of a response: the truncation bit, the identifier and
    the question of the response, and no record. *)
Definition truncation (response packet : bytes) : Prop :=
  exists m t, Unpack response = Some m /\ Pack t = Some packet /\
    Truncated (MH t) = true /\ Response (MH t) = true /\ ID (MH t) = ID (MH m) /\
    Questions t = Questions m /\ Answer t = [] /\ Ns t = [] /\ Extra t = [] /\ Pseudo t = [].

Lemma TruncatedResponse_truncation response packet :
  TruncatedResponse response = Some packet -> truncation response packet.
Proof.
  unfold TruncatedResponse. destruct (Unpack response) as [m|] eqn:Eu; [|done]. simpl. intros Hp.
  by exists m, (set_header (set_Truncated true) (EmptyResponseFromMessage m)).
Qed.

(** The size up to which a response goes to a client over UDP: 512 bytes, or what a
    plugin has set. *)
Definition limit {U X} (w : World U X) : Z := maxUnencryptedUDPSafePayloadSize (ps w).

(** How a response is written to a client: over UDP, unchanged if its size is within the
    limit and truncated otherwise; over TCP, after its length. *)
Definition delivered (cp : client_proto) (limit : Z) (response packet : bytes) : Prop :=
  match cp with
  | client_udp => if len response <=? limit then packet = response else truncation response packet
  | client_tcp => PrefixWithSize response = Ok packet
  | _ => False
  end.

Lemma synthesized_answers q0 w synth data st :
  asks q0 w -> handleSynthesizedResponse (ps w) synth = (Some data, st) -> answers q0 data.
Proof.
  intros (m & Hm & Hs) H. unfold handleSynthesizedResponse in H. unfold question in Hm. rewrite Hm in H.
  destruct (validateResponseForQuery _ _) eqn:Ev; [done|]. destruct (Pack synth) as [d|] eqn:Ep; [|done].
  injection H as <- <-. apply (valid_answers q0 synth); [done|]. by rewrite <-(validate_same m).
Qed.

Lemma response_plugins_answer q0 w response err w' st' data :
  Forall respects_question (responsePlugins (pluginsGlobals proxy)) -> asks q0 w ->
  ApplyResponsePlugins (lift_globals (pluginsGlobals proxy)) response w (ps w) = (err, w', st', data) ->
  only_pdata w w' /\
  (err = None -> questionMsg st' = question w /\ answers q0 data).
Proof.
  intros Hr (m & Hm & Hs). unfold ApplyResponsePlugins.
  destruct (Unpack response) as [r|];
    [|intros [= <- <- <- <-]; split; [apply only_pdata_refl|done]].
  destruct (validateResponseForQuery _ _) eqn:Ev;
    [intros [= <- <- <- <-]; split; [apply only_pdata_refl|done]|].
  destruct (removeEDNS0Options r) as [r' b].
  set (st := set_returnCode _ _). cbn [lift_globals responsePlugins config].
  pose proof (run_plugins_pdata (U := U) (fun _ st => st) (config (pluginsGlobals proxy))
    (responsePlugins (pluginsGlobals proxy)) w st r') as Hp.
  pose proof (fun e w1 s1 m1 => run_response_question (U := U) (config (pluginsGlobals proxy))
    (responsePlugins (pluginsGlobals proxy)) w st r' e w1 s1 m1 Hr) as Hq.
  destruct (run_plugins _ _ _ _ _ _) as [[[e w1] st1] m1]. simpl in Hp.
  specialize (Hq _ _ _ _ eq_refl). destruct e; [intros [= <- <- <- <-]; by split|].
  destruct (validateResponseForQuery (questionMsg st1) _) eqn:Ev1; [intros [= <- <- <- <-]; by split|].
  destruct (Pack m1) as [d|] eqn:Ep; [|intros [= <- <- <- <-]; by split].
  intros [= <- <- <- <-]. split; [done|]. intros _. split; [done|].
  apply (valid_answers q0 m1); [done|]. unfold question in Hm. rewrite Hq in Ev1. simpl in Ev1. rewrite Hm in Ev1.
  by rewrite <-(validate_same m).
Qed.

Lemma fail_with_outbox code : keeps outbox (fail_with (U := U) proxy code).
Proof. by apply fail_with_keeps. Qed.

Lemma processPlugins_spec q0 response w :
  Forall respects_question (responsePlugins (pluginsGlobals proxy)) -> asks q0 w ->
  post (processPlugins proxy response) w (fun r w' =>
    outbox w' = outbox w /\ forall data, r = Some data -> answers q0 data).
Proof.
  intros Hr Ha. unfold processPlugins. apply post_bind. unfold post at 1.
  destruct (ApplyResponsePlugins _ _ _ _) as [[[err w1] st1] data] eqn:E.
  destruct (response_plugins_answer q0 w response err w1 st1 data Hr Ha E) as [[x ->] Hok].
  cbn [fst snd]. destruct err as [e|].
  { apply post_bind. eapply post_keeps; [apply fail_with_outbox|]. by intros _ w2 Hw2. }
  destruct (Hok eq_refl) as [Hq Hdata]. apply post_bind. unfold post at 1, get_ps. cbn [fst snd ps with_ps].
  destruct (bool_decide (action st1 = PluginsActionDrop)).
  { apply post_bind. eapply post_keeps; [apply fail_with_outbox|]. intros _ w2 Hw2.
    split; [done|]. by intros d [= <-]. }
  destruct (synthResponse st1) as [synth|]; [|split; [done|by intros d [= <-]]].
  destruct (handleSynthesizedResponse st1 synth) as [r st2] eqn:Eh.
  apply post_bind. unfold post at 1. destruct r as [d|].
  - split; [done|]. intros d' [= <-].
    apply (synthesized_answers q0 (with_ps st1 w) synth d st2); [|done].
    destruct Ha as (m & Hm & Hs). exists m. unfold question in *. simpl. rewrite Hq. by split.
  - apply post_bind. eapply (post_keeps outbox); [by apply logging_keeps|]. by intros _ w2 Hw2.
Qed.

(** ** The packet for the client *)

Context (Hlog : Forall keeps_limit (loggingPlugins (pluginsGlobals proxy))).

Lemma logging_limit : keeps (fun w => (outbox w, limit w)) (applyLoggingPlugins (U := U) proxy).
Proof.
  intros w. f_equal; [by apply (logging_keeps outbox)|].
  unfold applyLoggingPlugins, bind, now. cbn beta iota zeta.
  set (t := readings proxy (ticks w)). unfold ApplyLoggingPlugins. cbn [lift_globals loggingPlugins].
  destruct (lift_plugin <$> loggingPlugins _) eqn:E; [done|]. rewrite <-E. clear E.
  destruct (questionMsg _) as [q|]; [|done].
  pose proof (run_logging_limit (loggingPlugins (pluginsGlobals proxy)) (tick w)
    (set_requestEnd t (ps (tick w))) q Hlog) as Hl.
  by destruct (run_logging _ _ _ _) as [[[e w'] st'] q'].
Qed.

(** At most one packet is written, and it carries the response. *)
Definition sends (cp : client_proto) (response : bytes) (w w' : World U X) : Prop :=
  outbox w' = outbox w \/
  exists packet, outbox w' = outbox w ++ [packet] /\ delivered cp (limit w') response packet /\
    validateQuery response = true.

Lemma sendResponse_sends response cp clientPc w :
  post (sendResponse proxy response cp clientPc) w (fun _ w' => sends cp response w w').
Proof.
  unfold sendResponse.
  destruct ((len response <? MinDNSPacketSize) || (len response >? MaxDNSPacketSize)) eqn:El.
  { eapply post_keeps; [apply fail_with_outbox|]. intros _ w' H. by left. }
  assert (validateQuery response = true) as Hv.
  { unfold validateQuery. apply orb_false_iff in El as [-> ->]. done. }
  destruct cp; [| |by left|by left].
  - apply post_bind. unfold post at 1, get_ps. cbn [fst snd]. apply post_bind.
    destruct (len response >? maxUnencryptedUDPSafePayloadSize (ps w)) eqn:Es.
    + destruct (TruncatedResponse response) as [t|] eqn:Et.
      * unfold post. cbn. right. exists t. split_and!; [done| |done]. unfold limit. cbn.
        destruct (_ <=? _) eqn:El'; [lia|]. by apply TruncatedResponse_truncation.
      * unfold post at 1. cbn [fst snd ret]. eapply post_keeps; [apply fail_with_outbox|].
        intros _ w' H. by left.
    + unfold post. cbn. right. exists response. split_and!; [done| |done]. unfold limit. cbn.
      destruct (_ <=? _) eqn:El'; [done|lia].
  - destruct (PrefixWithSize response) as [framed|] eqn:Ef.
    + destruct clientPc; [|by left]. right. exists framed. split_and!; [done|done|done].
    + eapply post_keeps; [apply fail_with_outbox|]. intros _ w' H. by left.
Qed.

Lemma finish_sends response cp clientPc w :
  post (finish proxy response cp clientPc) w (fun r w' =>
    r.1 = response /\ sends cp response w w').
Proof.
  unfold finish.
  destruct ((len response <? MinDNSPacketSize) || (len response >? MaxDNSPacketSize)) eqn:El.
  { apply post_bind. eapply post_keeps; [apply fail_with_outbox|]. intros _ w' H.
    split; [done|]. by left. }
  apply post_bind. pose proof (sendResponse_sends response cp clientPc w) as Hs. unfold post at 1 in Hs.
  unfold post at 1. destruct (sendResponse _ _ _ _ _) as [[] w1]. cbn [fst snd] in *.
  apply post_bind. eapply (post_keeps (fun w => (outbox w, limit w))); [by apply logging_limit|]. intros _ w2 [= H2 Hl].
  apply post_bind. unfold post at 1, updateMonitoringMetrics. cbn [fst snd].
  split; [done|]. cbn [fst snd ret]. unfold sends in *.
  set (w3 := match questionMsg (ps w2) with Some _ => _ | None => w2 end).
  replace (outbox w3) with (outbox w1) by (subst w3; by destruct (questionMsg (ps w2))).
  by replace (limit w3) with (limit w1) by (subst w3; by destruct (questionMsg (ps w2))).
Qed.

(** ** From the packet of the client to the response *)

Lemma select_server_keeps (w : World U X) :
  outbox (select_server proxy w) = outbox w /\ up (select_server proxy w) = up w /\
  ps (select_server proxy w) = ps w.
Proof.
  unfold select_server. destruct (selected w); [done|].
  by destruct (getOne _ _ _) as [[server si]|].
Qed.

Lemma padding_same msg packet n : same_question (addEDNS0PaddingIfNoneFound msg packet n).1 msg.
Proof.
  unfold addEDNS0PaddingIfNoneFound. destruct (UDPSize (MH msg) =? 0); destruct (existsb _ _); by split.
Qed.

Lemma applyQueryPlugins_spec query w :
  Forall respects_query (queryPlugins (pluginsGlobals proxy)) ->
  post (applyQueryPlugins proxy query) w (fun r w' =>
    outbox w' = outbox w /\ up w' = up w /\
    (r.1 = None -> exists q0, Unpack query = Some q0 /\ asks q0 w') /\
    (r.1 <> None \/ action (ps w') <> PluginsActionContinue ->
       servers w' = servers w /\ selected w' = selected w)).
Proof.
  intros Hr. unfold post, applyQueryPlugins, ApplyQueryPlugins.
  destruct (Unpack query) as [q0|]; [|by split_and!].
  destruct (Questions q0) as [|q1 [|]]; [by split_and!| |by split_and!].
  destruct (NormalizeQName _) as [name|]; [|by split_and!].
  cbn [lift_globals config queryPlugins].
  set (st := set_questionMsg (Some q0) _).
  pose proof (run_plugins_pdata (U := U) (fun m => set_questionMsg (Some m)) (config (pluginsGlobals proxy))
    (queryPlugins (pluginsGlobals proxy)) w st q0) as Hp.
  pose proof (fun e w1 s1 m1 => run_query_same (U := U) (fun m => set_questionMsg (Some m))
    (config (pluginsGlobals proxy)) _ w st q0 e w1 s1 m1 Hr) as Hs.
  pose proof (fun e w1 s1 m1 => run_plugins_question (config (pluginsGlobals proxy))
    (lift_plugin (U := U) <$> queryPlugins (pluginsGlobals proxy)) w st q0 w1 s1 m1 e eq_refl) as Hq.
  destruct (run_plugins _ _ _ _ _ _) as [[[err w1] st1] m1]. destruct Hp as [x Hx]. simpl in Hx. subst w1.
  specialize (Hs _ _ _ _ eq_refl). specialize (Hq _ _ _ _ eq_refl).
  destruct err as [e|]; [by split_and!|]. destruct (Pack m1) as [p2|]; [|by split_and!].
  case_bool_decide as Ha.
  2: { split_and!; try done. intros _. exists q0. split; [done|]. by exists m1. }
  pose proof (select_server_keeps (with_pdata x w)) as (H1 & H2 & H3).
  unfold getServerInfo. set (w2 := select_server proxy (with_pdata x w)) in *.
  destruct (match selected w2 with Some _ => _ | None => _ end).
  - pose proof (padding_same m1 p2 (63 - Z.land (len p2 + 63) 63)) as Hpad.
    destruct (addEDNS0PaddingIfNoneFound _ _ _) as [m2 [p3|]]; simpl in Hpad;
      (split_and!; [done|done| |simpl; intros [?|?]; done]);
      intros _; exists q0; (split; [done|]); exists m2; (split; [done|]);
      destruct Hpad, Hs; split; congruence.
  - split_and!; [done|done| |simpl; intros [?|?]; done].
    intros _. exists q0. split; [done|]. by exists m1.
Qed.

Lemma resolve_answers q0 query p cp clientPc w :
  Forall respects_question (responsePlugins (pluginsGlobals proxy)) -> asks q0 w ->
  post (resolve proxy query p cp clientPc) w (fun r w' =>
    (r.1 = [] \/ answers q0 r.1) /\ sends cp r.1 w w').
Proof.
  intros Hr Ha. unfold resolve. apply post_bind. unfold post at 1. cbn [fst snd].
  pose proof (select_server_keeps w) as (Ho & _ & Hps). set (w1 := select_server proxy w) in *.
  apply post_bind. unfold post at 1. cbn [fst snd]. destruct (selected w1) as [server|].
  2: { pose proof (finish_sends [] cp clientPc w1) as Hf. unfold post in *.
       destruct (finish _ _ _ _ _) as [r w2]. destruct Hf as [-> Hs]. split; [by left|].
       unfold sends in *. by rewrite <-Ho. }
  apply post_bind. unfold post at 1. cbn [fst snd on_ps]. apply post_bind.
  eapply (post_keeps (fun w => (outbox w, question w))).
  { destruct (s_Relay _); [by apply keeps_on_ps|done]. }
  intros _ w2 [= Ho2 Hq2]. change (question (with_ps _ w1)) with (question w1) in Hq2.
  change (outbox (with_ps _ w1)) with (outbox w1) in Ho2.
  assert (asks q0 w2) as Ha2.
  { destruct Ha as (m & Hm & Hs). exists m. split; [|done]. rewrite Hq2. unfold question in *. by rewrite Hps. }
  apply post_bind.
  pose proof (handleDNSExchange_outbox server query p w2) as Ho3.
  pose proof (handleDNSExchange_question server query p w2) as Hq3.
  unfold post at 1. destruct (handleDNSExchange _ _ _ _ _) as [[response err] w3]. cbn [fst snd] in *.
  assert (outbox w3 = outbox w) as Ho4 by congruence.
  destruct response as [response|]; [|split; [by left|by left]].
  destruct err as [e|]; [split; [by left|by left]|].
  assert (asks q0 w3) as Ha3.
  { destruct Ha2 as (m & Hm & Hs). exists m. split; [|done]. rewrite Hq3; [done|]. by apply bool_decide_true. }
  apply post_bind. pose proof (processPlugins_spec q0 response w3 Hr Ha3) as Hpp. unfold post in Hpp.
  unfold post at 1. destruct (processPlugins _ _ _) as [processed w4]. cbn [fst snd] in *.
  destruct Hpp as [Ho5 Hans]. destruct processed as [data|]; [|split; [by left|left; simpl; congruence]].
  pose proof (finish_sends data cp clientPc w4) as Hf. unfold post in *.
  destruct (finish _ _ _ _ _) as [r w5]. destruct Hf as [-> Hs]. split; [right; by apply Hans|].
  unfold sends in *. by rewrite <-Ho4, <-Ho5.
Qed.

(** The world in which the body of [processIncomingQuery] runs. *)
Definition start_world (cp : client_proto) (p : proto) (addr : option bytes) (start : Time)
    (w : World U X) : World U X :=
  with_selected None (with_ps (NewPluginsState (ttls proxy) cp addr p start) w).

Lemma sends_outbox cp response w1 w2 w' : outbox w1 = outbox w2 -> sends cp response w1 w' ->
  sends cp response w2 w'.
Proof. unfold sends. by intros ->. Qed.

Lemma query_body_answers query p cp clientPc onlyCached w :
  Forall respects_query (queryPlugins (pluginsGlobals proxy)) ->
  Forall respects_question (responsePlugins (pluginsGlobals proxy)) ->
  post (query_body proxy query p cp clientPc onlyCached) w (fun r w' =>
    (r.1 = [] \/ exists q0, Unpack query = Some q0 /\ answers q0 r.1) /\ sends cp r.1 w w').
Proof.
  intros Hrq Hrr. unfold query_body. apply post_bind.
  pose proof (applyQueryPlugins_spec query w Hrq) as Hq. unfold post in Hq.
  unfold post at 1. destruct (applyQueryPlugins _ _ _) as [[err query'] w1]. cbn [fst snd] in *.
  destruct Hq as (Ho & _ & Hq & _). destruct err as [e|].
  { apply post_bind. unfold post at 1. cbn [fst snd on_ps]. apply post_bind.
    eapply post_keeps; [apply fail_with_outbox|]. intros _ w2 H2. split; [by left|]. left. simpl in *. congruence. }
  destruct (Hq eq_refl) as (q0 & Hq0 & Ha). destruct (negb _); [split; [by left|by left]|].
  apply post_bind. unfold post at 1, get_ps. cbn [fst snd].
  destruct (bool_decide (action (ps w1) = PluginsActionDrop)).
  { apply post_bind. eapply post_keeps; [apply fail_with_outbox|]. intros _ w2 H2.
    split; [by left|]. left. simpl in *. congruence. }
  assert (forall data w2, outbox w2 = outbox w1 -> data = [] \/ answers q0 data ->
    post (finish proxy data cp clientPc) w2 (fun r w' =>
      (r.1 = [] \/ exists q0, Unpack query = Some q0 /\ answers q0 r.1) /\ sends cp r.1 w w')) as Hfin.
  { intros data w2 Ho2 Hd. pose proof (finish_sends data cp clientPc w2) as Hf. unfold post in *.
    destruct (finish _ _ _ _ _) as [r w3]. destruct Hf as [-> Hs]. split; [destruct Hd; eauto|].
    by apply (sends_outbox cp data w2); [congruence|]. }
  destruct (synthResponse (ps w1)) as [synth|] eqn:Es.
  - destruct (handleSynthesizedResponse (ps w1) synth) as [data st'] eqn:Eh.
    apply post_bind. unfold post at 1. cbn [fst snd on_ps]. destruct data as [data|]; [|split; by left].
    pose proof (synthesized_answers q0 w1 synth data st' Ha Eh) as Hans. cbn [default id].
    destruct onlyCached; [destruct (len data =? 0); [split; by left|]|destruct (len data =? 0) eqn:El].
    + apply post_bind. unfold post at 1. cbn [fst snd]. apply Hfin; auto.
    + assert (asks q0 (with_ps st' w1)) as Ha'.
      { destruct Ha as (m & Hm & Hs). exists m. split; [|done]. unfold question in *. simpl.
        unfold handleSynthesizedResponse in Eh. repeat case_match; by simplify_eq/=. }
      pose proof (resolve_answers q0 query' p cp clientPc (with_ps st' w1) Hrr Ha') as Hres.
      unfold post in *. destruct (resolve _ _ _ _ _ _) as [r w3]. destruct Hres as [H1 H2].
      split; [destruct H1; eauto|]. by apply (sends_outbox cp r.1 (with_ps st' w1)).
    + apply Hfin; auto.
  - apply post_bind. unfold post at 1. cbn [fst snd on_ps]. cbn [default id len length Z.of_nat Z.eqb].
    change (len [] =? 0) with true. cbn iota. destruct onlyCached; [split; by left|].
    assert (asks q0 (with_ps (ps w1) w1)) as Ha' by (by destruct w1).
    pose proof (resolve_answers q0 query' p cp clientPc (with_ps (ps w1) w1) Hrr Ha') as Hres.
    unfold post in *. destruct (resolve _ _ _ _ _ _) as [r w3]. destruct Hres as [H1 H2].
    split; [destruct H1; eauto|]. by apply (sends_outbox cp r.1 (with_ps (ps w1) w1)).
Qed.

Lemma processIncomingQuery_answers cp p query addr clientPc start onlyCached w response w' :
  Forall respects_query (queryPlugins (pluginsGlobals proxy)) ->
  Forall respects_question (responsePlugins (pluginsGlobals proxy)) ->
  processIncomingQuery proxy cp p query addr clientPc start onlyCached w = (response, w') ->
  (response = [] \/ exists q0, Unpack query = Some q0 /\ answers q0 response) /\
  (outbox w' = outbox w \/
   exists packet, outbox w' = outbox w ++ [packet] /\ delivered cp (limit w') response packet /\
     validateQuery response = true).
Proof.
  intros Hrq Hrr. unfold processIncomingQuery. destruct (negb (validateQuery query)).
  { intros [= <- <-]. split; by left. }
  unfold bind at 1. cbn [fst snd]. fold (start_world cp p addr start w).
  pose proof (query_body_answers query p cp clientPc onlyCached (start_world cp p addr start w) Hrq Hrr) as Hb.
  unfold post in Hb. unfold bind. destruct (query_body _ _ _ _ _ _ _) as [[r e] w1]. cbn [fst snd] in Hb.
  assert (outbox (observe proxy r e w1).2 = outbox w1 /\ limit (observe proxy r e w1).2 = limit w1) as [Ho Hl].
  { unfold observe. destruct (selected w1); [|done]. by destruct (IsZero _). }
  destruct (observe proxy r e w1) as [[] w2]. simpl in Ho, Hl. intros [= <- <-].
  destruct Hb as [H1 H2]. split; [done|]. unfold sends in H2. by rewrite Ho, Hl.
Qed.


(** ** Queries that stay local *)

(** The part of the world that only an exchange changes. *)
Definition remote (w : World U X) : U * ServersInfo * option ServerInfo :=
  (up w, servers w, selected w).

Lemma finish_remote response cp clientPc : keeps remote (finish proxy response cp clientPc).
Proof.
  unfold finish, sendResponse.
  repeat first
    [ frame_step
    | apply keeps_on_ps; done
    | apply get_ps_keeps
    | apply fail_with_keeps; done
    | apply logging_keeps; done
    | intros w; unfold updateMonitoringMetrics; simpl; by destruct (questionMsg (ps w))
    | by intros w ].
Qed.

(** The decision of the query plugins, on their state [st] when they end with
    the error [err]. *)
Definition decided (err : option plugin_error) (st : PluginsState) : Prop :=
  err <> None \/ action st = PluginsActionDrop \/ action st = PluginsActionReject \/
  (action st = PluginsActionSynth /\ synthResponse st <> None).

Lemma applyQueryPlugins_reject query (w : World U X) :
  action (ps w) = PluginsActionContinue ->
  post (applyQueryPlugins proxy query) w (fun r w' =>
    r.1 = None -> action (ps w') = PluginsActionReject -> synthResponse (ps w') <> None).
Proof.
  intros Hc. unfold post, applyQueryPlugins, ApplyQueryPlugins.
  destruct (Unpack query) as [q0|]; [|done]. destruct (Questions q0) as [|q1 [|]]; [done| |done].
  destruct (NormalizeQName _) as [name|]; [|done].
  set (st := set_questionMsg (Some q0) _).
  pose proof (fun w1 s1 m1 => run_plugins_reject (fun m => set_questionMsg (Some m))
    (config (pluginsGlobals proxy)) (queryPlugins (lift_globals (U := U) (pluginsGlobals proxy)))
    w st q0 w1 s1 m1 (fun _ _ => eq_refl) Hc) as Hr.
  destruct (run_plugins _ _ _ _ _ _) as [[[err w1] st1] m1]. destruct err as [e|]; [done|].
  specialize (Hr _ _ _ eq_refl). destruct (Pack m1) as [p2|]; [|done]. case_bool_decide as Ha.
  - destruct (getServerInfo proxy w1) as [w2 []]; [|simpl; congruence].
    destruct (addEDNS0PaddingIfNoneFound _ _ _) as [m2 [p3|]]; simpl; congruence.
  - simpl. intros _ Ha'. by rewrite (Hr Ha').
Qed.

Lemma decided_body query p cp clientPc onlyCached (w0 w1 : World U X) err query' :
  (forall m b, Pack m = Some b -> b <> []) ->
  applyQueryPlugins proxy query w0 = ((err, query'), w1) ->
  decided err (ps w1) -> (err = None -> action (ps w1) = PluginsActionReject ->
    synthResponse (ps w1) <> None) ->
  selected w1 = None ->
  post (query_body proxy query p cp clientPc onlyCached) w0 (fun _ w' => remote w' = remote w1).
Proof.
  intros Hpack Eq Hd Hrej Hsel. unfold query_body. apply post_bind. unfold post at 1. rewrite Eq.
  cbn [fst snd]. destruct err as [e|].
  { apply post_bind. unfold post at 1. cbn [fst snd on_ps]. apply post_bind.
    eapply (post_keeps remote); [by apply fail_with_keeps|]. by intros _ w2 H2. }
  destruct (negb _); [done|]. apply post_bind. unfold post at 1, get_ps. cbn [fst snd].
  case_bool_decide as Hdrop.
  { apply post_bind. eapply (post_keeps remote); [by apply fail_with_keeps|]. by intros _ w2 H2. }
  assert (synthResponse (ps w1) <> None) as Hsyn.
  { destruct Hd as [?|[?|[Hd|[_ Hd]]]]; [done|done|by apply Hrej|done]. }
  destruct (synthResponse (ps w1)) as [synth|]; [|done].
  destruct (handleSynthesizedResponse (ps w1) synth) as [data st'] eqn:Eh.
  apply post_bind. unfold post at 1. cbn [fst snd on_ps]. destruct data as [data|]; [|done].
  assert (len data =? 0 = false) as Hne.
  { unfold handleSynthesizedResponse in Eh. destruct (validateResponseForQuery _ _); [done|].
    destruct (Pack synth) as [d|] eqn:Ep; [|done]. injection Eh as <- <-.
    specialize (Hpack _ _ Ep). by destruct d. }
  cbn [default id]. rewrite Hne. destruct onlyCached.
  - apply post_bind. unfold post at 1. cbn [fst snd].
    eapply (post_keeps remote); [apply finish_remote|]. intros _ w2 ->. unfold remote. cbn. congruence.
  - eapply (post_keeps remote); [apply finish_remote|]. by intros _ w2 ->.
Qed.

Lemma decided_stay_local cp p query addr clientPc start onlyCached w :
  (forall m b, Pack m = Some b -> b <> []) ->
  Forall respects_query (queryPlugins (pluginsGlobals proxy)) ->
  (let r := applyQueryPlugins proxy query (start_world cp p addr start w) in
   decided r.1.1 (ps r.2)) ->
  let w' := (processIncomingQuery proxy cp p query addr clientPc start onlyCached w).2 in
  up w' = up w /\ servers w' = servers w.
Proof.
  intros Hpack Hrq. set (w0 := start_world cp p addr start w).
  pose proof (applyQueryPlugins_spec query w0 Hrq) as Hs. unfold post in Hs.
  pose proof (applyQueryPlugins_reject query w0 eq_refl) as Hrej. unfold post in Hrej.
  destruct (applyQueryPlugins proxy query w0) as [[err query'] w1] eqn:Eq. intros Hd. cbv zeta in *.
  cbn [fst snd] in *. destruct Hs as (_ & Hup & _ & Hsrv).
  destruct Hsrv as [Hsv Hsel].
  { destruct Hd as [?|[Hd|[Hd|[Hd _]]]]; [by left|right; congruence..]. }
  pose proof (decided_body query p cp clientPc onlyCached w0 w1 err query' Hpack Eq Hd Hrej Hsel) as Hbody.
  unfold processIncomingQuery. destruct (negb (validateQuery query)); [done|].
  unfold bind. fold (start_world cp p addr start w). fold w0. unfold post in Hbody.
  destruct (query_body _ _ _ _ _ _ _) as [[r e] w2]. cbn [fst snd] in Hbody.
  unfold remote in Hbody. injection Hbody as H1 H2 H3. unfold observe. rewrite H3, Hsel. simpl.
  split; [by rewrite H1|by rewrite H2].
Qed.

(** Blocked and locally answered queries stay local.  When the query
    plugins fail, drop or reject a query, or synthesize its response (from the
    cache, for instance), no transport is used, no server is chosen and the
    state of the servers and of the schedulers is left as it was. *)
Theorem decided_queries_stay_local cp p query addr clientPc start onlyCached w :
  (forall m b, Pack m = Some b -> b <> []) ->
  Forall respects_query (queryPlugins (pluginsGlobals proxy)) ->
  (let r := applyQueryPlugins proxy query (start_world cp p addr start w) in
   decided r.1.1 (ps r.2)) ->
  let w' := (processIncomingQuery proxy cp p query addr clientPc start onlyCached w).2 in
  up w' = up w /\ servers w' = servers w.
Proof. apply decided_stay_local. Qed.
End exchange.

(** ** Examples *)

(** A transport over which every server answers with a packet. *)
Definition sample_reply (packet : bytes) : http_reply :=
  {| http_body := packet; http_status := 200; tls_complete := true; http_trace := None; http_err := None |}.

Definition answering (packet : bytes) : Upstream unit := {|
  up_encrypt := fun _ query _ u =>
    (Ok {| eq_sharedKey := []; eq_encrypted := query; eq_clientNonce := []; eq_queryEpoch := 0 |}, u);
  up_udp := fun _ _ u => (Ok packet, false, u);
  up_tcp := fun _ _ u => (Ok packet, u);
  up_doh := fun _ _ _ u => (sample_reply packet, u);
  up_odoh_encrypt := fun _ _ u => (Err OtherError, u);
  up_odoh := fun _ _ _ u => (sample_reply packet, u);
  up_fetch := fun _ _ u => (None, u);
|}.

Definition sample_proxy (qs : list (Plugin unit)) : Proxy unit := {|
  pluginsGlobals := sample_globals qs;
  ttls := sample_ttls;
  clientKey := {| proxySecretKey := []; proxyPublicKey := [] |};
  readings := fun n => (10 + Z.of_nat n) * Second;
  choices := fun _ => {| intn := fun _ => 0; wp2_first := 0; wp2_second := 1; wp2_tie := 0%float;
                         mds_draws := sample_draws |};
  pick_target := fun _ _ => 0%nat;
  random_key := fun _ => [];
  updateMetrics := fun _ x => x;
|}.

Definition sample_world : World unit unit := {|
  up := tt; servers := sample_servers LBStrategyWP2; pdata := tt;
  estimator := NewQuestionSizeEstimator; outbox := []; ps := sample_state; selected := None; ticks := 0;
|}.

Lemma sample_plugins_respect :
  Forall respects_query [pass_plugin] /\ Forall respects_query [reject_plugin] /\
  Forall respects_question [pass_plugin].
Proof.
  split_and!; apply Forall_singleton; intros x st msg err x' st' msg' H;
    unfold pass_plugin, reject_plugin in H; by injection H as <- <- <- <-.
Qed.

Notation sample_run qs :=
  (@processIncomingQuery sample_lib toy unit (answering (sample_packet 1)) unit (sample_proxy qs)
     client_udp udp (sample_packet 0) None true Second false sample_world).


Lemma decided_queries_stay_local_witness :
  servers (sample_run [reject_plugin]).2 = servers sample_world.
Proof.
  apply (@decided_queries_stay_local sample_lib toy unit (answering (sample_packet 1)) unit
    (sample_proxy [reject_plugin]) client_udp udp (sample_packet 0) None true Second false sample_world).
  - intros m b. cbn [Pack sample_lib few_messages].
    destruct (list_find (eq m) [sample_question; sample_response]) as [[i m']|]; [|done].
    by intros [= <-].
  - exact (proj1 (proj2 sample_plugins_respect)).
  - right. right. left. vm_compute. reflexivity.
Defined.
