(* ===== verification/Exchange.v ===== *)
(** * Exchanges with DNSCrypt servers (src/dnscrypt-proxy/proxy.go)

    [exchangeWithUDPServer], [exchangeWithTCPServer], the header for relays, and
    the limit on the number of clients.  The operating system's network is the
    interface [Network]; sockets come from the pool of UdpPool.v.  [exchange_up]
    makes the two exchanges and the encryption of Crypto.v the transports that
    query processing is written against. *)

From S2P Require Import Prelude GoStrings GoFloat NetIP Common Crypto Dns DnsUtils Metrics Estimators.
From S2P Require Import CryptoProps ServerTypes Mds MdsProps Servers Plugins Feedback Query UdpPool.

(** ** The network *)

(** [net_dial] and [net_deadline] report success.  A stream socket returns its
    reads and the error of the one that fails. *)
Class Network (E : Type) := {
  net_addr : SockAddr -> bytes;                     (* UDPAddr.String *)
  net_proxied : bool;                               (* a proxy dialer is configured *)
  net_now : E -> Time * E;
  net_dial : bytes -> E -> option exchange_error * E;
  net_deadline : Z -> E -> option exchange_error * E;
  net_write : Z -> bytes -> E -> option exchange_error * E;
  net_read : Z -> E -> result exchange_error bytes * E;
  net_tcp_dial : SockAddr -> E -> result exchange_error Z * E;
  net_stream : Z -> E -> list read_outcome * exchange_error * E;
  net_crypto : E -> CryptoEnv * E;                  (* nonces, clock, epoch *)
}.

(** The header of a query sent through a relay. *)
Definition anonymizedDNSHeaderSize : Z := 8 + 2 + 16 + 2.

Definition prepareForRelay (ip : bytes) (port : Z) (encryptedQuery : bytes) : bytes :=
  let anonymizedDNSHeader := [255; 255; 255; 255; 255; 255; 255; 255; 0; 0] in
  anonymizedDNSHeader ++ default [] (To16 ip) ++ put_be16 (uint16 port) ++ encryptedQuery.

(** The addresses to send to, and the query as it is sent. *)
Definition udp_upstream (e : Endpoint) : SockAddr :=
  match (r ← s_Relay e; r_Dnscrypt r) with Some (relayUDP, _) => relayUDP | None => UDPAddr e end.
Definition tcp_upstream (e : Endpoint) : SockAddr :=
  match (r ← s_Relay e; r_Dnscrypt r) with Some (_, relayTCP) => relayTCP | None => TCPAddr e end.
Definition relayed (e : Endpoint) (server : SockAddr) (query : bytes) : bytes :=
  match (r ← s_Relay e; r_Dnscrypt r) with
  | Some _ => prepareForRelay (addr_IP server) (addr_Port server) query
  | None => query
  end.

(** ** The pool, as a caller uses it *)

Fixpoint remove_one (c : Z) (l : list Z) : list Z :=
  match l with
  | [] => []
  | x :: l' => if x =? c then l' else x :: remove_one c l'
  end.

Definition give_back (c : Z) (w : pool_world) : pool_world :=
  {| pool := pool w; held := remove_one c (held w); pending := pending w;
     closed_conns := c :: closed_conns w; next_conn := next_conn w |}.

(** [Put]: the test of [closed], then the critical section. *)
Definition put_conn (t : Time) (addr : bytes) (c : Z) (w : pool_world) : pool_world :=
  if pool_closed (pool w) then give_back c w
  else
    let '(r, p) := Put_locked t addr c (pool w) in
    {| pool := p; held := remove_one c (held w); pending := pending w;
       closed_conns := option_list r ++ closed_conns w; next_conn := next_conn w |}.

Section exchange.
Context `{P : Primitives} {E : Type} `{N : Network E}.

(** The state an exchange changes: the network, the pool and the post-quantum
    sessions of the servers. *)
Record Wire := { net : E; conns : pool_world; sessions : gmap bytes pqSessionState }.

Definition on_net {A} (f : E -> A * E) (s : Wire) : A * Wire :=
  let '(a, n) := f (net s) in (a, {| net := n; conns := conns s; sessions := sessions s |}).
Definition set_conns (w : pool_world) (s : Wire) : Wire :=
  {| net := net s; conns := w; sessions := sessions s |}.
Definition set_session (name : bytes) (x : option pqSessionState) (s : Wire) : Wire :=
  {| net := net s; conns := conns s;
     sessions := match x with Some x => <[name := x]> (sessions s) | None => sessions s end |}.

(** [udpConnPool.Get]: a socket and whether it was reused. *)
Definition get_conn (addr : bytes) (s : Wire) : result exchange_error (Z * bool) * Wire :=
  let w := conns s in
  match Get_locked addr (pool w) with
  | (Some c, p) =>
      (Ok (c, true), set_conns {| pool := p; held := c :: held w; pending := pending w;
                                  closed_conns := closed_conns w; next_conn := next_conn w |} s)
  | (None, p) =>
      match on_net (net_dial addr) s with
      | (Some err, s) => (Err err, s)
      | (None, s) =>
          (Ok (next_conn w, false),
           set_conns {| pool := p; held := next_conn w :: held w; pending := pending w;
                        closed_conns := closed_conns w; next_conn := next_conn w + 1 |} s)
      end
  end.

(** The loop that sends the query and waits for a packet: [inl] is an error of
    [Write], [inr] the last result of [Read]. *)
Fixpoint try_exchange (tries : nat) (c : Z) (query : bytes) (last : exchange_error) (s : Wire)
    : (exchange_error + result exchange_error bytes) * Wire :=
  match tries with
  | O => (inr (Err last), s)
  | S tries' =>
      match on_net (net_write c query) s with
      | (Some err, s) => (inl err, s)
      | (None, s) =>
          match on_net (net_read c) s with
          | (Ok packet, s) => (inr (Ok (take (Z.to_nat MaxDNSPacketSize) packet)), s)
          | (Err err, s) => try_exchange tries' c query err s
          end
      end
  end.

Definition decrypt (server : ServerInfo) (q : EncryptedQuery) (packet : bytes) (s : Wire)
    : result exchange_error bytes * Wire :=
  let '(env, s) := on_net net_crypto s in
  let '(session, r) := Decrypt (env_now env) (env_epoch env) (crypto server)
                         (sessions s !! Name_ server) (eq_sharedKey q) packet (eq_clientNonce q)
                         (eq_queryEpoch q) in
  (match r with Ok b => Ok b | Err _ => Err OtherError end, set_session (Name_ server) session s).

(** [exchangeWithUDPServer] without a proxy dialer. *)
Definition exchangeWithUDPServer (server : ServerInfo) (q : EncryptedQuery) (s : Wire)
    : result exchange_error bytes * bool * Wire :=
  let e := endpoint server in
  let upstreamAddr := net_addr (udp_upstream e) in
  match get_conn upstreamAddr s with
  | (Err err, s) => (Err err, false, s)
  | (Ok (pc, connReused), s) =>
      match on_net (net_deadline pc) s with
      | (Some err, s) => (Err err, false, set_conns (give_back pc (conns s)) s)
      | (None, s) =>
          let query := relayed e (UDPAddr e) (eq_encrypted q) in
          match try_exchange 2 pc query OtherError s with
          | (inl err, s) | (inr (Err err), s) =>
              (Err err, false, set_conns (give_back pc (conns s)) s)
          | (inr (Ok packet), s) =>
              let '(t, s) := on_net net_now s in
              let s := set_conns (put_conn t upstreamAddr pc (conns s)) s in
              let '(response, s) := decrypt server q packet s in
              (response, connReused, s)
          end
      end
  end.

(** The same through a proxy: the socket is dialed for the exchange and closed
    at the end. *)
Definition exchangeWithUDPServerViaProxy (server : ServerInfo) (q : EncryptedQuery) (s : Wire)
    : result exchange_error bytes * bool * Wire :=
  let e := endpoint server in
  match on_net (net_dial (net_addr (udp_upstream e))) s with
  | (Some err, s) => (Err err, false, s)
  | (None, s) =>
      let w := conns s in
      let pc := next_conn w in
      let close := fun s => set_conns {| pool := pool (conns s); held := held (conns s);
        pending := pending (conns s); closed_conns := pc :: closed_conns (conns s);
        next_conn := pc + 1 |} s in
      match on_net (net_deadline pc) s with
      | (Some err, s) => (Err err, false, close s)
      | (None, s) =>
          match try_exchange 2 pc (relayed e (UDPAddr e) (eq_encrypted q)) OtherError s with
          | (inl err, s) | (inr (Err err), s) => (Err err, false, close s)
          | (inr (Ok packet), s) =>
              let '(response, s) := decrypt server q packet s in
              (response, false, close s)
          end
      end
  end.

Definition udp_exchange (server : ServerInfo) (q : EncryptedQuery) (s : Wire)
    : result exchange_error bytes * bool * Wire :=
  if net_proxied then exchangeWithUDPServerViaProxy server q s else exchangeWithUDPServer server q s.

(** [exchangeWithTCPServer]: the connection is closed when it returns. *)
Definition exchangeWithTCPServer (server : ServerInfo) (q : EncryptedQuery) (s : Wire)
    : result exchange_error bytes * Wire :=
  let e := endpoint server in
  match on_net (net_tcp_dial (tcp_upstream e)) s with
  | (Err err, s) => (Err err, s)
  | (Ok pc, s) =>
      match on_net (net_deadline pc) s with
      | (Some err, s) => (Err err, s)
      | (None, s) =>
          match PrefixWithSize (relayed e (TCPAddr e) (eq_encrypted q)) with
          | Err _ => (Err OtherError, s)
          | Ok framed =>
              match on_net (net_write pc framed) s with
              | (Some err, s) => (Err err, s)
              | (None, s) =>
                  let '((reads, readErr), s) := on_net (net_stream pc) s in
                  match ReadPrefixed reads with
                  | Err ReadError => (Err readErr, s)
                  | Err _ => (Err OtherError, s)
                  | Ok packet => decrypt server q packet s
                  end
              end
          end
      end
  end.

(** [Encrypt], with the session of the server. *)
Definition encrypt (key : ClientKey) (server : ServerInfo) (query : bytes) (p : proto) (s : Wire)
    : result exchange_error EncryptedQuery * Wire :=
  let '(env, s) := on_net net_crypto s in
  let '(session, r) := Encrypt env key (crypto server) (sessions s !! Name_ server) query p in
  (match r with Ok q => Ok q | Err _ => Err OtherError end, set_session (Name_ server) session s).

(** The DNSCrypt transports; those over HTTP are given. *)
Definition exchange_up (key : ClientKey)
    (doh odoh : bool -> URL -> bytes -> Wire -> http_reply * Wire)
    (odoh_encrypt : bytes -> bytes -> Wire -> result exchange_error ODoHQuery * Wire)
    (fetch : bytes -> ServerStamp -> Wire -> option ServerInfo * Wire) : Upstream Wire := {|
  up_encrypt := encrypt key;
  up_udp := udp_exchange;
  up_tcp := exchangeWithTCPServer;
  up_doh := doh;
  up_odoh_encrypt := odoh_encrypt;
  up_odoh := odoh;
  up_fetch := fetch;
|}.

(** ** Sockets are given back *)

Lemma on_net_conns {A} (f : E -> A * E) s : conns (on_net f s).2 = conns s.
Proof. unfold on_net. by destruct (f (net s)). Qed.

Lemma remove_one_head c l : remove_one c (c :: l) = l.
Proof. simpl. by rewrite Z.eqb_refl. Qed.

(** The uses of the pool by an exchange: nothing when no socket could be had, or
    a [Get] for the address, followed by one [Discard] or one [Put] of the socket
    that was returned. *)
Inductive socket_use (addr : bytes) : list pool_label -> Prop :=
| use_none : socket_use addr []
| use_discard c : socket_use addr [L_Get addr; L_Discard c]
| use_put_closed c : socket_use addr [L_Get addr; L_Put_start c]
| use_put c : socket_use addr [L_Get addr; L_Put_start c; L_Put_locked addr c].

(** A socket [c] has been taken, and everything else is as in [w0]. *)
Record taken (addr : bytes) (c : Z) (w0 w : pool_world) : Prop := {
  tk_step : pool_step (L_Get addr) w0 w;
  tk_held : held w = c :: held w0;
  tk_pending : pending w = pending w0;
}.

Lemma get_conn_taken addr s r s' : get_conn addr s = (r, s') ->
  match r with
  | Ok (c, reused) => taken addr c (conns s) (conns s') /\
      (reused = true <-> next_conn (conns s') = next_conn (conns s))
  | Err _ => conns s' = conns s
  end.
Proof.
  unfold get_conn. destruct (Get_locked addr (pool (conns s))) as [[c|] p] eqn:Eg.
  - intros [= <- <-]. split; [|done]. split; [by eapply step_Get_reuse|done|done].
  - pose proof (on_net_conns (net_dial addr) s) as Hc.
    destruct (on_net (net_dial addr) s) as [[err|] s1]; simpl in Hc; intros [= <- <-]; [done|].
    split; [split; [by eapply step_Get_dial|done|done]|]. simpl. split; [done|lia].
Qed.

Lemma exec_one l w w' : pool_step l w w' -> pool_exec [l] w w'.
Proof. intros H. eapply (exec_snoc [] l); [constructor|exact H]. Qed.

Lemma exec_two l1 l2 w w1 w' : pool_step l1 w w1 -> pool_step l2 w1 w' -> pool_exec [l1; l2] w w'.
Proof. intros H1 H2. eapply (exec_snoc [l1] l2); [by apply exec_one|exact H2]. Qed.

(** What giving a taken socket back amounts to. *)
Definition returned (addr : bytes) (tr : list pool_label) (w0 w' : pool_world) : Prop :=
  socket_use addr tr /\ pool_exec tr w0 w' /\ held w' = held w0 /\ pending w' = pending w0.

Lemma give_back_returned addr c w0 w : taken addr c w0 w ->
  returned addr [L_Get addr; L_Discard c] w0 (give_back c w).
Proof.
  intros [H1 H2 H3]. split_and!; [constructor| | |done].
  - eapply exec_two; [exact H1|]. apply (step_Discard w c). by rewrite H2, remove_one_head.
  - simpl. by rewrite H2, remove_one_head.
Qed.

Lemma put_conn_returned t addr c w0 w : taken addr c w0 w ->
  exists tr, returned addr tr w0 (put_conn t addr c w) /\
    (tr = [L_Get addr; L_Put_start c] \/ tr = [L_Get addr; L_Put_start c; L_Put_locked addr c]).
Proof.
  intros [H1 H2 H3]. unfold put_conn. destruct (pool_closed (pool w)) eqn:Ec.
  - exists [L_Get addr; L_Put_start c]. split; [|by left]. split_and!; [constructor| | |done].
    + eapply exec_two; [exact H1|]. apply (step_Put_start_closed w c); [done|]. by rewrite H2, remove_one_head.
    + simpl. by rewrite H2, remove_one_head.
  - destruct (Put_locked t addr c (pool w)) as [r p] eqn:Ep.
    exists [L_Get addr; L_Put_start c; L_Put_locked addr c]. split; [|by right].
    split_and!; [constructor| |by simpl; rewrite H2, remove_one_head|done].
    eapply (exec_snoc [L_Get addr; L_Put_start c]).
    + eapply exec_two; [exact H1|]. apply (step_Put_start_open w c (remove_one c (held w))); [done|].
      by rewrite H2, remove_one_head.
    + by apply (step_Put_locked {| pool := pool w; held := remove_one c (held w); pending := c :: pending w;
        closed_conns := closed_conns w; next_conn := next_conn w |} t addr c (pending w) r p).
Qed.

Lemma put_conn_next t addr c w : next_conn (put_conn t addr c w) = next_conn w.
Proof. unfold put_conn. destruct (pool_closed _); [done|]. by destruct (Put_locked _ _ _ _). Qed.

Lemma try_exchange_conns tries c query last s : conns (try_exchange tries c query last s).2 = conns s.
Proof.
  revert last s. induction tries as [|n IH]; intros last s; [done|]. cbn [try_exchange].
  pose proof (on_net_conns (net_write c query) s) as Hw.
  destruct (on_net (net_write c query) s) as [[err|] s1]; simpl in Hw; [done|].
  pose proof (on_net_conns (net_read c) s1) as Hr.
  destruct (on_net (net_read c) s1) as [[packet|err] s2]; simpl in Hr; [simpl; congruence|].
  rewrite IH. congruence.
Qed.

Lemma decrypt_conns server q packet s : conns (decrypt server q packet s).2 = conns s.
Proof.
  unfold decrypt. pose proof (on_net_conns net_crypto s) as Hc.
  destruct (on_net net_crypto s) as [env s1]. simpl in Hc.
  by destruct (Decrypt _ _ _ _ _ _ _ _) as [session r].
Qed.

(** An exchange over UDP keeps no socket.  On every path, errors of the
    network and packets that cannot be decrypted included, the pool is used
    as its correctness requires: one [Get] for the address of the server (or of its
    relay), then one [Discard] or one [Put] of that very socket, which is put
    back whenever a response is returned; the exchange is reported as reusing
    a socket only if none was dialed. *)
Theorem exchangeWithUDPServer_socket server q s response reused s' :
  exchangeWithUDPServer server q s = (response, reused, s') ->
  let addr := net_addr (udp_upstream (endpoint server)) in
  exists tr, returned addr tr (conns s) (conns s') /\
    (forall r, response = Ok r -> exists c, tr = [L_Get addr; L_Put_start c] \/
       tr = [L_Get addr; L_Put_start c; L_Put_locked addr c]) /\
    (reused = true -> next_conn (conns s') = next_conn (conns s)).
Proof.
  unfold exchangeWithUDPServer. cbv zeta. set (addr := net_addr (udp_upstream (endpoint server))).
  destruct (get_conn addr s) as [r s1] eqn:Eg. pose proof (get_conn_taken addr s r s1 Eg) as Ht.
  destruct r as [[pc conn_reused]|err].
  2: { intros [= <- <- <-]. exists []. split; [|by split]. rewrite Ht. split_and!; try done; constructor. }
  destruct Ht as [Ht Hre].
  assert (forall err s2, conns s2 = conns s1 -> exists tr,
    returned addr tr (conns s) (conns (set_conns (give_back pc (conns s2)) s2)) /\
    (forall r, @Err exchange_error bytes err = Ok r -> exists c, tr = [L_Get addr; L_Put_start c] \/
       tr = [L_Get addr; L_Put_start c; L_Put_locked addr c]) /\
    (false = true -> next_conn (give_back pc (conns s2)) = next_conn (conns s))) as Hfail.
  { intros err s2 ->. exists [L_Get addr; L_Discard pc]. split; [|by split].
    by apply give_back_returned. }
  pose proof (on_net_conns (net_deadline pc) s1) as Hd.
  destruct (on_net (net_deadline pc) s1) as [[err|] s2]; simpl in Hd; [intros [= <- <- <-]; by apply Hfail|].
  set (query := relayed _ _ _).
  pose proof (try_exchange_conns 2 pc query OtherError s2) as Hx.
  destruct (try_exchange 2 pc query OtherError s2) as [[err|[packet|err]] s3]; simpl in Hx;
    [intros [= <- <- <-]; apply Hfail; congruence| |intros [= <- <- <-]; apply Hfail; congruence].
  pose proof (on_net_conns net_now s3) as Hn. destruct (on_net net_now s3) as [t s4]. simpl in Hn.
  pose proof (decrypt_conns server q packet (set_conns (put_conn t addr pc (conns s4)) s4)) as Hdec.
  destruct (decrypt _ _ _ _) as [resp s5]. simpl in Hdec. intros [= <- <- <-].
  assert (conns s4 = conns s1) as H41 by congruence.
  rewrite <-H41 in Ht. destruct (put_conn_returned t addr pc (conns s) (conns s4) Ht) as (tr & Hr & Htr).
  exists tr. rewrite Hdec. split; [done|]. split; [eauto|]. intros Hr1. cbn [conns set_conns].
  rewrite put_conn_next, H41. by apply Hre.
Qed.
End exchange.

(** ** Example: a server that does not answer *)

Definition silent_network : Network unit := {|
  net_addr := fun a => addr_IP a;
  net_proxied := false;
  net_now := fun e => (Second, e);
  net_dial := fun _ e => (None, e);
  net_deadline := fun _ e => (None, e);
  net_write := fun _ _ e => (None, e);
  net_read := fun _ e => (Err TimeoutError, e);
  net_tcp_dial := fun _ e => (Err OtherError, e);
  net_stream := fun _ e => ([], OtherError, e);
  net_crypto := fun e => ({| rnd_nonce := None; rnd_xpad := None; rnd_key := []; rnd_encap := []; env_now := 0; env_epoch := 0;
                             env_minQuestionSize := 0; ephemeralKeys := false |}, e);
|}.

Definition idle_wire : Wire (E := unit) := {| net := tt; conns := initial_world; sessions := ∅ |}.

Definition empty_query : EncryptedQuery :=
  {| eq_sharedKey := []; eq_encrypted := []; eq_clientNonce := []; eq_queryEpoch := 0 |}.

Notation silent_exchange :=
  (@exchangeWithUDPServer toy unit silent_network (sample_server "a" 30) empty_query idle_wire).

Lemma exchangeWithUDPServer_socket_witness :
  silent_exchange.1.1 = Err TimeoutError /\ closed_conns (conns silent_exchange.2) = [0] /\
  exists tr, pool_exec tr initial_world (conns silent_exchange.2).
Proof.
  split; [vm_compute; reflexivity|]. split; [vm_compute; reflexivity|].
  destruct (@exchangeWithUDPServer_socket toy unit silent_network (sample_server "a" 30) empty_query idle_wire
    silent_exchange.1.1 silent_exchange.1.2 silent_exchange.2) as (tr & (_ & Hex & _) & _).
  - rewrite <-(surjective_pairing silent_exchange.1). exact (surjective_pairing silent_exchange).
  - exists tr. exact Hex.
Defined.
