(* ===== verification/RuleLog.v ===== *)
(** * Logging of the plugins

    The log lines of the rule plugins (src/dnscrypt-proxy/common.go), the query
    log and the log of non-existent names (plugin_query_log.go, plugin_nx_log.go)
    and the encryption of client addresses (ipcrypt.go).

    The table of the names of the record types belongs to the DNS library and the
    ciphers to the ipcrypt library: they are arguments.  Quoting follows
    [strconv.QuoteToGraphic]; on text outside ASCII, which needs the Unicode
    tables, it is the argument [unicode_quote]. *)

From S2P Require Import Prelude GoStrings NetIP Common Crypto Dns DnsUtils Metrics Plugins.

(** ** Hexadecimal text ([encoding/hex]) *)

Definition hex_EncodeToString (bs : bytes) : bytes :=
  bs ≫= fun b => [hex_digit (Z.shiftr b 4); hex_digit (Z.land b 15)].

Fixpoint hex_DecodeString (s : bytes) : option bytes :=
  match s with
  | [] => Some []
  | [_] => None
  | hi :: lo :: s' =>
      h ← hex_value hi; l ← hex_value lo; rest ← hex_DecodeString s';
      Some (h * 16 + l :: rest)
  end.

(** ** Encryption of addresses (ipcrypt.go) *)

Record IPCryptConfig := { Key : bytes; Algorithm : bytes }.

Inductive ipcrypt_error :=
| NoKeyProvided | KeyNotHex | BadKeyLength (n : Z) | UnsupportedAlgorithm (a : bytes)
| CipherFailed | InvalidEncryptedIP | EncryptedNotHex.

#[global] Instance ipcrypt_error_eq_dec : EqDecision ipcrypt_error.
Proof. solve_decision. Defined.

Definition alg_deterministic : bytes := str "ipcrypt-deterministic".
Definition alg_nd : bytes := str "ipcrypt-nd".
Definition alg_ndx : bytes := str "ipcrypt-ndx".
Definition alg_pfx : bytes := str "ipcrypt-pfx".

(** [Ok None] is the nil configuration: no encryption. *)
Definition NewIPCryptConfig (unicode_lower : bytes -> bytes) (keyHex algorithm : bytes)
    : result ipcrypt_error (option IPCryptConfig) :=
  let algorithm := ToLower unicode_lower algorithm in
  let algorithm := if bool_decide (algorithm = []) then str "none" else algorithm in
  if bool_decide (algorithm = str "none") then Ok None
  else if bool_decide (keyHex = []) then Err NoKeyProvided
  else match hex_DecodeString keyHex with
  | None => Err KeyNotHex
  | Some key =>
      let config := {| Key := key; Algorithm := algorithm |} in
      let need n := if negb (len key =? n) then Err (BadKeyLength (len key)) else Ok (Some config) in
      if bool_decide (algorithm = alg_deterministic) then need 16
      else if bool_decide (algorithm = alg_nd) then need 16
      else if bool_decide (algorithm = alg_ndx) then need 32
      else if bool_decide (algorithm = alg_pfx) then need 32
      else Err (UnsupportedAlgorithm algorithm)
  end.

(** The ciphers of the ipcrypt library; [None] is an error.  Addresses are their
    16 bytes, the non-deterministic ciphers take and return the text of an
    address. *)
Class IPCryptLib := {
  ipcrypt_EncryptIP : bytes -> bytes -> option bytes;
  ipcrypt_DecryptIP : bytes -> bytes -> option bytes;
  ipcrypt_EncryptIPNonDeterministic : bytes -> bytes -> bytes -> option bytes;
  ipcrypt_DecryptIPNonDeterministic : bytes -> bytes -> option bytes;
  ipcrypt_EncryptIPNonDeterministicX : bytes -> bytes -> bytes -> option bytes;
  ipcrypt_DecryptIPNonDeterministicX : bytes -> bytes -> option bytes;
  ipcrypt_EncryptIPPfx : bytes -> bytes -> option bytes;
  ipcrypt_DecryptIPPfx : bytes -> bytes -> option bytes;
}.

Section ipcrypt.
Context `{L : IPCryptLib}.

(** [tweak]: what the random generator fills the tweak with, [None] when it
    fails; the code asks for 8 or 16 bytes. *)
Definition EncryptIP (config : option IPCryptConfig) (tweak : Z -> option bytes) (ip : bytes)
    : result ipcrypt_error bytes :=
  match config with
  | None => Ok (ip_String ip)
  | Some config =>
      let ok {A} (f : A -> bytes) (r : option A) : result ipcrypt_error bytes :=
        match r with Some e => Ok (f e) | None => Err CipherFailed end in
      if bool_decide (Algorithm config = alg_deterministic) then
        ok ip_String (ipcrypt_EncryptIP (Key config) ip)
      else if bool_decide (Algorithm config = alg_nd) then
        ok hex_EncodeToString
          (t ← tweak 8; ipcrypt_EncryptIPNonDeterministic (ip_String ip) (Key config) t)
      else if bool_decide (Algorithm config = alg_ndx) then
        ok hex_EncodeToString
          (t ← tweak 16; ipcrypt_EncryptIPNonDeterministicX (ip_String ip) (Key config) t)
      else if bool_decide (Algorithm config = alg_pfx) then
        ok ip_String (ipcrypt_EncryptIPPfx ip (Key config))
      else Err (UnsupportedAlgorithm (Algorithm config))
  end.

Definition EncryptIPString (config : option IPCryptConfig) (tweak : Z -> option bytes)
    (ipStr : bytes) : bytes :=
  if bool_decide (config = None) || bool_decide (ipStr = []) then ipStr
  else match ParseIP ipStr with
  | None => ipStr
  | Some ip =>
      match EncryptIP config tweak ip with
      | Err _ => str "[encrypted]"
      | Ok encrypted => encrypted
      end
  end.

Definition DecryptIP (config : option IPCryptConfig) (encryptedStr : bytes)
    : result ipcrypt_error bytes :=
  match config with
  | None => Ok encryptedStr
  | Some config =>
      let of_ip (decrypt : bytes -> option bytes) : result ipcrypt_error bytes :=
        match ParseIP encryptedStr with
        | None => Err InvalidEncryptedIP
        | Some ip => match decrypt ip with Some d => Ok (ip_String d) | None => Err CipherFailed end
        end in
      let of_hex (decrypt : bytes -> option bytes) : result ipcrypt_error bytes :=
        match hex_DecodeString encryptedStr with
        | None => Err EncryptedNotHex
        | Some e => match decrypt e with Some d => Ok d | None => Err CipherFailed end
        end in
      if bool_decide (Algorithm config = alg_deterministic) then
        of_ip (fun ip => ipcrypt_DecryptIP (Key config) ip)
      else if bool_decide (Algorithm config = alg_nd) then
        of_hex (fun e => ipcrypt_DecryptIPNonDeterministic e (Key config))
      else if bool_decide (Algorithm config = alg_ndx) then
        of_hex (fun e => ipcrypt_DecryptIPNonDeterministicX e (Key config))
      else if bool_decide (Algorithm config = alg_pfx) then
        of_ip (fun ip => ipcrypt_DecryptIPPfx ip (Key config))
      else Err (UnsupportedAlgorithm (Algorithm config))
  end.
End ipcrypt.

#[global] Instance IPCryptConfig_eq_dec : EqDecision IPCryptConfig.
Proof. solve_decision. Defined.

(** ** Client addresses *)

(** The client's address as the text that is logged; [None] for queries the proxy
    makes itself. *)
Definition ExtractClientIPStr (ps : PluginsState) : option bytes :=
  match clientAddr ps with
  | None => None
  | Some ip =>
      match clientProto ps with
      | client_udp => Some (ip_String ip)
      | client_tcp | client_local_doh => Some (ip_String ip)
      | client_trampoline => None
      end
  end.

Definition ExtractClientIPStrEncrypted `{IPCryptLib} (ps : PluginsState)
    (ipCryptConfig : option IPCryptConfig) (tweak : Z -> option bytes) : option bytes :=
  match ExtractClientIPStr ps, ipCryptConfig with
  | Some ipStr, Some _ => Some (EncryptIPString ipCryptConfig tweak ipStr)
  | r, _ => r
  end.

(** ** Quoting *)

(** [strconv.QuoteToGraphic] on an ASCII byte. *)
Definition quote_byte (b : Z) : bytes :=
  if (b =? 34) || (b =? 92) then [92; b]
  else if (32 <=? b) && (b <? 127) then [b]
  else if b =? 7 then str "\a" else if b =? 8 then str "\b" else if b =? 12 then str "\f"
  else if b =? 10 then str "\n" else if b =? 13 then str "\r" else if b =? 9 then str "\t"
  else if b =? 11 then str "\v"
  else str "\x" ++ [hex_digit (Z.shiftr b 4); hex_digit (Z.land b 15)].

Definition StringQuote (unicode_quote : bytes -> bytes) (s : bytes) : bytes :=
  if is_ascii s then s ≫= quote_byte else unicode_quote s.

(** ** Log lines *)

(** A reading of the local clock. *)
Record LocalTime := {
  lt_year : Z; lt_month : Z; lt_day : Z; lt_hour : Z; lt_minute : Z; lt_second : Z;
  lt_weekday : Z; lt_unix : Z;
}.

(** [%d] and [%02d]. *)
Definition fmt_d (n : Z) : bytes := if n <? 0 then 45 :: itoa (- n) else itoa n.
Definition fmt_02d (n : Z) : bytes := if in_range 0 9 n then 48 :: itoa n else fmt_d n.

Definition timestamp (t : LocalTime) : bytes :=
  str "[" ++ fmt_d (lt_year t) ++ str "-" ++ fmt_02d (lt_month t) ++ str "-" ++ fmt_02d (lt_day t)
  ++ str " " ++ fmt_02d (lt_hour t) ++ str ":" ++ fmt_02d (lt_minute t) ++ str ":"
  ++ fmt_02d (lt_second t) ++ str "]".

Definition tab : bytes := [9].
Definition newline : bytes := [10].

(** A log file: the lines written so far, and which writes succeed. *)
Record Writer := { accepts : bytes -> bool; written : list bytes }.

Definition write_line (line : bytes) (w : Writer) : Writer * bool :=
  if accepts w line
  then ({| accepts := accepts w; written := written w ++ [line] |}, true)
  else (w, false).

Definition PluginsReturnCodeToString (c : PluginsReturnCode) : bytes :=
  match c with
  | PluginsReturnCodePass => str "PASS"
  | PluginsReturnCodeForward => str "FORWARD"
  | PluginsReturnCodeDrop => str "DROP"
  | PluginsReturnCodeReject => str "REJECT"
  | PluginsReturnCodeSynth => str "SYNTH"
  | PluginsReturnCodeParseError => str "PARSE_ERROR"
  | PluginsReturnCodeNXDomain => str "NXDOMAIN"
  | PluginsReturnCodeResponseError => str "RESPONSE_ERROR"
  | PluginsReturnCodeServFail => str "SERVFAIL"
  | PluginsReturnCodeNetworkError => str "NETWORK_ERROR"
  | PluginsReturnCodeCloak => str "CLOAK"
  | PluginsReturnCodeServerTimeout => str "SERVER_TIMEOUT"
  | PluginsReturnCodeNotReady => str "NOT_READY"
  end.

Section log.
Context (unicode_quote : bytes -> bytes) (unicode_equal_fold : bytes -> bytes -> bool).
Context (TypeToString : Z -> option bytes).

Notation quote := (StringQuote unicode_quote).

(** The additional fields of the [ltsv] format and their labels. *)
Fixpoint ltsv_fields (i : Z) (fields : list bytes) : bytes :=
  match fields with
  | [] => []
  | field :: fields' =>
      (if i =? 0 then tab ++ str "ip:" ++ quote field
       else tab ++ str "field" ++ fmt_d i ++ str ":" ++ quote field)
      ++ ltsv_fields (i + 1) fields'
  end.

(** [None] is the error about the format. *)
Definition FormatLogLine (now : LocalTime) (format clientIP qName reason : bytes)
    (additionalFields : list bytes) : option bytes :=
  if bool_decide (format = str "tsv") then
    Some (timestamp now ++ tab ++ clientIP ++ tab ++ quote qName ++ tab ++ quote reason
          ++ (additionalFields ≫= fun field => tab ++ quote field) ++ newline)
  else if bool_decide (format = str "ltsv") then
    Some (str "time:" ++ fmt_d (lt_unix now) ++ tab ++ str "host:" ++ clientIP
          ++ tab ++ str "qname:" ++ quote qName ++ tab ++ str "message:" ++ quote reason
          ++ ltsv_fields 0 additionalFields ++ newline)
  else None.

(** The log file after the write, and whether an error is reported. *)
Definition WritePluginLog (now : LocalTime) (logger : option Writer)
    (format clientIP qName reason : bytes) (additionalFields : list bytes)
    : option Writer * option plugin_error :=
  match logger with
  | None => (None, Some PluginFailed)
  | Some w =>
      match FormatLogLine now format clientIP qName reason additionalFields with
      | None => (Some w, Some PluginFailed)
      | Some line =>
          let '(w, ok) := write_line line w in
          (Some w, if ok then None else Some PluginFailed)
      end
  end.

(** The tail all rule plugins share: nothing is written without a log file, nor
    for the queries the proxy makes itself ([true] in the result). *)
Definition log_rule `{IPCryptLib} (now : LocalTime) (tweak : Z -> option bytes)
    (ipCryptConfig : option IPCryptConfig) (logger : option Writer) (format : bytes)
    (ps : PluginsState) (qName reason : bytes) (fields : list bytes)
    : option Writer * option plugin_error * bool :=
  match logger with
  | None => (None, None, false)
  | Some w =>
      match ExtractClientIPStrEncrypted ps ipCryptConfig tweak with
      | None => (Some w, None, true)
      | Some clientIPStr =>
          let '(logger, err) := WritePluginLog now (Some w) format clientIPStr qName reason fields in
          (logger, err, false)
      end
  end.

(** [InitializePluginLogger]: [open] is [Logger], which opens the file. *)
Definition InitializePluginLogger (open : bytes -> Writer) (logFile format : bytes)
    : option Writer * bytes :=
  if len logFile >? 0 then (Some (open logFile), format) else (None, []).

(** ** The log of non-existent names (plugin_nx_log.go) *)

Record PluginNxLog := {
  nx_logger : option Writer; nx_format : bytes; nx_ipCryptConfig : option IPCryptConfig;
}.

Definition qtype_string (t : Z) : bytes := default (fmt_d t) (TypeToString t).

(** The end of [Eval] of both loggers: [None] is the fatal error about the
    format; an error of the write itself is ignored. *)
Definition write_log (line : option bytes) (logger : option Writer)
    : option Writer * option plugin_error :=
  match line with
  | None => (logger, Some PluginPanic)
  | Some line =>
      match logger with
      | None => (None, Some PluginFailed)
      | Some w => (Some (write_line line w).1, None)
      end
  end.

Definition PluginNxLog_Eval `{IPCryptLib} (now : LocalTime) (tweak : Z -> option bytes)
    : Plugin PluginNxLog := fun plugin ps msg =>
  if negb (Rcode_ (MH msg) =? RcodeNameError) then (None, plugin, ps, msg)
  else match ExtractClientIPStrEncrypted ps (nx_ipCryptConfig plugin) tweak with
  | None => (None, plugin, ps, msg)
  | Some clientIPStr =>
      match Questions msg with
      | [] => (Some PluginPanic, plugin, ps, msg)
      | question :: _ =>
          let qType := qtype_string (q_Type question) in
          let line :=
            if bool_decide (nx_format plugin = str "tsv") then
              Some (timestamp now ++ tab ++ clientIPStr ++ tab ++ quote (qName ps) ++ tab ++ qType
                    ++ newline)
            else if bool_decide (nx_format plugin = str "ltsv") then
              Some (str "time:" ++ fmt_d (lt_unix now) ++ tab ++ str "host:" ++ clientIPStr
                    ++ tab ++ str "message:" ++ quote (qName ps) ++ tab ++ str "type:" ++ qType
                    ++ newline)
            else None in
          let '(logger, err) := write_log line (nx_logger plugin) in
          (err, {| nx_logger := logger; nx_format := nx_format plugin;
                   nx_ipCryptConfig := nx_ipCryptConfig plugin |}, ps, msg)
      end
  end.

(** ** The query log (plugin_query_log.go) *)

Record PluginQueryLog := {
  ql_logger : option Writer; ql_format : bytes; ignoredQtypes : list bytes;
  ql_ipCryptConfig : option IPCryptConfig;
}.

(** [strings.EqualFold]. *)
Definition EqualFold (s t : bytes) : bool :=
  if is_ascii s && is_ascii t then bool_decide (ascii_lower s = ascii_lower t)
  else unicode_equal_fold s t.

(** The duration that is logged: capped, to cope with a system that was asleep. *)
Definition log_duration (ps : PluginsState) : Duration :=
  let requestDuration :=
    if negb (IsZero (requestStart ps)) && negb (IsZero (requestEnd ps))
    then time_sub (requestEnd ps) (requestStart ps) else ps_timeout ps in
  let triedUDPTCPTimeout := 4 * ps_timeout ps in
  if requestDuration >? triedUDPTCPTimeout then triedUDPTCPTimeout else requestDuration.

Definition PluginQueryLog_Eval `{IPCryptLib} (now : LocalTime) (tweak : Z -> option bytes)
    : Plugin PluginQueryLog := fun plugin ps msg =>
  match ExtractClientIPStrEncrypted ps (ql_ipCryptConfig plugin) tweak with
  | None => (None, plugin, ps, msg)
  | Some clientIPStr =>
      match Questions msg with
      | [] => (Some PluginPanic, plugin, ps, msg)
      | question :: _ =>
          let qType := qtype_string (q_Type question) in
          if existsb (fun ignored => EqualFold ignored qType) (ignoredQtypes plugin)
          then (None, plugin, ps, msg)
          else
            let ps :=
              if cacheHit ps then set_serverName (str "-") ps
              else match returnCode ps with
              | PluginsReturnCodeSynth | PluginsReturnCodeCloak | PluginsReturnCodeParseError =>
                  set_serverName (str "-") ps
              | _ => ps
              end in
            let returnCode := PluginsReturnCodeToString (returnCode ps) in
            let requestDuration := log_duration ps in
            let relayName := if bool_decide (relayName ps = []) then str "-" else relayName ps in
            let ms := fmt_d (go_div requestDuration Millisecond) in
            let line :=
              if bool_decide (ql_format plugin = str "tsv") then
                Some (timestamp now ++ tab ++ clientIPStr ++ tab ++ quote (qName ps) ++ tab ++ qType
                      ++ tab ++ returnCode ++ tab ++ ms ++ str "ms" ++ tab ++ quote (serverName ps)
                      ++ tab ++ quote relayName ++ newline)
              else if bool_decide (ql_format plugin = str "ltsv") then
                Some (str "time:" ++ fmt_d (lt_unix now) ++ tab ++ str "host:" ++ clientIPStr
                      ++ tab ++ str "message:" ++ quote (qName ps) ++ tab ++ str "type:" ++ qType
                      ++ tab ++ str "return:" ++ returnCode
                      ++ tab ++ str "cached:" ++ (if cacheHit ps then str "1" else str "0")
                      ++ tab ++ str "duration:" ++ ms ++ tab ++ str "server:" ++ quote (serverName ps)
                      ++ tab ++ str "relay:" ++ quote relayName ++ newline)
              else None in
            let '(logger, err) := write_log line (ql_logger plugin) in
            (err, {| ql_logger := logger; ql_format := ql_format plugin;
                     ignoredQtypes := ignoredQtypes plugin;
                     ql_ipCryptConfig := ql_ipCryptConfig plugin |}, ps, msg)
      end
  end.
End log.
