(* ===== verification/RuleLogProps.v ===== *)
(** * Properties of the logs

    Text that comes from the network cannot break out of its field of a log
    line, and an encrypted address can be decrypted. *)

From S2P Require Import Prelude GoStrings NetIP NetIPProps Common Crypto Dns DnsUtils Metrics Plugins RuleLog.

(** ** Hexadecimal text *)

Lemma hex_decode_encode bs : are_bytes bs -> hex_DecodeString (hex_EncodeToString bs) = Some bs.
Proof.
  unfold hex_EncodeToString. induction 1 as [|b bs Hb _ IH]; [done|]. csimpl. rewrite IH.
  change (Z.land b 15) with (Z.land b (Z.ones 4)).
  rewrite Z.shiftr_div_pow2, (Z.land_ones b 4) by lia. change (2 ^ 4) with 16. unfold is_byte in Hb.
  rewrite !hex_value_digit by (Z.to_euclidean_division_equations; lia).
  simpl. do 2 f_equal. Z.to_euclidean_division_equations; lia.
Qed.

(** ** Addresses in the logs *)

(** What the ipcrypt library documents: the ciphers return addresses and bytes,
    and decryption with the same key undoes encryption. *)
Class IPCryptLaws (L : IPCryptLib) := {
  deterministic_inverse : forall key ip e, ipcrypt_EncryptIP key ip = Some e ->
    are_bytes e /\ exists e16 d, To16 e = Some e16 /\ ipcrypt_DecryptIP key e16 = Some d /\
      ip_String d = ip_String ip;
  pfx_inverse : forall key ip e, ipcrypt_EncryptIPPfx ip key = Some e ->
    are_bytes e /\ exists e16 d, To16 e = Some e16 /\ ipcrypt_DecryptIPPfx e16 key = Some d /\
      ip_String d = ip_String ip;
  nd_inverse : forall key s t e, ipcrypt_EncryptIPNonDeterministic s key t = Some e ->
    are_bytes e /\ ipcrypt_DecryptIPNonDeterministic e key = Some s;
  ndx_inverse : forall key s t e, ipcrypt_EncryptIPNonDeterministicX s key t = Some e ->
    are_bytes e /\ ipcrypt_DecryptIPNonDeterministicX e key = Some s;
}.

Lemma ParseIP_To16 e e16 : are_bytes e -> To16 e = Some e16 -> ParseIP (ip_String e) = Some e16.
Proof.
  intros He. unfold To16. destruct (Nat.eqb_spec (length e) 4) as [H4|].
  - intros [= <-]. destruct e as [|a [|b [|c [|d [|]]]]]; try discriminate. by apply ParseIP_string_v4.
  - destruct (Nat.eqb_spec (length e) 16); [|done]. intros [= <-]. by apply ParseIP_ip_String.
Qed.

Lemma ip_String_not_nil ip : are_bytes ip -> length ip = 16%nat -> ip_String ip <> [].
Proof. intros H1 H2 H3. pose proof (ParseIP_ip_String ip H1 H2) as H. by rewrite H3 in H. Qed.

Section ipcrypt.
Context `{L : IPCryptLib} `{!IPCryptLaws L}.

Lemma DecryptIP_EncryptIP cfg tweak ip e :
  EncryptIP (Some cfg) tweak ip = Ok e -> DecryptIP (Some cfg) e = Ok (ip_String ip).
Proof.
  unfold EncryptIP, DecryptIP. repeat case_bool_decide; try done.
  - destruct (ipcrypt_EncryptIP (Key cfg) ip) as [c|] eqn:E; intros H'; simplify_eq/=.
    apply deterministic_inverse in E as (Hb & e16 & d & H16 & Hd & Hs).
    by rewrite (ParseIP_To16 c e16), Hd, Hs.
  - destruct (tweak 8) as [t|]; intros H'; simplify_eq/=. case_match eqn:E; simplify_eq/=.
    apply nd_inverse in E as [Hb Hd]. by rewrite hex_decode_encode, Hd.
  - destruct (tweak 16) as [t|]; intros H'; simplify_eq/=. case_match eqn:E; simplify_eq/=.
    apply ndx_inverse in E as [Hb Hd]. by rewrite hex_decode_encode, Hd.
  - destruct (ipcrypt_EncryptIPPfx ip (Key cfg)) as [c|] eqn:E; intros H'; simplify_eq/=.
    apply pfx_inverse in E as (Hb & e16 & d & H16 & Hd & Hs).
    by rewrite (ParseIP_To16 c e16), Hd, Hs.
Qed.

(** An address that the logs show encrypted can be recovered: for every
    configured algorithm, the text [EncryptIPString] produces from the text of an
    address is what [EncryptIP] computes, and [DecryptIP] with the same
    configuration gives the text of the address back. *)
Theorem ipcrypt_roundtrip cfg tweak ip e :
  are_bytes ip -> length ip = 16%nat -> EncryptIP (Some cfg) tweak ip = Ok e ->
  EncryptIPString (Some cfg) tweak (ip_String ip) = e /\ DecryptIP (Some cfg) e = Ok (ip_String ip).
Proof.
  intros Hb Hl He. split; [|by eapply DecryptIP_EncryptIP].
  unfold EncryptIPString. rewrite !bool_decide_false by (done || by apply ip_String_not_nil).
  cbn [orb]. by rewrite ParseIP_ip_String, He.
Qed.
End ipcrypt.

(** A configuration the constructor accepts names one of the algorithms and has
    a key of its length. *)
Lemma NewIPCryptConfig_wf lower keyHex alg cfg : NewIPCryptConfig lower keyHex alg = Ok (Some cfg) ->
  hex_DecodeString keyHex = Some (Key cfg) /\
  (((Algorithm cfg = alg_deterministic \/ Algorithm cfg = alg_nd) /\ len (Key cfg) = 16) \/
   ((Algorithm cfg = alg_ndx \/ Algorithm cfg = alg_pfx) /\ len (Key cfg) = 32)).
Proof.
  unfold NewIPCryptConfig. destruct (hex_DecodeString keyHex) as [key|]; [|by repeat case_bool_decide].
  repeat case_bool_decide; try done; destruct (negb _) eqn:E; intros H'; simplify_eq/=; bools; auto 6.
Qed.

(** ** Fields of a log line *)

(** Text that contains neither a tab nor a line feed. *)
Definition clean (s : bytes) : Prop := 9 ∉ s /\ 10 ∉ s.

Lemma clean_app s t : clean (s ++ t) <-> clean s /\ clean t.
Proof. unfold clean. set_solver. Qed.

Lemma clean_forall (P : Z -> Prop) s : Forall P s -> ~ P 9 -> ~ P 10 -> clean s.
Proof. rewrite Forall_forall. intros H H9 H10. split; intros Hin; [by apply H9, H|by apply H10, H]. Qed.

Lemma clean_itoa n : clean (itoa n).
Proof. apply (clean_forall (fun c => 48 <= c <= 57)); [apply itoa_digits|lia..]. Qed.

Lemma clean_fmt_d n : clean (fmt_d n).
Proof.
  unfold fmt_d. destruct (n <? 0); [|apply clean_itoa].
  apply (clean_app [45]). split; [unfold clean; set_solver|apply clean_itoa].
Qed.

Lemma clean_fmt_02d n : clean (fmt_02d n).
Proof.
  unfold fmt_02d. destruct (in_range 0 9 n); [|apply clean_fmt_d].
  apply (clean_app [48]). split; [unfold clean; set_solver|apply clean_itoa].
Qed.

Lemma clean_timestamp t : clean (timestamp t).
Proof.
  unfold timestamp. rewrite !clean_app.
  split_and!; try (unfold clean, str; simpl; set_solver); first [apply clean_fmt_d | apply clean_fmt_02d].
Qed.

Lemma quote_byte_clean b : 0 <= b < 128 -> clean (quote_byte b).
Proof.
  intros H. pose proof (check_below (fun b => bool_decide (9 ∉ quote_byte b) && bool_decide (10 ∉ quote_byte b)) 128 b)
    as Hc. cbv beta in Hc. rewrite andb_true_iff, !bool_decide_eq_true in Hc.
  apply Hc; [reflexivity|done].
Qed.

Lemma StringQuote_clean unicode_quote s : are_bytes s -> (forall s, clean (unicode_quote s)) ->
  clean (StringQuote unicode_quote s).
Proof.
  intros Hs Hq. unfold StringQuote. destruct (is_ascii s) eqn:E; [|apply Hq].
  unfold is_ascii in E. rewrite forallb_forall in E. unfold RuneSelf in E.
  induction Hs as [|b s Hb Hs IH]; [unfold clean; csimpl; set_solver|]. csimpl. apply clean_app. split.
  - apply quote_byte_clean. unfold is_byte in Hb. specialize (E b (or_introl eq_refl)). lia.
  - apply IH. intros x Hx. apply E. by right.
Qed.

Lemma Split_fields (fields : list bytes) f : Forall clean (f :: fields) ->
  Split (f ++ (fields ≫= fun g => tab ++ g)) 9 = f :: fields.
Proof.
  revert f. induction fields as [|g fields IH]; intros f Hf; apply Forall_cons in Hf as [[H9 _] Hf].
  - csimpl. rewrite app_nil_r. by apply Split_none.
  - csimpl. rewrite Split_app by done. f_equal. by apply IH.
Qed.

Lemma fields_no_newline (fields : list bytes) : Forall clean fields -> 10 ∉ (fields ≫= fun g => tab ++ g).
Proof.
  induction 1 as [|g fields [_ Hg] _ IH]; [csimpl; set_solver|]. csimpl. unfold tab. set_solver.
Qed.

(** What the logs are called with: the client's address, clean text, and names,
    reasons and fields that are bytes. *)
Section injection.
Context (unicode_quote : bytes -> bytes) (Hquote : forall s, clean (unicode_quote s)).
Notation quote := (StringQuote unicode_quote).

Lemma list_bind_fmap_quote (fields : list bytes) :
  (fields ≫= fun g => tab ++ quote g) = ((quote <$> fields) ≫= fun g => tab ++ g).
Proof. induction fields as [|f fields IH]; [done|]. csimpl in *. by rewrite IH. Qed.

Lemma FormatLogLine_fields now clientIP qName reason fields line :
  clean clientIP -> are_bytes qName -> are_bytes reason -> Forall are_bytes fields ->
  FormatLogLine unicode_quote now (str "tsv") clientIP qName reason fields = Some line ->
  exists body, line = body ++ newline /\ 10 ∉ body /\
    Split body 9 = timestamp now :: clientIP :: (quote <$> qName :: reason :: fields).
Proof.
  intros Hc Hq Hr Hf Hline. unfold FormatLogLine in Hline. rewrite bool_decide_true in Hline by done.
  apply (inj Some) in Hline. subst line.
  set (fs := clientIP :: (quote <$> qName :: reason :: fields)).
  assert (Forall clean (timestamp now :: fs)) as Hclean.
  { constructor; [apply clean_timestamp|]. constructor; [done|]. apply Forall_fmap.
    repeat constructor; [by apply StringQuote_clean..|]. eapply Forall_impl; [exact Hf|].
    intros s Hs. by apply StringQuote_clean. }
  exists (timestamp now ++ (fs ≫= fun g => tab ++ g)). split_and!.
  - unfold fs. rewrite list_bind_fmap_quote. generalize (timestamp now) as ts. intros ts. csimpl.
    repeat (rewrite <- !app_assoc; cbn [app]).
    done.
  - apply Forall_cons in Hclean as [[_ H1] H2]. apply not_elem_of_app. split; [done|].
    by apply fields_no_newline.
  - by apply Split_fields.
Qed.

Context `{L : IPCryptLib} `{!IPCryptLaws L}.

Lemma ip_String_To16 ip ip16 : To16 ip = Some ip16 -> ip_String ip16 = ip_String ip.
Proof.
  unfold To16. destruct (Nat.eqb_spec (length ip) 4) as [H4|].
  - intros [= <-]. destruct ip as [|a [|b [|c [|d [|]]]]]; try discriminate. done.
  - destruct (_ =? 16)%nat; [by intros [= <-]|done].
Qed.

Lemma To16_typed ip ip16 : are_bytes ip -> To16 ip = Some ip16 -> are_bytes ip16 /\ length ip16 = 16%nat.
Proof.
  intros H. unfold To16. destruct (Nat.eqb_spec (length ip) 4) as [H4|].
  - intros Hi%(inj Some). subst ip16. split; [|rewrite length_app, H4; done].
    apply Forall_app. split; [by apply (bool_decide_unpack _)|done].
  - destruct (Nat.eqb_spec (length ip) 16); [by intros [= <-]|done].
Qed.

Lemma ip_String_clean ip : are_bytes ip -> is_Some (To16 ip) -> clean (ip_String ip).
Proof.
  intros H [ip16 H16]. rewrite <- (ip_String_To16 ip ip16) by done.
  destruct (To16_typed ip ip16 H H16). apply (clean_forall ip_char); [by apply ip_String_chars|..];
    unfold ip_char; lia.
Qed.

Lemma hex_clean bs : are_bytes bs -> clean (hex_EncodeToString bs).
Proof.
  unfold hex_EncodeToString. induction 1 as [|b bs Hb _ IH]; [unfold clean; csimpl; set_solver|]. csimpl.
  change (Z.land b 15) with (Z.land b (Z.ones 4)).
  rewrite Z.shiftr_div_pow2, (Z.land_ones b 4) by lia. change (2 ^ 4) with 16. unfold is_byte in Hb.
  pose proof (hex_digit_char (b / 16)) as H1. pose proof (hex_digit_char (b mod 16)) as H2.
  destruct IH as [I1 I2]. split; rewrite !not_elem_of_cons; split_and!; try done;
    Z.to_euclidean_division_equations; lia.
Qed.

Lemma EncryptIPString_clean cfg tweak ip : are_bytes ip -> is_Some (To16 ip) ->
  clean (EncryptIPString (Some cfg) tweak (ip_String ip)).
Proof.
  intros Hb H16. pose proof (ip_String_clean ip Hb H16) as Hclean. unfold EncryptIPString.
  case_bool_decide; [done|]. case_bool_decide; [done|]. cbn [orb].
  destruct (ParseIP (ip_String ip)) as [a|]; [|done]. unfold EncryptIP.
  assert (clean (str "[encrypted]")) by (unfold clean; vm_compute; set_solver).
  repeat case_bool_decide; try done.
  - destruct (ipcrypt_EncryptIP _ a) eqn:E; [|done].
    apply deterministic_inverse in E as (? & ? & ? & ? & _). apply ip_String_clean; eauto.
  - destruct (tweak 8); [|done]. simpl.
    destruct (ipcrypt_EncryptIPNonDeterministic _ _ _) eqn:E; [|done]. apply nd_inverse in E as [? _].
    by apply hex_clean.
  - destruct (tweak 16); [|done]. simpl.
    destruct (ipcrypt_EncryptIPNonDeterministicX _ _ _) eqn:E; [|done]. apply ndx_inverse in E as [? _].
    by apply hex_clean.
  - destruct (ipcrypt_EncryptIPPfx a _) eqn:E; [|done].
    apply pfx_inverse in E as (? & ? & ? & ? & _). apply ip_String_clean; eauto.
Qed.

Lemma client_clean ps cfg tweak s : (forall ip, clientAddr ps = Some ip -> are_bytes ip /\ is_Some (To16 ip)) ->
  ExtractClientIPStrEncrypted ps cfg tweak = Some s -> clean s.
Proof.
  unfold ExtractClientIPStrEncrypted, ExtractClientIPStr. intros H.
  destruct (clientAddr ps) as [ip|]; [|done]. destruct (H ip eq_refl) as [Hb H16].
  destruct (clientProto ps), cfg; intros [= <-];
    first [by apply ip_String_clean | by apply EncryptIPString_clean].
Qed.

(** Text from the network cannot forge log entries: when a rule plugin logs
    a query in the [tsv] format and reports no error, exactly one line is added to
    the log file; whatever bytes the name, the reason and the additional fields
    hold, its only line feed ends it, and it splits at its tabs into exactly the
    time, the client's address (possibly encrypted) and one quoted text per
    field. *)
Theorem log_rule_line now tweak cfg w ps qName reason fields logger :
  (forall ip, clientAddr ps = Some ip -> are_bytes ip /\ is_Some (To16 ip)) ->
  are_bytes qName -> are_bytes reason -> Forall are_bytes fields ->
  log_rule unicode_quote now tweak cfg (Some w) (str "tsv") ps qName reason fields = (logger, None, false) ->
  exists w' body client, logger = Some w' /\ written w' = written w ++ [body ++ newline] /\
    ExtractClientIPStrEncrypted ps cfg tweak = Some client /\ 10 ∉ body /\
    Split body 9 = timestamp now :: client :: (quote <$> qName :: reason :: fields).
Proof.
  intros Haddr Hq Hr Hf. unfold log_rule, WritePluginLog.
  destruct (ExtractClientIPStrEncrypted ps cfg tweak) as [client|] eqn:Ec; [|done].
  destruct (FormatLogLine _ _ _ _ _ _ _) as [line|] eqn:El; [|done].
  apply client_clean in Ec as Hc; [|done].
  destruct (FormatLogLine_fields _ _ _ _ _ _ Hc Hq Hr Hf El) as (body & -> & Hn & Hs).
  unfold write_line. destruct (accepts w _); [|done]. intros [= <-].
  eexists _, body, client. split_and!; done.
Qed.
End injection.

(** ** Witnesses *)

(** Ciphers that reverse the bytes of an address. *)
Definition reversing_lib : IPCryptLib := {|
  ipcrypt_EncryptIP key ip := if bool_decide (are_bytes ip /\ length ip = 16%nat) then Some (reverse ip) else None;
  ipcrypt_DecryptIP key e := Some (reverse e);
  ipcrypt_EncryptIPNonDeterministic s key t := if bool_decide (are_bytes s) then Some (reverse s) else None;
  ipcrypt_DecryptIPNonDeterministic e key := Some (reverse e);
  ipcrypt_EncryptIPNonDeterministicX s key t := if bool_decide (are_bytes s) then Some (reverse s) else None;
  ipcrypt_DecryptIPNonDeterministicX e key := Some (reverse e);
  ipcrypt_EncryptIPPfx ip key := if bool_decide (are_bytes ip /\ length ip = 16%nat) then Some (reverse ip) else None;
  ipcrypt_DecryptIPPfx e key := Some (reverse e);
|}.

Lemma reversing_laws : IPCryptLaws reversing_lib.
Proof.
  split; simpl.
  1,2: intros ? ? ?; case_bool_decide as H; [intros [= <-]|done].
  3,4: intros ? ? ? ?; case_bool_decide as H; [intros [= <-]|done].
  1,2: destruct H as [Hb Hl]; split; [by apply Forall_reverse|]; eexists _, _; split_and!; [|done|];
    [unfold To16; rewrite length_reverse, Hl; done|by rewrite reverse_involutive].
  all: split; [by apply Forall_reverse|by rewrite reverse_involutive].
Qed.

Definition sample_ip : bytes := [32; 1; 13; 184; 0; 0; 0; 0; 0; 0; 0; 0; 0; 0; 0; 1].
Definition sample_nd_config : IPCryptConfig := {| Key := replicate 16 7; Algorithm := alg_nd |}.

Lemma ipcrypt_roundtrip_witness :
  let e := EncryptIPString (L := reversing_lib) (Some sample_nd_config) (fun n => Some (replicate (Z.to_nat n) 1))
             (str "2001:db8::1") in
  e = str "313a3a3862643a31303032" /\
  DecryptIP (L := reversing_lib) (Some sample_nd_config) e = Ok (str "2001:db8::1").
Proof.
  destruct (ipcrypt_roundtrip (L := reversing_lib) (IPCryptLaws0 := reversing_laws) sample_nd_config
    (fun n => Some (replicate (Z.to_nat n) 1)) sample_ip (str "313a3a3862643a31303032"))
    as [H1 H2]; [by apply (bool_decide_unpack _)|reflexivity|vm_compute; reflexivity|].
  exact (conj H1 H2).
Defined.

Definition sample_writer : Writer := {| accepts _ := true; written := [] |}.
Definition sample_time : LocalTime :=
  {| lt_year := 2024; lt_month := 3; lt_day := 9; lt_hour := 7; lt_minute := 5; lt_second := 1;
     lt_weekday := 6; lt_unix := 1709967901 |}.
Definition sample_ttls : ProxyTTLs :=
  {| p_cacheNegMinTTL := 60; p_cacheNegMaxTTL := 600; p_cacheMinTTL := 2400; p_cacheMaxTTL := 86400;
     p_rejectTTL := 10; p_timeout := 5 * Second |}.
Definition sample_client_state : PluginsState :=
  NewPluginsState sample_ttls client_udp (Some [10; 0; 0; 1]) udp 1.

Lemma log_rule_line_witness :
  exists body, Split body 9 =
    [timestamp sample_time; str "10.0.0.1"; str "a\tb\n.com"; str "*.com"; str "1.2.3.4"] /\ 10 ∉ body.
Proof.
  destruct (log_rule_line (fun _ => []) ltac:(intros s; split; apply not_elem_of_nil) (L := reversing_lib)
    (IPCryptLaws0 := reversing_laws) sample_time (fun _ => None) None sample_writer sample_client_state
    [97; 9; 98; 10; 46; 99; 111; 109] (str "*.com") [str "1.2.3.4"]
    (log_rule (H := reversing_lib) (fun _ => []) sample_time (fun _ => None) None (Some sample_writer) (str "tsv")
       sample_client_state [97; 9; 98; 10; 46; 99; 111; 109] (str "*.com") [str "1.2.3.4"]).1.1)
    as (w' & body & client & _ & _ & Hc & Hn & Hs).
  - intros ip [= <-]. split; [by apply (bool_decide_unpack _)|]. eexists. reflexivity.
  - by apply (bool_decide_unpack _).
  - by apply (bool_decide_unpack _).
  - by apply (bool_decide_unpack _).
  - reflexivity.
  - exists body. split; [|exact Hn]. rewrite Hs. vm_compute in Hc. injection Hc as <-. reflexivity.
Defined.
