(* ===== verification/Reload.v ===== *)
(** * Reloading of rule files (reload_utils.go, config_watcher.go, hot_reload.go)

    A plugin with a rule file loads new rules beside the active ones and swaps
    them in once they are complete.  [ReloadablePlugin] is the interface of such
    plugins; its laws are proved by each of them, and what a reload guarantees is
    proved once, against the interface.  The watcher of the files calls the
    reload function of a plugin when it finds its file changed and stable. *)

From S2P Require Import Prelude GoStrings Common.

(** ** Files *)

Record File := { f_content : bytes; f_mod : Time; f_isDir : bool }.

(** What the [n]-th access to the file system finds under a path; nothing is
    assumed about who changes files between two accesses. *)
Definition FS : Type := nat -> bytes -> option File.

(** [os.ReadFile] fails on directories. *)
Definition ReadFile (fs : FS) (t : nat) (path : bytes) : option bytes :=
  file ← fs t path; if f_isDir file then None else Some (f_content file).

(** [ReloadPanic] is a run-time panic.  It is not an error that is reported: nothing in the program
    recovers from it, so that it ends the process, and what follows it is not executed. *)
Inductive reload_error :=
| FileUnreadable | FileChanging | NoExistingConfig | BadConfig | ReloadPanic | NoStagedConfig
| EmptyPath | IsDirectory | NoAbsolutePath | WatchFailed.

#[global] Instance reload_error_eq_dec : EqDecision reload_error.
Proof. solve_decision. Defined.

(** Two readings, at [t] and [t + 1]. *)
Definition SafeReadTextFile (fs : FS) (t : nat) (filePath : bytes) : result reload_error bytes :=
  match ReadFile fs t filePath with
  | None => Err FileUnreadable
  | Some bin =>
      let content := ReadTextFile bin in
      match ReadFile fs (S t) filePath with
      | None => Err FileUnreadable
      | Some bin2 =>
          let content2 := ReadTextFile bin2 in
          if negb (bool_decide (content = content2)) then Err FileChanging else Ok content
      end
  end.

(** ** The reload patterns *)

(** An operation on a plugin that may report an error. *)
Notation op P := (P -> P * option reload_error).

Definition StandardReloadPattern {P} (reloadFunc : op P) : op P := fun p =>
  match reloadFunc p with
  | (p, Some e) => (p, Some e)
  | (p, None) => (p, None)
  end.

Definition StandardPrepareReloadPattern {P} (fs : FS) (t : nat) (configFile : bytes)
    (prepareFunc : bytes -> op P) : op P := fun p =>
  match SafeReadTextFile fs t configFile with
  | Err e => (p, Some e)
  | Ok lines =>
      match prepareFunc lines p with
      | (p, Some e) => (p, Some e)
      | (p, None) => (p, None)
      end
  end.

Definition StandardApplyReloadPattern {P} (applyFunc : op P) : op P := fun p =>
  match applyFunc p with
  | (p, Some e) => (p, Some e)
  | (p, None) => (p, None)
  end.

(** ** Reloadable plugins *)

(** The interface of the source, with what is observable of the rules: those in
    use and those prepared. *)
Class ReloadablePlugin (P R : Type) := {
  activeRules : P -> option R;
  stagedRules : P -> option R;
  GetConfigPath : P -> bytes;
  PrepareReload : FS -> nat -> op P;
  ApplyReload : op P;
  CancelReload : P -> P;
  Reload : FS -> nat -> op P;
}.

(** The body every plugin's [Reload] has. *)
Definition reload_body {P} (prepare : op P) (cancel : P -> P) (apply : op P) : op P :=
  StandardReloadPattern (fun p =>
    match prepare p with
    | (p, Some ReloadPanic) => (p, Some ReloadPanic)
    | (p, Some e) => (cancel p, Some e)
    | (p, None) => apply p
    end).

(** What the operations promise; [load] is the loader of the plugin's rules. *)
Class ReloadableLaws (P R : Type) `{I : ReloadablePlugin P R}
    (load : P -> bytes -> result reload_error R) := {
  prepare_keeps : forall fs t p p' err, PrepareReload fs t p = (p', err) ->
    activeRules p' = activeRules p /\ GetConfigPath p' = GetConfigPath p;
  prepare_result : forall fs t p,
    match SafeReadTextFile fs t (GetConfigPath p) with
    | Err e => (PrepareReload fs t p).2 = Some e
    | Ok lines =>
        match load p lines with
        | Err e => (PrepareReload fs t p).2 = Some e
        | Ok r => (PrepareReload fs t p).2 = None /\ stagedRules (PrepareReload fs t p).1 = Some r
        end
    end;
  apply_result : forall p, match stagedRules p with
    | Some r => (ApplyReload p).2 = None /\ activeRules (ApplyReload p).1 = Some r /\
        stagedRules (ApplyReload p).1 = None /\ GetConfigPath (ApplyReload p).1 = GetConfigPath p
    | None => ApplyReload p = (p, Some NoStagedConfig)
    end;
  cancel_result : forall p, activeRules (CancelReload p) = activeRules p /\
    stagedRules (CancelReload p) = None /\ GetConfigPath (CancelReload p) = GetConfigPath p;
  reload_result : forall fs t p,
    Reload fs t p = reload_body (PrepareReload fs t) CancelReload ApplyReload p;
}.

Section atomic.
Context {P R : Type} `{I : ReloadablePlugin P R} (load : P -> bytes -> result reload_error R).
Context `{!ReloadableLaws P R load}.

(** The outcome of a reload.  Nothing is said of the plugin after a panic, which ends the
    process. *)
Definition reload_outcome (fs : FS) (t : nat) (p p' : P) (err : option reload_error) : Prop :=
  match SafeReadTextFile fs t (GetConfigPath p) ≫= load p with
  | Ok r => err = None /\ stagedRules p' = None /\ GetConfigPath p' = GetConfigPath p /\ activeRules p' = Some r
  | Err ReloadPanic => err = Some ReloadPanic
  | Err e => err = Some e /\ stagedRules p' = None /\ GetConfigPath p' = GetConfigPath p /\ activeRules p' = activeRules p
  end.

Lemma reload_spec fs t p p' err : Reload fs t p = (p', err) -> reload_outcome fs t p p' err.
Proof.
  rewrite reload_result. unfold reload_body, StandardReloadPattern, reload_outcome.
  pose proof (prepare_result fs t p) as Hr.
  destruct (PrepareReload fs t p) as [p1 err1] eqn:E. apply prepare_keeps in E as [Ha Hc]. simpl in Hr.
  assert (forall e, err1 = Some e ->
    (let '(p2, o) := match e with ReloadPanic => (p1, Some ReloadPanic) | e => (CancelReload p1, Some e) end in
     match o with Some e => (p2, Some e) | None => (p2, None) end) = (p', err) ->
    match e with
    | ReloadPanic => err = Some ReloadPanic
    | e => err = Some e /\ stagedRules p' = None /\ GetConfigPath p' = GetConfigPath p /\ activeRules p' = activeRules p
    end) as Herr.
  { intros e _. destruct (cancel_result p1) as (H1 & H2 & H3). destruct e; intros [= <- <-]; by rewrite ?H1, ?H2, ?H3. }
  destruct (SafeReadTextFile _ _ _) as [lines|e]; [|subst err1; cbn; intros H; apply (Herr e eq_refl); by destruct e].
  cbn [mbind result_bind]. destruct (load p lines) as [r|e]; [|subst err1; intros H; apply (Herr e eq_refl); by destruct e].
  destruct Hr as [-> Hs]. pose proof (apply_result p1) as Hap. rewrite Hs in Hap.
  destruct (ApplyReload p1) as [p2 err2]. simpl in Hap. destruct Hap as (-> & H1 & H2 & H3).
  intros [= <- <-]. by rewrite H3, Hc.
Qed.
End atomic.

(** ** The watcher (config_watcher.go) *)

Section watcher.
Context (sha256 : bytes -> bytes).
(** [filepath.Abs]; the state the reload functions work on. *)
Context (Abs : bytes -> option bytes) {W : Type}.

Record WatchedFile := {
  wf_path : bytes; lastHash : bytes; lastSize : Z; lastMod : Time;
  reloadFunc : FS -> nat -> op W;
}.

Record ConfigWatcher := { watchedFiles : gmap bytes WatchedFile }.

Definition getFileHash (fs : FS) (t : nat) (path : bytes) : option bytes :=
  content ← ReadFile fs t path; Some (sha256 content).

Definition loaded (wf : WatchedFile) (hash : bytes) (size : Z) (mod_ : Time) : WatchedFile :=
  {| wf_path := wf_path wf; lastHash := hash; lastSize := size; lastMod := mod_;
     reloadFunc := reloadFunc wf |}.

(** [checkFile]: the accesses at [t], ..., [t + 3], and those of the reload
    function from [t + 4] on.  [None]: the reload function has panicked, and the process has ended. *)
Definition checkFile (fs : FS) (t : nat) (wf : WatchedFile) (w : W) : option (WatchedFile * W) :=
  match fs t (wf_path wf) with
  | None => Some (wf, w)
  | Some fileInfo =>
      let size1 := len (f_content fileInfo) in
      match getFileHash fs (t + 1) (wf_path wf) with
      | None => Some (wf, w)
      | Some hash1 =>
          match fs (t + 2)%nat (wf_path wf) with
          | None => Some (wf, w)
          | Some fileInfo =>
              let size2 := len (f_content fileInfo) in
              match getFileHash fs (t + 3) (wf_path wf) with
              | None => Some (wf, w)
              | Some hash2 =>
                  if negb (size1 =? size2) || negb (bool_decide (hash1 = hash2)) then Some (wf, w)
                  else if (lastSize wf =? size2) && bool_decide (lastHash wf = hash2) then
                    Some (loaded wf (lastHash wf) (lastSize wf) (f_mod fileInfo), w)
                  else
                    match reloadFunc wf fs (t + 4)%nat w with
                    | (_, Some ReloadPanic) => None
                    | (w, Some _) => Some (wf, w)
                    | (w, None) => Some (loaded wf hash2 size2 (f_mod fileInfo), w)
                    end
              end
          end
      end
  end.

Definition handleModifyEvent (fs : FS) (t : nat) (path : bytes) (cw : ConfigWatcher) (w : W)
    : option (ConfigWatcher * W) :=
  match Abs path with
  | None => Some (cw, w)
  | Some absPath =>
      match watchedFiles cw !! absPath with
      | None => Some (cw, w)
      | Some wf =>
          '(wf, w) ← checkFile fs t wf w;
          Some ({| watchedFiles := <[absPath := wf]> (watchedFiles cw) |}, w)
      end
  end.

(** The accesses at [t] and [t + 1].  [watch] is the registration of the directory
    with the notification service. *)
Definition AddFile (fs : FS) (t : nat) (watch : bytes -> bool) (path : bytes)
    (reloadFunc : option (FS -> nat -> op W)) (cw : ConfigWatcher) : ConfigWatcher * option reload_error :=
  if bool_decide (path = []) then (cw, Some EmptyPath)
  else match reloadFunc with
  | None => (cw, Some NoExistingConfig)
  | Some reload =>
      match Abs path with
      | None => (cw, Some NoAbsolutePath)
      | Some absPath =>
          match fs t absPath with
          | None => (cw, Some FileUnreadable)
          | Some fileInfo =>
              if f_isDir fileInfo then (cw, Some IsDirectory)
              else match getFileHash fs (t + 1) absPath with
              | None => (cw, Some FileUnreadable)
              | Some hash =>
                  let wf := {| wf_path := absPath; lastHash := hash; lastSize := len (f_content fileInfo);
                               lastMod := f_mod fileInfo; reloadFunc := reload |} in
                  let cw := {| watchedFiles := <[absPath := wf]> (watchedFiles cw) |} in
                  if watch absPath then (cw, None) else (cw, Some WatchFailed)
              end
          end
      end
  end.

Definition RemoveFile (path : bytes) (cw : ConfigWatcher) : ConfigWatcher :=
  match Abs path with
  | None => cw
  | Some absPath => {| watchedFiles := delete absPath (watchedFiles cw) |}
  end.

(** The polling fallback: all watched files in some order, with the number of the
    first access of each check. *)
Fixpoint checkAllFiles (fs : FS) (files : list (nat * bytes)) (cw : ConfigWatcher) (w : W)
    : option (ConfigWatcher * W) :=
  match files with
  | [] => Some (cw, w)
  | (t, path) :: files' =>
      match watchedFiles cw !! path with
      | None => checkAllFiles fs files' cw w
      | Some wf =>
          '(wf, w) ← checkFile fs t wf w;
          checkAllFiles fs files' {| watchedFiles := <[path := wf]> (watchedFiles cw) |} w
      end
  end.
End watcher.
Arguments WatchedFile : clear implicits.
Arguments ConfigWatcher : clear implicits.

(** ** A watched plugin *)

Section watched.
Context (sha256 : bytes -> bytes).
Context {P R : Type} `{I : ReloadablePlugin P R} (load : P -> bytes -> result reload_error R).
Context `{!ReloadableLaws P R load}.

(** What [hot_reload.go] registers for a plugin. *)
Definition watch_entry (path hash : bytes) (size mod_ : Z) : WatchedFile P :=
  {| wf_path := path; lastHash := hash; lastSize := size; lastMod := mod_; reloadFunc := Reload |}.

(** The path holds the file [file] during the accesses from [t] to [t + 5]. *)
Definition stable (fs : FS) (t : nat) (path : bytes) (file : File) : Prop :=
  forall i, (i <= 5)%nat -> fs (t + i)%nat path = Some file.

Lemma stable_read fs t path file i : stable fs t path file -> f_isDir file = false -> (i <= 5)%nat ->
  ReadFile fs (t + i) path = Some (f_content file).
Proof. intros Hs Hd Hi. unfold ReadFile. rewrite (Hs i Hi). cbn. by rewrite Hd. Qed.

Lemma stable_safe_read fs t path file : stable fs t path file -> f_isDir file = false ->
  SafeReadTextFile fs (t + 4) path = Ok (ReadTextFile (f_content file)).
Proof.
  intros Hs Hd. unfold SafeReadTextFile. rewrite (stable_read fs t path file 4) by (done || lia).
  replace (S (t + 4)) with (t + 5)%nat by lia. rewrite (stable_read fs t path file 5) by (done || lia).
  cbv zeta. by rewrite bool_decide_true.
Qed.

(** The watcher applies a changed file exactly when it is complete.  When a
    watched file keeps the same content during a check: if the size and the hash
    are those of the version loaded last, the plugin is left alone; otherwise the
    plugin is reloaded, and either its rules become those of the file and the
    watcher remembers this version, or the file does not load, the old rules stay
    and so does the record of the old version, so that the next check tries
    again; or the loader panics, and the process ends. *)
Theorem checkFile_stable fs t path hash size mod_ p file :
  stable fs t path file -> f_isDir file = false -> GetConfigPath p = path ->
  let content := f_content file in
  let checked := checkFile sha256 fs t (watch_entry path hash size mod_) p in
  if bool_decide (hash = sha256 content /\ size = len content) then
    checked = Some (watch_entry path hash size (f_mod file), p)
  else match load p (ReadTextFile content) with
  | Ok r => exists p', checked = Some (watch_entry path (sha256 content) (len content) (f_mod file), p') /\
      activeRules p' = Some r /\ stagedRules p' = None
  | Err ReloadPanic => checked = None
  | Err e => exists p', checked = Some (watch_entry path hash size mod_, p') /\
      activeRules p' = activeRules p /\ stagedRules p' = None
  end.
Proof.
  intros Hs Hd Hp. cbv zeta. unfold checkFile, getFileHash. cbn [wf_path watch_entry].
  pose proof (Hs 0%nat ltac:(lia)) as H0. rewrite Nat.add_0_r in H0.
  rewrite H0, (Hs 2%nat) by lia. rewrite (stable_read fs t path file 1), (stable_read fs t path file 3)
    by (done || lia). cbn [mbind option_bind]. rewrite Z.eqb_refl, (bool_decide_true (sha256 (f_content file) = sha256 (f_content file))) by done. cbn [negb orb].
  cbn [lastSize lastHash watch_entry].
  destruct (Z.eqb_spec size (len (f_content file))), (bool_decide_reflect (hash = sha256 (f_content file)));
    cbn [andb]; [rewrite bool_decide_true by done; by subst|rewrite bool_decide_false by naive_solver..].
  all: destruct (Reload fs (t + 4)%nat p) as [p' err] eqn:Hr;
    cbn [watch_entry reloadFunc]; rewrite Hr; apply (reload_spec load) in Hr;
    unfold reload_outcome in Hr; rewrite Hp, (stable_safe_read fs t path file Hs Hd) in Hr;
    cbn [mbind result_bind] in Hr; destruct (load p _) as [r|[]];
    try (destruct Hr as (-> & H1 & _ & H2); by exists p'); by rewrite Hr.
Qed.
End watched.
