(* ===== verification/NameLists.v ===== *)
(** * Lists of names (plugin_block_name.go, plugin_allow_name.go)

    The plugins that reject queries and responses by name, and the plugin that
    exempts names from them, with their rule files, time ranges and logs.

    The blocked names are a global variable of the source, shared by the query and
    the response plugin: it is a field of the state both work on.  A log file is
    shared by the active and the staged rules; it is the field [sink], and
    [logger] says whether there is one. *)

From S2P Require Import Prelude GoStrings NetIP NetIPProps Common Crypto Dns DnsUtils Metrics Plugins.
From S2P Require Import Glob PrefixTree PatternMatcher TimeRanges RuleLog Reload.

Definition aliasesLimit : nat := 8.

(** [weeklyRanges.Match()] at a reading of the clock; a nil pointer restricts
    nothing. *)
Definition active_now (now : LocalTime) (w : option WeeklyRanges) : bool :=
  match w with
  | None => true
  | Some w => Match w (lt_weekday now) (lt_hour now) (lt_minute now)
  end.

(** The two readings of the clock of a check: for the time ranges and for the
    log. *)
Record Clock := { clk_match : LocalTime; clk_log : LocalTime; clk_tweak : Z -> option bytes }.

Section names.
Context {T : Type -> Type} `{PT : PrefixTree T} `{L : IPCryptLib}.
Context (unicode_lower unicode_quote : bytes -> bytes).

Notation matcher := (@PatternMatcher T (option WeeklyRanges)).

(** ** Rules *)

Record BlockedNames := {
  allWeeklyRanges : gmap bytes WeeklyRanges;
  patternMatcher : matcher;
  logger : bool;
  format : bytes;
  ipCryptConfig : option IPCryptConfig;
}.

(** The closure of [loadRules] and [loadPatterns]: a line that is in error is
    reported and skipped. *)
Definition load_rule (weekly : gmap bytes WeeklyRanges) (line : bytes) (lineNo : Z) (m : matcher)
    : matcher * option reload_error :=
  match ParseTimeBasedRule line lineNo weekly with
  | Err _ => (m, None)
  | Ok (rulePart, weeklyRanges) =>
      match pm_Add unicode_lower rulePart weeklyRanges m with
      | None => (m, None)
      | Some m => (m, None)
      end
  end.

Definition loadPatterns (weekly : gmap bytes WeeklyRanges) (lines : bytes) (m : matcher)
    : matcher * option reload_error :=
  ProcessConfigLines lines (load_rule weekly) m.

Definition with_matcher (b : BlockedNames) (m : matcher) : BlockedNames :=
  {| allWeeklyRanges := allWeeklyRanges b; patternMatcher := m; logger := logger b;
     format := format b; ipCryptConfig := ipCryptConfig b |}.

Definition loadRules (lines : bytes) (b : BlockedNames) : BlockedNames * option reload_error :=
  let '(m, err) := loadPatterns (allWeeklyRanges b) lines (patternMatcher b) in
  (with_matcher b m, err).

(** ** Blocked names *)

(** The state of the plugin, with the global variable. *)
Record PluginBlockName := {
  blockedNames : option BlockedNames;
  configFile : bytes;
  stagingBlocked : option BlockedNames;
  sink : Writer;
}.

Definition set_sink (w : option Writer) (p : PluginBlockName) : PluginBlockName :=
  {| blockedNames := blockedNames p; configFile := configFile p;
     stagingBlocked := stagingBlocked p; sink := default (sink p) w |}.

Definition check (clk : Clock) (b : BlockedNames) (qName : bytes) (aliasFor : option bytes)
    (p : PluginBlockName) (ps : PluginsState)
    : bool * option plugin_error * PluginBlockName * PluginsState :=
  match pm_Eval (patternMatcher b) qName with
  | None => (false, None, p, ps)
  | Some (reason, xweeklyRanges) =>
      let reason := match aliasFor with
                    | Some a => reason ++ str " (alias for [" ++ a ++ str "])"
                    | None => reason
                    end in
      let weeklyRanges := mjoin xweeklyRanges in
      if negb (active_now (clk_match clk) weeklyRanges) then (false, None, p, ps)
      else
        let ps := set_returnCode PluginsReturnCodeReject (set_action PluginsActionReject ps) in
        let '(w, err, internal) :=
          log_rule unicode_quote (clk_log clk) (clk_tweak clk) (ipCryptConfig b)
            (if logger b then Some (sink p) else None) (format b) ps qName reason [] in
        let p := set_sink w p in
        if internal then (false, None, p, ps)
        else match err with
        | Some e => (false, Some e, p, ps)
        | None => (true, None, p, ps)
        end
  end.

(** [Init]: [bin] is what reading the file gives, [open] opens the log. *)
Definition PluginBlockName_Init (weekly : gmap bytes WeeklyRanges) (cfg : option IPCryptConfig)
    (file : bytes) (bin : option bytes) (open : bytes -> Writer) (logFile logFormat : bytes)
    (p : PluginBlockName) : PluginBlockName * option reload_error :=
  let p := {| blockedNames := blockedNames p; configFile := file;
              stagingBlocked := stagingBlocked p; sink := sink p |} in
  match bin with
  | None => (p, Some FileUnreadable)
  | Some bin =>
      let lines := ReadTextFile bin in
      let x := {| allWeeklyRanges := weekly; patternMatcher := NewPatternMatcher; logger := false;
                  format := []; ipCryptConfig := cfg |} in
      match loadRules lines x with
      | (_, Some e) => (p, Some e)
      | (x, None) =>
          let '(w, fmt) := InitializePluginLogger open logFile logFormat in
          let x := {| allWeeklyRanges := allWeeklyRanges x; patternMatcher := patternMatcher x;
                      logger := bool_decide (is_Some w); format := fmt;
                      ipCryptConfig := ipCryptConfig x |} in
          ({| blockedNames := Some x; configFile := configFile p;
              stagingBlocked := stagingBlocked p; sink := default (sink p) w |}, None)
      end
  end.

Definition PluginBlockName_Eval (clk : Clock) : Plugin PluginBlockName := fun p ps msg =>
  if whitelisted ps then (None, p, ps, msg)
  else match blockedNames p with
  | None => (None, p, ps, msg)
  | Some b =>
      let '(_, err, p, ps) := check clk b (qName ps) None p ps in (err, p, ps, msg)
  end.

(** The name another record stands for. *)
Definition alias_target (answer : RR) : option bytes :=
  if negb (Class_ (hdr answer) =? ClassINET) then None
  else match data answer with
  | RD_CNAME target => Some target
  | RD_SVCB priority target => if priority =? 0 then Some target else None
  | RD_HTTPS priority target => if priority =? 0 then Some target else None
  | _ => None
  end.

(** The loop over the answers; the clock is read again for every alias. *)
Fixpoint check_aliases (clk : nat -> Clock) (b : BlockedNames) (aliasFor : bytes) (answers : list RR)
    (aliasesLeft : nat) (p : PluginBlockName) (ps : PluginsState)
    : option plugin_error * PluginBlockName * PluginsState :=
  match answers with
  | [] => (None, p, ps)
  | answer :: answers' =>
      match alias_target answer with
      | None => check_aliases clk b aliasFor answers' aliasesLeft p ps
      | Some target =>
          match NormalizeQName target with
          | Err _ => (Some InvalidName, p, ps)
          | Ok target =>
              let '(blocked, err, p, ps) := check (clk aliasesLeft) b target (Some aliasFor) p ps in
              if blocked || bool_decide (is_Some err) then (err, p, ps)
              else match aliasesLeft with
              | O | 1%nat => (None, p, ps)
              | S aliasesLeft => check_aliases clk b aliasFor answers' aliasesLeft p ps
              end
          end
      end
  end.

Definition PluginBlockNameResponse_Eval (clk : nat -> Clock) : Plugin PluginBlockName := fun p ps msg =>
  if whitelisted ps then (None, p, ps, msg)
  else match blockedNames p with
  | None => (None, p, ps, msg)
  | Some b =>
      let '(err, p, ps) := check_aliases clk b (qName ps) (Answer msg) aliasesLimit p ps in
      (err, p, ps, msg)
  end.

(** *** Reloading *)

Definition set_staging (s : option BlockedNames) (p : PluginBlockName) : PluginBlockName :=
  {| blockedNames := blockedNames p; configFile := configFile p; stagingBlocked := s; sink := sink p |}.

Definition PluginBlockName_PrepareReload (fs : FS) (t : nat) : op PluginBlockName := fun p =>
  StandardPrepareReloadPattern fs t (configFile p) (fun lines p =>
    match blockedNames p with
    | None => (p, Some NoExistingConfig)
    | Some current =>
        let staging := {| allWeeklyRanges := allWeeklyRanges current; patternMatcher := NewPatternMatcher;
                          logger := logger current; format := format current;
                          ipCryptConfig := ipCryptConfig current |} in
        let '(staging, err) := loadRules lines staging in
        (set_staging (Some staging) p, err)
    end) p.

Definition PluginBlockName_ApplyReload : op PluginBlockName :=
  StandardApplyReloadPattern (fun p =>
    match stagingBlocked p with
    | None => (p, Some NoStagedConfig)
    | Some s =>
        ({| blockedNames := Some s; configFile := configFile p; stagingBlocked := None;
            sink := sink p |}, None)
    end).

Definition PluginBlockName_CancelReload (p : PluginBlockName) : PluginBlockName := set_staging None p.

#[export] Instance PluginBlockName_reloadable : ReloadablePlugin PluginBlockName BlockedNames := {|
  activeRules := blockedNames; stagedRules := stagingBlocked; GetConfigPath := configFile;
  PrepareReload := PluginBlockName_PrepareReload; ApplyReload := PluginBlockName_ApplyReload;
  CancelReload := PluginBlockName_CancelReload;
  Reload fs t := reload_body (PluginBlockName_PrepareReload fs t) PluginBlockName_CancelReload
                   PluginBlockName_ApplyReload;
|}.

(** ** Allowed names *)

Record PluginAllowName := {
  al_allWeeklyRanges : gmap bytes WeeklyRanges;
  al_patternMatcher : matcher;
  al_logger : option Writer;
  al_format : bytes;
  al_ipCryptConfig : option IPCryptConfig;
  al_configFile : bytes;
  al_stagingMatcher : option matcher;
}.

Definition set_al_logger (w : option Writer) (p : PluginAllowName) : PluginAllowName :=
  {| al_allWeeklyRanges := al_allWeeklyRanges p; al_patternMatcher := al_patternMatcher p;
     al_logger := w; al_format := al_format p; al_ipCryptConfig := al_ipCryptConfig p;
     al_configFile := al_configFile p; al_stagingMatcher := al_stagingMatcher p |}.

Definition set_al_matchers (m : matcher) (s : option matcher) (p : PluginAllowName) : PluginAllowName :=
  {| al_allWeeklyRanges := al_allWeeklyRanges p; al_patternMatcher := m;
     al_logger := al_logger p; al_format := al_format p; al_ipCryptConfig := al_ipCryptConfig p;
     al_configFile := al_configFile p; al_stagingMatcher := s |}.

Definition PluginAllowName_Init (weekly : gmap bytes WeeklyRanges) (cfg : option IPCryptConfig)
    (file : bytes) (bin : option bytes) (open : bytes -> Writer) (logFile logFormat : bytes)
    : PluginAllowName * option reload_error :=
  let p := {| al_allWeeklyRanges := weekly; al_patternMatcher := NewPatternMatcher; al_logger := None;
              al_format := []; al_ipCryptConfig := None; al_configFile := file;
              al_stagingMatcher := None |} in
  match bin with
  | None => (p, Some FileUnreadable)
  | Some bin =>
      match loadPatterns weekly (ReadTextFile bin) NewPatternMatcher with
      | (m, Some e) => (set_al_matchers m None p, Some e)
      | (m, None) =>
          let '(w, fmt) := InitializePluginLogger open logFile logFormat in
          ({| al_allWeeklyRanges := weekly; al_patternMatcher := m; al_logger := w; al_format := fmt;
              al_ipCryptConfig := cfg; al_configFile := file; al_stagingMatcher := None |}, None)
      end
  end.

Definition PluginAllowName_Eval (clk : Clock) : Plugin PluginAllowName := fun p ps msg =>
  match pm_Eval (al_patternMatcher p) (qName ps) with
  | None => (None, p, ps, msg)
  | Some (reason, xweeklyRanges) =>
      if negb (active_now (clk_match clk) (mjoin xweeklyRanges)) then (None, p, ps, msg)
      else
        let ps := set_whitelisted true ps in
        let '(w, err, _) :=
          log_rule unicode_quote (clk_log clk) (clk_tweak clk) (al_ipCryptConfig p) (al_logger p)
            (al_format p) ps (qName ps) reason [] in
        (err, set_al_logger w p, ps, msg)
  end.

Definition PluginAllowName_PrepareReload (fs : FS) (t : nat) : op PluginAllowName := fun p =>
  StandardPrepareReloadPattern fs t (al_configFile p) (fun lines p =>
    let '(m, err) := loadPatterns (al_allWeeklyRanges p) lines NewPatternMatcher in
    (set_al_matchers (al_patternMatcher p) (Some m) p, err)) p.

Definition PluginAllowName_ApplyReload : op PluginAllowName :=
  StandardApplyReloadPattern (fun p =>
    match al_stagingMatcher p with
    | None => (p, Some NoStagedConfig)
    | Some m => (set_al_matchers m None p, None)
    end).

Definition PluginAllowName_CancelReload (p : PluginAllowName) : PluginAllowName :=
  set_al_matchers (al_patternMatcher p) None p.

#[export] Instance PluginAllowName_reloadable : ReloadablePlugin PluginAllowName matcher := {|
  activeRules p := Some (al_patternMatcher p); stagedRules := al_stagingMatcher;
  GetConfigPath := al_configFile;
  PrepareReload := PluginAllowName_PrepareReload; ApplyReload := PluginAllowName_ApplyReload;
  CancelReload := PluginAllowName_CancelReload;
  Reload fs t := reload_body (PluginAllowName_PrepareReload fs t) PluginAllowName_CancelReload
                   PluginAllowName_ApplyReload;
|}.
End names.
Arguments BlockedNames : clear implicits.
Arguments PluginBlockName : clear implicits.
Arguments PluginAllowName : clear implicits.
