(* ===== verification/NameListsProps.v ===== *)
(** * Properties of the lists of names

    From the text of a rule file to what happens to a query: which names are
    rejected, when, and what an allow list exempts. *)

From S2P Require Import Prelude GoStrings NetIP NetIPProps Common Crypto Dns DnsUtils Metrics Plugins.
From S2P Require Import Glob PrefixTree PatternMatcher TimeRanges RuleLog RuleLogProps Reload NameLists.

(** ** Text operations keep the bytes of their argument *)

Section keep.
Context (P : Z -> Prop).

Lemma trim_left_keeps n s : Forall P s -> Forall P (trim_left_fuel n s).
Proof.
  revert s. induction n as [|n IH]; intros s Hs; [done|]. cbn [trim_left_fuel].
  destruct (space_width s); [done|]. apply IH. by apply Forall_drop.
Qed.

Lemma trim_right_keeps n s : Forall P s -> Forall P (trim_right_fuel n s).
Proof.
  revert s. induction n as [|n IH]; intros s Hs; [done|]. cbn [trim_right_fuel].
  destruct (last_space_width s); [done|]. apply IH. by apply Forall_take.
Qed.

Lemma TrimSpace_keeps s : Forall P s -> Forall P (TrimSpace s).
Proof. intros. by apply trim_right_keeps, trim_left_keeps. Qed.

Lemma Split_keeps s c : Forall P s -> Forall (Forall P) (Split s c).
Proof.
  induction 1 as [|x s Hx _ IH]; cbn [Split]; [by repeat constructor|].
  destruct (x =? c); [by constructor|]. destruct (Split s c); [by repeat constructor|].
  apply Forall_cons in IH as [H1 H2]. by repeat constructor.
Qed.

Lemma strip_comments_keeps s : Forall P s -> Forall P (TrimAndStripInlineComments s).
Proof.
  intros H. unfold TrimAndStripInlineComments. destruct (LastIndexByte s 35); [|by apply TrimSpace_keeps].
  destruct (_ || _); [constructor|]. apply TrimSpace_keeps. case_match; [by apply Forall_take|done].
Qed.
End keep.

(** ** The rules of a file *)

(** The rule and the time range on each line that is well formed. *)
Definition file_rules (weekly : gmap bytes WeeklyRanges) (lines : bytes)
    : list (bytes * option WeeklyRanges) :=
  omap (fun line =>
    let line := TrimAndStripInlineComments line in
    if len line =? 0 then None
    else match ParseTimeBasedRule line 0 weekly with Ok r => Some r | Err _ => None end)
    (Split lines 10).

Lemma ParseTimeBasedRule_line {W} (line : bytes) (n : Z) (weekly : gmap bytes W) :
  match ParseTimeBasedRule line n weekly with
  | Ok r => ParseTimeBasedRule line 0 weekly = Ok r
  | Err _ => exists e, ParseTimeBasedRule line 0 weekly = Err e
  end.
Proof. unfold ParseTimeBasedRule. repeat case_match; naive_solver. Qed.

Lemma ParseTimeBasedRule_keeps {W} (P : Z -> Prop) (line : bytes) (n : Z) (weekly : gmap bytes W) rule w :
  Forall P line -> ParseTimeBasedRule line n weekly = Ok (rule, w) -> Forall P rule.
Proof.
  intros Hl. unfold ParseTimeBasedRule. pose proof (Split_keeps P line 64 Hl) as Hs.
  destruct (Split line 64) as [|a [|b [|]]]; intros; repeat case_match; simplify_eq; try done;
    apply TrimSpace_keeps; by apply Forall_cons in Hs as [? _].
Qed.

Lemma file_rules_ascii weekly lines : ascii_bytes lines ->
  Forall (fun l => ascii_bytes l.1) (file_rules weekly lines).
Proof.
  intros H. apply Forall_forall. intros [rule w] (line & Hin & Hr)%list_elem_of_omap. simpl.
  pose proof (Split_keeps _ lines 10 H) as Hs. rewrite Forall_forall in Hs. specialize (Hs _ Hin).
  cbv zeta in Hr. destruct (_ =? 0); [done|]. destruct (ParseTimeBasedRule _ _ _) as [r|] eqn:E; simplify_eq.
  eapply ParseTimeBasedRule_keeps; [|exact E]. by apply strip_comments_keeps.
Qed.

(** What is written on a line, its comment and the spaces around it apart: a rule, or a
    rule, an at sign and the name of one of the time ranges (or nothing). *)
Definition line_rule (weekly : gmap bytes WeeklyRanges) (content rule : bytes) (w : option WeeklyRanges) : Prop :=
  (64 ∉ content /\ rule = content /\ w = None) \/
  (exists a b, content = a ++ [64] ++ b /\ 64 ∉ a /\ 64 ∉ b /\ rule = TrimSpace a /\
     ((TrimSpace b = [] /\ w = None) \/
      (TrimSpace b <> [] /\ is_Some w /\ weekly !! TrimSpace b = w))).

(** The rules of a text, with their time ranges. *)
Definition in_file (weekly : gmap bytes WeeklyRanges) (text : bytes) (ty : PatternType) (p : bytes)
    (w : option WeeklyRanges) : Prop :=
  exists line rule, line ∈ Split text 10 /\ TrimAndStripInlineComments line <> [] /\
    line_rule weekly (TrimAndStripInlineComments line) rule w /\ rule_means rule ty p.

Lemma Split_two s c a b : Split s c = [a; b] -> s = a ++ [c] ++ b /\ c ∉ a /\ c ∉ b.
Proof.
  intros H. destruct (decide (c ∈ s)) as [(l1 & l2 & -> & Hl)%list_elem_of_split_l|Hn].
  - rewrite Split_app in H by done. injection H as <- H.
    destruct (decide (c ∈ l2)) as [(l3 & l4 & -> & Hl3)%list_elem_of_split_l|Hn2].
    + rewrite Split_app in H by done. injection H as _ H. by destruct (Split_not_nil l4 c).
    + rewrite Split_none in H by done. by injection H as <-.
  - by rewrite Split_none in H.
Qed.

Lemma Split_one s c a : Split s c = [a] -> a = s /\ c ∉ s.
Proof.
  intros H. destruct (decide (c ∈ s)) as [(l1 & l2 & -> & Hl)%list_elem_of_split_l|Hn].
  - rewrite Split_app in H by done. injection H as <- H. by destruct (Split_not_nil l2 c).
  - rewrite Split_none in H by done. by injection H as <-.
Qed.

Lemma ParseTimeBasedRule_spec weekly content rule w :
  ParseTimeBasedRule content 0 weekly = Ok (rule, w) <-> line_rule weekly content rule w.
Proof.
  unfold ParseTimeBasedRule, line_rule. split.
  - destruct (Split content 64) as [|a [|b [|]]] eqn:E; [by destruct (Split_not_nil content 64)| | |].
    + apply Split_one in E as [-> Hn]. intros H. left. repeat case_match; simplify_eq/=; done.
    + apply Split_two in E as (-> & Ha & Hb). intros H. right. exists a, b.
      destruct (len (TrimSpace b) >? 0) eqn:El; cbn in H.
      * destruct (weekly !! TrimSpace b) as [r|] eqn:Er; cbn in H; simplify_eq/=.
        split_and!; try done. right. split_and!; [|by eexists|done]. intros E. by rewrite E in El.
      * simplify_eq/=. split_and!; try done. left. split; [|done]. destruct (TrimSpace b) as [|x l]; [done|].
        rewrite len_cons in El. pose proof (len_nonneg l). lia.
    + intros H. done.
  - intros [(Hn & -> & ->)|(a & b & -> & Ha & Hb & -> & Hw)]; [by rewrite Split_none|].
    cbn [app]. rewrite Split_app, Split_none by done. destruct Hw as [[-> ->]|(Hne & [r ->] & Hr)]; [done|].
    destruct (TrimSpace b) as [|x l] eqn:E; [done|]. rewrite len_cons. pose proof (len_nonneg l).
    destruct (_ >? 0) eqn:El; [|lia]. cbn. by rewrite Hr.
Qed.

Lemma in_file_written weekly text ty p w :
  in_file weekly text ty p w <-> rule_written (file_rules weekly text) ty p w.
Proof.
  unfold in_file, rule_written, file_rules. split.
  - intros (line & rule & Hin & Hne & Hl & Hd). exists rule. split; [|done]. apply list_elem_of_omap.
    exists line. split; [done|]. cbv zeta. destruct (len _ =? 0) eqn:El.
    { destruct (TrimAndStripInlineComments line) as [|x l]; [done|]. rewrite len_cons in El.
      pose proof (len_nonneg l). lia. }
    by rewrite (proj2 (ParseTimeBasedRule_spec _ _ _ _) Hl).
  - intros (rule & (line & Hin & Hr)%list_elem_of_omap & Hd). exists line, rule. cbv zeta in Hr.
    destruct (len _ =? 0) eqn:El; [done|].
    destruct (ParseTimeBasedRule _ _ _) as [[rule' w']|] eqn:E; simplify_eq.
    split_and!; [done| |by apply ParseTimeBasedRule_spec|done]. intros E0. by rewrite E0 in El.
Qed.

(** The rule of [R] to use for a name, and whether it is active. *)
Definition listed (R : PatternType -> bytes -> option WeeklyRanges -> Prop) (now : LocalTime)
    (q : bytes) (active : bool) : Prop :=
  exists ty pat v, R ty pat v /\ best_among R q ty pat /\ active_now now v = active.

Definition unlisted (R : PatternType -> bytes -> option WeeklyRanges -> Prop) (q : bytes) : Prop :=
  forall ty pat v, R ty pat v -> ~ rule_matches ty pat q.

Lemma listed_written weekly text now q active :
  listed (rule_written (file_rules weekly text)) now q active -> listed (in_file weekly text) now q active.
Proof.
  intros (ty & pat & v & Hw & [Hm Hb] & Ha). exists ty, pat, v. split_and!; [by apply in_file_written| |done].
  split; [done|]. intros ty' p' v' Hf. apply (Hb ty' p' v'). by apply in_file_written.
Qed.

(** The same, on the list of the rules that are computed from the text. *)
Lemma listed_rules lower weekly text now q active : ascii_bytes text ->
  listed (in_file weekly text) now q active <->
  exists ty pat v, (ty, pat, v) ∈ rules_of lower (file_rules weekly text) /\
    best_rule (rules_of lower (file_rules weekly text)) q ty pat /\ active_now now v = active.
Proof.
  intros Ha%(file_rules_ascii weekly). unfold listed. split; intros (ty & pat & v & Hw & Hb & Hn); exists ty, pat, v.
  - split_and!; [by apply rules_of_written; [|apply in_file_written]| |done].
    apply best_written; [done|]. destruct Hb as [Hm Hb]. split; [done|].
    intros ty' p' v' Hf. apply (Hb ty' p' v'). by apply in_file_written.
  - apply (rules_of_written lower) in Hw; [|done]. apply (best_written lower) in Hb as [Hm Hb]; [|done].
    split_and!; [by apply in_file_written| |done].
    split; [done|]. intros ty' p' v' Hf. apply (Hb ty' p' v'). by apply in_file_written.
Qed.

Section names.
Context {T : Type -> Type} `{PT : PrefixTree T} `{L : IPCryptLib}.
Context (lower quote : bytes -> bytes).

Lemma loadPatterns_lines weekly lines (m : @PatternMatcher T (option WeeklyRanges)) :
  loadPatterns lower weekly lines m = (add_lines lower (file_rules weekly lines) m, None).
Proof.
  unfold loadPatterns, ProcessConfigLines, file_rules. generalize 0 at 1 as n. intros n. revert m n.
  induction (Split lines 10) as [|line ls IH]; intros m n; [done|]. cbn [process_lines omap list_omap].
  destruct (len (TrimAndStripInlineComments line) =? 0); [apply IH|]. unfold load_rule.
  pose proof (ParseTimeBasedRule_line (TrimAndStripInlineComments line) n weekly) as Hp.
  destruct (ParseTimeBasedRule _ n _) as [[rule w]|e].
  - rewrite Hp. unfold add_lines. cbn [fold_left]. destruct (pm_Add lower rule w m); apply IH.
  - destruct Hp as [e' ->]. apply IH.
Qed.

(** *** The plugins are reloadable *)

Definition load_blocked (p : PluginBlockName T) (lines : bytes) : result reload_error (BlockedNames T) :=
  match blockedNames p with
  | None => Err NoExistingConfig
  | Some b => Ok (with_matcher b (add_lines lower (file_rules (allWeeklyRanges b) lines) NewPatternMatcher))
  end.

#[export] Instance PluginBlockName_laws :
  ReloadableLaws (I := PluginBlockName_reloadable lower) (PluginBlockName T) (BlockedNames T) load_blocked.
Proof.
  split.
  - intros fs t p p' err. cbn. unfold PluginBlockName_PrepareReload, StandardPrepareReloadPattern.
    destruct (SafeReadTextFile _ _ _); [|by intros [= <- <-]].
    destruct (blockedNames p) as [b|] eqn:E; [|by intros [= <- <-]].
    unfold loadRules. destruct (loadPatterns _ _ _ _) as [m [e|]]; by intros [= <- <-].
  - intros fs t p. cbn. unfold PluginBlockName_PrepareReload, StandardPrepareReloadPattern, load_blocked.
    destruct (SafeReadTextFile _ _ _) as [lines|]; [|done].
    destruct (blockedNames p) as [b|]; [|done]. unfold loadRules. cbn. by rewrite loadPatterns_lines.
  - intros p. cbn. unfold PluginBlockName_ApplyReload, StandardApplyReloadPattern.
    by destruct (stagingBlocked p).
  - done.
  - done.
Qed.

Definition load_allowed (p : PluginAllowName T) (lines : bytes)
    : result reload_error (@PatternMatcher T (option WeeklyRanges)) :=
  Ok (add_lines lower (file_rules (al_allWeeklyRanges p) lines) NewPatternMatcher).

#[export] Instance PluginAllowName_laws :
  ReloadableLaws (I := PluginAllowName_reloadable lower) (PluginAllowName T) _ load_allowed.
Proof.
  split.
  - intros fs t p p' err. cbn. unfold PluginAllowName_PrepareReload, StandardPrepareReloadPattern.
    destruct (SafeReadTextFile _ _ _); [|by intros [= <- <-]].
    destruct (loadPatterns _ _ _ _) as [m [e|]]; by intros [= <- <-].
  - intros fs t p. cbn. unfold PluginAllowName_PrepareReload, StandardPrepareReloadPattern.
    destruct (SafeReadTextFile _ _ _) as [lines|]; [|done]. by rewrite loadPatterns_lines.
  - intros p. cbn. unfold PluginAllowName_ApplyReload, StandardApplyReloadPattern.
    by destruct (al_stagingMatcher p).
  - done.
  - done.
Qed.

(** ** What is rejected *)

Context `{!PrefixTreeLaws T}.

Lemma matcher_decides weekly lines q now : ascii_bytes lines -> ascii_bytes q -> 2 <= len q ->
  match pm_Eval (add_lines lower (file_rules weekly lines) (NewPatternMatcher (T := T))) q with
  | Some (_, v) => listed (in_file weekly lines) now q (active_now now (mjoin v))
  | None => unlisted (in_file weekly lines) q
  end.
Proof.
  intros Hl Hq Hlen. pose proof (file_rules_ascii weekly lines Hl) as Ha.
  pose proof (Eval_written lower (file_rules weekly lines) q Ha Hq Hlen) as H.
  destruct (pm_Eval _ q) as [[reason v]|].
  - destruct H as (ty & pat & v' & Hin & Hb & _ & ->). apply listed_written. by exists ty, pat, v'.
  - intros ty pat v Hf. apply (H ty pat v). by apply in_file_written.
Qed.

Lemma check_cases clk b q alias p ps blocked err p' ps' :
  check quote clk b q alias p ps = (blocked, err, p', ps') ->
  match pm_Eval (patternMatcher b) q with
  | Some (_, v) =>
      if active_now (clk_match clk) (mjoin v)
      then ps' = set_returnCode PluginsReturnCodeReject (set_action PluginsActionReject ps)
      else ps' = ps /\ p' = p /\ err = None /\ blocked = false
  | None => ps' = ps /\ p' = p /\ err = None /\ blocked = false
  end.
Proof.
  unfold check. destruct (pm_Eval _ q) as [[reason v]|]; [|by intros [= <- <- <- <-]].
  destruct (active_now _ _); cbn [negb]; [|by intros [= <- <- <- <-]].
  destruct (log_rule _ _ _ _ _ _ _ _ _ _) as [[w e] internal].
  destruct internal; [by intros [= <- <- <- <-]|]. destruct e; by intros [= <- <- <- <-].
Qed.

Lemma Init_matcher weekly cfg file bin open logFile fmt p0 (p : PluginBlockName T) :
  PluginBlockName_Init lower weekly cfg file (Some bin) open logFile fmt p0 = (p, None) ->
  exists b, blockedNames p = Some b /\
    patternMatcher b = add_lines lower (file_rules weekly (ReadTextFile bin)) NewPatternMatcher.
Proof.
  unfold PluginBlockName_Init, loadRules. cbn [allWeeklyRanges patternMatcher].
  rewrite loadPatterns_lines. cbv beta iota zeta.
  destruct (InitializePluginLogger _ _ _) as [w f]. intros [= <-]. by eexists.
Qed.

(** C33: names are blocked as the rule file says.  Once the plugin is initialized
    from the ASCII text of a rule file (a rule on a line, perhaps with a time range
    after an at sign), a query that is not exempted, for a name of at least two bytes, all of
    them ASCII, is rejected exactly when the rule to use for its name (the first type
    that matches, the longest suffix or prefix) is active at that time; a query that
    no rule matches, or whose rule is outside its time range, or whose name has fewer
    than two bytes, is left alone, and no log line is written for it.  Exempted
    queries are never touched. *)
Theorem block_name_decision weekly cfg file bin open logFile fmt p0 clk p ps msg err p' ps' msg' :
  PluginBlockName_Init lower weekly cfg file (Some bin) open logFile fmt p0 = (p, None) ->
  ascii_bytes (ReadTextFile bin) -> ascii_bytes (qName ps) ->
  PluginBlockName_Eval quote clk p ps msg = (err, p', ps', msg') ->
  let rules := in_file weekly (ReadTextFile bin) in
  msg' = msg /\
  if whitelisted ps || (len (qName ps) <? 2) then ps' = ps /\ p' = p /\ err = None
  else
    (listed rules (clk_match clk) (qName ps) true /\
     action ps' = PluginsActionReject /\ returnCode ps' = PluginsReturnCodeReject) \/
    ((listed rules (clk_match clk) (qName ps) false \/ unlisted rules (qName ps)) /\
     ps' = ps /\ p' = p /\ err = None).
Proof.
  intros (b & Hb & Hm)%Init_matcher Hl Hq. unfold PluginBlockName_Eval. cbv zeta.
  destruct (whitelisted ps); [by intros [= <- <- <- <-]|]. rewrite Hb.
  destruct (check _ _ _ _ _ _ _) as [[[blocked e] p1] ps1] eqn:E. intros [= <- <- <- <-]. split; [done|].
  apply check_cases in E. rewrite Hm in E. cbn [orb]. destruct (len (qName ps) <? 2) eqn:Hlen.
  { apply Z.ltb_lt in Hlen. rewrite Eval_short in E by done. by destruct E as (-> & -> & -> & _). }
  apply Z.ltb_ge in Hlen.
  pose proof (matcher_decides weekly (ReadTextFile bin) (qName ps) (clk_match clk) Hl Hq Hlen) as H.
  destruct (pm_Eval _ _) as [[reason v]|].
  - destruct (active_now _ (mjoin v)); [left; by subst|right; naive_solver].
  - right. naive_solver.
Qed.

(** ** Exemptions *)

(** Two plugins that work on the two halves of a state. *)
Definition on_fst {A B} (p : Plugin A) : Plugin (A * B) := fun '(a, b) ps msg =>
  let '(err, a, ps, msg) := p a ps msg in (err, (a, b), ps, msg).
Definition on_snd {A B} (p : Plugin B) : Plugin (A * B) := fun '(a, b) ps msg =>
  let '(err, b, ps, msg) := p b ps msg in (err, (a, b), ps, msg).

Lemma AllowName_Init_matcher weekly cfg file bin open logFile fmt (p : PluginAllowName T) :
  PluginAllowName_Init lower weekly cfg file (Some bin) open logFile fmt = (p, None) ->
  al_patternMatcher p = add_lines lower (file_rules weekly (ReadTextFile bin)) NewPatternMatcher.
Proof.
  unfold PluginAllowName_Init. rewrite loadPatterns_lines.
  destruct (InitializePluginLogger _ _ _) as [w f]. by intros [= <-].
Qed.

(** The allow list wins over the block list.  When the rule an allow list
    gives a name is active (and no duplicate of it is restricted to another time), a query that goes through the two plugins in the order
    of the pipeline (without an error of the log) comes out with its action
    unchanged and the state of the block list untouched, and the plugin that
    checks the aliases in the response lets it pass too, whatever the block list
    holds. *)
Theorem allowed_names_pass weekly cfg file bin open logFile fmt al bl clk clk' clk'' gcfg sync ps msg al' bl' ps' msg' resp :
  PluginAllowName_Init lower weekly cfg file (Some bin) open logFile fmt = (al, None) ->
  ascii_bytes (ReadTextFile bin) -> ascii_bytes (qName ps) -> 2 <= len (qName ps) ->
  listed (in_file weekly (ReadTextFile bin)) (clk_match clk) (qName ps) true ->
  ~ listed (in_file weekly (ReadTextFile bin)) (clk_match clk) (qName ps) false ->
  action ps = PluginsActionContinue -> (forall m st, action (sync m st) = action st) ->
  (forall m st, whitelisted (sync m st) = whitelisted st) ->
  run_plugins sync gcfg [on_fst (PluginAllowName_Eval quote clk); on_snd (PluginBlockName_Eval quote clk')]
    (al, bl) ps msg = (None, (al', bl'), ps', msg') ->
  action ps' = PluginsActionContinue /\ bl' = bl /\
  PluginBlockNameResponse_Eval quote clk'' bl' ps' resp = (None, bl', ps', resp).
Proof.
  intros Hm%AllowName_Init_matcher Hl Hq Hlen Hyes Hnot Hact Hsync Hwl.
  pose proof (matcher_decides weekly (ReadTextFile bin) (qName ps) (clk_match clk) Hl Hq Hlen) as H.
  cbn [run_plugins on_fst]. unfold PluginAllowName_Eval. rewrite Hm.
  destruct (pm_Eval _ _) as [[reason v]|].
  2:{ destruct Hyes as (ty & pat & v & Hin & [Hb _] & _). by destruct (H ty pat v Hin). }
  destruct (active_now _ (mjoin v)) eqn:Ha; [|by destruct (Hnot H)]. cbn [negb].
  destruct (log_rule _ _ _ _ _ _ _ _ _ _) as [[w [e|]] internal]; [done|].
  set (ps1 := sync msg (set_whitelisted true ps)).
  assert (action ps1 = PluginsActionContinue) as Ha1 by (unfold ps1; rewrite Hsync; exact Hact).
  assert (with_refusal gcfg ps1 msg = ps1) as Hwr by (unfold with_refusal; by rewrite Ha1).
  rewrite Hwr, Ha1, bool_decide_true by done. cbn [negb on_snd].
  assert (whitelisted ps1 = true) as Hw1 by (unfold ps1; by rewrite Hwl).
  unfold PluginBlockName_Eval. rewrite Hw1.
  set (ps2 := sync msg ps1). assert (action ps2 = PluginsActionContinue) as Ha2 by (unfold ps2; by rewrite Hsync).
  assert (with_refusal gcfg ps2 msg = ps2) as Hwr2 by (unfold with_refusal; by rewrite Ha2).
  rewrite Hwr2, Ha2, bool_decide_true by done. cbn [negb]. intros [= <- <- <- <-].
  split_and!; [done|done|]. unfold PluginBlockNameResponse_Eval. unfold ps2. by rewrite Hwl, Hw1.
Qed.

(** ** Aliases in responses *)

Definition blocked_by (clk : Clock) (b : BlockedNames T) (q : bytes) : bool :=
  match pm_Eval (patternMatcher b) q with
  | Some (_, v) => active_now (clk_match clk) (mjoin v)
  | None => false
  end.

(** The [i]-th of the aliases, if it is one of the first [n], is blocked. *)
Definition blocked_alias (clk : nat -> Clock) (b : BlockedNames T) (aliases : list bytes) (n : nat) : Prop :=
  exists i t q, aliases !! i = Some t /\ (i < n)%nat /\ NormalizeQName t = Ok q /\
    blocked_by (clk (n - i)%nat) b q = true.

Lemma blocked_alias_cons clk b t q aliases n : NormalizeQName t = Ok q ->
  blocked_alias clk b (t :: aliases) (S n) <->
  blocked_by (clk (S n)) b q = true \/ blocked_alias clk b aliases n.
Proof.
  intros Hq. split.
  - intros ([|i] & t' & q' & Hi & Hn & Hq' & Hb); simplify_eq/=.
    { left. rewrite Hq in Hq'. by simplify_eq. }
    right. exists i, t', q'. split_and!; [done|lia|done|done].
  - intros [H|(i & t' & q' & Hi & Hn & Hq' & Hb)].
    + exists 0%nat, t, q. split_and!; [done|lia|done|done].
    + exists (S i), t', q'. split_and!; [done|lia|done|done].
Qed.

Lemma check_aliases_action clk b a answers n p ps err p' ps' :
  check_aliases quote clk b a answers (S n) p ps = (err, p', ps') ->
  Forall (fun t => is_Ok (NormalizeQName t) = true) (omap alias_target answers) ->
  action ps' = PluginsActionReject <->
  action ps = PluginsActionReject \/ blocked_alias clk b (omap alias_target answers) (S n).
Proof.
  revert n p ps. induction answers as [|r answers IH]; intros n p ps; cbn [check_aliases].
  { intros [= <- <- <-] _. split; [auto|]. intros [H|(i & t & q & Hi & _)]; [done|by destruct i]. }
  cbn [omap list_omap]. destruct (alias_target r) as [t|]; [|apply IH].
  intros H [Ht Hall]%Forall_cons. destruct (NormalizeQName t) as [q|] eqn:Hq; [|done].
  rewrite blocked_alias_cons by exact Hq.
  destruct (check _ _ _ _ _ _ _) as [[[blocked e] p1] ps1] eqn:Hc. apply check_cases in Hc.
  assert (action ps1 = PluginsActionReject <->
          action ps = PluginsActionReject \/ blocked_by (clk (S n)) b q = true) as Hps1.
  { unfold blocked_by. destruct (pm_Eval _ q) as [[reason v]|].
    - destruct (active_now _ _); [subst; simpl; naive_solver|]. destruct Hc as [-> _]. naive_solver.
    - destruct Hc as [-> _]. naive_solver. }
  assert (blocked || bool_decide (is_Some e) = true -> action ps1 = PluginsActionReject) as Hstop.
  { destruct (pm_Eval _ q) as [[reason v]|]; [destruct (active_now _ _); [by subst|]|];
      destruct Hc as (_ & _ & -> & ->); done. }
  destruct (blocked || bool_decide (is_Some e)).
  { injection H as <- <- <-. specialize (Hstop eq_refl). tauto. }
  destruct n as [|n].
  - injection H as <- <- <-. rewrite Hps1. split; [tauto|].
    intros [?|[?|(i & ? & ? & _ & ? & _)]]; [tauto..|lia].
  - rewrite (IH n p1 ps1 H Hall), Hps1. tauto.
Qed.

(** A response is rejected for its aliases: as long as the targets are names,
    the response plugin rejects exactly when one of the first [aliasesLimit]
    targets of CNAME records and of SVCB and HTTPS records in alias mode is
    blocked at that moment; further targets are not looked at. *)
Theorem response_aliases clk (p : PluginBlockName T) b ps msg err p' ps' msg' :
  blockedNames p = Some b -> whitelisted ps = false -> action ps <> PluginsActionReject ->
  Forall (fun t => is_Ok (NormalizeQName t) = true) (omap alias_target (Answer msg)) ->
  PluginBlockNameResponse_Eval quote clk p ps msg = (err, p', ps', msg') ->
  msg' = msg /\
  (action ps' = PluginsActionReject <-> blocked_alias clk b (omap alias_target (Answer msg)) aliasesLimit).
Proof.
  intros Hb Hw Hact Hall. unfold PluginBlockNameResponse_Eval. rewrite Hw, Hb.
  destruct (check_aliases _ _ _ _ _ _ _ _) as [[e p1] ps1] eqn:E. intros [= <- <- <- <-]. split; [done|].
  apply check_aliases_action in E; [|done]. fold aliasesLimit in E. tauto.
Qed.
End names.

(** ** Witnesses *)

(** A block list with a rule restricted to Sunday mornings, and an allow list. *)
Definition ex_weekly : gmap bytes WeeklyRanges :=
  {[ str "sunday" := {| ranges := [{| after := 0; before := 36000 |}] :: replicate 6 [] |} ]}.
Definition ex_block_file : bytes := utf8_bom ++ str "ads.*" ++ [10] ++ str "example.com @sunday # weekend" ++ [10].
Definition ex_allow_file : bytes := str "=www.example.com" ++ [10].
Definition ex_sunday : LocalTime :=
  {| lt_year := 2024; lt_month := 3; lt_day := 10; lt_hour := 7; lt_minute := 5; lt_second := 1;
     lt_weekday := 0; lt_unix := 1710054301 |}.
Definition ex_clock : Clock := {| clk_match := ex_sunday; clk_log := ex_sunday; clk_tweak _ := None |}.
Definition ex_no_names : PluginBlockName (gmap bytes) :=
  {| blockedNames := None; configFile := []; stagingBlocked := None; sink := sample_writer |}.
Definition ex_block : PluginBlockName (gmap bytes) :=
  (PluginBlockName_Init id ex_weekly None (str "/b") (Some ex_block_file) (fun _ => sample_writer)
     (str "/log") (str "tsv") ex_no_names).1.
Definition ex_allow : PluginAllowName (gmap bytes) :=
  (PluginAllowName_Init id ex_weekly None (str "/a") (Some ex_allow_file) (fun _ => sample_writer) [] []).1.
Definition ex_name_state (q : bytes) : PluginsState := set_qName q sample_client_state.
Definition ex_msg : Msg :=
  {| MH := zero_MsgHeader; Questions := []; Answer := []; Ns := []; Extra := []; Pseudo := [] |}.

Lemma block_name_decision_witness :
  let '(err, p', ps', _) :=
    PluginBlockName_Eval (L := reversing_lib) id ex_clock ex_block (ex_name_state (str "www.example.com")) ex_msg in
  action ps' = PluginsActionReject /\
  listed (in_file ex_weekly (ReadTextFile ex_block_file)) ex_sunday (str "www.example.com") true.
Proof.
  destruct (PluginBlockName_Eval _ _ _ _ _) as [[[err p'] ps'] msg'] eqn:E.
  destruct (block_name_decision (L := reversing_lib) id id ex_weekly None (str "/b") ex_block_file
    (fun _ => sample_writer) (str "/log") (str "tsv") ex_no_names ex_clock ex_block
    (ex_name_state (str "www.example.com")) ex_msg err p' ps' msg') as [_ H].
  - vm_compute. reflexivity.
  - apply (bool_decide_unpack _). vm_compute. exact I.
  - apply (bool_decide_unpack _). vm_compute. exact I.
  - exact E.
  - destruct H as [[H1 [H2 _]]|[_ [H _]]]; [exact (conj H2 H1)|].
    exfalso. rewrite H in E. apply (f_equal (fun r => action r.1.2)) in E. vm_compute in E. discriminate.
Defined.

Lemma allowed_names_pass_witness :
  let '(err, st, ps', _) :=
    run_plugins (fun m st => st)
      {| refusedCodeInResponses := true; respondWithIPv4 := None; respondWithIPv6 := None |}
      [on_fst (PluginAllowName_Eval (L := reversing_lib) id ex_clock);
       on_snd (PluginBlockName_Eval (L := reversing_lib) id ex_clock)]
      (ex_allow, ex_block) (ex_name_state (str "www.example.com")) ex_msg in
  action ps' = PluginsActionContinue /\ st.2 = ex_block.
Proof.
  destruct (run_plugins _ _ _ _ _ _) as [[[err [al' bl']] ps'] msg'] eqn:E.
  assert (err = None) as He.
  { apply (f_equal (fun r => r.1.1.1)) in E. vm_compute in E. by symmetry. }
  subst err. apply and_comm. cbn [snd].
  destruct (allowed_names_pass (L := reversing_lib) id id ex_weekly None (str "/a") ex_allow_file
    (fun _ => sample_writer) [] [] ex_allow ex_block ex_clock ex_clock (fun _ => ex_clock)
    {| refusedCodeInResponses := true; respondWithIPv4 := None; respondWithIPv6 := None |}
    (fun m st => st) (ex_name_state (str "www.example.com")) ex_msg al' bl' ps' msg' ex_msg)
    as (H1 & H2 & _).
  - vm_compute. reflexivity.
  - apply (bool_decide_unpack _). vm_compute. exact I.
  - apply (bool_decide_unpack _). vm_compute. exact I.
  - vm_compute. discriminate.
  - apply (listed_rules id); [apply (bool_decide_unpack _); vm_compute; exact I|].
    exists PatternTypeExact, (str "www.example.com"), None. split_and!; [vm_compute; by constructor| |done].
    split; [reflexivity|]. intros ty' p' [v Hv] _. vm_compute in Hv.
    apply list_elem_of_singleton in Hv. simplify_eq. split; [vm_compute; lia|by intros _ [?|?]].
  - intros (ty & pat & v & Hv & _ & Ha)%(listed_rules id); [|apply (bool_decide_unpack _); vm_compute; exact I].
    vm_compute in Hv. apply list_elem_of_singleton in Hv. by simplify_eq.
  - reflexivity.
  - done.
  - done.
  - exact E.
  - exact (conj H2 H1).
Defined.

(** A file system that holds the block list throughout. *)
Definition ex_fs : FS := fun _ path =>
  if bool_decide (path = str "/b")
  then Some {| f_content := ex_block_file; f_mod := 7; f_isDir := false |} else None.

Definition ex_restarted : PluginBlockName (gmap bytes) :=
  (PluginBlockName_Init id ex_weekly None (str "/b") (Some []) (fun _ => sample_writer)
     (str "/log") (str "tsv") ex_no_names).1.

Lemma checkFile_stable_witness :
  exists wf p', checkFile id ex_fs 0
    (watch_entry (I := PluginBlockName_reloadable (T := gmap bytes) id) (str "/b") [] 0 0) ex_restarted = Some (wf, p') /\
  activeRules (ReloadablePlugin := PluginBlockName_reloadable id) p' = blockedNames ex_block /\
  lastSize wf = len ex_block_file.
Proof.
  pose proof (checkFile_stable id (load_blocked (T := gmap bytes) id)
    (I := PluginBlockName_reloadable id) ex_fs 0 (str "/b") [] 0 0 ex_restarted
    {| f_content := ex_block_file; f_mod := 7; f_isDir := false |}) as H.
  destruct H as (p' & H1 & H2 & _); [|reflexivity..|].
  - intros i _. reflexivity.
  - eexists _, p'. split; [exact H1|]. split; [|reflexivity]. rewrite H2. vm_compute. reflexivity.
Defined.

Definition ex_cname (target : bytes) : RR :=
  {| hdr := {| Name := str "x.org."; Class_ := ClassINET; TTL := 60 |}; data := RD_CNAME target |}.

Lemma response_aliases_witness :
  let '(_, _, ps', _) := PluginBlockNameResponse_Eval (L := reversing_lib) id (fun _ => ex_clock) ex_block
    (ex_name_state (str "x.org")) (set_Answer [ex_cname (str "a.net."); ex_cname (str "Ads.net.")] ex_msg) in
  action ps' = PluginsActionReject <->
  exists b, blockedNames ex_block = Some b /\
    blocked_alias (fun _ => ex_clock) b [str "a.net."; str "Ads.net."] aliasesLimit.
Proof.
  destruct (PluginBlockNameResponse_Eval _ _ _ _ _) as [[[err p'] ps'] msg'] eqn:E.
  destruct (blockedNames ex_block) as [b|] eqn:Hb; [|discriminate].
  destruct (response_aliases (L := reversing_lib) id id (fun _ => ex_clock) ex_block b
    (ex_name_state (str "x.org")) (set_Answer [ex_cname (str "a.net."); ex_cname (str "Ads.net.")] ex_msg)
    err p' ps' msg') as [_ H].
  - exact Hb.
  - reflexivity.
  - discriminate.
  - apply (bool_decide_unpack _). vm_compute. exact I.
  - exact E.
  - rewrite H. split; [intros Ha; exists b; exact (conj eq_refl Ha)|intros (b' & [= <-] & Ha); exact Ha].
Defined.
