(* ===== verification/IPLists.v ===== *)
(** * Lists of addresses (plugin_block_ip.go, plugin_allow_ip.go)

    The plugins that reject responses by the addresses they hold, and the plugin
    that exempts responses from them.  The radix tree of the prefixes is the set
    of its keys with the library's look-up of the longest one; the table of the
    networks (critbitgo) is the interface [NetTable]. *)

From S2P Require Import Prelude GoStrings NetIP NetIPProps Common Crypto Dns DnsUtils Metrics Plugins.
From S2P Require Import RuleLog Reload.

Class NetTable (Net : Type) := {
  NewNet : Net;
  AddCIDR : bytes -> Net -> option Net;
  Size : Net -> Z;
  MatchIP : Net -> bytes -> option bytes;
}.

(** [LongestPrefix] of the tree of prefixes. *)
Class PrefixSet := { LongestPrefix : gset bytes -> bytes -> option bytes }.

Section ips.
Context {Net : Type} `{NT : NetTable Net} `{PS : PrefixSet} `{L : IPCryptLib}.
Context (unicode_lower unicode_quote : bytes -> bytes).

(** The plugin's state: [PluginBlockIP] and [PluginAllowedIP] have the same
    fields. *)
Record PluginIP := {
  ip_prefixes : gset bytes; ip_ips : gset bytes; ip_networks : Net;
  ip_logger : option Writer; ip_format : bytes; ip_cryptConfig : option IPCryptConfig;
  ip_configFile : bytes;
  stagingPrefixes : option (gset bytes); stagingIPs : option (gset bytes);
  stagingNetworks : option Net;
}.

Definition set_ip_logger (w : option Writer) (p : PluginIP) : PluginIP :=
  {| ip_prefixes := ip_prefixes p; ip_ips := ip_ips p; ip_networks := ip_networks p; ip_logger := w;
     ip_format := ip_format p; ip_cryptConfig := ip_cryptConfig p; ip_configFile := ip_configFile p;
     stagingPrefixes := stagingPrefixes p; stagingIPs := stagingIPs p;
     stagingNetworks := stagingNetworks p |}.

Definition set_ip_staging (sp si : option (gset bytes)) (sn : option Net) (p : PluginIP) : PluginIP :=
  {| ip_prefixes := ip_prefixes p; ip_ips := ip_ips p; ip_networks := ip_networks p;
     ip_logger := ip_logger p; ip_format := ip_format p; ip_cryptConfig := ip_cryptConfig p;
     ip_configFile := ip_configFile p; stagingPrefixes := sp; stagingIPs := si; stagingNetworks := sn |}.

Definition load_ips (lines : bytes) : ip_rules Net * option rule_error :=
  LoadIPRules unicode_lower AddCIDR lines {| prefixes := ∅; ips := ∅; networks := Some NewNet |}.

Definition PluginIP_Init (cfg : option IPCryptConfig) (file : bytes) (bin : option bytes)
    (open : bytes -> Writer) (logFile logFormat : bytes) (p : PluginIP) : PluginIP * option reload_error :=
  let p := {| ip_prefixes := ip_prefixes p; ip_ips := ip_ips p; ip_networks := ip_networks p;
              ip_logger := ip_logger p; ip_format := ip_format p; ip_cryptConfig := ip_cryptConfig p;
              ip_configFile := file; stagingPrefixes := stagingPrefixes p; stagingIPs := stagingIPs p;
              stagingNetworks := stagingNetworks p |} in
  match bin with
  | None => (p, Some FileUnreadable)
  | Some bin =>
      let '(r, err) := load_ips (ReadTextFile bin) in
      match err with
      | Some _ => (p, Some BadConfig)
      | None =>
          let '(w, fmt) := InitializePluginLogger open logFile logFormat in
          ({| ip_prefixes := prefixes r; ip_ips := ips r; ip_networks := default NewNet (networks r);
              ip_logger := w; ip_format := fmt; ip_cryptConfig := cfg; ip_configFile := file;
              stagingPrefixes := stagingPrefixes p; stagingIPs := stagingIPs p;
              stagingNetworks := stagingNetworks p |}, None)
      end
  end.

(** The text an answer's address is matched as; an IPv4-mapped IPv6 address is
    converted to IPv4. *)
Definition answer_ip (answer : RR) : option bytes :=
  if negb (Class_ (hdr answer) =? ClassINET) then None
  else match data answer with
  | RD_A addr => Some (ip_String addr)
  | RD_AAAA addr => Some (ip_String addr)
  | _ => None
  end.

(** The body of the loop: the reason for which an address is listed. *)
Definition match_ip (p : PluginIP) (ipStr : bytes) : option bytes :=
  if bool_decide (ipStr ∈ ip_ips p) then Some ipStr
  else
    let by_network :=
      if Size (ip_networks p) >? 0 then
        match ParseIP ipStr with
        | Some ip => MatchIP (ip_networks p) ip
        | None => None
        end
      else None in
    match LongestPrefix (ip_prefixes p) ipStr with
    | Some m =>
        if (len m =? len ipStr) || (nth (length m) ipStr 0 =? 46) || (nth (length m) ipStr 0 =? 58)
        then Some (m ++ str "*") else by_network
    | None => by_network
    end.

(** The loop over the answers: the reason and the address of the first match. *)
Fixpoint match_answers (p : PluginIP) (answers : list RR) : option (bytes * bytes) :=
  match answers with
  | [] => None
  | answer :: answers' =>
      match answer_ip answer with
      | None => match_answers p answers'
      | Some ipStr =>
          match match_ip p ipStr with
          | Some reason => Some (reason, ipStr)
          | None => match_answers p answers'
          end
      end
  end.

Definition PluginBlockIP_Eval (now : LocalTime) (tweak : Z -> option bytes) : Plugin PluginIP :=
  fun p ps msg =>
  if whitelisted ps then (None, p, ps, msg)
  else match match_answers p (Answer msg) with
  | None => (None, p, ps, msg)
  | Some (reason, ipStr) =>
      let ps := set_returnCode PluginsReturnCodeReject (set_action PluginsActionReject ps) in
      let '(w, err, _) :=
        log_rule unicode_quote now tweak (ip_cryptConfig p) (ip_logger p) (ip_format p) ps (qName ps)
          reason [ipStr] in
      (err, set_ip_logger w p, ps, msg)
  end.

Definition PluginAllowedIP_Eval (now : LocalTime) (tweak : Z -> option bytes) : Plugin PluginIP :=
  fun p ps msg =>
  match match_answers p (Answer msg) with
  | None => (None, p, ps, msg)
  | Some (reason, ipStr) =>
      let ps := set_whitelisted true ps in
      let '(w, err, _) :=
        log_rule unicode_quote now tweak (ip_cryptConfig p) (ip_logger p) (ip_format p) ps (qName ps)
          reason [ipStr] in
      (err, set_ip_logger w p, ps, msg)
  end.

(** ** Reloading *)

Definition PluginIP_PrepareReload (fs : FS) (t : nat) : op PluginIP := fun p =>
  StandardPrepareReloadPattern fs t (ip_configFile p) (fun lines p =>
    let '(r, err) := load_ips lines in
    (set_ip_staging (Some (prefixes r)) (Some (ips r)) (networks r) p,
     match err with Some _ => Some BadConfig | None => None end)) p.

Definition PluginIP_ApplyReload : op PluginIP :=
  StandardApplyReloadPattern (fun p =>
    match stagingPrefixes p, stagingIPs p, stagingNetworks p with
    | Some sp, Some si, Some sn =>
        ({| ip_prefixes := sp; ip_ips := si; ip_networks := sn; ip_logger := ip_logger p;
            ip_format := ip_format p; ip_cryptConfig := ip_cryptConfig p;
            ip_configFile := ip_configFile p; stagingPrefixes := None; stagingIPs := None;
            stagingNetworks := None |}, None)
    | _, _, _ => (p, Some NoStagedConfig)
    end).

Definition PluginIP_CancelReload (p : PluginIP) : PluginIP := set_ip_staging None None None p.

#[export] Instance PluginIP_reloadable
  : ReloadablePlugin PluginIP (gset bytes * gset bytes * Net) := {|
  activeRules p := Some (ip_prefixes p, ip_ips p, ip_networks p);
  stagedRules p := sp ← stagingPrefixes p; si ← stagingIPs p; sn ← stagingNetworks p; Some (sp, si, sn);
  GetConfigPath := ip_configFile;
  PrepareReload := PluginIP_PrepareReload; ApplyReload := PluginIP_ApplyReload;
  CancelReload := PluginIP_CancelReload;
  Reload fs t := reload_body (PluginIP_PrepareReload fs t) PluginIP_CancelReload PluginIP_ApplyReload;
|}.

(** The operations of [PluginAllowedIP] are those of [PluginBlockIP], on lists of its own. *)
Definition PluginAllowedIP_Init := PluginIP_Init.
Definition PluginAllowedIP_PrepareReload := PluginIP_PrepareReload.
Definition PluginAllowedIP_ApplyReload := PluginIP_ApplyReload.
Definition PluginAllowedIP_CancelReload := PluginIP_CancelReload.
Definition PluginAllowedIP_Reload (fs : FS) (t : nat) : op PluginIP :=
  reload_body (PluginAllowedIP_PrepareReload fs t) PluginAllowedIP_CancelReload PluginAllowedIP_ApplyReload.
Definition PluginAllowedIP_reloadable : ReloadablePlugin PluginIP (gset bytes * gset bytes * Net) := {|
  activeRules := activeRules; stagedRules := stagedRules; GetConfigPath := ip_configFile;
  PrepareReload := PluginAllowedIP_PrepareReload; ApplyReload := PluginAllowedIP_ApplyReload;
  CancelReload := PluginAllowedIP_CancelReload; Reload := PluginAllowedIP_Reload;
|}.
End ips.
Arguments PluginIP : clear implicits.
