(* ===== verification/IPListsProps.v ===== *)
(** * Properties of the lists of addresses *)

From S2P Require Import Prelude GoStrings NetIP NetIPProps Common Crypto Dns DnsUtils Metrics Plugins.
From S2P Require Import PrefixTree RuleLog RuleLogProps Reload NameListsProps IPLists.

(** ** What the libraries promise *)

Class PrefixSetLaws (PS : PrefixSet) := {
  LongestPrefix_Some : forall s x m, LongestPrefix s x = Some m ->
    m ∈ s /\ HasPrefix x m = true /\
    forall m', m' ∈ s -> HasPrefix x m' = true -> (length m' <= length m)%nat;
  LongestPrefix_None : forall s x, LongestPrefix s x = None ->
    forall m, m ∈ s -> HasPrefix x m = false;
}.

(** [in_cidr c ip]: the address is in the network written [c].  This is the behaviour that the
    package documents; the vendored version can miss a route when a table has both default
    routes, [0.0.0.0/0] and [::/0]. *)
Class NetTableLaws (Net : Type) `{NT : NetTable Net} (in_cidr : bytes -> bytes -> Prop) := {
  net_mem : Net -> bytes -> Prop;
  NewNet_mem : forall ip, ~ net_mem NewNet ip;
  AddCIDR_Some : forall c n n' ip, AddCIDR c n = Some n' -> net_mem n' ip <-> in_cidr c ip \/ net_mem n ip;
  AddCIDR_None : forall c n ip, AddCIDR c n = None -> ~ in_cidr c ip;
  MatchIP_mem : forall n ip, is_Some (MatchIP n ip) <-> net_mem n ip;
  Size_mem : forall n ip, net_mem n ip -> 0 < Size n;
}.

(** ** The rules of a file *)

Inductive ip_rule := IpExact (text : bytes) | IpPrefix (text : bytes) | IpNet (cidr : bytes).

Definition line_ip_rule (lower : bytes -> bytes) (line : bytes) : option ip_rule :=
  let line := TrimAndStripInlineComments line in
  if len line =? 0 then None
  else if Contains line (str "/") then Some (IpNet line)
  else match ParseIPRule lower line 0 with
  | Err _ => None
  | Ok (text, true) => Some (IpPrefix text)
  | Ok (text, false) => Some (IpExact text)
  end.

Definition file_ip_rules (lower : bytes -> bytes) (lines : bytes) : list ip_rule :=
  omap (line_ip_rule lower) (Split lines 10).

Lemma ParseIPRule_line lower line (n : Z) :
  match ParseIPRule lower line n with
  | Ok r => ParseIPRule lower line 0 = Ok r
  | Err _ => exists e, ParseIPRule lower line 0 = Err e
  end.
Proof. unfold ParseIPRule. repeat case_match; naive_solver. Qed.

Section ips.
Context {Net : Type} `{NT : NetTable Net} `{PS : PrefixSet} `{L : IPCryptLib}.
Context (lower quote : bytes -> bytes).
Context (in_cidr : bytes -> bytes -> Prop) `{NL : !NetTableLaws Net in_cidr} `{!PrefixSetLaws PS}.

(** The structures hold the rules [l]. *)
Record ip_holds (r : ip_rules Net) (l : list ip_rule) : Prop := {
  ih_prefixes : forall x, x ∈ prefixes r <-> IpPrefix x ∈ l;
  ih_ips : forall x, x ∈ ips r <-> IpExact x ∈ l;
  ih_networks : exists n, networks r = Some n /\ forall ip, net_mem n ip <-> exists c, IpNet c ∈ l /\ in_cidr c ip;
}.

Lemma LoadIPRule_holds line n r l : ip_holds r l -> (len (TrimAndStripInlineComments line) =? 0) = false ->
  exists r', LoadIPRule lower AddCIDR (TrimAndStripInlineComments line) n r = (r', None) /\
    ip_holds r' (l ++ option_list (line_ip_rule lower line)).
Proof.
  intros [Hp Hi (nets & Hn & Hm)] Hlen. unfold LoadIPRule, line_ip_rule. rewrite Hlen.
  destruct (Contains _ _).
  - rewrite Hn. destruct (AddCIDR _ nets) as [nets'|] eqn:E; eexists; (split; [reflexivity|]).
    + split; simpl; [set_solver..|]. exists nets'. split; [done|]. intros ip.
      rewrite (AddCIDR_Some _ _ _ ip E), Hm. set_solver.
    + split; simpl; [set_solver..|]. exists nets. split; [done|]. intros ip. rewrite Hm.
      pose proof (AddCIDR_None _ _ ip E). set_solver.
  - pose proof (ParseIPRule_line lower (TrimAndStripInlineComments line) n) as Hl.
    destruct (ParseIPRule lower _ n) as [[text []]|e].
    + rewrite Hl. eexists. split; [reflexivity|]. split; simpl; [set_solver..|].
      exists nets. split; [done|]. intros ip. rewrite Hm. set_solver.
    + rewrite Hl. eexists. split; [reflexivity|]. split; simpl; [set_solver..|].
      exists nets. split; [done|]. intros ip. rewrite Hm. set_solver.
    + destruct Hl as [e' ->]. eexists. split; [reflexivity|]. simpl. rewrite app_nil_r. split; eauto.
Qed.

Lemma load_ips_holds lines : exists r, load_ips lower lines = (r, None) /\ ip_holds r (file_ip_rules lower lines).
Proof.
  unfold load_ips, LoadIPRules, ProcessConfigLines, file_ip_rules.
  assert (ip_holds {| prefixes := ∅; ips := ∅; networks := Some NewNet |} []) as H0.
  { split; simpl; [set_solver..|]. exists NewNet. split; [done|]. intros ip.
    pose proof (NewNet_mem ip). set_solver. }
  revert H0. generalize ({| prefixes := ∅; ips := ∅; networks := Some NewNet |} : ip_rules Net) as r.
  rewrite <- (app_nil_l (omap _ _)). generalize ([] : list ip_rule) as l. generalize 0 as n.
  induction (Split lines 10) as [|line ls IH]; intros n l r H0.
  { exists r. split; [done|]. by rewrite app_nil_r. }
  cbn [process_lines omap list_omap]. destruct (len (TrimAndStripInlineComments line) =? 0) eqn:E.
  { replace (line_ip_rule lower line) with (@None ip_rule) by (unfold line_ip_rule; by rewrite E). by apply IH. }
  destruct (LoadIPRule_holds line n r l H0 E) as (r' & -> & H1).
  destruct (IH (n + 1) _ _ H1) as (r'' & Hr & H2). exists r''. split; [done|].
  rewrite <- app_assoc in H2. destruct (line_ip_rule lower line); exact H2.
Qed.

(** *** The plugins are reloadable *)

Definition load_ip_rules (p : PluginIP Net) (lines : bytes)
    : result reload_error (gset bytes * gset bytes * Net) :=
  let r := (load_ips lower lines).1 in Ok (prefixes r, ips r, default NewNet (networks r)).

Lemma PluginIP_laws : ReloadableLaws (I := PluginIP_reloadable lower) (PluginIP Net) _ load_ip_rules.
Proof.
  split.
  - intros fs t p p' err. cbn. unfold PluginIP_PrepareReload, StandardPrepareReloadPattern.
    destruct (SafeReadTextFile _ _ _); [|by intros [= <- <-]].
    destruct (load_ips _ _) as [r [e|]]; by intros [= <- <-].
  - intros fs t p. cbn. unfold PluginIP_PrepareReload, StandardPrepareReloadPattern, load_ip_rules.
    destruct (SafeReadTextFile _ _ _) as [lines|]; [|done].
    destruct (load_ips_holds lines) as (r & -> & [_ _ (n & Hn & _)]). cbn. by rewrite Hn.
  - intros p. cbn. unfold PluginIP_ApplyReload, StandardApplyReloadPattern.
    by destruct (stagingPrefixes p), (stagingIPs p), (stagingNetworks p).
  - done.
  - done.
Qed.

(** ** What is matched *)

(** The text continues after [m] with a separator, or ends. *)
Definition at_boundary (s m : bytes) : bool :=
  (len m =? len s) || (nth (length m) s 0 =? 46) || (nth (length m) s 0 =? 58).

(** The rules of the file that apply to the text of an address: an exact rule, the
    longest prefix if it ends at a boundary, a network. *)
Definition ip_matched (rules : list ip_rule) (s : bytes) : Prop :=
  IpExact s ∈ rules \/
  (exists m, IpPrefix m ∈ rules /\ HasPrefix s m = true /\ at_boundary s m = true /\
     forall m', IpPrefix m' ∈ rules -> HasPrefix s m' = true -> (length m' <= length m)%nat) \/
  (exists c ip, IpNet c ∈ rules /\ ParseIP s = Some ip /\ in_cidr c ip).

(** The plugin uses the rules of a file. *)
Definition ip_loaded (p : PluginIP Net) (rules : list ip_rule) : Prop :=
  ip_holds {| prefixes := ip_prefixes p; ips := ip_ips p; networks := Some (ip_networks p) |} rules.

Lemma match_ip_network p rules s : ip_loaded p rules ->
  is_Some (if Size (ip_networks p) >? 0 then
     match ParseIP s with Some ip => MatchIP (ip_networks p) ip | None => None end else None) <->
  exists c ip, IpNet c ∈ rules /\ ParseIP s = Some ip /\ in_cidr c ip.
Proof.
  intros [_ _ (n & [= <-] & Hm)]. destruct (ParseIP s) as [ip|].
  - transitivity (net_mem (ip_networks p) ip).
    + rewrite <- MatchIP_mem. destruct (Size _ >? 0) eqn:E; [done|]. split; [by intros [??]|].
      rewrite MatchIP_mem. intros H%Size_mem. lia.
    + rewrite Hm. naive_solver.
  - destruct (_ >? 0); (split; [by intros [??]|]); intros (? & ? & _ & ? & _); done.
Qed.

Lemma match_ip_spec p rules s : ip_loaded p rules -> is_Some (match_ip p s) <-> ip_matched rules s.
Proof.
  intros Hh. pose proof (match_ip_network p rules s Hh) as Hnet. destruct Hh as [Hp Hi _]. simpl in Hp, Hi.
  unfold match_ip, ip_matched. case_bool_decide as Hin; [split; [intros _; left; by apply Hi|done]|].
  assert (~ IpExact s ∈ rules) as Hni by (by rewrite <- Hi).
  destruct (LongestPrefix (ip_prefixes p) s) as [m|] eqn:E.
  - apply LongestPrefix_Some in E as (Hm & Hpre & Hmax). fold (at_boundary s m).
    destruct (at_boundary s m) eqn:Hb.
    + split; [|done]. intros _. right. left. exists m. split_and!; [by apply Hp|done|done|].
      intros m' Hm'%Hp. by apply Hmax.
    + rewrite Hnet. split; [auto|]. intros [?|[(m' & H1 & H2 & H3 & H4)|?]]; [done| |done].
      exfalso. apply Hp in Hm as Hm'. specialize (H4 m Hm' Hpre).
      specialize (Hmax m' (proj2 (Hp m') H1) H2).
      apply HasPrefix_take in Hpre as [Hpre _]. apply HasPrefix_take in H2 as [H2 _].
      assert (m = m') by (rewrite Hpre, H2; f_equal; lia). congruence.
  - rewrite Hnet. split; [auto|]. intros [?|[(m' & H1 & H2 & _)|?]]; [done| |done].
    exfalso. apply Hp in H1. rewrite (LongestPrefix_None _ _ E m' H1) in H2. done.
Qed.

Lemma match_answers_spec p rules answers : ip_loaded p rules ->
  is_Some (match_answers p answers) <-> Exists (ip_matched rules) (omap answer_ip answers).
Proof.
  intros Hh. induction answers as [|a answers IH]; cbn [match_answers omap list_omap].
  { split; [by intros [??]|]. intros H. inversion H. }
  destruct (answer_ip a) as [s|]; [|done]. rewrite Exists_cons, <- (match_ip_spec p rules s Hh), <- IH.
  destruct (match_ip p s); [split; eauto|]. split; [auto|]. intros [[??]|?]; done.
Qed.

Lemma Init_ip_loaded cfg file bin open logFile fmt p0 p :
  PluginIP_Init lower cfg file (Some bin) open logFile fmt p0 = (p, None) ->
  ip_loaded p (file_ip_rules lower (ReadTextFile bin)).
Proof.
  unfold PluginIP_Init. destruct (load_ips_holds (ReadTextFile bin)) as (r & -> & [Hp Hi (n & Hn & Hm)]).
  destruct (InitializePluginLogger _ _ _) as [w f]. intros [= <-].
  split; simpl; [done|done|]. exists n. by rewrite Hn.
Qed.

(** C34: responses are rejected by address as the rule file says: once the plugin
    is initialized from the text of a rule file, it rejects a response that is not
    exempted exactly when the address of one of its A or AAAA answers is matched
    (an exact rule, the longest matching prefix if it ends at a separator, or a
    network); other responses pass unchanged and are not logged. *)
Theorem block_ip_decision cfg file bin open logFile fmt p0 p now tweak ps msg err p' ps' msg' :
  PluginIP_Init lower cfg file (Some bin) open logFile fmt p0 = (p, None) ->
  whitelisted ps = false -> action ps <> PluginsActionReject ->
  PluginBlockIP_Eval quote now tweak p ps msg = (err, p', ps', msg') ->
  let rules := file_ip_rules lower (ReadTextFile bin) in
  msg' = msg /\
  (action ps' = PluginsActionReject <-> Exists (ip_matched rules) (omap answer_ip (Answer msg))) /\
  (action ps' <> PluginsActionReject -> ps' = ps /\ p' = p /\ err = None).
Proof.
  intros Hl%Init_ip_loaded Hw Hact H rules. pose proof (match_answers_spec p rules (Answer msg) Hl) as Hs.
  revert H. unfold PluginBlockIP_Eval. rewrite Hw.
  destruct (match_answers p (Answer msg)) as [[reason s]|].
  - destruct (log_rule _ _ _ _ _ _ _ _ _ _) as [[w e] i]. intros [= <- <- <- <-].
    split_and!; [done| |done]. split; [intros _; apply Hs; eauto|done].
  - intros [= <- <- <- <-]. split_and!; [done| |done]. split; [done|]. intros [??]%Hs. done.
Qed.

(** A more specific prefix rule can disable a broader one.  With the two
    rules [192.168.*] and [192.168.1.*], the address 192.168.10.5, which the
    first one covers, is not matched: only the longest matching prefix is looked
    at, and [192.168.1] does not end at a separator there. *)
Theorem prefix_shadowing cfg file open logFile fmt p0 p :
  PluginIP_Init lower cfg file (Some (str "192.168.*" ++ [10] ++ str "192.168.1.*")) open logFile fmt p0
    = (p, None) ->
  IpPrefix (str "192.168") ∈ file_ip_rules lower (str "192.168.*" ++ [10] ++ str "192.168.1.*") /\
  HasPrefix (str "192.168.10.5") (str "192.168") = true /\
  at_boundary (str "192.168.10.5") (str "192.168") = true /\
  match_ip p (str "192.168.10.5") = None.
Proof.
  intros Hl%Init_ip_loaded.
  change (ReadTextFile _) with (str "192.168.*" ++ [10] ++ str "192.168.1.*") in Hl.
  assert (file_ip_rules lower (str "192.168.*" ++ [10] ++ str "192.168.1.*") =
    [IpPrefix (str "192.168"); IpPrefix (str "192.168.1")]) as Hr by (vm_compute; reflexivity).
  rewrite Hr in *. split_and!; [constructor|reflexivity|reflexivity|].
  destruct (match_ip p (str "192.168.10.5")) as [r|] eqn:E; [|done]. exfalso.
  destruct (proj1 (match_ip_spec p _ _ Hl) (mk_is_Some _ _ E)) as [H|[(m & Hm & _ & Hb & Hmax)|(c & ip & H & _)]];
    [set_solver| |set_solver].
  specialize (Hmax (str "192.168.1") ltac:(set_solver) eq_refl).
  apply elem_of_cons in Hm as [[= ->]|[[= ->]|Hm]%elem_of_cons]; [vm_compute in Hmax; lia| |set_solver].
  vm_compute in Hb. discriminate.
Qed.
End ips.

(** ** Instances *)

(** A set searched from the longest prefix down. *)
Definition gset_prefixes : PrefixSet := {|
  LongestPrefix s x := fst <$> search_prefix (gset_to_gmap tt s) x (length x);
|}.

Lemma gset_prefixes_laws : PrefixSetLaws gset_prefixes.
Proof.
  assert (forall (s : gset bytes) k, is_Some (gset_to_gmap tt s !! k) <-> k ∈ s) as Hk.
  { intros s k. rewrite lookup_gset_to_gmap. split; [intros [? H]|intros]; by simplify_option_eq. }
  split; cbn.
  - intros s x m. pose proof (search_prefix_spec (gset_to_gmap tt s) x (length x) ltac:(lia)) as H.
    destruct (search_prefix _ _ _) as [[k v]|]; [|done]. intros [= <-]. destruct H as (H1 & H2 & H3).
    split_and!; [apply Hk; eauto|done|]. intros m' Hm' Hp. apply H3; [by apply Hk|done|].
    by destruct (HasPrefix_take _ _ Hp).
  - intros s x. pose proof (search_prefix_spec (gset_to_gmap tt s) x (length x) ltac:(lia)) as H.
    destruct (search_prefix _ _ _) as [[k v]|]; [done|]. intros _ m Hm.
    destruct (HasPrefix x m) eqn:E; [|done]. specialize (H m (proj2 (Hk s m) Hm) E).
    destruct (HasPrefix_take _ _ E). lia.
Qed.

(** Networks of one address, written with [/32]. *)
Definition host_table : NetTable (list bytes) := {|
  NewNet := [];
  AddCIDR c n := if HasSuffix c (str "/32") then Some (take (length c - 3) c :: n) else None;
  Size n := len n;
  MatchIP n ip := List.find (fun h => bool_decide (h = ip_String ip)) n;
|}.
Definition host_cidr (c ip : bytes) : Prop :=
  HasSuffix c (str "/32") = true /\ take (length c - 3) c = ip_String ip.

Lemma host_table_laws : NetTableLaws (NT := host_table) (list bytes) host_cidr.
Proof.
  refine {| net_mem n ip := ip_String ip ∈ (n : list bytes) |}; unfold host_cidr;
    cbn [NewNet AddCIDR Size MatchIP host_table].
  - intros ip. apply not_elem_of_nil.
  - intros c n n' ip. destruct (HasSuffix c (str "/32")) eqn:E; [|done]. intros [= <-]. rewrite elem_of_cons.
    split; [intros [H|H]; auto|intros [[_ H]|H]; auto].
  - intros c n ip. destruct (HasSuffix c (str "/32")); [done|]. intros _ [? _]. done.
  - intros n ip. split.
    + intros [h [Hin%list_elem_of_In Hh%bool_decide_eq_true]%List.find_some]. by subst.
    + intros Hin. destruct (List.find _ n) eqn:E; [eauto|].
      eapply List.find_none in E; [|by apply list_elem_of_In]. by apply bool_decide_eq_false in E.
  - intros n ip Hin. destruct n; [by apply not_elem_of_nil in Hin|]. unfold len. simpl. lia.
Qed.

Definition ex_ip_plugin : PluginIP (list bytes) :=
  {| ip_prefixes := ∅; ip_ips := ∅; ip_networks := []; ip_logger := None; ip_format := [];
     ip_cryptConfig := None; ip_configFile := []; stagingPrefixes := None; stagingIPs := None;
     stagingNetworks := None |}.
Definition ex_ip_file : bytes := str "10.1.*" ++ [10] ++ str "192.0.2.7/32" ++ [10] ++ str "::1 # loopback".
Definition ex_ip_blocker : PluginIP (list bytes) :=
  (PluginIP_Init (NT := host_table) id None (str "/ip") (Some ex_ip_file) (fun _ => sample_writer) [] [] ex_ip_plugin).1.
Definition ex_a_msg (addr : bytes) : Msg :=
  {| MH := zero_MsgHeader; Questions := []; Ns := []; Extra := []; Pseudo := [];
     Answer := [{| hdr := {| Name := str "x.org."; Class_ := ClassINET; TTL := 60 |}; data := RD_A addr |}] |}.

Lemma block_ip_decision_witness :
  let '(_, _, ps', _) := PluginBlockIP_Eval (NT := host_table) (PS := gset_prefixes) (L := reversing_lib) id
    ex_sunday (fun _ => None) ex_ip_blocker sample_client_state (ex_a_msg [192; 0; 2; 7]) in
  action ps' = PluginsActionReject <->
  Exists (ip_matched host_cidr (file_ip_rules id (ReadTextFile ex_ip_file))) [str "192.0.2.7"].
Proof.
  destruct (PluginBlockIP_Eval _ _ _ _ _ _) as [[[err p'] ps'] msg'] eqn:E.
  destruct (block_ip_decision (NT := host_table) (PS := gset_prefixes) (L := reversing_lib) id id host_cidr
    (NL := host_table_laws) (PrefixSetLaws0 := gset_prefixes_laws) None (str "/ip") ex_ip_file (fun _ => sample_writer)
    [] [] ex_ip_plugin ex_ip_blocker ex_sunday (fun _ => None) sample_client_state (ex_a_msg [192; 0; 2; 7])
    err p' ps' msg') as (_ & H & _).
  - vm_compute. reflexivity.
  - reflexivity.
  - discriminate.
  - exact E.
  - exact H.
Defined.

Lemma prefix_shadowing_witness :
  match_ip (NT := host_table) (PS := gset_prefixes)
    (PluginIP_Init (NT := host_table) id None [] (Some (str "192.168.*" ++ [10] ++ str "192.168.1.*"))
       (fun _ => sample_writer) [] [] ex_ip_plugin).1 (str "192.168.10.5") = None.
Proof.
  destruct (prefix_shadowing (NT := host_table) (PS := gset_prefixes) id id host_cidr
    (NL := host_table_laws) (PrefixSetLaws0 := gset_prefixes_laws) None [] (fun _ => sample_writer) [] []
    ex_ip_plugin (PluginIP_Init (NT := host_table) id None [] (Some (str "192.168.*" ++ [10] ++ str "192.168.1.*"))
       (fun _ => sample_writer) [] [] ex_ip_plugin).1) as (_ & _ & _ & H).
  - vm_compute. reflexivity.
  - exact H.
Defined.
