(* ===== verification/Cloak.v ===== *)
(** * Cloaking (plugin_cloak.go)

    Names answered with configured addresses, with the addresses of another name,
    or with reverse names.  The rules are objects that the pattern matcher points
    to and that a query updates in place when it resolves a target: they live in a
    store, a pointer being the pattern of the rule, which is the key under which
    [loadRules] keeps it.

    The iteration over a Go map is in an unspecified order: [range] gives the order
    of one.  The resolution of a target ([resolveUsingServers]) and the shuffling
    of the answers are arguments. *)

From S2P Require Import Prelude GoStrings NetIP NetIPProps Common Crypto Dns DnsUtils Metrics Plugins.
From S2P Require Import Glob PrefixTree PatternMatcher Reload.

Record CloakedName := {
  target : bytes;
  ipv4 : list bytes;
  ipv6 : list bytes;
  lastUpdate4 : option Time;
  lastUpdate6 : option Time;
  lineNo : Z;
  isIP : bool;
  PTR : list bytes;
}.

Definition no_CloakedName : CloakedName :=
  {| target := []; ipv4 := []; ipv6 := []; lastUpdate4 := None; lastUpdate6 := None; lineNo := 0;
     isIP := false; PTR := [] |}.

Definition followsTarget (c : CloakedName) : bool := negb (isIP c) && negb (bool_decide (target c = [])).

Notation names := (gmap bytes CloakedName).

(** [RuntimePanic] is an index out of range. *)
Inductive cloak_error :=
| RuntimePanic | BadPattern (line : bytes) | RecursiveRule (line : Z) (tgt pattern : bytes).

#[global] Instance cloak_error_eq_dec : EqDecision cloak_error.
Proof. solve_decision. Defined.

Definition ptrEntryToQuery (ptrEntry : bytes) : bytes := str "=" ++ ptrEntry.
Definition ptrNameToFQDN (ptrLine : bytes) : bytes := TrimPrefix ptrLine (str "=") ++ str ".".

(** ** Loading *)

(** The effect of a rule's target on its object. *)
Definition set_target (lower : bytes -> bytes) (ip : option bytes) (tgt : bytes) (n : Z) (c : CloakedName)
    : CloakedName :=
  match ip with
  | Some ip =>
      match To4 ip with
      | Some v4 =>
          {| target := target c; ipv4 := ipv4 c ++ [v4]; ipv6 := ipv6 c; lastUpdate4 := lastUpdate4 c;
             lastUpdate6 := lastUpdate6 c; lineNo := n; isIP := true; PTR := PTR c |}
      | None =>
          {| target := target c; ipv4 := ipv4 c; ipv6 := ipv6 c ++ [ip]; lastUpdate4 := lastUpdate4 c;
             lastUpdate6 := lastUpdate6 c; lineNo := n; isIP := true; PTR := PTR c |}
      end
  | None =>
      {| target := ToLower lower tgt; ipv4 := ipv4 c; ipv6 := ipv6 c; lastUpdate4 := lastUpdate4 c;
         lastUpdate6 := lastUpdate6 c; lineNo := n; isIP := isIP c; PTR := PTR c |}
  end.

Definition add_ptr (ptr : bytes) (n : Z) (c : CloakedName) : CloakedName :=
  {| target := target c; ipv4 := ipv4 c; ipv6 := ipv6 c; lastUpdate4 := lastUpdate4 c;
     lastUpdate6 := lastUpdate6 c; lineNo := n; isIP := true; PTR := PTR c ++ [ptr] |}.

(** One line of the file; [n] is its number from 0. *)
Definition load_line (lower : bytes -> bytes) (createPTR : bool) (line : bytes) (n : Z) (ns : names)
    : result cloak_error names :=
  let line := TrimAndStripInlineComments line in
  if len line =? 0 then Ok ns
  else
    let parts := Fields line in
    if (2 <? length parts)%nat then Ok ns
    else
      let '(line, tgt) := match parts with
                          | [a; b] => (TrimSpace a, TrimSpace b)
                          | _ => (line, [])
                          end in
      if (len line =? 0) || (len tgt =? 0) then Ok ns
      else
        let line := ToLower lower line in
        let ip := ParseIP tgt in
        let cloakedName := set_target lower ip tgt (n + 1) (default no_CloakedName (ns !! line)) in
        let ns := <[line := cloakedName]> ns in
        if negb createPTR || Contains line (str "*") || negb (isIP cloakedName) then Ok ns
        else
          let ptr_for (addr : bytes) : result cloak_error names :=
            match reverseAddr (ip_String addr) with
            | None => Ok ns
            | Some reversed =>
                let ptrQueryLine := ptrEntryToQuery (TrimSuffix reversed (str ".")) in
                Ok (<[ptrQueryLine := add_ptr (ptrNameToFQDN line) (n + 1)
                                        (default no_CloakedName (ns !! ptrQueryLine))]> ns)
            end in
          match ip ≫= To4 with
          | Some v4 => ptr_for v4
          | None =>
              match ipv6 cloakedName with
              | [] => Err RuntimePanic
              | first :: _ => ptr_for first
              end
          end.

Fixpoint load_lines (lower : bytes -> bytes) (createPTR : bool) (lines : list bytes) (n : Z) (ns : names)
    : result cloak_error names :=
  match lines with
  | [] => Ok ns
  | line :: lines' => ns ← load_line lower createPTR line n ns; load_lines lower createPTR lines' (n + 1) ns
  end.

Section cloak.
Context {T : Type -> Type} `{PT : PrefixTree T}.
Context (lower : bytes -> bytes).

Notation matcher := (@PatternMatcher T bytes).

(** The rules in use: the matcher, whose values are pointers, and the objects. *)
Record CloakRules := { cl_matcher : matcher; cl_names : names }.

Fixpoint add_names (keys : list bytes) (m : matcher) : result cloak_error matcher :=
  match keys with
  | [] => Ok m
  | line :: keys' =>
      match pm_Add lower line line m with
      | None => Err (BadPattern line)
      | Some m => add_names keys' m
      end
  end.

(** The rule that the target of [c] leads to, if it has to be followed, and the
    pattern it is found with. *)
Definition follow_target (r : CloakRules) (c : CloakedName) : option (bytes * bytes) :=
  match pm_Eval (cl_matcher r) (target c) with
  | Some (pattern, Some key) =>
      match cl_names r !! key with
      | Some next => if followsTarget next then Some (pattern, key) else None
      | None => None
      end
  | _ => None
  end.

(** The walk along the targets from one rule: [None] when the fuel runs out,
    [Some (Some pattern)] when a rule is met again. *)
Fixpoint walk (fuel : nat) (r : CloakRules) (visited : gset bytes) (current : CloakedName)
    : option (option bytes) :=
  match fuel with
  | O => None
  | S fuel' =>
      match follow_target r current with
      | None => Some None
      | Some (pattern, next) =>
          if bool_decide (next ∈ visited) then Some (Some pattern)
          else walk fuel' r ({[next]} ∪ visited) (default no_CloakedName (cl_names r !! next))
      end
  end.

(** One more step than there are rules is enough, see [walk_total]. *)
Definition walk_fuel (r : CloakRules) : nat := S (size (cl_names r)).

Definition detect_step (r : CloakRules) (first : option (CloakedName * bytes)) (entry : bytes * CloakedName)
    : option (CloakedName * bytes) :=
  let '(key, cloakedName) := entry in
  if negb (followsTarget cloakedName) then first
  else match walk (walk_fuel r) r {[key]} cloakedName with
  | Some (Some pattern) =>
      match first with
      | Some (f, p) => if lineNo cloakedName <? lineNo f then Some (cloakedName, pattern) else Some (f, p)
      | None => Some (cloakedName, pattern)
      end
  | _ => first
  end.

Definition detectCloakingLoops (range : names -> list (bytes * CloakedName)) (r : CloakRules)
    : option cloak_error :=
  match fold_left (detect_step r) (range (cl_names r)) None with
  | Some (f, pattern) => Some (RecursiveRule (lineNo f) (target f) pattern)
  | None => None
  end.

Definition loadRules (createPTR : bool) (range range' : names -> list (bytes * CloakedName)) (lines : bytes)
    : result cloak_error CloakRules :=
  ns ← load_lines lower createPTR (Split lines 10) 0 ∅;
  m ← add_names ((range ns).*1) NewPatternMatcher;
  let r := {| cl_matcher := m; cl_names := ns |} in
  match detectCloakingLoops range' r with
  | Some e => Err e
  | None => Ok r
  end.

(** ** The plugin *)

Record PluginCloak := {
  cl_active : CloakRules;
  cl_ttl : Z;
  cl_createPTR : bool;
  cl_configFile : bytes;
  cl_staging : option CloakRules;
}.

Definition set_cl_active (r : CloakRules) (p : PluginCloak) : PluginCloak :=
  {| cl_active := r; cl_ttl := cl_ttl p; cl_createPTR := cl_createPTR p;
     cl_configFile := cl_configFile p; cl_staging := cl_staging p |}.

Definition PluginCloak_Init (range range' : names -> list (bytes * CloakedName)) (file : bytes)
    (ttl : Z) (ptr : bool) (bin : option bytes) : result (option cloak_error) PluginCloak :=
  match bin with
  | None => Err None
  | Some bin =>
      match loadRules ptr range range' (ReadTextFile bin) with
      | Err e => Err (Some e)
      | Ok r => Ok {| cl_active := r; cl_ttl := ttl; cl_createPTR := ptr; cl_configFile := file;
                      cl_staging := None |}
      end
  end.

(** The time left of [ttl] since the last update, and whether it has passed.  The
    seconds elapsed, a floating-point number in the source, are a whole number
    here, and the conversion to 32 bits wraps around. *)
Definition remaining (now : Time) (ttl : Z) (lastUpdate : option Time) : Z * bool :=
  match lastUpdate with
  | None => (ttl, false)
  | Some t =>
      let elapsed := uint32 (go_div (time_sub now t) Second) in
      if elapsed <? ttl then (ttl - elapsed, false) else (ttl, true)
  end.

(** What the resolution of a target changes. *)
Definition set_resolved (v4 : bool) (now : Time) (foundIPs : list bytes) (c : CloakedName) : CloakedName :=
  if len foundIPs >? 0 then
    let found := take (Z.to_nat (Min 16 (len foundIPs))) foundIPs in
    if v4 then
      {| target := target c; ipv4 := found; ipv6 := ipv6 c; lastUpdate4 := Some now;
         lastUpdate6 := lastUpdate6 c; lineNo := lineNo c; isIP := isIP c; PTR := PTR c |}
    else
      {| target := target c; ipv4 := ipv4 c; ipv6 := found; lastUpdate4 := lastUpdate4 c;
         lastUpdate6 := Some now; lineNo := lineNo c; isIP := isIP c; PTR := PTR c |}
  else c.

Definition rr_of (qname : bytes) (ttl : Z) (d : rdata) : RR :=
  {| hdr := {| Name := qname; Class_ := ClassINET; TTL := ttl |}; data := d |}.

(** The answers; [None] is the panic of a conversion of an address to an array. *)
Definition cloaked_answers (qtype : Z) (qname : bytes) (ttl : Z) (c : CloakedName) : option (list RR) :=
  if qtype =? TypeA then
    mapM (fun ip => v4 ← To4 ip; Some (rr_of qname ttl (RD_A v4))) (ipv4 c)
  else if qtype =? TypeAAAA then
    mapM (fun ip => v6 ← To16 ip; Some (rr_of qname ttl (RD_AAAA v6))) (ipv6 c)
  else if qtype =? TypePTR then
    Some ((fun ptr => rr_of qname ttl (RD_PTR ptr)) <$> PTR c)
  else Some [].

(** [resolve target v4]: the addresses found, or [None] on an error. *)
Definition PluginCloak_Eval (now : Time) (resolve : bytes -> bool -> option (list bytes))
    (shuffle : list RR -> list RR) : Plugin PluginCloak := fun p ps msg =>
  match Questions msg with
  | [] => (Some PluginPanic, p, ps, msg)
  | question :: _ =>
      let qtype := q_Type question in
      if negb (q_Class question =? ClassINET) || (qtype =? TypeNS) || (qtype =? TypeSOA)
      then (None, p, ps, msg)
      else match pm_Eval (cl_matcher (cl_active p)) (qName ps) with
      | Some (_, Some key) =>
          if negb (qtype =? TypeA) && negb (qtype =? TypeAAAA) && negb (qtype =? TypePTR) then
            (None, p, set_returnCode PluginsReturnCodeCloak (set_action PluginsActionReject ps), msg)
          else
            let cloakedName := default no_CloakedName (cl_names (cl_active p) !! key) in
            let lastUpdate := if qtype =? TypeA then lastUpdate4 cloakedName
                              else if qtype =? TypeAAAA then lastUpdate6 cloakedName else None in
            let '(ttl, expired) := remaining now (cl_ttl p) lastUpdate in
            let synth := EmptyResponseFromMessage msg in
            let answer (p : PluginCloak) (c : CloakedName) :=
              match cloaked_answers qtype (q_Name question) ttl c with
              | None => (Some PluginPanic, p, ps, msg)
              | Some answers =>
                  let ps := set_synthResponse (Some (set_Answer (shuffle answers) synth)) ps in
                  (None, p, set_returnCode PluginsReturnCodeCloak (set_action PluginsActionSynth ps), msg)
              end in
            if followsTarget cloakedName &&
               (((qtype =? TypeA) && bool_decide (ipv4 cloakedName = []))
                || ((qtype =? TypeAAAA) && bool_decide (ipv6 cloakedName = [])) || expired) then
              match resolve (target cloakedName) (qtype =? TypeA) with
              | None =>
                  let synth := set_header (set_Rcode RcodeServerFailure) synth in
                  let ps := set_synthResponse (Some synth) ps in
                  (None, p, set_returnCode PluginsReturnCodeCloak (set_action PluginsActionSynth ps), msg)
              | Some foundIPs =>
                  let c := set_resolved (qtype =? TypeA) now foundIPs cloakedName in
                  let r := {| cl_matcher := cl_matcher (cl_active p);
                              cl_names := <[key := c]> (cl_names (cl_active p)) |} in
                  answer (set_cl_active r p) c
              end
            else answer p cloakedName
      | _ => (None, p, ps, msg)
      end
  end.

(** ** Reloading *)

Definition PluginCloak_PrepareReload (range range' : names -> list (bytes * CloakedName))
    (fs : FS) (t : nat) : op PluginCloak := fun p =>
  match SafeReadTextFile fs t (cl_configFile p) with
  | Err e => (p, Some e)
  | Ok lines =>
      match loadRules (cl_createPTR p) range range' lines with
      | Err RuntimePanic => (p, Some ReloadPanic)
      | Err _ => (p, Some BadConfig)
      | Ok r =>
          ({| cl_active := cl_active p; cl_ttl := cl_ttl p; cl_createPTR := cl_createPTR p;
              cl_configFile := cl_configFile p; cl_staging := Some r |}, None)
      end
  end.

Definition PluginCloak_ApplyReload : op PluginCloak := fun p =>
  match cl_staging p with
  | None => (p, Some NoStagedConfig)
  | Some r =>
      ({| cl_active := r; cl_ttl := cl_ttl p; cl_createPTR := cl_createPTR p;
          cl_configFile := cl_configFile p; cl_staging := None |}, None)
  end.

Definition PluginCloak_CancelReload (p : PluginCloak) : PluginCloak :=
  {| cl_active := cl_active p; cl_ttl := cl_ttl p; cl_createPTR := cl_createPTR p;
     cl_configFile := cl_configFile p; cl_staging := None |}.

Definition PluginCloak_reloadable (range range' : names -> list (bytes * CloakedName))
  : ReloadablePlugin PluginCloak CloakRules := {|
  activeRules p := Some (cl_active p); stagedRules := cl_staging; GetConfigPath := cl_configFile;
  PrepareReload := PluginCloak_PrepareReload range range'; ApplyReload := PluginCloak_ApplyReload;
  CancelReload := PluginCloak_CancelReload;
  Reload fs t := reload_body (PluginCloak_PrepareReload range range' fs t) PluginCloak_CancelReload
                   PluginCloak_ApplyReload;
|}.
End cloak.
Arguments CloakRules : clear implicits.
Arguments PluginCloak : clear implicits.
