(* ===== verification/CloakProps.v ===== *)
(** * Properties of cloaking

    The detection of loops among the rules ends and is exact, and what a cloaked
    name is answered with. *)

From S2P Require Import Prelude GoStrings NetIP NetIPProps Common Crypto Dns DnsUtils Metrics Plugins.
From S2P Require Import Glob PrefixTree PatternMatcher Reload Cloak.

(** ** Chains of a partial function *)

Section chains.
Context {A : Type} (f : A -> option A).

(** The [n]-th element of the chain that starts at [k]. *)
Definition chain (k : A) (n : nat) : option A := Nat.iter n (fun o => o ≫= f) (Some k).

Lemma chain_S k n : chain k (S n) = chain k n ≫= f.
Proof. done. Qed.

Lemma chain_add k n m x : chain k n = Some x -> chain k (n + m) = chain x m.
Proof.
  intros H. induction m as [|m IH]; [by rewrite Nat.add_0_r|].
  by rewrite Nat.add_succ_r, !chain_S, IH.
Qed.

Lemma chain_end k n m : chain k n = None -> (n <= m)%nat -> chain k m = None.
Proof.
  intros H. induction 1 as [|m _ IH]; [done|]. by rewrite chain_S, IH.
Qed.

(** A chain that meets an element again never ends. *)
Lemma chain_periodic k a b x n : chain k a = Some x -> chain k b = Some x -> (a < b)%nat -> chain k n <> None.
Proof.
  intros Ha Hb Hab Hn.
  assert (forall m, chain k (a + m * (b - a)) = Some x) as Hm.
  { induction m as [|m IH]; [by rewrite Nat.add_0_r|].
    replace (a + S m * (b - a))%nat with (a + m * (b - a) + (b - a))%nat by lia.
    rewrite (chain_add _ _ _ _ IH), <- (chain_add k a _ x Ha). by replace (a + (b - a))%nat with b by lia. }
  specialize (Hm n). rewrite (chain_end k n) in Hm; [done|done|]. nia.
Qed.
End chains.

Section cloak.
Context {T : Type -> Type} `{PT : PrefixTree T}.

(** ** The walk along the targets *)

Definition next_rule (r : CloakRules T) (k : bytes) : option bytes :=
  c ← cl_names r !! k; snd <$> follow_target r c.

Lemma follow_target_Some r c pattern k : follow_target r c = Some (pattern, k) ->
  exists c', cl_names r !! k = Some c' /\ followsTarget c' = true.
Proof.
  unfold follow_target. destruct (pm_Eval _ _) as [[pat [key|]]|]; [|done..].
  destruct (cl_names r !! key) as [c'|] eqn:E; [|done].
  destruct (followsTarget c') eqn:F; [|done]. intros [= <- <-]. eauto.
Qed.

(** The rules met on the way from [k0] to [k], last first. *)
Definition is_path (r : CloakRules T) (k0 k : bytes) (path : list bytes) : Prop :=
  NoDup path /\ head path = Some k /\
  forall i x, path !! i = Some x -> chain (next_rule r) k0 (length path - 1 - i) = Some x.

Lemma path_bound r k0 k path : is_path r k0 k path ->
  Forall (fun x => is_Some (cl_names r !! x)) path -> (length path <= size (cl_names r))%nat.
Proof.
  intros [Hnd _] Hdom. rewrite <- size_dom. rewrite <- (size_list_to_set (C := gset bytes) path Hnd).
  apply subseteq_size. intros x Hx%elem_of_list_to_set. rewrite Forall_forall in Hdom.
  by apply elem_of_dom, Hdom.
Qed.

(** The walk reaches a verdict with one more step than there are rules left, and
    the verdict is right. *)
Lemma walk_spec r k0 fuel : forall path k c,
  cl_names r !! k = Some c -> is_path r k0 k path ->
  Forall (fun x => is_Some (cl_names r !! x)) path -> (size (cl_names r) < fuel + length path)%nat ->
  match walk fuel r (list_to_set path) c with
  | None => False
  | Some None => exists n, (n <= size (cl_names r))%nat /\ chain (next_rule r) k0 n = None
  | Some (Some _) => forall n, chain (next_rule r) k0 n <> None
  end.
Proof.
  induction fuel as [|fuel IH]; intros path k c Hc Hp Hdom Hfuel.
  { pose proof (path_bound _ _ _ _ Hp Hdom). lia. }
  cbn [walk]. pose proof (path_bound _ _ _ _ Hp Hdom) as Hb. pose proof Hp as (Hnd & Hhd & Hch).
  destruct path as [|k' path]; [done|]. injection Hhd as ->.
  pose proof (Hch 0%nat k eq_refl) as Hk. rewrite Nat.sub_0_r in Hk. cbn [length] in Hk, Hb, Hfuel.
  replace (S (length path) - 1)%nat with (length path) in Hk by lia.
  assert (chain (next_rule r) k0 (S (length path)) = snd <$> follow_target r c) as Hnext.
  { rewrite chain_S, Hk. cbn. unfold next_rule. by rewrite Hc. }
  destruct (follow_target r c) as [[pattern next]|] eqn:E.
  2:{ exists (S (length path)). split; [lia|done]. }
  cbn [fmap option_fmap option_map snd] in Hnext. case_bool_decide as Hin.
  - intros n. apply elem_of_list_to_set, list_elem_of_lookup in Hin as [i Hi].
    pose proof (lookup_lt_Some _ _ _ Hi) as Hlt. cbn [length] in Hlt. apply Hch in Hi. cbn [length] in Hi.
    apply (chain_periodic _ _ _ _ _ n Hi Hnext). lia.
  - destruct (follow_target_Some _ _ _ _ E) as (c' & Hc' & _). rewrite Hc'. cbn [default].
    apply (IH (next :: k :: path) next c' Hc').
    + split_and!; [constructor; [|done]; intros H; by apply Hin, elem_of_list_to_set|done|].
      intros [|i] x Hx; cbn [length] in *.
      * injection Hx as <-. replace (S (S (length path)) - 1 - 0)%nat with (S (length path)) by lia. done.
      * replace (S (S (length path)) - 1 - S i)%nat with (S (length path) - 1 - i)%nat by lia. by apply Hch.
    + constructor; [by rewrite Hc'|done].
    + cbn [length]. lia.
Qed.

Lemma walk_start r k c : cl_names r !! k = Some c ->
  match walk (walk_fuel r) r {[k]} c with
  | None => False
  | Some None => exists n, (n <= size (cl_names r))%nat /\ chain (next_rule r) k n = None
  | Some (Some _) => forall n, chain (next_rule r) k n <> None
  end.
Proof.
  intros Hc. pose proof (walk_spec r k (walk_fuel r) [k] k c Hc) as H.
  replace (list_to_set [k]) with ({[k]} : gset bytes) in H by set_solver. apply H.
  - split_and!; [apply NoDup_singleton|done|]. intros [|i] x Hx; [by injection Hx as <-|done].
  - constructor; [by rewrite Hc|constructor].
  - unfold walk_fuel. simpl. lia.
Qed.

(** ** The detection of loops *)

(** Following the targets from [k] never ends. *)
Definition recursive (r : CloakRules T) (k : bytes) (c : CloakedName) : Prop :=
  cl_names r !! k = Some c /\ followsTarget c = true /\ forall n, chain (next_rule r) k n <> None.

(** What the loop over the rules has found among the entries seen. *)
Definition first_recursive (r : CloakRules T) (seen : list (bytes * CloakedName))
    (first : option (CloakedName * bytes)) : Prop :=
  match first with
  | None => forall k c, (k, c) ∈ seen -> ~ recursive r k c
  | Some (f, _) => (exists k, (k, f) ∈ seen /\ recursive r k f) /\
      forall k c, (k, c) ∈ seen -> recursive r k c -> lineNo f <= lineNo c
  end.

Lemma detect_step_spec r seen first k c : cl_names r !! k = Some c ->
  first_recursive r seen first -> first_recursive r (seen ++ [(k, c)]) (detect_step r first (k, c)).
Proof.
  intros Hc Hf. unfold detect_step.
  assert (forall first', first_recursive r seen first' -> ~ recursive r k c ->
    first_recursive r (seen ++ [(k, c)]) first') as Hkeep.
  { intros [[f p]|] H Hn; simpl in *.
    - destruct H as [(k' & Hin & Hr) Hmin]. split; [exists k'; set_solver|].
      intros k1 c1 [H1|H1%list_elem_of_singleton]%elem_of_app Hr1; [eauto|by simplify_eq].
    - intros k1 c1 [H1|H1%list_elem_of_singleton]%elem_of_app Hr1; [by eapply H|by simplify_eq]. }
  destruct (followsTarget c) eqn:Ef; [|by apply Hkeep; [|intros (_ & ? & _); congruence]].
  cbn [negb]. pose proof (walk_start r k c Hc) as Hw.
  destruct (walk _ r {[k]} c) as [[pattern|]|]; [|apply Hkeep; [done|]|done].
  2:{ destruct Hw as (n & _ & Hn). intros (_ & _ & H). by apply (H n). }
  assert (recursive r k c) as Hr by done.
  destruct first as [[f p]|]; simpl in Hf.
  - destruct Hf as [(k' & Hin & Hr') Hmin]. destruct (lineNo c <? lineNo f) eqn:Hlt; bools; split;
      [exists k; set_solver| |exists k'; set_solver|];
      intros k1 c1 [H1|H1%list_elem_of_singleton]%elem_of_app Hr1; simplify_eq; try lia;
      specialize (Hmin _ _ H1 Hr1); lia.
  - split; [exists k; set_solver|].
    intros k1 c1 [H1|H1%list_elem_of_singleton]%elem_of_app Hr1; [by destruct (Hf k1 c1 H1)|].
    by simplify_eq.
Qed.

Lemma detect_fold r l seen first : Forall (fun '(k, c) => cl_names r !! k = Some c) l ->
  first_recursive r seen first -> first_recursive r (seen ++ l) (fold_left (detect_step r) l first).
Proof.
  intros Hl. revert seen first. induction Hl as [|[k c] l Hc _ IH]; intros seen first Hf; simpl.
  - by rewrite app_nil_r.
  - rewrite (cons_middle (k, c)), app_assoc. apply IH. by apply detect_step_spec.
Qed.

(** C32: the search for loops among the cloaking rules ends and is exact.  With one
    more step than there are rules, every walk along the targets reaches a verdict
    (no walk runs out of steps); the rules are accepted exactly when following
    targets from any of them ends, after at most as many steps as there are rules;
    and when they are refused, the reported line is the first one, in the file, of
    a rule whose targets can be followed forever, in whatever order the map is
    iterated. *)
Theorem cloaking_loops (range : gmap bytes CloakedName -> list (bytes * CloakedName)) (r : CloakRules T) :
  (forall m, range m ≡ₚ map_to_list m) ->
  (forall k c, cl_names r !! k = Some c -> walk (walk_fuel r) r {[k]} c <> None) /\
  match detectCloakingLoops range r with
  | None => forall k c, cl_names r !! k = Some c -> followsTarget c = true ->
      exists n, (n <= size (cl_names r))%nat /\ chain (next_rule r) k n = None
  | Some (RecursiveRule line tgt _) =>
      (exists k c, recursive r k c /\ lineNo c = line /\ target c = tgt) /\
      forall k c, recursive r k c -> line <= lineNo c
  | Some _ => False
  end.
Proof.
  intros Hrange. split.
  { intros k c Hc Hw. pose proof (walk_start r k c Hc) as H. by rewrite Hw in H. }
  assert (forall k c, (k, c) ∈ range (cl_names r) <-> cl_names r !! k = Some c) as Hin.
  { intros k c. rewrite Hrange. apply elem_of_map_to_list. }
  pose proof (detect_fold r (range (cl_names r)) [] None) as H. unfold detectCloakingLoops.
  assert (first_recursive r ([] ++ range (cl_names r))
            (fold_left (detect_step r) (range (cl_names r)) None)) as Hf.
  { apply H; [|intros k c Hk; by apply not_elem_of_nil in Hk].
    apply Forall_forall. intros [k c] Hk. by apply Hin. }
  destruct (fold_left _ _ _) as [[f p]|]; simpl in Hf.
  - destruct Hf as [(k & Hk & Hr) Hmin]. split; [by exists k, f|].
    intros k' c' Hr'. apply (Hmin k'); [|done]. by apply Hin, Hr'.
  - intros k c Hc Hfol. pose proof (walk_start r k c Hc) as Hw.
    destruct (walk _ r _ c) as [[pat|]|]; [|done..]. exfalso. apply (Hf k c); [by apply Hin|done].
Qed.

(** ** The pointers of the matcher *)

Context `{!PrefixTreeLaws T} (lower : bytes -> bytes).

Lemma pm_Eval_value {V} (m : @PatternMatcher T V) rules q reason v : holds m rules ->
  pm_Eval m q = Some (reason, Some v) -> exists ty p, (ty, p, v) ∈ rules.
Proof.
  intros [He Hs Hp _ _ Hi]. unfold pm_Eval. destruct (_ <? _); [done|].
  destruct (exact m !! q) as [v'|] eqn:E; [intros [= <- <-]; destruct (proj1 He _ _ E) as (p & _ & ?); eauto|].
  destruct (tree_longest_prefix (suffixes m) _) as [[k v']|] eqn:E1.
  { intros [= <- <-]. apply tree_longest_prefix_Some in E1 as (H & _).
    destruct (proj1 Hs _ _ H) as (p & _ & ?); eauto. }
  destruct (tree_longest_prefix (PatternMatcher.prefixes m) _) as [[k v']|] eqn:E2.
  { intros [= <- <-]. apply tree_longest_prefix_Some in E2 as (H & _).
    destruct (proj1 Hp _ _ H) as (p & _ & ?); eauto. }
  destruct (List.find _ (substrings m)) as [x|].
  { intros [= <- H]. destruct (proj1 Hi _ _ H); eauto. }
  destruct (List.find _ (patterns m)) as [x|]; [|done].
  intros [= <- H]. destruct (proj1 Hi _ _ H); eauto.
Qed.

Lemma add_names_holds keys (m m' : @PatternMatcher T bytes) rules :
  holds m rules -> add_names lower keys m = Ok m' ->
  exists rules', holds m' (rules ++ rules') /\ forall ty p v, (ty, p, v) ∈ rules' -> v ∈ keys.
Proof.
  revert m rules. induction keys as [|k keys IH]; intros m rules Hm; cbn [add_names].
  { intros [= <-]. exists []. rewrite app_nil_r. set_solver. }
  unfold pm_Add. destruct (classify_pattern lower k) as [[ty p]|]; cbn; [|done].
  intros (rules' & H1 & H2)%(IH _ _ (holds_add _ _ ty p k Hm)). exists ((ty, p, k) :: rules').
  rewrite <- app_assoc in H1. split; [done|]. intros ty' p' v [H|H]%elem_of_cons; [simplify_eq|]; set_solver.
Qed.

(** Every value the matcher can report points to a rule. *)
Definition cloak_wf (r : CloakRules T) : Prop := forall q pat k,
  pm_Eval (cl_matcher r) q = Some (pat, Some k) -> is_Some (cl_names r !! k).

Lemma loadRules_wf createPTR range range' lines r : (forall m, range m ≡ₚ map_to_list m) ->
  loadRules lower createPTR range range' lines = Ok r -> cloak_wf r.
Proof.
  intros Hrange. unfold loadRules. destruct (load_lines _ _ _ _ _) as [ns|]; [|done]. cbn [mbind result_bind].
  destruct (add_names lower _ _) as [m|] eqn:E; [|done]. cbn [mbind result_bind].
  destruct (detectCloakingLoops _ _); [done|]. intros [= <-] q pat k Hk. cbn [cl_matcher cl_names] in *.
  destruct (add_names_holds _ _ _ [] holds_new E) as (rules & Hh & Hv).
  destruct (pm_Eval_value _ _ _ _ _ Hh Hk) as (ty & p & Hin). apply Hv in Hin.
  apply list_elem_of_fmap in Hin as ([k' c] & -> & Hin). rewrite Hrange in Hin.
  apply elem_of_map_to_list in Hin. eauto.
Qed.

(** ** Answers *)

Lemma remaining_bounds now ttl last ttl' expired : 0 < ttl -> remaining now ttl last = (ttl', expired) ->
  0 < ttl' <= ttl.
Proof.
  intros Httl. unfold remaining. destruct last as [t|]; [|intros [= <- <-]; lia].
  unfold uint32. pose proof (Z.mod_pos_bound (go_div (time_sub now t) Second) (2 ^ 32) ltac:(lia)).
  destruct (_ <? ttl) eqn:E; intros [= <- <-]; bools; lia.
Qed.

(** The data the answers to a query of a type carry. *)
Definition answer_data (qtype : Z) (c : CloakedName) : list rdata :=
  if qtype =? TypeA then omap (fun ip => RD_A <$> To4 ip) (ipv4 c)
  else if qtype =? TypeAAAA then omap (fun ip => RD_AAAA <$> To16 ip) (ipv6 c)
  else if qtype =? TypePTR then RD_PTR <$> PTR c else [].

Lemma mapM_rr {A} (g : A -> option bytes) (h : bytes -> rdata) qname ttl l rrs :
  mapM (fun a => v ← g a; Some (rr_of qname ttl (h v))) l = Some rrs ->
  rrs = rr_of qname ttl <$> omap (fun a => h <$> g a) l.
Proof.
  revert rrs. induction l as [|a l IH]; intros rrs; [by intros [= <-]|].
  intros (rr & Ha & (rrs' & Hl & [= <-])%bind_Some)%bind_Some.
  apply bind_Some in Ha as (v & Hv & [= <-]). cbn [omap list_omap]. rewrite Hv. cbn.
  by rewrite (IH _ Hl).
Qed.

Lemma cloaked_answers_data qtype qname ttl c rrs : cloaked_answers qtype qname ttl c = Some rrs ->
  rrs = rr_of qname ttl <$> answer_data qtype c.
Proof.
  unfold cloaked_answers, answer_data. destruct (qtype =? TypeA); [apply mapM_rr|].
  destruct (qtype =? TypeAAAA); [apply mapM_rr|].
  destruct (qtype =? TypePTR); intros [= <-]; [|done]. by rewrite <- list_fmap_compose.
Qed.

(** What a query for a cloaked name leaves behind: the rule that was used, as it is
    now, and the answer made from it. *)
Record cloaked (p p' : PluginCloak T) (ps ps' : PluginsState) (msg : Msg) (q : Question)
    (c : CloakedName) (synth : Msg) : Prop := {
  ck_rule : exists pat k, pm_Eval (cl_matcher (cl_active p)) (qName ps) = Some (pat, Some k) /\
    cl_names (cl_active p') !! k = Some c;
  ck_action : action ps' = PluginsActionSynth /\ returnCode ps' = PluginsReturnCodeCloak /\
    synthResponse ps' = Some synth;
  ck_answer :
    synth = set_header (set_Rcode RcodeServerFailure) (EmptyResponseFromMessage msg) \/
    (exists ttl rrs, 0 < ttl <= cl_ttl p /\ synth = set_Answer rrs (EmptyResponseFromMessage msg) /\
       rrs ≡ₚ (rr_of (q_Name q) ttl <$> answer_data (q_Type q) c));
}.

(** What a query for a cloaked name is answered with.  As long as the matcher
    only points to rules (which loading guarantees and queries preserve), a query
    that is evaluated without a panic is either left alone (no rule, or a type that
    is not cloaked), rejected (a rule, but neither an address nor a reverse query),
    or answered locally: with a failure when the target cannot be resolved, and
    otherwise with exactly the addresses or reverse names the rule now holds, in
    some order, and a positive TTL of at most the configured one. *)
Theorem cloak_answers now resolve shuffle (p : PluginCloak T) ps msg q p' ps' msg' :
  (forall l, shuffle l ≡ₚ l) -> 0 < cl_ttl p -> cloak_wf (cl_active p) -> head (Questions msg) = Some q ->
  PluginCloak_Eval now resolve shuffle p ps msg = (None, p', ps', msg') ->
  msg' = msg /\ cloak_wf (cl_active p') /\
  ((ps' = ps /\ p' = p) \/
   (p' = p /\ ps' = set_returnCode PluginsReturnCodeCloak (set_action PluginsActionReject ps) /\
    exists pat k, pm_Eval (cl_matcher (cl_active p)) (qName ps) = Some (pat, Some k)) \/
   (exists c synth, cloaked p p' ps ps' msg q c synth)).
Proof.
  intros Hsh Httl Hwf Hq. unfold PluginCloak_Eval. destruct (Questions msg) as [|q0 qs]; [done|].
  injection Hq as ->. destruct (_ || _); [intros [= <- <- <-]; auto|].
  destruct (pm_Eval _ _) as [[pat [key|]]|] eqn:Eval; [|intros [= <- <- <-]; auto..].
  destruct (_ && _ && _); [intros [= <- <- <-]; split_and!; [done|done|]; right; left; eauto|].
  destruct (Hwf _ _ _ Eval) as [c0 Hc0]. rewrite Hc0. cbv [from_option id].
  destruct (remaining _ _ _) as [ttl expired] eqn:Hrem. apply remaining_bounds in Hrem; [|done].
  destruct (followsTarget c0 && _).
  - destruct (resolve _ _) as [found|].
    + destruct (cloaked_answers _ _ _ _) as [rrs|] eqn:Ha; [|done]. intros [= <- <- <-].
      apply cloaked_answers_data in Ha as ->. split_and!; [done| |].
      * intros q' pat' k' H'%Hwf. cbn. rewrite lookup_insert_is_Some'. auto.
      * right. right. eexists _, _. split; [|done|].
        -- exists pat, key. split; [done|]. cbn. by rewrite lookup_insert_eq.
        -- right. eexists ttl, _. split_and!; [lia|lia|done|]. by rewrite Hsh.
    + intros [= <- <- <-]. split_and!; [done|done|]. right. right. exists c0. eexists. split; [|done|by left].
      exists pat, key. done.
  - destruct (cloaked_answers _ _ _ _) as [rrs|] eqn:Ha; [|done]. intros [= <- <- <-].
    apply cloaked_answers_data in Ha as ->. split_and!; [done|done|]. right. right. exists c0. eexists.
    split; [by exists pat, key|done|]. right. eexists ttl, _. split_and!; [lia|lia|done|]. by rewrite Hsh.
Qed.

(** ** Reloading *)

Definition load_cloak (range range' : gmap bytes CloakedName -> list (bytes * CloakedName))
    (p : PluginCloak T) (lines : bytes) : result reload_error (CloakRules T) :=
  match loadRules lower (cl_createPTR p) range range' lines with
  | Ok r => Ok r
  | Err RuntimePanic => Err ReloadPanic
  | Err _ => Err BadConfig
  end.

(** Loading only panics with reverse records. *)
Lemma load_cloak_panic range range' p lines : load_cloak range range' p lines = Err ReloadPanic -> cl_createPTR p = true.
Proof.
  destruct (cl_createPTR p) eqn:Ep; [done|]. unfold load_cloak, loadRules. rewrite Ep.
  assert (forall ls n ns, exists ns', load_lines lower false ls n ns = Ok ns') as Hl.
  { induction ls as [|l ls IH]; intros n ns; cbn [load_lines]; [eauto|].
    assert (exists ns1, load_line lower false l n ns = Ok ns1) as [ns1 ->]; [|apply IH].
    unfold load_line. repeat (case_match; eauto). }
  destruct (Hl (Split lines 10) 0 ∅) as [ns ->]. cbn [mbind result_bind].
  destruct (add_names _ _ _) as [m|e] eqn:Ea; cbn [mbind result_bind].
  - unfold detectCloakingLoops. destruct (fold_left _ _ _) as [[]|]; done.
  - assert (forall keys m, add_names lower keys m = Err e -> e <> RuntimePanic) as Hn.
    { induction keys as [|k keys IH]; intros m; cbn [add_names]; [done|]. destruct (pm_Add _ _ _ _); [apply IH|by intros [= <-]]. }
    apply Hn in Ea. by destruct e.
Qed.

Lemma PluginCloak_laws range range' :
  ReloadableLaws (I := PluginCloak_reloadable lower range range') (PluginCloak T) _ (load_cloak range range').
Proof.
  split.
  - intros fs t p p' err. cbn. unfold PluginCloak_PrepareReload.
    repeat case_match; by intros [= <- <-].
  - intros fs t p. cbn. unfold PluginCloak_PrepareReload, load_cloak.
    destruct (SafeReadTextFile _ _ _) as [lines|]; [|done]. by destruct (loadRules _ _ _ _ _) as [|[]].
  - intros p. cbn. unfold PluginCloak_ApplyReload. by destruct (cl_staging p).
  - done.
  - done.
Qed.
End cloak.

(** ** What loading gets wrong *)

(** With reverse records enabled, a rule file that gives a name first an
    address and then another name makes loading panic: the second line leaves the
    rule marked as having an address, and the first IPv6 address, which does not
    exist, is taken. *)
Theorem cloak_load_panic lower ls :
  load_lines lower true (str "example.com 192.0.2.1" :: str "example.com www.example.org" :: ls) 0 ∅
    = Err RuntimePanic.
Proof. vm_compute. reflexivity. Qed.

(** The second IPv6 address of a name gets no reverse record: the first one gets
    two. *)
Lemma cloak_second_ipv6 lower :
  (fun ns : gmap bytes CloakedName => (size ns, PTR <$> ns !! ptrEntryToQuery
    (str "1.0.0.0.0.0.0.0.0.0.0.0.0.0.0.0.0.0.0.0.0.0.0.0.8.b.d.0.1.0.0.2.ip6.arpa"))) <$>
  load_lines lower true [str "a.com 2001:db8::1"; str "a.com 2001:db8::2"] 0 ∅
    = Ok (2%nat, Some [str "a.com."; str "a.com."]).
Proof. vm_compute. reflexivity. Qed.

(** ** Witnesses *)

Definition ex_cloak_file : bytes :=
  str "a.com b.org" ++ [10] ++ str "b.org c.net" ++ [10] ++ str "c.net 192.0.2.1".
Definition ex_cloak_loop : bytes := str "a.com b.org" ++ [10] ++ str "b.org a.com".

Definition ex_rules (file : bytes) : CloakRules (gmap bytes) :=
  match load_lines id false (Split file 10) 0 ∅ with
  | Ok ns =>
      match add_names (T := gmap bytes) id (map_to_list ns).*1 NewPatternMatcher with
      | Ok m => {| cl_matcher := m; cl_names := ns |}
      | Err _ => {| cl_matcher := NewPatternMatcher; cl_names := ∅ |}
      end
  | Err _ => {| cl_matcher := NewPatternMatcher; cl_names := ∅ |}
  end.

Lemma cloaking_loops_witness :
  (exists n, chain (next_rule (ex_rules ex_cloak_file)) (str "a.com") n = None) /\
  exists k c, recursive (ex_rules ex_cloak_loop) k c /\ lineNo c = 1.
Proof.
  split.
  - destruct (cloaking_loops map_to_list (ex_rules ex_cloak_file) (fun m => Permutation_refl _)) as [_ H].
    destruct (detectCloakingLoops map_to_list (ex_rules ex_cloak_file)) as [e|] eqn:Ed;
      [vm_compute in Ed; discriminate|].
    destruct (cl_names (ex_rules ex_cloak_file) !! str "a.com") as [c|] eqn:E; [|vm_compute in E; discriminate].
    destruct (H (str "a.com") c E) as (n & _ & Hn); [|by exists n].
    vm_compute in E. injection E as <-. reflexivity.
  - destruct (cloaking_loops map_to_list (ex_rules ex_cloak_loop) (fun m => Permutation_refl _)) as [_ H].
    destruct (detectCloakingLoops map_to_list (ex_rules ex_cloak_loop)) as [[]|] eqn:E;
      [destruct H|destruct H| |vm_compute in E; discriminate].
    vm_compute in E. injection E as <- <- <-. destruct H as [(k & c & Hr & Hl & _) _]. exists k, c. exact (conj Hr Hl).
Defined.

Definition ex_cloak : PluginCloak (gmap bytes) :=
  {| cl_active := ex_rules ex_cloak_file; cl_ttl := 600; cl_createPTR := false; cl_configFile := [];
     cl_staging := None |}.
Definition ex_cloak_query : Msg :=
  {| MH := zero_MsgHeader; Questions := [{| q_Name := str "C.net."; q_Type := TypeA; q_Class := ClassINET |}];
     Answer := []; Ns := []; Extra := []; Pseudo := [] |}.
Definition ex_cloak_state : PluginsState :=
  set_qName (str "c.net") (NewPluginsState
    {| p_cacheNegMinTTL := 60; p_cacheNegMaxTTL := 600; p_cacheMinTTL := 2400; p_cacheMaxTTL := 86400;
       p_rejectTTL := 10; p_timeout := 5 * Second |} client_udp None udp 1).

Lemma cloak_answers_witness :
  let '(_, _, ps', _) := PluginCloak_Eval 1 (fun _ _ => None) (fun l => l) ex_cloak ex_cloak_state ex_cloak_query in
  exists synth, synthResponse ps' = Some synth /\ action ps' = PluginsActionSynth.
Proof.
  destruct (PluginCloak_Eval _ _ _ _ _ _) as [[[err p'] ps'] msg'] eqn:E.
  assert (err = None) as -> by (apply (f_equal (fun r => r.1.1.1)) in E; vm_compute in E; by symmetry).
  destruct (cloak_answers 1 (fun _ _ => None) (fun l => l) ex_cloak ex_cloak_state ex_cloak_query
    {| q_Name := str "C.net."; q_Type := TypeA; q_Class := ClassINET |} p' ps' msg')
    as (_ & _ & [[H _]|[(_ & H & _)|(c & synth & Hc)]]).
  - reflexivity.
  - vm_compute. reflexivity.
  - apply (loadRules_wf id false map_to_list map_to_list ex_cloak_file); [reflexivity|vm_compute; reflexivity].
  - reflexivity.
  - exact E.
  - exfalso. rewrite H in E. apply (f_equal (fun r => action r.1.2)) in E. vm_compute in E. discriminate.
  - exfalso. rewrite H in E. apply (f_equal (fun r => action r.1.2)) in E. vm_compute in E. discriminate.
  - destruct Hc as [_ (H1 & _ & H2) _]. exists synth. exact (conj H2 H1).
Defined.
