(* ===== verification/QueryPlugins.v ===== *)
(** * Smaller query plugins

    src/dnscrypt-proxy: plugin_block_ipv6.go, plugin_block_unqualified.go,
    plugin_block_undelegated.go, plugin_firefox.go, plugin_ecs.go,
    plugin_get_set_payload_size.go, plugin_querymeta.go, plugin_captive_portal.go,
    and the captive portal map of coldstart.go. *)

From S2P Require Import Prelude GoStrings NetIP NetIPProps Common Crypto Dns DnsUtils Metrics Plugins.
From S2P Require Import PrefixTree.

(** A synthetic response decides the query. *)
Definition synthesize (synth : Msg) (code : PluginsReturnCode) (ps : PluginsState) : PluginsState :=
  set_returnCode code (set_action PluginsActionSynth (set_synthResponse (Some synth) ps)).

Definition nxdomain (msg : Msg) : Msg := set_header (set_Rcode RcodeNameError) (EmptyResponseFromMessage msg).

(** ** IPv6 queries (plugin_block_ipv6.go) *)

Definition ipv6_cpu : bytes := str "AAAA queries have been locally blocked by dnscrypt-proxy".
Definition ipv6_os : bytes := str "Set block_ipv6 to false to disable this feature".

Definition parentZone (qName : bytes) : bytes :=
  match IndexByte qName 46 with
  | None => str "."
  | Some i => if (length qName <=? i + 1)%nat then str "." else drop (i + 1) qName
  end.

Definition PluginBlockIPv6_Eval {W} : Plugin W := fun w ps msg =>
  match Questions msg with
  | [] => (Some PluginPanic, w, ps, msg)
  | question :: _ =>
      if negb (q_Class question =? ClassINET) || negb (q_Type question =? TypeAAAA)
      then (None, w, ps, msg)
      else
        let synth := EmptyResponseFromMessage msg in
        let hinfo := {| hdr := {| Name := q_Name question; Class_ := ClassINET; TTL := 86400 |};
                        data := RD_HINFO ipv6_cpu ipv6_os |} in
        let soa := {| hdr := {| Name := parentZone (q_Name question); Class_ := ClassINET; TTL := 60 |};
                      data := RD_SOA (str "a.root-servers.net.") (str "h.invalid.") 1 10000 300 604800 2400 |} in
        let synth := set_Ns [soa] (set_Answer [hinfo] synth) in
        (None, w, synthesize synth PluginsReturnCodeSynth ps, msg)
  end.

(** ** Unqualified names (plugin_block_unqualified.go) *)

Definition is_address_query (question : Question) : bool :=
  (q_Class question =? ClassINET) && ((q_Type question =? TypeA) || (q_Type question =? TypeAAAA)).

Definition PluginBlockUnqualified_Eval {W} : Plugin W := fun w ps msg =>
  match Questions msg with
  | [] => (Some PluginPanic, w, ps, msg)
  | question :: _ =>
      if negb (is_address_query question) then (None, w, ps, msg)
      else match IndexByte (qName ps) 46 with
      | Some _ => (None, w, ps, msg)
      | None => (None, w, synthesize (nxdomain msg) PluginsReturnCodeSynth ps, msg)
      end
  end.

(** ** Undelegated names (plugin_block_undelegated.go) *)

Definition undelegatedSet : list bytes :=
  [str "0.0.0.0.0.0.0.0.0.0.0.0.0.0.0.0.0.0.0.0.0.0.0.0.0.0.0.0.0.0.0.0.ip6.arpa"
   ; str "0.in-addr.arpa"; str "1"
   ; str "1.0.0.0.0.0.0.0.0.0.0.0.0.0.0.0.0.0.0.0.0.0.0.0.0.0.0.0.0.0.0.0.ip6.arpa"
   ; str "10.in-addr.arpa"; str "100.100.in-addr.arpa"; str "100.51.198.in-addr.arpa"
   ; str "101.100.in-addr.arpa"; str "102.100.in-addr.arpa"; str "103.100.in-addr.arpa"
   ; str "104.100.in-addr.arpa"; str "105.100.in-addr.arpa"; str "106.100.in-addr.arpa"
   ; str "107.100.in-addr.arpa"; str "108.100.in-addr.arpa"; str "109.100.in-addr.arpa"
   ; str "110.100.in-addr.arpa"; str "111.100.in-addr.arpa"; str "112.100.in-addr.arpa"
   ; str "113.0.203.in-addr.arpa"; str "113.100.in-addr.arpa"; str "114.100.in-addr.arpa"
   ; str "115.100.in-addr.arpa"; str "116.100.in-addr.arpa"; str "117.100.in-addr.arpa"
   ; str "118.100.in-addr.arpa"; str "119.100.in-addr.arpa"; str "120.100.in-addr.arpa"
   ; str "121.100.in-addr.arpa"; str "122.100.in-addr.arpa"; str "123.100.in-addr.arpa"
   ; str "124.100.in-addr.arpa"; str "125.100.in-addr.arpa"; str "126.100.in-addr.arpa"
   ; str "127.100.in-addr.arpa"; str "127.in-addr.arpa"; str "16.172.in-addr.arpa"
   ; str "168.192.in-addr.arpa"; str "17.172.in-addr.arpa"; str "18.172.in-addr.arpa"
   ; str "19.172.in-addr.arpa"; str "2.0.192.in-addr.arpa"; str "20.172.in-addr.arpa"
   ; str "21.172.in-addr.arpa"; str "22.172.in-addr.arpa"; str "23.172.in-addr.arpa"
   ; str "24.172.in-addr.arpa"; str "25.172.in-addr.arpa"; str "254.169.in-addr.arpa"
   ; str "255.255.255.255.in-addr.arpa"; str "26.172.in-addr.arpa"; str "27.172.in-addr.arpa"
   ; str "28.172.in-addr.arpa"; str "29.172.in-addr.arpa"; str "30.172.in-addr.arpa"
   ; str "31.172.in-addr.arpa"; str "64.100.in-addr.arpa"; str "65.100.in-addr.arpa"
   ; str "66.100.in-addr.arpa"; str "67.100.in-addr.arpa"; str "68.100.in-addr.arpa"
   ; str "69.100.in-addr.arpa"; str "6tisch.arpa"; str "70.100.in-addr.arpa"
   ; str "71.100.in-addr.arpa"; str "72.100.in-addr.arpa"; str "73.100.in-addr.arpa"
   ; str "74.100.in-addr.arpa"; str "75.100.in-addr.arpa"; str "76.100.in-addr.arpa"
   ; str "77.100.in-addr.arpa"; str "78.100.in-addr.arpa"; str "79.100.in-addr.arpa"
   ; str "8.b.d.0.1.0.0.2.ip6.arpa"; str "8.e.f.ip6.arpa"; str "80.100.in-addr.arpa"
   ; str "81.100.in-addr.arpa"; str "82.100.in-addr.arpa"; str "83.100.in-addr.arpa"
   ; str "84.100.in-addr.arpa"; str "85.100.in-addr.arpa"; str "86.100.in-addr.arpa"
   ; str "87.100.in-addr.arpa"; str "88.100.in-addr.arpa"; str "89.100.in-addr.arpa"
   ; str "9.e.f.ip6.arpa"; str "90.100.in-addr.arpa"; str "91.100.in-addr.arpa"
   ; str "92.100.in-addr.arpa"; str "93.100.in-addr.arpa"; str "94.100.in-addr.arpa"
   ; str "95.100.in-addr.arpa"; str "96.100.in-addr.arpa"; str "97.100.in-addr.arpa"
   ; str "98.100.in-addr.arpa"; str "99.100.in-addr.arpa"; str "a.e.f.ip6.arpa"; str "airdream"
   ; str "alt"; str "api"; str "b.e.f.ip6.arpa"; str "bbrouter"; str "belkin"; str "bind"
   ; str "blinkap"; str "corp"; str "d.f.ip6.arpa"; str "davolink"; str "dearmyrouter"; str "dhcp"
   ; str "dlink"; str "domain"; str "eap.arpa"; str "envoy"; str "example"; str "f.f.ip6.arpa"
   ; str "fritz.box"; str "grp"; str "gw=="; str "home"; str "home.arpa"; str "hub"; str "internal"
   ; str "intra"; str "intranet"; str "invalid"; str "ksyun"; str "lan"; str "loc"; str "local"
   ; str "localdomain"; str "localhost"; str "localnet"; str "mail"; str "modem"; str "mynet"
   ; str "myrouter"; str "novalocal"; str "onion"; str "openstacklocal"; str "priv"; str "private"
   ; str "prv"; str "router"; str "service.arpa"; str "telus"; str "test"; str "totolink"
   ; str "wlan_ap"; str "workgroup"; str "zghjccbob3n0"].

Section undelegated.
Context {T : Type -> Type} `{PT : PrefixTree T}.

(** [Init]: the trie of the reversed names. *)
Definition PluginBlockUndelegated_Init : T bool :=
  fold_left (fun suffixes line => tree_insert (StringReverse line) true suffixes) undelegatedSet tree_empty.

Definition undelegated (suffixes : T bool) (qName : bytes) : bool :=
  let revQname := StringReverse qName in
  match tree_longest_prefix suffixes revQname with
  | None => false
  | Some (m, _) => (len m =? len revQname) || (nth (length m) revQname 0 =? 46)
  end.

Definition PluginBlockUndelegated_Eval : Plugin (T bool) := fun suffixes ps msg =>
  if undelegated suffixes (qName ps)
  then (None, suffixes, synthesize (nxdomain msg) PluginsReturnCodeSynth ps, msg)
  else (None, suffixes, ps, msg).
End undelegated.

(** ** The canary domain (plugin_firefox.go) *)

Definition canary : bytes := str "use-application-dns.net".

Definition PluginFirefox_Eval {W} : Plugin W := fun w ps msg =>
  match clientProto ps with
  | client_local_doh => (None, w, ps, msg)
  | _ =>
      match Questions msg with
      | [] => (Some PluginPanic, w, ps, msg)
      | question :: _ =>
          if negb (is_address_query question) then (None, w, ps, msg)
          else if negb (bool_decide (qName ps = canary)) && negb (HasSuffix (qName ps) (str "." ++ canary))
          then (None, w, ps, msg)
          else (None, w, synthesize (nxdomain msg) PluginsReturnCodeSynth ps, msg)
      end
  end.

(** ** Client subnets (plugin_ecs.go) *)

Definition is_subnet (p : pseudo) : bool := match p with PS_SUBNET _ _ _ _ => true | _ => false end.

Definition set_UDPSize (size : Z) (msg : Msg) : Msg :=
  set_header (set_EDNS size (Security (MH msg))) msg.

(** [pick]: the random index of a network. *)
Definition PluginECS_Eval (pick : nat) : Plugin (list IPNet) := fun nets ps msg =>
  if existsb is_subnet (Pseudo msg) then (None, nets, ps, msg)
  else
    let msg := if UDPSize (MH msg) =? 0 then set_UDPSize (uint16 (maxPayloadSize ps)) msg else msg in
    match nets !! pick with
    | None => (Some PluginPanic, nets, ps, msg)
    | Some ipnet =>
        let add family addr :=
          (None, nets, ps,
           set_Pseudo (Pseudo msg ++ [PS_SUBNET family (uint8 (net_ones ipnet)) 0 addr]) msg) in
        if net_bits ipnet =? 32 then
          match To4 (net_IP ipnet) with Some ip4 => add 1 ip4 | None => (None, nets, ps, msg) end
        else if net_bits ipnet =? 128 then
          match To16 (net_IP ipnet) with Some ip6 => add 2 ip6 | None => (None, nets, ps, msg) end
        else (None, nets, ps, msg)
    end.

(** ** Payload sizes (plugin_get_set_payload_size.go) *)

Definition set_sizes (orig safe mx : Z) (sec : bool) (ps : PluginsState) : PluginsState :=
  set_dnssec sec (set_maxPayloadSize mx (set_maxUnencryptedUDPSafePayloadSize safe (set_originalMaxPayloadSize orig ps))).

Definition PluginGetSetPayloadSize_Eval {W} : Plugin W := fun w ps msg =>
  let orig := 512 - ResponseOverhead in
  let dnssec := Security (MH msg) in
  let '(safe, orig) :=
    if UDPSize (MH msg) >? 0 then
      let safe := UDPSize (MH msg) in (safe, Max (safe - ResponseOverhead) orig)
    else (maxUnencryptedUDPSafePayloadSize ps, orig) in
  let mx := Min (MaxDNSUDPPacketSize - ResponseOverhead) (Max orig (maxPayloadSize ps)) in
  let ps := set_sizes orig safe mx dnssec ps in
  if mx >? 512 then (None, w, ps, set_header (set_EDNS (uint16 mx) dnssec) msg)
  else (None, w, ps, msg).

(** ** Metadata (plugin_querymeta.go) *)

Definition PluginQueryMeta_Init (queryMeta : list bytes) : RR :=
  {| hdr := {| Name := str "."; Class_ := ClassINET; TTL := 86400 |}; data := RD_TXT queryMeta |}.

Definition PluginQueryMeta_Eval : Plugin RR := fun queryMetaRR ps msg =>
  (None, queryMetaRR, ps, set_Extra [queryMetaRR] msg).

(** ** Captive portals (coldstart.go, plugin_captive_portal.go) *)

Notation CaptivePortalMap := (gmap bytes (list bytes)).

Definition GetEntry (ipsMap : CaptivePortalMap) (msg : Msg) : option (Question * list bytes) :=
  match Questions msg with
  | [question] =>
      match NormalizeQName (q_Name question) with
      | Err _ => None
      | Ok name =>
          match ipsMap !! name with
          | None => None
          | Some ips => if negb (q_Class question =? ClassINET) then None else Some (question, ips)
          end
      end
  | _ => None
  end.

(** The addresses of the map are the 16 bytes [ParseIP] returns, so that [To16] is
    defined. *)
Definition HandleCaptivePortalQuery (msg : Msg) (question : Question) (ips : list bytes) : Msg :=
  let respMsg := EmptyResponseFromMessage msg in
  let h := {| Name := q_Name question; Class_ := ClassINET; TTL := 1 |} in
  let answers :=
    if q_Type question =? TypeA then
      omap (fun xip => ip ← To4 xip; Some {| hdr := h; data := RD_A ip |}) ips
    else if q_Type question =? TypeAAAA then
      omap (fun xip => match To4 xip with
                       | None => Some {| hdr := h; data := RD_AAAA (default [] (To16 xip)) |}
                       | Some _ => None
                       end) ips
    else [] in
  set_Answer answers respMsg.

Definition PluginCaptivePortal_Eval : Plugin CaptivePortalMap := fun ipsMap ps msg =>
  match GetEntry ipsMap msg with
  | None => (None, ipsMap, ps, msg)
  | Some (question, ips) =>
      let synth := HandleCaptivePortalQuery msg question ips in
      (None, ipsMap, set_action PluginsActionSynth (set_synthResponse (Some synth) ps), msg)
  end.

(** The rules of the map: [None] is a syntax error; a name that is not ASCII is
    skipped. *)
Fixpoint parse_portal_ips (l : list bytes) : option (list bytes) :=
  match l with
  | [] => Some []
  | ip :: l' => ip ← ParseIP (TrimSpace ip); rest ← parse_portal_ips l'; Some (ip :: rest)
  end.

(** [handleColdStartClient]: what was received, whether the handler was cancelled
    meanwhile; the response written, and whether the listener ends. *)
Inductive cold_read := ColdPacket (packet : bytes) | ColdTimeout | ColdError.

Definition handleColdStartClient `{D : DnsLib} (cancelled : bool) (read : cold_read)
    (ipsMap : CaptivePortalMap) : option bytes * bool :=
  if cancelled then (None, true)
  else match read with
  | ColdTimeout => (None, false)
  | ColdError => (None, true)
  | ColdPacket packet =>
      match Unpack packet with
      | None => (None, false)
      | Some msg =>
          match GetEntry ipsMap msg with
          | None => (None, false)
          | Some (question, ips) => (Pack (HandleCaptivePortalQuery msg question ips), false)
          end
      end
  end.
