(* ===== verification/QueryPluginsProps.v ===== *)
(** * Properties of the smaller query plugins *)

From S2P Require Import Prelude GoStrings NetIP NetIPProps Common Crypto Dns DnsUtils DnsUtilsProps Metrics Plugins PluginsProps.
From S2P Require Import Glob PrefixTree PatternMatcher QueryPlugins.

(** ** Undelegated names *)

(** [q] is [s] or a name below [s]. *)
Definition below (q s : bytes) : Prop := q = s \/ exists a, q = a ++ [46] ++ s.

(** No name of the list is below another one, and all are ASCII: checked by
    evaluation. *)
Lemma undelegated_flat s s' : s ∈ undelegatedSet -> s' ∈ undelegatedSet -> HasSuffix s' (46 :: s) = false.
Proof.
  assert (forallb (fun s => forallb (fun s' => negb (HasSuffix s' (46 :: s))) undelegatedSet) undelegatedSet = true)
    as H by (vm_compute; reflexivity).
  rewrite forallb_forall in H. intros Hs%list_elem_of_In Hs'%list_elem_of_In. specialize (H s Hs).
  rewrite forallb_forall in H. specialize (H s' Hs'). by apply negb_true_iff in H.
Qed.

Lemma undelegated_ascii s : s ∈ undelegatedSet -> ascii_bytes s.
Proof.
  assert (forallb (fun s => forallb (fun b => (0 <=? b) && (b <? 128)) s) undelegatedSet = true)
    as H by (vm_compute; reflexivity).
  rewrite forallb_forall in H. intros Hs%list_elem_of_In. specialize (H s Hs).
  rewrite forallb_forall in H. apply Forall_forall. intros b Hb%list_elem_of_In. specialize (H b Hb).
  bools. lia.
Qed.

Section undelegated.
Context {T : Type -> Type} `{PT : PrefixTree T} `{!PrefixTreeLaws T}.

Lemma undelegated_keys k :
  is_Some (tree_map (PluginBlockUndelegated_Init (T := T)) !! k) <-> k ∈ StringReverse <$> undelegatedSet.
Proof.
  unfold PluginBlockUndelegated_Init. generalize undelegatedSet as l. intros l.
  assert (forall t : T bool,
    is_Some (tree_map (fold_left (fun t line => tree_insert (StringReverse line) true t) l t) !! k) <->
    is_Some (tree_map t !! k) \/ k ∈ StringReverse <$> l) as H.
  { induction l as [|s l IH]; intros t; cbn [fold_left fmap list_fmap]; [set_solver|].
    rewrite IH, tree_map_insert, elem_of_cons. destruct (tree_map t !! StringReverse s) eqn:E.
    - split; [tauto|]. intros [?|[->|?]]; [auto|rewrite E; eauto|auto].
    - rewrite lookup_insert_is_Some. split.
      + intros [[->|[_ ?]]|?]; auto.
      + intros [?|[->|?]]; [|auto|auto]. destruct (decide (StringReverse s = k)); auto. }
  rewrite H, tree_map_empty, lookup_empty. split; [intros [[? ?]|?]; done|auto].
Qed.

(** A prefix of the reversed name that ends at a separator. *)
Lemma below_reverse q s : below q s <->
  HasPrefix (reverse q) (reverse s) = true /\
  ((length s =? length q)%nat || (nth (length s) (reverse q) 0 =? 46) = true).
Proof.
  rewrite HasPrefix_spec. split.
  - intros [->|[a ->]].
    + split; [exists []; by rewrite app_nil_r|]. by rewrite Nat.eqb_refl.
    + rewrite reverse_app. simpl. rewrite reverse_cons, <- app_assoc. split; [eauto|].
      apply orb_true_iff. right. rewrite <- length_reverse at 1.
      rewrite app_nth2 by lia. by rewrite Nat.sub_diag.
  - intros [[k Hk] Hb]. apply (f_equal reverse) in Hk as Hq.
    rewrite reverse_involutive, reverse_app, reverse_involutive in Hq. subst q.
    apply orb_true_iff in Hb as [Hb%Nat.eqb_eq|Hb].
    + left. rewrite length_app, length_reverse in Hb. destruct k; [done|simpl in Hb; lia].
    + right. rewrite Hk in Hb. rewrite <- (length_reverse s) in Hb at 1.
      rewrite app_nth2, Nat.sub_diag in Hb by lia. destruct k as [|c k]; [done|].
      simpl in Hb. apply Z.eqb_eq in Hb as ->. exists (reverse k). by rewrite reverse_cons, <- app_assoc.
Qed.

(** A longer listed name of which [q] continues does not hide a shorter one. *)
Lemma longer_not_below s s' q : s ∈ undelegatedSet -> s' ∈ undelegatedSet -> s <> s' ->
  (length s' <= length s)%nat ->
  reverse s `prefix_of` reverse q -> reverse s' `prefix_of` reverse q ->
  ((length s' =? length q)%nat || (nth (length s') (reverse q) 0 =? 46)) = true -> False.
Proof.
  intros Hs Hs' Hne Hlen Hp Hp' Hb.
  assert (reverse s' `prefix_of` reverse s) as [d Hd].
  { destruct (prefix_weak_total _ _ _ Hp' Hp) as [|H]; [done|].
    apply prefix_length_eq in H; [by rewrite H|by rewrite !length_reverse]. }
  destruct d as [|c d].
  { rewrite app_nil_r in Hd. apply (inj reverse) in Hd. done. }
  destruct Hp as [k Hk]. rewrite Hd, <- app_assoc in Hk.
  apply orb_true_iff in Hb as [Hb%Nat.eqb_eq|Hb].
  - apply (f_equal length) in Hk. rewrite !length_app, !length_reverse in Hk. simpl in Hk. lia.
  - rewrite Hk in Hb. rewrite <- (length_reverse s') in Hb at 1.
    rewrite app_nth2, Nat.sub_diag in Hb by lia. simpl in Hb. apply Z.eqb_eq in Hb as ->.
    apply (f_equal reverse) in Hd. rewrite reverse_app, !reverse_involutive, reverse_cons in Hd.
    pose proof (undelegated_flat s' s Hs' Hs) as Hf.
    rewrite (proj2 (HasSuffix_spec s (46 :: s'))) in Hf; [done|].
    exists (reverse d). by rewrite Hd, <- app_assoc.
Qed.

(** The look-up of the longest reversed suffix decides what it is meant to:
    for every ASCII name, the plugin blocks it exactly when it is one of the
    undelegated names or below one of them. *)
Theorem undelegated_spec q : ascii_bytes q ->
  undelegated (PluginBlockUndelegated_Init (T := T)) q = true <-> exists s, s ∈ undelegatedSet /\ below q s.
Proof.
  intros Hq. unfold undelegated. rewrite (StringReverse_ascii q) by done.
  destruct (tree_longest_prefix _ (reverse q)) as [[m b]|] eqn:E.
  - apply tree_longest_prefix_Some in E as (Hm & Hpre & Hmax).
    apply mk_is_Some, undelegated_keys, list_elem_of_fmap in Hm as (s & -> & Hs).
    rewrite StringReverse_ascii in * by (by apply undelegated_ascii).
    unfold len. rewrite !length_reverse.
    assert ((Z.of_nat (length s) =? Z.of_nat (length q)) = (length s =? length q)%nat) as Hle
      by (destruct (Nat.eqb_spec (length s) (length q)); lia).
    rewrite Hle. split; [intros H; exists s; split; [done|by apply below_reverse]|].
    intros (s' & Hs' & Hb). pose proof Hb as [Hpre' Hb']%below_reverse.
    specialize (Hmax (reverse s')).
    assert (is_Some (tree_map (PluginBlockUndelegated_Init (T := T)) !! reverse s')) as Hk.
    { apply undelegated_keys, list_elem_of_fmap. exists s'. split; [|done].
      by rewrite StringReverse_ascii by (by apply undelegated_ascii). }
    specialize (Hmax Hk Hpre'). rewrite !length_reverse in Hmax.
    destruct (decide (s = s')) as [->|Hne]; [done|]. exfalso.
    by apply (longer_not_below s s' q); try done; apply HasPrefix_spec.
  - split; [done|]. intros (s & Hs & [Hpre _]%below_reverse). exfalso.
    assert (is_Some (tree_map (PluginBlockUndelegated_Init (T := T)) !! reverse s)) as Hk.
    { apply undelegated_keys, list_elem_of_fmap. exists s. split; [|done].
      by rewrite StringReverse_ascii by (by apply undelegated_ascii). }
    by rewrite (tree_longest_prefix_None _ _ _ E _ Hk) in Hpre.
Qed.
End undelegated.

Definition ex_q : bytes := str "printer.lan".

Lemma undelegated_spec_witness :
  undelegated (T := gmap bytes) PluginBlockUndelegated_Init ex_q = true.
Proof.
  apply (undelegated_spec (T := gmap bytes) ex_q); [repeat constructor; lia|].
  exists (str "lan"). split; [apply (bool_decide_unpack _); vm_compute; exact I|].
  right. exists (str "printer"). reflexivity.
Defined.

(** ** Payload sizes *)

(** The sizes that are negotiated stay within bounds.  Whatever size the client
    announces, the size the proxy announces upstream is at least what the client can
    receive without EDNS and at most the largest packet the proxy handles, less the
    overhead of the encryption; it is announced exactly when it is larger than 512
    bytes, without wrapping around; the client's own limit and its DNSSEC bit are
    remembered, and the query is otherwise unchanged. *)
Theorem payload_sizes {W} (w : W) ps msg err w' ps' msg' :
  0 <= UDPSize (MH msg) < 65536 ->
  PluginGetSetPayloadSize_Eval w ps msg = (err, w', ps', msg') ->
  err = None /\ w' = w /\
  512 - ResponseOverhead <= originalMaxPayloadSize ps' /\
  Z.min (originalMaxPayloadSize ps') (MaxDNSUDPPacketSize - ResponseOverhead) <= maxPayloadSize ps'
    <= MaxDNSUDPPacketSize - ResponseOverhead /\
  (0 < UDPSize (MH msg) -> maxUnencryptedUDPSafePayloadSize ps' = UDPSize (MH msg) /\
     originalMaxPayloadSize ps' = Z.max (UDPSize (MH msg)) 512 - ResponseOverhead) /\
  dnssec ps' = Security (MH msg) /\
  msg' = (if 512 <? maxPayloadSize ps'
          then set_header (set_EDNS (maxPayloadSize ps') (Security (MH msg))) msg else msg).
Proof.
  intros Hu. unfold PluginGetSetPayloadSize_Eval.
  destruct (if UDPSize (MH msg) >? 0 then _ else _) as [safe orig] eqn:E.
  assert (512 - ResponseOverhead <= orig /\ (0 < UDPSize (MH msg) -> safe = UDPSize (MH msg) /\
    orig = Z.max (UDPSize (MH msg)) 512 - ResponseOverhead)) as [Ho Hs].
  { unfold Max in E. destruct (UDPSize (MH msg) >? 0) eqn:E1; bools; injection E as <- <-; [|lia].
    split_ifs; lia. }
  set (mx := Min _ _).
  assert (Z.min orig (MaxDNSUDPPacketSize - ResponseOverhead) <= mx <= MaxDNSUDPPacketSize - ResponseOverhead)
    as Hmx by (unfold mx, Min, Max; split_ifs; lia).
  assert (uint16 mx = mx) as Hw.
  { unfold uint16. apply Z.mod_small. change (2 ^ 16) with 65536.
    assert (ResponseOverhead = 48) by reflexivity. unfold MaxDNSUDPPacketSize in *. lia. }
  rewrite Hw, Z.gtb_ltb. destruct (512 <? mx) eqn:Hl; intros [= <- <- <- <-]; cbn;
    rewrite Hl; split_and!; try done; try lia; apply Hs.
Qed.

Definition ex_edns_query : Msg :=
  {| MH := set_EDNS 1400 true zero_MsgHeader; Questions := []; Answer := []; Ns := []; Extra := []; Pseudo := [] |}.
Definition ex_plain_state : PluginsState :=
  NewPluginsState {| p_cacheNegMinTTL := 60; p_cacheNegMaxTTL := 600; p_cacheMinTTL := 2400;
    p_cacheMaxTTL := 86400; p_rejectTTL := 10; p_timeout := 5 * Second |} client_udp None udp 1.

Lemma payload_sizes_witness :
  let '(_, _, ps', msg') := PluginGetSetPayloadSize_Eval tt ex_plain_state ex_edns_query in
  maxPayloadSize ps' <= 4096 /\ dnssec ps' = true.
Proof.
  destruct (PluginGetSetPayloadSize_Eval tt ex_plain_state ex_edns_query) as [[[err w'] ps'] msg'] eqn:E.
  destruct (payload_sizes tt ex_plain_state ex_edns_query err w' ps' msg') as (_ & _ & _ & H1 & _ & H2 & _).
  - vm_compute. split; [discriminate|reflexivity].
  - exact E.
  - split; [|exact H2]. destruct H1 as [_ H1]. etransitivity; [exact H1|]. vm_compute. discriminate.
Defined.

(** ** Captive portals *)

Lemma HandleCaptivePortalQuery_answers msg q ips rr :
  rr ∈ Answer (HandleCaptivePortalQuery msg q ips) ->
  Name (hdr rr) = q_Name q /\ TTL (hdr rr) = 1 /\ RRToType rr = q_Type q /\
  exists ip, ip ∈ ips /\ (data rr = RD_A (default [] (To4 ip)) \/ data rr = RD_AAAA (default [] (To16 ip))).
Proof.
  unfold HandleCaptivePortalQuery. cbn. destruct (Z.eqb_spec (q_Type q) TypeA) as [->|].
  - intros (ip & Hin & H)%list_elem_of_omap. destruct (To4 ip) as [v4|] eqn:E; [|done].
    injection H as <-. split_and!; try done. exists ip. split; [done|]. left. by rewrite E.
  - destruct (Z.eqb_spec (q_Type q) TypeAAAA) as [->|]; [|by intros ?%not_elem_of_nil].
    intros (ip & Hin & H)%list_elem_of_omap. destruct (To4 ip); [done|].
    injection H as <-. split_and!; try done. exists ip. auto.
Qed.

Section cold.
Context `{D : DnsLib} `{!DnsLibLaws D}.

Lemma EmptyResponse_validates msg q : Questions msg = [q] ->
  forall answers, validateResponseForQuery (Some msg)
    (Some (set_Answer answers (EmptyResponseFromMessage msg))) = None.
Proof.
  intros Hq answers. unfold validateResponseForQuery, validateResponseQuestion. cbn.
  rewrite Z.eqb_refl, Hq, !Z.eqb_refl, EqualName_refl. done.
Qed.

(** Before the proxy is ready it only speaks about captive portals: a packet is
    answered only if it is a DNS query with one question, of the Internet class, for
    a name the map lists; the response validates against that query, and each of its
    records has the queried name and type, a TTL of one second, and an address the
    map lists for that name. *)
Theorem cold_start_answers cancelled read ipsMap response stop :
  handleColdStartClient cancelled read ipsMap = (Some response, stop) ->
  exists packet msg q name ips, read = ColdPacket packet /\ Unpack packet = Some msg /\
    Questions msg = [q] /\ q_Class q = ClassINET /\
    NormalizeQName (q_Name q) = Ok name /\ ipsMap !! name = Some ips /\ cancelled = false /\ stop = false /\
    exists r, Pack r = Some response /\ validateResponseForQuery (Some msg) (Some r) = None /\
      Rcode_ (MH r) = RcodeSuccess /\
      forall rr, rr ∈ Answer r -> Name (hdr rr) = q_Name q /\ TTL (hdr rr) = 1 /\ RRToType rr = q_Type q /\
        exists ip, ip ∈ ips /\ (data rr = RD_A (default [] (To4 ip)) \/ data rr = RD_AAAA (default [] (To16 ip))).
Proof.
  unfold handleColdStartClient. destruct cancelled; [done|]. destruct read as [packet| |]; [|done..].
  destruct (Unpack packet) as [msg|] eqn:Eu; [|done]. unfold GetEntry.
  destruct (Questions msg) as [|q [|]] eqn:Eq; [done| |done].
  destruct (NormalizeQName (q_Name q)) as [name|] eqn:En; [|done].
  destruct (ipsMap !! name) as [ips|] eqn:Em; [|done].
  destruct (Z.eqb_spec (q_Class q) ClassINET) as [Hc|]; [|done]. cbn [negb].
  intros [= Hp <-]. exists packet, msg, q, name, ips. split_and!; try done.
  exists (HandleCaptivePortalQuery msg q ips). split_and!; [done| |done|].
  - by apply (EmptyResponse_validates msg q).
  - intros rr. apply HandleCaptivePortalQuery_answers.
Qed.
End cold.

Definition ex_portal_query : Msg := sample_msg 0 [].
Definition ex_portal_map : gmap bytes (list bytes) := {[ str "a" := [v4_in_v6_prefix ++ [192; 0; 2; 1]] ]}.

(** A library that knows the query and the response to it. *)
Definition ex_portal_lib : DnsLib :=
  few_messages [ex_portal_query; HandleCaptivePortalQuery ex_portal_query
    {| q_Name := str "a."; q_Type := TypeA; q_Class := ClassINET |} [v4_in_v6_prefix ++ [192; 0; 2; 1]]].

Lemma cold_start_answers_witness :
  exists r, validateResponseForQuery (D := sample_DnsLib) (Some ex_portal_query) (Some r) = None /\
    forall rr, rr ∈ Answer r -> TTL (hdr rr) = 1.
Proof.
  destruct (cold_start_answers (D := ex_portal_lib) (DnsLibLaws0 := few_messages_laws _) false
    (ColdPacket (sample_packet 0)) ex_portal_map (sample_packet 1) false)
    as (packet & msg & q & name & ips & Hr & Hu & _ & _ & _ & _ & _ & _ & r & _ & Hv & _ & Ha).
  - vm_compute. reflexivity.
  - exists r. injection Hr as <-. vm_compute in Hu. injection Hu as <-. split; [exact Hv|].
    intros rr Hin. apply (Ha rr Hin).
Defined.
