(* ===== verification/ODoH.v ===== *)
(** * Oblivious DoH (oblivious_doh.go)

    Parsing of the configurations of a target, encryption of queries and
    decryption of responses.  HPKE (go-hpke-compact) is the class [Hpke]. *)

From S2P Require Import Prelude GoStrings.

Class Hpke (Suite Ctx Cipher : Type) := {
  NewSuite : Z -> Z -> Z -> option Suite;
  (** [NewClientContext suite publicKey info], with the randomness it uses. *)
  NewClientContext : Suite -> bytes -> bytes -> bytes -> option (Ctx * bytes);
  EncryptToServer : Ctx -> bytes -> bytes -> option bytes;
  Export : Ctx -> bytes -> Z -> option bytes;
  Extract : Suite -> bytes -> bytes -> bytes;
  Expand : Suite -> bytes -> bytes -> Z -> option bytes;
  HashSize : Suite -> Z;
  KeyBytes : Suite -> Z;
  NonceBytes : Suite -> Z;
  NewRawCipher : Suite -> bytes -> option Cipher;
  (** [Open cipher nonce ct aad]. *)
  Open_ : Cipher -> bytes -> bytes -> bytes -> option bytes;
}.

Definition odohVersion : Z := 1.
Definition odohTestVersion : Z := 65286.
Definition maxODoHConfigs : Z := 10.

(** [OPanic] stands for a run-time panic. *)
Inductive odoh_error := Malformed | NoConfigs | HpkeError | OPanic.

#[global] Instance odoh_error_eq_dec : EqDecision odoh_error.
Proof. solve_decision. Defined.

Definition hpke {A} (o : option A) : result odoh_error A :=
  match o with Some a => Ok a | None => Err HpkeError end.

(** [b[lo:hi]]; a slice out of range panics. *)
Definition slice (b : bytes) (lo hi : Z) : result odoh_error bytes :=
  if (0 <=? lo) && (lo <=? hi) && (hi <=? len b)
  then Ok (take (Z.to_nat (hi - lo)) (drop (Z.to_nat lo) b)) else Err OPanic.

(** [binary.BigEndian.Uint16(b[off:])] where it is in range. *)
Definition u16 (b : bytes) (off : Z) : Z := be16 (nth (Z.to_nat off) b 0) (nth (Z.to_nat (off + 1)) b 0).

Definition encodeLengthValue (b : bytes) : bytes := put_be16 (uint16 (len b)) ++ b.

Section odoh.
Context {Suite Ctx Cipher : Type} `{H : !Hpke Suite Ctx Cipher}.

Record ODoHTargetConfig := { suite : Suite; keyID : bytes; publicKey : bytes }.

(** [rand]: the randomness of the trial encapsulation. *)
Definition parseODoHTargetConfig (rand : bytes) (config : bytes) : result odoh_error ODoHTargetConfig :=
  if len config <? 8 then Err Malformed
  else
    let kemID := u16 config 0 in
    let kdfID := u16 config 2 in
    let aeadID := u16 config 4 in
    let publicKeyLength := u16 config 6 in
    let publicKey := drop 8 config in
    if negb (len publicKey =? publicKeyLength) then Err Malformed
    else
      suite ← hpke (NewSuite kemID kdfID aeadID);
      _ ← hpke (NewClientContext suite publicKey (str "odoh query") rand);
      keyID ← hpke (Expand suite (Extract suite config []) (str "odoh key id") (uint16 (HashSize suite)));
      Ok {| suite := suite; keyID := encodeLengthValue keyID; publicKey := publicKey |}.

(** The loop over the configurations, from [offset]; every round moves at least four
    bytes, so the length of the message is fuel enough ([configs_loop_fuel]). *)
Fixpoint configs_loop (rand : bytes) (fuel : nat) (configs : bytes) (offset : Z)
    (targets : list ODoHTargetConfig) : option (list ODoHTargetConfig) :=
  match fuel with
  | O => None
  | S fuel' =>
      if (offset + 4 >? len configs) || (len targets >=? maxODoHConfigs) then Some targets
      else
        let configVersion := u16 configs offset in
        let configLength := u16 configs (offset + 2) in
        if offset + 4 + configLength >? len configs then Some targets
        else
          let targets :=
            if (configVersion =? odohVersion) || (configVersion =? odohTestVersion) then
              match parseODoHTargetConfig rand
                      (take (Z.to_nat configLength) (drop (Z.to_nat (offset + 4)) configs)) with
              | Ok target => targets ++ [target]
              | Err _ => targets
              end
            else targets in
          configs_loop rand fuel' configs (offset + configLength + 4) targets
  end.

Definition parseODoHTargetConfigs (rand configs : bytes) : result odoh_error (list ODoHTargetConfig) :=
  if len configs <=? 2 then Err NoConfigs
  else
    let length_ := u16 configs 0 in
    if negb (len configs =? length_ + 2) then Err Malformed
    else Ok (default [] (configs_loop rand (length configs) configs 2 [])).

Record ODoHQuery := { q_suite : Suite; q_ctx : Ctx; odohPlaintext : bytes; odohMessage : bytes }.

Definition encryptQuery (rand : bytes) (t : ODoHTargetConfig) (query : bytes) : result odoh_error ODoHQuery :=
  '(clientCtx, encryptedSharedSecret) ← hpke (NewClientContext (suite t) (publicKey t) (str "odoh query") rand);
  let odohPlaintext := put_be16 (uint16 (len query)) ++ query ++ [0; 0] in
  let aad := [1] ++ keyID t in
  ciphertext ← hpke (EncryptToServer clientCtx odohPlaintext aad);
  let encryptedMessage := encodeLengthValue (encryptedSharedSecret ++ ciphertext) in
  let odohMessage := ([1] ++ keyID t) ++ encryptedMessage in
  Ok {| q_suite := suite t; q_ctx := clientCtx; odohPlaintext := odohPlaintext; odohMessage := odohMessage |}.

(** The checks on the decrypted response. *)
Definition unpad_response (responsePlaintext : bytes) : result odoh_error bytes :=
  if len responsePlaintext <? 2 then Err Malformed
  else
    let responseLength := u16 responsePlaintext 0 in
    let paddingOffset := 2 + responseLength in
    if paddingOffset + 2 >? len responsePlaintext then Err Malformed
    else
      let paddingLength := u16 responsePlaintext paddingOffset in
      if negb (paddingOffset + 2 + paddingLength =? len responsePlaintext) then Err Malformed
      else if negb (forallb (fun b => b =? 0) (drop (Z.to_nat (paddingOffset + 2)) responsePlaintext))
      then Err Malformed
      else slice responsePlaintext 2 (2 + responseLength).

(** The end of the nonce is computed on 16 bits. *)
Definition decryptResponse (q : ODoHQuery) (response : bytes) : result odoh_error bytes :=
  if len response <? 3 then Err Malformed
  else if negb (nth 0 response 0 =? 2) then Err Malformed
  else
    let responseNonceLength := u16 response 1 in
    if len response <? 5 + responseNonceLength then Err Malformed
    else
      responseNonceEnc ← slice response 1 (uint16 (3 + responseNonceLength));
      secret ← hpke (Export (q_ctx q) (str "odoh response") (KeyBytes (q_suite q)));
      let salt := odohPlaintext q ++ responseNonceEnc in
      let prk := Extract (q_suite q) secret salt in
      key ← hpke (Expand (q_suite q) prk (str "odoh key") (KeyBytes (q_suite q)));
      nonce ← hpke (Expand (q_suite q) prk (str "odoh nonce") (NonceBytes (q_suite q)));
      cipher ← hpke (NewRawCipher (q_suite q) key);
      let ctLength := u16 response (3 + responseNonceLength) in
      let ct := drop (Z.to_nat (5 + responseNonceLength)) response in
      if negb (ctLength =? len ct) then Err Malformed
      else
        let aad := take (Z.to_nat (3 + responseNonceLength)) response in
        responsePlaintext ← hpke (Open_ cipher nonce ct aad);
        unpad_response responsePlaintext.
End odoh.
Arguments ODoHTargetConfig : clear implicits.
Arguments ODoHQuery : clear implicits.

(** ** Properties *)

(** *** Fields with a length *)

Lemma u16_at pre v post : 0 <= v < 2 ^ 16 -> u16 (pre ++ put_be16 v ++ post) (len pre) = v.
Proof.
  intros Hv. unfold u16, len. replace (Z.to_nat (Z.of_nat (length pre) + 1)) with (length pre + 1)%nat by lia.
  rewrite Nat2Z.id, (app_nth2_plus pre _ _ 1).
  rewrite (app_nth2 pre), Nat.sub_diag by lia. by apply be16_put.
Qed.

Lemma nth_byte b i : are_bytes b -> is_byte (nth i b 0).
Proof.
  intros Hb. destruct (Nat.lt_ge_cases i (length b)).
  - by apply Forall_nth.
  - rewrite nth_overflow by done. unfold is_byte. lia.
Qed.

Lemma u16_bound b off : are_bytes b -> 0 <= u16 b off < 2 ^ 16.
Proof. intros Hb. by apply be16_bound; apply nth_byte. Qed.

Lemma put_be16_u16 b off : are_bytes b -> 0 <= off -> off + 2 <= len b ->
  take 2 (drop (Z.to_nat off) b) = put_be16 (u16 b off).
Proof.
  unfold u16, len. intros Hb H0 Hl.
  replace (Z.to_nat (off + 1)) with (S (Z.to_nat off)) by lia.
  generalize (Z.to_nat off) (ltac:(lia) : (Z.to_nat off + 2 <= length b)%nat). clear -Hb.
  intros n Hn. revert b Hb Hn. induction n as [|n IH]; intros b Hb Hn.
  - destruct b as [|x [|y b]]; simpl in *; [lia..|]. inversion Hb as [|?? Hx Hb']. inversion Hb' as [|?? Hy _].
    unfold put_be16, be16, uint8, is_byte in *. change (2 ^ 8) with 256.
    repeat f_equal; Z.to_euclidean_division_equations; lia.
  - destruct b as [|x b]; simpl in *; [lia|]. inversion Hb. apply IH; [done|lia].
Qed.

(** A field of the messages: its length and its contents. *)
Notation lv b := (put_be16 (len b) ++ b).

Lemma len_put_be16 v : len (put_be16 v) = 2.
Proof. done. Qed.

Lemma take_len {A} (l k : list A) n : n = len l -> take (Z.to_nat n) (l ++ k) = l.
Proof. intros ->. unfold len. rewrite Nat2Z.id. apply take_app_length. Qed.

Lemma drop_len {A} (l k : list A) n : n = len l -> drop (Z.to_nat n) (l ++ k) = k.
Proof. intros ->. unfold len. rewrite Nat2Z.id. apply drop_app_length. Qed.

Lemma len_drop {A} (l : list A) n : 0 <= n <= len l -> len (drop (Z.to_nat n) l) = len l - n.
Proof. unfold len. rewrite length_drop. lia. Qed.

(** A message that is long enough starts with a field at every offset. *)
Lemma split_lv b off : are_bytes b -> 0 <= off -> off + 2 + u16 b off <= len b -> off + 2 <= len b ->
  exists f, len f = u16 b off /\
    b = take (Z.to_nat off) b ++ lv f ++ drop (Z.to_nat (off + 2 + u16 b off)) b.
Proof.
  intros Hb H0 Hl Hl'. pose proof (u16_bound b off Hb) as Hu.
  exists (take (Z.to_nat (u16 b off)) (drop (Z.to_nat (off + 2)) b)).
  assert (Hlen : len (take (Z.to_nat (u16 b off)) (drop (Z.to_nat (off + 2)) b)) = u16 b off).
  { unfold len in *. rewrite length_take, length_drop. lia. }
  split; [done|]. rewrite Hlen, <-put_be16_u16 by done.
  rewrite !Z2Nat.inj_add by lia. change (Z.to_nat 2) with 2%nat.
  rewrite <-(drop_drop b (Z.to_nat (u16 b off))), <-app_assoc, take_drop.
  rewrite <-(drop_drop b 2), take_drop. by rewrite take_drop.
Qed.

Section odoh.
Context {Suite Ctx Cipher : Type} `{H : !Hpke Suite Ctx Cipher}.

(** *** The configurations of a target *)

(** A list of configurations as a target sends it. *)
Definition config_entry (c : Z * bytes) : bytes := put_be16 c.1 ++ lv c.2.
Definition config_list (cs : list (Z * bytes)) : bytes := lv (concat (config_entry <$> cs)).

Definition accepted (rand : bytes) (c : Z * bytes) : option (ODoHTargetConfig Suite) :=
  if (c.1 =? odohVersion) || (c.1 =? odohTestVersion) then
    match parseODoHTargetConfig rand c.2 with Ok t => Some t | Err _ => None end
  else None.

Definition encodable (c : Z * bytes) : Prop := 0 <= c.1 < 2 ^ 16 /\ len c.2 < 2 ^ 16.

Lemma config_entry_at pre v c post : encodable (v, c) ->
  let m := pre ++ config_entry (v, c) ++ post in
  len m = len pre + 4 + len c + len post /\ u16 m (len pre) = v /\ u16 m (len pre + 2) = len c /\
  take (Z.to_nat (len c)) (drop (Z.to_nat (len pre + 4)) m) = c.
Proof.
  intros [Hv Hc]. cbn [fst snd] in *. pose proof (len_nonneg c). unfold config_entry. cbn [fst snd]. cbv zeta.
  rewrite <-!app_assoc. split_and!.
  - rewrite !len_app, !len_put_be16. lia.
  - by apply u16_at.
  - replace (len pre + 2) with (len (pre ++ put_be16 v)) by (rewrite len_app, len_put_be16; lia).
    rewrite (app_assoc pre). apply u16_at. lia.
  - rewrite (app_assoc pre), (app_assoc (pre ++ _)), drop_len; [by apply take_len|].
    rewrite !len_app, !len_put_be16. lia.
Qed.

Lemma configs_loop_list rand cs pre acc fuel :
  Forall encodable cs -> len acc <= 10 -> (length cs < fuel)%nat ->
  configs_loop rand fuel (pre ++ concat (config_entry <$> cs)) (len pre) acc =
  Some (take 10 (acc ++ omap (accepted rand) cs)).
Proof.
  intros Hcs. revert pre acc fuel. induction Hcs as [|[v c] cs Hc Hcs IH];
    intros pre acc [|fuel] Hacc Hf; simpl in Hf; try lia; cbn [fmap list_fmap concat configs_loop].
  - rewrite !app_nil_r, (proj2 (Z.gtb_lt _ _)) by lia. simpl.
    rewrite take_ge; [done|]. unfold len in Hacc. lia.
  - destruct (config_entry_at pre v c (concat (config_entry <$> cs)) Hc) as (Hl & Hu1 & Hu2 & Ht).
    cbv zeta in *. rewrite Hl, Hu1, Hu2, Ht. pose proof (len_nonneg c).
    pose proof (len_nonneg (concat (config_entry <$> cs))).
    rewrite (Z.gtb_ltb (len pre + 4)), (proj2 (Z.ltb_ge _ _)) by lia. cbn [orb].
    destruct (Z.geb_spec (len acc) maxODoHConfigs) as [Hm|Hm].
    { unfold maxODoHConfigs, len in *. rewrite take_app_le, take_ge by lia. done. }
    rewrite Z.gtb_ltb, (proj2 (Z.ltb_ge _ _)) by lia.
    replace (len pre + len c + 4) with (len (pre ++ config_entry (v, c)))
      by (unfold config_entry; rewrite !len_app, !len_put_be16; cbn [snd]; lia).
    rewrite app_assoc, IH; [|unfold maxODoHConfigs in Hm; repeat case_match; rewrite ?len_app;
      change (len [_]) with 1; lia|lia].
    do 2 f_equal. change (omap _ (_ :: cs)) with
      (match accepted rand (v, c) with Some x => x :: omap (accepted rand) cs | None => omap (accepted rand) cs end).
    unfold accepted at 2. cbn [fst snd]. repeat case_match; simplify_eq/=; try done. by rewrite <-app_assoc.
Qed.

(** A list of configurations, as a target encodes it, is read as the first ten
    configurations with a known version that parse; the others are skipped, whatever
    they contain. *)
Theorem odoh_configs rand cs :
  Forall encodable cs -> cs <> [] -> len (concat (config_entry <$> cs)) < 2 ^ 16 ->
  parseODoHTargetConfigs rand (config_list cs) = Ok (take 10 (omap (accepted rand) cs)).
Proof.
  intros Hcs Hne Hl. unfold parseODoHTargetConfigs, config_list. rewrite len_app, len_put_be16.
  assert (Hp : (length cs < length (put_be16 (len (concat (config_entry <$> cs))) ++
    concat (config_entry <$> cs)))%nat /\ 0 < len (concat (config_entry <$> cs))).
  { rewrite length_app. unfold len at 2. simpl. split; [clear; induction cs as [|c cs IH]|].
    - simpl. lia.
    - cbn [fmap list_fmap concat]. rewrite length_app. unfold config_entry at 1. simpl. lia.
    - destruct cs as [|c cs]; [done|]. simpl. lia. }
  rewrite (proj2 (Z.leb_gt _ _)) by lia.
  pose proof (u16_at [] (len (concat (config_entry <$> cs))) (concat (config_entry <$> cs))) as Hu.
  simpl in Hu. change (len []) with 0 in Hu. simpl. rewrite Hu by lia.
  rewrite Z.add_comm, Z.eqb_refl. simpl.
  pose proof (configs_loop_list rand cs (put_be16 (len (concat (config_entry <$> cs)))) []
    (length (put_be16 (len (concat (config_entry <$> cs))) ++ concat (config_entry <$> cs)))) as E.
  rewrite len_put_be16 in E. simpl in E. rewrite E; [done|done|vm_compute; discriminate|]. simpl in Hp. lia.
Qed.

(** The loop over the configurations ends within the fuel it is given. *)
Lemma configs_loop_fuel rand fuel configs offset acc :
  are_bytes configs -> 0 <= offset <= len configs -> len configs - offset < Z.of_nat fuel ->
  exists ts, configs_loop rand fuel configs offset acc = Some ts.
Proof.
  intros Hb. revert offset acc. induction fuel as [|fuel IH]; intros offset acc H0 Hf.
  - lia.
  - simpl. destruct (_ || _) eqn:E; [eauto|]. case_match; [eauto|].
    apply IH; pose proof (u16_bound configs (offset + 2) Hb); lia.
Qed.

(** *** Responses *)

(** The plaintext of a response: the DNS message and the padding. *)
Definition padded (r : bytes) (pad : nat) : bytes := lv r ++ lv (replicate pad 0).

Lemma forallb_zeros l : forallb (fun b => b =? 0) l = true <-> l = replicate (length l) 0.
Proof.
  split.
  - induction l as [|x l IH]; simpl; [done|]. rewrite andb_true_iff, Z.eqb_eq. intros [-> Hl]. by rewrite <-IH.
  - intros ->. by induction (length l).
Qed.

Lemma unpad_padded r pad : len r < 2 ^ 16 -> Z.of_nat pad < 2 ^ 16 -> unpad_response (padded r pad) = Ok r.
Proof.
  intros Hr Hp. pose proof (len_nonneg r). unfold unpad_response, padded.
  pose proof (u16_at [] (len r) (r ++ lv (replicate pad 0)) ltac:(lia)) as U1. change (len []) with 0 in U1.
  pose proof (u16_at (lv r) (len (replicate pad 0)) (replicate pad 0)) as U2.
  rewrite len_replicate in *. rewrite !len_app, !len_put_be16, len_replicate in *.
  rewrite app_nil_l in U1. rewrite <-(app_assoc (put_be16 (len r))) in *. rewrite U1.
  rewrite (proj2 (Z.ltb_ge _ _)), Z.gtb_ltb, (proj2 (Z.ltb_ge _ _)), U2, (proj2 (Z.eqb_eq _ _)) by lia. cbn [negb].
  assert (E : drop (Z.to_nat (2 + len r + 2)) (put_be16 (len r) ++ r ++ put_be16 (Z.of_nat pad) ++ replicate pad 0)
    = replicate pad 0).
  { rewrite !app_assoc, drop_len; [done|]. rewrite !len_app, !len_put_be16. lia. }
  rewrite E. rewrite (proj2 (forallb_zeros _)) by (by rewrite length_replicate). cbn [negb].
  unfold slice. rewrite !len_app, !len_put_be16, len_replicate.
  rewrite (proj2 (Z.leb_le 0 2)), (proj2 (Z.leb_le 2 _)), (proj2 (Z.leb_le _ _)) by lia. cbn [andb].
  f_equal. change (Z.to_nat 2) with (length (put_be16 (len r))). rewrite drop_app_length.
  apply take_len. lia.
Qed.

Lemma unpad_inv pt r : are_bytes pt -> unpad_response pt = Ok r ->
  exists pad, pt = padded r pad /\ len r < 2 ^ 16 /\ Z.of_nat pad < 2 ^ 16.
Proof.
  intros Hb. unfold unpad_response. destruct (len pt <? 2) eqn:E1; [done|].
  destruct (_ >? _) eqn:E2; [done|]. case_match eqn:E3; [done|]. case_match eqn:E4; [done|].
  pose proof (u16_bound pt 0 Hb) as B1. pose proof (u16_bound pt (2 + u16 pt 0) Hb) as B2.
  destruct (split_lv pt 0 Hb) as (f & Hf & Hpt); [lia..|]. rewrite Z.add_0_l in Hpt. simpl in Hpt.
  destruct (split_lv pt (2 + u16 pt 0) Hb) as (z & Hz & Hpt'); [lia..|].
  intros Hr. exists (length z).
  assert (Hd : drop (Z.to_nat (2 + u16 pt 0)) pt = lv z).
  { rewrite Hpt' at 2. rewrite drop_app_ge; [|rewrite length_take; lia].
    rewrite length_take, Nat.min_l by (unfold len in *; lia). rewrite Nat.sub_diag. simpl.
    rewrite (drop_ge pt), app_nil_r; [done|]. unfold len in *. lia. }
  assert (Hz0 : z = replicate (length z) 0).
  { apply forallb_zeros. apply negb_false_iff in E4. rewrite <-E4. f_equal.
    replace (Z.to_nat (2 + u16 pt 0 + 2)) with (Z.to_nat (2 + u16 pt 0) + 2)%nat by lia.
    rewrite <-drop_drop, Hd. done. }
  assert (Hrf : r = f).
  { assert (E : drop 2 pt = f ++ drop (Z.to_nat (2 + u16 pt 0)) pt) by (rewrite Hpt at 1; done).
    unfold slice in Hr. case_match; [|done]. change (Z.to_nat 2) with 2%nat in Hr. rewrite E in Hr.
    rewrite take_len in Hr by lia. congruence. }
  subst r. split; [|unfold len in *; lia]. unfold padded. rewrite <-Hz0. rewrite Hpt at 1. by rewrite Hd.
Qed.

(** The ciphertext [ct] of a response with nonce [n] opens to [pt], with the keys that
    RFC 9230 derives from the context of the query. *)
Definition opens (q : ODoHQuery Suite Ctx) (n ct pt : bytes) : Prop :=
  exists secret key nonce cipher,
    let s := q_suite q in
    let prk := Extract s secret (odohPlaintext q ++ lv n) in
    Export (q_ctx q) (str "odoh response") (KeyBytes s) = Some secret /\
    Expand s prk (str "odoh key") (KeyBytes s) = Some key /\
    Expand s prk (str "odoh nonce") (NonceBytes s) = Some nonce /\
    NewRawCipher s key = Some cipher /\
    Open_ cipher nonce ct ([2] ++ lv n) = Some pt.

(** The message of a response, as a target sends it. *)
Definition response_message (n ct : bytes) : bytes := [2] ++ lv n ++ lv ct.

Lemma response_fields n ct : len n < 2 ^ 16 -> len ct < 2 ^ 16 ->
  let m := response_message n ct in
  len m = 5 + len n + len ct /\ u16 m 1 = len n /\ u16 m (3 + len n) = len ct /\
  drop (Z.to_nat (5 + len n)) m = ct /\ take (Z.to_nat (3 + len n)) m = [2] ++ lv n /\
  take (Z.to_nat (3 + len n - 1)) (drop (Z.to_nat 1) m) = lv n.
Proof.
  intros Hn Hc m. pose proof (len_nonneg n). pose proof (len_nonneg ct).
  assert (L : len ([2] ++ lv n) = 3 + len n) by (rewrite !len_app; done || (rewrite len_put_be16; change (len [2]) with 1; lia)).
  assert (E1 : m = ([2] ++ lv n) ++ lv ct) by done.
  assert (E2 : m = (([2] ++ lv n) ++ put_be16 (len ct)) ++ ct) by (by rewrite <-app_assoc).
  split_and!.
  - rewrite E1, len_app, L, len_app, len_put_be16. lia.
  - apply (u16_at [2]). lia.
  - rewrite E1, <-L. apply u16_at. lia.
  - rewrite E2. apply drop_len. rewrite len_app, L, len_put_be16. lia.
  - rewrite E1. apply take_len. lia.
  - change (drop (Z.to_nat 1) m) with (lv n ++ lv ct). apply take_len.
    rewrite len_app, len_put_be16. lia.
Qed.

Lemma decryptResponse_message q n ct r : len n <= 65532 -> len ct < 2 ^ 16 ->
  decryptResponse q (response_message n ct) = Ok r <->
  exists pt, opens q n ct pt /\ unpad_response pt = Ok r.
Proof.
  intros Hn Hc. pose proof (len_nonneg n). pose proof (len_nonneg ct).
  destruct (response_fields n ct ltac:(lia) Hc) as (Hl & Hu1 & Hu2 & Hd & Ht & Hs). unfold decryptResponse.
  rewrite Hl, Hu1, Hu2, Hd, Ht. rewrite !(proj2 (Z.ltb_ge _ _)) by lia.
  change (nth 0 (response_message n ct) 0) with 2. change (negb (2 =? 2)) with false. cbv iota.
  assert (Hu : uint16 (3 + len n) = 3 + len n) by (apply Z.mod_small; lia).
  unfold slice. rewrite Hu, Hl, Hs, (proj2 (Z.leb_le 0 1)), (proj2 (Z.leb_le 1 _)), (proj2 (Z.leb_le _ _)) by lia.
  cbn [andb]. rewrite Z.eqb_refl. unfold opens. cbv zeta. cbn [mbind result_bind negb].
  split.
  - unfold hpke, mbind, result_bind. intros Hd'. repeat (case_match; try discriminate); simplify_eq. by eauto 15.
  - intros (pt & (secret & key & nonce & cipher & -> & Hk & Hnn & Hci & Ho) & Hr).
    unfold mbind, result_bind. cbn [hpke]. rewrite Hk. cbn [hpke]. rewrite Hnn. cbn [hpke].
    rewrite Hci. cbn [hpke]. rewrite Ho. done.
Qed.

Lemma decryptResponse_shape q response r : are_bytes response -> decryptResponse q response = Ok r ->
  exists n ct, response = response_message n ct /\ len n = u16 response 1 /\ len ct < 2 ^ 16.
Proof.
  intros Hb. unfold decryptResponse. destruct (len response <? 3) eqn:E1; [done|].
  destruct (nth 0 response 0 =? 2) eqn:E2; [|done]. cbn [negb]. destruct (_ <? 5 + _) eqn:E3; [done|].
  unfold mbind, result_bind. intros Hr. repeat (case_match; try discriminate). clear Hr.
  match goal with E : negb (_ =? _) = false |- _ => apply negb_false_iff, Z.eqb_eq in E; rename E into E4 end.
  pose proof (u16_bound response 1 Hb) as B. pose proof (u16_bound response (3 + u16 response 1) Hb) as B'.
  rewrite len_drop in E4 by lia.
  destruct (split_lv response 1 Hb) as (n & Hn & Hs); [lia..|].
  destruct (split_lv response (3 + u16 response 1) Hb) as (ct & Hct & Hs'); [lia..|].
  exists n, ct. split; [|lia].
  assert (Hd : drop (Z.to_nat (3 + u16 response 1)) response = lv ct).
  { rewrite Hs' at 2. rewrite drop_app_ge by (rewrite length_take; lia).
    rewrite length_take, Nat.min_l by (unfold len in *; lia). rewrite Nat.sub_diag, drop_0.
    rewrite (drop_ge response), app_nil_r; [done|]. unfold len in *. lia. }
  replace (1 + 2 + u16 response 1) with (3 + u16 response 1) in Hs by lia. rewrite Hd in Hs.
  unfold response_message. destruct response as [|x response]; [done|]. simpl in E2. apply Z.eqb_eq in E2. subst x.
  exact Hs.
Qed.

(** The plaintext that [Open_] returns is a byte slice. *)
Hypothesis Open_bytes : forall c n ct aad pt, Open_ c n ct aad = Some pt -> are_bytes pt.

(** A response is accepted exactly when it is a response message whose ciphertext
    opens, under the keys derived from the query and the nonce, to the returned DNS
    message followed by a padding of zeros of the announced length. *)
Theorem odoh_response q response r :
  are_bytes response -> u16 response 1 <= 65532 ->
  decryptResponse q response = Ok r <->
  exists n ct pad, response = response_message n ct /\ len ct < 2 ^ 16 /\ len n < 2 ^ 16 /\
    len r < 2 ^ 16 /\ Z.of_nat pad < 2 ^ 16 /\ opens q n ct (padded r pad).
Proof.
  intros Hb Hu. split.
  - intros Hr. destruct (decryptResponse_shape q response r Hb Hr) as (n & ct & -> & Hn & Hct).
    apply decryptResponse_message in Hr as (pt & Ho & Hp); [|lia|done].
    assert (are_bytes pt) as Hpb by (destruct Ho as (?&?&?&?&?&?&?&?&Ho); by eapply Open_bytes).
    destruct (unpad_inv pt r Hpb Hp) as (pad & -> & Hl & Hpad). exists n, ct, pad. split_and!; auto; lia.
  - intros (n & ct & pad & -> & Hct & Hn & Hl & Hpad & Ho).
    destruct (response_fields n ct Hn Hct) as (_ & Hu1 & _). apply decryptResponse_message; [lia|done|].
    eauto using unpad_padded.
Qed.

Lemma hpke_no_panic {A B} (o : option A) (f : A -> result odoh_error B) :
  (forall a, o = Some a -> f a <> Err OPanic) -> (hpke o ≫= f) <> Err OPanic.
Proof. destruct o; simpl; [intros Hf; by apply Hf|done]. Qed.

Lemma unpad_no_panic pt : are_bytes pt -> unpad_response pt <> Err OPanic.
Proof.
  intros Hb. pose proof (u16_bound pt 0 Hb). unfold unpad_response, slice.
  repeat (case_match; try discriminate). lia.
Qed.

(** Decrypting a response stops the program in exactly one case: a response whose
    nonce is 65533 bytes long, since the end of the nonce is computed on 16 bits. *)
Theorem odoh_panic q response : are_bytes response ->
  decryptResponse q response = Err OPanic <->
  nth 0 response 0 = 2 /\ u16 response 1 = 65533 /\ 65538 <= len response.
Proof.
  intros Hb. pose proof (u16_bound response 1 Hb) as B. unfold decryptResponse.
  destruct (Z.ltb_spec (len response) 3) as [|H3]; [split; [done|lia]|].
  destruct (Z.eqb_spec (nth 0 response 0) 2) as [H2|]; [|split; [done|naive_solver]]. cbn [negb].
  destruct (Z.ltb_spec (len response) (5 + u16 response 1)) as [|H5]; [split; [done|lia]|].
  split.
  - intros Hp. split; [done|]. destruct (slice response 1 (uint16 (3 + u16 response 1))) as [x|e] eqn:Es.
    + exfalso. revert Hp. do 4 (apply hpke_no_panic; intros ? _). cbv zeta. case_match; [done|].
      apply hpke_no_panic. intros pt Ho. eapply unpad_no_panic, Open_bytes, Ho.
    + clear Hp. unfold slice, uint16 in Es. assert (3 + u16 response 1 = 65536); [|lia].
      case_match eqn:Ec; [done|]. Z.to_euclidean_division_equations. lia.
  - intros (_ & -> & Hl). reflexivity.
Qed.
End odoh.

(** *** A target with a toy cipher *)

(** Keys, nonces and shared secrets are empty; the cipher adds 1 to every byte and
    ignores the rest. *)
#[local] Instance toy_hpke : Hpke unit unit unit := {
  NewSuite kem kdf aead := if kem =? 32 then Some tt else None;
  NewClientContext _ pk _ _ := Some (tt, [7]);
  EncryptToServer _ m _ := Some ((fun b => uint8 (b + 1)) <$> m);
  Export _ _ _ := Some [];
  Extract _ _ _ := [];
  Expand _ _ _ _ := Some [];
  HashSize _ := 32;
  KeyBytes _ := 16;
  NonceBytes _ := 12;
  NewRawCipher _ _ := Some tt;
  Open_ _ _ ct _ := Some ((fun b => uint8 (b - 1)) <$> ct);
}.

Lemma toy_Open_bytes c n ct aad pt : Open_ c n ct aad = Some pt -> are_bytes pt.
Proof. simpl. intros [= <-]. apply Forall_fmap, Forall_true. intros x. apply uint8_byte. Qed.

Definition toy_config (kem : Z) : bytes := [0; kem; 0; 1; 0; 1; 0; 1; 9].
Definition toy_configs : list (Z * bytes) :=
  [(1, toy_config 32); (2, toy_config 32); (65286, toy_config 16); (65286, toy_config 32); (1, [])].

Lemma odoh_configs_witness :
  parseODoHTargetConfigs [] (config_list toy_configs) =
    Ok (take 10 (omap (accepted []) toy_configs)) /\
  length (take 10 (omap (accepted []) toy_configs)) = 2%nat.
Proof.
  split; [|reflexivity]. apply (odoh_configs [] toy_configs).
  - repeat constructor; cbn; lia.
  - discriminate.
  - reflexivity.
Defined.

Definition toy_query : ODoHQuery unit unit :=
  {| q_suite := tt; q_ctx := tt; odohPlaintext := [0; 1; 5; 0; 0]; odohMessage := [] |}.

Lemma odoh_response_witness :
  exists n ct pad, response_message [3] [1; 3; 9; 9; 1; 2; 1] = response_message n ct /\
    opens toy_query n ct (padded [8; 8] pad).
Proof.
  destruct (proj1 (odoh_response toy_Open_bytes toy_query (response_message [3] [1; 3; 9; 9; 1; 2; 1]) [8; 8]
    ltac:(by repeat constructor) ltac:(discriminate)) ltac:(reflexivity)) as (n & ct & pad & Hm & _ & _ & _ & _ & Ho).
  by exists n, ct, pad.
Defined.

Lemma odoh_panic_witness :
  decryptResponse toy_query ([2; 255; 253] ++ replicate (Z.to_nat 65540) 0) = Err OPanic.
Proof.
  apply (odoh_panic toy_Open_bytes).
  - apply Forall_app. split; [by repeat constructor|]. by apply Forall_replicate.
  - rewrite len_app, len_replicate. split_and!; [reflexivity|reflexivity|]. rewrite Z2Nat.id by lia. discriminate.
Defined.
