(* ===== verification/Forward.v ===== *)
(** * Forwarding (plugin_forward.go)

    Rules that send the queries for some domains to plain DNS servers: the
    servers of a rule are explicit addresses, the bootstrap resolvers, those of the
    DHCP server, or those of a resolv.conf file.

    The network, the DHCP detectors, the files, the clock and the random numbers
    are the class [ForwardEnv]; every exchange that is started is recorded in
    [sent]. *)

From S2P Require Import Prelude GoStrings NetIP Common Platform Crypto Dns DnsUtils Metrics Plugins Reload.

(** ** Host names and ports *)

(** [net.SplitHostPort]. *)
Definition SplitHostPort (hostport : bytes) : option (bytes * bytes) :=
  match LastIndexByte hostport 58 with
  | None => None
  | Some i =>
      let port := drop (S i) hostport in
      if HasPrefix hostport [91] then
        match IndexByte hostport 93 with
        | None => None
        | Some end_ =>
            if negb (S end_ =? i)%nat then None
            else if bool_decide (91 ∈ drop 1 hostport) || bool_decide (93 ∈ drop (S end_) hostport) then None
            else Some (take (end_ - 1) (drop 1 hostport), port)
        end
      else
        let host := take i hostport in
        if bool_decide (58 ∈ host) then None
        else if bool_decide (91 ∈ hostport) || bool_decide (93 ∈ hostport) then None
        else Some (host, port)
  end.

(** [net.JoinHostPort]. *)
Definition JoinHostPort (host port : bytes) : bytes :=
  if bool_decide (58 ∈ host) then [91] ++ host ++ [93; 58] ++ port else host ++ [58] ++ port.

Inductive forward_error :=
| SyntaxError (lineNo : Z) | NoProxy (lineNo : Z) | NoBootstrap (lineNo : Z)
| ProxyWithoutServer (lineNo : Z) | ProxyWithKeyword (lineNo : Z)
| InvalidAddress | RulesUnreadable.

#[global] Instance forward_error_eq_dec : EqDecision forward_error.
Proof. solve_decision. Defined.

Definition normalizeIPAndOptionalPort (addr defaultPort : bytes) : result forward_error bytes :=
  '(host, port) ←
    (if HasPrefix addr (str "[") then
       if negb (Contains addr (str "]:")) then
         if negb (nth (length addr - 1) addr 0 =? 93) then Err InvalidAddress
         else Ok (take (length addr - 2) (drop 1 addr), defaultPort)
       else match SplitHostPort addr with
       | None => Err InvalidAddress
       | Some hp => Ok hp
       end
     else match SplitHostPort addr with
     | None => Ok (addr, defaultPort)
     | Some hp => Ok hp
     end);
  match ParseIP host with
  | None => Err InvalidAddress
  | Some ip =>
      match To4 ip with
      | Some _ => Ok (ip_String ip ++ [58] ++ port)
      | None => Ok ([91] ++ ip_String ip ++ [93; 58] ++ port)
      end
  end.

(** The servers of a resolv.conf file and the addresses that were ignored. *)
Definition resolvconf_line (acc : list bytes * list bytes) (line : bytes) : list bytes * list bytes :=
  let '(servers, warnings) := acc in
  let line := TrimSpace line in
  if negb (HasPrefix line (str "nameserver")) then acc
  else match Fields line with
  | _ :: addr :: _ =>
      let host := match SplitHostPort addr with Some (h, _) => h | None => addr end in
      match ParseIP host with
      | None => (servers, warnings ++ [addr])
      | Some _ => (servers ++ [addr], warnings)
      end
  | _ => acc
  end.

Definition parseResolvConf (data : bytes) : list bytes * list bytes :=
  fold_left resolvconf_line (Split data 10) ([], []).

(** ** Rules *)

(** A [SearchSequenceItem], by its type; [rcLastFail] is a Unix time, 0 for never. *)
Inductive SearchSequenceItem :=
| Explicit (servers : list bytes)
| Bootstrap
| DHCP
| Resolvconf (file : bytes) (rcLastFail : Z).

#[global] Instance SearchSequenceItem_eq_dec : EqDecision SearchSequenceItem.
Proof. solve_decision. Defined.

Record PluginForwardEntry := { domain : bytes; sequence : list SearchSequenceItem; viaProxy : bool }.

Definition is_Explicit (i : SearchSequenceItem) : bool :=
  match i with Explicit _ => true | _ => false end.

(** [append(sequence, item)] unless the last item has this type already. *)
Definition push_once (item : SearchSequenceItem) (seq : list SearchSequenceItem) : list SearchSequenceItem :=
  if bool_decide (last seq = Some item) then seq else seq ++ [item].

(** The last explicit item gets the server; without one, there is a new item. *)
Fixpoint add_to_last (server : bytes) (seq : list SearchSequenceItem) : option (list SearchSequenceItem) :=
  match seq with
  | [] => None
  | item :: seq' =>
      match add_to_last server seq' with
      | Some seq' => Some (item :: seq')
      | None =>
          match item with
          | Explicit servers => Some (Explicit (servers ++ [server]) :: seq')
          | _ => None
          end
      end
  end.

Definition add_server (server : bytes) (seq : list SearchSequenceItem) : list SearchSequenceItem :=
  default (seq ++ [Explicit [server]]) (add_to_last server seq).

Section parse.
Context (unicode_lower : bytes -> bytes).
Context (bootstrapResolvers : list bytes) (hasDialer : bool).

(** One server of a rule. *)
Definition parse_server (lineNo : Z) (acc : list SearchSequenceItem * bool) (server : bytes)
    : result forward_error (list SearchSequenceItem * bool) :=
  let '(seq, requiresDHCP) := acc in
  let server := TrimSpace server in
  if bool_decide (server = str "$BOOTSTRAP") then
    if len bootstrapResolvers =? 0 then Err (NoBootstrap lineNo)
    else Ok (push_once Bootstrap seq, requiresDHCP)
  else if bool_decide (server = str "$DHCP") then Ok (push_once DHCP seq, true)
  else if HasPrefix server (str "$RESOLVCONF:") then
    let file := drop (length (str "$RESOLVCONF:")) server in
    if len file =? 0 then Ok (seq, requiresDHCP)
    else Ok (seq ++ [Resolvconf (filepath_Clean file) 0], requiresDHCP)
  else if HasPrefix server (str "$") then Ok (seq, requiresDHCP)
  else match normalizeIPAndOptionalPort server (str "53") with
  | Err _ => Ok (seq, requiresDHCP)
  | Ok server => Ok (add_server server seq, requiresDHCP)
  end.

Fixpoint parse_servers (lineNo : Z) (acc : list SearchSequenceItem * bool) (servers : list bytes)
    : result forward_error (list SearchSequenceItem * bool) :=
  match servers with
  | [] => Ok acc
  | server :: servers' => acc ← parse_server lineNo acc server; parse_servers lineNo acc servers'
  end.

(** One line; [n] is its number from 0. *)
Definition parse_line (n : Z) (line : bytes) (acc : bool * list PluginForwardEntry)
    : result forward_error (bool * list PluginForwardEntry) :=
  let '(requiresDHCP, forwardMap) := acc in
  let line := TrimAndStripInlineComments line in
  if len line =? 0 then Ok acc
  else
    let '(domain, serversStr, ok) := StringTwoFields line in
    let domain := TrimPrefix domain (str "*.") in
    let ok := if Contains domain (str "*") then false else ok in
    if negb ok then Err (SyntaxError (1 + n))
    else
      let domain := ToLower unicode_lower domain in
      let viaProxy := HasPrefix serversStr (str "$PROXY:") in
      if viaProxy && negb hasDialer then Err (NoProxy (1 + n))
      else
        let serversStr := if viaProxy then TrimSpace (drop (length (str "$PROXY:")) serversStr)
                          else serversStr in
        '(sequence, requiresDHCP) ← parse_servers (1 + n) ([], requiresDHCP) (Split serversStr 44);
        if viaProxy && (len sequence =? 0) then Err (ProxyWithoutServer (1 + n))
        else if viaProxy && negb (forallb is_Explicit sequence) then Err (ProxyWithKeyword (1 + n))
        else Ok (requiresDHCP,
                 forwardMap ++ [{| domain := domain; sequence := sequence; viaProxy := viaProxy |}]).

Fixpoint parse_lines (n : Z) (lines : list bytes) (acc : bool * list PluginForwardEntry)
    : result forward_error (bool * list PluginForwardEntry) :=
  match lines with
  | [] => Ok acc
  | line :: lines' => acc ← parse_line n line acc; parse_lines (n + 1) lines' acc
  end.

Definition parseForwardFile (lines : bytes) : result forward_error (bool * list PluginForwardEntry) :=
  parse_lines 0 (Split lines 10) (false, []).
End parse.

(** ** Exchanges *)

(** [client_Exchange timeout msg proto server] is [Client.Exchange] with a new client
    and a context that ends after [timeout]: a message, perhaps, and whether there is an
    error, which may come beside a message.
    [proxy_Dial timeout server] dials through the proxy and returns what remains of
    [timeout] afterwards; the connection it makes is the one [conn_SetDeadline] and
    [conn_Exchange] use. *)
Class ForwardEnv (S : Type) := {
  client_Exchange : Duration -> Msg -> bytes -> bytes -> S -> option Msg * bool * S;
  proxy_Dial : Duration -> bytes -> S -> option Duration * S;
  conn_SetDeadline : S -> bool * S;
  conn_Exchange : Duration -> Msg -> S -> option Msg * bool * S;
  Intn : Z -> S -> Z * S;
  UnixNow : S -> Z * S;
  (** [Status] of the n-th DHCP detector: inconsistency, address, servers, error. *)
  dhcp_Status : nat -> S -> Z * bytes * list bytes * bool * S;
  read_file : bytes -> S -> option bytes * S;
}.

Record PluginForward := {
  forwardMap : list PluginForwardEntry;
  fw_bootstrapResolvers : list bytes;
  dhcpdns : nat;                 (* number of detectors *)
  proxyDialer : bool;            (* whether there is one *)
  forceTCP : bool;
  fw_configFile : bytes;
  stagingMap : option (list PluginForwardEntry);
}.

Definition set_maps (active : list PluginForwardEntry) (staged : option (list PluginForwardEntry))
    (p : PluginForward) : PluginForward :=
  {| forwardMap := active; fw_bootstrapResolvers := fw_bootstrapResolvers p; dhcpdns := dhcpdns p;
     proxyDialer := proxyDialer p; forceTCP := forceTCP p; fw_configFile := fw_configFile p;
     stagingMap := staged |}.

(** A record of an exchange: protocol, server and message. *)
Record Sent := { sent_proto : bytes; sent_server : bytes; sent_msg : Msg }.

Record FwdWorld {S : Type} := { fw_plugin : PluginForward; fw_env : S; sent : list Sent }.
Arguments FwdWorld : clear implicits.

Section eval.
Context `{D : DnsLib} {S : Type} `{FE : !ForwardEnv S}.

(** The part of the world a query changes while it goes through the servers. *)
Notation net := (S * list Sent)%type.

Definition start (proto server : bytes) (m : Msg) (log : list Sent) : list Sent :=
  log ++ [{| sent_proto := proto; sent_server := server; sent_msg := m |}].

Definition exchangeDirect (forwardMsg : Msg) (proto server : bytes) (timeout : Duration) (n : net)
    : result plugin_error (option Msg) * net :=
  let '(s, log) := n in
  let '(respMsg, err, s) := client_Exchange timeout forwardMsg proto server s in
  let log := start proto server forwardMsg log in
  let truncated := match respMsg with Some m => Truncated (MH m) | None => false end in
  if err && negb truncated then (Err PluginFailed, (s, log))
  else if truncated then
    let '(respMsg, err, s) := client_Exchange timeout forwardMsg (str "tcp") server s in
    let log := start (str "tcp") server forwardMsg log in
    if err then (Err PluginFailed, (s, log)) else (Ok respMsg, (s, log))
  else (Ok respMsg, (s, log)).

Definition exchangeViaProxy (dialer : bool) (forwardMsg : Msg) (server : bytes) (timeout : Duration)
    (n : net) : result plugin_error (option Msg) * net :=
  let '(s, log) := n in
  if negb dialer then (Err PluginFailed, n)
  else match proxy_Dial timeout server s with
  | (None, s) => (Err PluginFailed, (s, log))
  | (Some remaining, s) =>
      if remaining <=? 0 then (Err PluginFailed, (s, log))
      else
        let '(err, s) := conn_SetDeadline s in
        if err then (Err PluginFailed, (s, log))
        else
          let '(respMsg, err, s) := conn_Exchange remaining forwardMsg s in
          let log := start (str "proxy") server forwardMsg log in
          if err then (Err PluginFailed, (s, log)) else (Ok respMsg, (s, log))
  end.

(** ** The servers of a rule *)

Inductive choice := Chosen (server : bytes) | Skip | ChoicePanic.

(** [l[rand.Intn(len(l))]]; [rand.Intn(0)] panics. *)
Definition pick (l : list bytes) (s : S) : option bytes * S :=
  if len l =? 0 then (None, s)
  else let '(i, s) := Intn (len l) s in (l !! Z.to_nat i, s).

Definition chosen (c : option bytes) : choice :=
  match c with Some server => Chosen server | None => ChoicePanic end.

(** The loop over the DHCP detectors, from the [i]-th. *)
Fixpoint dhcp_loop (left i : nat) (s : S) : choice * S :=
  match left with
  | O => (Skip, s)
  | Datatypes.S left' =>
      let '(inconsistency, ip, dhcpDNS, err, s) := dhcp_Status i s in
      if err && negb (bool_decide (ip = [])) && (inconsistency >? 9) then dhcp_loop left' (i + 1) s
      else if len dhcpDNS >? 0 then
        match pick dhcpDNS s with
        | (Some addr, s) => (Chosen (JoinHostPort (ip_String addr) (str "53")), s)
        | (None, s) => (ChoicePanic, s)
        end
      else dhcp_loop left' (i + 1) s
  end.

Definition resolvconfRetryInterval : Z := 30.

(** The server an item gives, and the item afterwards. *)
Definition choose_server (p : PluginForward) (item : SearchSequenceItem) (s : S)
    : choice * SearchSequenceItem * S :=
  match item with
  | Explicit servers => let '(c, s) := pick servers s in (chosen c, item, s)
  | Bootstrap => let '(c, s) := pick (fw_bootstrapResolvers p) s in (chosen c, item, s)
  | DHCP => let '(c, s) := dhcp_loop (dhcpdns p) 0 s in (c, item, s)
  | Resolvconf file lastFail =>
      let '(recent, s) :=
        if negb (lastFail =? 0) then
          let '(t, s) := UnixNow s in (t - lastFail <? resolvconfRetryInterval, s)
        else (false, s) in
      if recent then (Skip, item, s)
      else match read_file file s with
      | (None, s) => let '(t, s) := UnixNow s in (Skip, Resolvconf file t, s)
      | (Some data, s) =>
          match (parseResolvConf data).1 with
          | [] => let '(t, s) := UnixNow s in (Skip, Resolvconf file t, s)
          | servers =>
              match pick servers s with
              | (None, s) => (ChoicePanic, Resolvconf file 0, s)
              | (Some nameserver, s) =>
                  match normalizeIPAndOptionalPort nameserver (str "53") with
                  | Err _ => (Skip, Resolvconf file 0, s)
                  | Ok server => (Chosen server, Resolvconf file 0, s)
                  end
              end
          end
      end
  end.

(** The message that is forwarded. *)
Definition forward_msg (msg : Msg) : Msg := set_Extra [] msg.

(** The response as the client gets it. *)
Definition forward_response (msg respMsg : Msg) : Msg :=
  let respMsg := if Security (MH respMsg) then respMsg
                 else set_header (set_AuthenticatedData false) respMsg in
  set_header (set_ID (ID (MH msg))) respMsg.

Definition retry_rcode (rcode : Z) : bool :=
  (rcode =? RcodeNameError) || (rcode =? RcodeRefused) || (rcode =? RcodeNotAuth).

Definition item_exchange (p : PluginForward) (viaProxy : bool) (item : SearchSequenceItem)
    (forwardMsg : Msg) (server : bytes) (timeout : Duration) (n : net) : result plugin_error (option Msg) * net :=
  if viaProxy then exchangeViaProxy (proxyDialer p) forwardMsg server timeout n
  else
    let proto := if bool_decide (item = Bootstrap) && forceTCP p then str "tcp" else str "udp" in
    exchangeDirect forwardMsg proto server timeout n.

(** The loop over the items of the sequence, with the tries that are left and the
    value of [err]; it returns the items as they are afterwards. *)
Fixpoint try_items (p : PluginForward) (viaProxy : bool) (msg : Msg) (items : list SearchSequenceItem)
    (tries : nat) (err : option plugin_error) (ps : PluginsState) (n : net)
    : option plugin_error * PluginsState * list SearchSequenceItem * net :=
  match items with
  | [] => (err, ps, [], n)
  | item :: items' =>
      let '(c, item', s) := choose_server p item n.1 in
      let n := (s, n.2) in
      match c with
      | ChoicePanic => (Some PluginPanic, ps, item' :: items', n)
      | Skip =>
          let '(err, ps, items', n) := try_items p viaProxy msg items' tries err ps n in
          (err, ps, item' :: items', n)
      | Chosen server =>
          let ps := set_serverName server ps in
          if len server =? 0 then
            let '(err, ps, items', n) := try_items p viaProxy msg items' tries err ps n in
            (err, ps, item' :: items', n)
          else match tries with
          | O => (err, ps, item' :: items', n)
          | Datatypes.S tries =>
              let forwardMsg := forward_msg msg in
              match item_exchange p viaProxy item forwardMsg server (ps_timeout ps) n with
              | (Err e, n) =>
                  let '(err, ps, items', n) := try_items p viaProxy msg items' tries (Some e) ps n in
                  (err, ps, item' :: items', n)
              | (Ok respMsg, n) =>
                  match validateResponseQuestion (Some forwardMsg) respMsg, respMsg with
                  | Some _, _ | None, None =>
                      let '(err, ps, items', n) := try_items p viaProxy msg items' tries None ps n in
                      (err, ps, item' :: items', n)
                  | None, Some respMsg =>
                      let respMsg := forward_response msg respMsg in
                      let ps := set_returnCode PluginsReturnCodeForward
                                  (set_action PluginsActionSynth (set_synthResponse (Some respMsg) ps)) in
                      if retry_rcode (Rcode_ (MH respMsg)) then
                        let '(err, ps, items', n) := try_items p viaProxy msg items' tries None ps n in
                        (err, ps, item' :: items', n)
                      else (None, ps, item' :: items', n)
                  end
              end
          end
      end
  end.

(** Whether a rule applies to a name. *)
Definition rule_matches (qName domain : bytes) : bool :=
  let qNameLen := length qName in
  let candidateLen := length domain in
  if (qNameLen <? candidateLen)%nat then false
  else
    (bool_decide (drop (qNameLen - candidateLen) qName = domain) &&
     ((candidateLen =? qNameLen)%nat || (nth (qNameLen - candidateLen - 1) qName 0 =? 46)))
    || bool_decide (domain = str ".").

(** The first rule that applies: its position. *)
Fixpoint find_rule (qName : bytes) (rules : list PluginForwardEntry) : option nat :=
  match rules with
  | [] => None
  | r :: rules' =>
      if rule_matches qName (domain r) then Some 0%nat else Datatypes.S <$> find_rule qName rules'
  end.

(** The items are shared with the rule: what a query changes stays changed. *)
Definition set_sequence (items : list SearchSequenceItem) (r : PluginForwardEntry) : PluginForwardEntry :=
  {| domain := domain r; sequence := items; viaProxy := viaProxy r |}.

Definition PluginForward_Eval : Plugin (FwdWorld S) := fun w ps msg =>
  let p := fw_plugin w in
  match find_rule (qName ps) (forwardMap p) with
  | None => (None, w, ps, msg)
  | Some i =>
      match forwardMap p !! i with
      | None => (None, w, ps, msg)
      | Some rule =>
          if len (sequence rule) =? 0 then (None, w, ps, msg)
          else
            let '(err, ps, items, n) :=
              try_items p (viaProxy rule) msg (sequence rule) 4 None ps (fw_env w, sent w) in
            (err, {| fw_plugin := set_maps (<[i := set_sequence items rule]> (forwardMap p)) (stagingMap p) p;
                     fw_env := n.1; sent := n.2 |}, ps, msg)
      end
  end.
End eval.

(** ** Deadlines through the proxy *)

(** The underlying connection: its two deadlines. *)
Record Conn := { read_deadline : Time; write_deadline : Time }.
Record deadlineCappedConn := { conn : Conn; deadline : Time }.

Definition capped (c : deadlineCappedConn) (t : Time) : Time :=
  if IsZero t || (t >? deadline c) then deadline c else t.

Definition SetReadDeadline (t : Time) (c : deadlineCappedConn) : deadlineCappedConn :=
  {| conn := {| read_deadline := capped c t; write_deadline := write_deadline (conn c) |};
     deadline := deadline c |}.
Definition SetWriteDeadline (t : Time) (c : deadlineCappedConn) : deadlineCappedConn :=
  {| conn := {| read_deadline := read_deadline (conn c); write_deadline := capped c t |};
     deadline := deadline c |}.
Definition SetDeadline (t : Time) (c : deadlineCappedConn) : deadlineCappedConn :=
  {| conn := {| read_deadline := capped c t; write_deadline := capped c t |}; deadline := deadline c |}.

(** ** Loading and reloading *)

Definition PluginForward_Init (lower : bytes -> bytes) (file : bytes) (bin : option bytes)
    (bootstrap : list bytes) (dialer force SourceIPv6 SourceIPv4 : bool)
    : PluginForward * option forward_error :=
  let p := {| forwardMap := []; fw_bootstrapResolvers := bootstrap; dhcpdns := 0; proxyDialer := dialer;
              forceTCP := force; fw_configFile := file; stagingMap := None |} in
  match bin with
  | None => (p, Some RulesUnreadable)
  | Some bin =>
      match parseForwardFile lower bootstrap dialer (ReadTextFile bin) with
      | Err e => (p, Some e)
      | Ok (requiresDHCP, rules) =>
          let detectors := if requiresDHCP
            then ((if SourceIPv6 then 1 else 0) + (if SourceIPv4 then 1 else 0))%nat else 0%nat in
          ({| forwardMap := rules; fw_bootstrapResolvers := bootstrap; dhcpdns := detectors;
              proxyDialer := dialer; forceTCP := force; fw_configFile := file; stagingMap := None |}, None)
      end
  end.

Definition PluginForward_PrepareReload (lower : bytes -> bytes) (fs : FS) (t : nat) : op PluginForward :=
  fun p =>
    match SafeReadTextFile fs t (fw_configFile p) with
    | Err e => (p, Some e)
    | Ok lines =>
        match parseForwardFile lower (fw_bootstrapResolvers p) (proxyDialer p) lines with
        | Err _ => (p, Some BadConfig)
        | Ok (_, rules) => (set_maps (forwardMap p) (Some rules) p, None)
        end
    end.

Definition PluginForward_ApplyReload : op PluginForward := fun p =>
  match stagingMap p with
  | None => (p, Some NoStagedConfig)
  | Some rules => (set_maps rules None p, None)
  end.

Definition PluginForward_CancelReload (p : PluginForward) : PluginForward :=
  set_maps (forwardMap p) None p.

#[export] Instance PluginForward_reloadable (lower : bytes -> bytes)
    : ReloadablePlugin PluginForward (list PluginForwardEntry) := {|
  activeRules p := Some (forwardMap p); stagedRules := stagingMap; GetConfigPath := fw_configFile;
  PrepareReload := PluginForward_PrepareReload lower; ApplyReload := PluginForward_ApplyReload;
  CancelReload := PluginForward_CancelReload;
  Reload fs t := reload_body (PluginForward_PrepareReload lower fs t) PluginForward_CancelReload
                   PluginForward_ApplyReload;
|}.
