(* ===== verification/ForwardProps.v ===== *)
(** * Properties of forwarding

    Which rule applies to a name, what the addresses of the rules look like, and
    what a query goes through when it is forwarded. *)

From S2P Require Import Prelude GoStrings NetIP NetIPProps Common Crypto Dns DnsUtils Metrics Plugins Reload.
From S2P Require Import DnsUtilsProps RuleLogProps Forward.

(** ** Addresses *)

Lemma LastIndexByte_app a b c : c ∉ b -> LastIndexByte (a ++ c :: b) c = Some (length a).
Proof.
  intros Hb. assert (Hn : LastIndexByte b c = None).
  { induction b as [|x b IH]; [done|]. simpl. rewrite IH by set_solver.
    destruct (Z.eqb_spec x c); [set_solver|done]. }
  induction a as [|x a IH]; simpl; [by rewrite Hn, Z.eqb_refl|by rewrite IH].
Qed.

Lemma LastIndexByte_Some s c i : LastIndexByte s c = Some i ->
  s = take i s ++ c :: drop (S i) s /\ c ∉ drop (S i) s.
Proof.
  assert (forall s, LastIndexByte s c = None -> c ∉ s) as Hn.
  { intros t. induction t as [|x t IH]; simpl; [set_solver|]. destruct (LastIndexByte t c); [done|].
    destruct (Z.eqb_spec x c); [done|set_solver]. }
  revert i. induction s as [|x s IH]; intros i; simpl; [done|].
  destruct (LastIndexByte s c) as [j|] eqn:E.
  - intros [= <-]. destruct (IH j eq_refl) as [H1 H2]. simpl. by rewrite <-H1.
  - destruct (Z.eqb_spec x c) as [->|]; [|done]. intros [= <-]. simpl. rewrite drop_0. auto.
Qed.

(** A port, as [SplitHostPort] leaves it. *)
Definition port_ok (p : bytes) : Prop := 58 ∉ p /\ 91 ∉ p /\ 93 ∉ p.

Lemma SplitHostPort_port s h p : SplitHostPort s = Some (h, p) -> port_ok p.
Proof.
  unfold SplitHostPort. destruct (LastIndexByte s 58) as [i|] eqn:E; [|done].
  apply LastIndexByte_Some in E as [Hs Hp]. unfold port_ok.
  assert (Hin : forall c, c ∈ drop (S i) s -> c ∈ s) by (intros c Hc; rewrite Hs; set_solver).
  intros Hr. repeat (case_match; try discriminate); simplify_eq; rewrite orb_false_iff in *; destruct_and?;
    repeat match goal with H : bool_decide _ = false |- _ => apply bool_decide_eq_false in H end.
  - match goal with H : negb (S ?e =? i)%nat = false |- _ => apply negb_false_iff, Nat.eqb_eq in H; subst i end.
    split_and!; [done|..]; intros Hc.
    + match goal with H : 91 ∉ _ |- _ => apply H end. rewrite <-(take_drop (S n) (drop 1 s)), drop_drop.
      apply elem_of_app. right. done.
    + match goal with H : 93 ∉ _ |- _ => apply H end. rewrite <-(take_drop 1 (drop (S n) s)), drop_drop.
      apply elem_of_app. right. by rewrite Nat.add_1_r.
  - split_and!; [done|..]; intros Hc; eauto.
Qed.

Lemma SplitHostPort_v4 h p : 58 ∉ h -> 91 ∉ h -> 93 ∉ h -> port_ok p ->
  SplitHostPort (h ++ 58 :: p) = Some (h, p).
Proof.
  intros H1 H2 H3 (Hp1 & Hp2 & Hp3). unfold SplitHostPort. rewrite LastIndexByte_app by done.
  assert (HasPrefix (h ++ 58 :: p) [91] = false) as ->.
  { destruct h as [|x h]; [done|]. cbn [HasPrefix app].
    destruct (Z.eqb_spec 91 x); [set_solver|done]. }
  rewrite take_app_length, bool_decide_false by done.
  rewrite !bool_decide_false by (rewrite elem_of_app, elem_of_cons; intuition discriminate).
  simpl. replace (S (length h)) with (length h + 1)%nat by lia. by rewrite drop_app_add.
Qed.

Lemma SplitHostPort_v6 h p : 91 ∉ h -> 93 ∉ h -> port_ok p ->
  SplitHostPort ([91] ++ h ++ [93; 58] ++ p) = Some (h, p).
Proof.
  intros H2 H3 (Hp1 & Hp2 & Hp3). unfold SplitHostPort.
  replace ([91] ++ h ++ [93; 58] ++ p) with ((91 :: h ++ [93]) ++ 58 :: p)
    by (simpl; by rewrite <-app_assoc).
  rewrite LastIndexByte_app by done. change (HasPrefix ((91 :: h ++ [93]) ++ 58 :: p) [91]) with true. cbv iota.
  assert (Hl : (91 :: h ++ [93]) ++ 58 :: p = (91 :: h) ++ 93 :: 58 :: p) by (simpl; by rewrite <-app_assoc).
  rewrite Hl. assert (IndexByte ((91 :: h) ++ 93 :: 58 :: p) 93 = Some (length (91 :: h))) as ->.
  { apply IndexByte_spec. split; [apply list_lookup_middle; done|]. rewrite take_app_length. set_solver. }
  assert (length (91 :: h ++ [93]) = S (length (91 :: h))) as -> by (simpl; rewrite length_app; simpl; lia).
  rewrite Nat.eqb_refl. cbn [negb]. change (drop 1 ((91 :: h) ++ 93 :: 58 :: p)) with (h ++ 93 :: 58 :: p).
  replace (S (length (91 :: h))) with (length (91%Z :: h) + 1)%nat by lia.
  replace (S (length (91%Z :: h) + 1)) with (length (91%Z :: h) + 2)%nat by lia. rewrite !drop_app_add.
  cbn [drop]. replace (length (91%Z :: h) - 1)%nat with (length h) by (simpl; lia). rewrite take_app_length.
  rewrite !bool_decide_false; [done|set_solver|set_solver].
Qed.

(** A canonical endpoint: an address and a port that normalization leaves alone. *)
Definition is_endpoint (s : bytes) : Prop := forall defaultPort, normalizeIPAndOptionalPort s defaultPort = Ok s.

Lemma ip_char_not c l : Forall ip_char l -> ~ ip_char c -> c ∉ l.
Proof. intros Hl Hc Hin. rewrite Forall_forall in Hl. auto. Qed.

Lemma Contains_middle a sub b : Contains (a ++ sub ++ b) sub = true.
Proof. apply Contains_spec. eauto. Qed.

Lemma endpoint_v6 ip p : are_bytes ip -> length ip = 16%nat -> To4 ip = None -> port_ok p ->
  is_endpoint ([91] ++ ip_String ip ++ [93; 58] ++ p).
Proof.
  intros Hb Hl H4 Hp dp. pose proof (ip_String_chars ip Hb Hl) as Hc.
  unfold normalizeIPAndOptionalPort. change (HasPrefix ([91] ++ _) (str "[")) with true. cbv iota.
  change (str "]:") with [93; 58]. rewrite (app_assoc [91]), Contains_middle, <-(app_assoc [91]). cbn [negb].
  rewrite SplitHostPort_v6; [|eapply ip_char_not; [done|unfold ip_char; lia]..|done].
  cbn [mbind result_bind]. by rewrite ParseIP_ip_String, H4.
Qed.

Lemma endpoint_v4 ip v4 p : are_bytes ip -> length ip = 16%nat -> To4 ip = Some v4 -> port_ok p ->
  is_endpoint (ip_String ip ++ [58] ++ p).
Proof.
  intros Hb Hl H4 Hp dp. unfold normalizeIPAndOptionalPort.
  assert (Hd : Forall (fun c => 46 <= c <= 57) (ip_String ip)).
  { unfold ip_String. rewrite H4. apply To4_v6 in H4 as [_ H4]; [|done].
    destruct v4 as [|a [|b [|c [|d [|]]]]]; try discriminate. unfold string_v4.
    assert (Hi : forall n, Forall (fun c => 46 <= c <= 57) (itoa n)).
    { intros n. eapply Forall_impl; [apply itoa_digits|intros; simpl in *; lia]. }
    rewrite !Forall_app, !Forall_cons, !Forall_app, !Forall_cons, !Forall_app, !Forall_cons.
    split_and!; auto; lia. }
  assert (Hn : forall c, ~ (46 <= c <= 57) -> c ∉ ip_String ip).
  { intros c Hc Hin. rewrite Forall_forall in Hd. auto. }
  assert (HasPrefix (ip_String ip ++ [58] ++ p) (str "[") = false) as ->.
  { destruct (ip_String ip) as [|x l]; [done|]. cbn [HasPrefix app str].
    change (str "[") with [91]. cbn [HasPrefix]. destruct (Z.eqb_spec 91 x); [|done].
    exfalso. apply (Hn 91); [lia|set_solver]. }
  change ([58] ++ p) with (58 :: p). rewrite SplitHostPort_v4 by (apply Hn; lia) || done.
  cbn [mbind result_bind]. by rewrite ParseIP_ip_String, H4.
Qed.

Lemma normalize_endpoint addr dp s : port_ok dp ->
  normalizeIPAndOptionalPort addr dp = Ok s -> is_endpoint s.
Proof.
  intros Hdp. unfold normalizeIPAndOptionalPort at 1.
  destruct (if HasPrefix addr (str "[") then _ else _) as [[host port]|] eqn:E; [|done].
  cbn [mbind result_bind]. destruct (ParseIP host) as [ip|] eqn:Ei; [|done].
  destruct (ParseIP_wf host ip Ei) as [Hb Hl].
  assert (port_ok port) as Hp.
  { revert E. repeat (case_match; try discriminate); intros ?; simplify_eq/=;
      eauto using SplitHostPort_port. }
  destruct (To4 ip) as [v4|] eqn:E4; intros [= <-]; [by eapply endpoint_v4|by apply endpoint_v6].
Qed.

Lemma port_53 : port_ok (str "53").
Proof. change (str "53") with [53; 51]. unfold port_ok. set_solver by lia. Qed.

(** ** The well-formed rules *)

(** An item from which a server can be chosen. *)
Definition item_wf (bootstrap : list bytes) (i : SearchSequenceItem) : Prop :=
  match i with
  | Explicit servers => servers <> [] /\ Forall is_endpoint servers
  | Bootstrap => bootstrap <> []
  | DHCP | Resolvconf _ _ => True
  end.

(** Well-formed rules: a proxied rule has explicit servers only, and at least one. *)
Definition rule_wf (bootstrap : list bytes) (hasDialer : bool) (r : PluginForwardEntry) : Prop :=
  Forall (item_wf bootstrap) (sequence r) /\
  (viaProxy r = true -> hasDialer = true /\ sequence r <> [] /\ forallb is_Explicit (sequence r) = true).

Lemma push_once_wf b item seq : item_wf b item -> Forall (item_wf b) seq -> Forall (item_wf b) (push_once item seq).
Proof. intros Hi Hs. unfold push_once. case_bool_decide; [done|]. apply Forall_app; eauto. Qed.

Lemma add_to_last_wf b server seq seq' : is_endpoint server -> Forall (item_wf b) seq ->
  add_to_last server seq = Some seq' -> Forall (item_wf b) seq'.
Proof.
  intros He Hs. revert seq'. induction Hs as [|i seq Hi Hs IH]; intros seq'; cbn [add_to_last]; [done|].
  destruct (add_to_last server seq) as [t|].
  - intros [= <-]. constructor; auto.
  - destruct i; try done. intros [= <-]. constructor; [|done]. destruct Hi as [Hne Hall]. split.
    + by destruct servers.
    + apply Forall_app; auto.
Qed.

Lemma add_server_wf b server seq : is_endpoint server -> Forall (item_wf b) seq ->
  Forall (item_wf b) (add_server server seq).
Proof.
  intros He Hs. unfold add_server. destruct (add_to_last server seq) eqn:E; simpl.
  - by eapply add_to_last_wf.
  - apply Forall_app. split; [done|]. repeat constructor; done.
Qed.

Lemma parse_servers_wf b lineNo servers acc seq dhcp :
  Forall (item_wf b) acc.1 -> parse_servers b lineNo acc servers = Ok (seq, dhcp) -> Forall (item_wf b) seq.
Proof.
  revert acc. induction servers as [|server servers IH]; intros [seq0 d0] Hs; cbn [parse_servers].
  { by intros [= <- <-]. }
  destruct (parse_server b lineNo (seq0, d0) server) as [acc|] eqn:E; [|done]. cbn [mbind result_bind].
  apply IH. revert E. unfold parse_server. simpl in Hs.
  destruct (bool_decide _).
  { destruct (Z.eqb_spec (len b) 0); [done|]. intros [= <-]. apply push_once_wf; [|done]. by intros ->. }
  destruct (bool_decide _); [intros [= <-]; by apply push_once_wf|].
  destruct (HasPrefix _ (str "$RESOLVCONF:")).
  { case_match; intros [= <-]; [done|]. apply Forall_app; split; [done|]. by repeat constructor. }
  destruct (HasPrefix _ _); [by intros [= <-]|].
  destruct (normalizeIPAndOptionalPort _ _) eqn:En; intros [= <-]; [|done].
  apply add_server_wf; [|done]. eapply normalize_endpoint; [apply port_53|exact En].
Qed.

Lemma parseForwardFile_wf lower bootstrap hasDialer lines dhcp rules :
  parseForwardFile lower bootstrap hasDialer lines = Ok (dhcp, rules) ->
  Forall (rule_wf bootstrap hasDialer) rules.
Proof.
  unfold parseForwardFile. assert (Forall (rule_wf bootstrap hasDialer) (false, @nil PluginForwardEntry).2) as H0 by constructor.
  revert H0. generalize (false, @nil PluginForwardEntry) as acc, 0 as n.
  induction (Split lines 10) as [|line ls IH]; intros [d0 acc] n H0; cbn [parse_lines]; [by intros [= <- <-]|].
  destruct (parse_line _ _ _ _ _ _) as [acc'|] eqn:E; [|done]. cbn [mbind result_bind]. apply IH.
  revert E. unfold parse_line. simpl in H0. case_match; [by intros [= <-]|].
  destruct (StringTwoFields _) as [[dom servers] ok]. case_match; [done|].
  set (via := HasPrefix servers (str "$PROXY:")). destruct (via && negb hasDialer) eqn:Ep; [done|].
  destruct (parse_servers _ _ _ _) as [[seq d]|] eqn:Es; [|done]. cbn [mbind result_bind].
  apply parse_servers_wf in Es; [|done].
  destruct (_ && (len seq =? 0)) eqn:Ee; [done|]. destruct (_ && negb (forallb _ _)) eqn:Ef; [done|].
  intros [= <-]. apply Forall_app. split; [done|]. constructor; [|done]. split; [done|]. simpl.
  intros Hv. rewrite Hv in Ep, Ee, Ef. simpl in *. split; [by destruct hasDialer|]. split.
  - by intros ->.
  - by apply negb_false_iff.
Qed.

(** Whatever the rule file contains, the rules that are loaded are well-formed:
    every explicit server is a canonical address with a port, no item is without a
    server to choose from, and a proxied rule has explicit servers only. *)
Theorem forward_rules_wf lower bootstrap hasDialer lines dhcp rules :
  parseForwardFile lower bootstrap hasDialer lines = Ok (dhcp, rules) ->
  Forall (rule_wf bootstrap hasDialer) rules.
Proof. apply parseForwardFile_wf. Qed.

(** ** Rules and names *)

(** A rule is for a name: its domain, or a name under it, or any name for the root. *)
Definition under (domain qName : bytes) : Prop :=
  qName = domain \/ (exists labels, qName = labels ++ str "." ++ domain) \/ (domain = str "." /\ qName <> []).

Lemma rule_matches_spec qName domain : rule_matches qName domain = true <-> under domain qName.
Proof.
  unfold rule_matches, under. change (str ".") with [46].
  destruct (Nat.ltb_spec (length qName) (length domain)) as [Hlt|Hle].
  - split; [done|]. intros [->|[[l ->]|[-> Hne]]]; [lia|rewrite !length_app in Hlt; lia|].
    destruct qName; [done|simpl in Hlt; lia].
  - rewrite orb_true_iff, andb_true_iff, !bool_decide_eq_true, orb_true_iff, Nat.eqb_eq, Z.eqb_eq. split.
    + intros [[Hd Hc]|Hr].
      * destruct (decide (length domain = length qName)) as [He|Hne].
        { left. rewrite He, Nat.sub_diag in Hd. done. }
        destruct Hc as [Hc|Hc]; [done|]. right. left.
        exists (take (length qName - length domain - 1) qName).
        rewrite <-(take_drop (length qName - length domain - 1) qName) at 1. f_equal.
        rewrite (drop_S _ 46); [|rewrite (nth_lookup_lt _ _ 0) by lia; by rewrite Hc].
        replace (S (length qName - length domain - 1)) with (length qName - length domain)%nat by lia.
        by rewrite Hd.
      * right. right. split; [done|]. rewrite Hr in Hle. by destruct qName; simpl in Hle; [lia|].
    + intros [->|[[l ->]|[-> Hne]]]; [left|left|by right].
      * rewrite Nat.sub_diag. auto.
      * rewrite !length_app. simpl. replace (length l + S (length domain) - length domain)%nat
          with (length l + 1)%nat by lia. split; [by rewrite drop_app_add|]. right.
        replace (length l + 1 - 1)%nat with (length l) by lia. rewrite app_nth2, Nat.sub_diag by lia. done.
Qed.

(** The rule that applies to a name is the first one in the file whose domain is
    the name itself, a parent domain of it at a label boundary, or the root. *)
Theorem find_rule_spec qName rules i :
  find_rule qName rules = Some i <->
  (exists r, rules !! i = Some r /\ under (domain r) qName) /\
  (forall j r, (j < i)%nat -> rules !! j = Some r -> ~ under (domain r) qName).
Proof.
  revert i. induction rules as [|r rules IH]; intros i; cbn [find_rule].
  { split; [done|]. intros [(r & Hr & _) _]. done. }
  destruct (rule_matches qName (domain r)) eqn:E.
  - apply rule_matches_spec in E. split.
    + intros [= <-]. split; [by exists r|]. lia.
    + intros [_ Hn]. destruct i as [|i]; [done|]. exfalso. by apply (Hn 0%nat r); [lia|..].
  - assert (~ under (domain r) qName) as Hu by (rewrite <-rule_matches_spec, E; done).
    destruct i as [|i].
    + rewrite fmap_Some. split; [by intros (? & _ & ?)|]. intros [(r' & Hr & Hu') _]. by simplify_eq/=.
    + rewrite fmap_Some. split.
      * intros (j & Hj & [= <-]). apply IH in Hj as [Hr Hn]. split; [done|].
        intros [|j] r' Hlt Hr'; simplify_eq/=; [done|]. apply (Hn j); [lia|done].
      * intros [Hr Hn]. exists i. split; [|done]. apply IH. split; [done|].
        intros j r' Hlt Hr'. apply (Hn (S j)); [lia|done].
Qed.

(** ** Forwarded queries *)

Section eval.
Context `{D : DnsLib} {S : Type} `{FE : !ForwardEnv S}.

(** What [rand.Intn] documents. *)
Hypothesis Intn_range : forall n s, 0 < n -> 0 <= (Intn n s).1 < n.

Definition plugin_wf (p : PluginForward) : Prop :=
  Forall (rule_wf (fw_bootstrapResolvers p) (proxyDialer p)) (forwardMap p).

(** What can happen to the environment, and the states that follow a state. *)
Inductive env_step : S -> S -> Prop :=
  | StepExchange timeout m proto server s : env_step s (client_Exchange timeout m proto server s).2
  | StepDial timeout server s : env_step s (proxy_Dial timeout server s).2
  | StepDeadline s : env_step s (conn_SetDeadline s).2
  | StepConn timeout m s : env_step s (conn_Exchange timeout m s).2
  | StepIntn n s : env_step s (Intn n s).2
  | StepUnixNow s : env_step s (UnixNow s).2
  | StepStatus i s : env_step s (dhcp_Status i s).2
  | StepRead file s : env_step s (read_file file s).2.
Definition later : S -> S -> Prop := rtc env_step.

(** An address of a resolv.conf file: the first one of a line for a name server. *)
Definition nameserver (data addr : bytes) : Prop :=
  exists line keyword rest, line ∈ Split data 10 /\ HasPrefix (TrimSpace line) (str "nameserver") = true /\
    Fields (TrimSpace line) = keyword :: addr :: rest.

(** The servers the items of a rule name: an explicit one, a bootstrap resolver, a server that
    a DHCP detector reports, on port 53, or one that the resolv.conf file has, on port 53 if
    it has no other; reports and files are read from [s] on. *)
Definition allowed (p : PluginForward) (s : S) (items : list SearchSequenceItem) (server : bytes) : Prop :=
  (exists l, Explicit l ∈ items /\ server ∈ l) \/
  (Bootstrap ∈ items /\ server ∈ fw_bootstrapResolvers p) \/
  (DHCP ∈ items /\ exists s1 i inconsistency ip servers err s2 addr, later s s1 /\ (i < dhcpdns p)%nat /\
     dhcp_Status i s1 = (inconsistency, ip, servers, err, s2) /\
     ~ (err = true /\ ip <> [] /\ 9 < inconsistency) /\
     addr ∈ servers /\ server = JoinHostPort (ip_String addr) (str "53")) \/
  (exists file t s1 data s2 addr, Resolvconf file t ∈ items /\ later s s1 /\ read_file file s1 = (Some data, s2) /\
     nameserver data addr /\ normalizeIPAndOptionalPort addr (str "53") = Ok server).

Lemma allowed_later p s s1 items server : later s s1 -> allowed p s1 items server -> allowed p s items server.
Proof.
  intros Hl [H|[H|[(H & s2 & i & inc & ip & l & err & s3 & addr & H2 & H3)|(f & t & s2 & data & s3 & addr & H1 & H2 & H3)]]].
  - by left.
  - by right; left.
  - right; right; left. split; [done|]. exists s2, i, inc, ip, l, err, s3, addr. split; [by etrans|done].
  - right; right; right. exists f, t, s2, data, s3, addr. split; [done|]. split; [by etrans|done].
Qed.

Lemma parseResolvConf_spec data addr : addr ∈ (parseResolvConf data).1 -> nameserver data addr.
Proof.
  unfold parseResolvConf, nameserver. assert (forall lines acc, addr ∈ (fold_left resolvconf_line lines acc).1 ->
    addr ∈ acc.1 \/ exists line keyword rest, line ∈ lines /\ HasPrefix (TrimSpace line) (str "nameserver") = true /\
      Fields (TrimSpace line) = keyword :: addr :: rest) as H.
  { induction lines as [|line lines IH]; intros acc; cbn [fold_left]; [by left|].
    intros [Hin|(l & k & r & Hin & Hr)]%IH; [|right; exists l, k, r; by split; [right|]].
    unfold resolvconf_line in Hin. destruct acc as [servers warnings].
    destruct (HasPrefix (TrimSpace line) (str "nameserver")) eqn:Ep; cbn [negb] in Hin; [|by left].
    destruct (Fields (TrimSpace line)) as [|k [|a r]] eqn:Ef; [by left..|].
    destruct (ParseIP _); [|by left]. cbn in Hin. apply elem_of_app in Hin as [?|Hin]; [by left|].
    apply list_elem_of_singleton in Hin as ->. right. exists line, k, r. by split; [left|]. }
  intros [[]%not_elem_of_nil|Hr]%H. exact Hr.
Qed.

(** A response the client may get: it answers the question of the query, under its
    number, and claims to be authenticated only where DNSSEC was asked for. *)
Definition answers (msg r : Msg) : Prop :=
  validateResponseQuestion (Some msg) (Some r) = None /\ ID (MH r) = ID (MH msg) /\
  (AuthenticatedData (MH r) = true -> Security (MH r) = true).

Definition set_forwarded (r : Msg) (ps : PluginsState) : PluginsState :=
  set_returnCode PluginsReturnCodeForward (set_action PluginsActionSynth (set_synthResponse (Some r) ps)).

(** What forwarding changes in the state of a query. *)
Definition outcome (msg : Msg) (ps ps' : PluginsState) : Prop :=
  exists server, ps' = set_serverName server ps \/
    exists r, ps' = set_serverName server (set_forwarded r ps) /\ answers msg r.

Lemma outcome_refl msg ps : outcome msg ps ps.
Proof. exists (serverName ps). left. by destruct ps. Qed.

Lemma outcome_server msg ps ps' server :
  outcome msg (set_serverName server ps) ps' -> outcome msg ps ps'.
Proof. intros (s & [->|(r & -> & Hr)]); exists s; [by left|right; by exists r]. Qed.

Lemma outcome_forwarded msg ps ps' server r : answers msg r ->
  outcome msg (set_forwarded r (set_serverName server ps)) ps' -> outcome msg ps ps'.
Proof. intros Hr (s & [->|(r' & -> & Hr')]); exists s; right; [by exists r|by exists r']. Qed.

Lemma later_step s s' : env_step s s' -> later s s'.
Proof. apply rtc_once. Qed.

(** A step of the environment, from the equation of its result. *)
Ltac env_later E := match type of E with ?t = (_, ?s') => replace s' with t.2 by (by rewrite E) end; apply later_step; constructor.

Lemma pick_elem l s : l <> [] -> exists x s', pick l s = (Some x, s') /\ x ∈ l /\ later s s'.
Proof.
  intros Hl. unfold pick. destruct (Z.eqb_spec (len l) 0) as [H0|H0]; [by apply len_nil_inv in H0|].
  pose proof (len_nonneg l). pose proof (Intn_range (len l) s ltac:(lia)) as Hi.
  destruct (Intn (len l) s) as [i s'] eqn:Ei. simpl in Hi.
  destruct (lookup_lt_is_Some_2 l (Z.to_nat i)) as [x Hx]; [unfold len in Hi; lia|].
  exists x, s'. rewrite Hx. split; [done|]. split; [by eapply list_elem_of_lookup_2|]. env_later Ei.
Qed.

(** The DHCP detectors: no panic, and a server that one of them reports. *)
Lemma dhcp_loop_spec p left i s c s' : (i + left = dhcpdns p)%nat -> dhcp_loop left i s = (c, s') ->
  c <> ChoicePanic /\ later s s' /\ forall server items, c = Chosen server -> DHCP ∈ items -> allowed p s items server.
Proof.
  revert i s. induction left as [|left IH]; intros i s Hi; cbn [dhcp_loop]; [intros [= <- <-]; by split_and!|].
  destruct (dhcp_Status i s) as [[[[inc ip] l] err] s1] eqn:Es.
  assert (later s s1) as Hl1 by (env_later Es).
  assert (dhcp_loop left (i + 1) s1 = (c, s') -> c <> ChoicePanic /\ later s s' /\
    forall server items, c = Chosen server -> DHCP ∈ items -> allowed p s items server) as Hnext.
  { intros H. destruct (IH (i + 1)%nat s1 ltac:(lia) H) as (H1 & H2 & H3). split_and!; [done|by etrans|].
    intros server items Hc Hin. eapply allowed_later; [done|]. by apply H3. }
  destruct (err && _ && _) eqn:Eb; [done|]. destruct (len l >? 0) eqn:E; [|done].
  destruct (pick_elem l s1) as (x & s2 & -> & Hx & Hl2); [by intros ->|]. intros [= <- <-]. split_and!; [done|by etrans|].
  intros server items [= <-] Hin. right; right; left. split; [done|]. exists s, i, inc, ip, l, err, s1, x.
  split_and!; [apply rtc_refl|lia|done| |done|done]. intros (He & Hip & Hinc).
  rewrite He, bool_decide_false in Eb by done. cbn in Eb. bools. lia.
Qed.

(** An item never panics, stays well-formed and names the server it gives. *)
Lemma choose_server_spec p item s c item' s' : item_wf (fw_bootstrapResolvers p) item ->
  choose_server p item s = (c, item', s') ->
  c <> ChoicePanic /\ item_wf (fw_bootstrapResolvers p) item' /\ is_Explicit item' = is_Explicit item /\ later s s' /\
  forall server items, c = Chosen server -> item ∈ items -> allowed p s items server.
Proof.
  unfold choose_server. destruct item as [l| | |f t]; intros Hw.
  - destruct (pick_elem l s) as (x & s2 & -> & Hx & Hl); [by destruct Hw|]. intros [= <- <- <-].
    split_and!; [done..|]. intros ?? [= <-] ?. left. eauto.
  - destruct (pick_elem (fw_bootstrapResolvers p) s) as (x & s2 & -> & Hx & Hl); [done|]. intros [= <- <- <-].
    split_and!; [done..|]. intros ?? [= <-] ?. right; left. eauto.
  - destruct (dhcp_loop (dhcpdns p) 0 s) as [c0 s2] eqn:Ed. destruct (dhcp_loop_spec p (dhcpdns p) 0 s c0 s2 eq_refl Ed) as (H1 & H2 & H3).
    intros [= <- <- <-]. by split_and!.
  - destruct (if negb (t =? 0) then _ else _) as [recent s1] eqn:E1.
    assert (later s s1) as Hl1.
    { destruct (negb _); [|injection E1 as <- <-; apply rtc_refl]. destruct (UnixNow s) as [now s0] eqn:En.
      injection E1 as <- <-. env_later En. }
    destruct recent; [by intros [= <- <- <-]|].
    destruct (read_file f s1) as [r s2] eqn:Er. assert (later s1 s2) as Hl2 by (env_later Er).
    assert ((let '(t, s) := UnixNow s2 in (Skip, Resolvconf f t, s)) = (c, item', s') ->
      c <> ChoicePanic /\ item_wf (fw_bootstrapResolvers p) item' /\ is_Explicit item' = false /\ later s s' /\
      forall server items, c = Chosen server -> Resolvconf f t ∈ items -> allowed p s items server) as Hskip.
    { destruct (UnixNow s2) as [now s3] eqn:En. intros [= <- <- <-]. split_and!; try done.
      etrans; [exact Hl1|]. etrans; [exact Hl2|]. env_later En. }
    destruct r as [data|]; [|done].
    destruct (parseResolvConf data).1 as [|a l] eqn:Ea; [done|].
    destruct (pick_elem (a :: l) s2) as (x & s3 & -> & Hx & Hl3); [done|].
    assert (later s s3) by (do 2 (etrans; [eassumption|]); done).
    destruct (normalizeIPAndOptionalPort x (str "53")) as [sv|] eqn:En; intros [= <- <- <-]; (split_and!; try done).
    intros server items [= <-] Hin. right; right; right. exists f, t, s1, data, s2, x. split_and!; try done.
    apply parseResolvConf_spec. by rewrite Ea.
Qed.

Definition log_ok (msg : Msg) (ok : bytes -> Prop) (log : list Sent) : Prop :=
  Forall (fun x => sent_msg x = forward_msg msg /\ ok (sent_server x)) log.

Lemma item_exchange_later p via item msg server timeout n r n' :
  item_exchange p via item msg server timeout n = (r, n') -> later n.1 n'.1.
Proof.
  unfold item_exchange, exchangeViaProxy, exchangeDirect. destruct n as [s log0]. cbn [fst].
  destruct via.
  - destruct (negb _); [intros [= <- <-]; apply rtc_refl|].
    destruct (proxy_Dial timeout server s) as [d s1] eqn:E1. assert (later s s1) as H1 by (env_later E1).
    destruct d as [d|]; [|by intros [= <- <-]]. destruct (d <=? 0); [by intros [= <- <-]|].
    destruct (conn_SetDeadline s1) as [e s2] eqn:E2. assert (later s1 s2) as H2 by (env_later E2).
    destruct e; [intros [= <- <-]; by etrans|].
    destruct (conn_Exchange d msg s2) as [[m e] s3] eqn:E3. assert (later s2 s3) as H3 by (env_later E3).
    destruct e; intros [= <- <-]; cbn; (etrans; [exact H1|]); by etrans.
  - set (proto := if bool_decide _ && _ then _ else _). destruct (client_Exchange timeout msg proto server s) as [[m e] s1] eqn:E1.
    assert (later s s1) as H1 by (env_later E1). destruct (e && _); [by intros [= <- <-]|].
    destruct (match m with Some m => Truncated (MH m) | None => false end); [|by intros [= <- <-]].
    destruct (client_Exchange timeout msg (str "tcp") server s1) as [[m2 e2] s2] eqn:E2.
    assert (later s1 s2) as H2 by (env_later E2). destruct e2; intros [= <- <-]; by etrans.
Qed.

Lemma item_exchange_log p via item msg server timeout n r n' (ok : bytes -> Prop) : ok server ->
  item_exchange p via item (forward_msg msg) server timeout n = (r, n') ->
  later n.1 n'.1 /\ exists log, n'.2 = n.2 ++ log /\ (length log <= 2)%nat /\ log_ok msg ok log.
Proof.
  intros Hok H. split; [by eapply item_exchange_later|]. revert H. unfold item_exchange, exchangeViaProxy, exchangeDirect, start. destruct n as [s log0].
  assert (forall pr, log_ok msg ok [{| sent_proto := pr; sent_server := server; sent_msg := forward_msg msg |}])
    as Hone by (intros; by repeat constructor).
  intros H. repeat (case_match; simplify_eq/=); try (exists []; rewrite app_nil_r; by repeat constructor);
    try (eexists; split; [reflexivity|]; split; [simpl; lia|apply Hone]).
  all: rewrite <-app_assoc; eexists; split; [reflexivity|]; split; [simpl; lia|]; by repeat constructor.
Qed.

Lemma forward_response_answers msg r :
  validateResponseQuestion (Some (forward_msg msg)) (Some r) = None -> answers msg (forward_response msg r).
Proof.
  intros Hv. split_and!; [|done|].
  - unfold forward_response. by destruct (Security (MH r)).
  - unfold forward_response. by destruct (Security (MH r)) eqn:E.
Qed.

Lemma log_ok_app msg ok l k : log_ok msg ok l -> log_ok msg ok k -> log_ok msg ok (l ++ k).
Proof. intros. apply Forall_app. auto. Qed.

Ltac finish := try done; try (simpl; lia); try (by rewrite app_nil_r); try constructor;
  try (intros; by eapply outcome_server).

(** The loop over the items of a rule, of which [items] are left. *)
Lemma try_items_spec p via msg all items tries err ps n err' ps' items' n' :
  Forall (item_wf (fw_bootstrapResolvers p)) items -> items ⊆ all -> err <> Some PluginPanic ->
  try_items p via msg items tries err ps n = (err', ps', items', n') ->
  err' <> Some PluginPanic /\ Forall (item_wf (fw_bootstrapResolvers p)) items' /\
  (is_Explicit <$> items') = (is_Explicit <$> items) /\ outcome msg ps ps' /\ later n.1 n'.1 /\
  exists log, n'.2 = n.2 ++ log /\ (length log <= 2 * tries)%nat /\ log_ok msg (allowed p n.1 all) log.
Proof.
  intros Hw. revert tries err ps n err' ps' items' n'.
  induction Hw as [|item items Hi Hw IH]; intros tries err ps n err' ps' items' n' Hsub He; cbn [try_items].
  { intros [= <- <- <- <-]. split_and!; [done..|apply outcome_refl|apply rtc_refl|]. exists []. rewrite app_nil_r.
    split_and!; [done|simpl; lia|constructor]. }
  assert (items ⊆ all) as Hsub' by set_solver. assert (item ∈ all) as Hin by set_solver.
  destruct (choose_server p item n.1) as [[c item2] s] eqn:Ec.
  destruct (choose_server_spec _ _ _ _ _ _ Hi Ec) as (Hc & Hi2 & Hex & Hls & Hal).
  (* what follows the item, from any state *)
  assert (Hrest : forall tries0 err0 ps0 n0 log0,
    (tries0 <= tries)%nat -> later n.1 n0.1 -> err0 <> Some PluginPanic -> (forall ps', outcome msg ps0 ps' -> outcome msg ps ps') ->
    n0.2 = n.2 ++ log0 -> (length log0 + 2 * tries0 <= 2 * tries)%nat -> log_ok msg (allowed p n.1 all) log0 ->
    (let '(err, ps, items', n) := try_items p via msg items tries0 err0 ps0 n0 in
     (err, ps, item2 :: items', n)) = (err', ps', items', n') ->
    err' <> Some PluginPanic /\ Forall (item_wf (fw_bootstrapResolvers p)) items' /\
    (is_Explicit <$> items') = (is_Explicit <$> item :: items) /\ outcome msg ps ps' /\ later n.1 n'.1 /\
    exists log, n'.2 = n.2 ++ log /\ (length log <= 2 * tries)%nat /\ log_ok msg (allowed p n.1 all) log).
  { intros tries0 err0 ps0 n0 log0 Ht Hl0 He0 Ho Hn Hlen Hlog.
    destruct (try_items p via msg items tries0 err0 ps0 n0) as [[[err1 ps1] items1] n1] eqn:Et.
    intros [= <- <- <- <-]. destruct (IH _ _ _ _ _ _ _ _ Hsub' He0 Et) as (H1 & H2 & H3 & H4 & Hl1 & log & H5 & H6 & H7).
    split_and!; auto; [cbn; by f_equal|by etrans|]. exists (log0 ++ log).
    rewrite H5, Hn, app_assoc, length_app. split_and!; [done|lia|]. apply log_ok_app; [done|].
    eapply Forall_impl; [exact H7|]. intros x [Hx1 Hx2]. split; [done|]. by eapply allowed_later. }
  assert (Hnolog : forall err0 ps0, err0 <> Some PluginPanic -> outcome msg ps ps0 ->
    err0 <> Some PluginPanic /\ Forall (item_wf (fw_bootstrapResolvers p)) (item2 :: items) /\
    (is_Explicit <$> item2 :: items) = (is_Explicit <$> item :: items) /\ outcome msg ps ps0 /\ later n.1 s /\
    exists log, n.2 = n.2 ++ log /\ (length log <= 2 * tries)%nat /\ log_ok msg (allowed p n.1 all) log).
  { intros. split_and!; [done|by constructor|cbn; by f_equal|done|done|]. exists []. rewrite app_nil_r.
    split_and!; [done|simpl; lia|constructor]. }
  assert (Hs : forall server ps', outcome msg (set_serverName server ps) ps' -> outcome msg ps ps')
    by (intros; by eapply outcome_server).
  destruct c as [server| |]; [|apply (Hrest tries err ps (s, n.2) []); finish|done].
  destruct (len server =? 0).
  { apply (Hrest tries err _ (s, n.2) []); finish. }
  destruct tries as [|tries].
  { intros [= <- <- <- <-]. apply Hnolog; [done|]. eapply Hs, outcome_refl. }
  destruct (item_exchange p via item (forward_msg msg) server (ps_timeout (set_serverName server ps)) (s, n.2))
    as [r n2] eqn:Ex.
  destruct (item_exchange_log _ _ _ _ _ _ _ _ _ (allowed p n.1 all) (Hal server all eq_refl Hin) Ex)
    as (Hlx & log & Hlog & Hlen & Hok). simpl in Hlog, Hlx. assert (later n.1 n2.1) as Hl2 by (by etrans).
  destruct r as [r|e]; [|apply (Hrest tries _ _ n2 log); finish].
  2: { unfold item_exchange, exchangeViaProxy, exchangeDirect in Ex. intros [= ->]. repeat case_match; simplify_eq. }
  destruct (validateResponseQuestion (Some (forward_msg msg)) r) as [v|] eqn:Ev;
    [apply (Hrest tries _ _ n2 log); finish|].
  destruct r as [r|]; [|apply (Hrest tries _ _ n2 log); finish].
  apply forward_response_answers in Ev.
  destruct (retry_rcode _).
  { apply (Hrest tries _ _ n2 log); finish. intros ps2. by apply outcome_forwarded. }
  intros [= <- <- <- <-]. split_and!; [done|by constructor|cbn; by f_equal| |done|].
  - eapply outcome_forwarded; [exact Ev|apply outcome_refl].
  - exists log. split_and!; [done|lia|done].
Qed.

Lemma rule_sequence_wf p i r : plugin_wf p -> forwardMap p !! i = Some r ->
  rule_wf (fw_bootstrapResolvers p) (proxyDialer p) r.
Proof. intros Hw Hr. by eapply (Forall_lookup_1 _ (forwardMap p)). Qed.

(** C31: forwarding a query never panics and keeps the rules well-formed; the query is
    sent only to servers its rule names (the explicit ones, the bootstrap resolvers, those that a
    DHCP detector reports while the query is handled, those that the resolv.conf file has then), without its
    additional records, at most eight times; and the state of the query is unchanged, the server name aside, or holds a
    response that answers its question.  A query no rule applies to is left alone. *)
Theorem forward_eval w ps msg err w' ps' msg' :
  plugin_wf (fw_plugin w) -> PluginForward_Eval w ps msg = (err, w', ps', msg') ->
  err <> Some PluginPanic /\ plugin_wf (fw_plugin w') /\ msg' = msg /\
  match find_rule (qName ps) (forwardMap (fw_plugin w)) ≫= (forwardMap (fw_plugin w) !!.) with
  | None => err = None /\ w' = w /\ ps' = ps
  | Some rule =>
      outcome msg ps ps' /\
      exists log, sent w' = sent w ++ log /\ (length log <= 8)%nat /\
        log_ok msg (allowed (fw_plugin w) (fw_env w) (sequence rule)) log
  end.
Proof.
  intros Hw. unfold PluginForward_Eval. destruct (find_rule _ _) as [i|]; cbn [mbind option_bind];
    [|by intros [= <- <- <- <-]].
  destruct (forwardMap (fw_plugin w) !! i) as [rule|] eqn:Er; [|by intros [= <- <- <- <-]].
  destruct (rule_sequence_wf _ _ _ Hw Er) as [Hr1 Hr2].
  destruct (len (sequence rule) =? 0).
  { intros [= <- <- <- <-]. split_and!; [done..|apply outcome_refl|]. exists []. rewrite app_nil_r.
    split_and!; [done|simpl; lia|constructor]. }
  destruct (try_items _ _ _ _ _ _ _ _) as [[[err1 ps1] items] n1] eqn:Et.
  destruct (try_items_spec (fw_plugin w) (viaProxy rule) msg (sequence rule) (sequence rule) 4 None ps
    (fw_env w, sent w) err1 ps1 items n1) as (H1 & H2 & H3 & H4 & _ & log & H5 & H6 & H7); [done..|].
  intros [= <- <- <- <-]. split_and!; [done| |done|done|by exists log].
  unfold plugin_wf. cbn. apply Forall_insert; [done|]. split; [done|]. cbn. intros Hv.
  destruct (Hr2 Hv) as (Hd & Hne & He). split_and!; [done|..].
  - intros ->. apply Hne. by destruct (sequence rule).
  - clear -H3 He. revert He. generalize (sequence rule) H3. clear.
    induction items as [|x items IH]; intros [|y l] H3 He; try done.
    injection H3 as Hx Hl. simpl in *. apply andb_true_iff in He as [He1 He2].
    rewrite Hx, He1. simpl. by apply (IH l).
Qed.
End eval.

(** ** Deadlines through the proxy *)

(** The deadlines a library may set on a capped connection. *)
Inductive deadline_call := CallDeadline (t : Time) | CallRead (t : Time) | CallWrite (t : Time).

Definition apply_call (c : deadlineCappedConn) (k : deadline_call) : deadlineCappedConn :=
  match k with
  | CallDeadline t => SetDeadline t c
  | CallRead t => SetReadDeadline t c
  | CallWrite t => SetWriteDeadline t c
  end.

Lemma capped_le c t : capped c t <= deadline c.
Proof. unfold capped. destruct (Z.gtb_spec t (deadline c)); rewrite ?orb_true_r; [done|]. case_match; lia. Qed.

Lemma capped_not_zero c t : 0 < deadline c -> capped c t <> 0.
Proof. unfold capped, IsZero, zero_time. destruct (Z.eqb_spec t 0); simpl; [lia|]. case_match; lia. Qed.

(** A deadline that is set, and not later than [limit]. *)
Definition within (limit t : Time) : Prop := t <> zero_time /\ t <= limit.

(** Once the deadline of the query is set, no sequence of deadlines set by the DNS
    library, zero times included, makes the connection outlive it. *)
Theorem deadline_capped c calls :
  0 < deadline c ->
  let c' := fold_left apply_call calls (SetDeadline (deadline c) c) in
  within (deadline c) (read_deadline (conn c')) /\ within (deadline c) (write_deadline (conn c')).
Proof.
  intros H0. assert (Hinv : forall d, deadline d = deadline c ->
    within (deadline c) (read_deadline (conn d)) /\ within (deadline c) (write_deadline (conn d)) ->
    let c' := fold_left apply_call calls d in
    within (deadline c) (read_deadline (conn c')) /\ within (deadline c) (write_deadline (conn c'))).
  { unfold within, zero_time. induction calls as [|k calls IH]; intros d Hd Hb; [done|].
    simpl. apply IH; [by destruct k|].
    destruct k as [t|t|t]; simpl; rewrite <-?Hd in *; pose proof (capped_le d t);
      pose proof (capped_not_zero d t); lia. }
  apply Hinv; [done|]. unfold within, zero_time. simpl.
  pose proof (capped_le c (deadline c)). pose proof (capped_not_zero c (deadline c)). lia.
Qed.

(** ** Reloading *)

Definition load_forward (lower : bytes -> bytes) (p : PluginForward) (lines : bytes)
    : result reload_error (list PluginForwardEntry) :=
  match parseForwardFile lower (fw_bootstrapResolvers p) (proxyDialer p) lines with
  | Ok (_, rules) => Ok rules
  | Err _ => Err BadConfig
  end.

#[export] Instance PluginForward_laws lower :
  ReloadableLaws (I := PluginForward_reloadable lower) PluginForward _ (load_forward lower).
Proof.
  unfold load_forward. split.
  - intros fs t p p' err. cbn. unfold PluginForward_PrepareReload.
    destruct (SafeReadTextFile _ _ _); [|by intros [= <- <-]].
    destruct (parseForwardFile _ _ _ _) as [[]|]; by intros [= <- <-].
  - intros fs t p. cbn. unfold PluginForward_PrepareReload.
    destruct (SafeReadTextFile _ _ _) as [lines|]; [|done].
    by destruct (parseForwardFile _ _ _ _) as [[]|].
  - intros p. cbn. unfold PluginForward_ApplyReload. by destruct (stagingMap p).
  - done.
  - done.
Qed.

(** ** An example *)

Definition ex_forward_file : bytes :=
  str "lan 192.168.1.1,$BOOTSTRAP, 192.168.1.2:5353 # home" ++ [10] ++
  str "*.example.org [2001:DB8::42],$RESOLVCONF:/etc/../etc/resolv.conf,$DHCP" ++ [10] ++ str ". 9.9.9.9,bad".

Definition ex_forward_rules : list PluginForwardEntry :=
  [{| domain := str "lan"; sequence := [Explicit [str "192.168.1.1:53"; str "192.168.1.2:5353"]; Bootstrap];
      viaProxy := false |};
   {| domain := str "example.org";
      sequence := [Explicit [str "[2001:db8::42]:53"]; Resolvconf (str "/etc/resolv.conf") 0; DHCP];
      viaProxy := false |};
   {| domain := str "."; sequence := [Explicit [str "9.9.9.9:53"]]; viaProxy := false |}].

Lemma ex_forward_parse :
  parseForwardFile id [str "1.1.1.1:53"] false ex_forward_file = Ok (true, ex_forward_rules).
Proof. vm_compute. reflexivity. Qed.

Lemma forward_rules_wf_witness : Forall (rule_wf [str "1.1.1.1:53"] false) ex_forward_rules.
Proof.
  apply (forward_rules_wf id [str "1.1.1.1:53"] false ex_forward_file true). exact ex_forward_parse.
Defined.

(** A network in which the bootstrap resolver answers and the other servers do not. *)
Definition ex_env : ForwardEnv unit := {|
  client_Exchange _ m _ server s :=
    if bool_decide (server = str "1.1.1.1:53") then (Some (set_header (set_Response true) m), false, s)
    else (None, true, s);
  proxy_Dial _ _ s := (None, s);
  conn_SetDeadline s := (true, s);
  conn_Exchange _ _ s := (None, true, s);
  Intn _ s := (0, s);
  UnixNow s := (100, s);
  dhcp_Status _ s := (0, [], [], true, s);
  read_file _ s := (None, s);
|}.

Definition ex_forward_world : FwdWorld unit :=
  {| fw_plugin := {| forwardMap := ex_forward_rules; fw_bootstrapResolvers := [str "1.1.1.1:53"];
                     dhcpdns := 0; proxyDialer := false; forceTCP := true; fw_configFile := [];
                     stagingMap := None |};
     fw_env := tt; sent := [] |}.

Definition ex_forward_query : Msg := NewMsg 7 (str "nas.lan.") TypeA.
Definition ex_forward_state : PluginsState := set_qName (str "nas.lan") sample_client_state.
Definition ex_forward_result := @PluginForward_Eval sample_DnsLib unit ex_env ex_forward_world ex_forward_state ex_forward_query.

Lemma forward_eval_witness :
  (fun r => sent_server <$> sent (r.1.1.2)) ex_forward_result = [str "192.168.1.1:53"; str "1.1.1.1:53"] /\
  outcome (D := sample_DnsLib) ex_forward_query ex_forward_state (ex_forward_result.1.2).
Proof.
  split; [vm_compute; reflexivity|].
  destruct (@forward_eval sample_DnsLib unit ex_env ltac:(simpl; intros; lia) ex_forward_world
    ex_forward_state ex_forward_query (ex_forward_result.1.1.1) (ex_forward_result.1.1.2) (ex_forward_result.1.2)
    (ex_forward_result.2)) as (_ & _ & _ & H).
  - apply (parseForwardFile_wf id _ _ ex_forward_file true), ex_forward_parse.
  - unfold ex_forward_result. by destruct (PluginForward_Eval _ _ _) as [[[] ?] ?].
  - exact (proj1 H).
Defined.

Definition ex_conn : deadlineCappedConn :=
  {| conn := {| read_deadline := 0; write_deadline := 0 |}; deadline := 5 * Second |}.

Lemma deadline_capped_witness :
  within (5 * Second)
    (read_deadline (conn (fold_left apply_call [CallRead 0; CallDeadline (60 * Second)]
       (SetDeadline (deadline ex_conn) ex_conn)))).
Proof. apply (deadline_capped ex_conn [CallRead 0; CallDeadline (60 * Second)]). reflexivity. Defined.
