(* ===== verification/Clients.v ===== *)
(** * Clients and listeners (proxy.go, local-doh.go)

    The count of the queries being processed, kept by compare-and-swap loops that
    many goroutines run at once, the timeout that depends on it, and the listeners
    that use it. *)

From S2P Require Import Prelude GoStrings GoFloat Common Dns DnsUtils.

(** ** The counter *)

(** The shared counter, a [uint32], and its bound. *)
Record Counter := { clientsCount : Z; maxClients : Z }.

Definition set_count (c : Z) (k : Counter) : Counter :=
  {| clientsCount := uint32 c; maxClients := maxClients k |}.

(** The whole of [clientsCountInc] and [clientsCountDec], when nothing interferes. *)
Definition clientsCountInc (k : Counter) : bool * Counter :=
  if clientsCount k >=? maxClients k then (false, k) else (true, set_count (clientsCount k + 1) k).
Definition clientsCountDec (k : Counter) : Counter :=
  if clientsCount k =? 0 then k else set_count (clientsCount k - 1) k.

(** Where a goroutine is: before its request, in the loop of [clientsCountInc] with
    the value it has loaded, at work, in the loop of [clientsCountDec], or done.  A
    refused one was not counted. *)
Inductive goroutine :=
| Arriving
| Incrementing (count : Z)
| Serving
| Leaving
| Decrementing (count : Z)
| Left
| Refused.

#[global] Instance goroutine_eq_dec : EqDecision goroutine.
Proof. solve_decision. Defined.

(** One atomic step of a goroutine: a load or a compare-and-swap. *)
Inductive client_step : Counter -> goroutine -> Counter -> goroutine -> Prop :=
| inc_load k : clientsCount k < maxClients k -> client_step k Arriving k (Incrementing (clientsCount k))
| inc_refuse k : maxClients k <= clientsCount k -> client_step k Arriving k Refused
| inc_cas k count : clientsCount k = count ->
    client_step k (Incrementing count) (set_count (count + 1) k) Serving
| inc_retry k count : clientsCount k <> count -> client_step k (Incrementing count) k Arriving
| served k : client_step k Serving k Leaving
| dec_zero k : clientsCount k = 0 -> client_step k Leaving k Left
| dec_load k : clientsCount k <> 0 -> client_step k Leaving k (Decrementing (clientsCount k))
| dec_cas k count : clientsCount k = count ->
    client_step k (Decrementing count) (set_count (count - 1) k) Left
| dec_retry k count : clientsCount k <> count -> client_step k (Decrementing count) k Leaving.

(** The goroutines of the program; any of them may take the next step, and a new one may
    start. *)
Record Clients := { counter : Counter; goroutines : list goroutine }.

Inductive clients_step : Clients -> Clients -> Prop :=
| step_one k gs i g k' g' : gs !! i = Some g -> client_step k g k' g' ->
    clients_step {| counter := k; goroutines := gs |} {| counter := k'; goroutines := <[i := g']> gs |}
| step_new k gs : clients_step {| counter := k; goroutines := gs |} {| counter := k; goroutines := gs ++ [Arriving] |}.

Definition initial_clients (max : Z) : Clients :=
  {| counter := {| clientsCount := 0; maxClients := max |}; goroutines := [] |}.

(** The goroutines that are counted. *)
Definition holds (g : goroutine) : bool :=
  match g with Serving | Leaving | Decrementing _ => true | _ => false end.
Definition holders (gs : list goroutine) : Z := len (List.filter holds gs).

(** ** The timeout of a client *)

(** [proxy.timeout] and the reduction come from the configuration. *)
Definition getDynamicTimeout (timeout : Duration) (timeoutLoadReduction : PrimFloat.float) (k : Counter) : Duration :=
  if PrimFloat.leb timeoutLoadReduction 0 || (maxClients k =? 0) then timeout
  else
    let utilization := PrimFloat.div (float64 (clientsCount k)) (float64 (maxClients k)) in
    let utilization4 := PrimFloat.mul (PrimFloat.mul (PrimFloat.mul utilization utilization) utilization) utilization in
    let factor := PrimFloat.sub 1 (PrimFloat.mul utilization4 timeoutLoadReduction) in
    let factor := if PrimFloat.ltb factor 0.1 then 0.1%float else factor in
    int_of_float (PrimFloat.mul (float64 timeout) factor).


(** ** The listeners *)

(** What a goroutine of a listener does with the query it has read. *)
Inductive dispatch :=
| Process (packet : bytes) (onlyCached : bool) (counted : bool)
| CloseClient
| StopListening.

(** One round of [udpListener]: [read] is what [ReadFrom] returns, into a buffer of
    [MaxDNSPacketSize-1] bytes. *)
Definition udpListener_round (read : option bytes) (k : Counter) : dispatch * Counter :=
  match read with
  | None => (StopListening, k)
  | Some data =>
      let packet := take (Z.to_nat (MaxDNSPacketSize - 1)) data in
      let '(ok, k) := clientsCountInc k in
      if negb ok then (Process packet true false, k) else (Process packet false true, k)
  end.

(** One round of [tcpListener]; the goroutine it starts is [tcpListener_client]. *)
Definition tcpListener_round (accepted : bool) (k : Counter) : bool * option dispatch * Counter :=
  if negb accepted then (false, None, k)
  else
    let '(ok, k) := clientsCountInc k in
    if negb ok then (false, Some CloseClient, k) else (true, None, k).

(** The counted goroutine: [setDeadline] says whether the deadline could be set. *)
Definition tcpListener_client (setDeadline : bool) (conn : list read_outcome) : dispatch :=
  if negb setDeadline then CloseClient
  else match ReadPrefixed conn with
  | Err _ => CloseClient
  | Ok packet => Process packet false true
  end.

(** ** The local DoH server *)

(** [base64.RawURLEncoding]. *)
Definition b64_value (c : Z) : option Z :=
  if in_range 65 90 c then Some (c - 65)
  else if in_range 97 122 c then Some (c - 71)
  else if in_range 48 57 c then Some (c + 4)
  else if c =? 45 then Some 62 else if c =? 95 then Some 63 else None.

Fixpoint b64_quanta (vs : list Z) : option bytes :=
  match vs with
  | [] => Some []
  | [_] => None
  | [a; b] => Some [uint8 (Z.lor (Z.shiftl a 2) (Z.shiftr b 4))]
  | [a; b; c] => Some [uint8 (Z.lor (Z.shiftl a 2) (Z.shiftr b 4)); uint8 (Z.lor (Z.shiftl b 4) (Z.shiftr c 2))]
  | a :: b :: c :: d :: vs' =>
      rest ← b64_quanta vs';
      Some (uint8 (Z.lor (Z.shiftl a 2) (Z.shiftr b 4)) :: uint8 (Z.lor (Z.shiftl b 4) (Z.shiftr c 2)) ::
            uint8 (Z.lor (Z.shiftl c 6) d) :: rest)
  end.

(** [DecodeString] skips line feeds and carriage returns. *)
Definition RawURL_DecodeString (s : bytes) : option bytes :=
  vs ← mapM b64_value (List.filter (fun c => negb ((c =? 10) || (c =? 13))) s); b64_quanta vs.

Definition doh_boundaries : list Z :=
  [64; 128; 192; 256; 320; 384; 512; 704; 768; 896; 960; 1024; 1088; 1152; 2688; 4080; MaxDNSPacketSize].

Definition dohPaddedLen (unpaddedLen : Z) : Z :=
  default unpaddedLen (head (List.filter (fun boundary => boundary >=? unpaddedLen) doh_boundaries)).

(** The first padding option is replaced; without one, an option is appended. *)
Fixpoint set_padding (padding : bytes) (ps : list pseudo) : list pseudo :=
  match ps with
  | [] => [PS_PADDING padding]
  | PS_PADDING _ :: ps' => PS_PADDING padding :: ps'
  | p :: ps' => p :: set_padding padding ps'
  end.

Definition addLocalDoHResponsePadding `{D : DnsLib} (msg : Msg) (original : bytes) : option bytes :=
  let msg := if UDPSize (MH msg) =? 0
             then set_header (set_EDNS (uint16 MaxDNSPacketSize) (Security (MH msg))) msg else msg in
  let msg := set_Pseudo (set_padding [] (Pseudo msg)) msg in
  data ← Pack msg;
  if len data >? MaxDNSPacketSize then Some original
  else
    let paddingLen := dohPaddedLen (len data) - len data in
    Pack (set_Pseudo (set_padding (repeat_bytes (str "58") paddingLen) (Pseudo msg)) msg).

(** A request to the local DoH server; [None] for a body that cannot be read or an
    address that does not resolve. *)
Record http_request := {
  req_Path : bytes;
  req_Method : bytes;
  req_ContentType : bytes;
  req_Accept : bytes;
  req_Body : option bytes;
  req_dns : bytes;             (* the parameter [dns] of the URL *)
  req_addr : option bytes;
}.

(** What the handler writes; the status is 200 where it writes nothing. *)
Record http_answer := {
  ans_Status : Z;
  ans_ContentType : bytes;
  ans_Pad : bytes;
  ans_Body : bytes;
}.

Definition no_answer : http_answer := {| ans_Status := 200; ans_ContentType := []; ans_Pad := []; ans_Body := [] |}.
Definition status (n : Z) : http_answer := {| ans_Status := n; ans_ContentType := []; ans_Pad := []; ans_Body := [] |}.

Definition dns_message : bytes := str "application/dns-message".

(** The packet of a request; [None] where it cannot be read. *)
Definition request_packet (r : http_request) : option bytes :=
  if bool_decide (req_Method r = str "POST") && bool_decide (req_ContentType r = dns_message) then
    body ← req_Body r; Some (take (Z.to_nat MaxDNSPacketSize) body)
  else if bool_decide (req_Method r = str "GET") && bool_decide (req_Accept r = dns_message) then
    let encodedPacket := req_dns r in
    if (len encodedPacket >=? MinDNSPacketSize * 4 / 3) && (len encodedPacket <=? MaxDNSPacketSize * 4 / 3)
    then RawURL_DecodeString encodedPacket else Some []
  else Some [].

Section doh.
Context `{D : DnsLib} {S : Type}.
(** [processIncomingQuery] for this kind of client, on the state of the proxy. *)
Context (process : bytes -> bytes -> S -> bytes * S) (localDoHPath : bytes).

(** The handler once the client is counted. *)
Definition serve_counted (r : http_request) (s : S) : http_answer * S :=
  if negb (bool_decide (req_Path r = localDoHPath)) then (status 404, s)
  else match request_packet r with
  | None => (no_answer, s)
  | Some packet =>
      if len packet <? MinDNSPacketSize then
        ({| ans_Status := 400; ans_ContentType := str "text/plain"; ans_Pad := [];
            ans_Body := str "dnscrypt-proxy local DoH server" ++ [10] |}, s)
      else match req_addr r with
      | None => (no_answer, s)
      | Some clientAddr =>
          match hasEDNS0Padding packet with
          | None => (status 400, s)
          | Some hasPadding =>
              let '(response, s) := process packet clientAddr s in
              if len response =? 0 then (status 500, s)
              else match Unpack response with
              | None => (status 400, s)
              | Some msg =>
                  if hasPadding then
                    match addLocalDoHResponsePadding msg response with
                    | None => (status 500, s)
                    | Some response =>
                        ({| ans_Status := 200; ans_ContentType := dns_message; ans_Pad := [];
                            ans_Body := response |}, s)
                    end
                  else
                    let responseLen := len response in
                    let padLen := dohPaddedLen responseLen - responseLen in
                    ({| ans_Status := 200; ans_ContentType := dns_message;
                        ans_Pad := repeat_bytes (str "X") padLen; ans_Body := response |}, s)
              end
          end
      end
  end.

(** [ServeHTTP]; the handler may end with a counter others have changed. *)
Definition ServeHTTP (r : http_request) (interfere : Counter -> Counter) (w : Counter * S)
    : http_answer * (Counter * S) :=
  let '(k, s) := w in
  let '(ok, k) := clientsCountInc k in
  if negb ok then (no_answer, (k, s))
  else
    let '(a, s) := serve_counted r s in
    (a, (clientsCountDec (interfere k), s)).
End doh.
