(* ===== verification/ClientsProps.v ===== *)
(** * Properties of the clients' counter and of the local DoH server *)

From Stdlib Require Import Relations.Relation_Operators Sorting.Sorted.
From S2P Require Import Prelude GoStrings GoFloat Common Dns DnsUtils DnsUtilsProps Clients.

(** ** The counter, under every interleaving *)

Definition reachable (max : Z) : Clients -> Prop :=
  clos_refl_trans_n1 _ clients_step (initial_clients max).

(** A value loaded by [clientsCountInc] was below the bound. *)
Definition loaded_below (max : Z) (g : goroutine) : Prop :=
  match g with Incrementing c => 0 <= c < max | _ => True end.

Record clients_inv (max : Z) (s : Clients) : Prop := {
  inv_max : maxClients (counter s) = max;
  inv_count : clientsCount (counter s) = holders (goroutines s);
  inv_bound : 0 <= holders (goroutines s) <= max;
  inv_loaded : Forall (loaded_below max) (goroutines s);
}.

Lemma holders_app gs gs' : holders (gs ++ gs') = holders gs + holders gs'.
Proof. unfold holders. by rewrite List.filter_app, len_app. Qed.

Lemma holders_insert gs i g g' : gs !! i = Some g ->
  holders (<[i := g']> gs) = holders gs - (if holds g then 1 else 0) + (if holds g' then 1 else 0).
Proof.
  intros Hi. rewrite insert_take_drop by (by eapply lookup_lt_Some).
  rewrite <-(take_drop_middle gs i g Hi) at 3. rewrite !holders_app.
  change (g' :: drop (S i) gs) with ([g'] ++ drop (S i) gs). change (g :: drop (S i) gs) with ([g] ++ drop (S i) gs).
  rewrite !holders_app. unfold holders, len. simpl. destruct (holds g), (holds g'); simpl; lia.
Qed.

Lemma holders_pos gs i g : gs !! i = Some g -> holds g = true -> 1 <= holders gs.
Proof.
  intros Hi Hg. rewrite <-(take_drop_middle gs i g Hi), holders_app.
  change (g :: drop (S i) gs) with ([g] ++ drop (S i) gs). rewrite holders_app.
  unfold holders, len. simpl. rewrite Hg. simpl. lia.
Qed.

Lemma client_step_inv max k gs i g k' g' : 0 <= max < 2 ^ 32 ->
  clients_inv max {| counter := k; goroutines := gs |} -> gs !! i = Some g -> client_step k g k' g' ->
  clients_inv max {| counter := k'; goroutines := <[i := g']> gs |}.
Proof.
  intros Hmax [H1 H2 H3 H4] Hi Hstep. simpl in *.
  pose proof (Forall_lookup_1 _ _ _ _ H4 Hi) as Hg. pose proof (holders_insert gs i g g' Hi) as Hh.
  pose proof (holders_pos gs i g Hi) as Hp.
  assert (Hu : forall x, 0 <= x <= max -> uint32 x = x) by (intros; apply Z.mod_small; lia).
  destruct Hstep; simpl in *; split; simpl; try rewrite Hh; try (apply Forall_insert; [done|]); simpl;
    subst; rewrite ?Hu; try done; try lia.
Qed.

Lemma clients_step_inv max s s' : 0 <= max < 2 ^ 32 ->
  clients_inv max s -> clients_step s s' -> clients_inv max s'.
Proof.
  intros Hmax Hinv Hstep. destruct Hstep as [k gs i g k' g' Hi Hs|k gs].
  - by eapply client_step_inv.
  - destruct Hinv as [H1 H2 H3 H4]. simpl in *. split; simpl; [done|..].
    + by rewrite holders_app, Z.add_0_r.
    + by rewrite holders_app, Z.add_0_r.
    + apply Forall_app; split; [done|]. by repeat constructor.
Qed.

Lemma reachable_inv max s : 0 <= max < 2 ^ 32 -> reachable max s -> clients_inv max s.
Proof.
  intros Hmax. induction 1 as [|s s' Hstep _ IH]; [|by eapply clients_step_inv].
  split; unfold holders, len; simpl; done || lia.
Qed.

(** C36: whatever the interleaving of the loads and compare-and-swaps of any number of
    goroutines, the counter is the number of goroutines at work and never exceeds
    [maxClients]; so a client is refused only when that many are being served. *)
Theorem clients_count max s : 0 <= max < 2 ^ 32 -> reachable max s ->
  clientsCount (counter s) = holders (goroutines s) /\ holders (goroutines s) <= max /\
  (forall i, goroutines s !! i = Some Arriving -> forall k', client_step (counter s) Arriving k' Refused ->
     holders (goroutines s) = max).
Proof.
  intros Hmax Hr. destruct (reachable_inv max s Hmax Hr) as [H1 H2 H3 _]. split_and!; [done|lia|].
  intros i Hi k' Hs. inversion Hs; subst. lia.
Qed.

Lemma clients_count_witness :
  exists s, reachable 1 s /\ clientsCount (counter s) = holders (goroutines s) /\
    goroutines s = [Serving; Refused].
Proof.
  set (k0 := {| clientsCount := 0; maxClients := 1 |}). set (k1 := {| clientsCount := 1; maxClients := 1 |}).
  assert (Hr : reachable 1 {| counter := k1; goroutines := [Serving; Refused] |}).
  { eapply rtn1_trans; [apply (step_one k1 [Serving; Arriving] 1 Arriving k1 Refused eq_refl); constructor; simpl; lia|].
    eapply rtn1_trans; [apply (step_one k0 [Incrementing 0; Arriving] 0 (Incrementing 0) k1 Serving eq_refl);
      by apply (inc_cas k0 0)|].
    eapply rtn1_trans; [apply (step_one k0 [Arriving; Arriving] 0 Arriving k0 (Incrementing 0) eq_refl);
      apply (inc_load k0); simpl; lia|].
    eapply rtn1_trans; [apply (step_new k0 [Arriving])|].
    eapply rtn1_trans; [apply (step_new k0 [])|]. apply rtn1_refl. }
  exists {| counter := k1; goroutines := [Serving; Refused] |}. split; [exact Hr|].
  split; [|reflexivity]. apply (clients_count 1 {| counter := k1; goroutines := [Serving; Refused] |} ltac:(lia) Hr).
Defined.

(** ** Padding *)

Lemma max_boundary : MaxDNSPacketSize ∈ doh_boundaries.
Proof. apply (bool_decide_unpack _). vm_compute. exact I. Qed.

Lemma boundaries_below : Forall (fun b => b <= MaxDNSPacketSize) doh_boundaries.
Proof. apply (bool_decide_unpack _). vm_compute. exact I. Qed.

Lemma dohPaddedLen_large n : MaxDNSPacketSize < n -> dohPaddedLen n = n.
Proof.
  intros Hn. unfold dohPaddedLen. assert (List.filter (fun b => b >=? n) doh_boundaries = []) as ->; [|done].
  induction boundaries_below as [|b l Hb _ IH]; simpl; [done|]. by rewrite Z.geb_leb, (proj2 (Z.leb_gt _ _)) by lia.
Qed.

Lemma dohPaddedLen_spec n : n <= MaxDNSPacketSize ->
  dohPaddedLen n ∈ doh_boundaries /\ n <= dohPaddedLen n /\
  forall b, b ∈ doh_boundaries -> n <= b -> dohPaddedLen n <= b.
Proof.
  unfold dohPaddedLen. intros Hn.
  assert (Hs : forall l, StronglySorted Z.le l -> (exists b, b ∈ l /\ n <= b) ->
    let r := default n (head (List.filter (fun b => b >=? n) l)) in
    r ∈ l /\ n <= r /\ forall b, b ∈ l -> n <= b -> r <= b).
  { induction 1 as [|x l Hl IH Hx]; intros (b & Hb & Hnb); [set_solver|]. simpl.
    destruct (Z.geb_spec x n) as [Hxn|Hxn]; simpl.
    - split_and!; [set_solver|lia|]. intros c [->|Hc]%elem_of_cons Hnc; [lia|].
      rewrite Forall_forall in Hx. by apply Hx.
    - destruct IH as (H1 & H2 & H3).
      { exists b. split; [|done]. apply elem_of_cons in Hb as [->|]; [lia|done]. }
      split_and!; [set_solver|done|]. intros c [->|Hc]%elem_of_cons Hnc; [lia|auto]. }
  apply Hs; [|exists MaxDNSPacketSize; split; [apply max_boundary|done]].
  unfold doh_boundaries, MaxDNSPacketSize. repeat constructor; lia.
Qed.

Lemma set_padding_twice p q ps : set_padding p (set_padding q ps) = set_padding p ps.
Proof. induction ps as [|[] ps IH]; simpl; try done; by rewrite IH. Qed.

Lemma len_repeat_bytes s n : 0 <= n -> len (repeat_bytes s n) = n * len s.
Proof.
  intros Hn. unfold repeat_bytes, len. rewrite length_concat, fmap_replicate, sum_list_replicate. lia.
Qed.

Lemma b64_quanta_len n vs out : (length vs <= n)%nat -> b64_quanta vs = Some out ->
  (4 * length out <= 3 * length vs)%nat.
Proof.
  revert vs out. induction n as [|n IH]; intros vs out Hn.
  { destruct vs; [|simpl in Hn; lia]. by intros [= <-]. }
  destruct vs as [|a [|b [|c [|d vs]]]]; cbn [b64_quanta]; try (intros [= <-]; simpl; lia).
  destruct (b64_quanta vs) as [rest|] eqn:E; [|done]. intros [= <-].
  apply IH in E; simpl in *; lia.
Qed.

Lemma RawURL_DecodeString_len s out : RawURL_DecodeString s = Some out -> 4 * len out <= 3 * len s.
Proof.
  unfold RawURL_DecodeString. destruct (mapM _ _) as [vs|] eqn:E; [|done]. intros Hq.
  apply (b64_quanta_len (length vs) vs) in Hq; [|done]. apply length_mapM in E.
  pose proof (List.filter_length_le (fun c => negb ((c =? 10) || (c =? 13))) s). unfold len. lia.
Qed.

Lemma request_packet_len r packet : request_packet r = Some packet -> len packet <= MaxDNSPacketSize.
Proof.
  unfold request_packet. case_match.
  - destruct (req_Body r); [|done]. intros [= <-]. unfold len, MaxDNSPacketSize. rewrite length_take. lia.
  - case_match; [|intros [= <-]; vm_compute; discriminate].
    case_match eqn:E; [|intros [= <-]; vm_compute; discriminate]. intros Hd%RawURL_DecodeString_len.
    change (MaxDNSPacketSize * 4 / 3) with 5461 in E. unfold MaxDNSPacketSize. lia.
Qed.

Section doh.
Context `{D : DnsLib} {S : Type}.
Context (process : bytes -> bytes -> S -> bytes * S) (path : bytes).

(** A padding option takes as many bytes as its value has, whatever it is (the text of
    the option is hexadecimal); this holds while the message fits. *)
Hypothesis Pack_padding : forall m ps p data,
  Pack (set_Pseudo (set_padding [] ps) m) = Some data -> len data + len p / 2 <= MaxDNSPacketSize ->
  exists data', Pack (set_Pseudo (set_padding p ps) m) = Some data' /\ len data' = len data + len p / 2.

Lemma padded_response msg original body : addLocalDoHResponsePadding msg original = Some body ->
  len body ∈ doh_boundaries \/ body = original.
Proof.
  unfold addLocalDoHResponsePadding. set (m := if UDPSize (MH msg) =? 0 then _ else msg).
  destruct (Pack (set_Pseudo (set_padding [] (Pseudo m)) m)) as [data|] eqn:E; [|done]. cbn [mbind option_bind].
  destruct (Z.gtb_spec (len data) MaxDNSPacketSize) as [Hgt|Hle]; [intros [= <-]; by right|].
  intros Hb. left. destruct (dohPaddedLen_spec (len data) Hle) as (H1 & H2 & H3).
  set (n := dohPaddedLen (len data) - len data) in *.
  assert (Hp : len (repeat_bytes (str "58") n) / 2 = n).
  { rewrite len_repeat_bytes by lia. change (len (str "58")) with 2. by rewrite Z.div_mul. }
  destruct (Pack_padding m (Pseudo m) (repeat_bytes (str "58") n) data E) as (data' & Hd & Hlen).
  { rewrite Hp. unfold n. rewrite Zplus_minus. apply H3; [apply max_boundary|done]. }
  change (Pseudo (set_Pseudo (set_padding [] (Pseudo m)) m)) with (set_padding [] (Pseudo m)) in Hb.
  rewrite set_padding_twice in Hb.
  change (set_Pseudo ?x (set_Pseudo ?y m)) with (set_Pseudo x m) in Hb. rewrite Hd in Hb. injection Hb as <-.
  rewrite Hlen, Hp. unfold n. by rewrite Zplus_minus.
Qed.

(** The local DoH server answers with a DNS message only the queries that have a
    proper size; what it sends is the response of the proxy, and its size is one of a
    fixed list, with the padding option or the padding header counted, unless it is
    larger than the largest of them. *)
Theorem local_doh_answer r s a s' :
  serve_counted process path r s = (a, s') -> ans_ContentType a = dns_message ->
  exists packet addr response,
    request_packet r = Some packet /\ MinDNSPacketSize <= len packet <= MaxDNSPacketSize /\
    req_Path r = path /\ req_addr r = Some addr /\ process packet addr s = (response, s') /\
    ans_Status a = 200 /\
    (len (ans_Body a) + len (ans_Pad a) ∈ doh_boundaries \/
     (ans_Body a = response /\ ans_Pad a = [])).
Proof.
  unfold serve_counted. destruct (bool_decide (req_Path r = path)) eqn:Ep; [|by intros [= <- <-]].
  apply bool_decide_eq_true in Ep. cbn [negb].
  destruct (request_packet r) as [packet|] eqn:Er; [|by intros [= <- <-]].
  pose proof (request_packet_len r packet Er) as Hmax.
  destruct (Z.ltb_spec (len packet) MinDNSPacketSize) as [|Hmin]; [by intros [= <- <-]|].
  destruct (req_addr r) as [addr|]; [|by intros [= <- <-]].
  destruct (hasEDNS0Padding packet) as [hp|]; [|by intros [= <- <-]].
  destruct (process packet addr s) as [response s1] eqn:Epr.
  destruct (len response =? 0); [by intros [= <- <-]|].
  destruct (Unpack response) as [msg|]; [|by intros [= <- <-]].
  intros Ha Hc. exists packet, addr, response. destruct hp.
  - destruct (addLocalDoHResponsePadding msg response) as [body|] eqn:Eb; [|by simplify_eq/=].
    injection Ha as <- <-. split_and!; try done. simpl.
    apply padded_response in Eb as [Hb|Hb]; [left|by right]. change (len []) with 0. by rewrite Z.add_0_r.
  - injection Ha as <- <-. split_and!; try done. simpl.
    destruct (Z.le_gt_cases (len response) MaxDNSPacketSize) as [Hle|Hgt].
    + left. destruct (dohPaddedLen_spec _ Hle) as (H1 & H2 & _). rewrite len_repeat_bytes by lia.
      change (len (str "X")) with 1. by rewrite Z.mul_1_r, Zplus_minus.
    + right. split; [done|]. by rewrite dohPaddedLen_large, Z.sub_diag by done.
Qed.

(** A request leaves the counter as it was, when others leave it alone. *)
Lemma ServeHTTP_counter r k s : 0 <= clientsCount k <= maxClients k -> maxClients k < 2 ^ 32 ->
  (ServeHTTP process path r id (k, s)).2.1 = k.
Proof.
  intros Hk Hm. unfold ServeHTTP, clientsCountInc, clientsCountDec, set_count. destruct k as [c m]. simpl in *.
  destruct (c >=? m) eqn:E; [done|]. simpl. destruct (serve_counted process path r s) as [a s']. simpl.
  unfold uint32. rewrite (Z.mod_small (c + 1)) by lia. rewrite (proj2 (Z.eqb_neq _ _)) by lia.
  f_equal. rewrite Z.mod_small; lia.
Qed.
End doh.

(** ** An example *)

(** A DNS library in which a message is its padding after a header of twenty bytes. *)
#[local] Instance pad_lib : DnsLib := {
  Unpack b := Some {| MH := zero_MsgHeader; Questions := []; Answer := []; Ns := []; Extra := []; Pseudo := [] |};
  Pack m := match Pseudo m with
            | [PS_PADDING p] => Some (replicate (Z.to_nat (20 + len p / 2)) 0)
            | _ => None
            end;
  EqualName a b := bool_decide (a = b);
}.

Lemma pad_lib_padding m ps p data :
  Pack (set_Pseudo (set_padding [] ps) m) = Some data -> len data + len p / 2 <= MaxDNSPacketSize ->
  exists data', Pack (set_Pseudo (set_padding p ps) m) = Some data' /\ len data' = len data + len p / 2.
Proof.
  intros Hd _. assert (Hs : set_padding [] ps = [PS_PADDING []] /\ set_padding p ps = [PS_PADDING p]).
  { revert Hd. destruct ps as [|x ps]; [done|]. simpl. by destruct x, ps. }
  destruct Hs as [H1 H2]. simpl in *. rewrite H1 in Hd. rewrite H2. injection Hd as <-. eexists. split; [done|].
  pose proof (len_nonneg p). pose proof (Z.div_pos (len p) 2).
  rewrite len_replicate, Z2Nat.id by lia. done.
Qed.

Definition ex_request : http_request :=
  {| req_Path := str "/dns-query"; req_Method := str "POST"; req_ContentType := dns_message; req_Accept := [];
     req_Body := Some (replicate 40 1); req_dns := []; req_addr := Some (str "127.0.0.1:4000") |}.

Lemma local_doh_answer_witness :
  let a := (serve_counted (D := pad_lib) (fun _ _ s => (replicate 100 7, s)) (str "/dns-query") ex_request tt).1 in
  len (ans_Body a) + len (ans_Pad a) ∈ doh_boundaries \/ (ans_Body a = replicate 100 7 /\ ans_Pad a = []).
Proof.
  cbv zeta. destruct (local_doh_answer (D := pad_lib) (fun _ _ s => (replicate 100 7, s)) (str "/dns-query") pad_lib_padding
    ex_request tt (serve_counted (D := pad_lib) (fun _ _ s => (replicate 100 7, s)) (str "/dns-query") ex_request tt).1 tt)
    as (packet & addr & response & _ & _ & _ & _ & Hp & _ & H).
  - vm_compute. reflexivity.
  - vm_compute. reflexivity.
  - injection Hp as <-. exact H.
Defined.
