(* ===== verification/Dns64.v ===== *)
(** * DNS64 (plugin_dns64.go)

    Responses without an IPv6 address are completed with addresses made of a
    prefix and the IPv4 address of the same name, which the plugin asks the proxy
    itself for; the prefixes are configured or discovered (RFC 7050, RFC 6052).

    The proxy, as the plugin uses it, is a function on the rest of the state; the
    resolvers asked for prefixes are another one. *)

From S2P Require Import Prelude GoStrings NetIP NetIPProps Common Crypto Dns DnsUtils DnsUtilsProps Metrics.
From S2P Require Import Plugins RuleLogProps Clients.

Definition rfc7050WKN : bytes := str "ipv4only.arpa.".
Definition rfc7050WKA1 : bytes := [192; 0; 0; 170].
Definition rfc7050WKA2 : bytes := [192; 0; 0; 171].

Inductive dns64_error := NoListener | BadPrefix | PrefixTooLong | FetchFailed | EmptyPref64.

#[global] Instance dns64_error_eq_dec : EqDecision dns64_error.
Proof. solve_decision. Defined.

Definition hasAAAAAnswer (msg : Msg) : bool := existsb (fun rr => RRToType rr =? TypeAAAA) (Answer msg).

(** The loop of [translateToIPv6] from the [i]-th byte; a write out of range panics. *)
Fixpoint translate_loop (ipv4 : bytes) (i ipShift : nat) (ipv6 : bytes) : option bytes :=
  match ipv4 with
  | [] => Some ipv6
  | b :: ipv4' =>
      let ipShift := if (ipShift + i =? 8)%nat then S ipShift else ipShift in
      if (ipShift + i <? length ipv6)%nat
      then translate_loop ipv4' (S i) ipShift (<[(ipShift + i)%nat := b]> ipv6)
      else None
  end.

(** [copy] into sixteen zero bytes. *)
Definition copy16 (ip : bytes) : bytes := take 16 (ip ++ replicate 16 0).

Definition translateToIPv6 (ipv4 : bytes) (prefix : IPNet) : option bytes :=
  translate_loop ipv4 0 (Z.to_nat (net_ones prefix / 8)) (copy16 (net_IP prefix)).

(** Where the well-known address is in an address of [ipv4only.arpa]: the end of the
    prefix, 0 if it is nowhere. *)
Definition is_wka (a : bytes) : bool := bool_decide (a = rfc7050WKA1) || bool_decide (a = rfc7050WKA2).

Definition pref_end (ip : bytes) : nat :=
  let at_ := fun i => nth i ip 0 in
  if is_wka [at_ 12%nat; at_ 13%nat; at_ 14%nat; at_ 15%nat] then 12
  else if is_wka [at_ 9%nat; at_ 10%nat; at_ 11%nat; at_ 12%nat] then 8
  else if is_wka [at_ 7%nat; at_ 9%nat; at_ 10%nat; at_ 11%nat] then 7
  else if is_wka [at_ 6%nat; at_ 7%nat; at_ 9%nat; at_ 10%nat] then 6
  else if is_wka [at_ 5%nat; at_ 6%nat; at_ 7%nat; at_ 9%nat] then 5
  else if is_wka [at_ 4%nat; at_ 5%nat; at_ 6%nat; at_ 7%nat] then 4
  else 0.

Definition pref64_of (ip : bytes) : option IPNet :=
  if negb (length ip =? 16)%nat then None
  else
    let e := pref_end ip in
    if (0 <? e)%nat
    then Some {| net_IP := take e ip ++ replicate (16 - e) 0; net_ones := 8 * Z.of_nat e; net_bits := 128 |}
    else None.

(** The prefixes in the answers, each once. *)
Fixpoint collect_prefixes (answers : list RR) (prefixes : list IPNet) : list IPNet :=
  match answers with
  | [] => prefixes
  | answer :: answers' =>
      match data answer with
      | RD_AAAA ip =>
          match pref64_of ip with
          | Some prefix =>
              collect_prefixes answers'
                (if bool_decide (prefix ∈ prefixes) then prefixes else prefixes ++ [prefix])
          | None => collect_prefixes answers' prefixes
          end
      | _ => collect_prefixes answers' prefixes
      end
  end.

Section dns64.
Context `{D : DnsLib} {S : Type}.
(** [processIncomingQuery] for the trampoline query. *)
Context (trampoline : bytes -> S -> bytes * S).
(** The exchange with a resolver: the response, [None] for an error; [id] is the number of
    the query. *)
Context (ask : Msg -> bytes -> S -> option Msg * S).

Record PluginDNS64 := {
  pref64 : list IPNet;
  dns64Resolvers : list bytes;
  ipv4Resolver : bytes;
}.

(** The plugin with what it shares with the proxy. *)
Record Dns64World := { d64 : PluginDNS64; d64_counter : Counter; d64_rest : S }.

Definition set_pref64 (l : list IPNet) (p : PluginDNS64) : PluginDNS64 :=
  {| pref64 := l; dns64Resolvers := dns64Resolvers p; ipv4Resolver := ipv4Resolver p |}.

Definition fetchPref64 (id : Z) (resolver : bytes) (p : PluginDNS64) (s : S)
    : option dns64_error * PluginDNS64 * S :=
  let msg := NewMsg id rfc7050WKN TypeAAAA in
  match ask msg resolver s with
  | (None, s) => (Some FetchFailed, p, s)
  | (Some resp, s) =>
      if negb (Rcode_ (MH resp) =? RcodeSuccess) then (Some FetchFailed, p, s)
      else
        let prefixes := collect_prefixes (Answer resp) [] in
        if len prefixes =? 0 then (Some EmptyPref64, p, s) else (None, set_pref64 prefixes p, s)
  end.

(** The loop over the resolvers, until one succeeds. *)
Fixpoint fetch_loop (id : nat -> Z) (resolvers : list bytes) (p : PluginDNS64) (s : S) : PluginDNS64 * S :=
  match resolvers with
  | [] => (p, s)
  | resolver :: resolvers' =>
      match fetchPref64 (id (length resolvers)) resolver p s with
      | (None, p, s) => (p, s)
      | (Some _, p, s) => fetch_loop id resolvers' p s
      end
  end.

Definition refreshPref64 (id : nat -> Z) (p : PluginDNS64) (s : S) : option dns64_error * PluginDNS64 * S :=
  let '(p, s) := fetch_loop id (dns64Resolvers p) p s in
  if len (pref64 p) =? 0 then (Some EmptyPref64, p, s) else (None, p, s).

Fixpoint parse_prefixes (l : list bytes) (p : PluginDNS64) : option dns64_error * PluginDNS64 :=
  match l with
  | [] => (None, p)
  | prefStr :: l' =>
      match ParseCIDR prefStr with
      | None => (Some BadPrefix, p)
      | Some pref =>
          if net_ones pref >? 96 then (Some PrefixTooLong, p)
          else parse_prefixes l' (set_pref64 (pref64 p ++ [pref]) p)
      end
  end.

Definition PluginDNS64_Init (id : nat -> Z) (listenAddresses dns64Prefixes resolvers : list bytes) (s : S)
    : option dns64_error * PluginDNS64 * S :=
  match listenAddresses with
  | [] => (Some NoListener, {| pref64 := []; dns64Resolvers := []; ipv4Resolver := [] |}, s)
  | listen :: _ =>
      let p := {| pref64 := []; dns64Resolvers := []; ipv4Resolver := listen |} in
      match dns64Prefixes, resolvers with
      | _ :: _, _ => let '(err, p) := parse_prefixes dns64Prefixes p in (err, p, s)
      | [], _ :: _ =>
          refreshPref64 id {| pref64 := []; dns64Resolvers := resolvers; ipv4Resolver := listen |} s
      | [], [] => (None, p, s)
      end
  end.

(** The TTL bound: that of the last SOA record of the authority section. *)
Definition initial_TTL (ns : list RR) : Z :=
  fold_left (fun ttl rr => if RRToType rr =? TypeSOA then TTL (hdr rr) else ttl) ns 600.

(** The records made of one address; [None] stands for a panic. *)
Fixpoint synth_prefixes (prefixes : list IPNet) (h : Header) (ttl : Z) (ipv4 : bytes) : option (list RR) :=
  match prefixes with
  | [] => Some []
  | prefix :: prefixes' =>
      ipv6 ← translateToIPv6 ipv4 prefix;
      ip16 ← To16 ipv6;
      rest ← synth_prefixes prefixes' h ttl ipv4;
      Some ({| hdr := {| Name := Name h; Class_ := Class_ h; TTL := ttl |}; data := RD_AAAA ip16 |} :: rest)
  end.

(** The answers made of those of the trampoline query. *)
Fixpoint synth_answers (prefixes : list IPNet) (initialTTL : Z) (answers : list RR) : option (list RR) :=
  match answers with
  | [] => Some []
  | answer :: answers' =>
      new ← match data answer with
            | RD_CNAME _ => Some [answer]
            | RD_A ipv4 =>
                if (length ipv4 =? 4)%nat
                then synth_prefixes prefixes (hdr answer) (Z.min initialTTL (TTL (hdr answer))) ipv4
                else Some []
            | _ => Some []
            end;
      rest ← synth_answers prefixes initialTTL answers';
      Some (new ++ rest)
  end.

Definition PluginDNS64_Eval (id : Z) : Plugin Dns64World := fun w ps msg =>
  if hasAAAAAnswer msg then (None, w, ps, msg)
  else match questionMsg ps with
  | None => (Some PluginPanic, w, ps, msg)
  | Some questionMsg =>
      match Questions questionMsg with
      | [] => (Some PluginPanic, w, ps, msg)
      | question :: _ =>
          if negb (q_Class question =? ClassINET) || negb (q_Type question =? TypeAAAA) then (None, w, ps, msg)
          else
            let msgA := NewMsg id (q_Name question) TypeA in
            let msgA := set_header (set_ID (ID (MH questionMsg))) msgA in
            let msgA := set_header (set_RecursionDesired (RecursionDesired (MH questionMsg))) msgA in
            match Pack msgA with
            | None => (Some PackError, w, ps, msg)
            | Some msgAPacket =>
                let '(ok, k) := clientsCountInc (d64_counter w) in
                if negb ok then (Some PluginFailed, {| d64 := d64 w; d64_counter := k; d64_rest := d64_rest w |}, ps, msg)
                else
                  let '(respPacket, s) := trampoline msgAPacket (d64_rest w) in
                  let w := {| d64 := d64 w; d64_counter := clientsCountDec k; d64_rest := s |} in
                  if len respPacket =? 0 then (Some PluginFailed, w, ps, msg)
                  else match Unpack respPacket with
                  | None => (Some UnpackError, w, ps, msg)
                  | Some resp =>
                      if negb (Rcode_ (MH resp) =? RcodeSuccess) then (None, w, ps, msg)
                      else if len (Answer resp) =? 0 then (None, w, ps, msg)
                      else match synth_answers (pref64 (d64 w)) (initial_TTL (Ns resp)) (Answer resp) with
                      | None => (Some PluginPanic, w, ps, msg)
                      | Some synth64 =>
                          let msg := set_Answer synth64 msg in
                          let msg := set_header (set_AuthenticatedData false) msg in
                          let msg := set_header (fun h => set_EDNS (uint16 MaxDNSUDPSafePacketSize) (Security h) h) msg in
                          (None, w, set_returnCode PluginsReturnCodeCloak ps, msg)
                      end
                  end
            end
      end
  end.
End dns64.

(** ** Properties *)

(** *** Translation (RFC 6052) *)

(** The places of an IPv4 address after a prefix of [k] bytes: those that follow it,
    the ninth byte of the address left out. *)
Definition v4_places (k : nat) : list nat := take 4 (List.filter (fun i => negb (i =? 8)%nat) (seq k 5)).

(** A prefix that can be followed by an address. *)
Definition prefix_ok (p : IPNet) : Prop := 0 <= net_ones p <= 96.

Ltac bytes_of ip Hl := do 16 (destruct ip as [|? ip]; [discriminate Hl|]); destruct ip; [|discriminate Hl].

Lemma copy16_length ip : length (copy16 ip) = 16%nat.
Proof. unfold copy16. rewrite length_take, length_app, length_replicate. lia. Qed.

Lemma copy16_id ip : length ip = 16%nat -> copy16 ip = ip.
Proof. intros Hl. unfold copy16. rewrite take_app_le, take_ge by lia. done. Qed.

Lemma translate_loop_spec k ip a b c d : (k < 13)%nat -> length ip = 16%nat ->
  exists r, translate_loop [a; b; c; d] 0 k ip = Some r /\ length r = 16%nat /\
    ((fun i => nth i r 0) <$> v4_places k) = [a; b; c; d] /\
    forall i, i ∉ v4_places k -> nth i r 0 = nth i ip 0.
Proof.
  intros Hk Hl. bytes_of ip Hl. clear Hl.
  do 13 (destruct k as [|k]; [eexists; split; [reflexivity|]; split; [reflexivity|]; split; [reflexivity|];
    intros i Hi; do 16 (destruct i as [|i]; [try reflexivity; exfalso; apply Hi, (bool_decide_unpack _);
      vm_compute; exact I|]); reflexivity|]).
  lia.
Qed.

Lemma prefix_bytes p : prefix_ok p -> (Z.to_nat (net_ones p / 8) < 13)%nat.
Proof. intros Hp. assert (net_ones p / 8 < 13) by (apply Z.div_lt_upper_bound; unfold prefix_ok in Hp; lia). lia. Qed.

Lemma translate_total ipv4 p : length ipv4 = 4%nat -> prefix_ok p ->
  exists r, translateToIPv6 ipv4 p = Some r /\ length r = 16%nat.
Proof.
  intros H4 Hp. destruct ipv4 as [|a [|b [|c [|d [|]]]]]; try discriminate.
  destruct (translate_loop_spec (Z.to_nat (net_ones p / 8)) (copy16 (net_IP p)) a b c d) as (r & Hr & Hl & _);
    [by apply prefix_bytes|apply copy16_length|]. by exists r.
Qed.

(** An IPv4 address is put in the bytes RFC 6052 gives for the length of the prefix,
    and every other byte of the result is that of the prefix. *)
Theorem translate_spec ipv4 p : length ipv4 = 4%nat -> prefix_ok p ->
  exists r, translateToIPv6 ipv4 p = Some r /\ length r = 16%nat /\
    ((fun i => nth i r 0) <$> v4_places (Z.to_nat (net_ones p / 8))) = ipv4 /\
    forall i, i ∉ v4_places (Z.to_nat (net_ones p / 8)) -> nth i r 0 = nth i (copy16 (net_IP p)) 0.
Proof.
  intros H4 Hp. destruct ipv4 as [|a [|b [|c [|d [|]]]]]; try discriminate.
  apply translate_loop_spec; [by apply prefix_bytes|apply copy16_length].
Qed.

(** The places of RFC 6052, section 2.2. *)
Lemma v4_places_table :
  (v4_places 4, v4_places 5, v4_places 6, v4_places 7, v4_places 8, v4_places 12) =
  ([4; 5; 6; 7], [5; 6; 7; 9], [6; 7; 9; 10], [7; 9; 10; 11], [9; 10; 11; 12], [12; 13; 14; 15])%nat.
Proof. reflexivity. Qed.

(** *** Discovery (RFC 7050) *)

(** A prefix of one of the six lengths of RFC 6052. *)
Definition rfc6052_prefix (p : IPNet) : Prop :=
  net_bits p = 128 /\ length (net_IP p) = 16%nat /\
  exists k, k ∈ [4; 5; 6; 7; 8; 12]%nat /\ net_ones p = 8 * Z.of_nat k /\
    drop k (net_IP p) = replicate (16 - k) 0.

(** The prefix with which a resolver synthesizes the addresses of ipv4only.arpa is
    discovered exactly from them, whichever of the six lengths it has. *)
Theorem dns64_discovery p wka : rfc6052_prefix p -> wka = rfc7050WKA1 \/ wka = rfc7050WKA2 ->
  exists ip, translateToIPv6 wka p = Some ip /\ pref64_of ip = Some p.
Proof.
  intros (Hb & Hl & k & Hk & Ho & Hd) Hw. destruct p as [ip ones bits]. simpl in *. subst bits ones.
  unfold translateToIPv6. simpl. rewrite Z.mul_comm, Z.div_mul, Nat2Z.id, copy16_id by done.
  bytes_of ip Hl. clear Hl. unfold rfc7050WKA1, rfc7050WKA2 in Hw.
  repeat (apply elem_of_cons in Hk as [->|Hk]; [simpl in Hd; simplify_eq;
    destruct Hw as [-> | ->]; (eexists; split; [reflexivity|]; reflexivity)|]).
  by apply elem_of_nil in Hk.
Qed.

(** *** Synthesized answers *)

(** A record made of an address record and a prefix. *)
Definition made_of (prefixes : list IPNet) (ttl : Z) (answers : list RR) (rr : RR) : Prop :=
  exists a ipv4 prefix ip, a ∈ answers /\ data a = RD_A ipv4 /\ length ipv4 = 4%nat /\ prefix ∈ prefixes /\
    translateToIPv6 ipv4 prefix = Some ip /\
    rr = {| hdr := {| Name := Name (hdr a); Class_ := Class_ (hdr a); TTL := Z.min ttl (TTL (hdr a)) |};
            data := RD_AAAA ip |}.

Definition is_CNAME (rr : RR) : Prop := exists target, data rr = RD_CNAME target.

Lemma synth_prefixes_spec prefixes h ttl ipv4 : Forall prefix_ok prefixes -> length ipv4 = 4%nat ->
  exists l, synth_prefixes prefixes h ttl ipv4 = Some l /\
    forall rr, rr ∈ l <-> exists prefix ip, prefix ∈ prefixes /\ translateToIPv6 ipv4 prefix = Some ip /\
      rr = {| hdr := {| Name := Name h; Class_ := Class_ h; TTL := ttl |}; data := RD_AAAA ip |}.
Proof.
  intros Hp H4. induction Hp as [|p ps Hp _ (l & IH & Hl)]; cbn [synth_prefixes].
  { exists []. split; [done|]. intros rr. split; [set_solver|]. intros (p & ip & Hin & _). set_solver. }
  destruct (translate_total ipv4 p H4 Hp) as (ip & Hip & Hlen). rewrite Hip. cbn [mbind option_bind].
  unfold To16. rewrite Hlen. cbn [Nat.eqb]. rewrite IH. eexists. split; [reflexivity|].
  intros rr. rewrite elem_of_cons, Hl. split.
  - intros [->|(q & ipq & Hq & Ht & ->)]; [exists p, ip|exists q, ipq]; set_solver.
  - intros (q & ipq & [->|Hq]%elem_of_cons & Ht & ->); [left; congruence|right; eauto].
Qed.

Lemma synth_answers_spec prefixes ttl answers : Forall prefix_ok prefixes ->
  exists l, synth_answers prefixes ttl answers = Some l /\
    forall rr, rr ∈ l <-> (rr ∈ answers /\ is_CNAME rr) \/ made_of prefixes ttl answers rr.
Proof.
  intros Hp. induction answers as [|a answers (l & IH & Hl)]; cbn [synth_answers].
  { exists []. split; [done|]. intros rr. split; [set_solver|].
    intros [[H _]|(x & ? & ? & ? & H & _)]; set_solver. }
  assert (Hnew : exists new, (match data a with
      | RD_CNAME _ => Some [a]
      | RD_A ipv4 => if (length ipv4 =? 4)%nat
                     then synth_prefixes prefixes (hdr a) (Z.min ttl (TTL (hdr a))) ipv4 else Some []
      | _ => Some [] end) = Some new /\
    forall rr, rr ∈ new <-> (rr = a /\ is_CNAME rr) \/ made_of prefixes ttl [a] rr).
  { assert (Hnone : forall rr, (forall ipv4, data a = RD_A ipv4 -> length ipv4 <> 4%nat) ->
      ~ made_of prefixes ttl [a] rr).
    { intros rr Hn (x & ipv4 & p & ip & ->%list_elem_of_singleton & Hd & H4 & _). by apply (Hn ipv4). }
    unfold is_CNAME. destruct (data a) as [addr|addr|tgt|pr tgt|pr tgt|ptr|nsn|pf mx|txt|cpu os|ns mb s1 s2 s3 s4 s5| |t] eqn:Ed.
    2-13: eexists; (split; [reflexivity|]); intros rr; specialize (Hnone rr ltac:(congruence)).
    2,4-13: split; [set_solver|]; intros [[-> [? Ht]]|?]; [rewrite Ed in Ht; discriminate|done].
    - destruct (Nat.eqb_spec (length addr) 4) as [H4|Hn4].
      + destruct (synth_prefixes_spec prefixes (hdr a) (Z.min ttl (TTL (hdr a))) addr Hp H4) as (l' & -> & Hl').
        exists l'. split; [done|]. intros rr. rewrite Hl'. split.
        * intros (p & ip & Hin & Ht & ->). right. exists a, addr, p, ip. set_solver.
        * intros [[-> [? Ht]]|(x & v4 & p & ip & ->%list_elem_of_singleton & Hd & _ & Hin & Ht & ->)];
            [by rewrite Ed in Ht|]. rewrite Ed in Hd. simplify_eq. eauto.
      + exists []. split; [done|]. intros rr. split; [set_solver|].
        intros [[-> [? Ht]]|Hm]; [by rewrite Ed in Ht|]. exfalso. eapply (Hnone rr); [|exact Hm]. congruence.
    - split; [|intros [[-> _]|?]; [set_solver|done]]. intros ->%list_elem_of_singleton. left. rewrite Ed. eauto. }
  destruct Hnew as (new & -> & Hnew). cbn [mbind option_bind]. rewrite IH. eexists. split; [reflexivity|].
  intros rr. rewrite elem_of_app, Hnew, Hl, elem_of_cons. unfold made_of. setoid_rewrite elem_of_cons.
  setoid_rewrite elem_of_nil. naive_solver.
Qed.

Section eval.
Context `{D : DnsLib} {S : Type} (trampoline : bytes -> S -> bytes * S).

Lemma counter_restored k k' : 0 <= clientsCount k -> maxClients k < 2 ^ 32 ->
  clientsCountInc k = (true, k') -> clientsCountDec k' = k.
Proof.
  unfold clientsCountInc, clientsCountDec, set_count, uint32. intros Hk Hm.
  destruct (clientsCount k >=? maxClients k) eqn:E; [done|]. intros [= <-]. simpl.
  rewrite (Z.mod_small (clientsCount k + 1)) by lia. rewrite (proj2 (Z.eqb_neq _ _)) by lia.
  rewrite Z.mod_small by lia. destruct k. simpl. f_equal. lia.
Qed.

(** The answers of a response after the plugin. *)
Definition dns64_outcome (prefixes : list IPNet) (msg msg' : Msg) (ps ps' : PluginsState) : Prop :=
  (msg' = msg /\ ps' = ps) \/
  (hasAAAAAnswer msg = false /\ ps' = set_returnCode PluginsReturnCodeCloak ps /\
   Questions msg' = Questions msg /\ ID (MH msg') = ID (MH msg) /\ AuthenticatedData (MH msg') = false /\
   exists resp, Answer resp <> [] /\ Rcode_ (MH resp) = RcodeSuccess /\
     forall rr, rr ∈ Answer msg' <->
       (rr ∈ Answer resp /\ is_CNAME rr) \/ made_of prefixes (initial_TTL (Ns resp)) (Answer resp) rr).

(** With prefixes of at most 96 bits, the plugin never panics on a response to a
    query with a question, gives back the slot its own query took, and either leaves the
    response alone or replaces the answers of one without an IPv6 address by the aliases
    and the translations, under every prefix, of the IPv4 addresses it was given. *)
Theorem dns64_eval id w ps msg err w' ps' msg' q qm :
  Forall prefix_ok (pref64 (d64 w)) ->
  0 <= clientsCount (d64_counter w) -> maxClients (d64_counter w) < 2 ^ 32 ->
  questionMsg ps = Some qm -> Questions qm = [q] ->
  PluginDNS64_Eval trampoline id w ps msg = (err, w', ps', msg') ->
  err <> Some PluginPanic /\ d64 w' = d64 w /\ d64_counter w' = d64_counter w /\
  (q_Type q <> TypeAAAA -> err = None /\ msg' = msg /\ d64_rest w' = d64_rest w) /\
  dns64_outcome (pref64 (d64 w)) msg msg' ps ps'.
Proof.
  intros Hp Hk Hm Hqm Hq. unfold PluginDNS64_Eval. rewrite Hqm, Hq.
  assert (Hsame : dns64_outcome (pref64 (d64 w)) msg msg ps ps) by by left.
  destruct (hasAAAAAnswer msg) eqn:Ea; [intros [= <- <- <- <-]; by split_and!|].
  destruct (negb (q_Class q =? ClassINET) || negb (q_Type q =? TypeAAAA)) eqn:Et;
    [intros [= <- <- <- <-]; by split_and!|].
  assert (q_Type q = TypeAAAA) as Hty by (apply orb_false_iff in Et as [_ Et]; lia). rewrite Hty.
  destruct (Pack _) as [packet|]; [|intros [= <- <- <- <-]; by split_and!].
  destruct (clientsCountInc (d64_counter w)) as [[] k] eqn:Ek; cbn [negb].
  2: { assert (k = d64_counter w) as -> by (unfold clientsCountInc in Ek; by case_match; simplify_eq).
       intros [= <- <- <- <-]; by split_and!. }
  pose proof (counter_restored _ _ Hk Hm Ek) as Hr.
  destruct (trampoline packet (d64_rest w)) as [resp s].
  destruct (len resp =? 0); [intros [= <- <- <- <-]; by split_and!|].
  destruct (Unpack resp) as [r|]; [|intros [= <- <- <- <-]; by split_and!].
  destruct (Rcode_ (MH r) =? RcodeSuccess) eqn:Er; cbn [negb]; [|intros [= <- <- <- <-]; by split_and!].
  destruct (Z.eqb_spec (len (Answer r)) 0) as [|Hne]; [intros [= <- <- <- <-]; by split_and!|].
  destruct (synth_answers_spec (pref64 (d64 w)) (initial_TTL (Ns r)) (Answer r) Hp) as (l & Hl & Hin).
  cbn [d64]. rewrite Hl. intros [= <- <- <- <-]. split_and!; try done. right. split_and!; try done.
  exists r. split_and!; [by intros Hn; rewrite Hn in Hne|lia|exact Hin].
Qed.
End eval.

(** *** Examples *)

Definition ex_pref64 : IPNet :=
  {| net_IP := [0; 100; 255; 155] ++ replicate 12 0; net_ones := 96; net_bits := 128 |}.

Lemma ex_parse_prefix : ParseCIDR (str "64:ff9b::/96") = Some ex_pref64.
Proof. vm_compute. reflexivity. Qed.

Lemma translate_spec_witness :
  exists r, translateToIPv6 [192; 0; 2; 33] ex_pref64 = Some r /\ drop 12 r = [192; 0; 2; 33].
Proof.
  destruct (translate_spec [192; 0; 2; 33] ex_pref64) as (r & Hr & _).
  - reflexivity.
  - unfold prefix_ok. simpl. lia.
  - exists r. split; [exact Hr|]. vm_compute in Hr. injection Hr as <-. reflexivity.
Defined.

Lemma dns64_discovery_witness :
  exists ip, translateToIPv6 rfc7050WKA2 ex_pref64 = Some ip /\ pref64_of ip = Some ex_pref64.
Proof.
  apply (dns64_discovery ex_pref64 rfc7050WKA2).
  - split_and!; [reflexivity..|]. exists 12%nat. split_and!; [set_solver|reflexivity|reflexivity].
  - by right.
Defined.

(** A library that packs every message as one byte and unpacks an A record. *)
Definition ex_a_record : RR :=
  {| hdr := {| Name := str "example.com."; Class_ := 1; TTL := 300 |}; data := RD_A [192; 0; 2; 33] |}.
#[local] Instance ex_lib : DnsLib := {
  Pack _ := Some [1];
  Unpack _ := Some (set_Answer [ex_a_record] (NewMsg 1 (str "example.com.") TypeA));
  EqualName a b := bool_decide (a = b);
}.

Definition ex_dns64_query : Msg := NewMsg 1 (str "example.com.") TypeAAAA.
Definition ex_dns64_state : PluginsState := set_questionMsg (Some ex_dns64_query) sample_client_state.
Definition ex_dns64_world : Dns64World (S := unit) :=
  {| d64 := {| pref64 := [ex_pref64]; dns64Resolvers := []; ipv4Resolver := [] |};
     d64_counter := {| clientsCount := 1; maxClients := 250 |}; d64_rest := tt |}.
Definition ex_dns64_result :=
  PluginDNS64_Eval (D := ex_lib) (fun _ s => ([1], s)) 9 ex_dns64_world ex_dns64_state ex_dns64_query.

Lemma dns64_eval_witness :
  data <$> Answer (ex_dns64_result.2) = [RD_AAAA [0; 100; 255; 155; 0; 0; 0; 0; 0; 0; 0; 0; 192; 0; 2; 33]] /\
  dns64_outcome [ex_pref64] ex_dns64_query (ex_dns64_result.2) ex_dns64_state (ex_dns64_result.1.2).
Proof.
  split; [vm_compute; reflexivity|].
  destruct (dns64_eval (D := ex_lib) (fun _ s => ([1], s)) 9 ex_dns64_world ex_dns64_state ex_dns64_query
    (ex_dns64_result.1.1.1) (ex_dns64_result.1.1.2) (ex_dns64_result.1.2) (ex_dns64_result.2)
    {| q_Name := str "example.com."; q_Type := TypeAAAA; q_Class := ClassINET |} ex_dns64_query)
    as (_ & _ & _ & _ & H).
  - constructor; [|constructor]. unfold prefix_ok. simpl. lia.
  - simpl. lia.
  - simpl. lia.
  - reflexivity.
  - reflexivity.
  - unfold ex_dns64_result. by destruct (PluginDNS64_Eval _ _ _ _ _) as [[[] ?] ?].
  - exact H.
Defined.
