(* ===== verification/Pipeline.v ===== *)
(** * The plugins of the proxy, put together (plugins.go)

    The chains that [InitPluginsGlobals] builds, with the plugins of the other files:
    each works on its own part of the data, and reads the clock of the proxy.  What
    query processing needs of plugins is proved of every one of them, and what is
    proved of query processing for any plugins then holds of the program. *)

From S2P Require Import Prelude GoStrings NetIP NetIPProps Common Crypto Dns DnsUtils Metrics ServerTypes Servers.
From S2P Require Import Plugins PrefixTree PatternMatcher TimeRanges Cache Query QueryProps RuleLog Reload.
From S2P Require Import NameLists IPLists Cloak QueryPlugins Clients Forward Dns64.

Section pipeline.
Context `{D : DnsLib} {T : Type -> Type} `{PT : PrefixTree T} `{L : IPCryptLib}.
Context {Net : Type} `{NT : NetTable Net} `{PS : PrefixSet} {C : Type} `{SC : SieveCache C CachedResponse}.
Context {F : Type} `{FE : !ForwardEnv F}.

(** What the plugins take from the rest of the program: the readings of the clock and the
    random choices, by the number of the evaluation, and functions of libraries. *)
Record PluginEnv := {
  env_clock : nat -> nat -> Clock;
  env_time : nat -> nat -> Time;
  env_choice : nat -> nat;
  env_resolve : bytes -> bool -> option (list bytes);
  env_shuffle : list RR -> list RR;
  env_trampoline : bytes -> F -> bytes * F;
  env_quote : bytes -> bytes;
  env_fold : bytes -> bytes -> bool;
  env_typeName : Z -> option bytes;
  env_hash : bytes -> bytes;
}.

Record PluginData := {
  d_portal : gmap bytes (list bytes);
  d_meta : RR;
  d_allow : PluginAllowName T;
  d_ecs : list IPNet;
  d_block : PluginBlockName T;
  d_cloak : PluginCloak T;
  d_cache : option C;
  d_forward : FwdWorld F;
  d_undelegated : T bool;
  d_nx : PluginNxLog;
  d_allowedIP : PluginIP Net;
  d_blockedIP : PluginIP Net;
  d_dns64 : Dns64World (S := F);
  d_querylog : PluginQueryLog;
  d_evals : nat;          (* evaluations so far *)
}.

Definition set_d_portal (v : gmap bytes (list bytes)) (x : PluginData) : PluginData :=
  {| d_portal := v; d_meta := d_meta x; d_allow := d_allow x; d_ecs := d_ecs x; d_block := d_block x;
     d_cloak := d_cloak x; d_cache := d_cache x; d_forward := d_forward x;
     d_undelegated := d_undelegated x; d_nx := d_nx x; d_allowedIP := d_allowedIP x;
     d_blockedIP := d_blockedIP x; d_dns64 := d_dns64 x; d_querylog := d_querylog x;
     d_evals := S (d_evals x) |}.
Definition set_d_meta (v : RR) (x : PluginData) : PluginData :=
  {| d_portal := d_portal x; d_meta := v; d_allow := d_allow x; d_ecs := d_ecs x; d_block := d_block x;
     d_cloak := d_cloak x; d_cache := d_cache x; d_forward := d_forward x;
     d_undelegated := d_undelegated x; d_nx := d_nx x; d_allowedIP := d_allowedIP x;
     d_blockedIP := d_blockedIP x; d_dns64 := d_dns64 x; d_querylog := d_querylog x;
     d_evals := S (d_evals x) |}.
Definition set_d_allow (v : PluginAllowName T) (x : PluginData) : PluginData :=
  {| d_portal := d_portal x; d_meta := d_meta x; d_allow := v; d_ecs := d_ecs x; d_block := d_block x;
     d_cloak := d_cloak x; d_cache := d_cache x; d_forward := d_forward x;
     d_undelegated := d_undelegated x; d_nx := d_nx x; d_allowedIP := d_allowedIP x;
     d_blockedIP := d_blockedIP x; d_dns64 := d_dns64 x; d_querylog := d_querylog x;
     d_evals := S (d_evals x) |}.
Definition set_d_ecs (v : list IPNet) (x : PluginData) : PluginData :=
  {| d_portal := d_portal x; d_meta := d_meta x; d_allow := d_allow x; d_ecs := v; d_block := d_block x;
     d_cloak := d_cloak x; d_cache := d_cache x; d_forward := d_forward x;
     d_undelegated := d_undelegated x; d_nx := d_nx x; d_allowedIP := d_allowedIP x;
     d_blockedIP := d_blockedIP x; d_dns64 := d_dns64 x; d_querylog := d_querylog x;
     d_evals := S (d_evals x) |}.
Definition set_d_block (v : PluginBlockName T) (x : PluginData) : PluginData :=
  {| d_portal := d_portal x; d_meta := d_meta x; d_allow := d_allow x; d_ecs := d_ecs x; d_block := v;
     d_cloak := d_cloak x; d_cache := d_cache x; d_forward := d_forward x;
     d_undelegated := d_undelegated x; d_nx := d_nx x; d_allowedIP := d_allowedIP x;
     d_blockedIP := d_blockedIP x; d_dns64 := d_dns64 x; d_querylog := d_querylog x;
     d_evals := S (d_evals x) |}.
Definition set_d_cloak (v : PluginCloak T) (x : PluginData) : PluginData :=
  {| d_portal := d_portal x; d_meta := d_meta x; d_allow := d_allow x; d_ecs := d_ecs x;
     d_block := d_block x; d_cloak := v; d_cache := d_cache x; d_forward := d_forward x;
     d_undelegated := d_undelegated x; d_nx := d_nx x; d_allowedIP := d_allowedIP x;
     d_blockedIP := d_blockedIP x; d_dns64 := d_dns64 x; d_querylog := d_querylog x;
     d_evals := S (d_evals x) |}.
Definition set_d_cache (v : option C) (x : PluginData) : PluginData :=
  {| d_portal := d_portal x; d_meta := d_meta x; d_allow := d_allow x; d_ecs := d_ecs x;
     d_block := d_block x; d_cloak := d_cloak x; d_cache := v; d_forward := d_forward x;
     d_undelegated := d_undelegated x; d_nx := d_nx x; d_allowedIP := d_allowedIP x;
     d_blockedIP := d_blockedIP x; d_dns64 := d_dns64 x; d_querylog := d_querylog x;
     d_evals := S (d_evals x) |}.
Definition set_d_forward (v : FwdWorld F) (x : PluginData) : PluginData :=
  {| d_portal := d_portal x; d_meta := d_meta x; d_allow := d_allow x; d_ecs := d_ecs x;
     d_block := d_block x; d_cloak := d_cloak x; d_cache := d_cache x; d_forward := v;
     d_undelegated := d_undelegated x; d_nx := d_nx x; d_allowedIP := d_allowedIP x;
     d_blockedIP := d_blockedIP x; d_dns64 := d_dns64 x; d_querylog := d_querylog x;
     d_evals := S (d_evals x) |}.
Definition set_d_undelegated (v : T bool) (x : PluginData) : PluginData :=
  {| d_portal := d_portal x; d_meta := d_meta x; d_allow := d_allow x; d_ecs := d_ecs x;
     d_block := d_block x; d_cloak := d_cloak x; d_cache := d_cache x; d_forward := d_forward x;
     d_undelegated := v; d_nx := d_nx x; d_allowedIP := d_allowedIP x; d_blockedIP := d_blockedIP x;
     d_dns64 := d_dns64 x; d_querylog := d_querylog x; d_evals := S (d_evals x) |}.
Definition set_d_nx (v : PluginNxLog) (x : PluginData) : PluginData :=
  {| d_portal := d_portal x; d_meta := d_meta x; d_allow := d_allow x; d_ecs := d_ecs x;
     d_block := d_block x; d_cloak := d_cloak x; d_cache := d_cache x; d_forward := d_forward x;
     d_undelegated := d_undelegated x; d_nx := v; d_allowedIP := d_allowedIP x;
     d_blockedIP := d_blockedIP x; d_dns64 := d_dns64 x; d_querylog := d_querylog x;
     d_evals := S (d_evals x) |}.
Definition set_d_allowedIP (v : PluginIP Net) (x : PluginData) : PluginData :=
  {| d_portal := d_portal x; d_meta := d_meta x; d_allow := d_allow x; d_ecs := d_ecs x;
     d_block := d_block x; d_cloak := d_cloak x; d_cache := d_cache x; d_forward := d_forward x;
     d_undelegated := d_undelegated x; d_nx := d_nx x; d_allowedIP := v; d_blockedIP := d_blockedIP x;
     d_dns64 := d_dns64 x; d_querylog := d_querylog x; d_evals := S (d_evals x) |}.
Definition set_d_blockedIP (v : PluginIP Net) (x : PluginData) : PluginData :=
  {| d_portal := d_portal x; d_meta := d_meta x; d_allow := d_allow x; d_ecs := d_ecs x;
     d_block := d_block x; d_cloak := d_cloak x; d_cache := d_cache x; d_forward := d_forward x;
     d_undelegated := d_undelegated x; d_nx := d_nx x; d_allowedIP := d_allowedIP x; d_blockedIP := v;
     d_dns64 := d_dns64 x; d_querylog := d_querylog x; d_evals := S (d_evals x) |}.
Definition set_d_dns64 (v : Dns64World (S := F)) (x : PluginData) : PluginData :=
  {| d_portal := d_portal x; d_meta := d_meta x; d_allow := d_allow x; d_ecs := d_ecs x;
     d_block := d_block x; d_cloak := d_cloak x; d_cache := d_cache x; d_forward := d_forward x;
     d_undelegated := d_undelegated x; d_nx := d_nx x; d_allowedIP := d_allowedIP x;
     d_blockedIP := d_blockedIP x; d_dns64 := v; d_querylog := d_querylog x; d_evals := S (d_evals x) |}.
Definition set_d_querylog (v : PluginQueryLog) (x : PluginData) : PluginData :=
  {| d_portal := d_portal x; d_meta := d_meta x; d_allow := d_allow x; d_ecs := d_ecs x;
     d_block := d_block x; d_cloak := d_cloak x; d_cache := d_cache x; d_forward := d_forward x;
     d_undelegated := d_undelegated x; d_nx := d_nx x; d_allowedIP := d_allowedIP x;
     d_blockedIP := d_blockedIP x; d_dns64 := d_dns64 x; d_querylog := v; d_evals := S (d_evals x) |}.

(** A plugin on its part of the data. *)
Definition via {A} (get : PluginData -> A) (set : A -> PluginData -> PluginData) (p : nat -> Plugin A)
    : Plugin PluginData := fun x ps msg =>
  let '(err, a, ps, msg) := p (d_evals x) (get x) ps msg in (err, set a x, ps, msg).

Context (env : PluginEnv).

Definition plugin_of (name : plugin_name) : Plugin PluginData :=
  match name with
  | CaptivePortal => via d_portal set_d_portal (fun _ => PluginCaptivePortal_Eval)
  | QueryMeta => via d_meta set_d_meta (fun _ => PluginQueryMeta_Eval)
  | AllowName => via d_allow set_d_allow (fun n => PluginAllowName_Eval (env_quote env) (env_clock env n 0))
  | Firefox => via d_meta set_d_meta (fun _ => PluginFirefox_Eval)
  | ECS => via d_ecs set_d_ecs (fun n => PluginECS_Eval (env_choice env n))
  | BlockName => via d_block set_d_block (fun n => PluginBlockName_Eval (env_quote env) (env_clock env n 0))
  | BlockIPv6 => via d_meta set_d_meta (fun _ => PluginBlockIPv6_Eval)
  | Plugins.Cloak => via d_cloak set_d_cloak (fun n =>
      PluginCloak_Eval (env_time env n 0) (env_resolve env) (env_shuffle env))
  | GetSetPayloadSize => via d_meta set_d_meta (fun _ => PluginGetSetPayloadSize_Eval)
  | Plugins.Cache => via d_cache set_d_cache (fun n =>
      PluginCache_Eval (env_hash env) (env_time env n 0) (env_time env n 1) (env_time env n 2))
  | Plugins.Forward => via d_forward set_d_forward (fun _ => PluginForward_Eval)
  | BlockUnqualified => via d_meta set_d_meta (fun _ => PluginBlockUnqualified_Eval)
  | BlockUndelegated => via d_undelegated set_d_undelegated (fun _ => PluginBlockUndelegated_Eval)
  | NxLog => via d_nx set_d_nx (fun n =>
      PluginNxLog_Eval (env_quote env) (env_typeName env) (clk_log (env_clock env n 0)) (clk_tweak (env_clock env n 0)))
  | AllowedIP => via d_allowedIP set_d_allowedIP (fun n =>
      PluginAllowedIP_Eval (env_quote env) (clk_log (env_clock env n 0)) (clk_tweak (env_clock env n 0)))
  | BlockNameResponse => via d_block set_d_block (fun n =>
      PluginBlockNameResponse_Eval (env_quote env) (env_clock env n))
  | BlockIP => via d_blockedIP set_d_blockedIP (fun n =>
      PluginBlockIP_Eval (env_quote env) (clk_log (env_clock env n 0)) (clk_tweak (env_clock env n 0)))
  | DNS64 => via d_dns64 set_d_dns64 (fun n => PluginDNS64_Eval (env_trampoline env) (Z.of_nat (env_choice env n)))
  | CacheResponse => via d_cache set_d_cache (fun n =>
      PluginCacheResponse_Eval (env_hash env) (env_time env n 0) (env_time env n 1))
  | QueryLog => via d_querylog set_d_querylog (fun n =>
      PluginQueryLog_Eval (env_quote env) (env_fold env) (env_typeName env) (clk_log (env_clock env n 0))
        (clk_tweak (env_clock env n 0)))
  end.

(** The globals of a proxy whose plugins have all been initialized. *)
Definition globals (o : PluginOptions) (cfg : PluginsConfig) : PluginsGlobals PluginData :=
  {| queryPlugins := plugin_of <$> query_chain o; responsePlugins := plugin_of <$> response_chain o;
     loggingPlugins := plugin_of <$> logging_chain o; config := cfg |}.
End pipeline.
