(* ===== verification/PipelineProps.v ===== *)
(** * Properties of the whole pipeline

    Every plugin of the program respects the query, so that clients only get answers
    to their questions whatever is configured; and a blocked name is decided before
    any plugin that talks to the network is reached. *)

From S2P Require Import Prelude GoStrings NetIP NetIPProps Common Crypto Dns DnsUtils Metrics ServerTypes Servers.
From S2P Require Import Plugins PluginsProps PrefixTree PatternMatcher TimeRanges Cache Query QueryProps RuleLog Reload.
From S2P Require Import NameLists IPLists Cloak QueryPlugins Clients Forward Dns64 Pipeline.
From S2P Require Import CryptoProps DnsUtilsProps Mds MdsProps Estimators ServersProps Feedback RuleLogProps NameListsProps IPListsProps.
From S2P Require Import ForwardProps.

(** Takes a plugin apart: every match on the way to its result. *)
Ltac plugin_cases :=
  repeat (simplify_eq/=; match goal with
  | H : context [match ?x with _ => _ end] |- _ => destruct x eqn:?
  | H : context [let '(_, _) := ?x in _] |- _ => destruct x eqn:?
  end); simplify_eq/=.

Section pipeline.
Context `{D : DnsLib} {T : Type -> Type} `{PT : PrefixTree T} `{L : IPCryptLib}.
Context {Net : Type} `{NT : NetTable Net} `{PS : PrefixSet} {C : Type} `{SC : SieveCache C CachedResponse}.
Context {F : Type} `{FE : !ForwardEnv F}.
Context (env : PluginEnv (F := F)).

Notation data := (PluginData (T := T) (Net := Net) (C := C) (F := F)).

(** [InitPluginsGlobals] builds these chains. *)
Lemma globals_init o cfg :
  InitPluginsGlobals (fun n => Some (plugin_of (T := T) (Net := Net) (C := C) env n)) o cfg = Some (globals env o cfg).
Proof.
  unfold InitPluginsGlobals, globals.
  assert (forall l, mapM (fun n => Some (plugin_of (T := T) (Net := Net) (C := C) env n)) l = Some (plugin_of env <$> l)) as Hm.
  { intros l. apply mapM_Some. induction l; csimpl; by constructor. }
  by rewrite !Hm.
Qed.

(** ** Queries and questions *)

Lemma via_respects_query {A} (get : data -> A) set p : (forall n, respects_query (p n)) ->
  respects_query (via get set p).
Proof.
  intros Hp x st msg err x' st' msg'. unfold via.
  destruct (p (d_evals x) (get x) st msg) as [[[e a] st1] m1] eqn:E. intros [= <- <- <- <-]. by eapply Hp.
Qed.

Lemma via_respects_question {A} (get : data -> A) set p : (forall n, respects_question (p n)) ->
  respects_question (via get set p).
Proof.
  intros Hp x st msg err x' st' msg'. unfold via.
  destruct (p (d_evals x) (get x) st msg) as [[[e a] st1] m1] eqn:E. intros [= <- <- <- <-]. by eapply Hp.
Qed.

Lemma same_question_refl m : same_question m m.
Proof. done. Qed.

Ltac query_plugin := intros k x st msg err x' st' msg' H;
  unfold PluginCaptivePortal_Eval, PluginAllowName_Eval, PluginFirefox_Eval, PluginBlockName_Eval,
    PluginBlockIPv6_Eval, PluginBlockUnqualified_Eval, PluginBlockUndelegated_Eval, PluginQueryMeta_Eval,
    PluginECS_Eval, PluginGetSetPayloadSize_Eval, PluginCache_Eval, PluginCloak_Eval, PluginForward_Eval in H;
  plugin_cases; done.

(** The plugins of the two chains. *)
Definition query_plugins : list plugin_name :=
  [CaptivePortal; QueryMeta; AllowName; Firefox; ECS; BlockName; BlockIPv6; Plugins.Cloak; GetSetPayloadSize;
   Plugins.Cache; Plugins.Forward; BlockUnqualified; BlockUndelegated].
Definition response_plugins : list plugin_name := [NxLog; AllowedIP; BlockNameResponse; BlockIP; DNS64; CacheResponse].

Lemma when_elem b n m : m ∈ when b n -> m = n.
Proof. destruct b; simpl; set_solver. Qed.

Lemma query_chain_elem o n : n ∈ query_chain o -> n ∈ query_plugins.
Proof.
  unfold query_chain. rewrite !elem_of_app, !list_elem_of_singleton. unfold query_plugins.
  intros H; destruct_or! H; try apply when_elem in H; subst n; set_solver.
Qed.

Lemma response_chain_elem o n : n ∈ response_chain o -> n ∈ response_plugins.
Proof.
  unfold response_chain. rewrite !elem_of_app. unfold response_plugins.
  intros H; destruct_or! H; apply when_elem in H; subst n; set_solver.
Qed.

Lemma ECS_respects n : respects_query (PluginECS_Eval n).
Proof.
  intros x st msg err x' st' msg'. unfold PluginECS_Eval. destruct (existsb _ _); [by intros [= <- <- <- <-]|].
  set (m := if _ =? 0 then _ else msg). assert (same_question m msg) as Hm by (unfold m; by case_match).
  intros H. repeat case_match; by simplify_eq.
Qed.

Lemma query_plugins_respect :
  Forall (fun n => respects_query (plugin_of (T := T) (Net := Net) (C := C) env n)) query_plugins.
Proof.
  unfold query_plugins. repeat (apply Forall_cons_2; [apply via_respects_query; first [intros k; apply ECS_respects | query_plugin]|]). constructor.
Qed.

(** What a check of a name may change in the state of a query: nothing else than the action
    and the return code. *)
Definition only_rejects (st st' : PluginsState) : Prop :=
  st' = st \/ st' = set_returnCode PluginsReturnCodeReject (set_action PluginsActionReject st).

Lemma check_state quote clk b name alias (p : PluginBlockName T) st r :
  check quote clk b name alias p st = r -> only_rejects st r.2.
Proof.
  intros <-. unfold check. destruct (pm_Eval _ _) as [[reason w]|]; [|by left].
  destruct (negb _); [by left|]. destruct (log_rule _ _ _ _ _ _ _ _ _ _) as [[w' err] []]; [by right|].
  destruct err; by right.
Qed.

Lemma only_rejects_trans st st' st'' : only_rejects st st' -> only_rejects st' st'' -> only_rejects st st''.
Proof. intros [->| ->] [->| ->]; [by left|by right..]. Qed.

Lemma check_aliases_state quote clk b alias answers lim (p : PluginBlockName T) st :
  only_rejects st (check_aliases quote clk b alias answers lim p st).2.
Proof.
  revert lim p st. induction answers as [|a answers IH]; intros lim p st; cbn [check_aliases]; [by left|].
  destruct (alias_target a) as [target|]; [|apply IH]. destruct (NormalizeQName target) as [name|]; [|by left].
  destruct (check quote (clk lim) b name (Some alias) p st) as [[[blocked err] p1] st1] eqn:E.
  pose proof (check_state _ _ _ _ _ _ _ _ E) as Hc. simpl in Hc.
  destruct (_ || _); [done|]. destruct lim as [|[|lim]]; [done..|]. eapply only_rejects_trans; [exact Hc|apply IH].
Qed.

Lemma BlockNameResponse_respects quote clk :
  respects_question (PluginBlockNameResponse_Eval (T := T) quote clk).
Proof.
  intros x st msg err x' st' msg'. unfold PluginBlockNameResponse_Eval.
  destruct (whitelisted st); [by intros [= <- <- <- <-]|].
  destruct (blockedNames x) as [b|]; [|by intros [= <- <- <- <-]].
  pose proof (check_aliases_state quote clk b (qName st) (Answer msg) aliasesLimit x st) as H.
  destruct (check_aliases _ _ _ _ _ _ _ _) as [[e p1] st1]. intros [= <- <- <- <-]. simpl in H.
  by destruct H as [->| ->].
Qed.

Ltac response_plugin := intros k x st msg err x' st' msg' H;
  unfold PluginNxLog_Eval, PluginAllowedIP_Eval, PluginBlockIP_Eval, PluginDNS64_Eval, PluginCacheResponse_Eval in H;
  plugin_cases; done.

Lemma response_plugins_respect :
  Forall (fun n => respects_question (plugin_of (T := T) (Net := Net) (C := C) env n)) response_plugins.
Proof.
  unfold response_plugins.
  repeat (apply Forall_cons_2; [apply via_respects_question;
    first [intros k; apply BlockNameResponse_respects | response_plugin]|]).
  constructor.
Qed.

Lemma chains_respect o :
  Forall respects_query (plugin_of (T := T) (Net := Net) (C := C) env <$> query_chain o) /\
  Forall respects_question (plugin_of (T := T) (Net := Net) (C := C) env <$> response_chain o).
Proof.
  split; apply Forall_fmap, Forall_forall; intros n Hn.
  - eapply (proj1 (Forall_forall _ _) query_plugins_respect), query_chain_elem, Hn.
  - eapply (proj1 (Forall_forall _ _) response_plugins_respect), response_chain_elem, Hn.
Qed.

(** The query log does not change the size of the packets that a client accepts. *)
Lemma logging_chain_limit o :
  Forall keeps_limit (plugin_of (T := T) (Net := Net) (C := C) env <$> logging_chain o).
Proof.
  unfold logging_chain. destruct (opt_queryLog o); [|constructor]. apply Forall_singleton. intros x st msg.
  unfold plugin_of, via, PluginQueryLog_Eval. cbv zeta.
  destruct (ExtractClientIPStrEncrypted _ _ _); [|done]. destruct (Questions msg); [done|].
  destruct (existsb _ _); [done|]. destruct (write_log _ _). simpl.
  destruct (cacheHit st); [done|]. by destruct (returnCode st).
Qed.

(** ** Whole queries *)

Context `{P : Primitives} {U : Type} `{UP : Upstream U}.
Context (proxy : Proxy data) (o : PluginOptions) (cfg : PluginsConfig).
Hypothesis Hproxy : pluginsGlobals proxy = globals env o cfg.


(** ** Blocked names *)

(** The block list has a rule for the name that is active at every reading of the clock. *)
Definition blocked (x : data) (name : bytes) : Prop :=
  exists b reason r, blockedNames (d_block x) = Some b /\ pm_Eval (patternMatcher b) name = Some (reason, r) /\
    forall n, active_now (clk_match (env_clock env n 0)) (mjoin r) = true.

(** The allow list has no rule for the name that is active then. *)
Definition not_allowed (x : data) (name : bytes) : Prop :=
  forall reason r, pm_Eval (al_patternMatcher (d_allow x)) name = Some (reason, r) ->
    forall n, active_now (clk_match (env_clock env n 0)) (mjoin r) = false.

(** The parts of the data that the plugins before the block list leave alone. *)
Definition same_lists (x x' : data) : Prop :=
  d_block x' = d_block x /\ d_forward x' = d_forward x /\
  al_patternMatcher (d_allow x') = al_patternMatcher (d_allow x).

(** A plugin that either decides a query with a response of its own or leaves the name and
    the exemption of the query as they are. *)
Definition quiet (p : Plugin data) : Prop := forall x st msg err x' st' msg',
  p x st msg = (err, x', st', msg') -> not_allowed x (qName st) ->
  same_lists x x' /\ qName st' = qName st /\ whitelisted st' = whitelisted st /\
  (err = None -> action st' = action st \/ (action st' = PluginsActionSynth /\ synthResponse st' <> None)).

Definition before_block : list plugin_name := [CaptivePortal; QueryMeta; AllowName; Firefox; ECS].

Lemma AllowName_quiet : quiet (plugin_of env AllowName).
Proof.
  intros x st msg err x' st' msg' H Hn. cbn [plugin_of] in H. unfold via, PluginAllowName_Eval in H.
  destruct (pm_Eval _ _) as [[reason r]|] eqn:E; [|by simplify_eq/=; split_and!; auto].
  rewrite (Hn _ _ E) in H. simplify_eq/=. split_and!; auto. by split_and!.
Qed.

Lemma ECS_quiet : quiet (plugin_of env ECS).
Proof.
  intros x st msg err x' st' msg' H Hn. cbn [plugin_of] in H. unfold via in H.
  assert ((PluginECS_Eval (env_choice env (d_evals x)) (d_ecs x) st msg).1.2 = st) as Hst.
  { unfold PluginECS_Eval. by repeat case_match. }
  destruct (PluginECS_Eval _ _ _ _) as [[[e a] st1] m1]. simplify_eq/=. split_and!; auto. by split_and!.
Qed.

Lemma before_block_quiet : Forall (fun n => quiet (plugin_of env n)) before_block.
Proof.
  unfold before_block. repeat (apply Forall_cons_2; [first [exact AllowName_quiet | exact ECS_quiet |
    intros x st msg err x' st' msg' H Hn; cbn [plugin_of] in H;
    unfold via, PluginCaptivePortal_Eval, PluginQueryMeta_Eval, PluginFirefox_Eval in H; plugin_cases;
    split_and!; auto; by split_and!]|]). constructor.
Qed.

(** A plugin that rejects the blocked queries that are not exempted. *)
Definition rejects_blocked (p : Plugin data) : Prop := forall x st msg err x' st' msg',
  p x st msg = (err, x', st', msg') -> blocked x (qName st) -> whitelisted st = false ->
  d_forward x' = d_forward x /\ (err = None -> action st' = PluginsActionReject).

Lemma BlockName_rejects : rejects_blocked (plugin_of env BlockName).
Proof.
  intros x st msg err x' st' msg' H (b & reason & r & Hb & Hm & Ha) Hw. cbn [plugin_of] in H. unfold via, PluginBlockName_Eval, check in H.
  rewrite Hw, Hb, Hm, Ha in H. cbn [negb] in H. plugin_cases; done.
Qed.

Lemma with_refusal_reject st msg : action st = PluginsActionReject ->
  exists m, with_refusal cfg st msg = set_synthResponse (Some m) st.
Proof. intros Ha. unfold with_refusal. rewrite bool_decide_true by done. eauto. Qed.

Lemma with_refusal_other st msg : action st <> PluginsActionReject -> with_refusal cfg st msg = st.
Proof. intros Ha. unfold with_refusal. by rewrite bool_decide_false. Qed.

Lemma run_blocked (plugins rest : list (Plugin data)) (block : Plugin data) (w : World U data) st msg err w' st' msg' :
  Forall quiet plugins -> rejects_blocked block -> action st = PluginsActionContinue -> whitelisted st = false ->
  blocked (pdata w) (qName st) -> not_allowed (pdata w) (qName st) ->
  run_plugins (fun m => set_questionMsg (Some m)) cfg (lift_plugin <$> (plugins ++ block :: rest)) w st msg
    = (err, w', st', msg') ->
  decided err st' /\ d_forward (pdata w') = d_forward (pdata w).
Proof.
  intros Hq Hblock. revert w st msg. induction Hq as [|p plugins Hp Hq IH]; intros w st msg Ha Hw Hb Hn; csimpl.
  - destruct (lift_plugin _ _ _ _) as [[[e w1] st1] m1] eqn:E. unfold lift_plugin in E.
    destruct (block (pdata w) st msg) as [[[e' x1] st1'] m1'] eqn:E1. simplify_eq/=.
    destruct (Hblock _ _ _ _ _ _ _ E1 Hb Hw) as [Hf Hr]. destruct e as [e|].
    { intros [= <- <- <- <-]. split; [by left|exact Hf]. }
    specialize (Hr eq_refl). destruct (with_refusal_reject (set_questionMsg (Some m1) st1) m1 Hr) as [m ->].
    rewrite bool_decide_false by (cbn; congruence). intros [= <- <- <- <-].
    split; [|exact Hf]. right; right; left. exact Hr.
  - destruct (lift_plugin _ _ _ _) as [[[e w1] st1] m1] eqn:E. unfold lift_plugin in E.
    destruct (p (pdata w) st msg) as [[[e' x1] st1'] m1'] eqn:E1. simplify_eq/=.
    destruct (Hp _ _ _ _ _ _ _ E1 Hn) as ((H1 & H2 & H3) & Hname & Hwl & Hact). destruct e as [e|].
    { intros [= <- <- <- <-]. split; [by left|exact H2]. }
    destruct (Hact eq_refl) as [Hsame|[Hsyn Hs]].
    + rewrite with_refusal_other by (cbn; congruence). rewrite bool_decide_true by (cbn; congruence).
      intros Hrun. apply IH in Hrun; cbn; [|congruence..| |].
      * destruct Hrun as [Hd Hf]. split; [done|]. cbn in Hf. congruence.
      * unfold blocked. cbn. rewrite H1, Hname. exact Hb.
      * unfold not_allowed. cbn. rewrite H3, Hname. exact Hn.
    + rewrite with_refusal_other by (cbn; congruence). rewrite bool_decide_false by (cbn; congruence).
      intros [= <- <- <- <-].
      split; [|exact H2]. right; right; right. by split.
Qed.

Lemma query_chain_split : opt_blockName o = true -> exists pre rest,
  query_chain o = pre ++ BlockName :: rest /\ forall n, n ∈ pre -> n ∈ before_block.
Proof.
  intros Ho. exists (when (opt_captivePortal o) CaptivePortal ++ when (opt_queryMeta o) QueryMeta
    ++ when (opt_allowName o) AllowName ++ [Firefox] ++ when (opt_ecs o) ECS).
  eexists. split.
  - unfold query_chain. rewrite Ho. rewrite <-!app_assoc. reflexivity.
  - intros n Hn. rewrite !elem_of_app, list_elem_of_singleton in Hn. unfold before_block.
    destruct_or! Hn; try apply when_elem in Hn; subst n; set_solver.
Qed.

(** C13: a blocked name does not leave the machine.  When the block list has an active rule
    for the name of a query and the allow list has none, no transport is used, no server is
    chosen, and nothing is forwarded, whatever else is enabled. *)
Theorem blocked_stay_local cp p query addr clientPc start onlyCached w q0 q name :
  (forall m b, Pack m = Some b -> b <> []) -> opt_blockName o = true ->
  Unpack query = Some q0 -> Questions q0 = [q] -> NormalizeQName (q_Name q) = Ok name ->
  blocked (pdata w) name -> not_allowed (pdata w) name ->
  let w' := (processIncomingQuery proxy cp p query addr clientPc start onlyCached w).2 in
  up w' = up w /\ servers w' = servers w /\
  sent (d_forward (pdata (applyQueryPlugins proxy query (start_world proxy cp p addr start w)).2)) =
    sent (d_forward (pdata w)).
Proof.
  intros Hpack Ho Hu Hq0 Hname Hb Hn w'.
  assert (Hd : let r := applyQueryPlugins proxy query (start_world proxy cp p addr start w) in
    decided r.1.1 (ps r.2) /\ d_forward (pdata r.2) = d_forward (pdata w)).
  { unfold applyQueryPlugins, ApplyQueryPlugins. rewrite Hu, Hq0, Hname, Hproxy.
    destruct (query_chain_split Ho) as (pre & rest & Hc & Hpre).
    cbn [lift_globals queryPlugins config globals]. rewrite Hc, fmap_app. csimpl.
    set (st := set_questionMsg _ _).
    destruct (run_plugins _ _ _ _ _ _) as [[[err w1] st1] m1] eqn:E.
    apply (run_blocked (plugin_of env <$> pre) (plugin_of env <$> rest) (plugin_of env BlockName)) in E as [Hd Hf];
      [|
       |exact BlockName_rejects|done..].
    2: { apply Forall_fmap, Forall_forall. intros n Hin.
         eapply (proj1 (Forall_forall _ _) before_block_quiet), Hpre, Hin. }
    destruct err as [e|]; [by split|]. destruct (Pack m1) as [p2|]; [|split; [by left|done]].
    assert (action st1 <> PluginsActionContinue) as Hac
      by (destruct Hd as [?|[?|[?|[? _]]]]; congruence).
    rewrite bool_decide_false by done. by split. }
  destruct Hd as [Hd Hf]. destruct (chains_respect o) as [H1 _].
  destruct (decided_stay_local proxy cp p query addr clientPc start onlyCached w Hpack) as [Hup Hsv].
  - by rewrite Hproxy.
  - exact Hd.
  - split_and!; [done|done|]. by rewrite Hf.
Qed.
End pipeline.

(** ** An example *)

Definition ex_query : Msg := NewMsg 5 (str "www.example.com.") TypeA.
Definition ex_query_edns : Msg := (PluginGetSetPayloadSize_Eval tt (NewPluginsState sample_ttls client_udp None udp Second) ex_query).2.
Definition ex_response : Msg := set_header (set_Response true) ex_query.
Definition ex_refused : Msg := RefusedResponseFromMessage ex_query false None None (rejectTTL sample_client_state).
Definition ex_messages : DnsLib := few_messages [ex_query; ex_query_edns; ex_response; ex_refused].

Definition ex_options (block : bool) : PluginOptions :=
  {| opt_captivePortal := false; opt_queryMeta := false; opt_allowName := true; opt_ecs := false;
     opt_blockName := block; opt_blockIPv6 := false; opt_cloak := false; opt_cache := false;
     opt_forward := block; opt_blockUnqualified := true; opt_blockUndelegated := false;
     opt_nxLog := false; opt_allowedIP := false; opt_blockIP := false;
     opt_dns64Resolvers := false; opt_dns64Prefixes := false; opt_queryLog := false |}.

Definition ex_config : PluginsConfig :=
  {| refusedCodeInResponses := false; respondWithIPv4 := None; respondWithIPv6 := None |}.

Definition ex_env_plugins : PluginEnv (F := unit) :=
  {| env_clock _ _ := ex_clock; env_time _ _ := Second; env_choice _ := 0%nat; env_resolve _ _ := None;
     env_shuffle l := l; env_trampoline _ s := ([], s); env_quote := id; env_fold _ _ := false;
     env_typeName _ := None; env_hash := id |}.

Notation ex_data_type := (PluginData (T := gmap bytes) (Net := list bytes) (C := gmap bytes CachedResponse) (F := unit)).

Definition ex_other_allow : PluginAllowName (gmap bytes) :=
  (PluginAllowName_Init id ex_weekly None (str "/a") (Some (str "=ftp.example.com")) (fun _ => sample_writer) [] []).1.

Definition ex_data : ex_data_type :=
  {| d_portal := ∅; d_meta := ex_a_record; d_allow := ex_other_allow; d_ecs := []; d_block := ex_block;
     d_cloak := {| cl_active := {| cl_matcher := NewPatternMatcher; cl_names := ∅ |}; cl_ttl := 600;
                   cl_createPTR := false; cl_configFile := []; cl_staging := None |};
     d_cache := None; d_forward := ex_forward_world; d_undelegated := ∅;
     d_nx := {| nx_logger := None; nx_format := []; nx_ipCryptConfig := None |};
     d_allowedIP := ex_ip_plugin; d_blockedIP := ex_ip_plugin; d_dns64 := ex_dns64_world;
     d_querylog := {| ql_logger := None; ql_format := []; ignoredQtypes := []; ql_ipCryptConfig := None |};
     d_evals := 0 |}.

Definition ex_globals (block : bool) : PluginsGlobals ex_data_type :=
  globals (D := ex_messages) (L := reversing_lib) (NT := host_table) (PS := gset_prefixes) (FE := ex_env)
    ex_env_plugins (ex_options block) ex_config.

Definition ex_proxy (block : bool) : Proxy ex_data_type := {|
  pluginsGlobals := ex_globals block;
  ttls := sample_ttls;
  clientKey := {| proxySecretKey := []; proxyPublicKey := [] |};
  readings := fun n => (10 + Z.of_nat n) * Second;
  choices := fun _ => {| intn := fun _ => 0; wp2_first := 0; wp2_second := 1; wp2_tie := PrimFloat.zero;
                         mds_draws := sample_draws |};
  pick_target := fun _ _ => 0%nat;
  random_key := fun _ => [];
  updateMetrics := fun _ x => x;
|}.

Definition ex_world : World unit ex_data_type := {|
  up := tt; servers := sample_servers LBStrategyWP2; pdata := ex_data;
  estimator := NewQuestionSizeEstimator; outbox := []; ps := sample_state; selected := None; ticks := 0;
|}.

Definition ex_run (block : bool) : bytes * World unit ex_data_type :=
  @processIncomingQuery ex_messages toy unit (answering (sample_packet 2)) ex_data_type (ex_proxy block)
    client_udp udp (sample_packet 0) None true Second false ex_world.


(** With it, the client gets a refusal and nothing is sent. *)
Lemma blocked_stay_local_witness :
  (ex_run true).1 = sample_packet 3 /\ up (ex_run true).2 = tt /\ servers (ex_run true).2 = servers ex_world.
Proof.
  split; [vm_compute; reflexivity|].
  destruct (blocked_stay_local (D := ex_messages) (L := reversing_lib) (NT := host_table) (PS := gset_prefixes)
    (FE := ex_env) (P := toy) (UP := answering (sample_packet 2)) ex_env_plugins (ex_proxy true)
    (ex_options true) ex_config eq_refl client_udp udp (sample_packet 0) None true Second false ex_world
    ex_query {| q_Name := str "www.example.com."; q_Type := TypeA; q_Class := ClassINET |} (str "www.example.com"))
    as (H1 & H2 & _).
  - intros m b. cbn [Pack ex_messages few_messages].
    destruct (list_find _ _) as [[i m']|]; [|done]. by intros [= <-].
  - reflexivity.
  - reflexivity.
  - vm_compute. reflexivity.
  - vm_compute. reflexivity.
  - eexists _, _, _. split; [vm_compute; reflexivity|]. split; [vm_compute; reflexivity|].
    intros n. vm_compute. reflexivity.
  - intros reason r H n. vm_compute in H. discriminate H || (injection H as <- <-; vm_compute; reflexivity).
  - exact (conj H1 H2).
Defined.
