(* ===== verification/HotReload.v ===== *)
(** * Hot reloading (src/dnscrypt-proxy/hot_reload.go, signal_posix.go)

    Which plugins are reloaded, and when: a watcher reloads the plugin whose file has changed,
    and a signal reloads all of them.  The second part takes the reload of the blocked names
    apart into its accesses to shared variables, since the watcher and the handler of the
    signal are goroutines of their own.

    With one goroutine that reloads, queries never see a part of a list; with two of them the
    list can be lost.  The watcher and the signal make the rules follow the files. *)

From S2P Require Import Prelude GoStrings NetIP Common Crypto Dns DnsUtils Metrics ServerTypes Servers Plugins PrefixTree.
From S2P Require Import PatternMatcher TimeRanges Cache Query RuleLog Reload NameLists NameListsProps IPLists IPListsProps.
From S2P Require Import Cloak CloakProps QueryPlugins Clients Forward ForwardProps Dns64 Pipeline.

(** ** The plugins *)

Section hot.
Context {T : Type -> Type} `{PT : PrefixTree T} `{L : IPCryptLib}.
Context {Net : Type} `{NT : NetTable Net} `{PS : PrefixSet} {C F : Type}.
Context (lower : bytes -> bytes) (range range' : gmap bytes CloakedName -> list (bytes * CloakedName)).

Local Notation Data := (PluginData (T := T) (Net := Net) (C := C) (F := F)).

(** A reload of a plugin on its part of the data. *)
Definition reload_via {A} (get : Data -> A) (set : A -> Data -> Data) (reload : FS -> nat -> op A) : FS -> nat -> op Data :=
  fun fs t x => let '(a, err) := reload fs t (get x) in (set a x, err).

Definition set_fw_plugin (p : PluginForward) (w : FwdWorld F) : FwdWorld F :=
  {| fw_plugin := p; fw_env := fw_env w; Forward.sent := Forward.sent w |}.

(** [Plugin.Reload]: nothing for the plugins without a file of rules. *)
Definition plugin_Reload (name : plugin_name) : FS -> nat -> op Data :=
  match name with
  | AllowName => reload_via d_allow set_d_allow (Reload (ReloadablePlugin := PluginAllowName_reloadable lower))
  | BlockName => reload_via d_block set_d_block (Reload (ReloadablePlugin := PluginBlockName_reloadable lower))
  | Plugins.Cloak => reload_via d_cloak set_d_cloak (Reload (ReloadablePlugin := PluginCloak_reloadable lower range range'))
  | Plugins.Forward =>
      reload_via (fun x => fw_plugin (d_forward x)) (fun p x => set_d_forward (set_fw_plugin p (d_forward x)) x)
        (Reload (ReloadablePlugin := PluginForward_reloadable lower))
  | AllowedIP => reload_via d_allowedIP set_d_allowedIP (Reload (ReloadablePlugin := PluginAllowedIP_reloadable lower))
  | BlockIP => reload_via d_blockedIP set_d_blockedIP (Reload (ReloadablePlugin := PluginIP_reloadable lower))
  | _ => fun _ _ x => (x, None)
  end.

(** [GetConfigPath], for the plugins that are a [ReloadablePlugin]. *)
Definition plugin_GetConfigPath (name : plugin_name) (x : Data) : option bytes :=
  match name with
  | AllowName => Some (al_configFile (d_allow x))
  | BlockName => Some (configFile (d_block x))
  | Plugins.Cloak => Some (cl_configFile (d_cloak x))
  | Plugins.Forward => Some (fw_configFile (fw_plugin (d_forward x)))
  | AllowedIP => Some (ip_configFile (d_allowedIP x))
  | BlockIP => Some (ip_configFile (d_blockedIP x))
  | _ => None
  end.

(** ** Start *)

Context (sha256 : bytes -> bytes) (Abs : bytes -> option bytes).

(** What is set up: the plugins that the signal reloads, and the watcher. *)
Record HotReloading := {
  signal_plugins : option (list plugin_name);
  watcher : option (ConfigWatcher Data);
}.

(** The files of the plugins; those that cannot be watched are only reported. *)
Fixpoint watch_plugins (fs : FS) (t : nat) (watch : bytes -> bool) (plugins : list plugin_name) (x : Data)
    (cw : ConfigWatcher Data) : ConfigWatcher Data :=
  match plugins with
  | [] => cw
  | name :: plugins' =>
      match plugin_GetConfigPath name x with
      | Some configPath =>
          if (0 <? length configPath)%nat then
            watch_plugins fs (t + 2) watch plugins' x
              (AddFile sha256 Abs fs t watch configPath (Some (plugin_Reload name)) cw).1
          else watch_plugins fs t watch plugins' x cw
      | None => watch_plugins fs t watch plugins' x cw
      end
  end.

Definition InitHotReload (enableHotReload HasSIGHUP : bool) (fs : FS) (t : nat) (watch : bytes -> bool) (o : PluginOptions)
    (x : Data) : HotReloading :=
  if negb enableHotReload && negb HasSIGHUP then {| signal_plugins := None; watcher := None |}
  else
    let plugins := query_chain o ++ response_chain o in
    let signals := if HasSIGHUP then Some plugins else None in
    if negb enableHotReload then {| signal_plugins := signals; watcher := None |}
    else {| signal_plugins := signals; watcher := Some (watch_plugins fs t watch plugins x {| watchedFiles := ∅ |}) |}.

(** The handler of the signal: every plugin is reloaded, whatever errors the others have.
    [None]: a reload has panicked, and the process has ended. *)
Fixpoint reload_plugins (fs : FS) (t : nat) (plugins : list plugin_name) (x : Data) : option Data :=
  match plugins with
  | [] => Some x
  | name :: plugins' =>
      match plugin_Reload name fs t x with
      | (_, Some ReloadPanic) => None
      | (x, _) => reload_plugins fs (t + 2) plugins' x
      end
  end.

Definition on_SIGHUP (fs : FS) (t : nat) (h : HotReloading) (x : Data) : option Data :=
  match signal_plugins h with Some plugins => reload_plugins fs t plugins x | None => Some x end.

(** A notification about a file. *)
Definition on_modified (fs : FS) (t : nat) (path : bytes) (h : HotReloading) (x : Data) : option (HotReloading * Data) :=
  match watcher h with
  | None => Some (h, x)
  | Some cw =>
      match handleModifyEvent sha256 Abs fs t path cw x with
      | None => None
      | Some (cw, x) => Some ({| signal_plugins := signal_plugins h; watcher := Some cw |}, x)
      end
  end.
End hot.

(** ** Reloads of the blocked names, one access at a time *)

Section concurrent.
Context {T : Type -> Type} `{PT : PrefixTree T} (lower : bytes -> bytes).

(** The shared variables.  The two pointers are indices into the list of the lists of names
    that were ever made. *)
Record Shared := {
  sh_heap : list (BlockedNames T);
  sh_blockedNames : option nat;
  sh_stagingBlocked : option nat;
}.

(** Where a goroutine is in [Reload]. *)
Inductive reload_pc :=
  | Idle
  | PRead (lines : bytes)                                      (* the file has been read *)
  | PCurrent (lines : bytes) (current : option nat)            (* currentBlockedNames is set *)
  | PStaged (lines : bytes)                                    (* plugin.stagingBlocked is set *)
  | PFill (lines : list bytes) (lineNo : Z) (obj : option nat) (* in [loadRules] *)
  | AStart                                                     (* before [ApplyReload] *)
  | AChecked                                                   (* the staged list is not nil *)
  | AClear                                                     (* blockedNames is set *)
  | CCancel.                                                   (* before [CancelReload] *)

Definition set_cell (l : nat) (b : BlockedNames T) (sh : Shared) : Shared :=
  {| sh_heap := <[l := b]> (sh_heap sh); sh_blockedNames := sh_blockedNames sh; sh_stagingBlocked := sh_stagingBlocked sh |}.
Definition set_stagingBlocked (p : option nat) (sh : Shared) : Shared :=
  {| sh_heap := sh_heap sh; sh_blockedNames := sh_blockedNames sh; sh_stagingBlocked := p |}.

Definition new_staging (current : BlockedNames T) : BlockedNames T :=
  {| allWeeklyRanges := allWeeklyRanges current; patternMatcher := NewPatternMatcher; logger := logger current;
     format := format current; ipCryptConfig := ipCryptConfig current |}.

(** The next access of a goroutine; [read] is what reading the file gives, and the result is
    [None] when the program panics. *)
Definition thread_step (read : option bytes) (sh : Shared) (pc : reload_pc) : option (Shared * reload_pc) :=
  match pc with
  | Idle => Some (sh, match read with Some lines => PRead lines | None => CCancel end)
  | PRead lines => Some (sh, PCurrent lines (sh_blockedNames sh))
  | PCurrent lines None => Some (sh, CCancel)
  | PCurrent lines (Some l) =>
      current ← sh_heap sh !! l;
      Some ({| sh_heap := sh_heap sh ++ [new_staging current]; sh_blockedNames := sh_blockedNames sh;
               sh_stagingBlocked := Some (length (sh_heap sh)) |}, PStaged lines)
  | PStaged lines => Some (sh, PFill (Split lines 10) 0 (sh_stagingBlocked sh))
  | PFill [] _ _ => Some (sh, AStart)
  | PFill (line :: lines) n obj =>
      let line := TrimAndStripInlineComments line in
      if len line =? 0 then Some (sh, PFill lines (n + 1) obj)
      else
        l ← obj; b ← sh_heap sh !! l;
        Some (set_cell l (with_matcher b (load_rule lower (allWeeklyRanges b) line n (patternMatcher b)).1) sh, PFill lines (n + 1) obj)
  | AStart => Some (sh, match sh_stagingBlocked sh with None => Idle | Some _ => AChecked end)
  | AChecked =>
      Some ({| sh_heap := sh_heap sh; sh_blockedNames := sh_stagingBlocked sh; sh_stagingBlocked := sh_stagingBlocked sh |}, AClear)
  | AClear => Some (set_stagingBlocked None sh, Idle)
  | CCancel => Some (set_stagingBlocked None sh, Idle)
  end.

(** The goroutines that reload. *)
Record Machine := { shared : Shared; threads : list reload_pc; panicked : bool }.

Definition machine_step (i : nat) (read : option bytes) (m : Machine) : Machine :=
  match threads m !! i with
  | None => m
  | Some pc =>
      match thread_step read (shared m) pc with
      | Some (sh, pc) => {| shared := sh; threads := <[i := pc]> (threads m); panicked := panicked m |}
      | None => {| shared := shared m; threads := threads m; panicked := true |}
      end
  end.

(** What reading the file of the rules may give. *)
Definition file_text (fs : FS) (path : bytes) (read : option bytes) : Prop :=
  exists t, read = match SafeReadTextFile fs t path with Ok lines => Some lines | Err _ => None end.

Inductive reload_step (fs : FS) (path : bytes) : Machine -> Machine -> Prop :=
  | StepThread i read m : file_text fs path read -> panicked m = false -> reload_step fs path m (machine_step i read m).

(** [n] goroutines that may reload the list [b]. *)
Definition reloaders (n : nat) (b : BlockedNames T) : Machine :=
  {| shared := {| sh_heap := [b]; sh_blockedNames := Some 0%nat; sh_stagingBlocked := None |};
     threads := replicate n Idle; panicked := false |}.
End concurrent.

(** ** Properties *)

(** ** One goroutine *)

Section single.
Context {T : Type -> Type} `{PT : PrefixTree T} (lower : bytes -> bytes) (fs : FS) (path : bytes) (b0 : BlockedNames T).

Local Notation step := (reload_step (T := T) lower fs path).

(** The list for a text that was in the file. *)
Definition list_of (lines : bytes) : BlockedNames T :=
  with_matcher b0 (add_lines lower (file_rules (allWeeklyRanges b0) lines) NewPatternMatcher).
Definition read_from_file (lines : bytes) : Prop := exists t, SafeReadTextFile fs t path = Ok lines.
Definition complete (b : BlockedNames T) : Prop := b = b0 \/ exists lines, read_from_file lines /\ b = list_of lines.

Lemma new_staging_complete b : complete b -> new_staging b = with_matcher b0 NewPatternMatcher.
Proof. intros [->|(lines & _ & ->)]; done. Qed.

(** The list that is filled will be the one for the text. *)
Definition filling (lines : bytes) (rest : list bytes) (n : Z) (b : BlockedNames T) : Prop :=
  exists m, b = with_matcher b0 m /\
    process_lines (E := reload_error) (load_rule lower (allWeeklyRanges b0)) rest n m =
    (add_lines lower (file_rules (allWeeklyRanges b0) lines) NewPatternMatcher, None).

Definition staged (sh : Shared) (Q : BlockedNames T -> Prop) : Prop :=
  exists l b, sh_stagingBlocked sh = Some l /\ sh_blockedNames sh <> Some l /\ sh_heap sh !! l = Some b /\ Q b.

Definition pc_ok (sh : Shared) (pc : reload_pc) : Prop :=
  match pc with
  | Idle | CCancel => sh_stagingBlocked sh = None
  | PRead lines => sh_stagingBlocked sh = None /\ read_from_file lines
  | PCurrent lines current => sh_stagingBlocked sh = None /\ read_from_file lines /\ current = sh_blockedNames sh
  | PStaged lines => read_from_file lines /\ staged sh (filling lines (Split lines 10) 0)
  | PFill rest n obj => exists lines, read_from_file lines /\ staged sh (filling lines rest n) /\ obj = sh_stagingBlocked sh
  | AStart | AChecked => staged sh complete
  | AClear => True
  end.

Definition single_ok (m : Machine) : Prop :=
  panicked m = false /\ exists pc l b, threads m = [pc] /\ sh_blockedNames (shared m) = Some l /\
    sh_heap (shared m) !! l = Some b /\ complete b /\ pc_ok (shared m) pc.

Lemma filling_start lines : filling lines (Split lines 10) 0 (with_matcher b0 NewPatternMatcher).
Proof. exists NewPatternMatcher. split; [done|]. apply (loadPatterns_lines lower). Qed.

Lemma filling_done lines n b : read_from_file lines -> filling lines [] n b -> complete b.
Proof. intros Hr (m & -> & [= ->]). right. by exists lines. Qed.

Lemma filling_skip lines line rest n b : len (TrimAndStripInlineComments line) =? 0 = true ->
  filling lines (line :: rest) n b -> filling lines rest (n + 1) b.
Proof. intros E (m & -> & Hm). cbn [process_lines] in Hm. rewrite E in Hm. by exists m. Qed.

Lemma filling_add lines line rest n b : len (TrimAndStripInlineComments line) =? 0 = false ->
  filling lines (line :: rest) n b ->
  filling lines rest (n + 1)
    (with_matcher b (load_rule lower (allWeeklyRanges b) (TrimAndStripInlineComments line) n (patternMatcher b)).1).
Proof.
  intros E (m & -> & Hm). cbn [process_lines] in Hm. rewrite E in Hm. cbn [allWeeklyRanges with_matcher patternMatcher].
  destruct (load_rule _ _ _ _ _) as [m' [e|]] eqn:El; [done|]. by exists m'.
Qed.

(** A step keeps the list in use, and does not touch it. *)
Lemma thread_step_ok read sh pc l b : file_text fs path read -> sh_blockedNames sh = Some l -> sh_heap sh !! l = Some b ->
  complete b -> pc_ok sh pc ->
  exists sh' pc' l' b', thread_step lower read sh pc = Some (sh', pc') /\ sh_blockedNames sh' = Some l' /\
    sh_heap sh' !! l' = Some b' /\ complete b' /\ pc_ok sh' pc'.
Proof.
  intros Hread Ha Hh Hc Hpc. destruct pc; cbn [thread_step pc_ok] in *.
  - destruct Hread as [t ->]. eexists _, _, l, b. split; [reflexivity|]. split_and!; [done..|].
    destruct (SafeReadTextFile fs t path) as [lines|] eqn:E; [|done]. split; [done|by exists t].
  - destruct Hpc as [H1 H2]. eexists _, _, l, b. split; [reflexivity|]. by split_and!.
  - destruct Hpc as (H1 & H2 & ->). rewrite Ha. cbn. rewrite Hh. cbn. eexists _, _, l, b. split; [reflexivity|]. cbn.
    pose proof (lookup_lt_Some _ _ _ Hh) as Hl. split_and!; [done|by rewrite lookup_app_l|done|done|].
    exists (length (sh_heap sh)), (new_staging b). cbn. split_and!; [done|intros [= E]; lia| |].
    + rewrite lookup_app_r, Nat.sub_diag by lia. done.
    + rewrite new_staging_complete by done. apply filling_start.
  - destruct Hpc as [H1 H2]. eexists _, _, l, b. split; [reflexivity|]. split_and!; [done..|]. by exists lines.
  - destruct Hpc as (text & Hr & (l1 & b1 & H1 & H2 & H3 & H4) & ->). destruct lines as [|line rest].
    + eexists _, _, l, b. split; [reflexivity|]. split_and!; [done..|]. exists l1, b1. split_and!; [done..|].
      by eapply filling_done.
    + destruct (len (TrimAndStripInlineComments line) =? 0) eqn:E.
      * eexists _, _, l, b. split; [reflexivity|]. split_and!; [done..|]. exists text. split_and!; [done| |done].
        exists l1, b1. split_and!; [done..|]. by eapply filling_skip.
      * rewrite H1. cbn. rewrite H3. cbn. eexists _, _, l, b. split; [reflexivity|]. cbn.
        assert (l1 <> l) as Hne by congruence. split_and!; [done|by rewrite list_lookup_insert_ne|done|].
        exists text. split_and!; [done| |done]. eexists l1, _. cbn. split_and!; [done|done| |by eapply filling_add].
        apply list_lookup_insert_eq. by eapply lookup_lt_Some.
  - destruct Hpc as (l1 & b1 & H1 & H2 & H3 & H4). rewrite H1. eexists _, _, l, b. split; [reflexivity|].
    split_and!; [done..|]. by exists l1, b1.
  - destruct Hpc as (l1 & b1 & H1 & H2 & H3 & H4). eexists _, _, l1, b1. split; [reflexivity|]. by split_and!.
  - eexists _, _, l, b. split; [reflexivity|]. by split_and!.
  - eexists _, _, l, b. split; [reflexivity|]. by split_and!.
Qed.

Lemma step_ok m m' : step m m' -> single_ok m -> single_ok m'.
Proof.
  intros [i read m1 Hread _] (Hp & pc & l & b & Ht & Ha & Hh & Hc & Hpc). unfold machine_step. rewrite Ht.
  destruct i as [|i]; [|by eexists; [|exists pc, l, b]]. cbn.
  destruct (thread_step_ok read (shared m1) pc l b) as (sh & pc' & l' & b' & -> & H); [done..|].
  split; [done|]. exists pc', l', b'. cbn. by destruct H as (? & ? & ? & ?).
Qed.

Lemma reloaders_ok : single_ok (reloaders 1 b0).
Proof. split; [done|]. exists Idle, 0%nat, b0. split_and!; try done. by left. Qed.

Lemma steps_ok m : rtc step (reloaders 1 b0) m -> single_ok m.
Proof.
  intros H. pose proof reloaders_ok as H0. induction H as [|m1 m2 m3 H1 _ IH]; [done|]. apply IH. by eapply step_ok.
Qed.

(** The list at [l] is not the one that is filled. *)
Definition settled (m : Machine (T := T)) (l : nat) (b : BlockedNames T) : Prop :=
  sh_heap (shared m) !! l = Some b /\ (sh_stagingBlocked (shared m) <> Some l \/ threads m = [AClear]).

Lemma thread_step_settled read sh pc sh' pc' l b : pc_ok sh pc -> thread_step lower read sh pc = Some (sh', pc') ->
  sh_heap sh !! l = Some b -> sh_stagingBlocked sh <> Some l \/ pc = AClear ->
  sh_heap sh' !! l = Some b /\ (sh_stagingBlocked sh' <> Some l \/ pc' = AClear).
Proof.
  intros Hpc E Hh Hs. pose proof (lookup_lt_Some _ _ _ Hh) as Hl.
  destruct pc; cbn [thread_step pc_ok] in *; try (injection E as <- <-; naive_solver).
  - destruct current as [l1|]; [|injection E as <- <-; naive_solver].
    destruct (sh_heap sh !! l1); [|done]. injection E as <- <-. cbn. split; [by rewrite lookup_app_l|].
    left. intros [= El]. lia.
  - destruct Hpc as (text & _ & (l1 & b1 & H1 & _ & H3 & _) & ->). destruct Hs as [Hs|]; [|done].
    destruct lines as [|line rest]; [injection E as <- <-; by auto|].
    destruct (_ =? 0); [injection E as <- <-; by auto|]. rewrite H1 in E. cbn in E. rewrite H3 in E. injection E as <- <-.
    cbn. split; [|by left]. rewrite list_lookup_insert_ne; congruence.
Qed.

Lemma step_settled m m' l b : step m m' -> single_ok m -> settled m l b -> settled m' l b.
Proof.
  intros [i read m1 Hread Hp] Hok [Hh Hs]. destruct Hok as (_ & pc & l0 & b1 & Ht & Ha & Hh0 & Hc & Hpc).
  unfold machine_step. rewrite Ht. destruct i as [|i]; [|done]. cbn.
  destruct (thread_step_ok read (shared m1) pc l0 b1) as (sh & pc' & l' & b' & E & _); [done..|]. rewrite E.
  destruct (thread_step_settled _ _ _ _ _ l b Hpc E Hh) as [H1 H2]; [destruct Hs as [|Hs]; [by left|right; congruence]|].
  split; [done|]. cbn. destruct H2 as [| ->]; [by left|by right].
Qed.

Lemma active_settled m l b : single_ok m -> sh_blockedNames (shared m) = Some l -> sh_heap (shared m) !! l = Some b -> settled m l b.
Proof.
  intros (_ & pc & l0 & b1 & Ht & Ha & Hh0 & Hc & Hpc) Hl Hb. split; [done|].
  destruct pc; cbn in Hpc; try (left; naive_solver); [..|by right];
    left; intros E; unfold staged in Hpc; naive_solver.
Qed.

Lemma steps_settled m m' l b : rtc step m m' -> single_ok m -> settled m l b -> settled m' l b.
Proof.
  induction 1 as [|m1 m2 m3 H1 _ IH]; [done|]. intros Hok Hs. apply IH; [by eapply step_ok|by eapply step_settled].
Qed.

(** *** A whole reload *)

(** The machine with one goroutine. *)
Definition alone (sh : Shared (T := T)) (pc : reload_pc) : Machine (T := T) := {| shared := sh; threads := [pc]; panicked := false |}.

Lemma machine_step_alone read sh pc sh' pc' : thread_step lower read sh pc = Some (sh', pc') ->
  machine_step lower 0 read (alone sh pc) = alone sh' pc'.
Proof. intros E. unfold machine_step. cbn [threads alone lookup list_lookup shared]. by rewrite E. Qed.

Lemma fill_run read text rest n sh : staged sh (filling text rest n) ->
  exists sh', Nat.iter (length rest) (machine_step lower 0 read) (alone sh (PFill rest n (sh_stagingBlocked sh))) =
      alone sh' (PFill [] (n + Z.of_nat (length rest)) (sh_stagingBlocked sh)) /\
    staged sh' (filling text [] (n + Z.of_nat (length rest))) /\ sh_stagingBlocked sh' = sh_stagingBlocked sh.
Proof.
  revert n sh. induction rest as [|line rest IH]; intros n sh Hs.
  { exists sh. cbn [length Nat.iter nat_rect]. rewrite Z.add_0_r. by split_and!. }
  assert (exists sh1, machine_step lower 0 read (alone sh (PFill (line :: rest) n (sh_stagingBlocked sh))) =
            alone sh1 (PFill rest (n + 1) (sh_stagingBlocked sh)) /\
          staged sh1 (filling text rest (n + 1)) /\ sh_stagingBlocked sh1 = sh_stagingBlocked sh) as (sh1 & E & Hs1 & Hst).
  { destruct Hs as (l1 & b1 & H1 & H2 & H3 & H4). destruct (len (TrimAndStripInlineComments line) =? 0) eqn:E.
    - exists sh. split_and!; [|eexists l1, b1; split_and!; [done..|by eapply filling_skip]|done].
      apply machine_step_alone. cbn. by rewrite E.
    - eexists. split_and!; [apply machine_step_alone; cbn; rewrite E, H1; cbn; rewrite H3; cbn; reflexivity| |done].
      eexists l1, _. cbn. split_and!; [done|done| |by eapply filling_add].
      apply list_lookup_insert_eq. by eapply lookup_lt_Some. }
  destruct (IH (n + 1) sh1 Hs1) as (sh' & E' & Hs' & Hst'). exists sh'.
  cbn [length]. rewrite Nat.iter_succ_r, E. rewrite <- Hst, E', Nat2Z.inj_succ.
  replace (n + 1 + Z.of_nat (length rest)) with (n + Z.succ (Z.of_nat (length rest))) in * by lia. by rewrite Hst'.
Qed.

(** The number of accesses of a reload. *)
Definition reload_length (lines : bytes) : nat := 4 + (length (Split lines 10) + 4).

Lemma reload_run lines sh : read_from_file lines -> pc_ok sh Idle ->
  (exists l b, sh_blockedNames sh = Some l /\ sh_heap sh !! l = Some b /\ complete b) ->
  exists sh' l, Nat.iter (reload_length lines) (machine_step lower 0 (Some lines)) (alone sh Idle) = alone sh' Idle /\
    sh_blockedNames sh' = Some l /\ sh_heap sh' !! l = Some (list_of lines).
Proof.
  intros Hr Hst (l & b & Ha & Hh & Hc). set (st := machine_step lower 0 (Some lines)).
  set (sh1 := {| sh_heap := sh_heap sh ++ [new_staging b]; sh_blockedNames := Some l;
                 sh_stagingBlocked := Some (length (sh_heap sh)) |}).
  assert (Nat.iter 4 st (alone sh Idle) = alone sh1 (PFill (Split lines 10) 0 (sh_stagingBlocked sh1))) as E1.
  { cbn [Nat.iter nat_rect]. unfold st. rewrite (machine_step_alone _ sh Idle sh (PRead lines)) by done.
    rewrite (machine_step_alone _ sh (PRead lines) sh (PCurrent lines (Some l))) by (cbn; by rewrite Ha).
    rewrite (machine_step_alone _ sh (PCurrent lines (Some l)) sh1 (PStaged lines)) by (cbn; by rewrite Hh, Ha).
    by erewrite machine_step_alone. }
  assert (staged sh1 (filling lines (Split lines 10) 0)) as Hs1.
  { exists (length (sh_heap sh)), (new_staging b). pose proof (lookup_lt_Some _ _ _ Hh). cbn. split_and!; [done|intros [= E]; lia| |].
    - by rewrite lookup_app_r, Nat.sub_diag by lia.
    - rewrite new_staging_complete by done. apply filling_start. }
  destruct (fill_run (Some lines) lines _ _ _ Hs1) as (sh2 & E2 & (l2 & b2 & H1 & H2 & H3 & (m & -> & [= ->])) & Hst2).
  unfold reload_length. rewrite !Nat.iter_add, E1. unfold st. rewrite E2.
  eexists _, l2. cbn [Nat.iter nat_rect].
  rewrite (machine_step_alone _ sh2 _ sh2 AStart) by done.
  rewrite (machine_step_alone _ sh2 AStart sh2 AChecked) by (cbn; by rewrite H1).
  erewrite (machine_step_alone _ sh2 AChecked) by reflexivity. erewrite machine_step_alone by reflexivity.
  by split_and!.
Qed.

(** C40: with one goroutine that reloads, and whatever happens to the file, reloading never
    panics, and a list of blocked names is in use at any time: the one from the start, or the
    whole list for a text that was in the file.  A query that has taken this list sees the
    same rules until it is done.  A reload of a file that can be read ends, after a number of
    steps that the length of the text gives, with the list for this text in use. *)
Theorem reloaded_rules m : rtc step (reloaders 1 b0) m ->
  panicked m = false /\
  (exists l b, sh_blockedNames (shared m) = Some l /\ sh_heap (shared m) !! l = Some b /\
    (b = b0 \/ exists lines t, SafeReadTextFile fs t path = Ok lines /\ b = list_of lines) /\
    forall m', rtc step m m' -> sh_heap (shared m') !! l = Some b) /\
  (forall lines t, threads m = [Idle] -> SafeReadTextFile fs t path = Ok lines ->
    let m' := Nat.iter (reload_length lines) (machine_step lower 0 (Some lines)) m in
    threads m' = [Idle] /\ exists l, sh_blockedNames (shared m') = Some l /\ sh_heap (shared m') !! l = Some (list_of lines)).
Proof.
  intros Hm. pose proof (steps_ok _ Hm) as Hok. destruct (Hok) as (Hp & pc & l & b & Ht & Ha & Hh & Hc & Hpc).
  split; [done|]. split.
  - exists l, b. split_and!; [done..| |].
    + destruct Hc as [|(lines & [t Hr] & Hb)]; [by left|right]. by exists lines, t.
    + intros m' Hm'. by eapply steps_settled, active_settled.
  - intros lines t Hi Hr. assert (m = alone (shared m) Idle) as -> by (unfold alone; destruct m; cbn in *; congruence).
    rewrite Hi in Ht. injection Ht as <-.
    destruct (reload_run lines (shared m)) as (sh' & l' & -> & H1 & H2); [by exists t|done|by exists l, b|].
    split; [done|]. by exists l'.
Qed.
End single.

(** ** Two goroutines *)

Section race.
Context {T : Type -> Type} `{PT : PrefixTree T} (lower : bytes -> bytes) (fs : FS) (path : bytes).

(** No goroutine has, or will get, a list. *)
Definition lost_pc (pc : reload_pc) : Prop :=
  match pc with Idle | PRead _ | PCurrent _ None | AStart | CCancel => True | _ => False end.
Definition lost (m : Machine (T := T)) : Prop :=
  sh_blockedNames (shared m) = None /\ sh_stagingBlocked (shared m) = None /\ Forall lost_pc (threads m).

(** Once the list is lost, no reload ever brings it back. *)
Lemma lost_for_good m m' : rtc (reload_step lower fs path) m m' -> lost m -> lost m'.
Proof.
  induction 1 as [|m1 m2 m3 H1 _ IH]; [done|]. intros Hl. apply IH. revert Hl. destruct H1 as [i read m _ _].
  intros (Ha & Hs & Ht). unfold machine_step. destruct (threads m !! i) as [pc|] eqn:Ei; [|done].
  pose proof (proj1 (Forall_lookup _ _) Ht i pc Ei) as Hpc.
  destruct pc as [|lines|lines [l|]|lines|lines n o| | | |]; cbn in *; try done.
  all: split_and!; cbn; [try done..|]; apply Forall_insert; try done.
  - by destruct read.
  - by rewrite Ha.
  - by rewrite Hs.
Qed.
End race.

(** ** The signal *)

Section signal.
Context {T : Type -> Type} `{PT : PrefixTree T} `{L : IPCryptLib}.
Context {Net : Type} `{NT : NetTable Net} `{PS : PrefixSet} {C F : Type}.
Context (in_cidr : bytes -> bytes -> Prop) `{NL : !NetTableLaws Net in_cidr} `{!PrefixSetLaws PS} `{!PrefixTreeLaws T}.
Context (lower : bytes -> bytes) (range range' : gmap bytes CloakedName -> list (bytes * CloakedName)).

Local Notation Data := (PluginData (T := T) (Net := Net) (C := C) (F := F)).
Local Notation reload_plugins := (reload_plugins (T := T) (Net := Net) (C := C) (F := F) lower range range').
Local Notation plugin_Reload := (plugin_Reload (T := T) (Net := Net) (C := C) (F := F) lower range range').

Lemma when_sublist b p : when b p `sublist_of` [p].
Proof. destruct b; [done|apply sublist_nil_l]. Qed.

(** No plugin is there twice. *)
Lemma chains_NoDup o : NoDup (query_chain o ++ response_chain o).
Proof.
  eapply sublist_NoDup with (l2 := [CaptivePortal] ++ [QueryMeta] ++ [AllowName] ++ [Firefox] ++ [ECS] ++ [BlockName] ++ [BlockIPv6] ++
    [Plugins.Cloak] ++ [GetSetPayloadSize] ++ [Plugins.Cache] ++ [Plugins.Forward] ++ [BlockUnqualified] ++ [BlockUndelegated] ++
    [NxLog] ++ [AllowedIP] ++ [BlockNameResponse] ++ [BlockIP] ++ [DNS64] ++ [CacheResponse]).
  - apply (bool_decide_unpack _). vm_compute. exact I.
  - unfold query_chain, response_chain. rewrite <- !app_assoc.
    repeat (apply sublist_app; [apply when_sublist || done|]). apply when_sublist.
Qed.

(** A step of the handler: the process goes on unless the reload has panicked. *)
Lemma reload_plugins_cons fs t n l x x'' : reload_plugins fs t (n :: l) x = Some x'' <->
  (plugin_Reload n fs t x).2 <> Some ReloadPanic /\ reload_plugins fs (t + 2) l (plugin_Reload n fs t x).1 = Some x''.
Proof.
  cbn [HotReload.reload_plugins]. destruct (plugin_Reload n fs t x) as [x1 [[]|]]; cbn; naive_solver.
Qed.

(** Part of the data that only one of the plugins reloads. *)
Lemma reload_plugins_part {A} (get : Data -> A) name fs l : NoDup l -> name ∈ l ->
  (forall n t x, n <> name -> get (plugin_Reload n fs t x).1 = get x) ->
  forall t x x'', reload_plugins fs t l x = Some x'' ->
  exists t' x', get x' = get x /\ get x'' = get (plugin_Reload name fs t' x').1 /\
    (plugin_Reload name fs t' x').2 <> Some ReloadPanic.
Proof.
  intros Hnd Hin Hother. induction Hnd as [|n l Hn Hnd IH]; [by apply elem_of_nil in Hin|].
  intros t x x'' [Hp Hr]%reload_plugins_cons.
  assert (name ∉ l -> forall t x x'', reload_plugins fs t l x = Some x'' -> get x'' = get x) as Hrest.
  { clear -Hother. induction l as [|n l IH]; intros Hl t x x''; [by intros [= <-]|]. apply not_elem_of_cons in Hl as [H1 H2].
    intros [_ Hr]%reload_plugins_cons. apply IH in Hr; [|done]. by rewrite Hr, Hother. }
  destruct (decide (n = name)) as [->|Hne]; [exists t, x; by rewrite (Hrest Hn _ _ _ Hr)|].
  apply elem_of_cons in Hin as [->|Hin]; [done|]. destruct (IH Hin _ _ _ Hr) as (t' & x' & H1 & H2).
  exists t', x'. by rewrite H1, Hother.
Qed.

Lemma reload_via_get {A} (get : Data -> A) set reload fs t x : (forall a x, get (set a x) = a) ->
  get (reload_via get set reload fs t x).1 = (reload fs t (get x)).1 /\
  (reload_via get set reload fs t x).2 = (reload fs t (get x)).2.
Proof. intros H. unfold reload_via. destruct (reload fs t (get x)). cbn. by rewrite H. Qed.

(** The plugin with this part of the data was reloaded once: the rules are those of the file, or
    an error was reported and they are the ones before; nothing is left staged. *)
Definition reloaded {P R} `{I : ReloadablePlugin P R} (load : P -> bytes -> result reload_error R) (fs : FS) (p p' : P) : Prop :=
  exists t, stagedRules p' = None /\ GetConfigPath p' = GetConfigPath p /\
  match SafeReadTextFile fs t (GetConfigPath p) ≫= load p with
  | Ok r => activeRules p' = Some r
  | Err e => e <> ReloadPanic /\ activeRules p' = activeRules p
  end.

Lemma reload_part {P R} `{I : ReloadablePlugin P R} load `{!ReloadableLaws P R load} (get : Data -> P) set name fs t l x x'' :
  NoDup l -> name ∈ l -> (forall a x, get (set a x) = a) -> plugin_Reload name = reload_via get set Reload ->
  (forall n t x, n <> name -> get (plugin_Reload n fs t x).1 = get x) ->
  reload_plugins fs t l x = Some x'' -> reloaded load fs (get x) (get x'').
Proof.
  intros Hnd Hin Hget E Hother Hr.
  destruct (reload_plugins_part get name fs l Hnd Hin Hother t x x'' Hr) as (t' & x' & H1 & -> & Hnp). rewrite E in *.
  destruct (reload_via_get get set Reload fs t' x' Hget) as [-> H2]. rewrite H2 in Hnp. rewrite H1 in *.
  destruct (Reload fs t' (get x)) as [p' err] eqn:Er. apply (reload_spec load) in Er. cbn in *. exists t'.
  unfold reload_outcome in Er. destruct (SafeReadTextFile _ _ _ ≫= _) as [r|e]; [by destruct Er as (_ & ? & ? & ?)|].
  destruct e; try (destruct Er as (_ & ? & ? & ?); by split_and!). congruence.
Qed.

Ltac other_part := let n := fresh in intros n ? ? ?; destruct n; try done; unfold HotReload.plugin_Reload, reload_via; by destruct (Reload _ _ _).

(** Reading a file of rules does not panic. *)
Lemma SafeReadTextFile_no_panic fs t path : SafeReadTextFile fs t path <> Err ReloadPanic.
Proof. unfold SafeReadTextFile. repeat case_match; done. Qed.

Definition all_or_nothing {P R} `{I : ReloadablePlugin P R} (load : P -> bytes -> result reload_error R) (fs : FS) (t : nat) (p : P) : Prop :=
  let '(p', err) := Reload fs t p in
  stagedRules p' = None /\ GetConfigPath p' = GetConfigPath p /\
  match SafeReadTextFile fs t (GetConfigPath p) ≫= load p with
  | Ok r => err = None /\ activeRules p' = Some r
  | Err e => e <> ReloadPanic /\ err = Some e /\ activeRules p' = activeRules p
  end.

Lemma reload_all_or_nothing {P R} `{I : ReloadablePlugin P R} load `{!ReloadableLaws P R load} fs t p :
  (forall lines, load p lines <> Err ReloadPanic) -> all_or_nothing load fs t p.
Proof.
  intros Hload. unfold all_or_nothing. destruct (Reload fs t p) as [p' err] eqn:Er. apply (reload_spec load) in Er.
  unfold reload_outcome in Er. pose proof (SafeReadTextFile_no_panic fs t (GetConfigPath p)) as Hread.
  destruct (SafeReadTextFile _ _ _) as [lines|e]; cbn [mbind result_bind] in *.
  - specialize (Hload lines). destruct (load p lines) as [r|e]; [by destruct Er as (-> & ? & ? & ?)|].
    destruct e; try done; destruct Er as (-> & ? & ? & ?); by split_and!.
  - destruct e; try done; destruct Er as (-> & ? & ? & ?); by split_and!.
Qed.


(** The signal reloads every plugin that has a file of rules, each from its own file, and
    whatever errors the others report: its rules become those of the file if it is stable and
    loads, and stay the same otherwise.  If a loader panics, the process ends instead. *)
Theorem signal_reloads sha256 Abs enabled fs t0 watch o (x0 : Data) t (x x' : Data) :
  let h := InitHotReload lower range range' sha256 Abs enabled true fs t0 watch o x0 in
  on_SIGHUP lower range range' fs t h x = Some x' ->
  (opt_blockName o = true ->
     reloaded (I := PluginBlockName_reloadable lower) (load_blocked lower) fs (d_block x) (d_block x')) /\
  (opt_allowName o = true ->
     reloaded (I := PluginAllowName_reloadable lower) (load_allowed lower) fs (d_allow x) (d_allow x')) /\
  (opt_cloak o = true ->
     reloaded (I := PluginCloak_reloadable lower range range') (load_cloak lower range range') fs (d_cloak x) (d_cloak x')) /\
  (opt_forward o = true ->
     reloaded (I := PluginForward_reloadable lower) (load_forward lower) fs (fw_plugin (d_forward x)) (fw_plugin (d_forward x'))) /\
  (opt_blockIP o = true ->
     reloaded (I := PluginIP_reloadable lower) (load_ip_rules lower) fs (d_blockedIP x) (d_blockedIP x')) /\
  (opt_allowedIP o = true ->
     reloaded (I := PluginIP_reloadable lower) (load_ip_rules lower) fs (d_allowedIP x) (d_allowedIP x')).
Proof.
  intros h Hx'. assert (reload_plugins fs t (query_chain o ++ response_chain o) x = Some x') as Ex.
  { rewrite <-Hx'. unfold h, InitHotReload. rewrite andb_false_r. by destruct enabled. }
  clear Hx'. pose proof (chains_NoDup o) as Hnd. unfold query_chain, response_chain in *.
  split_and!; intros Ho.
  - eapply (reload_part (I := PluginBlockName_reloadable lower) _ d_block set_d_block BlockName);
      [exact Hnd|clear Ex; rewrite Ho; set_solver|done|done|other_part|exact Ex].
  - eapply (reload_part (I := PluginAllowName_reloadable lower) _ d_allow set_d_allow AllowName);
      [exact Hnd|clear Ex; rewrite Ho; set_solver|done|done|other_part|exact Ex].
  - eapply (reload_part (I := PluginCloak_reloadable lower range range') (ReloadableLaws0 := PluginCloak_laws lower range range') _ d_cloak set_d_cloak
      Plugins.Cloak); [exact Hnd|clear Ex; rewrite Ho; set_solver|done|done|other_part|exact Ex].
  - eapply (reload_part (I := PluginForward_reloadable lower) _ (fun x => fw_plugin (d_forward x))
      (fun p x => set_d_forward (set_fw_plugin p (d_forward x)) x) Plugins.Forward); [exact Hnd|clear Ex; rewrite Ho; set_solver|done|done|other_part|exact Ex].
  - eapply (reload_part (I := PluginIP_reloadable lower) (ReloadableLaws0 := PluginIP_laws lower id in_cidr) _ d_blockedIP set_d_blockedIP BlockIP);
      [exact Hnd|clear Ex; rewrite Ho; set_solver|done|done|other_part|exact Ex].
  - eapply (reload_part (I := PluginAllowedIP_reloadable lower) (ReloadableLaws0 := PluginIP_laws lower id in_cidr) _ d_allowedIP set_d_allowedIP AllowedIP);
      [exact Hnd|clear Ex; rewrite Ho; set_solver|done|done|other_part|exact Ex].
Qed.
End signal.

(** ** Examples *)

Definition ex_base : BlockedNames (gmap bytes) :=
  {| allWeeklyRanges := ex_weekly; patternMatcher := NewPatternMatcher; logger := false; format := []; ipCryptConfig := None |}.
Local Notation ex_names := (list_of id ex_base (ReadTextFile ex_block_file)).
Local Notation ex_text := (ReadTextFile ex_block_file).
Local Notation ex_reload_step := (reload_step (T := gmap bytes) id ex_fs (str "/b")).

(** The steps of the goroutines in the order of [schedule]. *)
Definition run_schedule (schedule : list nat) : Machine (T := gmap bytes) :=
  foldl (fun m i => machine_step id i (Some ex_text) m) (reloaders 2 ex_names) schedule.

Lemma run_schedule_steps schedule : panicked (run_schedule schedule) = false ->
  rtc ex_reload_step (reloaders 2 ex_names) (run_schedule schedule).
Proof.
  induction schedule as [|i schedule IH] using rev_ind; [done|]. unfold run_schedule. rewrite !foldl_app. cbn.
  fold (run_schedule schedule). intros Hp. assert (panicked (run_schedule schedule) = false) as Hp'.
  { revert Hp. unfold machine_step. repeat case_match; by cbn. }
  eapply rtc_r; [by apply IH|]. constructor; [by exists 0%nat|done].
Qed.

(** The two goroutines prepare a list and both check that there is one; the first one installs
    it and clears the pointer, and the second one installs the pointer that is now nil. *)
Definition ex_lost_schedule : list nat := (replicate 8 0 ++ replicate 8 1 ++ [0; 1; 1; 1; 0; 0])%nat.

Example blocked_names_lost : exists m, rtc ex_reload_step (reloaders 2 ex_names) m /\ lost m /\ panicked m = false /\
  forall m', rtc ex_reload_step m m' -> sh_blockedNames (shared m') = None.
Proof.
  exists (run_schedule ex_lost_schedule). assert (lost (run_schedule ex_lost_schedule)) as Hl.
  { split_and!; vm_compute; [done..|]. by repeat constructor. }
  split_and!; [|done|by vm_compute|intros m' Hm; by destruct (lost_for_good _ _ _ _ _ Hm Hl)].
  apply run_schedule_steps. by vm_compute.
Qed.

(** One goroutine installs the list that the other one has just started to fill. *)
Definition ex_partial_schedule : list nat := (replicate 8 0 ++ replicate 3 1 ++ [0; 0])%nat.

Example blocked_names_partial : exists m l b, rtc ex_reload_step (reloaders 2 ex_names) m /\
  sh_blockedNames (shared m) = Some l /\ sh_heap (shared m) !! l = Some b /\
  pm_Eval (patternMatcher ex_names) (str "ads.example") <> None /\ pm_Eval (patternMatcher b) (str "ads.example") = None.
Proof.
  exists (run_schedule ex_partial_schedule), 2%nat, ex_base.
  split_and!; [apply run_schedule_steps; by vm_compute|vm_compute; reflexivity..|vm_compute; discriminate|vm_compute; reflexivity].
Qed.

Definition ex_cloak_plugin : PluginCloak (gmap bytes) :=
  {| cl_active := ex_rules []; cl_ttl := 60; cl_createPTR := true; cl_configFile := str "/c"; cl_staging := None |}.
Definition ex_panic_fs : FS := fun _ _ =>
  Some {| f_content := str "example.com 192.0.2.1" ++ [10] ++ str "example.com www.example.org"; f_mod := 7; f_isDir := false |}.

(** The list of the file replaces an empty one. *)
Lemma reloaded_rules_witness :
  let m := Nat.iter (reload_length ex_text) (machine_step id 0 (Some ex_text)) (reloaders 1 ex_base) in
  threads m = [Idle] /\ exists l, sh_blockedNames (shared m) = Some l /\ sh_heap (shared m) !! l = Some ex_names.
Proof.
  destruct (reloaded_rules (T := gmap bytes) id ex_fs (str "/b") ex_base (reloaders 1 ex_base)) as (_ & _ & H).
  - apply rtc_refl.
  - exact (H ex_text 0%nat eq_refl eq_refl).
Defined.

