(* ===== verification/Url.v ===== *)
(** * URLs of HTTP queries

    What the HTTP transport uses of Go's standard library to build the URL of a
    query: [encoding/base64], [encoding/hex], and the query part of [net/url], with
    the round trips that the other side of a query relies on. *)

From S2P Require Import Prelude GoStrings ServerTypes Clients.
From Stdlib Require Import Sorted.

(** ** Encodings *)

Definition b64_digit (v : Z) : Z :=
  if v <? 26 then v + 65 else if v <? 52 then v + 71 else if v <? 62 then v - 4
  else if v =? 62 then 45 else 95.

(** [base64.RawURLEncoding.EncodeToString]. *)
Fixpoint RawURL_EncodeToString (s : bytes) : bytes :=
  match s with
  | [] => []
  | [a] => [b64_digit (Z.shiftr a 2); b64_digit (Z.land (Z.shiftl a 4) 63)]
  | [a; b] =>
      [b64_digit (Z.shiftr a 2); b64_digit (Z.land (Z.lor (Z.shiftl a 4) (Z.shiftr b 4)) 63);
       b64_digit (Z.land (Z.shiftl b 2) 63)]
  | a :: b :: c :: s' =>
      b64_digit (Z.shiftr a 2) :: b64_digit (Z.land (Z.lor (Z.shiftl a 4) (Z.shiftr b 4)) 63) ::
      b64_digit (Z.land (Z.lor (Z.shiftl b 2) (Z.shiftr c 6)) 63) :: b64_digit (Z.land c 63) ::
      RawURL_EncodeToString s'
  end.

Definition lower_hex (v : Z) : Z := if v <? 10 then 48 + v else 87 + v.
Definition upper_hex (v : Z) : Z := if v <? 10 then 48 + v else 55 + v.

(** [hex.EncodeToString]. *)
Definition hex_EncodeToString (s : bytes) : bytes :=
  s ≫= fun b => [lower_hex (Z.shiftr b 4); lower_hex (Z.land b 15)].

Definition hex_digit_value (c : Z) : option Z :=
  if in_range 48 57 c then Some (c - 48)
  else if in_range 97 102 c then Some (c - 87)
  else if in_range 65 70 c then Some (c - 55) else None.

(** ** The query of a URL *)

(** The bytes that are left as they are in a component of a query. *)
Definition unreserved (c : Z) : bool :=
  in_range 48 57 c || in_range 65 90 c || in_range 97 122 c || (c =? 45) || (c =? 46) || (c =? 95) || (c =? 126).

Definition escape_byte (c : Z) : bytes :=
  if c =? 32 then [43] else if unreserved c then [c]
  else [37; upper_hex (Z.shiftr c 4); upper_hex (Z.land c 15)].

Definition QueryEscape (s : bytes) : bytes := s ≫= escape_byte.

(** [None] for a percent sign without two hexadecimal digits after it. *)
Fixpoint QueryUnescape (s : bytes) : option bytes :=
  match s with
  | [] => Some []
  | c :: s' =>
      if c =? 37 then
        match s' with
        | h :: l :: s'' =>
            h ← hex_digit_value h; l ← hex_digit_value l; rest ← QueryUnescape s'';
            Some (Z.lor (Z.shiftl h 4) l :: rest)
        | _ => None
        end
      else cons (if c =? 43 then 32 else c) <$> QueryUnescape s'
  end.

(** [url.Values], a map that is only printed in the order of its keys: a list in that order. *)
Notation Values := (list (bytes * list bytes)).

Fixpoint values_Add (key value : bytes) (v : Values) : Values :=
  match v with
  | [] => [(key, [value])]
  | (k, vs) :: v' =>
      if bool_decide (key = k) then (k, vs ++ [value]) :: v'
      else if str_ltb key k then (key, [value]) :: v
      else (k, vs) :: values_Add key value v'
  end.

Definition values_Get (key : bytes) (v : Values) : bytes :=
  match list_find (fun p => p.1 = key) v with
  | Some (_, (_, value :: _)) => value
  | _ => []
  end.

Definition cut (s : bytes) (c : Z) : bytes * bytes :=
  match IndexByte s c with
  | Some i => (take i s, drop (S i) s)
  | None => (s, [])
  end.

(** One setting of a query; the ones that do not parse are skipped. *)
Definition parse_setting (v : Values) (setting : bytes) : Values :=
  if bool_decide (59 ∈ setting) then v
  else if bool_decide (setting = []) then v
  else
    let '(key, value) := cut setting 61 in
    match QueryUnescape key, QueryUnescape value with
    | Some key, Some value => values_Add key value v
    | _, _ => v
    end.

(** [URL.Query], which ignores errors. *)
Definition ParseQuery (query : bytes) : Values := foldl parse_setting [] (Split query 38).

Definition setting_of (key value : bytes) : bytes := QueryEscape key ++ 61 :: QueryEscape value.
Definition settings (v : Values) : list bytes := v ≫= fun '(k, vs) => setting_of k <$> vs.

(** The settings with ampersands between them. *)
Definition join_settings (l : list bytes) : bytes :=
  match l with
  | [] => []
  | s :: l' => s ++ (l' ≫= fun s => 38 :: s)
  end.

(** [Values.Encode]. *)
Definition values_Encode (v : Values) : bytes := join_settings (settings v).

(** ** Round trips of the encodings *)

Lemma byte_testbit a n : is_byte a -> 8 <= n -> Z.testbit a n = false.
Proof.
  intros Ha Hn. unfold is_byte in Ha. destruct (decide (a = 0)) as [->|]; [apply Z.bits_0|].
  apply Z.bits_above_log2; [lia|]. apply Z.log2_lt_pow2; [lia|].
  pose proof (Z.pow_le_mono_r 2 8 n). lia.
Qed.

(** Equality of two bytes, bit by bit. *)
Ltac byte_bits :=
  apply Z.bits_inj'; intros n Hn; unfold uint8; destruct (decide (8 <= n));
  [rewrite Z.mod_pow2_bits_high by lia; symmetry; by apply byte_testbit|];
  rewrite Z.mod_pow2_bits_low by lia;
  let Hcases := fresh in
  assert (n = 0 \/ n = 1 \/ n = 2 \/ n = 3 \/ n = 4 \/ n = 5 \/ n = 6 \/ n = 7) as Hcases by lia;
  destruct_or! Hcases; subst n;
  repeat first [rewrite Z.lor_spec | rewrite Z.land_spec | rewrite Z.shiftr_spec by lia |
                rewrite Z.shiftl_spec_low by lia | rewrite Z.shiftl_spec_high by lia];
  cbn -[Z.testbit];
  repeat match goal with |- context [Z.testbit (Zpos ?p) ?k] =>
    let v := eval vm_compute in (Z.testbit (Zpos p) k) in change (Z.testbit (Zpos p) k) with v end;
  rewrite ?(byte_testbit _ 8), ?(byte_testbit _ 9), ?(byte_testbit _ 10), ?(byte_testbit _ 11) by (done || lia);
  rewrite ?andb_true_r, ?andb_false_r, ?orb_false_r; try reflexivity.

Lemma b64_first a b : is_byte a -> is_byte b ->
  uint8 (Z.lor (Z.shiftl (Z.shiftr a 2) 2) (Z.shiftr (Z.land (Z.lor (Z.shiftl a 4) (Z.shiftr b 4)) 63) 4)) = a.
Proof. intros Ha Hb. byte_bits. Qed.

Lemma b64_second a b c : is_byte a -> is_byte b -> is_byte c ->
  uint8 (Z.lor (Z.shiftl (Z.land (Z.lor (Z.shiftl a 4) (Z.shiftr b 4)) 63) 4)
               (Z.shiftr (Z.land (Z.lor (Z.shiftl b 2) (Z.shiftr c 6)) 63) 2)) = b.
Proof. intros Ha Hb Hc. byte_bits. Qed.

Lemma b64_third b c : is_byte b -> is_byte c ->
  uint8 (Z.lor (Z.shiftl (Z.land (Z.lor (Z.shiftl b 2) (Z.shiftr c 6)) 63) 6) (Z.land c 63)) = c.
Proof. intros Hb Hc. byte_bits. Qed.

Lemma is_byte_0 : is_byte 0.
Proof. unfold is_byte. lia. Qed.

Lemma shiftr_byte a k : is_byte a -> 2 <= k -> 0 <= Z.shiftr a k < 64.
Proof.
  unfold is_byte. intros Ha Hk. rewrite Z.shiftr_div_pow2 by lia.
  assert (4 <= 2 ^ k) by (change 4 with (2 ^ 2); apply Z.pow_le_mono_r; lia).
  split; [apply Z.div_pos; lia|]. apply Z.div_lt_upper_bound; nia.
Qed.

Lemma land_63 x : 0 <= Z.land x 63 < 64.
Proof. change 63 with (Z.ones 6). rewrite Z.land_ones by lia. apply Z.mod_pos_bound. lia. Qed.

Lemma b64_digit_value v : 0 <= v < 64 ->
  b64_value (b64_digit v) = Some v /\ negb ((b64_digit v =? 10) || (b64_digit v =? 13)) = true /\
  unreserved (b64_digit v) = true.
Proof.
  intros Hv. pose proof (check_below (fun v => bool_decide (b64_value (b64_digit v) = Some v) &&
    negb ((b64_digit v =? 10) || (b64_digit v =? 13)) && unreserved (b64_digit v)) 64 v) as H.
  rewrite !andb_true_iff, bool_decide_eq_true in H. destruct H as [[H1 H2] H3]; [vm_compute; reflexivity|lia|done].
Qed.

(** The digits of an encoding, and their values. *)
Fixpoint b64_digits (s : bytes) : list Z :=
  match s with
  | [] => []
  | [a] => [Z.shiftr a 2; Z.land (Z.shiftl a 4) 63]
  | [a; b] => [Z.shiftr a 2; Z.land (Z.lor (Z.shiftl a 4) (Z.shiftr b 4)) 63; Z.land (Z.shiftl b 2) 63]
  | a :: b :: c :: s' =>
      Z.shiftr a 2 :: Z.land (Z.lor (Z.shiftl a 4) (Z.shiftr b 4)) 63 ::
      Z.land (Z.lor (Z.shiftl b 2) (Z.shiftr c 6)) 63 :: Z.land c 63 :: b64_digits s'
  end.

(** Induction on groups of three bytes. *)
Lemma by_three (P : bytes -> Prop) : P [] -> (forall a, P [a]) -> (forall a b, P [a; b]) ->
  (forall a b c s, P s -> P (a :: b :: c :: s)) -> forall s, P s.
Proof.
  intros H0 H1 H2 H3. assert (forall n s, (length s < n)%nat -> P s) as H; [|intros s; apply (H (S (length s))); lia].
  induction n as [|n IH]; intros s Hs; [lia|]. destruct s as [|a [|b [|c s]]]; auto.
  apply H3, IH. simpl in Hs. lia.
Qed.

Lemma encode_digits s : RawURL_EncodeToString s = b64_digit <$> b64_digits s.
Proof. induction s using by_three; csimpl; try done. by rewrite IHs. Qed.

Lemma b64_digits_range s : are_bytes s -> Forall (fun v => 0 <= v < 64) (b64_digits s).
Proof.
  induction s using by_three; intros Hs; csimpl; decompose_Forall_hyps;
    repeat apply Forall_cons_2; try apply Forall_nil_2; try apply land_63; try (apply shiftr_byte; (assumption || lia)); auto.
Qed.

Lemma b64_quanta_digits s : are_bytes s -> b64_quanta (b64_digits s) = Some s.
Proof.
  induction s using by_three; intros Hs; csimpl; [done|..]; decompose_Forall_hyps.
  - pose proof (b64_first a 0) as H1. change (Z.shiftr 0 4) with 0 in H1. rewrite Z.lor_0_r in H1.
    by rewrite H1 by (done || apply is_byte_0).
  - pose proof (b64_second a b 0) as H2. change (Z.shiftr 0 6) with 0 in H2. rewrite (Z.lor_0_r (Z.shiftl b 2)) in H2.
    by rewrite b64_first, H2 by (done || apply is_byte_0).
  - rewrite IHs by done. csimpl. by rewrite b64_first, b64_second, b64_third by done.
Qed.

Lemma RawURL_roundtrip s : are_bytes s -> RawURL_DecodeString (RawURL_EncodeToString s) = Some s.
Proof.
  intros Hs. unfold RawURL_DecodeString. rewrite encode_digits. pose proof (b64_digits_range s Hs) as Hd.
  assert (List.filter (fun c => negb ((c =? 10) || (c =? 13))) (b64_digit <$> b64_digits s) = b64_digit <$> b64_digits s) as ->.
  { induction Hd as [|v vs Hv Hd IH]; csimpl; [done|]. destruct (b64_digit_value v Hv) as (_ & -> & _). by rewrite IH. }
  assert (mapM b64_value (b64_digit <$> b64_digits s) = Some (b64_digits s)) as ->.
  { apply mapM_Some. induction Hd as [|v vs Hv Hd IH]; csimpl; constructor; [|done]. by apply b64_digit_value. }
  by apply b64_quanta_digits.
Qed.

Lemma RawURL_length s : len (RawURL_EncodeToString s) = (4 * len s + 2) / 3.
Proof.
  induction s using by_three; try reflexivity. cbn [RawURL_EncodeToString]. rewrite !len_cons, IHs.
  replace (4 * (1 + (1 + (1 + len s))) + 2) with (4 * 3 + (4 * len s + 2)) by lia. rewrite Z.div_add_l by lia. lia.
Qed.

Lemma RawURL_unreserved s : are_bytes s -> forallb unreserved (RawURL_EncodeToString s) = true.
Proof.
  intros Hs. rewrite encode_digits, forallb_forall. intros c Hc%list_elem_of_In%list_elem_of_fmap.
  destruct Hc as (v & -> & Hv). apply b64_digit_value. by eapply (proj1 (Forall_forall _ _) (b64_digits_range s Hs)).
Qed.

(** ** Round trip of queries *)

Lemma escape_byte_spec c t : is_byte c ->
  QueryUnescape (escape_byte c ++ t) = cons c <$> QueryUnescape t /\
  Forall (fun x => x <> 38 /\ x <> 59 /\ x <> 61) (escape_byte c).
Proof.
  intros Hc. pose proof (check_below (fun c => bool_decide (Forall (fun x => x <> 38 /\ x <> 59 /\ x <> 61) (escape_byte c))
    && (if (c =? 32) || unreserved c then negb ((c =? 37) || (c =? 43))
        else bool_decide (hex_digit_value (upper_hex (Z.shiftr c 4)) = Some (Z.shiftr c 4)) &&
             bool_decide (hex_digit_value (upper_hex (Z.land c 15)) = Some (Z.land c 15)) &&
             (Z.lor (Z.shiftl (Z.shiftr c 4) 4) (Z.land c 15) =? c))) 256 c) as H.
  specialize (H ltac:(vm_compute; reflexivity) Hc). apply andb_true_iff in H as [H1%bool_decide_eq_true H2].
  split; [|done]. unfold escape_byte. destruct (c =? 32) eqn:E32.
  { apply Z.eqb_eq in E32 as ->. reflexivity. }
  simpl in H2. destruct (unreserved c); bools.
  - cbn [app QueryUnescape]. rewrite (proj2 (Z.eqb_neq c 37)), (proj2 (Z.eqb_neq c 43)) by done. done.
  - cbn [app QueryUnescape]. change (37 =? 37) with true. cbv iota.
    repeat match goal with H : hex_digit_value _ = _ |- _ => rewrite H; clear H end. csimpl.
    destruct (QueryUnescape t); csimpl; congruence.
Qed.

Lemma QueryEscape_cons c s : QueryEscape (c :: s) = escape_byte c ++ QueryEscape s.
Proof. done. Qed.

Lemma QueryUnescape_escape s : are_bytes s -> QueryUnescape (QueryEscape s) = Some s.
Proof.
  induction 1 as [|c s Hc Hs IH]; [done|]. rewrite QueryEscape_cons.
  rewrite (proj1 (escape_byte_spec c _ Hc)), IH. done.
Qed.

Lemma QueryEscape_safe s : are_bytes s -> Forall (fun x => x <> 38 /\ x <> 59 /\ x <> 61) (QueryEscape s).
Proof.
  induction 1 as [|c s Hc Hs IH]; [constructor|]. rewrite QueryEscape_cons.
  apply Forall_app_2; [|done]. by apply (escape_byte_spec c [] Hc).
Qed.

Lemma not_in_escape s c : are_bytes s -> c = 38 \/ c = 59 \/ c = 61 -> c ∉ QueryEscape s.
Proof.
  intros Hs%QueryEscape_safe Hc Hin. eapply Forall_forall in Hin; [|exact Hs]. simpl in Hin. lia.
Qed.

Lemma cut_app s c t : c ∉ s -> cut (s ++ c :: t) c = (s, t).
Proof.
  intros Hs. unfold cut. assert (IndexByte (s ++ c :: t) c = Some (length s)) as ->.
  { induction s as [|x s IH]; csimpl; [by rewrite Z.eqb_refl|].
    rewrite not_elem_of_cons in Hs. destruct Hs as [Hx Hs]. rewrite (proj2 (Z.eqb_neq x c)) by done.
    by rewrite IH. }
  rewrite take_app_length. f_equal. change (S (length s)) with (1 + length s)%nat.
  rewrite Nat.add_comm, <-drop_drop, drop_app_length. done.
Qed.

Lemma parse_setting_of v key value : are_bytes key -> are_bytes value ->
  parse_setting v (setting_of key value) = values_Add key value v.
Proof.
  intros Hk Hv. unfold parse_setting, setting_of. rewrite bool_decide_false.
  2: { rewrite elem_of_app, elem_of_cons. intros [H|[H|H]]; [|done|]; revert H; apply not_in_escape; auto. }
  rewrite bool_decide_false by (by destruct (QueryEscape key)).
  rewrite cut_app by (apply not_in_escape; auto). by rewrite !QueryUnescape_escape.
Qed.

(** Pieces with a separator between them. *)
Lemma Split_joined c s l : c ∉ s -> Forall (fun t => c ∉ t) l -> Split (s ++ (l ≫= fun t => c :: t)) c = s :: l.
Proof.
  intros Hs Hl. revert s Hs. induction Hl as [|t l Ht Hl IH]; intros s Hs; csimpl; [by rewrite app_nil_r, Split_none|].
  rewrite Split_app by done. f_equal. by apply IH.
Qed.

Lemma Split_join_settings l : l <> [] -> Forall (fun s => 38 ∉ s) l -> Split (join_settings l) 38 = l.
Proof. destruct l as [|s l]; [done|]. intros _ [Hs Hl]%Forall_cons. by apply Split_joined. Qed.

(** The order of keys. *)
Lemma str_ltb_irrefl a : str_ltb a a = false.
Proof. induction a as [|x a IH]; csimpl; [done|]. rewrite IH, Z.ltb_irrefl, Z.eqb_refl. done. Qed.

Lemma str_ltb_trans a b c : str_ltb a b = true -> str_ltb b c = true -> str_ltb a c = true.
Proof.
  revert b c. induction a as [|x a IH]; intros [|y b] [|z c]; csimpl; try done.
  rewrite !orb_true_iff, !andb_true_iff, !Z.ltb_lt, !Z.eqb_eq. intros [H1|[-> H1]] [H2|[-> H2]]; eauto with lia.
Qed.

Lemma str_ltb_total a b : a = b \/ str_ltb a b = true \/ str_ltb b a = true.
Proof.
  revert b. induction a as [|x a IH]; intros [|y b]; csimpl; auto.
  rewrite !orb_true_iff, !andb_true_iff, !Z.ltb_lt, !Z.eqb_eq.
  destruct (Z.lt_total x y) as [?|[->|?]]; auto. destruct (IH b) as [->|[?|?]]; auto.
Qed.

Lemma str_ltb_asym a b : str_ltb a b = true -> str_ltb b a = false /\ b <> a.
Proof.
  intros H. split.
  - apply not_true_is_false. intros H'. pose proof (str_ltb_trans _ _ _ H H') as Hr. by rewrite str_ltb_irrefl in Hr.
  - intros ->. by rewrite str_ltb_irrefl in H.
Qed.

Definition below (a b : bytes * list bytes) : Prop := str_ltb a.1 b.1 = true.

(** Values as a query gives them: keys in order, with one value at least. *)
Definition values_wf (v : Values) : Prop :=
  StronglySorted below v /\ Forall (fun p => are_bytes p.1 /\ p.2 <> [] /\ Forall are_bytes p.2) v.

Lemma values_Add_above k x v : Forall (fun p => str_ltb p.1 k = true) v ->
  values_Add k x v = v ++ [(k, [x])].
Proof.
  induction 1 as [|[k' xs] v Hk Hv IH]; csimpl; [done|]. apply str_ltb_asym in Hk as [H1 H2]. simpl in *.
  by rewrite bool_decide_false, H1, IH by done.
Qed.

Lemma values_Add_last k x xs v : Forall (fun p => str_ltb p.1 k = true) v ->
  values_Add k x (v ++ [(k, xs)]) = v ++ [(k, xs ++ [x])].
Proof.
  induction 1 as [|[k' ys] v Hk Hv IH]; csimpl; [by rewrite bool_decide_true|].
  apply str_ltb_asym in Hk as [H1 H2]. simpl in *. by rewrite bool_decide_false, H1, IH by done.
Qed.

Lemma parse_key acc k xs ys : Forall (fun p => str_ltb p.1 k = true) acc -> are_bytes k -> Forall are_bytes ys ->
  foldl parse_setting (acc ++ [(k, xs)]) (setting_of k <$> ys) = acc ++ [(k, xs ++ ys)].
Proof.
  intros Ha Hk Hy. revert xs. induction Hy as [|y ys Hy Hys IH]; intros xs; csimpl; [by rewrite app_nil_r|].
  rewrite parse_setting_of, values_Add_last, IH, <-app_assoc by done. done.
Qed.

Lemma parse_settings acc v : values_wf v -> Forall (fun p => Forall (below p) v) acc ->
  foldl parse_setting acc (settings v) = acc ++ v.
Proof.
  intros [Hs Hv]. revert acc. induction Hs as [|[k xs] v Hs IH Hb]; intros acc Ha; csimpl; [by rewrite app_nil_r|].
  apply Forall_cons in Hv as [(Hk & Hn & Hx) Hv]. simpl in *. destruct xs as [|x xs]; [done|]. csimpl.
  apply Forall_cons in Hx as [Hx Hxs].
  assert (Forall (fun p => str_ltb p.1 k = true) acc) as Hacc.
  { eapply Forall_impl; [exact Ha|]. intros p Hp. by apply Forall_cons in Hp as [Hp _]. }
  rewrite parse_setting_of, values_Add_above, foldl_app, parse_key by done.
  fold (settings v). rewrite IH; [by rewrite <-app_assoc|done|].
  apply Forall_app_2; [|by constructor]. eapply Forall_impl; [exact Ha|]. intros p Hp. by apply Forall_cons in Hp as [_ Hp].
Qed.

Lemma settings_safe v : values_wf v -> Forall (fun s => 38 ∉ s) (settings v).
Proof.
  intros [_ Hv]. unfold settings. apply Forall_bind. eapply Forall_impl; [exact Hv|]. intros [k xs] (Hk & _ & Hx).
  apply Forall_fmap. eapply Forall_impl; [exact Hx|]. intros x Hx'. unfold compose, setting_of.
  rewrite elem_of_app, elem_of_cons. intros [H|[H|H]]; [|done|]; revert H; apply not_in_escape; auto.
Qed.

(** What is encoded is what is parsed. *)
Lemma ParseQuery_Encode v : values_wf v -> ParseQuery (values_Encode v) = v.
Proof.
  intros Hv. unfold ParseQuery, values_Encode. destruct (decide (v = [])) as [->|Hne]; [done|].
  rewrite Split_join_settings; [by rewrite parse_settings by done| |by apply settings_safe].
  destruct v as [|[k xs] v]; [done|]. destruct Hv as [_ Hv]. apply Forall_cons in Hv as [(_ & Hn & _) _].
  by destruct xs.
Qed.

Lemma values_Add_keys k x v p : p ∈ values_Add k x v -> p.1 = k \/ exists q, q ∈ v /\ q.1 = p.1.
Proof.
  induction v as [|[k' xs] v IH]; csimpl; [rewrite list_elem_of_singleton; intros ->; by left|].
  case_bool_decide as E; [|destruct (str_ltb k k')]; rewrite ?elem_of_cons.
  - intros [->|Hp]; [by left|]. right. exists p. split; [by right|done].
  - intros [->|Hp]; [by left|]. right. exists p. split; [by apply elem_of_cons|done].
  - intros [->|Hp]; [right; exists (k', xs); split; [by left|done]|].
    destruct (IH Hp) as [?|(q & Hq & ?)]; [by left|]. right. exists q. split; [by right|done].
Qed.

Lemma values_Add_wf k x v : are_bytes k -> are_bytes x -> values_wf v -> values_wf (values_Add k x v).
Proof.
  intros Hk Hx [Hs Hv]. split.
  - induction Hs as [|[k' xs] v Hs IH Hb]; csimpl; [by repeat constructor|].
    apply Forall_cons in Hv as [_ Hv]. case_bool_decide as E; [by constructor|].
    destruct (str_ltb k k') eqn:El; constructor; try done.
    + by constructor.
    + constructor; [done|]. eapply Forall_impl; [exact Hb|]. intros q Hq. by eapply str_ltb_trans.
    + by apply IH.
    + apply Forall_forall. intros p [Hp|(q & Hq & Hqp)]%values_Add_keys; unfold below; csimpl.
      * rewrite Hp. destruct (str_ltb_total k' k) as [->|[?|?]]; [done|done|congruence].
      * rewrite <-Hqp. by apply (proj1 (Forall_forall _ _) Hb q).
  - clear Hs. induction Hv as [|[k' xs] v (H1 & H2 & H3) Hv IH]; csimpl; [by repeat constructor|].
    case_bool_decide as E; [|destruct (str_ltb k k')]; repeat (constructor; try done); simpl.
    + by destruct xs.
    + apply Forall_app_2; [done|by constructor].
Qed.

Lemma QueryUnescape_bytes s out : are_bytes s -> QueryUnescape s = Some out -> are_bytes out.
Proof.
  assert (forall n s out, (length s < n)%nat -> are_bytes s -> QueryUnescape s = Some out -> are_bytes out) as H;
    [|intros; eapply (H (S (length s))); eauto].
  clear s out. induction n as [|n IH]; intros s out Hn Hs; [lia|]. destruct Hs as [|c s Hc Hs]; csimpl in *.
  { intros [= <-]. constructor. }
  destruct (c =? 37).
  - destruct s as [|h [|l s]]; try done. rewrite !Forall_cons in Hs. destruct Hs as (Hh & Hl & Hs).
    destruct (hex_digit_value h) as [vh|] eqn:Eh; [|done]. destruct (hex_digit_value l) as [vl|] eqn:El; [|done].
    csimpl. destruct (QueryUnescape s) as [rest|] eqn:E; [|done]. intros [= <-].
    constructor; [|eapply IH; [|done|exact E]; simpl in Hn; lia].
    assert (forall c v, hex_digit_value c = Some v -> 0 <= v < 16) as Hv.
    { intros c' v. unfold hex_digit_value, in_range. intros Hx. split_ifs_in Hx; simplify_eq; lia. }
    apply Hv in Eh, El.
    pose proof (check_below (fun v => let a := v / 16 in let b := v mod 16 in
      (0 <=? Z.lor (Z.shiftl a 4) b) && (Z.lor (Z.shiftl a 4) b <? 256)) 256 (vh * 16 + vl)) as Hb.
    specialize (Hb ltac:(vm_compute; reflexivity) ltac:(lia)). cbv beta zeta in Hb.
    rewrite Z.div_add_l, Z.div_small, Z.add_0_r in Hb by lia.
    rewrite Z.add_comm, Z.mod_add, Z.mod_small in Hb by lia. bools. unfold is_byte. lia.
  - destruct (QueryUnescape s) as [rest|] eqn:E; [|done]. intros [= <-]. constructor.
    + destruct (c =? 43); [unfold is_byte; lia|done].
    + eapply IH; [|exact Hs|exact E]. simpl in Hn. lia.
Qed.

Lemma Split_bytes s c : are_bytes s -> Forall are_bytes (Split s c).
Proof.
  induction 1 as [|x s Hx Hs IH]; csimpl; [by repeat constructor|].
  destruct (x =? c); [by constructor|]. destruct (Split s c) as [|t l]; [by apply Forall_cons_2; [apply Forall_cons_2|]|].
  apply Forall_cons in IH as [Ht Hl]. by apply Forall_cons_2; [apply Forall_cons_2|].
Qed.

Lemma ParseQuery_wf s : are_bytes s -> values_wf (ParseQuery s).
Proof.
  intros Hs%(fun H => Split_bytes s 38 H). unfold ParseQuery.
  assert (values_wf []) as H0 by (split; constructor). revert H0. generalize (@nil (bytes * list bytes)).
  induction Hs as [|t l Ht Hl IH]; intros v Hv; csimpl; [done|]. apply IH. unfold parse_setting, cut.
  repeat case_bool_decide; try done. destruct (IndexByte t 61) as [i|].
  - destruct (QueryUnescape (take i t)) as [k|] eqn:E1; [|done].
    destruct (QueryUnescape (drop (S i) t)) as [x|] eqn:E2; [|done].
    apply values_Add_wf; [eapply QueryUnescape_bytes; [|exact E1]; by apply Forall_take|
                          eapply QueryUnescape_bytes; [|exact E2]; by apply Forall_drop|done].
  - destruct (QueryUnescape t) as [k|] eqn:E1; [|done]. cbn. apply values_Add_wf; [|constructor|done].
    by eapply QueryUnescape_bytes.
Qed.

Lemma values_Get_Add k x v : Forall (fun p => p.1 <> k) v -> values_Get k (values_Add k x v) = x.
Proof.
  unfold values_Get. induction 1 as [|[k' xs] v Hk Hv IH]; csimpl; [by rewrite decide_True|].
  simpl in Hk. rewrite bool_decide_false by done. destruct (str_ltb k k'); csimpl; [by rewrite decide_True|].
  rewrite decide_False by done. destruct (list_find _ (values_Add k x v)) as [[i [k2 [|y ys]]]|]; done.
Qed.

(** A query parameter that is added to a URL is the one that the other side reads. *)
Lemma query_parameter raw k x : are_bytes raw -> are_bytes k -> are_bytes x ->
  Forall (fun p => p.1 <> k) (ParseQuery raw) ->
  values_Get k (ParseQuery (values_Encode (values_Add k x (ParseQuery raw)))) = x.
Proof.
  intros Hr Hk Hx Hf. rewrite ParseQuery_Encode; [by apply values_Get_Add|].
  apply values_Add_wf; [done..|]. by apply ParseQuery_wf.
Qed.
