(* ===== verification/XTransport.v ===== *)
(** * The HTTP transport (src/dnscrypt-proxy/xtransport.go)

    HTTP queries with their choice of HTTP/2 or HTTP/3, the memory of which hosts
    support HTTP/3, and the cache of the addresses of hosts with the resolution of
    their names.  The clients of the libraries, the clock and the random numbers are
    the class [HttpEnv]; what they are asked to do is recorded in a log. *)

From S2P Require Import Prelude GoStrings NetIP Common Crypto Dns ServerTypes Feedback Query Clients Url.

Definition Hour : Duration := 60 * Minute.
Definition DefaultBootstrapResolver : bytes := str "9.9.9.9:53".
Definition DefaultTimeout : Duration := 30 * Second.
Definition SystemResolverIPTTL : Duration := 12 * Hour.
Definition MinResolverIPTTL : Duration := 4 * Hour.
Definition ResolverIPTTLMaxJitter : Duration := 15 * Minute.
Definition ExpiredCachedIPGraceTTL : Duration := 15 * Minute.
Definition resolverRetryCount : nat := 3.
Definition resolverRetryInitialBackoff : Duration := 150 * Millisecond.
Definition resolverRetryMaxBackoff : Duration := 1 * Second.
Definition DefaultHTTP3NegativeCacheTTL : Duration := 30 * Minute.
Definition MaxHTTPBodyLength : Z := 1000000.
Definition DefaultPort : Z := 443.

(** ** State *)

(** A [net.IP] is its bytes, and nil the empty list. *)
Record CachedIPItem := { ips : list bytes; ci_expiration : option Time; updatingUntil : option Time }.

Record AltSupportEntry := { ae_port : Z; negativeUntil : Time }.

(** The part of [XTransport] that queries read and change.  [h3Transport] says whether
    there is an HTTP/3 transport, [xt_proxyDialer] and [httpProxyFunction] whether there
    are proxies. *)
Record XTransport := {
  h3Transport : bool;
  quicDialCount : gmap bytes Z;
  xt_timeout : Duration;
  cachedIPs : gmap bytes CachedIPItem;
  altSupport : gmap bytes AltSupportEntry;
  internalResolvers : list bytes;
  bootstrapResolvers : list bytes;
  mainProto : bytes;
  ignoreSystemDNS : bool;
  internalResolverReady : bool;
  useIPv4 : bool;
  useIPv6 : bool;
  http3Probe : bool;
  xt_proxyDialer : bool;
  httpProxyFunction : bool;
}.

Definition NewXTransport : XTransport :=
  {| h3Transport := false; quicDialCount := ∅; xt_timeout := DefaultTimeout; cachedIPs := ∅; altSupport := ∅;
     internalResolvers := []; bootstrapResolvers := [DefaultBootstrapResolver]; mainProto := [];
     ignoreSystemDNS := true; internalResolverReady := false; useIPv4 := true; useIPv6 := false;
     http3Probe := false; xt_proxyDialer := false; httpProxyFunction := false |}.

Definition set_quicDialCount (v : gmap bytes Z) (x : XTransport) : XTransport :=
  {| h3Transport := h3Transport x; quicDialCount := v; xt_timeout := xt_timeout x; cachedIPs := cachedIPs x;
     altSupport := altSupport x; internalResolvers := internalResolvers x;
     bootstrapResolvers := bootstrapResolvers x; mainProto := mainProto x; ignoreSystemDNS := ignoreSystemDNS x;
     internalResolverReady := internalResolverReady x; useIPv4 := useIPv4 x; useIPv6 := useIPv6 x;
     http3Probe := http3Probe x; xt_proxyDialer := xt_proxyDialer x; httpProxyFunction := httpProxyFunction x |}.
Definition set_cachedIPs (v : gmap bytes CachedIPItem) (x : XTransport) : XTransport :=
  {| h3Transport := h3Transport x; quicDialCount := quicDialCount x; xt_timeout := xt_timeout x; cachedIPs := v;
     altSupport := altSupport x; internalResolvers := internalResolvers x;
     bootstrapResolvers := bootstrapResolvers x; mainProto := mainProto x; ignoreSystemDNS := ignoreSystemDNS x;
     internalResolverReady := internalResolverReady x; useIPv4 := useIPv4 x; useIPv6 := useIPv6 x;
     http3Probe := http3Probe x; xt_proxyDialer := xt_proxyDialer x; httpProxyFunction := httpProxyFunction x |}.
Definition set_altSupport (v : gmap bytes AltSupportEntry) (x : XTransport) : XTransport :=
  {| h3Transport := h3Transport x; quicDialCount := quicDialCount x; xt_timeout := xt_timeout x;
     cachedIPs := cachedIPs x; altSupport := v; internalResolvers := internalResolvers x;
     bootstrapResolvers := bootstrapResolvers x; mainProto := mainProto x; ignoreSystemDNS := ignoreSystemDNS x;
     internalResolverReady := internalResolverReady x; useIPv4 := useIPv4 x; useIPv6 := useIPv6 x;
     http3Probe := http3Probe x; xt_proxyDialer := xt_proxyDialer x; httpProxyFunction := httpProxyFunction x |}.
Definition set_internalResolverReady (v : bool) (x : XTransport) : XTransport :=
  {| h3Transport := h3Transport x; quicDialCount := quicDialCount x; xt_timeout := xt_timeout x;
     cachedIPs := cachedIPs x; altSupport := altSupport x; internalResolvers := internalResolvers x;
     bootstrapResolvers := bootstrapResolvers x; mainProto := mainProto x; ignoreSystemDNS := ignoreSystemDNS x;
     internalResolverReady := v; useIPv4 := useIPv4 x; useIPv6 := useIPv6 x;
     http3Probe := http3Probe x; xt_proxyDialer := xt_proxyDialer x; httpProxyFunction := httpProxyFunction x |}.
Definition set_resolvers (internal bootstrap : list bytes) (x : XTransport) : XTransport :=
  {| h3Transport := h3Transport x; quicDialCount := quicDialCount x; xt_timeout := xt_timeout x;
     cachedIPs := cachedIPs x; altSupport := altSupport x; internalResolvers := internal;
     bootstrapResolvers := bootstrap; mainProto := mainProto x; ignoreSystemDNS := ignoreSystemDNS x;
     internalResolverReady := internalResolverReady x; useIPv4 := useIPv4 x; useIPv6 := useIPv6 x;
     http3Probe := http3Probe x; xt_proxyDialer := xt_proxyDialer x; httpProxyFunction := httpProxyFunction x |}.

(** ** What the libraries do *)

Record request := {
  rq_Method : bytes;
  rq_URL : URL;
  rq_Header : list (bytes * bytes);
  rq_Body : option bytes;
  rq_Timeout : Duration;
}.

(** The body of a response: the bytes before its end, and whether that is an error.
    The state of TLS: [DidResume], [NegotiatedProtocol] and [HandshakeComplete]. *)
Notation stream := (bytes * option exchange_error)%type.
Record tls_state := { DidResume : bool; NegotiatedProtocol : bytes; HandshakeComplete : bool;
  PeerCertificates : list bytes (* RawTBSCertificate *) }.
Record response := {
  rs_StatusCode : Z;
  rs_AltSvc : option (list bytes);      (* the header Alt-Svc *)
  rs_gzip : bool;                       (* Content-Encoding is gzip *)
  rs_TLS : option tls_state;
  rs_Body : stream;
}.

(** What one [client.Do] leads to: its results, what the callback [GotConn] was told if it
    was called, and the addresses for which a QUIC connection was established. *)
Record do_result := {
  do_resp : option response;
  do_err : option exchange_error;
  do_gotConn : option bool;
  do_dials : list bytes;
}.

Inductive xevent :=
| EvDo (h3 : bool) (rq : request)
| EvExchange (proto resolver host : bytes) (rrType : Z)
| EvLookup (host : bytes)
| EvSleep (d : Duration).

Class HttpEnv (S : Type) := {
  Now : S -> Time * S;
  Int63n : Z -> S -> Z * S;
  MsgID : S -> Z * S;
  LookupIP : bytes -> S -> list bytes * option exchange_error * S;
  dns_Exchange : Msg -> bytes -> bytes -> S -> result exchange_error Msg * S;
  client_Do : bool -> request -> S -> do_result * S;
  NewReader : stream -> result exchange_error stream;       (* gzip *)
  Sum512 : bytes -> bytes;
}.

Record XWorld {S : Type} := { xt : XTransport; xenv : S; xlog : list xevent }.
Arguments XWorld : clear implicits.

Definition X (S A : Type) : Type := XWorld S -> A * XWorld S.

Definition xbind {S A B} (m : X S A) (k : A -> X S B) : X S B := fun w => let '(a, w) := m w in k a w.

Declare Scope xt_scope.
Open Scope xt_scope.
Notation "x <-- m ;; k" := (xbind m (fun x => k)) (at level 100, m at next level, right associativity) : xt_scope.
Notation "' p <-- m ;; k" := (xbind m (fun x => match x with p => k end))
  (at level 100, p pattern, m at next level, right associativity) : xt_scope.
Notation "m ;;; k" := (xbind m (fun _ => k)) (at level 100, right associativity) : xt_scope.

Section transport.
Context {S : Type} `{E : !HttpEnv S}.
Implicit Types w : XWorld S.

Definition xret {A} (a : A) : X S A := fun w => (a, w).
Definition gets {A} (f : XTransport -> A) : X S A := fun w => (f (xt w), w).
Definition modify (f : XTransport -> XTransport) : X S unit := fun w =>
  (tt, {| xt := f (xt w); xenv := xenv w; xlog := xlog w |}).
Definition on_env {A} (f : S -> A * S) : X S A := fun w =>
  let '(a, s) := f (xenv w) in (a, {| xt := xt w; xenv := s; xlog := xlog w |}).
Definition log_event (e : xevent) : X S unit := fun w =>
  (tt, {| xt := xt w; xenv := xenv w; xlog := xlog w ++ [e] |}).
Definition xnow : X S Time := on_env Now.

(** ** HTTP/3 support of hosts *)

Definition quicDials (host : bytes) : X S Z := gets (fun x => default 0 (quicDialCount x !! host)).

Definition recordQUICDial (host : bytes) : X S unit :=
  modify (fun x => set_quicDialCount (<[host := uint64 (default 0 (quicDialCount x !! host) + 1)]> (quicDialCount x)) x).

(** The port, whether the host is found, whether it is suppressed. *)
Definition loadAltSupport (host : bytes) : X S (Z * bool * bool) :=
  entry <-- gets (fun x => altSupport x !! host) ;;
  match entry with
  | None => xret (0, false, false)
  | Some e =>
      if ae_port e >? 0 then xret (ae_port e, true, false)
      else if IsZero (negativeUntil e) then xret (0, true, true)
      else
        t <-- xnow ;;
        if t <? negativeUntil e then xret (0, true, true) else xret (0, false, false)
  end.

Definition saveAltSupport (host : bytes) (port : Z) : X S unit :=
  modify (fun x => set_altSupport (<[host := {| ae_port := port; negativeUntil := zero_time |}]> (altSupport x)) x).

Definition saveAltSupportNegative (host : bytes) (ttl : Duration) : X S unit :=
  t <-- xnow ;;
  modify (fun x => set_altSupport (<[host := {| ae_port := 0; negativeUntil := time_add t ttl |}]> (altSupport x)) x).

Definition recordHTTP3ProbeFailure (host : bytes) (advertisesH3 : bool) : X S unit :=
  if advertisesH3 then saveAltSupportNegative host DefaultHTTP3NegativeCacheTTL else saveAltSupport host 0.

(** ** The cache of addresses *)

(** [ParseIP] of this file, which accepts square brackets. *)
Fixpoint trim_left_byte (c : Z) (s : bytes) : bytes :=
  match s with
  | x :: s' => if x =? c then trim_left_byte c s' else s
  | [] => []
  end.
Definition xParseIP (ipStr : bytes) : option bytes :=
  ParseIP (reverse (trim_left_byte 93 (reverse (trim_left_byte 91 ipStr)))).

Fixpoint unique_loop (ips : list bytes) (seen : gset bytes) : list bytes :=
  match ips with
  | [] => []
  | ip :: ips' =>
      if bool_decide (ip = []) || bool_decide (ip_String ip ∈ seen) then unique_loop ips' seen
      else ip :: unique_loop ips' ({[ip_String ip]} ∪ seen)
  end.
Definition uniqueNormalizedIPs (ips : list bytes) : list bytes := unique_loop ips ∅.

Definition saveCachedIPs (host : bytes) (ips : list bytes) (ttl : Duration) : X S unit :=
  let normalized := uniqueNormalizedIPs ips in
  if len normalized =? 0 then xret tt
  else
    expiration <--
      (if ttl >=? 0 then
         jitter <-- on_env (Int63n ResolverIPTTLMaxJitter) ;;
         t <-- xnow ;;
         xret (Some (time_add t (int64 (Max ttl MinResolverIPTTL + jitter))))
       else xret None) ;;
    modify (fun x => set_cachedIPs
      (<[host := {| ips := normalized; ci_expiration := expiration; updatingUntil := None |}]> (cachedIPs x)) x).

Definition saveCachedIP (host : bytes) (ip : bytes) (ttl : Duration) : X S unit :=
  if bool_decide (ip = []) then xret tt else saveCachedIPs host [ip] ttl.

Definition markUpdatingCachedIP (host : bytes) : X S unit :=
  item <-- gets (fun x => cachedIPs x !! host) ;;
  match item with
  | None => xret tt
  | Some item =>
      t <-- xnow ;;
      modify (fun x => set_cachedIPs
        (<[host := {| ips := ips item; ci_expiration := ci_expiration item;
                      updatingUntil := Some (time_add t (xt_timeout x)) |}]> (cachedIPs x)) x)
  end.

(** The addresses, whether they are expired, whether they are being updated. *)
Definition loadCachedIPs (host : bytes) : X S (list bytes * bool * bool) :=
  item <-- gets (fun x => cachedIPs x !! host) ;;
  match item with
  | None => xret ([], false, false)
  | Some item =>
      let found := List.filter (fun ip => negb (bool_decide (ip = []))) (ips item) in
      match ci_expiration item with
      | None => xret (found, false, false)
      | Some expiration =>
          t <-- xnow ;;
          if time_sub expiration t <? 0 then
            match updatingUntil item with
            | None => xret (found, true, false)
            | Some until => t <-- xnow ;; xret (found, true, time_sub until t >? 0)
            end
          else xret (found, false, false)
      end
  end.

(** ** Resolution of names *)

Notation resolved := (list bytes * Duration * option exchange_error)%type.

Definition resolveUsingSystem (host : bytes) (returnIPv4 returnIPv6 : bool) : X S resolved :=
  log_event (EvLookup host) ;;;
  '(ipa, err) <-- on_env (LookupIP host) ;;
  if returnIPv4 && returnIPv6 then xret (ipa, SystemResolverIPTTL, err)
  else
    let pick ip := match To4 ip with
      | Some ipv4 => if returnIPv4 then [ipv4] else []
      | None => if returnIPv6 then [ip] else []
      end in
    xret (ipa ≫= pick, SystemResolverIPTTL, err).

Definition question (id : Z) (host : bytes) (rrType : Z) : Msg :=
  set_header (fun h => set_EDNS (uint16 MaxDNSPacketSize) true (set_RecursionDesired true h))
    (NewMsg id (fqdn host) rrType).

(** The addresses of the answers of a type, and the smallest of their TTLs. *)
Definition collect_answer (rrType : Z) (acc : list bytes * option Z) (answer : RR) : list bytes * option Z :=
  let '(found, rrTTL) := acc in
  if RRToType answer =? rrType then
    let found := match data answer with
      | RD_A addr | RD_AAAA addr => found ++ [addr]
      | _ => found
      end in
    let answerTTL := TTL (hdr answer) in
    (found, match rrTTL with
            | Some ttl => if answerTTL <? ttl then Some answerTTL else rrTTL
            | None => Some answerTTL
            end)
  else acc.

Fixpoint query_types (proto host resolver : bytes) (queryType : list Z) (acc : list bytes * option Z)
    (lastErr : option exchange_error) : X S (list bytes * option Z * option exchange_error) :=
  match queryType with
  | [] => xret (acc, lastErr)
  | rrType :: queryType' =>
      id <-- on_env MsgID ;;
      log_event (EvExchange proto resolver host rrType) ;;;
      r <-- on_env (dns_Exchange (question id host rrType) proto resolver) ;;
      match r with
      | Ok m => query_types proto host resolver queryType' (foldl (collect_answer rrType) acc (Answer m)) lastErr
      | Err e => query_types proto host resolver queryType' acc (Some e)
      end
  end.

Definition resolveUsingResolver (proto host resolver : bytes) (returnIPv4 returnIPv6 : bool) : X S resolved :=
  let queryType := (if returnIPv4 then [TypeA] else []) ++ (if returnIPv6 then [TypeAAAA] else []) in
  '(found, rrTTL, lastErr) <-- query_types proto host resolver queryType ([], None) None ;;
  if len found >? 0 then xret (found, default 0 rrTTL * Second, None)
  else xret ([], 0, lastErr).

(** The attempts with one resolver, and the pauses between them. *)
Fixpoint attempts (proto host resolver : bytes) (returnIPv4 returnIPv6 : bool) (count : nat) (delay : Duration)
    (lastErr : exchange_error) : X S (result exchange_error (list bytes * Duration)) :=
  match count with
  | O => xret (Err lastErr)
  | Datatypes.S count' =>
      '(found, ttl, err) <-- resolveUsingResolver proto host resolver returnIPv4 returnIPv6 ;;
      if bool_decide (err = None) && (len found >? 0) then xret (Ok (found, ttl))
      else
        let lastErr := default OtherError err in
        match count' with
        | O => xret (Err lastErr)
        | _ =>
            log_event (EvSleep delay) ;;;
            let delay := if delay <? resolverRetryMaxBackoff then Min (delay * 2) resolverRetryMaxBackoff else delay in
            attempts proto host resolver returnIPv4 returnIPv6 count' delay lastErr
        end
  end.

(** The resolvers are the array of one of the two fields: the exchange of two of them is
    visible there. *)
Inductive resolver_list := Internal | Bootstrap.
Definition resolvers_of (l : resolver_list) (x : XTransport) : list bytes :=
  match l with Internal => internalResolvers x | Bootstrap => bootstrapResolvers x end.
Definition set_resolvers_of (l : resolver_list) (v : list bytes) (x : XTransport) : XTransport :=
  match l with
  | Internal => set_resolvers v (bootstrapResolvers x) x
  | Bootstrap => set_resolvers (internalResolvers x) v x
  end.

Definition swap_first (i : nat) (l : list bytes) : list bytes :=
  match l !! 0%nat, l !! i with
  | Some a, Some b => <[0%nat := b]> (<[i := a]> l)
  | _, _ => l
  end.

Fixpoint servers_loop (proto host : bytes) (which : resolver_list) (returnIPv4 returnIPv6 : bool) (i : nat)
    (resolvers : list bytes) (lastErr : exchange_error) : X S resolved :=
  match resolvers with
  | [] => xret ([], 0, Some lastErr)
  | resolver :: resolvers' =>
      r <-- attempts proto host resolver returnIPv4 returnIPv6 resolverRetryCount resolverRetryInitialBackoff OtherError ;;
      match r with
      | Ok (found, ttl) =>
          (if (0 <? i)%nat then modify (fun x => set_resolvers_of which (swap_first i (resolvers_of which x)) x)
           else xret tt) ;;;
          xret (found, ttl, None)
      | Err e => servers_loop proto host which returnIPv4 returnIPv6 (Datatypes.S i) resolvers' e
      end
  end.

Definition resolveUsingServers (proto host : bytes) (which : resolver_list) (returnIPv4 returnIPv6 : bool)
    : X S resolved :=
  resolvers <-- gets (resolvers_of which) ;;
  servers_loop proto host which returnIPv4 returnIPv6 0 resolvers OtherError.

(** The loop over protocols, up to the first one that works. *)
Fixpoint protos_loop (host : bytes) (which : resolver_list) (returnIPv4 returnIPv6 : bool) (protos : list bytes)
    (last : resolved) : X S resolved :=
  match protos with
  | [] => xret last
  | proto :: protos' =>
      r <-- resolveUsingServers proto host which returnIPv4 returnIPv6 ;;
      if bool_decide (r.2 = None) then xret r else protos_loop host which returnIPv4 returnIPv6 protos' r
  end.

Definition resolve (host : bytes) (returnIPv4 returnIPv6 : bool) : X S resolved :=
  x <-- gets id ;;
  let protos := if bool_decide (mainProto x = str "tcp") then [str "tcp"; str "udp"] else [str "udp"; str "tcp"] in
  r <--
    (if ignoreSystemDNS x then
       if internalResolverReady x then protos_loop host Internal returnIPv4 returnIPv6 protos ([], 0, None)
       else xret ([], 0, Some OtherError)
     else
       '(found, ttl, err) <-- resolveUsingSystem host returnIPv4 returnIPv6 ;;
       xret (found, ttl, if bool_decide (err = None) then None else Some OtherError)) ;;
  r <-- (if bool_decide (r.2 = None) then xret r else protos_loop host Bootstrap returnIPv4 returnIPv6 protos r) ;;
  if negb (bool_decide (r.2 = None)) && ignoreSystemDNS x then resolveUsingSystem host returnIPv4 returnIPv6
  else xret r.

Definition resolveAndUpdateCache (host : bytes) : X S (option exchange_error) :=
  x <-- gets id ;;
  if xt_proxyDialer x || httpProxyFunction x then xret None
  else if bool_decide (xParseIP host <> None) then xret None
  else
    '(cached, expired, updating) <-- loadCachedIPs host ;;
    if (len cached >? 0) && (negb expired || updating) then xret None
    else
      markUpdatingCachedIP host ;;;
      '(found, ttl, err) <-- resolve host (useIPv4 x) (useIPv6 x) ;;
      let ttl := Max ttl MinResolverIPTTL in
      let '(selectedIPs, ttl, err) :=
        if (negb (bool_decide (err = None)) || (len found =? 0)) && (len cached >? 0)
        then (cached, ExpiredCachedIPGraceTTL, None) else (found, ttl, err) in
      match err with
      | Some e => xret (Some e)
      | None =>
          if len selectedIPs =? 0 then xret None
          else saveCachedIPs host selectedIPs ttl ;;; xret None
      end.

(** ** Connections *)

(** The endpoint of an address, or of the host itself. *)
Definition formatEndpoint (host : bytes) (port : Z) (ip : option bytes) : bytes :=
  match ip with
  | Some ip =>
      match To4 ip with
      | Some ipv4 => ip_String ipv4 ++ str ":" ++ itoa port
      | None => str "[" ++ ip_String ip ++ str "]:" ++ itoa port
      end
  | None =>
      match xParseIP host with
      | Some parsed =>
          if bool_decide (To4 parsed = None) then str "[" ++ ip_String parsed ++ str "]:" ++ itoa port
          else host ++ str ":" ++ itoa port
      | None => host ++ str ":" ++ itoa port
      end
  end.

(** The targets of a connection, in the order in which they are tried. *)
Definition targets {A} (build : option bytes -> A) (cached : list bytes) : list A :=
  match cached with
  | [] => [build None]
  | _ => (fun ip => build (Some ip)) <$> cached
  end.

(** The first target that accepts; the last error otherwise. *)
Fixpoint first_success {A B} (dial : A -> X S (result exchange_error B)) (l : list A) (lastErr : exchange_error)
    : X S (result exchange_error B) :=
  match l with
  | [] => xret (Err lastErr)
  | target :: l' =>
      r <-- dial target ;;
      match r with
      | Ok conn => xret (Ok conn)
      | Err e => first_success dial l' e
      end
  end.

(** [DialContext] of the HTTP/2 transport. *)
Definition DialContext {B} (dial : bytes -> X S (result exchange_error B)) (addrStr : bytes)
    : X S (result exchange_error B) :=
  let '(host, port) := ExtractHostAndPort addrStr DefaultPort in
  '(cached, _, _) <-- loadCachedIPs host ;;
  first_success dial (targets (formatEndpoint host port) cached) OtherError.

(** The address and the network of a QUIC connection. *)
Definition buildAddr (x : XTransport) (host : bytes) (port : Z) (ip : option bytes) : bytes * bytes :=
  match ip with
  | Some ip =>
      match To4 ip with
      | Some ipv4 => (ip_String ipv4 ++ str ":" ++ itoa port, str "udp4")
      | None => (str "[" ++ ip_String ip ++ str "]:" ++ itoa port, str "udp6")
      end
  | None =>
      let '(addr, network) :=
        match xParseIP host with
        | Some parsed =>
            if bool_decide (To4 parsed = None) then (str "[" ++ ip_String parsed ++ str "]", str "udp6")
            else (ip_String parsed, str "udp4")
        | None =>
            (host, if useIPv6 x then (if useIPv4 x then str "udp" else str "udp6") else str "udp4")
        end in
      (addr ++ str ":" ++ itoa port, network)
  end.

(** [Dial] of the HTTP/3 transport; [dial] stands for the resolution of the target, the
    socket and the QUIC handshake. *)
Definition h3_Dial {B} (dial : bytes * bytes -> X S (result exchange_error B)) (addrStr : bytes)
    : X S (result exchange_error B) :=
  let '(host, port) := ExtractHostAndPort addrStr DefaultPort in
  x <-- gets id ;;
  '(cached, _, _) <-- loadCachedIPs host ;;
  r <-- first_success dial (targets (buildAddr x host port) cached) OtherError ;;
  match r with
  | Ok conn => recordQUICDial host ;;; xret (Ok conn)
  | Err e => xret (Err e)
  end.

(** ** Queries *)

(** [strconv.ParseUint] with base 10 and 16 bits. *)
Definition ParseUint16 (s : bytes) : option Z :=
  if (len s =? 0) || negb (forallb is_digit_byte s) then None
  else if digits_value s <=? 65535 then Some (digits_value s) else None.

(** The port of the first HTTP/3 alternative among the values of a header. *)
Fixpoint alt_values (i j : nat) (vs : list bytes) : option Z :=
  match vs with
  | [] => None
  | v :: vs' =>
      if (8 <=? i)%nat || (16 <=? j)%nat then None
      else
        let v := TrimSpace v in
        if HasPrefix v (str "h3=" ++ [34; 58]) then             (* a quote and a colon *)
          match ParseUint16 (TrimSuffix (drop 5 v) [34]) with
          | Some port => Some port
          | None => alt_values i (Datatypes.S j) vs'
          end
        else alt_values i (Datatypes.S j) vs'
  end.

Fixpoint parse_alt (i : nat) (alt : list bytes) (altPort : Z) (advertisesH3 : bool) : Z * bool :=
  match alt with
  | [] => (altPort, advertisesH3)
  | xalt :: alt' =>
      if bool_decide (TrimSpace xalt = str "clear") then (0, false)
      else match alt_values i 0 (Split xalt 59) with
      | Some port => parse_alt (Datatypes.S i) alt' port true
      | None => parse_alt (Datatypes.S i) alt' altPort advertisesH3
      end
  end.

(** [io.LimitReader] and [io.ReadAll]. *)
Definition LimitReader (s : stream) (n : Z) : stream :=
  (take (Z.to_nat n) s.1, if len s.1 <? n then s.2 else None).
Definition ReadAll (s : stream) : result exchange_error bytes :=
  match s.2 with None => Ok s.1 | Some e => Err e end.

Definition add_query (key value : bytes) (u : URL) : URL :=
  {| url_Host := url_Host u; url_Path := url_Path u;
     url_RawQuery := values_Encode (values_Add key value (ParseQuery (url_RawQuery u))) |}.

(** One request to a transport; what it does to the count of QUIC connections. *)
Definition do_request (h3 : bool) (rq : request) (connReused : bool)
    : X S (option response * option exchange_error * bool * Duration) :=
  start <-- xnow ;;
  log_event (EvDo h3 rq) ;;;
  r <-- on_env (client_Do h3 rq) ;;
  modify (fun x => foldl (fun x addr =>
    let host := (ExtractHostAndPort addr DefaultPort).1 in
    set_quicDialCount (<[host := uint64 (default 0 (quicDialCount x !! host) + 1)]> (quicDialCount x)) x) x (do_dials r)) ;;;
  t <-- xnow ;;
  xret (do_resp r, do_err r, default connReused (do_gotConn r), time_sub t start).

(** What [Fetch] returns: body, status, TLS state, round-trip time, trace, error. *)
Record fetched := {
  f_body : bytes; f_status : Z; f_tls : option tls_state; f_rtt : Duration;
  f_trace : FetchTrace; f_err : option exchange_error;
}.

Definition trace0 : FetchTrace :=
  {| UsedHTTP3 := false; QUICFallback := false; ConnReused := false; TLSResumed := false; NegotiatedProto := [] |}.

Definition no_fetch (e : exchange_error) : fetched :=
  {| f_body := []; f_status := 0; f_tls := None; f_rtt := 0; f_trace := trace0; f_err := Some e |}.

(** Whether HTTP/3 is used, [hasAltSupport] and [http3Suppressed]. *)
Definition choose_transport (urlHost : bytes) (port : Z) : X S (bool * bool * bool) :=
  x <-- gets id ;;
  if h3Transport x then
    '(altPort, found, negative) <-- loadAltSupport urlHost ;;
    if http3Probe x then xret (negb negative, false, negative)
    else
      let hasAltSupport := found && negb negative in
      xret (hasAltSupport && (altPort >? 0) && (altPort =? port), hasAltSupport, negative)
  else xret (false, false, false).

Definition headers (accept contentType : bytes) (compressed : bool) : list (bytes * bytes) :=
  [(str "User-Agent", str "dnscrypt-proxy")]
  ++ (if len accept >? 0 then [(str "Accept", accept)] else [])
  ++ (if len contentType >? 0 then [(str "Content-Type", contentType)] else [])
  ++ [(str "Cache-Control", str "max-stale")]
  ++ (if compressed then [(str "Accept-Encoding", str "gzip")] else []).

(** What is learnt of the host's support of HTTP/3 from a response. *)
Definition learn_alt (urlHost : bytes) (port : Z) (h3ProbeFailed http3Suppressed : bool) (resp : response) : X S unit :=
  x <-- gets id ;;
  if http3Probe x && http3Suppressed then xret tt
  else
    let '(altPort, advertisesH3) :=
      match rs_AltSvc resp with
      | Some alt => parse_alt 0 alt (Z.land port 65535) false
      | None => (Z.land port 65535, false)
      end in
    if h3ProbeFailed then recordHTTP3ProbeFailure urlHost advertisesH3
    else match rs_AltSvc resp with
    | Some _ => saveAltSupport urlHost altPort
    | None => xret tt
    end.

(** The body of a response, decompressed if it has to be. *)
Definition read_body (compress : bool) (resp : response) : result exchange_error bytes :=
  if compress && rs_gzip resp then
    match NewReader (LimitReader (rs_Body resp) MaxHTTPBodyLength) with
    | Err e => Err e
    | Ok body => ReadAll (LimitReader body MaxHTTPBodyLength)
    end
  else ReadAll (LimitReader (rs_Body resp) MaxHTTPBodyLength).

(** The request, and the same over HTTP/2 after a failure over HTTP/3; the last result tells
    whether that happened. *)
Definition send (urlHost : bytes) (useH3 : bool) (rq : request)
    : X S (option response * option exchange_error * bool * Duration * bool) :=
  x <-- gets id ;;
  '(resp, err, connReused, rtt) <-- do_request useH3 rq false ;;
  if negb (bool_decide (err = None)) && useH3 then
    (if http3Probe x then xret tt else saveAltSupportNegative urlHost DefaultHTTP3NegativeCacheTTL) ;;;
    '(resp, err, connReused, rtt) <-- do_request false rq connReused ;;
    xret (resp, err, connReused, rtt, true)
  else xret (resp, err, connReused, rtt, false).

(** The error of a response that arrived. *)
Definition status_error (err : option exchange_error) (resp : option response) : option exchange_error :=
  match err, resp with
  | Some e, _ => Some e
  | None, None => Some OtherError
  | None, Some r => if (rs_StatusCode r <? 200) || (rs_StatusCode r >? 299) then Some OtherError else None
  end.

(** What is done with the response; [ft] is the trace so far. *)
Definition receive (urlHost : bytes) (port : Z) (learn h3ProbeFailed http3Suppressed compress : bool)
    (resp : option response) (err : option exchange_error) (rtt : Duration) (ft : FetchTrace) : X S fetched :=
  let statusCode := match resp with Some r => rs_StatusCode r | None => 503 end in
  match status_error err resp, resp with
  | None, Some r =>
      (if learn then learn_alt urlHost port h3ProbeFailed http3Suppressed r else xret tt) ;;;
      let ft := match rs_TLS r with
        | Some tls => {| UsedHTTP3 := UsedHTTP3 ft; QUICFallback := QUICFallback ft; ConnReused := ConnReused ft;
                         TLSResumed := DidResume tls; NegotiatedProto := NegotiatedProtocol tls |}
        | None => ft
        end in
      match read_body compress r with
      | Ok b => xret {| f_body := b; f_status := statusCode; f_tls := rs_TLS r; f_rtt := rtt; f_trace := ft; f_err := None |}
      | Err e => xret {| f_body := []; f_status := statusCode; f_tls := rs_TLS r; f_rtt := rtt; f_trace := ft; f_err := Some e |}
      end
  | err, _ => xret {| f_body := []; f_status := statusCode; f_tls := None; f_rtt := rtt; f_trace := ft; f_err := err |}
  end.

Definition Fetch (method : bytes) (url : URL) (accept contentType : bytes) (body : option bytes)
    (timeout : Duration) (compress : bool) : X S fetched :=
  x <-- gets id ;;
  let timeout := if timeout <=? 0 then xt_timeout x else timeout in
  let '(host, port) := ExtractHostAndPort (url_Host url) 443 in
  '(useH3, hasAltSupport, http3Suppressed) <-- choose_transport (url_Host url) port ;;
  let url := match body with
    | Some b => add_query (str "body_hash") (hex_EncodeToString (take 32 (Sum512 b))) url
    | None => url
    end in
  if negb (xt_proxyDialer x) && HasSuffix host (str ".onion") then xret (no_fetch OtherError)
  else
    err <-- resolveAndUpdateCache host ;;
    match err with
    | Some e => xret (no_fetch e)
    | None =>
        let rq := {| rq_Method := method; rq_URL := url;
                     rq_Header := headers accept contentType (compress && bool_decide (body = None));
                     rq_Body := body; rq_Timeout := timeout |} in
        dialsBefore <-- quicDials host ;;
        '(resp, err, connReused, rtt, fallback) <-- send (url_Host url) useH3 rq ;;
        let usedHTTP3 := bool_decide (err = None) && useH3 && negb fallback in
        dialsAfter <-- quicDials host ;;
        let ft := {| UsedHTTP3 := usedHTTP3; QUICFallback := fallback;
                     ConnReused := if usedHTTP3 then dialsAfter =? dialsBefore else connReused;
                     TLSResumed := false; NegotiatedProto := [] |} in
        receive (url_Host url) port (h3Transport x && negb hasAltSupport) (fallback && http3Probe x) http3Suppressed
          compress resp err rtt ft
    end.

Definition GetWithCompression (url : URL) (accept : bytes) (timeout : Duration) : X S fetched :=
  Fetch (str "GET") url accept [] None timeout true.
Definition Get (url : URL) (accept : bytes) (timeout : Duration) : X S fetched :=
  Fetch (str "GET") url accept [] None timeout false.
Definition Post (url : URL) (accept contentType : bytes) (body : option bytes) (timeout : Duration) : X S fetched :=
  Fetch (str "POST") url accept contentType body timeout false.

Definition dohLikeQuery (dataType : bytes) (useGet : bool) (url : URL) (body : bytes) (timeout : Duration) : X S fetched :=
  if useGet then Get (add_query (str "dns") (RawURL_EncodeToString body) url) dataType timeout
  else Post url dataType dataType (Some body) timeout.

Definition DoHQuery : bool -> URL -> bytes -> Duration -> X S fetched := dohLikeQuery (str "application/dns-message").
Definition ObliviousDoHQuery : bool -> URL -> bytes -> Duration -> X S fetched :=
  dohLikeQuery (str "application/oblivious-dns-message").

(** The reply that query processing works on. *)
Definition reply_of (f : fetched) : http_reply :=
  {| http_body := f_body f; http_status := f_status f;
     tls_complete := match f_tls f with Some t => HandshakeComplete t | None => false end;
     http_trace := Some (f_trace f); http_err := f_err f |}.
End transport.
