(* ===== verification/XTransportProps.v ===== *)
(** * Properties of the HTTP transport

    Which requests a query makes, over which transport, what is remembered of hosts,
    and what the resolution of names can do to the cache of addresses. *)

From S2P Require Import Prelude GoStrings NetIP NetIPProps Common Crypto Dns ServerTypes Feedback Query Clients Url XTransport.

(** ** Frames *)

Section frames.
Context {S : Type} `{E : !HttpEnv S}.
Implicit Types w : XWorld S.

(** A computation that, where [I] holds of the transport, has events that satisfy [P] and an
    effect on the transport that satisfies [R]. *)
Definition does {A} (I : XTransport -> Prop) (P : xevent -> Prop) (R : XTransport -> XTransport -> Prop)
    (m : X S A) : Prop :=
  forall w a w', I (xt w) -> m w = (a, w') ->
    (exists l, xlog w' = xlog w ++ l /\ Forall P l) /\ R (xt w) (xt w').

(** Relations along which an invariant is kept. *)
Class Keeps (I : XTransport -> Prop) (R : XTransport -> XTransport -> Prop) := {
  keeps_preorder :: PreOrder R;
  keeps_inv x x' : R x x' -> I x -> I x';
}.

Context (I : XTransport -> Prop) (P : xevent -> Prop) (R : XTransport -> XTransport -> Prop) `{K : !Keeps I R}.

Lemma does_ret {A} (a : A) : does I P R (xret a).
Proof. intros w b w' _ [= <- <-]. split; [|reflexivity]. exists []. by rewrite app_nil_r. Qed.

Lemma does_bind {A B} (m : X S A) (k : A -> X S B) :
  does I P R m -> (forall a, does I P R (k a)) -> does I P R (xbind m k).
Proof.
  intros Hm Hk w b w' HI H. unfold xbind in H. destruct (m w) as [a w1] eqn:E1.
  destruct (Hm _ _ _ HI E1) as [(l1 & Hl1 & HP1) HR1].
  destruct (Hk a _ _ _ (keeps_inv _ _ HR1 HI) H) as [(l2 & Hl2 & HP2) HR2].
  split; [|by etrans]. exists (l1 ++ l2). rewrite Hl2, Hl1, app_assoc. split; [done|]. by apply Forall_app_2.
Qed.

(** What is read of the transport can be used for what follows. *)
Lemma does_read {A B} (f : XTransport -> A) (k : A -> X S B) :
  (forall x, I x -> does I P R (k (f x))) -> does I P R (xbind (gets f) k).
Proof. intros Hk w b w' HI H. unfold xbind, gets in H. by apply (Hk _ HI w b w' HI). Qed.

Lemma does_on_env {A} (f : S -> A * S) : does I P R (on_env f).
Proof.
  intros w b w' _. unfold on_env. destruct (f (xenv w)) as [a s]. intros [= <- <-].
  split; [|reflexivity]. exists []. by rewrite app_nil_r.
Qed.

Lemma does_log e : P e -> does I P R (log_event e).
Proof. intros He w b w' _ [= <- <-]. split; [|reflexivity]. exists [e]. split; [done|by constructor]. Qed.

Lemma does_modify f : (forall x, I x -> R x (f x)) -> does I P R (modify f).
Proof. intros Hf w b w' HI [= <- <-]. split; [|by apply Hf]. exists []. by rewrite app_nil_r. Qed.
End frames.

(** Takes a computation apart into its steps. *)
Ltac steps :=
  repeat first
    [ apply does_ret; apply _ | apply does_on_env; apply _ | apply does_log; [apply _|]
    | match goal with
      | |- does _ _ _ (xbind (gets _) _) => apply does_read; intros ? ?
      | |- does _ _ _ (xbind _ _) => apply does_bind; [apply _| |intros ?]
      end
    | match goal with |- does _ _ _ (match ?x with _ => _ end) => destruct x eqn:? end ].

(** ** Resolution of names *)

(** What resolving a name may change: the addresses of [host], and the order of the resolvers. *)
Definition resolves (host : option bytes) (x x' : XTransport) : Prop :=
  (h3Transport x', http3Probe x', xt_proxyDialer x', httpProxyFunction x', useIPv4 x', useIPv6 x', xt_timeout x',
   mainProto x', ignoreSystemDNS x', internalResolverReady x') =
  (h3Transport x, http3Probe x, xt_proxyDialer x, httpProxyFunction x, useIPv4 x, useIPv6 x, xt_timeout x,
   mainProto x, ignoreSystemDNS x, internalResolverReady x) /\
  altSupport x' = altSupport x /\ quicDialCount x' = quicDialCount x /\
  internalResolvers x' ≡ₚ internalResolvers x /\ bootstrapResolvers x' ≡ₚ bootstrapResolvers x /\
  forall h, Some h <> host -> cachedIPs x' !! h = cachedIPs x !! h.

#[global] Instance resolves_preorder host : PreOrder (resolves host).
Proof.
  split.
  - intros x. by split_and!.
  - intros x y z (H1 & H2 & H3 & H4 & H5 & H6) (G1 & G2 & G3 & G4 & G5 & G6). split_and!; [congruence..|by etrans|by etrans|].
    intros h Hh. by rewrite G6, H6.
Qed.

(** The resolvers of the transport, in some order. *)
Definition resolvers_are (own boot : list bytes) (x : XTransport) : Prop :=
  internalResolvers x ≡ₚ own /\ bootstrapResolvers x ≡ₚ boot.

#[global] Instance resolves_keeps host own boot : Keeps (resolvers_are own boot) (resolves host).
Proof. split; [apply _|]. intros x x' (_ & _ & _ & Hi & Hb & _) [H1 H2]. split; by etrans. Qed.

(** The events of a resolution of [host] by the resolvers of [L]: queries to them for the
    addresses of [host], and pauses. *)
Definition asks (host : bytes) (L : list bytes) (e : xevent) : Prop :=
  match e with
  | EvExchange _ resolver h t => resolver ∈ L /\ h = host /\ (t = TypeA \/ t = TypeAAAA)
  | EvSleep d => 0 <= d <= resolverRetryMaxBackoff
  | EvDo _ _ | EvLookup _ => False
  end.

Definition no_request (e : xevent) : Prop := match e with EvDo _ _ => False | _ => True end.

(** The events of a resolution of [host] for [x].  When [ignore_system_dns] is off, the system
    is asked first, and the bootstrap resolvers only after it.  When it is on, the proxy itself
    is asked, if it is ready, then the bootstrap resolvers; the system is only asked at the
    end, and then every bootstrap resolver has been asked over UDP and over TCP. *)
Definition resolution (x : XTransport) (v4 v6 : bool) (host : bytes) (l : list xevent) : Prop :=
  exists own boot system,
    Forall (asks host (internalResolvers x)) own /\ Forall (asks host (bootstrapResolvers x)) boot /\
    (system = [] \/ system = [EvLookup host]) /\
    if ignoreSystemDNS x then
      l = own ++ boot ++ system /\ (internalResolverReady x = false -> own = []) /\
      (system <> [] -> v4 || v6 = true -> forall proto resolver,
        proto ∈ [str "udp"; str "tcp"] -> resolver ∈ bootstrapResolvers x ->
        exists t, EvExchange proto resolver host t ∈ boot)
    else l = system ++ boot /\ (boot <> [] -> system <> []).

Lemma does_impl {S} `{E : !HttpEnv S} {A} I (P Q : xevent -> Prop) R (m : X S A) :
  (forall e, P e -> Q e) -> does I P R m -> does I Q R m.
Proof.
  intros HPQ Hm w a w' HI H. destruct (Hm w a w' HI H) as [(l & Hl & HP) HR]. split; [|done].
  exists l. split; [done|]. by eapply Forall_impl.
Qed.

Section resolution.
Context {S : Type} `{E : !HttpEnv S} (host : bytes) (own boot : list bytes) (v4 v6 : bool).

Definition resolver_set (which : resolver_list) : list bytes := match which with Internal => own | Bootstrap => boot end.

Notation asking L h := (does (S := S) (resolvers_are own boot) (asks host L) (resolves h)).
Notation resolving h := (does (S := S) (resolvers_are own boot) no_request (resolves h)).

Lemma query_types_does L h proto resolver ts acc last : resolver ∈ L ->
  Forall (fun t => t = TypeA \/ t = TypeAAAA) ts -> asking L h (query_types proto host resolver ts acc last).
Proof.
  intros Hr Ht. revert acc last. induction Ht as [|t ts Ht Hts IH]; intros acc last; cbn [query_types]; steps; auto.
  by split_and!.
Qed.

Lemma resolveUsingResolver_does L h proto resolver : resolver ∈ L ->
  asking L h (resolveUsingResolver proto host resolver v4 v6).
Proof.
  intros Hr. unfold resolveUsingResolver. apply does_bind; [apply _| |intros [[found t] e]; steps].
  apply query_types_does; [done|]. destruct v4, v6; repeat apply Forall_cons_2; auto.
Qed.

Lemma attempts_does L h proto resolver count delay last : resolver ∈ L -> 0 <= delay <= resolverRetryMaxBackoff ->
  asking L h (attempts proto host resolver v4 v6 count delay last).
Proof.
  intros Hr. revert delay last. induction count as [|count IH]; intros delay last Hd; cbn [attempts]; [steps|].
  apply does_bind; [apply _|by apply resolveUsingResolver_does|intros [[found ttl] err]].
  destruct (_ && _); [steps|]. destruct count as [|count]; [steps|].
  apply does_bind; [apply _|by apply does_log; [apply _|]|intros _]. apply IH. unfold Min.
  unfold resolverRetryMaxBackoff, Second in *. split_ifs; lia.
Qed.

Lemma swap_first_perm i l : swap_first i l ≡ₚ l.
Proof.
  unfold swap_first. destruct l as [|a l]; [done|]. destruct i as [|i]; [done|]. simpl.
  destruct (l !! i) as [b|] eqn:E1; [|done]. simpl.
  rewrite <-(take_drop_middle l i b E1) at 2. rewrite (insert_take_drop l i a) by (by eapply lookup_lt_Some).
  rewrite <-!Permutation_middle. apply Permutation_swap.
Qed.

Lemma set_resolvers_of_resolves h which i x :
  resolves h x (set_resolvers_of which (swap_first i (resolvers_of which x)) x).
Proof. destruct which; split_and!; try done; simpl; apply swap_first_perm. Qed.

Lemma servers_loop_does L h proto which i resolvers last : resolvers ⊆ L ->
  asking L h (servers_loop proto host which v4 v6 i resolvers last).
Proof.
  revert i last. induction resolvers as [|r rs IH]; intros i last Hr; cbn [servers_loop]; [steps|].
  apply does_bind; [apply _| |intros [[found ttl]|e]].
  - apply attempts_does; [apply Hr; by left|]. vm_compute; split; discriminate.
  - steps. apply does_modify. intros x _. apply set_resolvers_of_resolves.
  - apply IH. intros r' Hr'. apply Hr. by right.
Qed.

Lemma resolveUsingServers_does h proto which : asking (resolver_set which) h (resolveUsingServers proto host which v4 v6).
Proof.
  unfold resolveUsingServers. apply does_read. intros x [H1 H2]. apply servers_loop_does.
  intros r Hr. destruct which; [by rewrite <-H1|by rewrite <-H2].
Qed.

Lemma protos_loop_does h which protos last : asking (resolver_set which) h (protos_loop host which v4 v6 protos last).
Proof.
  revert last. induction protos as [|p ps IH]; intros last; cbn [protos_loop]; steps; auto using resolveUsingServers_does.
Qed.

Lemma resolveUsingSystem_does h : resolving h (resolveUsingSystem host v4 v6).
Proof. unfold resolveUsingSystem. steps. done. Qed.

Lemma resolve_does h : resolving h (resolve host v4 v6).
Proof.
  unfold resolve. steps; auto using resolveUsingSystem_does;
    (eapply does_impl; [|apply protos_loop_does]; by intros []).
Qed.

(** *** The cache *)

Lemma loadCachedIPs_does h g : resolving h (loadCachedIPs g).
Proof. unfold loadCachedIPs, xnow. steps. Qed.

Lemma set_cachedIPs_resolves g item x : resolves (Some g) x (set_cachedIPs (<[g := item]> (cachedIPs x)) x).
Proof. split_and!; try done. intros h Hh. simpl. rewrite lookup_insert_ne; [done|congruence]. Qed.

Lemma saveCachedIPs_does l ttl g : resolving (Some g) (saveCachedIPs g l ttl).
Proof. unfold saveCachedIPs, xnow. steps; apply does_modify; intros; apply set_cachedIPs_resolves. Qed.

Lemma markUpdatingCachedIP_does g : resolving (Some g) (markUpdatingCachedIP g).
Proof. unfold markUpdatingCachedIP, xnow. steps. apply does_modify. intros y _. apply set_cachedIPs_resolves. Qed.
(** What concerns the cache of addresses makes no event. *)
Lemma loadCachedIPs_quiet g (w : XWorld S) r w' : loadCachedIPs g w = (r, w') -> xlog w' = xlog w /\ xt w' = xt w.
Proof.
  unfold loadCachedIPs, xnow, on_env, gets, xbind, xret.
  destruct (cachedIPs (xt w) !! g) as [item|]; [|by intros [= <- <-]].
  destruct (ci_expiration item); [|by intros [= <- <-]]. destruct (Now (xenv w)) as [t1 s1]. cbn.
  destruct (_ <? 0); [|by intros [= <- <-]].
  destruct (updatingUntil item); [|by intros [= <- <-]]. cbn. destruct (Now s1) as [t2 s2]. by intros [= <- <-].
Qed.

Lemma markUpdatingCachedIP_quiet g (w : XWorld S) u w' : markUpdatingCachedIP g w = (u, w') ->
  xlog w' = xlog w /\ resolves (Some g) (xt w) (xt w').
Proof.
  unfold markUpdatingCachedIP, xnow, on_env, gets, modify, xbind, xret.
  destruct (cachedIPs (xt w) !! g) as [item|]; [|intros [= <- <-]; split; [done|reflexivity]].
  destruct (Now (xenv w)) as [t s]. intros [= <- <-]. split; [done|]. apply set_cachedIPs_resolves.
Qed.

Lemma saveCachedIPs_quiet g l ttl (w : XWorld S) u w' : saveCachedIPs g l ttl w = (u, w') -> xlog w' = xlog w.
Proof.
  unfold saveCachedIPs. destruct (_ =? 0); [by intros [= <- <-]|].
  unfold xnow, on_env, xbind, xret, modify. destruct (ttl >=? 0); [|by intros [= <- <-]].
  destruct (Int63n _ _) as [j s1]. cbn. destruct (Now s1) as [t s2]. by intros [= <- <-].
Qed.
End resolution.

Lemma resolveAndUpdateCache_does {S} `{E : !HttpEnv S} host own boot :
  does (S := S) (resolvers_are own boot) no_request (resolves (Some host)) (resolveAndUpdateCache host).
Proof.
  unfold resolveAndUpdateCache. steps; auto using loadCachedIPs_does, markUpdatingCachedIP_does, resolve_does, saveCachedIPs_does.
Qed.

(** *** Which resolvers have been asked *)

Section asked.
Context {S : Type} `{E : !HttpEnv S} (host : bytes) (v4 v6 : bool).

(** The events of a computation and its result satisfy [Q]. *)
Definition logs {A} (Q : A -> list xevent -> Prop) (m : X S A) : Prop :=
  forall w a w', m w = (a, w') -> exists l, xlog w' = xlog w ++ l /\ Q a l.

Lemma logs_ret {A} (Q : A -> list xevent -> Prop) a : Q a [] -> logs Q (xret a).
Proof. intros HQ w b w' [= <- <-]. exists []. by rewrite app_nil_r. Qed.

Lemma logs_log e (Q : unit -> list xevent -> Prop) : Q tt [e] -> logs Q (log_event e).
Proof. intros HQ w [] w' [= <-]. by exists [e]. Qed.

Lemma logs_on_env {A} (f : S -> A * S) : logs (fun _ _ => True) (on_env f).
Proof. intros w a w'. unfold on_env. destruct (f (xenv w)) as [b s]. intros [= <- <-]. exists []. by rewrite app_nil_r. Qed.

Lemma logs_modify f : logs (fun _ _ => True) (modify f : X S unit).
Proof. intros w a w' [= <- <-]. exists []. by rewrite app_nil_r. Qed.

Lemma logs_bind {A B} (P : A -> list xevent -> Prop) (Q : B -> list xevent -> Prop) (m : X S A) (k : A -> X S B) :
  logs P m -> (forall a l1, P a l1 -> logs (fun b l2 => Q b (l1 ++ l2)) (k a)) -> logs Q (xbind m k).
Proof.
  intros Hm Hk w b w' H. unfold xbind in H. destruct (m w) as [a w1] eqn:E1.
  destruct (Hm _ _ _ E1) as (l1 & Hl1 & HP). destruct (Hk a l1 HP _ _ _ H) as (l2 & Hl2 & HQ).
  exists (l1 ++ l2). by rewrite Hl2, Hl1, app_assoc.
Qed.

(** The resolver has been asked for an address, over [proto]. *)
Definition was_asked (proto resolver : bytes) (l : list xevent) : Prop := exists t, EvExchange proto resolver host t ∈ l.

Lemma was_asked_app proto resolver l1 l2 :
  was_asked proto resolver l1 \/ was_asked proto resolver l2 -> was_asked proto resolver (l1 ++ l2).
Proof. unfold was_asked. intros [[t H]|[t H]]; exists t; set_solver. Qed.

Lemma query_types_asked proto resolver ts acc last :
  logs (fun _ l => ts <> [] -> was_asked proto resolver l) (query_types proto host resolver ts acc last).
Proof.
  revert acc last. induction ts as [|t ts IH]; intros acc last; cbn [query_types]; [by apply logs_ret|].
  eapply logs_bind; [apply logs_on_env|intros id l1 _].
  eapply logs_bind; [by apply (logs_log _ (fun _ l => was_asked proto resolver l)); exists t; left|intros u l2 Hask].
  eapply logs_bind; [apply logs_on_env|intros r l3 _].
  destruct r; intros w b w' H; destruct (IH _ _ w b w' H) as (l4 & Hl4 & _); exists l4; (split; [done|]);
    intros _; apply was_asked_app; right; apply was_asked_app; by left.
Qed.

Lemma resolveUsingResolver_asked proto resolver :
  logs (fun _ l => v4 || v6 = true -> was_asked proto resolver l) (resolveUsingResolver proto host resolver v4 v6).
Proof.
  unfold resolveUsingResolver. eapply logs_bind; [apply query_types_asked|]. intros [[found t] e] l Hask.
  destruct (_ >? 0); apply logs_ret; intros H; rewrite app_nil_r; apply Hask; by destruct v4, v6.
Qed.

Lemma attempts_asked proto resolver count delay last :
  logs (fun _ l => count <> O -> v4 || v6 = true -> was_asked proto resolver l)
    (attempts proto host resolver v4 v6 count delay last).
Proof.
  revert delay last. induction count as [|count IH]; intros delay last; cbn [attempts]; [by apply logs_ret|].
  eapply logs_bind; [apply resolveUsingResolver_asked|intros [[found ttl] err] l1 Hask].
  destruct (_ && _); [apply logs_ret; rewrite app_nil_r; auto|].
  destruct count as [|count]; [apply logs_ret; rewrite app_nil_r; auto|].
  eapply logs_bind; [by apply (logs_log _ (fun _ _ => True))|intros _ l2 _].
  intros w a w' H. destruct (IH _ _ w a w' H) as (l3 & Hl3 & _). exists l3. split; [done|].
  intros _ Hv. apply was_asked_app. auto.
Qed.

Lemma servers_loop_asked proto which i resolvers last :
  logs (fun r l => r.2 <> None -> v4 || v6 = true -> Forall (fun resolver => was_asked proto resolver l) resolvers)
    (servers_loop proto host which v4 v6 i resolvers last).
Proof.
  revert i last. induction resolvers as [|r rs IH]; intros i last; cbn [servers_loop]; [apply logs_ret; constructor|].
  eapply logs_bind; [apply attempts_asked|intros [[found ttl]|e] l1 Hask].
  - eapply (logs_bind (fun _ _ => True)); [destruct (_ <? _)%nat; [apply logs_modify|by apply logs_ret]|].
    intros _ l2 _. by apply logs_ret.
  - intros w a w' H. destruct (IH _ _ w a w' H) as (l2 & Hl2 & Hall). exists l2. split; [done|]. intros Hr Hv. constructor.
    + apply was_asked_app. left. by apply Hask.
    + eapply Forall_impl; [by apply Hall|]. intros r' Hr'. apply was_asked_app. by right.
Qed.

(** A resolution that fails has asked every resolver over every protocol. *)
Lemma protos_loop_asked which protos last w r w' :
  protos_loop host which v4 v6 protos last w = (r, w') ->
  exists l, xlog w' = xlog w ++ l /\
    (r.2 <> None -> v4 || v6 = true -> forall proto resolver, proto ∈ protos -> resolver ∈ resolvers_of which (xt w) ->
     was_asked proto resolver l).
Proof.
  revert last w. induction protos as [|p ps IH]; intros last w; cbn [protos_loop].
  { intros [= <- <-]. exists []. rewrite app_nil_r. split; [done|]. intros _ _ ? ? []%not_elem_of_nil. }
  unfold xbind. destruct (resolveUsingServers p host which v4 v6 w) as [r1 w1] eqn:E1.
  pose proof (resolveUsingServers_does host (internalResolvers (xt w)) (bootstrapResolvers (xt w)) v4 v6 None p which
    w r1 w1 ltac:(done) E1) as [_ (_ & _ & _ & Hi & Hb & _)].
  unfold resolveUsingServers, xbind, gets in E1. destruct (servers_loop_asked _ _ _ _ _ _ _ _ E1) as (l1 & Hl1 & Hall).
  case_bool_decide as Hr1.
  { intros [= <- <-]. by exists l1. }
  intros H. destruct (IH _ _ H) as (l2 & Hl2 & Hrest). exists (l1 ++ l2). rewrite Hl2, Hl1, app_assoc.
  split; [done|]. intros Hr Hv proto resolver [->|Hp]%elem_of_cons Hin; apply was_asked_app; [left|right].
  - specialize (Hall Hr1 Hv). rewrite Forall_forall in Hall. by apply Hall.
  - apply Hrest; try done. destruct which; [by rewrite Hi|by rewrite Hb].
Qed.
End asked.

(** *** The order of a resolution *)

Section order.
Context {S : Type} `{E : !HttpEnv S} (host : bytes).
Implicit Types w : XWorld S.

Lemma resolveUsingSystem_log v4 v6 w r w' : resolveUsingSystem host v4 v6 w = (r, w') ->
  xlog w' = xlog w ++ [EvLookup host].
Proof.
  unfold resolveUsingSystem, log_event, on_env, xbind, xret. cbn. destruct (LookupIP host (xenv w)) as [[ipa err] s].
  by destruct (_ && _); intros [= <- <-].
Qed.

(** The loop over protocols, seen from a state [x] with the same resolvers. *)
Lemma protos_loop_log x v4 v6 which protos last w r w' :
  resolvers_are (internalResolvers x) (bootstrapResolvers x) (xt w) ->
  protos_loop host which v4 v6 protos last w = (r, w') ->
  resolvers_are (internalResolvers x) (bootstrapResolvers x) (xt w') /\
  exists l, xlog w' = xlog w ++ l /\ Forall (asks host (resolvers_of which x)) l /\
    (r.2 <> None -> v4 || v6 = true -> forall proto resolver, proto ∈ protos -> resolver ∈ resolvers_of which x ->
     was_asked host proto resolver l).
Proof.
  intros Hx H. destruct (protos_loop_does host _ _ v4 v6 None which protos last w r w' Hx H) as [(l & Hl & HP) HR].
  destruct (protos_loop_asked _ _ _ _ _ _ _ _ _ H) as (l' & Hl' & Hall). rewrite Hl in Hl'. apply app_inv_head in Hl' as <-.
  split; [by eapply keeps_inv|]. exists l. split_and!; [done|by destruct which|].
  intros Hr Hv proto resolver Hp Hin. apply Hall; try done. destruct Hx as [Hi Hb].
  destruct which; [by rewrite Hi|by rewrite Hb].
Qed.

Lemma resolve_resolution v4 v6 w r w' : resolve host v4 v6 w = (r, w') ->
  exists l, xlog w' = xlog w ++ l /\ resolution (xt w) v4 v6 host l.
Proof.
  unfold resolve, xbind at 1, gets. cbn [id]. set (x := xt w). set (protos := if bool_decide _ then _ else _).
  assert (forall proto, proto ∈ [str "udp"; str "tcp"] -> proto ∈ protos) as Hprotos.
  { intros proto Hp. unfold protos. destruct (bool_decide _); set_solver. }
  clearbody protos.
  assert (resolvers_are (internalResolvers x) (bootstrapResolvers x) (xt w)) as Hx by done.
  unfold xbind at 1. match goal with |- context [(if ?c then ?a else ?b) w] => destruct ((if c then a else b) w) as [r1 w1] eqn:E1 end.
  unfold xbind at 1. match goal with |- context [(if ?c then ?a else ?b) w1] => destruct ((if c then a else b) w1) as [r2 w2] eqn:E2 end.
  intros H.
  unfold resolution. destruct (ignoreSystemDNS x) eqn:Eig.
  - assert (exists own, xlog w1 = xlog w ++ own /\ Forall (asks host (internalResolvers x)) own /\
      resolvers_are (internalResolvers x) (bootstrapResolvers x) (xt w1) /\
      (internalResolverReady x = false -> own = [])) as (own & Hl1 & Hown & Hx1 & Hready).
    { destruct (internalResolverReady x).
      - apply (protos_loop_log x) in E1 as (Hx1 & l & Hl & HP & _); [|done]. by exists l.
      - injection E1 as <- <-. exists []. rewrite app_nil_r. by split_and!. }
    assert (exists boot, xlog w2 = xlog w1 ++ boot /\ Forall (asks host (bootstrapResolvers x)) boot /\
      (r2.2 <> None -> v4 || v6 = true -> forall proto resolver, proto ∈ protos -> resolver ∈ bootstrapResolvers x ->
       was_asked host proto resolver boot)) as (boot & Hl2 & Hboot & Hall).
    { clear H. case_bool_decide as Hr1.
      - injection E2 as <- <-. exists []. rewrite app_nil_r. split_and!; try done; constructor.
      - apply (protos_loop_log x) in E2 as (_ & l & Hl & HP & Hall); [|done]. by exists l. }
    clear E1 E2. rewrite andb_true_r in H. case_bool_decide as Hr2; cbn in H.
    + injection H as <- <-. exists (own ++ boot). rewrite Hl2, Hl1, app_assoc. split; [done|].
      exists own, boot, []. rewrite app_nil_r. split_and!; try done. by left.
    + apply resolveUsingSystem_log in H. exists (own ++ boot ++ [EvLookup host]). rewrite H, Hl2, Hl1, <-!app_assoc.
      split; [done|]. exists own, boot, [EvLookup host]. split_and!; try done; [by right|].
      intros _ Hv proto resolver Hp Hin. by apply Hall; auto.
  - rewrite andb_false_r in H. injection H as <- <-.
    unfold xbind in E1. destruct (resolveUsingSystem host v4 v6 w) as [[[found ttl] err] w1'] eqn:Es.
    injection E1 as <- <-. pose proof (resolveUsingSystem_does host (internalResolvers x) (bootstrapResolvers x)
      v4 v6 None w _ _ Hx Es) as [_ HR]. apply resolveUsingSystem_log in Es.
    assert (exists boot, xlog w2 = xlog w1' ++ boot /\ Forall (asks host (bootstrapResolvers x)) boot) as (boot & Hl2 & Hboot).
    { case_bool_decide as Hr1.
      - injection E2 as <- <-. exists []. by rewrite app_nil_r.
      - apply (protos_loop_log x) in E2 as (_ & l & Hl & HP & _); [by exists l|by eapply keeps_inv]. }
    exists ([EvLookup host] ++ boot). rewrite Hl2, Es, app_assoc. split; [done|].
    exists [], boot, [EvLookup host]. split_and!; try done. by right.
Qed.

Lemma resolution_nil x v4 v6 : resolution x v4 v6 host [].
Proof. exists [], [], []. split_and!; try done; [by left|]. by destruct (ignoreSystemDNS x). Qed.

Lemma resolution_same x x' v4 v6 l : resolves (Some host) x x' -> resolution x' v4 v6 host l -> resolution x v4 v6 host l.
Proof.
  intros (Hcfg & _ & _ & Hi & Hb & _) (own & boot & system & Hown & Hboot & Hsys & H). injection Hcfg as _ _ _ _ _ _ _ _ Hig Hrd.
  rewrite Hig, Hrd in H. assert (forall L L', L ≡ₚ L' -> forall e, asks host L e -> asks host L' e) as Hasks.
  { intros L L' HL []; cbn; [done| |done|done]. by rewrite HL. }
  exists own, boot, system. split_and!; [by eapply Forall_impl; [|apply Hasks]..|done|].
  destruct (ignoreSystemDNS x); [|done]. destruct H as (? & ? & Hall). split_and!; try done.
  intros ? ? proto resolver Hp Hin. apply Hall; try done. by rewrite Hb.
Qed.

(** The resolution of a host for a query: none for an address, through a proxy, or when the
    addresses are known; otherwise in the order above. *)
Lemma resolveAndUpdateCache_resolution w err w' : resolveAndUpdateCache host w = (err, w') ->
  exists l, xlog w' = xlog w ++ l /\ resolution (xt w) (useIPv4 (xt w)) (useIPv6 (xt w)) host l /\
    (xt_proxyDialer (xt w) = true \/ httpProxyFunction (xt w) = true \/ xParseIP host <> None -> l = []).
Proof.
  unfold resolveAndUpdateCache, xbind at 1, gets. cbn [id]. set (x := xt w).
  assert (exists l, xlog w = xlog w ++ l /\ resolution x (useIPv4 x) (useIPv6 x) host l /\
    (xt_proxyDialer x = true \/ httpProxyFunction x = true \/ xParseIP host <> None -> l = [])) as Hnil.
  { exists []. rewrite app_nil_r. split_and!; try done. apply resolution_nil. }
  destruct (xt_proxyDialer x || httpProxyFunction x) eqn:Epx; [by intros [= <- <-]|].
  apply orb_false_iff in Epx as [Ep1 Ep2]. case_bool_decide as Eip; [by intros [= <- <-]|].
  assert (resolvers_are (internalResolvers x) (bootstrapResolvers x) (xt w)) as Hx by done.
  unfold xbind at 1. destruct (loadCachedIPs host w) as [[[cached expired] updating] w1] eqn:E1.
  destruct (loadCachedIPs_quiet _ _ _ _ E1) as [Hl1 Hx1].
  destruct (_ && _); [intros [= <- <-]; by rewrite Hl1|].
  unfold xbind at 1. destruct (markUpdatingCachedIP host w1) as [u w2] eqn:E2.
  destruct (markUpdatingCachedIP_quiet _ _ _ _ E2) as [Hl2 HR2].
  unfold xbind at 1. destruct (resolve host _ _ w2) as [[[found ttl] e] w3] eqn:E3.
  apply resolve_resolution in E3 as (l & Hl3 & Hres). intros H.
  assert (xlog w' = xlog w3) as Hl4.
  { destruct (_ && (len cached >? 0)); [|destruct e; [by injection H as <- <-|]];
      (destruct (_ =? 0) in H; [by injection H as <- <-|]; unfold xbind in H;
       destruct (saveCachedIPs host _ _ w3) as [u' w4] eqn:E4; injection H as <- <-; by eapply saveCachedIPs_quiet). }
  exists l. rewrite Hl4, Hl3, Hl2, Hl1. split_and!; [done| |].
  - eapply resolution_same; [|done]. rewrite Hx1 in HR2. exact HR2.
  - intros [?|[?|?]]; congruence.
Qed.
End order.

(** ** Requests *)

Definition dos (l : list xevent) : list (bool * request) :=
  omap (fun e => match e with EvDo h3 rq => Some (h3, rq) | _ => None end) l.

Lemma dos_app l k : dos (l ++ k) = dos l ++ dos k.
Proof. apply omap_app. Qed.

Lemma dos_no_request l : Forall no_request l -> dos l = [].
Proof. induction 1 as [|e l He Hl IH]; [done|]. unfold dos in *. csimpl. by destruct e. Qed.

(** HTTP/3 is suppressed for a host at [t]. *)
Definition suppressed (x : XTransport) (urlHost : bytes) (t : Time) : Prop :=
  exists e, altSupport x !! urlHost = Some e /\ ae_port e <= 0 /\
    (negativeUntil e = zero_time \/ t < negativeUntil e).

(** The condition for a query to start over HTTP/3: when probing, that the host is not
    suppressed; otherwise that it has advertised HTTP/3 for the port of the URL. *)
Definition h3_allowed (x : XTransport) (urlHost : bytes) (port : Z) (t : Time) : Prop :=
  h3Transport x = true /\
  if http3Probe x then ~ suppressed x urlHost t
  else 0 < port /\ ae_port <$> altSupport x !! urlHost = Some port.

Section requests.
Context {S : Type} `{E : !HttpEnv S}.
Implicit Types w : XWorld S.

Lemma loadAltSupport_spec urlHost w port found negative w' :
  loadAltSupport urlHost w = (port, found, negative, w') ->
  xt w' = xt w /\ xlog w' = xlog w /\ (negative = true <-> suppressed (xt w) urlHost (Now (xenv w)).1) /\
  (found = true -> negative = false -> 0 < port /\ ae_port <$> altSupport (xt w) !! urlHost = Some port).
Proof.
  unfold loadAltSupport, xnow, on_env, gets, xbind, xret, suppressed.
  destruct (altSupport (xt w) !! urlHost) as [e|] eqn:Ee.
  2: { intros [= <- <- <- <-]. split_and!; try done. split; [done|]. by intros (? & ? & _). }
  destruct (ae_port e >? 0) eqn:Ep; bools.
  { intros [= <- <- <- <-]. split_and!; try done. split; [done|]. intros (e' & [= <-] & ? & _). lia. }
  destruct (IsZero (negativeUntil e)) eqn:Ez; unfold IsZero in Ez; bools.
  { intros [= <- <- <- <-]. split_and!; try done. split; [|done]. intros _. exists e. split_and!; [done|lia|by left]. }
  destruct (Now (xenv w)) as [t s] eqn:En. cbn. destruct (t <? negativeUntil e) eqn:Et; bools; intros [= <- <- <- <-];
    split_and!; try done; split; try done.
  - intros _. exists e. split_and!; [done|lia|by right].
  - intros (e' & [= <-] & _ & [?|?]); [done|lia].
Qed.

Lemma choose_transport_spec urlHost port w useH3 alt sup w' :
  choose_transport urlHost port w = (useH3, alt, sup, w') ->
  xt w' = xt w /\ xlog w' = xlog w /\ (useH3 = true -> h3_allowed (xt w) urlHost port (Now (xenv w)).1) /\
  (h3Transport (xt w) = true -> sup = true <-> suppressed (xt w) urlHost (Now (xenv w)).1).
Proof.
  unfold choose_transport, xbind at 1, gets. cbn. destruct (h3Transport (xt w)) eqn:E3.
  2: { intros [= <- <- <- <-]. by split_and!. }
  unfold xbind. destruct (loadAltSupport urlHost w) as [[[p f] n] w1] eqn:El.
  destruct (loadAltSupport_spec _ _ _ _ _ _ El) as (H1 & H2 & H3 & H4). unfold h3_allowed. rewrite E3.
  destruct (http3Probe (xt w)); intros [= <- <- <- <-]; split_and!; try done.
  - intros Hn. split; [done|]. rewrite <-H3. by destruct n.
  - intros Hu. split; [done|]. bools. subst p. by apply H4.
Qed.

(** What a request may change of the transport: the count of QUIC connections. *)
Definition only_dials (x x' : XTransport) : Prop := exists v, x' = set_quicDialCount v x.

Lemma do_request_spec h3 rq reused w resp err cr rtt w' :
  do_request h3 rq reused w = (resp, err, cr, rtt, w') ->
  xlog w' = xlog w ++ [EvDo h3 rq] /\ only_dials (xt w) (xt w').
Proof.
  unfold do_request, xnow, on_env, log_event, modify, xbind, xret.
  destruct (Now (xenv w)) as [t s]. cbn. destruct (client_Do h3 rq s) as [r s1]. cbn.
  destruct (Now s1) as [t1 s2]. intros [= <- <- <- <- <-]. cbn. split; [done|].
  assert (forall l x, only_dials (xt w) x -> only_dials (xt w) (foldl (fun x addr =>
    let host := (ExtractHostAndPort addr DefaultPort).1 in
    set_quicDialCount (<[host := uint64 (default 0 (quicDialCount x !! host) + 1)]> (quicDialCount x)) x) x l)) as Hf.
  { induction l as [|a l IH]; intros x Hx; [done|]. cbn [foldl]. apply IH. destruct Hx as [v ->]. by eexists. }
  apply Hf. exists (quicDialCount (xt w)). by destruct (xt w).
Qed.

Lemma saveAltSupportNegative_spec urlHost ttl w u w' : saveAltSupportNegative urlHost ttl w = (u, w') ->
  xlog w' = xlog w /\ exists v, xt w' = set_altSupport v (xt w).
Proof.
  unfold saveAltSupportNegative, xnow, on_env, modify, xbind. destruct (Now (xenv w)) as [t s]. intros [= <- <-]. cbn.
  split; [done|by eexists].
Qed.

Lemma learn_alt_spec urlHost port failed sup resp w u w' : learn_alt urlHost port failed sup resp w = (u, w') ->
  xlog w' = xlog w /\ (exists v, xt w' = set_altSupport v (xt w)) /\
  (http3Probe (xt w) = true -> sup = true -> xt w' = xt w).
Proof.
  unfold learn_alt, xbind at 1, gets. cbn. assert (exists v, xt w = set_altSupport v (xt w)) as Hid.
  { exists (altSupport (xt w)). by destruct (xt w). }
  destruct (http3Probe (xt w) && sup) eqn:Es; [by intros [= <- <-]|].
  assert (~ (http3Probe (xt w) = true /\ sup = true)) as Hn by (rewrite <-andb_true_iff; congruence).
  destruct (match rs_AltSvc resp with Some _ => _ | None => _ end) as [altPort adv].
  unfold recordHTTP3ProbeFailure, saveAltSupport, modify. destruct failed.
  - destruct adv.
    + intros H%saveAltSupportNegative_spec. split_and!; [apply H|apply H|]. intros ? ?. tauto.
    + intros [= <- <-]. split_and!; [done|by eexists|tauto].
  - destruct (rs_AltSvc resp); intros [= <- <-]; (split_and!; [done| |tauto]); [by eexists|done].
Qed.

Lemma read_body_len compress resp b : read_body (S := S) compress resp = Ok b -> len b <= MaxHTTPBodyLength.
Proof.
  assert (forall (s : stream) (b : bytes), ReadAll (LimitReader s MaxHTTPBodyLength) = Ok b -> len b <= MaxHTTPBodyLength) as H.
  { intros s b'. unfold ReadAll, LimitReader. cbn. case_match; [done|]. intros [= <-].
    unfold len. rewrite length_take. unfold MaxHTTPBodyLength. lia. }
  unfold read_body. destruct (_ && _); [|apply H]. destruct (NewReader _) as [body|]; [apply H|done].
Qed.

Lemma send_spec urlHost useH3 rq w resp err cr rtt fallback w' :
  send urlHost useH3 rq w = (resp, err, cr, rtt, fallback, w') ->
  (if fallback then useH3 = true /\ xlog w' = xlog w ++ [EvDo true rq; EvDo false rq]
   else xlog w' = xlog w ++ [EvDo useH3 rq] /\ (err <> None -> useH3 = false)) /\
  h3Transport (xt w') = h3Transport (xt w) /\ http3Probe (xt w') = http3Probe (xt w) /\
  (http3Probe (xt w) = true \/ useH3 = false -> altSupport (xt w') = altSupport (xt w)).
Proof.
  unfold send, xbind at 1, gets. cbn [id]. unfold xbind at 1.
  destruct (do_request useH3 rq false w) as [[[[resp1 err1] cr1] rtt1] w1] eqn:E1.
  destruct (do_request_spec _ _ _ _ _ _ _ _ _ E1) as [Hl1 [v1 Hx1]].
  destruct (negb (bool_decide (err1 = None)) && useH3) eqn:Ef.
  - apply andb_true_iff in Ef as [_ ->]. unfold xbind at 1.
    match goal with |- context [(if ?c then ?a else ?b) w1] => destruct ((if c then a else b) w1) as [u w2] eqn:E2 end.
    unfold xbind.
    destruct (do_request false rq cr1 w2) as [[[[resp3 err3] cr3] rtt3] w3] eqn:E3.
    destruct (do_request_spec _ _ _ _ _ _ _ _ _ E3) as [Hl3 [v3 Hx3]]. intros [= <- <- <- <- <- <-].
    rewrite Hl3, Hx3. cbn. destruct (http3Probe (xt w)) eqn:Ep.
    + injection E2 as <- <-. rewrite Hl1, Hx1, <-app_assoc. cbn. by rewrite Ep.
    + apply saveAltSupportNegative_spec in E2 as [Hl2 [v2 Hx2]]. rewrite Hl2, Hx2, Hl1, Hx1, <-app_assoc. cbn.
      rewrite Ep. split_and!; try done. by intros [?|?].
  - intros [= <- <- <- <- <- <-]. rewrite Hl1, Hx1. cbn. split_and!; try done. intros Herr.
    rewrite bool_decide_false in Ef by done. by destruct useH3.
Qed.

Lemma receive_spec urlHost port learn failed sup compress resp err rtt ft w f w' :
  receive urlHost port learn failed sup compress resp err rtt ft w = (f, w') ->
  xlog w' = xlog w /\ UsedHTTP3 (f_trace f) = UsedHTTP3 ft /\ QUICFallback (f_trace f) = QUICFallback ft /\
  len (f_body f) <= MaxHTTPBodyLength /\ (f_err f = None -> err = None) /\
  (http3Probe (xt w) = true -> sup = true -> altSupport (xt w') = altSupport (xt w)).
Proof.
  unfold receive. assert (len (@nil Z) <= MaxHTTPBodyLength) as H0 by (vm_compute; discriminate).
  destruct (status_error err resp) as [e|] eqn:Es; [by intros [= <- <-]|].
  assert (err = None) as -> by (destruct err, resp; done). destruct resp as [r|]; [|by intros [= <- <-]].
  unfold xbind.
  match goal with |- context [(if ?c then ?a else ?b) w] => destruct ((if c then a else b) w) as [u w1] eqn:El end.
  assert (xlog w1 = xlog w /\ (http3Probe (xt w) = true -> sup = true -> altSupport (xt w1) = altSupport (xt w))) as [Hl Ha].
  { destruct learn; [|by injection El as <- <-]. apply learn_alt_spec in El as (H1 & _ & H3). split; [done|].
    intros Hp Hs. by rewrite H3. }
  destruct (read_body compress r) as [b|e] eqn:Eb; intros [= <- <-]; cbn;
    split_and!; try done; try (by destruct (rs_TLS r)). by eapply read_body_len.
Qed.

(** The requests of a query: none if it fails before, one, or one over HTTP/3 and the same
    again over HTTP/2. *)
Definition fetch_requests_are (f : fetched) (rq : request) (l : list xevent) : Prop :=
  (dos l = [] /\ exists e, f = no_fetch e) \/
  (exists h3, dos l = [(h3, rq)] /\ QUICFallback (f_trace f) = false /\ (f_err f = None -> UsedHTTP3 (f_trace f) = h3)) \/
  (dos l = [(true, rq); (false, rq)] /\ QUICFallback (f_trace f) = true /\ UsedHTTP3 (f_trace f) = false).

Lemma fetch_requests_lemma method url accept contentType body timeout compress w f w' :
  let '(host, port) := ExtractHostAndPort (url_Host url) 443 in
  Fetch method url accept contentType body timeout compress w = (f, w') ->
  exists rq l, xlog w' = xlog w ++ l /\ fetch_requests_are f rq l /\ len (f_body f) <= MaxHTTPBodyLength /\
    rq_Method rq = method /\ rq_Body rq = body /\
    rq_URL rq = match body with
                | Some b => add_query (str "body_hash") (hex_EncodeToString (take 32 (Sum512 b))) url
                | None => url
                end /\
    rq_Header rq = headers accept contentType (compress && bool_decide (body = None)) /\
    (exists lookups, l = lookups ++ (uncurry EvDo <$> dos l) /\
       resolution (xt w) (useIPv4 (xt w)) (useIPv6 (xt w)) host lookups /\
       (xt_proxyDialer (xt w) = true \/ httpProxyFunction (xt w) = true \/ xParseIP host <> None -> lookups = [])) /\
    ((true, rq) ∈ dos l -> h3_allowed (xt w) (url_Host url) port (Now (xenv w)).1) /\
    (h3Transport (xt w) = true -> http3Probe (xt w) = true -> suppressed (xt w) (url_Host url) (Now (xenv w)).1 ->
     altSupport (xt w') = altSupport (xt w)).
Proof.
  destruct (ExtractHostAndPort (url_Host url) 443) as [host port] eqn:Eh. unfold Fetch.
  unfold xbind at 1, gets. cbn [id]. rewrite Eh. unfold xbind at 1.
  destruct (choose_transport (url_Host url) port w) as [[[useH3 alt] sup] w0] eqn:Ec.
  destruct (choose_transport_spec _ _ _ _ _ _ _ Ec) as (Hx0 & Hl0 & H3 & Hsup).
  set (url' := match body with Some _ => _ | None => _ end).
  set (rq := {| rq_Method := method; rq_URL := url'; rq_Header := _; rq_Body := body; rq_Timeout := _ |}).
  destruct (_ && HasSuffix host _).
  { intros [= <- <-]. exists rq, []. rewrite app_nil_r, Hl0, Hx0. split_and!; try done; [left; eauto| |].
    - exists []. split_and!; try done. apply resolution_nil.
    - rewrite elem_of_nil. tauto. }
  unfold xbind at 1. destruct (resolveAndUpdateCache host w0) as [err w1] eqn:Er.
  destruct (resolveAndUpdateCache_does host (internalResolvers (xt w)) (bootstrapResolvers (xt w)) _ _ _
    ltac:(by rewrite Hx0) Er) as [(l1 & Hl1 & HP1) HR1].
  destruct (resolveAndUpdateCache_resolution _ _ _ _ Er) as (l1' & Hl1' & Hres1 & Hnone1).
  rewrite Hl1 in Hl1'. apply app_inv_head in Hl1' as <-. rewrite Hx0 in Hres1, Hnone1.
  pose proof (dos_no_request _ HP1) as Hd1. rewrite Hx0 in HR1. destruct HR1 as (Hcfg & Halt & _).
  destruct err as [e|].
  { intros [= <- <-]. exists rq, l1. rewrite Hl1, Hl0, Hd1. split_and!; try done; [left; eauto| |].
    - exists l1. by rewrite app_nil_r.
    - rewrite elem_of_nil. tauto. }
  unfold xbind at 1, quicDials at 1, gets. unfold xbind at 1.
  destruct (send (url_Host url') useH3 rq w1) as [[[[[resp err] cr] rtt] fallback] w2] eqn:Es.
  destruct (send_spec _ _ _ _ _ _ _ _ _ _ Es) as (Hl2 & Hh2 & Hp2 & Ha2).
  unfold xbind at 1, quicDials at 1, gets. intros Hrec.
  destruct (receive_spec _ _ _ _ _ _ _ _ _ _ _ _ _ Hrec) as (Hl3 & Hu & Hq & Hlen & Herr & Ha3). cbn in Hu, Hq.
  injection Hcfg as Hh1 Hp1 _ _ _ _ _ _ _ _.
  exists rq, (l1 ++ if fallback then [EvDo true rq; EvDo false rq] else [EvDo useH3 rq]).
  assert (xlog w' = xlog w ++ l1 ++ if fallback then [EvDo true rq; EvDo false rq] else [EvDo useH3 rq]) as Hlog.
  { rewrite Hl3, app_assoc, <-Hl0, <-Hl1. destruct fallback; apply Hl2. }
  unfold fetch_requests_are. rewrite dos_app, Hd1. split_and!; try done.
  - right. destruct fallback; [right; split_and!; [done..|]|left; exists useH3; split_and!; [done..|]].
    + rewrite Hu. by rewrite andb_false_r.
    + intros Hf. rewrite Hu, Herr by done. by destruct useH3.
  - exists l1. split_and!; try done. by destruct fallback.
  - intros Hin. apply H3. destruct fallback; [apply Hl2|]. csimpl in Hin. apply list_elem_of_singleton in Hin. congruence.
  - intros Hh Hp Hs%(Hsup Hh). rewrite Ha3, Ha2, Halt by (try left; congruence). done.
Qed.


(** When probing, a host for which HTTP/3 is suppressed is not asked over HTTP/3, and stays
    suppressed as long as it was to be. *)
Theorem probe_suppression method url accept contentType body timeout compress w f w' :
  h3Transport (xt w) = true -> http3Probe (xt w) = true ->
  suppressed (xt w) (url_Host url) (Now (xenv w)).1 ->
  Fetch method url accept contentType body timeout compress w = (f, w') ->
  altSupport (xt w') = altSupport (xt w) /\
  exists l, xlog w' = xlog w ++ l /\ Forall (fun d => d.1 = false) (dos l).
Proof.
  intros Hh Hp Hs Hf. pose proof (fetch_requests_lemma method url accept contentType body timeout compress w f w') as H.
  destruct (ExtractHostAndPort _ _) as [host port]. destruct (H Hf) as (rq & l & Hl & Hr & _ & _ & _ & _ & _ & _ & H9 & H10).
  split; [by apply H10|]. exists l. split; [done|].
  assert ((true, rq) ∉ dos l) as Hn.
  { intros Hin. destruct (H9 Hin) as [_ Ha]. rewrite Hp in Ha. done. }
  destruct Hr as [[-> _]|[(h3 & Hd & _)|(Hd & _)]]; [constructor| |]; rewrite Hd in *.
  - constructor; [|constructor]. destruct h3; [|done]. destruct Hn. by left.
  - destruct Hn. by left.
Qed.

(** ** Queries that the local DoH server understands *)

Definition header (key : bytes) (l : list (bytes * bytes)) : bytes :=
  match list_find (fun p => p.1 = key) l with Some (_, (_, v)) => v | None => [] end.

(** A request as [local-doh.go] sees it. *)
Definition received (rq : request) (addr : option bytes) : http_request :=
  {| req_Path := url_Path (rq_URL rq); req_Method := rq_Method rq;
     req_ContentType := header (str "Content-Type") (rq_Header rq); req_Accept := header (str "Accept") (rq_Header rq);
     req_Body := Some (default [] (rq_Body rq)); req_dns := values_Get (str "dns") (ParseQuery (url_RawQuery (rq_URL rq)));
     req_addr := addr |}.

Lemma fetch_requests_forall f rq l (Q : bool * request -> Prop) :
  fetch_requests_are f rq l -> (forall h3, Q (h3, rq)) -> Forall Q (dos l).
Proof. intros [[-> _]|[(h3 & -> & _)|(-> & _)]] HQ; repeat constructor; apply HQ. Qed.

(** The DNS message of a DoH query is what a DoH server reads from it.  Every request that
    [DoHQuery] makes, with GET or with POST, over HTTP/2 or HTTP/3, is read by the handler of
    the proxy's own DoH server as the message that was given to [DoHQuery]. *)
Theorem doh_query_roundtrip useGet url body timeout w f w' :
  are_bytes body -> MinDNSPacketSize <= len body < MaxDNSPacketSize ->
  are_bytes (url_RawQuery url) -> Forall (fun p => p.1 <> str "dns") (ParseQuery (url_RawQuery url)) ->
  DoHQuery useGet url body timeout w = (f, w') ->
  exists l, xlog w' = xlog w ++ l /\
    Forall (fun d => forall addr, request_packet (received d.2 addr) = Some body) (dos l).
Proof.
  intros Hb Hlen Hraw Hdns. unfold MinDNSPacketSize, MaxDNSPacketSize in Hlen. unfold DoHQuery, dohLikeQuery.
  destruct useGet; unfold Get, Post; intros Hf.
  - set (url' := add_query _ _ _) in Hf.
    pose proof (fetch_requests_lemma (str "GET") url' dns_message [] None timeout false w f w') as H.
    destruct (ExtractHostAndPort _ _) as [host port].
    destruct (H Hf) as (rq & l & Hl & Hr & _ & Hm & Hbody & Hu & Hhd & _).
    exists l. split; [done|]. apply (fetch_requests_forall _ _ _ _ Hr). intros h3 addr. cbn [snd].
    unfold request_packet, received. cbn [req_Method req_ContentType req_Accept req_dns].
    rewrite Hm, Hhd, Hu. change (bool_decide (str "GET" = str "POST")) with false. cbn [andb].
    replace (bool_decide _ && bool_decide _) with true by (by vm_compute).
    unfold url', add_query. cbn [url_RawQuery].
    rewrite query_parameter; [|done|by vm_compute; repeat constructor| |done].
    2: { eapply Forall_impl; [|intros c Hc; exact Hc]. apply Forall_forall. intros c Hc.
         pose proof (RawURL_unreserved body Hb) as Hur. rewrite forallb_forall in Hur.
         specialize (Hur c (proj1 (list_elem_of_In _ _) Hc)). unfold unreserved, in_range in Hur.
         unfold is_byte. rewrite !orb_true_iff, !andb_true_iff, !Z.leb_le, !Z.eqb_eq in Hur. lia. }
    rewrite RawURL_length, RawURL_roundtrip by done. change (MinDNSPacketSize * 4 / 3) with 22.
    change (MaxDNSPacketSize * 4 / 3) with 5461.
    replace ((_ >=? 22) && (_ <=? 5461)) with true; [done|]. symmetry. apply andb_true_iff.
    rewrite Z.geb_leb, !Z.leb_le. split; [apply Z.div_le_lower_bound; lia|].
    apply Z.lt_succ_r, Z.div_lt_upper_bound; lia.
  - pose proof (fetch_requests_lemma (str "POST") url dns_message dns_message (Some body) timeout false w f w') as H.
    destruct (ExtractHostAndPort _ _) as [host port].
    destruct (H Hf) as (rq & l & Hl & Hr & _ & Hm & Hbody & Hu & Hhd & _).
    exists l. split; [done|]. apply (fetch_requests_forall _ _ _ _ Hr). intros h3 addr. cbn [snd].
    unfold request_packet, received. cbn [req_Method req_ContentType req_Body]. rewrite Hm, Hhd, Hbody.
    replace (bool_decide _ && bool_decide _) with true by (by vm_compute). csimpl. rewrite take_ge; [done|].
    unfold len in Hlen. unfold MaxDNSPacketSize. lia.
Qed.
End requests.

(** ** The cache of addresses *)

(** The addresses of a host: at least one, none of them nil, no two with the same text. *)
Definition addresses_wf (l : list bytes) : Prop := l <> [] /\ [] ∉ l /\ NoDup (ip_String <$> l).
Definition cache_wf (x : XTransport) : Prop := map_Forall (fun _ item => addresses_wf (ips item)) (cachedIPs x).

Lemma unique_loop_spec l seen :
  [] ∉ unique_loop l seen /\ NoDup (ip_String <$> unique_loop l seen) /\
  (forall ip, ip ∈ unique_loop l seen -> ip_String ip ∉ seen) /\
  (forall ip, ip ∈ l -> ip <> [] -> ip_String ip ∈ seen \/ ip_String ip ∈ ip_String <$> unique_loop l seen).
Proof.
  revert seen. induction l as [|ip l IH]; intros seen; cbn [unique_loop].
  - split_and!; [apply not_elem_of_nil|constructor|set_solver..].
  - destruct (IH seen) as (H1 & H2 & H3 & H4). destruct (IH ({[ip_String ip]} ∪ seen)) as (G1 & G2 & G3 & G4).
    repeat case_bool_decide; csimpl.
    + split_and!; [done..|]. intros ip' [->|Hin]%elem_of_cons Hne; [done|]. by apply H4.
    + split_and!; [done..|]. intros ip' [->|Hin]%elem_of_cons Hne; [done|]. by apply H4.
    + split_and!; [done..|]. intros ip' [->|Hin]%elem_of_cons Hne; [by left|]. by apply H4.
    + split_and!.
      * rewrite not_elem_of_cons. done.
      * constructor; [|done]. intros (ip' & He & Hin)%list_elem_of_fmap. apply (G3 ip' Hin). set_solver.
      * intros ip' [->|Hin]%elem_of_cons; [done|]. specialize (G3 _ Hin). set_solver.
      * intros ip' [->|Hin]%elem_of_cons Hne; [right; by left|].
        destruct (G4 _ Hin Hne) as [Hs|Hs]; [|right; by right].
        apply elem_of_union in Hs as [Hs%elem_of_singleton|Hs]; [right; rewrite Hs; by left|by left].
Qed.

Lemma uniqueNormalizedIPs_wf l : uniqueNormalizedIPs l <> [] -> addresses_wf (uniqueNormalizedIPs l).
Proof. intros Hne. destruct (unique_loop_spec l ∅) as (H1 & H2 & _). by split_and!. Qed.

Section addresses.
Context {S : Type} `{E : !HttpEnv S} (host : bytes).
Implicit Types w : XWorld S.

(** The addresses that are found for the host are the ones of its entry. *)
Lemma loadCachedIPs_spec w cached expired updating w' : cache_wf (xt w) ->
  loadCachedIPs host w = (cached, expired, updating, w') ->
  xt w' = xt w /\ xlog w' = xlog w /\ cached = match cachedIPs (xt w) !! host with Some item => ips item | None => [] end.
Proof.
  intros Hwf. unfold loadCachedIPs, xnow, on_env, gets, xbind, xret.
  destruct (cachedIPs (xt w) !! host) as [item|] eqn:Ei; [|by intros [= <- <- <- <-]].
  assert (List.filter (fun ip => negb (bool_decide (ip = []))) (ips item) = ips item) as ->.
  { destruct (Hwf _ _ Ei) as (_ & Hn & _). induction (ips item) as [|ip l IH]; csimpl; [done|].
    rewrite not_elem_of_cons in Hn. destruct Hn as [Hn Hl]. rewrite bool_decide_false by done. csimpl. by rewrite IH. }
  destruct (ci_expiration item); [|by intros [= <- <- <- <-]]. destruct (Now (xenv w)) as [t1 s1]. cbn.
  destruct (_ <? 0); [|by intros [= <- <- <- <-]].
  destruct (updatingUntil item); [|by intros [= <- <- <- <-]]. cbn. destruct (Now s1) as [t2 s2]. by intros [= <- <- <- <-].
Qed.

(** The entry of the host holds addresses, and so do the others. *)
Definition known (x : XTransport) : Prop := cachedIPs x !! host <> None.

Lemma set_cachedIPs_wf x item : cache_wf x -> addresses_wf (ips item) ->
  cache_wf (set_cachedIPs (<[host := item]> (cachedIPs x)) x) /\ known (set_cachedIPs (<[host := item]> (cachedIPs x)) x).
Proof.
  intros Hx Hi. split; [by apply map_Forall_insert_2|]. unfold known. simpl. by rewrite lookup_insert_eq.
Qed.

Lemma markUpdatingCachedIP_wf w u w' : cache_wf (xt w) -> markUpdatingCachedIP host w = (u, w') ->
  cache_wf (xt w') /\ (known (xt w) -> known (xt w')).
Proof.
  intros Hwf. unfold markUpdatingCachedIP, xnow, on_env, gets, modify, xbind, xret, known at 1.
  destruct (cachedIPs (xt w) !! host) as [item|] eqn:Ei; [|by intros [= <- <-]].
  destruct (Now (xenv w)) as [t s]. intros [= <- <-]. cbn [xt]. split; [|intros _]; apply set_cachedIPs_wf; try done;
    apply (Hwf _ _ Ei).
Qed.

Lemma saveCachedIPs_wf l ttl w u w' : cache_wf (xt w) -> saveCachedIPs host l ttl w = (u, w') ->
  cache_wf (xt w') /\ (known (xt w) \/ uniqueNormalizedIPs l <> [] -> known (xt w')).
Proof.
  intros Hwf. unfold saveCachedIPs. destruct (len (uniqueNormalizedIPs l) =? 0) eqn:El; bools.
  { apply len_nil_inv in El. intros [= <- <-]. split; [done|]. by intros [?|?]. }
  assert (uniqueNormalizedIPs l <> []) as Hne by (intros Hn; by rewrite Hn in El).
  unfold xbind at 1. match goal with |- context [(if ?c then ?a else ?b) w] => destruct ((if c then a else b) w) as [e w1] eqn:Ee end.
  assert (xt w1 = xt w) as Hx1.
  { unfold xnow, on_env, xbind, xret in Ee. destruct (ttl >=? 0); [|by injection Ee as <- <-].
    destruct (Int63n _ _) as [j s1]. cbn in Ee. destruct (Now s1) as [t s2]. by injection Ee as <- <-. }
  intros [= <- <-]. cbn [xt]. rewrite Hx1. pose proof (uniqueNormalizedIPs_wf l Hne) as Hu.
  split; [|intros _]; by apply set_cachedIPs_wf.
Qed.
End addresses.

(** The entry of a host is in use: it does not expire, or not yet. *)
Definition fresh (host : bytes) (x : XTransport) (t : Time) : Prop :=
  exists item, cachedIPs x !! host = Some item /\
    forall e, ci_expiration item = Some e -> 0 <= time_sub e t.

Section address_cache.
Context {S : Type} `{E : !HttpEnv S} (host : bytes).
Implicit Types w : XWorld S.

Lemma loadCachedIPs_fresh w cached expired updating w' : fresh host (xt w) (Now (xenv w)).1 ->
  loadCachedIPs host w = (cached, expired, updating, w') -> expired = false.
Proof.
  intros (item & Hi & He). unfold loadCachedIPs, xnow, on_env, gets, xbind, xret. rewrite Hi.
  destruct (ci_expiration item) as [e|]; [|by intros [= <- <- <- <-]].
  specialize (He e eq_refl). destruct (Now (xenv w)) as [t s]. cbn in *.
  rewrite (proj2 (Z.ltb_ge _ _)) by done. by intros [= <- <- <- <-].
Qed.

Lemma resolve_cachedIPs v4 v6 w r w' : resolve host v4 v6 w = (r, w') -> cachedIPs (xt w') = cachedIPs (xt w).
Proof.
  intros H. destruct (resolve_does host (internalResolvers (xt w)) (bootstrapResolvers (xt w)) v4 v6 None w r w') as
    [_ (_ & _ & _ & _ & _ & Hc)]; [done..|]. apply map_eq. intros h. by apply Hc.
Qed.

(** The cache of addresses.  Looking a host up keeps every entry of the cache
    well formed and leaves those of other hosts alone.  A host whose addresses are known
    stays usable whatever happens to the resolution, which is not even tried while the
    addresses have not expired. *)
Theorem address_cache w err w' :
  cache_wf (xt w) -> resolveAndUpdateCache host w = (err, w') ->
  cache_wf (xt w') /\ (forall h, h <> host -> cachedIPs (xt w') !! h = cachedIPs (xt w) !! h) /\
  (known host (xt w) -> err = None /\ known host (xt w')) /\
  (fresh host (xt w) (Now (xenv w)).1 -> xt w' = xt w /\ xlog w' = xlog w).
Proof.
  intros Hwf H.
  assert (forall h, h <> host -> cachedIPs (xt w') !! h = cachedIPs (xt w) !! h) as Hothers.
  { destruct (resolveAndUpdateCache_does host (internalResolvers (xt w)) (bootstrapResolvers (xt w)) w err w') as
      [_ (_ & _ & _ & _ & _ & Hc)]; [done..|]. intros h Hh. apply Hc. congruence. }
  unfold resolveAndUpdateCache, xbind at 1, gets in H. cbn [id] in H.
  destruct (xt_proxyDialer (xt w) || httpProxyFunction (xt w)); [by injection H as <- <-|].
  case_bool_decide; [by injection H as <- <-|].
  unfold xbind at 1 in H. destruct (loadCachedIPs host w) as [[[cached expired] updating] w1] eqn:E1.
  destruct (loadCachedIPs_spec host _ _ _ _ _ Hwf E1) as (Hx1 & Hl1 & Hcached).
  pose proof (fun Hf => loadCachedIPs_fresh _ _ _ _ _ Hf E1) as Hfresh.
  assert (known host (xt w) -> (len cached >? 0) = true) as Hk.
  { unfold known. rewrite Hcached. destruct (cachedIPs (xt w) !! host) as [item|] eqn:Ei; [|done]. intros _.
    destruct (Hwf _ _ Ei) as [Hne _]. destruct (ips item) as [|ip l]; [done|]. rewrite len_cons. apply Z.gtb_lt. pose proof (len_nonneg l). lia. }
  assert (fresh host (xt w) (Now (xenv w)).1 -> known host (xt w)) as Hfk by (intros (item & Hi & _); unfold known; by rewrite Hi).
  destruct ((len cached >? 0) && (negb expired || updating)) eqn:Ec.
  { injection H as <- <-. by rewrite Hx1. }
  split; [|split; [done|split]].
  3: { intros Hf. rewrite (Hk (Hfk Hf)), (Hfresh Hf) in Ec. discriminate Ec. }
  all: unfold xbind at 1 in H; destruct (markUpdatingCachedIP host w1) as [u w2] eqn:E2;
    rewrite <-Hx1 in Hwf; destruct (markUpdatingCachedIP_wf host _ _ _ Hwf E2) as [Hwf2 Hk2];
    unfold xbind at 1 in H; destruct (resolve _ _ _ w2) as [[[found ttl] e] w3] eqn:E3;
    apply resolve_cachedIPs in E3;
    assert (cache_wf (xt w3)) as Hwf3 by (unfold cache_wf; by rewrite E3);
    assert (known host (xt w) -> known host (xt w3)) as Hk3 by (unfold known in *; rewrite E3; rewrite Hx1 in Hk2; done).
  - destruct (_ && (len cached >? 0)); [|destruct e; [by injection H as <- <-|]];
      (destruct (_ =? 0) in H; [by injection H as <- <-|]; unfold xbind in H;
       destruct (saveCachedIPs _ _ _ w3) as [u' w4] eqn:E4; injection H as <- <-; by eapply saveCachedIPs_wf).
  - intros Hkn. specialize (Hk3 Hkn). rewrite (Hk Hkn), andb_true_r in H.
    destruct (negb (bool_decide (e = None)) || (len found =? 0)) eqn:Ee; [|destruct e; [by rewrite bool_decide_false in Ee|]];
      (destruct (_ =? 0) in H; [by injection H as <- <-|]; unfold xbind in H;
       destruct (saveCachedIPs _ _ _ w3) as [u' w4] eqn:E4; injection H as <- <-; split; [done|];
       eapply saveCachedIPs_wf; [exact Hwf3|exact E4|by left]).
Qed.
End address_cache.

(** ** How long addresses are kept *)

(** [rand.Int63n]. *)
Class HttpEnvLaws {S} (E : HttpEnv S) := Int63n_range n s : 0 < n -> 0 <= (Int63n n s).1 < n.

Lemma saved_lifetime {S} `{E : HttpEnv S, !HttpEnvLaws E} host l ttl (w : XWorld S) :
  0 <= ttl <= (2 ^ 32 - 1) * Second -> uniqueNormalizedIPs l <> [] ->
  exists item e, cachedIPs (xt (saveCachedIPs host l ttl w).2) !! host = Some item /\
    ips item = uniqueNormalizedIPs l /\ ci_expiration item = Some e /\
    let t := (Now (Int63n ResolverIPTTLMaxJitter (xenv w)).2).1 in
    Max ttl MinResolverIPTTL <= e - t < Max ttl MinResolverIPTTL + ResolverIPTTLMaxJitter.
Proof.
  intros Httl Hne. unfold saveCachedIPs. destruct (len (uniqueNormalizedIPs l) =? 0) eqn:El; bools.
  { by apply len_nil_inv in El. }
  pose proof (Int63n_range ResolverIPTTLMaxJitter (xenv w) ltac:(done)) as Hj.
  rewrite (proj2 (Z.geb_le ttl 0)) by lia. unfold xbind, xnow, on_env, modify, xret.
  destruct (Int63n _ _) as [j s1] eqn:Ej. cbn in *. destruct (Now s1) as [t s2] eqn:Et. cbn.
  rewrite lookup_insert_eq. eexists _, _. split_and!; [done..| |]; cbn; rewrite ?Et; unfold time_add, int64; cbn;
    unfold Max, MinResolverIPTTL, ResolverIPTTLMaxJitter, Hour, Minute, Second in *;
    destruct (_ >? _) eqn:Em; bools; rewrite Z.mod_small by lia; lia.
Qed.

(** How long addresses are kept.  Addresses that are stored with a TTL, as a resolver gives
    it in seconds on 32 bits, expire no earlier than that TTL, nor than four hours, and at
    most a quarter of an hour later; the computation does not overflow. *)
Theorem address_lifetime {S} `{E : HttpEnv S, !HttpEnvLaws E} host l ttl (w : XWorld S) :
  0 <= ttl <= (2 ^ 32 - 1) * Second -> uniqueNormalizedIPs l <> [] ->
  exists item e, cachedIPs (xt (saveCachedIPs host l ttl w).2) !! host = Some item /\
    ips item = uniqueNormalizedIPs l /\ ci_expiration item = Some e /\
    let t := (Now (Int63n ResolverIPTTLMaxJitter (xenv w)).2).1 in
    Max ttl MinResolverIPTTL <= e - t < Max ttl MinResolverIPTTL + ResolverIPTTLMaxJitter.
Proof. apply saved_lifetime. Qed.

(** The grace period that stale addresses are given is meant to be a quarter of an hour, and
    is raised to four hours. *)
Lemma grace_period_raised {S} `{E : HttpEnv S, !HttpEnvLaws E} host l (w : XWorld S) :
  uniqueNormalizedIPs l <> [] ->
  exists item e, cachedIPs (xt (saveCachedIPs host l ExpiredCachedIPGraceTTL w).2) !! host = Some item /\
    ci_expiration item = Some e /\
    16 * ExpiredCachedIPGraceTTL <= e - (Now (Int63n ResolverIPTTLMaxJitter (xenv w)).2).1.
Proof.
  intros Hne. destruct (saved_lifetime host l ExpiredCachedIPGraceTTL w) as (item & e & H1 & _ & H2 & H3 & _);
    [vm_compute; split; discriminate|done|]. exists item, e. by split_and!.
Qed.

(** ** Examples *)

(** Servers that only work over HTTP/2 and still advertise HTTP/3; resolvers of which only
    the second one answers.  The state is the number of seconds since the start. *)
Definition ex_http_response (body : bytes) : response :=
  {| rs_StatusCode := 200; rs_AltSvc := Some [str "h3=" ++ [34] ++ str ":443" ++ [34] ++ str "; ma=86400"]; rs_gzip := false;
     rs_TLS := Some {| DidResume := false; NegotiatedProtocol := str "h2"; HandshakeComplete := true;
                       PeerCertificates := [] |};
     rs_Body := (body, None) |}.

Definition ex_address (m : Msg) : Msg :=
  set_Answer [{| hdr := {| Name := str "doh.example."; Class_ := ClassINET; TTL := 300 |}; data := RD_A [192; 0; 2; 1] |}] m.

#[global] Instance ex_http : HttpEnv Z := {|
  Now s := (s * Second, s + 1);
  Int63n n s := (n / 2, s);
  MsgID s := (s, s);
  LookupIP _ s := ([], Some OtherError, s);
  dns_Exchange m proto resolver s := if bool_decide (resolver = str "9.9.9.9:53") then (Ok (ex_address m), s) else (Err TimeoutError, s);
  client_Do h3 rq s := (if h3 then {| do_resp := None; do_err := Some TimeoutError; do_gotConn := None; do_dials := [] |}
    else {| do_resp := Some (ex_http_response [1; 2; 3]); do_err := None; do_gotConn := Some false; do_dials := [] |}, s);
  NewReader s := Ok s;
  Sum512 _ := replicate 64 7;
|}.

Definition ex_transport (probe : bool) : XTransport :=
  {| h3Transport := true; quicDialCount := ∅; xt_timeout := DefaultTimeout; cachedIPs := ∅;
     altSupport := if probe then {[str "doh.example" := {| ae_port := 0; negativeUntil := 100 * Second |}]}
                   else {[str "doh.example" := {| ae_port := 443; negativeUntil := 0 |}]};
     internalResolvers := []; bootstrapResolvers := [str "8.8.8.8:53"; str "9.9.9.9:53"]; mainProto := str "udp";
     ignoreSystemDNS := true; internalResolverReady := false; useIPv4 := true; useIPv6 := false; http3Probe := probe;
     xt_proxyDialer := false; httpProxyFunction := false |}.

Definition ex_xworld (probe : bool) : XWorld Z := {| xt := ex_transport probe; xenv := 10; xlog := [] |}.
Definition ex_url : URL := {| url_Host := str "doh.example"; url_Path := str "/dns-query"; url_RawQuery := str "ct=1" |}.
Definition ex_fetch : XWorld Z -> fetched * XWorld Z := DoHQuery true ex_url (replicate 20 5) 0.

(** Outside of probing, the suppression of HTTP/3 after a failure lasts for one query only:
    the next response rewrites the entry, and HTTP/3 is tried again seconds later. *)
Lemma http3_suppression_lost :
  let w1 := (ex_fetch (ex_xworld false)).2 in let w2 := (ex_fetch w1).2 in let w3 := (ex_fetch w2).2 in
  (dos (xlog w3)).*1 = [true; false; false; true; false] /\
  suppressed (xt w1) (str "doh.example") (xenv w1 * Second + DefaultHTTP3NegativeCacheTTL / 2) /\
  xenv w3 * Second < xenv w1 * Second + DefaultHTTP3NegativeCacheTTL / 2.
Proof.
  cbv zeta. split; [vm_compute; reflexivity|]. split; [|vm_compute; reflexivity].
  eexists. split; [vm_compute; reflexivity|]. split; [vm_compute; discriminate|]. right. vm_compute. reflexivity.
Qed.

(** The system is asked although [ignore_system_dns] is on: here, the only bootstrap resolver
    does not answer. *)
Lemma ignored_system_asked :
  let x := set_resolvers [] [str "8.8.8.8:53"] (ex_transport false) in
  let w' := (ex_fetch {| xt := x; xenv := 10; xlog := [] |}).2 in
  ignoreSystemDNS x = true /\ last (xlog w') = Some (EvLookup (str "doh.example")).
Proof. cbv zeta. split; vm_compute; reflexivity. Qed.


Lemma doh_query_roundtrip_witness :
  exists l, xlog (ex_fetch (ex_xworld false)).2 = l /\
    Forall (fun d => forall addr, request_packet (received d.2 addr) = Some (replicate 20 5)) (dos l).
Proof.
  destruct (doh_query_roundtrip true ex_url (replicate 20 5) 0 (ex_xworld false) (ex_fetch (ex_xworld false)).1
    (ex_fetch (ex_xworld false)).2) as (l & Hl & H).
  - apply Forall_replicate. unfold is_byte. lia.
  - vm_compute. split; [discriminate|reflexivity].
  - apply (bool_decide_unpack _). vm_compute. exact I.
  - apply (bool_decide_unpack _). vm_compute. exact I.
  - unfold ex_fetch. apply surjective_pairing.
  - exists l. split; [exact Hl|exact H].
Defined.

Lemma address_cache_witness :
  let w' := (resolveAndUpdateCache (str "doh.example") (ex_fetch (ex_xworld false)).2).2 in
  cache_wf (xt w') /\ known (str "doh.example") (xt w') /\ xlog w' = xlog (ex_fetch (ex_xworld false)).2.
Proof.
  cbv zeta. destruct (address_cache (str "doh.example") (ex_fetch (ex_xworld false)).2
    (resolveAndUpdateCache (str "doh.example") (ex_fetch (ex_xworld false)).2).1
    (resolveAndUpdateCache (str "doh.example") (ex_fetch (ex_xworld false)).2).2) as (H1 & _ & H3 & H4).
  - unfold cache_wf.
    assert (cachedIPs (xt (ex_fetch (ex_xworld false)).2) = {[str "doh.example" := {| ips := [[192; 0; 2; 1]];
      ci_expiration := Some (10 * Second + MinResolverIPTTL + ResolverIPTTLMaxJitter / 2); updatingUntil := None |}]}) as ->
      by (vm_compute; reflexivity).
    apply map_Forall_singleton. split_and!; [discriminate| |]; apply (bool_decide_unpack _); vm_compute; exact I.
  - apply surjective_pairing.
  - split; [exact H1|]. split; [apply H3; vm_compute; discriminate|]. apply H4.
    eexists. split; [vm_compute; reflexivity|]. intros e He. vm_compute in He. injection He as <-. vm_compute. discriminate.
Defined.

#[global] Instance ex_http_laws : HttpEnvLaws ex_http.
Proof. intros n s Hn. cbn. split; [apply Z.div_pos; lia|apply Z.div_lt; lia]. Qed.

Lemma address_lifetime_witness :
  exists item e, cachedIPs (xt (saveCachedIPs (str "a") [[192; 0; 2; 1]] 0 (ex_xworld false)).2) !! str "a" = Some item /\
    ci_expiration item = Some e /\ MinResolverIPTTL <= e - 10 * Second.
Proof.
  destruct (address_lifetime (str "a") [[192; 0; 2; 1]] 0 (ex_xworld false)) as (item & e & H1 & _ & H2 & H3 & _).
  - vm_compute. split; discriminate.
  - vm_compute. discriminate.
  - exists item, e. split; [exact H1|]. split; [exact H2|exact H3].
Defined.
