(* ===== verification/Sources.v ===== *)
(** * Lists of servers (src/dnscrypt-proxy/sources.go)

    The signed lists of servers: their download, the cache files, the delays between
    downloads, and the parsing of the lists.  Downloads go through the HTTP transport;
    the file system is a map from names to files, on which any operation may fail. *)

From S2P Require Import Prelude GoStrings NetIP Common Crypto Dns ServerTypes Servers Feedback Query Clients Url XTransport.

Definition DefaultPrefetchDelay : Duration := 24 * Hour.
Definition MinimumPrefetchInterval : Duration := 10 * Minute.

Record Source := {
  src_name : bytes;
  urls : list URL;
  src_bin : bytes;
  minisignKey : bytes;
  cacheFile : bytes;
  cacheTTL : Duration;
  prefetchDelay : Duration;
  refresh : Time;
  src_prefix : bytes;
}.

Definition set_bin (bin : bytes) (s : Source) : Source :=
  {| src_name := src_name s; urls := urls s; src_bin := bin; minisignKey := minisignKey s; cacheFile := cacheFile s;
     cacheTTL := cacheTTL s; prefetchDelay := prefetchDelay s; refresh := refresh s; src_prefix := src_prefix s |}.
Definition set_refresh (t : Time) (s : Source) : Source :=
  {| src_name := src_name s; urls := urls s; src_bin := src_bin s; minisignKey := minisignKey s; cacheFile := cacheFile s;
     cacheTTL := cacheTTL s; prefetchDelay := prefetchDelay s; refresh := t; src_prefix := src_prefix s |}.

(** ** Files *)

Record file := { f_content : bytes; f_modTime : Time }.

Inductive source_error := FileError | SignatureError | FetchError (e : exchange_error) | FormatError | KeyError.

(** [disk] is what is in the file system, [ops] the number of operations so far. *)
Record SWorld {S : Type} := { sx : XWorld S; disk : gmap bytes file; ops : nat }.
Arguments SWorld : clear implicits.

Section sources.
Context {S : Type} `{E : !HttpEnv S}.
(** Which operations on files fail, by their number. *)
Context (io_fails : nat -> bool).
(** [minisign.DecodeSignature] and [PublicKey.Verify]: key, content, signature. *)
Context (verify : bytes -> bytes -> bytes -> bool).
Implicit Types w : SWorld S.

Definition io {A} (f : gmap bytes file -> option (A * gmap bytes file)) w : option A * SWorld S :=
  let failed := io_fails (ops w) in
  match f (disk w) with
  | Some (a, d) =>
      if failed then (None, {| sx := sx w; disk := disk w; ops := Datatypes.S (ops w) |})
      else (Some a, {| sx := sx w; disk := d; ops := Datatypes.S (ops w) |})
  | None => (None, {| sx := sx w; disk := disk w; ops := Datatypes.S (ops w) |})
  end.

Definition on_x {A} (m : X S A) w : A * SWorld S :=
  let '(a, x) := m (sx w) in (a, {| sx := x; disk := disk w; ops := ops w |}).

Definition getCurrentTime w : Time * SWorld S := on_x xnow w.

Definition ReadFile (path : bytes) w : option bytes * SWorld S :=
  io (fun d => f ← d !! path; Some (f_content f, d)) w.
Definition StatModTime (path : bytes) w : option Time * SWorld S :=
  io (fun d => f ← d !! path; Some (f_modTime f, d)) w.
Definition Chtimes (path : bytes) (t : Time) w : option unit * SWorld S :=
  io (fun d => f ← d !! path; Some (tt, <[path := {| f_content := f_content f; f_modTime := t |}]> d)) w.

(** [safefile]: a temporary file, which takes the place of the file on [Commit]. *)
Definition Create_or_Write w : option unit * SWorld S := io (fun d => Some (tt, d)) w.
Definition Commit (path content : bytes) (t : Time) w : option unit * SWorld S :=
  io (fun d => Some (tt, <[path := {| f_content := content; f_modTime := t |}]> d)) w.

Definition minisig (path : bytes) : bytes := path ++ str ".minisig".

(** ** The cache files *)

Definition checkSignature (source : Source) (bin sig : bytes) : bool := verify (minisignKey source) bin sig.

Definition fetchFromCache (source : Source) w : result source_error Duration * Source * SWorld S :=
  let '(now, w) := getCurrentTime w in
  match ReadFile (cacheFile source) w with
  | (None, w) => (Err FileError, source, w)
  | (Some bin, w) =>
      match ReadFile (minisig (cacheFile source)) w with
      | (None, w) => (Err FileError, source, w)
      | (Some sig, w) =>
          if negb (checkSignature source bin sig) then (Err SignatureError, source, w)
          else
            let source := set_bin bin source in
            match StatModTime (cacheFile source) w with
            | (None, w) => (Err FileError, source, w)
            | (Some modTime, w) =>
                let elapsed := time_sub now modTime in
                (Ok (if elapsed <? cacheTTL source then int64 (prefetchDelay source - elapsed) else 0), source, w)
            end
      end
  end.

(** Every step may fail; the two files are put in place one after the other. *)
Definition writeSource (f : bytes) (bin sig : bytes) (t : Time) w : option unit * SWorld S :=
  match Create_or_Write w with
  | (None, w) => (None, w)
  | (Some _, w) =>
      match Create_or_Write w with
      | (None, w) => (None, w)
      | (Some _, w) =>
          match Create_or_Write w with
          | (None, w) => (None, w)
          | (Some _, w) =>
              match Create_or_Write w with
              | (None, w) => (None, w)
              | (Some _, w) =>
                  match Commit f bin t w with
                  | (None, w) => (None, w)
                  | (Some _, w) => Commit (minisig f) sig t w
                  end
              end
          end
      end
  end.

Definition updateCache (source : Source) (bin sig : bytes) w : Source * SWorld S :=
  let '(now, w) := getCurrentTime w in
  let w := if bool_decide (src_bin source = bin) then w else (writeSource (cacheFile source) bin sig now w).2 in
  let w := (Chtimes (cacheFile source) now w).2 in
  (set_bin bin source, w).

(** ** Downloads *)

Definition fetchFromURL (u : URL) w : result exchange_error bytes * SWorld S :=
  let '(f, w) := on_x (GetWithCompression u [] DefaultTimeout) w in
  (match f_err f with Some e => Err e | None => Ok (f_body f) end, w).

Definition sigURL (u : URL) : URL :=
  {| url_Host := url_Host u; url_Path := url_Path u ++ str ".minisig"; url_RawQuery := url_RawQuery u |}.

(** The first URL whose content has a valid signature; the last error otherwise. *)
Fixpoint download (source : Source) (l : list URL) (last : source_error) w : result source_error (bytes * bytes) * SWorld S :=
  match l with
  | [] => (Err last, w)
  | srcURL :: l' =>
      match fetchFromURL srcURL w with
      | (Err e, w) => download source l' (FetchError e) w
      | (Ok bin, w) =>
          match fetchFromURL (sigURL srcURL) w with
          | (Err e, w) => download source l' (FetchError e) w
          | (Ok sig, w) =>
              if checkSignature source bin sig then (Ok (bin, sig), w)
              else download source l' SignatureError w
          end
      end
  end.

Definition fetchWithCache (source : Source) w : result source_error Duration * Source * SWorld S :=
  let '(now, w) := getCurrentTime w in
  let '(r, source, w) := fetchFromCache source w in
  if (length (urls source) =? 0)%nat then (match r with Ok _ => Ok 0 | Err e => Err e end, source, w)
  else
    let ttl := match r with Ok ttl => ttl | Err _ => 0 end in
    if ttl >? 0 then (Ok 0, set_refresh (time_add now ttl) source, w)
    else
      let source := set_refresh (time_add now MinimumPrefetchInterval) source in
      match download source (urls source) FileError w with
      | (Err e, w) => (Err e, source, w)
      | (Ok (bin, sig), w) =>
          let '(source, w) := updateCache source bin sig w in
          let ttl := prefetchDelay source in
          (Ok ttl, set_refresh (time_add now ttl) source, w)
      end.

(** [parseURL] is [url.Parse], [valid_key] is [minisign.NewPublicKey]. *)
Definition NewSource (parseURL : bytes -> option URL) (valid_key : bytes -> bool) (name : bytes) (urlStrs : list bytes)
    (minisignKeyStr file : bytes) (formatStr : bytes) (refreshDelay ttl : Duration) (prefix : bytes) w
    : option source_error * Source * SWorld S :=
  let refreshDelay := Max refreshDelay DefaultPrefetchDelay in
  let ttl := Max ttl refreshDelay in
  let ttl := Min ttl (168 * Hour) in
  let source := {| src_name := name; urls := []; src_bin := []; minisignKey := minisignKeyStr; cacheFile := file;
                   cacheTTL := ttl; prefetchDelay := refreshDelay; refresh := zero_time; src_prefix := prefix |} in
  if negb (bool_decide (formatStr = str "v2")) then (Some FormatError, source, w)
  else if negb (valid_key minisignKeyStr) then (Some KeyError, source, w)
  else
    let source := {| src_name := name; urls := omap parseURL urlStrs; src_bin := []; minisignKey := minisignKeyStr;
                     cacheFile := file; cacheTTL := ttl; prefetchDelay := refreshDelay; refresh := zero_time;
                     src_prefix := prefix |} in
    let '(r, source, w) := fetchWithCache source w in
    (match r with Ok _ => None | Err e => Some e end, source, w).

(** One round over the sources: the ones that are due are fetched; the delay to the next round. *)
Fixpoint prefetch_loop (now : Time) (sources : list Source) (interval : Duration) w
    : list Source * Duration * SWorld S :=
  match sources with
  | [] => ([], interval, w)
  | source :: sources' =>
      let '(source, interval, w) :=
        if IsZero (refresh source) || (refresh source >? now) then (source, interval, w)
        else
          let '(r, source, w) := fetchWithCache source w in
          match r with
          | Err _ => (source, interval, w)
          | Ok delay =>
              (source, if (delay >=? MinimumPrefetchInterval) &&
                          ((interval =? MinimumPrefetchInterval) || (interval >? delay)) then delay else interval, w)
          end in
      let '(sources', interval, w) := prefetch_loop now sources' interval w in
      (source :: sources', interval, w)
  end.

Definition PrefetchSources (sources : list Source) w : list Source * Duration * SWorld S :=
  let '(now, w) := getCurrentTime w in prefetch_loop now sources MinimumPrefetchInterval w.
End sources.

(** ** The contents of a list *)

(** [strings.Split] with a separator that is not empty. *)
Fixpoint split_fuel (fuel : nat) (s sep cur : bytes) : list bytes :=
  match fuel with
  | O => [reverse cur ++ s]
  | Datatypes.S fuel' =>
      match s with
      | [] => [reverse cur]
      | c :: s' =>
          if HasPrefix s sep then reverse cur :: split_fuel fuel' (drop (length sep) s) sep []
          else split_fuel fuel' s' sep (c :: cur)
      end
  end.
Definition SplitStr (s sep : bytes) : list bytes := split_fuel (Datatypes.S (length s)) s sep [].

Section parse.
(** [rand.Shuffle], and [NewServerStampFromString] of the stamps library. *)
Context (shuffle : list bytes -> list bytes) (parse_stamp : bytes -> option ServerStamp).

(** One line of the section of a server: the stamps and the description so far. *)
Definition parse_subpart (acc : list bytes * bytes) (subpart : bytes) : list bytes * bytes :=
  let '(stampStrs, description) := acc in
  let subpart := TrimSpace subpart in
  if HasPrefix subpart (str "sdns:") && (len subpart >=? 6) then (stampStrs ++ [subpart], description)
  else if (len subpart =? 0) || HasPrefix subpart (str "//") then acc
  else (stampStrs, (if len description >? 0 then description ++ [10] else description) ++ subpart).

(** The first stamp that parses, and the number of those that do not before it. *)
Fixpoint first_stamp (l : list bytes) : option ServerStamp * nat :=
  match l with
  | [] => (None, 0%nat)
  | stampStr :: l' =>
      match parse_stamp stampStr with
      | Some stamp => (Some stamp, 0%nat)
      | None => let '(r, n) := first_stamp l' in (r, Datatypes.S n)
      end
  end.

(** The servers, the number of bad stamps, and whether the format is invalid. *)
Fixpoint parse_parts (prefix : bytes) (parts : list bytes) (servers : list RegisteredServer) (stampErrs : nat)
    : list RegisteredServer * option (option nat) :=
  match parts with
  | [] => (servers, if (0 <? stampErrs)%nat then Some (Some stampErrs) else None)
  | part :: parts' =>
      match Split (TrimSpace part) 10 with
      | [] | [_] => (servers, Some None)
      | first :: subparts =>
          let name := TrimSpace first in
          if (len name =? 0) then (servers, Some None)
          else
            let name := prefix ++ name in
            let '(stampStrs, description) := foldl parse_subpart ([], []) subparts in
            if (length stampStrs =? 0)%nat then parse_parts prefix parts' servers (Datatypes.S stampErrs)
            else
              let stampStrs := if (1 <? length stampStrs)%nat then shuffle stampStrs else stampStrs in
              match first_stamp stampStrs with
              | (Some stamp, bad) =>
                  parse_parts prefix parts'
                    (servers ++ [{| rs_name := name; rs_stamp := stamp; rs_description := description |}]) (stampErrs + bad)
              | (None, bad) => parse_parts prefix parts' servers (stampErrs + bad)
              end
      end
  end.

(** [Some None] is an invalid format, [Some (Some n)] is [n] bad stamps. *)
Definition parseV2 (source : Source) : list RegisteredServer * option (option nat) :=
  match SplitStr (src_bin source) (str "## ") with
  | [] | [_] => ([], Some None)
  | _ :: parts => parse_parts (src_prefix source) parts [] 0
  end.
End parse.
