(* ===== verification/SourcesProps.v ===== *)
(** * Properties of the lists of servers

    Only lists with a valid signature are ever in use, what is written to the cache is
    what is read back, every source is fetched again in time, and the parser recovers the
    servers of a list. *)

From S2P Require Import Prelude GoStrings NetIP Common Crypto Dns ServerTypes Servers ServersProps Feedback Query Clients Url.
From S2P Require Import XTransport XTransportProps Sources.

Section sources.
Context {S : Type} `{E : !HttpEnv S} (io_fails : nat -> bool) (verify : bytes -> bytes -> bytes -> bool).
Implicit Types w : SWorld S.

(** The list in memory is empty or has a valid signature. *)
Definition signed (s : Source) : Prop :=
  src_bin s = [] \/ exists sig, verify (minisignKey s) (src_bin s) sig = true.

(** What fetching leaves alone. *)
Definition same_source (s s' : Source) : Prop :=
  (src_name s', urls s', minisignKey s', cacheFile s', cacheTTL s', prefetchDelay s', src_prefix s') =
  (src_name s, urls s, minisignKey s, cacheFile s, cacheTTL s, prefetchDelay s, src_prefix s).

Lemma fetchFromCache_spec source w r source' w' : fetchFromCache io_fails verify source w = (r, source', w') ->
  same_source source source' /\ refresh source' = refresh source /\ (signed source -> signed source') /\
  sx w' = (on_x xnow w).2.(sx) /\ disk w' = disk w.
Proof.
  unfold fetchFromCache, getCurrentTime, ReadFile, StatModTime, io, checkSignature.
  destruct (on_x xnow w) as [now w0] eqn:E0. cbn [snd].
  assert (disk w0 = disk w) as Hd. { unfold on_x in E0. destruct (xnow (sx w)). by injection E0 as <- <-. }
  rewrite <-Hd. clear Hd E0.
  destruct (disk w0 !! cacheFile source) as [f|]; [|by intros [= <- <- <-]]. csimpl.
  destruct (io_fails (ops w0)); [by intros [= <- <- <-]|]. cbn [disk].
  destruct (disk w0 !! minisig (cacheFile source)) as [g|]; [|by intros [= <- <- <-]]. csimpl.
  destruct (io_fails _); [by intros [= <- <- <-]|]. cbn [disk].
  destruct (verify _ _ _) eqn:Ev; cbn [negb]; [|by intros [= <- <- <-]].
  assert (signed (set_bin (f_content f) source)) as Hs by (right; by exists (f_content g)).
  cbn [cacheFile set_bin]. destruct (disk w0 !! cacheFile source) as [f'|]; csimpl; [|by intros [= <- <- <-]].
  destruct (io_fails _); by intros [= <- <- <-].
Qed.

Lemma download_signed source l last w bin sig w' :
  download verify source l last w = (Ok (bin, sig), w') -> verify (minisignKey source) bin sig = true.
Proof.
  revert last w. induction l as [|u l IH]; intros last w; cbn [download]; [done|].
  destruct (fetchFromURL u w) as [[b|e] w1]; [|apply IH]. destruct (fetchFromURL (sigURL u) w1) as [[s|e] w2]; [|apply IH].
  unfold checkSignature. destruct (verify (minisignKey source) b s) eqn:Ev; [|apply IH]. by intros [= <- <- <-].
Qed.

(** What one fetch does to a source; [now] is the clock when it starts. *)
Lemma fetchWithCache_spec source w r source' w' : fetchWithCache io_fails verify source w = (r, source', w') ->
  let now := (on_x xnow w).1 in
  same_source source source' /\ (signed source -> signed source') /\
  (urls source = [] -> refresh source' = refresh source) /\
  (urls source <> [] -> exists d, refresh source' = now + d /\
     match r with
     | Err _ => d = MinimumPrefetchInterval
     | Ok delay => delay = 0 /\ 0 < d \/ delay = prefetchDelay source /\ d = delay
     end).
Proof.
  unfold fetchWithCache, getCurrentTime at 1. destruct (on_x xnow w) as [now w0]. cbn [fst].
  destruct (fetchFromCache io_fails verify source w0) as [[r1 source1] w1] eqn:E1.
  destruct (fetchFromCache_spec _ _ _ _ _ E1) as (Hsame & Href & Hsig & _ & _).
  assert (urls source1 = urls source) as Hu by (unfold same_source in Hsame; congruence). rewrite Hu.
  destruct (length (urls source) =? 0)%nat eqn:El.
  { intros [= <- <- <-]. apply Nat.eqb_eq, nil_length_inv in El. by split_and!. }
  apply Nat.eqb_neq in El. assert (urls source <> []) as Hne by (intros Hn; by rewrite Hn in El). clear El.
  destruct (_ >? 0) eqn:Et; bools.
  { intros [= <- <- <-]. split_and!; [done..|]. intros _. eexists. split; [done|]. left. split; [done|lia]. }
  destruct (download _ _ _ _ _) as [[[bin sig]|e] w2] eqn:Ed.
  - apply download_signed in Ed. cbn [minisignKey set_refresh] in Ed. unfold updateCache.
    destruct (getCurrentTime w2) as [now2 w3]. intros [= <- <- <-]. split_and!; [done| |done|].
    + intros _. right. by exists sig.
    + intros _. eexists. split; [done|]. right. split; [|done]. cbn. unfold same_source in Hsame. congruence.
  - intros [= <- <- <-]. split_and!; [done..|]. intros _. by eexists.
Qed.

Lemma prefetch_loop_spec now sources interval w sources' interval' w' :
  prefetch_loop io_fails verify now sources interval w = (sources', interval', w') ->
  Forall2 same_source sources sources' /\ (Forall signed sources -> Forall signed sources') /\
  (MinimumPrefetchInterval <= interval -> MinimumPrefetchInterval <= interval').
Proof.
  revert interval w sources' interval' w'. induction sources as [|s sources IH]; intros interval w sources' interval' w';
    cbn [prefetch_loop]; [by intros [= <- <- <-]|].
  destruct (if _ || _ then _ else _) as [[s1 i1] w1] eqn:E1.
  assert (same_source s s1 /\ (signed s -> signed s1) /\
          (MinimumPrefetchInterval <= interval -> MinimumPrefetchInterval <= i1)) as (H1 & H2 & H3).
  { destruct (IsZero (refresh s) || (refresh s >? now)); [by injection E1 as <- <- <-|].
    destruct (fetchWithCache io_fails verify s w) as [[r s2] w2] eqn:E2.
    destruct (fetchWithCache_spec _ _ _ _ _ E2) as (G1 & G2 & _). destruct r as [d|e]; injection E1 as <- <- <-; [|done].
    split_and!; [done..|]. destruct (_ && _) eqn:Ec; bools; lia. }
  destruct (prefetch_loop io_fails verify now sources i1 w1) as [[l2 i2] w2] eqn:E2.
  destruct (IH _ _ _ _ _ E2) as (G1 & G2 & G3). intros [= <- <- <-]. split_and!; [by constructor| |auto].
  intros [Hs Hl]%Forall_cons. constructor; auto.
Qed.

Lemma NewSource_signed parseURL valid_key name urlStrs key path formatStr refreshDelay ttl prefix w err source w' :
  NewSource io_fails verify parseURL valid_key name urlStrs key path formatStr refreshDelay ttl prefix w = (err, source, w') ->
  signed source /\ minisignKey source = key /\ prefetchDelay source = Max refreshDelay DefaultPrefetchDelay /\
  cacheTTL source = Min (Max ttl (Max refreshDelay DefaultPrefetchDelay)) (168 * Hour).
Proof.
  unfold NewSource. destruct (negb _); [intros [= <- <- <-]; split_and!; [by left|done..]|].
  destruct (negb _); [intros [= <- <- <-]; split_and!; [by left|done..]|].
  destruct (fetchWithCache _ _ _ _) as [[r source1] w1] eqn:E1. intros [= <- <- <-].
  destruct (fetchWithCache_spec _ _ _ _ _ E1) as (H1 & H2 & _). unfold same_source in H1. cbn in H1.
  split_and!; [apply H2; by left|congruence..].
Qed.

(** C19: only signed lists are used.  Whatever the servers send, whatever is in the cache files and
    whichever operation fails, the list of a new source is empty or has a signature by its
    key, and the sources keep that property, and their keys, when they are fetched again. *)
Theorem signed_sources parseURL valid_key name urlStrs key path formatStr refreshDelay ttl prefix w :
  (let '(_, source, _) := NewSource io_fails verify parseURL valid_key name urlStrs key path formatStr refreshDelay ttl
     prefix w in signed source /\ minisignKey source = key) /\
  forall sources, Forall signed sources ->
    let '(sources', interval, _) := PrefetchSources io_fails verify sources w in
    Forall signed sources' /\ minisignKey <$> sources' = minisignKey <$> sources /\ MinimumPrefetchInterval <= interval.
Proof.
  split.
  - destruct (NewSource _ _ _ _ _ _ _ _ _ _ _ _ _) as [[err source] w'] eqn:E1.
    by destruct (NewSource_signed _ _ _ _ _ _ _ _ _ _ _ _ _ _ E1) as (H1 & H2 & _).
  - intros sources Hs. unfold PrefetchSources. destruct (getCurrentTime w) as [now w0].
    destruct (prefetch_loop _ _ _ _ _ _) as [[sources' interval] w'] eqn:E1.
    destruct (prefetch_loop_spec _ _ _ _ _ _ _ E1) as (H1 & H2 & H3). split_and!; [by apply H2| |by apply H3].
    clear -H1. induction H1 as [|s s' l l' Hs Hl IH]; csimpl; [done|]. unfold same_source in Hs. congruence.
Qed.

(** A source is fetched again in time.  After a fetch, a source with URLs is due at a later time:
    ten minutes later if it failed, and otherwise after its prefetch delay or when the copy
    in its cache has reached that age. *)
Theorem next_refresh source w :
  urls source <> [] -> DefaultPrefetchDelay <= prefetchDelay source ->
  let '(r, source', _) := fetchWithCache io_fails verify source w in
  let now := (on_x xnow w).1 in
  now < refresh source' /\ (forall e, r = Err e -> refresh source' = now + MinimumPrefetchInterval) /\
  (forall d, r = Ok d -> d = 0 \/ refresh source' = now + prefetchDelay source).
Proof.
  intros Hu Hd. destruct (fetchWithCache _ _ _ _) as [[r source'] w'] eqn:E1.
  destruct (fetchWithCache_spec _ _ _ _ _ E1) as (_ & _ & _ & H). destruct (H Hu) as (d & Hr & Hcase).
  rewrite Hr. unfold DefaultPrefetchDelay, MinimumPrefetchInterval, Hour, Minute, Second in *.
  destruct r as [delay|e]; (split_and!; [|intros ? [= <-]|intros ? [= <-]]); try lia;
    destruct Hcase as [[? ?]|[? ?]]; try lia; auto.
Qed.
End sources.

(** ** The cache files *)

Lemma minisig_ne path : minisig path <> path.
Proof. unfold minisig. intros H. apply (f_equal length) in H. rewrite length_app in H. cbn in H. lia. Qed.

(** What is written to the cache is what is read back.  Once a new list with a valid signature is
    stored, without failures, a source that starts from the same cache file gets that list,
    and the delay that is left of its prefetch delay. *)
Theorem cache_roundtrip {S} `{E : !HttpEnv S} verify source bin sig (w : SWorld S) source2 :
  verify (minisignKey source2) bin sig = true -> src_bin source <> bin -> cacheFile source2 = cacheFile source ->
  let w' := (updateCache (fun _ => false) source bin sig w).2 in
  let elapsed := time_sub (on_x xnow w').1 (on_x xnow w).1 in
  (fetchFromCache (fun _ => false) verify source2 w').1 =
    (Ok (if elapsed <? cacheTTL source2 then int64 (prefetchDelay source2 - elapsed) else 0), set_bin bin source2).
Proof.
  intros Hv Hne Hf. unfold updateCache, getCurrentTime. rewrite bool_decide_false by done.
  destruct (on_x xnow w) as [t w0] eqn:E0. cbn [fst snd].
  assert (exists n, (Chtimes (fun _ => false) (cacheFile source) t
    (writeSource (fun _ => false) (cacheFile source) bin sig t w0).2).2 =
    {| sx := sx w0; disk := <[cacheFile source := {| f_content := bin; f_modTime := t |}]>
         (<[minisig (cacheFile source) := {| f_content := sig; f_modTime := t |}]>
         (<[cacheFile source := {| f_content := bin; f_modTime := t |}]> (disk w0))); ops := n |}) as [n ->].
  { unfold Chtimes, writeSource, Create_or_Write, Commit, io. cbn. eexists.
    by rewrite lookup_insert_ne, lookup_insert_eq by apply minisig_ne. }
  set (w' := {| sx := _; disk := _; ops := n |}). unfold fetchFromCache, getCurrentTime.
  destruct (on_x xnow w') as [t2 w2] eqn:E2. cbn [fst].
  assert (disk w2 = disk w') as Hd. { unfold on_x in E2. destruct (xnow (sx w')). by injection E2 as <- <-. }
  unfold ReadFile, StatModTime, checkSignature, io. rewrite Hd, Hf. unfold w'. cbn.
  rewrite lookup_insert_eq. cbn.
  rewrite lookup_insert_ne, lookup_insert_eq by (symmetry; apply minisig_ne). cbn. rewrite Hv. cbn.
  by rewrite Hf, lookup_insert_eq.
Qed.

(** A list that has not changed is not written again: a cache file that was damaged meanwhile
    stays as it is. *)
Lemma damaged_cache_kept {S} `{E : !HttpEnv S} io_fails source sig (w : SWorld S) path :
  f_content <$> disk (updateCache io_fails source (src_bin source) sig w).2 !! path = f_content <$> disk w !! path.
Proof.
  unfold updateCache, getCurrentTime. rewrite bool_decide_true by done. destruct (on_x xnow w) as [t w0] eqn:E0.
  assert (disk w0 = disk w) as <-. { unfold on_x in E0. destruct (xnow (sx w)). by injection E0 as <- <-. }
  cbn. unfold Chtimes, io. destruct (disk w0 !! cacheFile source) as [f|] eqn:Ef; [|done]. csimpl.
  destruct (io_fails _); [done|]. cbn. destruct (decide (path = cacheFile source)) as [->|].
  - by rewrite lookup_insert_eq, Ef.
  - by rewrite lookup_insert_ne.
Qed.

(** ** The contents of a list *)

Section trim.
Notation ascii s := (Forall (fun b => 0 <= b < 128) s).

Lemma space_width_ascii c s : 0 <= c < 128 -> space_width (c :: s) = if IsSpace c then 1%nat else 0%nat.
Proof.
  intros Hc. unfold space_width, DecodeRune. cbn -[IsSpace]. unfold RuneSelf. rewrite (proj2 (Z.ltb_lt _ _)) by lia.
  by destruct (IsSpace c).
Qed.

Lemma space_width_ascii_le s : ascii s -> (space_width s <= 1)%nat.
Proof. intros [|c s' Hc _]; [cbn; lia|]. rewrite space_width_ascii by done. destruct (IsSpace c); lia. Qed.

Lemma TrimLeftSpace_id c s : 0 <= c < 128 -> IsSpace c = false -> TrimLeftSpace (c :: s) = c :: s.
Proof. intros Hc Hs. unfold TrimLeftSpace. cbn [length trim_left_fuel]. by rewrite space_width_ascii, Hs by done. Qed.

Lemma last_space_width_ascii s c : ascii (s ++ [c]) ->
  last_space_width (s ++ [c]) = if IsSpace c then 1%nat else 0%nat.
Proof.
  intros Hs. assert (0 <= c < 128) as Hc by (apply Forall_app in Hs as [_ Hs]; apply Forall_cons in Hs as [Hs _]; exact Hs).
  unfold last_space_width.
  assert (drop (length (s ++ [c]) - 1) (s ++ [c]) = [c]) as ->.
  { rewrite length_app. cbn. rewrite Nat.add_sub. apply drop_app_length. }
  rewrite space_width_ascii by done. rewrite length_app. cbn [length].
  rewrite (proj2 (Nat.leb_le 1 _)) by lia. cbn [andb]. destruct (IsSpace c); [done|]. cbn [Nat.eqb].
  assert (forall n, (2 <= n)%nat -> (space_width (drop (length s + 1 - n) (s ++ [c])) =? n)%nat = false) as H.
  { intros n Hn. apply Nat.eqb_neq. pose proof (space_width_ascii_le (drop (length s + 1 - n) (s ++ [c]))
      (Forall_drop _ _ _ Hs)). lia. }
  by rewrite !H, !andb_false_r by lia.
Qed.

Lemma TrimRightSpace_id s c : ascii (s ++ [c]) -> IsSpace c = false -> TrimRightSpace (s ++ [c]) = s ++ [c].
Proof.
  intros Hs Hc. unfold TrimRightSpace. rewrite length_app, Nat.add_comm. cbn [length Nat.add trim_right_fuel].
  by rewrite last_space_width_ascii, Hc.
Qed.

Lemma TrimRightSpace_space s c : ascii (s ++ [c]) -> IsSpace c = true -> TrimRightSpace (s ++ [c]) = TrimRightSpace s.
Proof.
  intros Hs Hc. unfold TrimRightSpace. rewrite length_app, Nat.add_comm. cbn [length Nat.add trim_right_fuel].
  rewrite last_space_width_ascii, Hc by done. f_equal. rewrite length_app. cbn. rewrite Nat.add_sub. apply take_app_length.
Qed.
End trim.

(** A line without white space at its ends. *)
Definition clean (s : bytes) : Prop :=
  Forall (fun b => 0 <= b < 128) s /\ 10 ∉ s /\
  (exists c s', s = c :: s' /\ IsSpace c = false) /\ (exists c s', s = s' ++ [c] /\ IsSpace c = false).

Lemma clean_TrimSpace s : clean s -> TrimSpace s = s.
Proof.
  intros (Ha & _ & (c & s1 & -> & Hc) & (d & s2 & Hd & Hsd)). unfold TrimSpace.
  rewrite TrimLeftSpace_id; [|by apply Forall_cons in Ha as [? _]|done]. rewrite Hd in Ha |- *. by apply TrimRightSpace_id.
Qed.

(** The section of a server in a list. *)
Record entry := { e_name : bytes; e_description : list bytes; e_stamp : bytes; e_server : ServerStamp }.

Definition entry_lines (e : entry) : list bytes := e_name e :: e_description e ++ [e_stamp e].
Definition print_entry (e : entry) : bytes := entry_lines e ≫= fun l => l ++ [10].

(** The mark that starts a section. *)
Notation mark := (str "## ").

Lemma HasPrefix_mark c t rest : Contains (c :: t) mark = false -> HasPrefix (c :: t ++ mark ++ rest) mark = false.
Proof.
  intros Hn. apply not_true_is_false. intros [k Hk]%HasPrefix_spec. destruct t as [|x [|y t]]; [discriminate Hk..|].
  injection Hk as -> -> -> _. apply not_true_iff_false in Hn. apply Hn, Contains_spec. by exists [], t.
Qed.

Lemma Contains_tail c t m : Contains (c :: t) m = false -> Contains t m = false.
Proof.
  intros Hn. apply not_true_is_false. intros (a & b & ->)%Contains_spec. apply not_true_iff_false in Hn.
  apply Hn, Contains_spec. by exists (c :: a), b.
Qed.

Lemma split_fuel_mark fuel t rest cur : Contains t mark = false -> (length (t ++ mark ++ rest) < fuel)%nat ->
  exists fuel', (length rest < fuel')%nat /\
    split_fuel fuel (t ++ mark ++ rest) mark cur = (reverse cur ++ t) :: split_fuel fuel' rest mark [].
Proof.
  revert fuel cur. induction t as [|c t IH]; intros fuel cur Hn Hf; (destruct fuel as [|fuel]; [cbn in Hf; lia|]).
  - exists fuel. split; [cbn in Hf; lia|]. rewrite app_nil_r. reflexivity.
  - rewrite <-!app_comm_cons. cbn [split_fuel]. rewrite HasPrefix_mark by done.
    destruct (IH fuel (c :: cur)) as (fuel' & Hf' & ->); [by eapply Contains_tail|change (Datatypes.S (length (t ++ mark ++ rest)) < Datatypes.S fuel)%nat in Hf; lia|].
    exists fuel'. split; [done|]. by rewrite reverse_cons, <-app_assoc.
Qed.

Lemma split_fuel_end fuel t cur : Contains t mark = false -> (length t < fuel)%nat ->
  split_fuel fuel t mark cur = [reverse cur ++ t].
Proof.
  revert fuel cur. induction t as [|c t IH]; intros fuel cur Hn Hf; (destruct fuel as [|fuel]; [cbn in Hf; lia|]); cbn [split_fuel].
  - by rewrite app_nil_r.
  - assert (HasPrefix (c :: t) mark = false) as ->.
    { apply not_true_is_false. intros [k Hk]%HasPrefix_spec. apply not_true_iff_false in Hn.
      apply Hn, Contains_spec. by exists [], k. }
    rewrite IH; [by rewrite reverse_cons, <-app_assoc|by eapply Contains_tail|cbn in Hf; lia].
Qed.

Lemma SplitStr_marks h l : Contains h mark = false -> Forall (fun b => Contains b mark = false) l ->
  SplitStr (h ++ (l ≫= fun b => mark ++ b)) mark = h :: l.
Proof.
  intros Hh Hl. unfold SplitStr. generalize (Nat.lt_succ_diag_r (length (h ++ (l ≫= fun b => mark ++ b)))).
  generalize (Datatypes.S (length (h ++ (l ≫= fun b => mark ++ b)))). revert h Hh.
  induction Hl as [|b l Hb Hl IH]; intros h Hh fuel Hf; cbn [mbind list_bind] in *.
  - rewrite app_nil_r in *. by rewrite split_fuel_end.
  - rewrite <-app_assoc in *. destruct (split_fuel_mark fuel h (b ++ (l ≫= fun b => mark ++ b)) [] Hh Hf) as (f' & Hf' & ->).
    cbn. f_equal. by apply IH.
Qed.

(** ** Sections *)

Section parse.
Context (shuffle : list bytes -> list bytes) (parse_stamp : bytes -> option ServerStamp).

(** A section that the format allows: clean lines, none of the description taken for a stamp or
    a comment, and a stamp that parses. *)
Definition entry_wf (e : entry) : Prop :=
  clean (e_name e) /\ clean (e_stamp e) /\ Forall clean (e_description e) /\
  Forall (fun l => HasPrefix l (str "sdns:") = false /\ HasPrefix l (str "//") = false) (e_description e) /\
  HasPrefix (e_stamp e) (str "sdns:") = true /\ 6 <= len (e_stamp e) /\
  parse_stamp (e_stamp e) = Some (e_server e) /\ Contains (print_entry e) mark = false.

Definition description_of (l : list bytes) : bytes :=
  match l with [] => [] | s :: l' => s ++ (l' ≫= fun t => 10 :: t) end.

Lemma print_lines s l : ((s :: l) ≫= fun l => l ++ [10]) = (s ++ (l ≫= fun t => 10 :: t)) ++ [10].
Proof.
  revert s. induction l as [|t l IH]; intros s; csimpl; [by rewrite !app_nil_r|].
  specialize (IH t). csimpl in IH. rewrite IH, <-!app_assoc. cbn. by rewrite <-!app_assoc.
Qed.

Lemma clean_nonempty s : clean s -> s <> [].
Proof. by intros (_ & _ & (c & s' & -> & _) & _). Qed.

Lemma print_entry_trim e : entry_wf e -> Split (TrimSpace (print_entry e)) 10 = entry_lines e.
Proof.
  intros (Hn & Hs & Hd & _). unfold print_entry, entry_lines. rewrite print_lines.
  set (rest := e_description e ++ [e_stamp e]).
  assert (Forall clean rest) as Hrest by (apply Forall_app_2; [done|by constructor]).
  assert (Forall (fun b => 0 <= b < 128) (e_name e ++ (rest ≫= fun t => 10 :: t))) as Ha.
  { apply Forall_app_2; [apply Hn|]. apply Forall_bind. eapply Forall_impl; [exact Hrest|]. intros t Ht.
    constructor; [lia|apply Ht]. }
  assert (TrimSpace ((e_name e ++ (rest ≫= fun t => 10 :: t)) ++ [10]) = e_name e ++ (rest ≫= fun t => 10 :: t)) as ->.
  { unfold TrimSpace. destruct Hn as (Hna & _ & (c & n' & Hc & Hsp) & _). rewrite Hc in *. rewrite <-!app_comm_cons in *.
    rewrite TrimLeftSpace_id; [|by apply Forall_cons in Ha as [? _]|done]. rewrite !app_comm_cons.
    rewrite TrimRightSpace_space; [|apply Forall_app_2; [done|by repeat constructor]|done].
    destruct Hs as (_ & _ & _ & (d & s' & Hd' & Hsd)). unfold rest in *. rewrite bind_app in *. csimpl in *.
    rewrite Hd', app_nil_r in *. rewrite !app_comm_cons, !app_assoc in *. by apply TrimRightSpace_id. }
  apply Split_joined; [apply Hn|]. eapply Forall_impl; [exact Hrest|]. intros t Ht. apply Ht.
Qed.

Lemma parse_description l ss d : Forall clean l ->
  Forall (fun l => HasPrefix l (str "sdns:") = false /\ HasPrefix l (str "//") = false) l ->
  d <> [] -> foldl parse_subpart (ss, d) l = (ss, d ++ (l ≫= fun t => 10 :: t)).
Proof.
  intros Hc Hp Hd. revert d Hd. induction Hc as [|t l Ht Hc IH]; intros d Hd; cbn [foldl mbind list_bind]; [by rewrite app_nil_r|].
  apply Forall_cons in Hp as [[H1 H2] Hp].
  assert (parse_subpart (ss, d) t = (ss, d ++ 10 :: t)) as ->.
  { unfold parse_subpart. rewrite clean_TrimSpace, H1, H2 by done. cbn [andb].
    pose proof (clean_nonempty t Ht). destruct (len t =? 0) eqn:E0; bools; [by apply len_nil_inv in E0|]. cbn [orb].
    destruct (len d >? 0) eqn:Ed; bools; [by rewrite <-app_assoc|]. pose proof (len_nonneg d). by rewrite (len_nil_inv d) in Hd by lia. }
  rewrite IH; [by rewrite <-app_assoc|done|]. by destruct d.
Qed.

Lemma parse_subparts e : entry_wf e ->
  foldl parse_subpart ([], []) (e_description e ++ [e_stamp e]) = ([e_stamp e], description_of (e_description e)).
Proof.
  intros (_ & Hs & Hd & Hp & Hx & Hlen & _). rewrite foldl_app.
  assert (foldl parse_subpart ([], []) (e_description e) = ([], description_of (e_description e))) as ->.
  { destruct Hd as [|t l Ht Hl]; [done|]. apply Forall_cons in Hp as [[H1 H2] Hp]. cbn [foldl].
    pose proof (clean_nonempty t Ht).
    assert (parse_subpart ([], []) t = ([], t)) as ->.
    { unfold parse_subpart. rewrite clean_TrimSpace, H1, H2 by done. by destruct t. }
    by apply parse_description. }
  cbn [foldl]. unfold parse_subpart. rewrite clean_TrimSpace, Hx by done. by rewrite (proj2 (Z.geb_le _ _)) by lia.
Qed.

Definition server_of (prefix : bytes) (e : entry) : RegisteredServer :=
  {| rs_name := prefix ++ e_name e; rs_stamp := e_server e; rs_description := description_of (e_description e) |}.

Lemma parse_parts_entries prefix es servers : Forall entry_wf es ->
  parse_parts shuffle parse_stamp prefix (print_entry <$> es) servers 0 = (servers ++ (server_of prefix <$> es), None).
Proof.
  intros Hes. revert servers. induction Hes as [|e es He Hes IH]; intros servers; csimpl; [by rewrite app_nil_r|].
  rewrite print_entry_trim by done. unfold entry_lines.
  pose proof He as (Hn & _ & _ & _ & _ & _ & Hst & _). pose proof (clean_nonempty _ Hn).
  destruct (e_description e ++ [e_stamp e]) as [|x l] eqn:Ex; [by destruct (e_description e)|]. rewrite <-Ex.
  rewrite clean_TrimSpace, parse_subparts by done. destruct (len (e_name e) =? 0) eqn:El; bools.
  { by apply len_nil_inv in El. }
  cbn [length Nat.eqb Nat.ltb Nat.leb first_stamp]. rewrite Hst. cbn [Nat.add]. rewrite IH. by rewrite <-app_assoc.
Qed.

(** The parser of lists.  From a list that consists of some text and of sections with a name, lines
    of description and a stamp, the parser gets exactly these servers, in their order, with
    their names after the prefix of the source and their descriptions, and no error. *)
Theorem parse_list source h es :
  src_bin source = h ++ (es ≫= fun e => mark ++ print_entry e) -> Contains h mark = false -> es <> [] ->
  Forall entry_wf es ->
  parseV2 shuffle parse_stamp source = (server_of (src_prefix source) <$> es, None).
Proof.
  intros Hb Hh Hne Hes. unfold parseV2. rewrite Hb.
  assert ((es ≫= fun e => mark ++ print_entry e) = (print_entry <$> es) ≫= fun b => mark ++ b) as ->.
  { clear. induction es as [|e es IH]; [done|]. cbn [mbind list_bind fmap list_fmap] in *. by rewrite IH. }
  rewrite SplitStr_marks; [|done|].
  - destruct es as [|e es]; [done|]. exact (parse_parts_entries (src_prefix source) (e :: es) [] Hes).
  - apply Forall_fmap. eapply Forall_impl; [exact Hes|]. intros e He. apply He.
Qed.
End parse.

(** ** Examples *)

(** A list is signed by the length of its name of key plus its own; the transport of the HTTP
    examples answers every download with the same three bytes. *)
Definition ex_verify (key bin sig : bytes) : bool := bool_decide (sig = key ++ bin).
Definition ex_source : Source :=
  {| src_name := str "list"; urls := [ex_url]; src_bin := []; minisignKey := []; cacheFile := str "list.md";
     cacheTTL := 72 * Hour; prefetchDelay := 24 * Hour; refresh := 0; src_prefix := str "x-" |}.
Definition ex_sworld : SWorld Z := {| sx := ex_xworld false; disk := ∅; ops := 0 |}.

(** The download is signed, and is stored. *)
Lemma ex_download : let '(r, s, w) := fetchWithCache (fun _ => false) ex_verify ex_source ex_sworld in
  r = Ok (24 * Hour) /\ src_bin s = [1; 2; 3] /\ is_Some (disk w !! str "list.md").
Proof. vm_compute. split_and!; [reflexivity..|by eexists]. Qed.

Lemma signed_sources_witness :
  let '(sources', interval, _) := PrefetchSources (fun _ => false) ex_verify [ex_source] ex_sworld in
  Forall (signed ex_verify) sources' /\ minisignKey <$> sources' = [[]] /\ MinimumPrefetchInterval <= interval.
Proof.
  apply (proj2 (signed_sources (fun _ => false) ex_verify (fun _ => None) (fun _ => true) [] [] [] [] [] 0 0 [] ex_sworld)
    [ex_source]).
  apply Forall_singleton. left. reflexivity.
Defined.

Lemma next_refresh_witness :
  let '(_, source', _) := fetchWithCache (fun _ => true) ex_verify ex_source ex_sworld in
  (on_x xnow ex_sworld).1 < refresh source'.
Proof.
  pose proof (next_refresh (fun _ => true) ex_verify ex_source ex_sworld) as H.
  destruct (fetchWithCache _ _ _ _) as [[r s] w]. apply H; [discriminate|]. vm_compute. discriminate.
Defined.

Lemma cache_roundtrip_witness :
  let w' := (updateCache (fun _ => false) ex_source [1; 2] [1; 2] ex_sworld).2 in
  (fetchFromCache (fun _ => false) ex_verify ex_source w').1 = (Ok (24 * Hour - 1 * Second), set_bin [1; 2] ex_source).
Proof.
  cbv zeta. rewrite (cache_roundtrip ex_verify ex_source [1; 2] [1; 2] ex_sworld ex_source).
  - vm_compute. reflexivity.
  - reflexivity.
  - discriminate.
  - reflexivity.
Defined.

Definition ex_entry : entry :=
  {| e_name := str "server"; e_description := [str "A resolver"; str "No logs"]; e_stamp := str "sdns://AQ";
     e_server := sample_stamp StampProtoTypeDNSCrypt "10.0.0.1:443" |}.
Definition ex_parse_stamp (s : bytes) : option ServerStamp :=
  if bool_decide (s = str "sdns://AQ") then Some (e_server ex_entry) else None.

Lemma ex_clean s c d s1 s2 : forallb (fun b => (0 <=? b) && (b <? 128) && negb (b =? 10)) s = true ->
  s = c :: s1 -> s = s2 ++ [d] -> IsSpace c = false -> IsSpace d = false -> clean s.
Proof.
  intros H H1 H2 Hc Hd. rewrite forallb_forall in H. split_and!; [|intros Hin|by exists c, s1|by exists d, s2].
  - apply Forall_forall. intros x Hx%list_elem_of_In. specialize (H x Hx). bools. lia.
  - apply list_elem_of_In, H in Hin. done.
Qed.

Lemma parse_list_witness :
  parseV2 id ex_parse_stamp (set_bin (str "# A list" ++ [10] ++ mark ++ print_entry ex_entry) ex_source) =
    ([server_of (str "x-") ex_entry], None).
Proof.
  apply (parse_list id ex_parse_stamp (set_bin (str "# A list" ++ [10] ++ mark ++ print_entry ex_entry) ex_source)
    (str "# A list" ++ [10]) [ex_entry]).
  - vm_compute. reflexivity.
  - vm_compute. reflexivity.
  - discriminate.
  - apply Forall_singleton. unfold entry_wf. split_and!.
    + eapply (ex_clean _ _ _ _ (str "serve")); vm_compute; reflexivity.
    + eapply (ex_clean _ _ _ _ (str "sdns://A")); vm_compute; reflexivity.
    + apply Forall_cons_2; [|apply Forall_singleton].
      * eapply (ex_clean _ _ _ _ (str "A resolve")); vm_compute; reflexivity.
      * eapply (ex_clean _ _ _ _ (str "No log")); vm_compute; reflexivity.
    + repeat constructor.
    + vm_compute. reflexivity.
    + vm_compute. discriminate.
    + vm_compute. reflexivity.
    + vm_compute. reflexivity.
Defined.
