(* ===== verification/Observability.v ===== *)
(** * Reports on the scheduler (src/dnscrypt-proxy/scheduler_observability.go)

    The report on the resolvers, at one reading of the clock, that the logs, the Prometheus export and the monitoring
    page share: one row per resolver, from the same snapshot as the scheduler's choices.
    The texts made of it, which need the formatting of floating-point numbers, are left
    out, apart from the escaping of labels.

    What is reported of a resolver is what the scheduler decides on, and labels are
    escaped so that they can be read back. *)

From S2P Require Import Prelude GoStrings GoFloat Common Metrics ServerTypes Mds MdsProps Servers ServersProps Url.

Record ResolverReportRow := {
  rr_Name : bytes; Warming : bool;
  rr_Samples : Z; rr_TotalSamples : Z;
  P50Ms : option float; P95Ms : option float; P99Ms : option float;
  rr_LatencyEwmaMs : float; rr_JitterEwmaMs : float;
  TimeoutRate : float; ErrorRate : float; ServfailRate : float; BogusRate : float; TruncatedRate : float;
  TCPFallbackRate : float; QUICFallbackRate : float; ConnNewRate : float; ECSRate : float;
  TimeoutCount : Z; ErrorCount : Z; ServfailCount : Z; BogusCount : Z; TruncatedCount : Z;
  TCPFallbackCount : Z; QUICFallbackCount : Z; ConnNewCount : Z; ConnReusedCount : Z; ECSCount : Z;
  rr_DNSSEC : bool; rr_NoLog : bool; rr_NoFilter : bool;
  rr_Primary : bool; CircuitOpen : bool; SwitchesTo : Z; rr_Score : float;
}.

Record SchedulerReport := {
  Strategy : bytes; sr_PrimaryName : bytes; sr_TotalSwitches : Z; sr_OpenCircuits : list bytes;
  Rows : list ResolverReportRow;
}.

Definition schedulerStrategyName (s : LBStrategy) : bytes :=
  match s with
  | LBStrategyWP2 => str "wp2"
  | LBMds _ => str "mds"
  | LBStrategyP2 => str "p2"
  | LBStrategyPH => str "ph"
  | LBStrategyFirst => str "first"
  | LBStrategyRandom => str "random"
  | LBStrategyPN _ => str "main.lbstrategypn"
  end.

Definition rate (w : MetricsWindow) (n : Z) : float :=
  if Samples w >? 0 then (float64 n / float64 (Samples w))%float else 0%float.

Definition percentile_ms (now : Time) (p : float) (m : ResolverMetrics) : ResolverMetrics * option float :=
  let '(m, d) := Percentile now p m in (m, (fun d => (float64 d / float64 Millisecond)%float) <$> d).

(** The strategy's view of a resolver: score, warming, primary, open circuit, switches. *)
Definition strategy_view (si : ServersInfo) (scored : list mdsScored) (i : nat) (server : ServerInfo)
    : float * bool * bool * bool * Z :=
  match lbStrategy si with
  | LBMds mds =>
      let stats := Stats mds in
      (match scored !! i with Some s => base s | None => 0%float end,
       match scored !! i with Some s => warming s | None => false end,
       bool_decide (PrimaryName stats = Name_ server),
       existsb (fun open => bool_decide (open = Name_ server)) (OpenCircuits stats),
       default 0 (SwitchesByName stats !! Name_ server))
  | LBStrategyWP2 => (calculateServerScore server, false, false, false, 0)
  | _ => (0%float, false, false, false, 0)
  end.

(** The row of a candidate.  The readings of its metrics move its window to the present. *)
Definition report_row (clk : nat -> Time) (si : ServersInfo) (warmup : Z) (scored : list mdsScored) (i : nat)
    (c : ResolverCandidate) : ResolverReportRow :=
  let '(m, w) := Snapshot (clk 0%nat) (Metrics_ c) in
  let warm := Warm warmup m in
  let '(m, p50) := percentile_ms (clk 1%nat) 0.50%float m in
  let '(m, p95) := percentile_ms (clk 2%nat) 0.95%float m in
  let '(m, p99) := percentile_ms (clk 3%nat) 0.99%float m in
  let '(score, warming, primary, open, switches) := strategy_view si scored i (Server c) in
  {| rr_Name := Name_ (Server c); Warming := warm || warming; rr_Samples := Samples w; rr_TotalSamples := TotalSamples_ w;
     P50Ms := p50; P95Ms := p95; P99Ms := p99; rr_LatencyEwmaMs := LatencyEwmaMs w; rr_JitterEwmaMs := JitterEwmaMs w;
     TimeoutRate := rate w (Timeout w); ErrorRate := rate w (Errors w); ServfailRate := rate w (Servfail w);
     BogusRate := rate w (DNSSECBogus w); TruncatedRate := rate w (w_Truncated w);
     TCPFallbackRate := rate w (TCPFallback w); QUICFallbackRate := rate w (QUICFallback w);
     ConnNewRate := rate w (ConnNew w); ECSRate := rate w (ECSReturned w);
     TimeoutCount := Timeout w; ErrorCount := Errors w; ServfailCount := Servfail w; BogusCount := DNSSECBogus w;
     TruncatedCount := w_Truncated w; TCPFallbackCount := TCPFallback w; QUICFallbackCount := QUICFallback w;
     ConnNewCount := ConnNew w; ConnReusedCount := ConnReused w; ECSCount := ECSReturned w;
     rr_DNSSEC := SupportsDNSSEC (Server c); rr_NoLog := SupportsNoLog (Server c);
     rr_NoFilter := SupportsNoFilter (Server c);
     rr_Primary := primary; CircuitOpen := open; SwitchesTo := switches; rr_Score := score |}.

(** [clk]: the readings of the clock for the scores; [rows i]: those for row [i]. *)
Definition buildSchedulerReportLocked (clk : nat -> Time) (rows : nat -> nat -> Time) (si : ServersInfo) : SchedulerReport :=
  let candidates := candidatesLocked si in
  let '(scored, warmup, stats) :=
    match lbStrategy si with
    | LBMds mds => ((scoreAll mds clk candidates).1, WarmupSamples (params mds), Stats mds)
    | _ => ([], WarmupSamples DefaultMDSParams,
            {| PrimaryName := []; TotalSwitches := 0; SwitchesByName := ∅; OpenCircuits := [] |})
    end in
  {| Strategy := schedulerStrategyName (lbStrategy si); sr_PrimaryName := PrimaryName stats;
     sr_TotalSwitches := TotalSwitches stats; sr_OpenCircuits := OpenCircuits stats;
     Rows := imap (fun i => report_row (rows i) si warmup scored i) candidates |}.

(** [promEscapeLabel]: three replacements, one after the other. *)
Definition replace_byte (c : Z) (by_ : bytes) (s : bytes) : bytes := s ≫= fun x => if x =? c then by_ else [x].
Definition promEscapeLabel (v : bytes) : bytes :=
  let v := replace_byte 92 [92; 92] v in
  let v := replace_byte 10 [92; 110] v in
  replace_byte 34 [92; 34] v.

(** ** Properties *)

Lemma report_row_lookup clk rows si i server : inner si !! i = Some server ->
  exists warmup scored c, Server c = server /\
    Metrics_ c = default (NewResolverMetricsWithWindow (metricsWindow_ si)) (metrics si !! Name_ server) /\
    Rows (buildSchedulerReportLocked clk rows si) !! i = Some (report_row (rows i) si warmup scored i c) /\
    (forall mds, lbStrategy si = LBMds mds -> scored = (scoreAll mds clk (candidatesLocked si)).1).
Proof.
  intros Hi. unfold buildSchedulerReportLocked.
  assert (exists c, candidatesLocked si !! i = Some c /\ Server c = server /\
    Metrics_ c = default (NewResolverMetricsWithWindow (metricsWindow_ si)) (metrics si !! Name_ server)) as (c & Hc & Hs & Hm).
  { unfold candidatesLocked. rewrite list_lookup_fmap, Hi. by eexists. }
  destruct (lbStrategy si) eqn:El; cbn [Rows]; rewrite list_lookup_imap, Hc; cbn;
    eexists _, _, c; (split_and!; [done|done|reflexivity|]); intros mds' [=]. congruence.
Qed.

Lemma open_circuits mds n : n ∈ OpenCircuits (Stats mds) <-> circuit_open mds n = true.
Proof.
  unfold Stats, circuit_open. cbn. rewrite list_elem_of_fmap. split.
  - intros ([n' cb] & -> & Hf). apply list_elem_of_filter in Hf as [Ho Hin]. apply elem_of_map_to_list in Hin.
    cbn in *. by rewrite Hin.
  - destruct (circuits mds !! n) as [cb|] eqn:E; [|done]. intros Ho. exists (n, cb). split; [done|].
    apply list_elem_of_filter. split; [done|]. by apply elem_of_map_to_list.
Qed.

Lemma report_row_view clk si warmup scored i c :
  let row := report_row clk si warmup scored i c in
  rr_Name row = Name_ (Server c) /\
  exists warm, strategy_view si scored i (Server c) = (rr_Score row, warm, rr_Primary row, CircuitOpen row, SwitchesTo row).
Proof.
  unfold report_row. destruct (Snapshot _ (Metrics_ c)) as [m w]. destruct (percentile_ms _ _ m) as [m1 p50].
  destruct (percentile_ms _ _ m1) as [m2 p95]. destruct (percentile_ms _ _ m2) as [m3 p99].
  destruct (strategy_view si scored i (Server c)) as [[[[score warm] prim] open] sw]. cbn. split; [done|by exists warm].
Qed.

(** The report shows what the scheduler acts on.  With the MDS strategy, the report has a row for every
    server, in their order, with the score and the state of the circuit that a choice at
    that time would use, and it marks exactly the primary. *)
Theorem report_agrees clk rows si mds i server :
  lbStrategy si = LBMds mds -> inner si !! i = Some server ->
  exists row s, Rows (buildSchedulerReportLocked clk rows si) !! i = Some row /\
    (scoreAll mds clk (candidatesLocked si)).1 !! i = Some s /\
    rr_Name row = Name_ server /\ name s = Name_ server /\ rr_Score row = base s /\
    CircuitOpen row = sc_open s /\ (rr_Primary row = true <-> primaryName mds = Name_ server) /\
    (Name_ server ∈ sr_OpenCircuits (buildSchedulerReportLocked clk rows si) <-> CircuitOpen row = true).
Proof.
  intros Hl Hi. destruct (report_row_lookup clk rows si i server Hi) as (warmup & scored & c & Hs & _ & Hr & Hsc).
  specialize (Hsc _ Hl). destruct (scoreAll_spec mds clk (candidatesLocked si)) as [Hf _].
  assert (exists c', candidatesLocked si !! i = Some c' /\ Server c' = server) as (c' & Hc' & Hs').
  { unfold candidatesLocked. rewrite list_lookup_fmap, Hi. by eexists. }
  destruct (Forall2_lookup_r _ _ _ _ _ Hf Hc') as (s & Hlook & Hname & Hopen). unfold cand_name in *. rewrite Hs' in *.
  destruct (report_row_view (rows i) si warmup scored i c) as [Hn [warm Hv]].
  revert Hr Hn Hv. generalize (report_row (rows i) si warmup scored i c) as row. intros row Hr Hn Hv. exists row, s.
  assert (sr_OpenCircuits (buildSchedulerReportLocked clk rows si) = OpenCircuits (Stats mds)) as ->
    by (unfold buildSchedulerReportLocked; by rewrite Hl).
  unfold strategy_view in Hv. rewrite Hl, Hsc, Hlook, Hs in Hv. injection Hv as Hscore _ Hprim Hcirc _.
  assert (CircuitOpen row = circuit_open mds (Name_ server)) as Hco.
  { rewrite <-Hcirc. apply eq_true_iff_eq. rewrite <-open_circuits, existsb_exists. split.
    - intros (x & Hx & Ex). bools. subst x. by apply list_elem_of_In.
    - intros Hin. exists (Name_ server). split; [by apply list_elem_of_In|by apply bool_decide_true]. }
  split_and!; try congruence.
  - by rewrite <-Hprim, bool_decide_eq_true.
  - by rewrite Hco, open_circuits.
Qed.

(** ** Labels *)

Definition escape_label_byte (x : Z) : bytes :=
  if x =? 92 then [92; 92] else if x =? 10 then [92; 110] else if x =? 34 then [92; 34] else [x].

(** The three replacements do the same as one pass over the label. *)
Lemma promEscapeLabel_once v : promEscapeLabel v = v ≫= escape_label_byte.
Proof.
  unfold promEscapeLabel, replace_byte.
  induction v as [|x v IH]; [done|]. cbn [mbind list_bind]. rewrite !bind_app. unfold escape_label_byte at 1.
  destruct (x =? 92) eqn:E1; bools; [subst; csimpl; by rewrite IH|].
  csimpl. destruct (x =? 10) eqn:E2; bools; [subst; csimpl; by rewrite IH|].
  csimpl. destruct (x =? 34) eqn:E3; csimpl; by rewrite IH.
Qed.

(** Reads a label back as Prometheus does. *)
Fixpoint unescape_label (s : bytes) : bytes :=
  match s with
  | [] => []
  | c :: s' =>
      if c =? 92 then
        match s' with
        | d :: s'' => (if d =? 110 then 10 else d) :: unescape_label s''
        | [] => [c]
        end
      else c :: unescape_label s'
  end.

Lemma label_escaped v : unescape_label (promEscapeLabel v) = v /\ 10 ∉ promEscapeLabel v.
Proof.
  rewrite promEscapeLabel_once. induction v as [|x v [IH1 IH2]]; [split; [done|apply not_elem_of_nil]|].
  cbn [mbind list_bind]. unfold escape_label_byte at 1 3.
  destruct (x =? 92) eqn:E1; bools; [subst; cbn; rewrite IH1, !not_elem_of_cons; by split_and!|].
  destruct (x =? 10) eqn:E2; bools; [subst; cbn; rewrite IH1, !not_elem_of_cons; by split_and!|].
  destruct (x =? 34) eqn:E3; bools; [subst; cbn; rewrite IH1, !not_elem_of_cons; by split_and!|].
  cbn. rewrite (proj2 (Z.eqb_neq x 92)), IH1, not_elem_of_cons by done. by split_and!.
Qed.

(** Labels.  An escaped label reads back as the label, and has no line end and no quote that is
    not escaped, whatever the name of a server is. *)
Theorem label_roundtrip v : unescape_label (promEscapeLabel v) = v /\ 10 ∉ promEscapeLabel v.
Proof. apply label_escaped. Qed.

(** ** Example *)

Lemma report_agrees_witness :
  exists row, Rows (buildSchedulerReportLocked (fun _ => Second) (fun _ _ => Second) (sample_servers (LBMds sample_tripped))) !! 0%nat = Some row /\
    CircuitOpen row = true.
Proof.
  destruct (inner (sample_servers (LBMds sample_tripped)) !! 0%nat) as [server|] eqn:Ei; [|vm_compute in Ei; discriminate Ei].
  destruct (report_agrees (fun _ => Second) (fun _ _ => Second) (sample_servers (LBMds sample_tripped)) sample_tripped 0 server eq_refl Ei)
    as (row & s & H1 & H2 & _ & _ & _ & H6 & _).
  exists row. split; [exact H1|]. rewrite H6. vm_compute in H2. injection H2 as <-. reflexivity.
Defined.
