(* ===== verification/Monitoring.v ===== *)
(** * The monitoring page (src/dnscrypt-proxy/monitoring_ui.go)

    The counters and the log of recent queries, which [UpdateMetrics] updates in one
    critical section after the other, and what [GetMetrics] shows of them.  The requests
    for the page are in [MonitoringUI].  The description that [GetMetrics] returns, a map
    that is encoded as JSON, is the record [MetricsPage]. *)

From stdpp Require Import sorting.
From S2P Require Import Prelude GoStrings GoFloat NetIP Common Crypto Dns Metrics ServerTypes Mds Servers Plugins RuleLog Url.
From S2P Require Import Clients XTransport Sources Observability.

Definition maxTopDomains : nat := 1000.

Record QueryLogEntry := {
  le_Timestamp : Time; le_ClientIP : bytes; le_Domain : bytes; le_Type : bytes; le_ResponseCode : bytes;
  le_ResponseTime : Z; le_Server : bytes; le_CacheHit : bool;
}.

Definition EstimateMemoryUsage (q : QueryLogEntry) : Z :=
  88 + len (le_ClientIP q) + len (le_Domain q) + len (le_Type q) + len (le_ResponseCode q) + len (le_Server q).

(** ** What is shown *)

Record resolverSnapshot := {
  sn_name : bytes; sn_proto : bytes; sn_total : Z; sn_failed : Z; sn_success : float; avgObservedMs : float;
  sn_lastUpdate : Time; sn_lastAction : Time; sn_status : bytes; sn_score : float; sn_ageSeconds : float;
  sn_report : option ResolverReportRow;
}.

Definition set_avg (v : float) (s : resolverSnapshot) : resolverSnapshot :=
  {| sn_name := sn_name s; sn_proto := sn_proto s; sn_total := sn_total s; sn_failed := sn_failed s;
     sn_success := sn_success s; avgObservedMs := v; sn_lastUpdate := sn_lastUpdate s; sn_lastAction := sn_lastAction s;
     sn_status := sn_status s; sn_score := sn_score s; sn_ageSeconds := sn_ageSeconds s; sn_report := sn_report s |}.

(** An entry of "resolver_health"; the keys that are left out are [None]. *)
Record ResolverHealth := {
  rh_name : bytes; rh_proto : bytes; rh_status : bytes; rh_success_rate : float; rh_total_queries : Z;
  rh_failed_queries : Z; rh_score : float; rh_avg_response_ms : option float; rh_age_seconds : option float;
  rh_last_update : option Time; rh_last_action : option Time; rh_report : option ResolverReportRow;
}.

Record SourceRefresh := {
  sf_name : bytes; sf_cache_file : bytes; sf_age_seconds : float; sf_status : bytes;
  sf_last_refresh : option Time; sf_next_refresh : option Time; sf_error : option bytes;
}.

Record CacheStats := {
  cs_enabled : bool; cs_configured_size : Z; cs_entries : Z; cs_capacity : Z; cs_hit_ratio : float; cs_hits : Z; cs_misses : Z;
  cs_max_ttl : Z; cs_min_ttl : Z; cs_neg_max_ttl : Z; cs_neg_min_ttl : Z;
}.

Record MetricsPage := {
  pg_total_queries : Z; pg_queries_per_second : float; pg_uptime_seconds : float; pg_cache_hit_ratio : float;
  pg_cache_hits : Z; pg_cache_misses : Z; pg_avg_response_time : float; pg_blocked_queries : Z;
  pg_top_domains : list (bytes * Z); pg_query_types : list (bytes * Z); pg_recent_queries : list QueryLogEntry;
  pg_cache_stats : CacheStats; pg_resolver_health : list ResolverHealth;
  pg_strategy : bytes; pg_primary : bytes; pg_switches_total : Z; pg_open_circuits : list bytes;
  pg_sources : list SourceRefresh; pg_generated_at : Time;
}.

(** ** The collector *)

(** The parts of the collector, each under its own lock. *)
Record Counters := {
  mc_totalQueries : Z; queriesPerSecond : float; lastQueriesCount : Z; lastQueriesTime : Time;
  cacheHits : Z; cacheMisses : Z; blockCount : Z; responseTimeSum : Z; responseTimeCount : Z;
}.
Record ServerTimes := { serverResponseTime : gmap bytes Z; serverQueryCount : gmap bytes Z }.
Record QueryLog := { recentQueries : list QueryLogEntry; currentMemoryBytes : Z }.
(** The last description, [None] for the empty map there is at first. *)
Record PageCache := { cachedMetrics : option MetricsPage; cacheLastUpdate : Time }.

(** What does not change. *)
Record CollectorConfig := {
  startTime : Time; maxRecentQueries : Z; maxMemoryBytes : Z; privacyLevel : Z; prometheusEnabled : bool;
}.

Record MetricsCollector := {
  cc : CollectorConfig;
  counters : Counters;
  server_times : ServerTimes;
  topDomains : gmap bytes Z;
  query_log : QueryLog;
  queryTypes : gmap bytes Z;
  page_cache : PageCache;
}.

Definition set_counters (v : Counters) (mc : MetricsCollector) : MetricsCollector :=
  {| cc := cc mc; counters := v; server_times := server_times mc; topDomains := topDomains mc;
     query_log := query_log mc; queryTypes := queryTypes mc; page_cache := page_cache mc |}.
Definition set_server_times (v : ServerTimes) (mc : MetricsCollector) : MetricsCollector :=
  {| cc := cc mc; counters := counters mc; server_times := v; topDomains := topDomains mc;
     query_log := query_log mc; queryTypes := queryTypes mc; page_cache := page_cache mc |}.
Definition set_topDomains (v : gmap bytes Z) (mc : MetricsCollector) : MetricsCollector :=
  {| cc := cc mc; counters := counters mc; server_times := server_times mc; topDomains := v;
     query_log := query_log mc; queryTypes := queryTypes mc; page_cache := page_cache mc |}.
Definition set_query_log (v : QueryLog) (mc : MetricsCollector) : MetricsCollector :=
  {| cc := cc mc; counters := counters mc; server_times := server_times mc; topDomains := topDomains mc;
     query_log := v; queryTypes := queryTypes mc; page_cache := page_cache mc |}.
Definition set_queryTypes (v : gmap bytes Z) (mc : MetricsCollector) : MetricsCollector :=
  {| cc := cc mc; counters := counters mc; server_times := server_times mc; topDomains := topDomains mc;
     query_log := query_log mc; queryTypes := v; page_cache := page_cache mc |}.
Definition set_page_cache (v : PageCache) (mc : MetricsCollector) : MetricsCollector :=
  {| cc := cc mc; counters := counters mc; server_times := server_times mc; topDomains := topDomains mc;
     query_log := query_log mc; queryTypes := queryTypes mc; page_cache := v |}.

(** The collector that [NewMonitoringUI] makes. *)
Definition NewMetricsCollector (now : Time) (maxQueryLogEntries maxMemoryMB privacy : Z) (prometheus : bool) : MetricsCollector :=
  {| cc := {| startTime := now; maxRecentQueries := if maxQueryLogEntries <=? 0 then 100 else maxQueryLogEntries;
              maxMemoryBytes := int64 ((if maxMemoryMB <=? 0 then 1 else maxMemoryMB) * 1024 * 1024);
              privacyLevel := privacy; prometheusEnabled := prometheus |};
     counters := {| mc_totalQueries := 0; queriesPerSecond := 0; lastQueriesCount := 0; lastQueriesTime := zero_time;
                    cacheHits := 0; cacheMisses := 0; blockCount := 0; responseTimeSum := 0; responseTimeCount := 0 |};
     server_times := {| serverResponseTime := ∅; serverQueryCount := ∅ |}; topDomains := ∅;
     query_log := {| recentQueries := []; currentMemoryBytes := 0 |}; queryTypes := ∅;
     page_cache := {| cachedMetrics := None; cacheLastUpdate := zero_time |} |}.

Definition invalidateCache (mc : MetricsCollector) : MetricsCollector :=
  set_page_cache {| cachedMetrics := cachedMetrics (page_cache mc); cacheLastUpdate := zero_time |} mc.

Definition incr (k : bytes) (n : Z) (m : gmap bytes Z) : gmap bytes Z := <[k := uint64 (default 0 (m !! k) + n)]> m.

(** [Duration.Seconds]. *)
Definition Seconds (d : Duration) : float :=
  (float64 (go_div d Second) + float64 (go_mod d Second) / float64 Second)%float.

(** ** One query *)

(** The counters. *)
Definition update_counters (now : Time) (ps : PluginsState) (c : Counters) : Counters :=
  let total := uint64 (mc_totalQueries c + 1) in
  let elapsed := Seconds (time_sub now (lastQueriesTime c)) in
  let '(qps, lastCount, lastTime) :=
    if (1 <=? elapsed)%float || IsZero (lastQueriesTime c) then
      if IsZero (lastQueriesTime c) then (0%float, 0, now)
      else ((float64 (uint64 (total - lastQueriesCount c)) / elapsed)%float, total, now)
    else (queriesPerSecond c, lastQueriesCount c, lastQueriesTime c) in
  let shouldCountCacheStats := cacheHit ps || negb (bool_decide (serverName ps = str "-")) in
  let blocked := bool_decide (returnCode ps = PluginsReturnCodeReject) || bool_decide (returnCode ps = PluginsReturnCodeDrop) in
  {| mc_totalQueries := total; queriesPerSecond := qps; lastQueriesCount := lastCount; lastQueriesTime := lastTime;
     cacheHits := if shouldCountCacheStats && cacheHit ps then uint64 (cacheHits c + 1) else cacheHits c;
     cacheMisses := if shouldCountCacheStats && negb (cacheHit ps) then uint64 (cacheMisses c + 1) else cacheMisses c;
     blockCount := if blocked then uint64 (blockCount c + 1) else blockCount c;
     responseTimeSum := responseTimeSum c; responseTimeCount := responseTimeCount c |}.

(** [dns.TypeToString]. *)
Definition type_name (typeName : Z -> option bytes) (t : Z) : bytes := default (fmt_d t) (typeName t).

Definition update_types (typeName : Z -> option bytes) (msg : option Msg) (m : gmap bytes Z) : gmap bytes Z :=
  match msg with
  | Some msg =>
      match Questions msg with
      | q :: _ => incr (type_name typeName (q_Type q)) 1 m
      | [] => m
      end
  | None => m
  end.

(** The response time in milliseconds, at most the timeout. *)
Definition response_time (t : Time) (ps : PluginsState) : Z :=
  Min (go_div (time_sub t (requestStart ps)) Millisecond) (go_div (ps_timeout ps) Millisecond).

Definition update_response (responseTime : Z) (c : Counters) : Counters :=
  {| mc_totalQueries := mc_totalQueries c; queriesPerSecond := queriesPerSecond c; lastQueriesCount := lastQueriesCount c;
     lastQueriesTime := lastQueriesTime c; cacheHits := cacheHits c; cacheMisses := cacheMisses c;
     blockCount := blockCount c; responseTimeSum := uint64 (responseTimeSum c + uint64 responseTime);
     responseTimeCount := uint64 (responseTimeCount c + 1) |}.

Definition update_server_times (responseTime : Z) (ps : PluginsState) (s : ServerTimes) : ServerTimes :=
  if bool_decide (serverName ps = []) || bool_decide (serverName ps = str "-") then s
  else {| serverResponseTime := incr (serverName ps) (uint64 responseTime) (serverResponseTime s);
          serverQueryCount := incr (serverName ps) 1 (serverQueryCount s) |}.

(** ** The most frequent names *)

(** The order of [sort.Slice]: decreasing counts, then names. *)
Definition count_before (a b : bytes * Z) : Prop := b.2 < a.2 \/ (a.2 = b.2 /\ str_ltb b.1 a.1 = false).

#[global] Instance count_before_dec a b : Decision (count_before a b).
Proof. unfold count_before. apply _. Defined.

Definition sorted_counts (m : gmap bytes Z) : list (bytes * Z) := merge_sort count_before (map_to_list m).

Definition pruneTopDomainsLocked (m : gmap bytes Z) : gmap bytes Z :=
  foldl (fun m dc => delete dc.1 m) m (drop (maxTopDomains / 2) (sorted_counts m)).

Definition update_domains (ps : PluginsState) (m : gmap bytes Z) : gmap bytes Z :=
  let m := if bool_decide (m !! qName ps = None) && (maxTopDomains <=? size m)%nat then pruneTopDomainsLocked m else m in
  incr (qName ps) 1 m.

(** ** The log of recent queries *)

(** [html.EscapeString]. *)
Definition EscapeString (s : bytes) : bytes :=
  s ≫= fun c => if c =? 38 then str "&amp;" else if c =? 39 then str "&#39;" else if c =? 60 then str "&lt;"
                else if c =? 62 then str "&gt;" else if c =? 34 then str "&#34;" else [c].

Definition log_client (privacy : Z) (ps : PluginsState) : bytes :=
  if privacy >=? 1 then str "anonymized"
  else match clientAddr ps with
  | Some addr =>
      match clientProto ps with
      | client_udp | client_tcp | client_local_doh => ip_String addr
      | client_trampoline => str "internal"
      end
  | None => str "no-client-addr"
  end.

Definition log_entry (typeName : Z -> option bytes) (now : Time) (privacy responseTime : Z) (ps : PluginsState)
    (msg : option Msg) : QueryLogEntry :=
  {| le_Timestamp := now; le_ClientIP := log_client privacy ps; le_Domain := EscapeString (qName ps);
     le_Type := match msg with
                | Some msg => match Questions msg with q :: _ => type_name typeName (q_Type q) | [] => str "unknown" end
                | None => str "unknown"
                end;
     le_ResponseCode := PluginsReturnCodeToString (returnCode ps); le_ResponseTime := responseTime;
     le_Server := EscapeString (serverName ps); le_CacheHit := cacheHit ps |}.

(** The oldest entries are dropped until the new one fits. *)
Fixpoint make_room (limit entrySize : Z) (l : list QueryLogEntry) (current : Z) : list QueryLogEntry * Z :=
  if current + entrySize >? limit then
    match l with
    | [] => (l, current)
    | old :: l' => make_room limit entrySize l' (current - EstimateMemoryUsage old)
    end
  else (l, current).

Definition add_entry (maxEntries limit : Z) (entry : QueryLogEntry) (q : QueryLog) : QueryLog :=
  let entrySize := EstimateMemoryUsage entry in
  let '(l, current) := make_room limit entrySize (recentQueries q) (currentMemoryBytes q) in
  let l := l ++ [entry] in
  let current := current + entrySize in
  match l with
  | old :: l' =>
      if len l >? maxEntries then {| recentQueries := l'; currentMemoryBytes := current - EstimateMemoryUsage old |}
      else {| recentQueries := l; currentMemoryBytes := current |}
  | [] => {| recentQueries := l; currentMemoryBytes := current |}
  end.

(** ** Updates *)

(** The critical sections of [UpdateMetrics] for one query: [now] and [later] are the two
    readings of the clock. *)
Inductive section := SCounters | SInvalidate | STypes | SResponse | SServer | SDomains | SLog.

Section update.
Context (typeName : Z -> option bytes) (enableQueryLog : bool).

Definition update_section (now later : Time) (ps : PluginsState) (msg : option Msg) (s : section) (mc : MetricsCollector)
    : MetricsCollector :=
  match s with
  | SCounters => set_counters (update_counters now ps (counters mc)) mc
  | SInvalidate => invalidateCache mc
  | STypes => set_queryTypes (update_types typeName msg (queryTypes mc)) mc
  | SResponse => set_counters (update_response (response_time later ps) (counters mc)) mc
  | SServer => set_server_times (update_server_times (response_time later ps) ps (server_times mc)) mc
  | SDomains =>
      if privacyLevel (cc mc) <? 2 then set_topDomains (update_domains ps (topDomains mc)) mc else mc
  | SLog =>
      if enableQueryLog && (privacyLevel (cc mc) <? 2) then
        set_query_log (add_entry (maxRecentQueries (cc mc)) (maxMemoryBytes (cc mc))
          (log_entry typeName now (privacyLevel (cc mc)) (response_time later ps) ps msg) (query_log mc)) mc
      else mc
  end.

Definition UpdateMetrics (now later : Time) (ps : PluginsState) (msg : option Msg) (mc : MetricsCollector)
    : MetricsCollector :=
  foldl (fun mc s => update_section now later ps msg s mc) mc [SCounters; SInvalidate; STypes; SResponse; SServer; SDomains; SLog].
End update.

(** ** The state of the resolvers *)

Definition determineResolverStatus (total : Z) (successRate : float) (lastUpdate lastAction now : Time) : bytes :=
  let staleThreshold := 5 * Minute in
  let refTime := if IsZero lastUpdate then lastAction else lastUpdate in
  if total =? 0 then
    if IsZero refTime then str "idle"
    else if time_sub now refTime >? staleThreshold then str "stale"
    else str "warming"
  else if negb (IsZero refTime) && (time_sub now refTime >? staleThreshold) then str "stale"
  else if (0.97 <=? successRate)%float then str "healthy"
  else if (0.9 <=? successRate)%float then str "degraded"
  else str "failing".

Definition resolverStatusRank (status : bytes) : Z :=
  if bool_decide (status = str "failing") then 0
  else if bool_decide (status = str "degraded") then 1
  else if bool_decide (status = str "stale") then 2
  else if bool_decide (status = str "warming") then 3
  else if bool_decide (status = str "healthy") then 4
  else if bool_decide (status = str "idle") then 5
  else 6.

(** The [less] of the sort. *)
Definition snapshot_less (a b : resolverSnapshot) : bool :=
  let rankI := resolverStatusRank (sn_status a) in
  let rankJ := resolverStatusRank (sn_status b) in
  if negb (rankI =? rankJ) then rankI <? rankJ
  else if negb (sn_score a =? sn_score b)%float then (sn_score b <? sn_score a)%float
  else str_ltb (sn_name a) (sn_name b).

Definition snapshot_before (a b : resolverSnapshot) : Prop := snapshot_less b a = false.
#[global] Instance snapshot_before_dec a b : Decision (snapshot_before a b).
Proof. unfold snapshot_before. apply _. Defined.

(** What the page needs of the rest of the proxy. *)
Record ProxyView := {
  pv_serversInfo : ServersInfo;
  pv_cache : bool; pv_cacheSize : Z; pv_cacheMaxTTL : Z; pv_cacheMinTTL : Z; pv_cacheNegMaxTTL : Z; pv_cacheNegMinTTL : Z;
  (** The entries and the capacity of the cache, when there is one. *)
  pv_cachedResponses : option (Z * Z);
  pv_sources : list Source;
  (** [os.Stat]: the modification time, or the text of the error. *)
  pv_Stat : bytes -> result bytes Time;
}.

Section page.
(** The names of the stamp protocols, of the dnsstamps package. *)
Context (proto_String : Z -> bytes).

Definition resolver_snapshot (now : Time) (reportByName : gmap bytes ResolverReportRow) (server : ServerInfo) : resolverSnapshot :=
  let total := totalQueries server in
  let failed := failedQueries server in
  let successRate := if total >? 0 then (float64 (uint64 (total - failed)) / float64 total)%float else 1%float in
  let refTime := if IsZero (lastUpdateTime server) then lastActionTS server else lastUpdateTime server in
  {| sn_name := Name_ server; sn_proto := proto_String (Proto server); sn_total := total; sn_failed := failed;
     sn_success := successRate; avgObservedMs := 0; sn_lastUpdate := lastUpdateTime server;
     sn_lastAction := lastActionTS server;
     sn_status := determineResolverStatus total successRate (lastUpdateTime server) (lastActionTS server) now;
     sn_score := calculateServerScore server;
     sn_ageSeconds := if IsZero refTime then (-1)%float else Seconds (time_sub now refTime);
     sn_report := reportByName !! Name_ server |}.

(** [now] stands for the readings of the clock during the collection, which holds the lock. *)
Definition collectResolverSnapshots (now : Time) (si : ServersInfo)
    : list resolverSnapshot * gmap bytes resolverSnapshot * SchedulerReport :=
  let report := buildSchedulerReportLocked (fun _ => now) (fun _ _ => now) si in
  let reportByName := foldl (fun m r => <[rr_Name r := r]> m) ∅ (Rows report) in
  let snapshots := resolver_snapshot now reportByName <$> inner si in
  (merge_sort snapshot_before snapshots, foldl (fun m s => <[sn_name s := s]> m) ∅ snapshots, report).

Definition collectCacheStats (pv : ProxyView) (ratio : float) (hits misses : Z) : CacheStats :=
  {| cs_enabled := pv_cache pv; cs_configured_size := pv_cacheSize pv;
     cs_entries := match pv_cachedResponses pv with Some (n, _) => n | None => 0 end;
     cs_capacity := match pv_cachedResponses pv with Some (_, n) => n | None => 0 end;
     cs_hit_ratio := ratio; cs_hits := hits; cs_misses := misses; cs_max_ttl := pv_cacheMaxTTL pv;
     cs_min_ttl := pv_cacheMinTTL pv; cs_neg_max_ttl := pv_cacheNegMaxTTL pv; cs_neg_min_ttl := pv_cacheNegMinTTL pv |}.

Definition source_refresh (stat : bytes -> result bytes Time) (now : Time) (source : Source) : SourceRefresh :=
  let '(lastRefresh, errorMessage) :=
    if bool_decide (cacheFile source = []) then (zero_time, [])
    else match stat (cacheFile source) with Ok t => (t, []) | Err e => (zero_time, e) end in
  let nextRefresh := refresh source in
  {| sf_name := src_name source; sf_cache_file := cacheFile source;
     sf_age_seconds := if IsZero lastRefresh then (-1)%float else Seconds (time_sub now lastRefresh);
     sf_status :=
       if negb (bool_decide (errorMessage = [])) then str "error"
       else if IsZero lastRefresh then str "unknown"
       else if negb (IsZero nextRefresh) && (nextRefresh <? now) then str "due"
       else if (cacheTTL source >? 0) && (lastRefresh + cacheTTL source <? now) then str "stale"
       else str "ok";
     sf_last_refresh := if IsZero lastRefresh then None else Some lastRefresh;
     sf_next_refresh := if IsZero nextRefresh then None else Some nextRefresh;
     sf_error := if bool_decide (errorMessage = []) then None else Some errorMessage |}.

Definition source_before (a b : SourceRefresh) : Prop := str_ltb (sf_name b) (sf_name a) = false.
#[global] Instance source_before_dec a b : Decision (source_before a b).
Proof. unfold source_before. apply _. Defined.

Definition collectSourceRefresh (now : Time) (pv : ProxyView) : list SourceRefresh :=
  merge_sort source_before (source_refresh (pv_Stat pv) now <$> pv_sources pv).

(** ** The description *)

Definition averaged (sum count : Z) : float := if count >? 0 then (float64 sum / float64 count)%float else 0%float.

(** The observed averages are written to the index, and the snapshots are taken from it. *)
Definition observed_averages (st : ServerTimes) (index : gmap bytes resolverSnapshot) : gmap bytes resolverSnapshot :=
  foldl (fun index '(server, count) =>
           match index !! server with
           | Some snapshot => <[server := set_avg (averaged (default 0 (serverResponseTime st !! server)) count) snapshot]> index
           | None => index
           end) index (map_to_list (serverQueryCount st)).

Definition health_entry (s : resolverSnapshot) : ResolverHealth :=
  {| rh_name := sn_name s; rh_proto := sn_proto s; rh_status := sn_status s; rh_success_rate := sn_success s;
     rh_total_queries := sn_total s; rh_failed_queries := sn_failed s; rh_score := sn_score s;
     rh_avg_response_ms := if (0 <? avgObservedMs s)%float then Some (avgObservedMs s) else None;
     rh_age_seconds := if (0 <=? sn_ageSeconds s)%float then Some (sn_ageSeconds s) else None;
     rh_last_update := if IsZero (sn_lastUpdate s) then None else Some (sn_lastUpdate s);
     rh_last_action := if IsZero (sn_lastAction s) then None else Some (sn_lastAction s);
     rh_report := sn_report s |}.

Definition top_domains (mc : MetricsCollector) : list (bytes * Z) :=
  if privacyLevel (cc mc) <? 2 then (fun dc => (EscapeString dc.1, dc.2)) <$> take 20 (sorted_counts (topDomains mc)) else [].

Definition compute_metrics (now : Time) (pv : ProxyView) (mc : MetricsCollector) : MetricsPage :=
  let c := counters mc in
  let totalCacheQueries := uint64 (cacheHits c + cacheMisses c) in
  let cacheHitRatio := averaged (cacheHits c) totalCacheQueries in
  let '(resolverSnapshots, resolverIndex, schedulerReport) := collectResolverSnapshots now (pv_serversInfo pv) in
  let resolverIndex := observed_averages (server_times mc) resolverIndex in
  let resolverSnapshots := (fun s => default s (resolverIndex !! sn_name s)) <$> resolverSnapshots in
  {| pg_total_queries := mc_totalQueries c; pg_queries_per_second := queriesPerSecond c;
     pg_uptime_seconds := Seconds (time_sub now (startTime (cc mc))); pg_cache_hit_ratio := cacheHitRatio;
     pg_cache_hits := cacheHits c; pg_cache_misses := cacheMisses c;
     pg_avg_response_time := averaged (responseTimeSum c) (responseTimeCount c); pg_blocked_queries := blockCount c;
     pg_top_domains := top_domains mc; pg_query_types := take 10 (sorted_counts (queryTypes mc));
     pg_recent_queries := recentQueries (query_log mc);
     pg_cache_stats := collectCacheStats pv cacheHitRatio (cacheHits c) (cacheMisses c);
     pg_resolver_health := health_entry <$> resolverSnapshots;
     pg_strategy := Strategy schedulerReport; pg_primary := sr_PrimaryName schedulerReport;
     pg_switches_total := sr_TotalSwitches schedulerReport; pg_open_circuits := sr_OpenCircuits schedulerReport;
     pg_sources := collectSourceRefresh now pv; pg_generated_at := now |}.

(** [asked] is the time of the request and [now] the time at which the description is
    made; the empty map there is at first is returned only if the clock is at the
    beginning of time. *)
Definition GetMetrics (asked now : Time) (pv : ProxyView) (mc : MetricsCollector) : option MetricsPage * MetricsCollector :=
  if time_sub asked (cacheLastUpdate (page_cache mc)) <? Second then (cachedMetrics (page_cache mc), mc)
  else
    let metrics := compute_metrics now pv mc in
    (Some metrics, set_page_cache {| cachedMetrics := Some metrics; cacheLastUpdate := now |} mc).
End page.
