(* ===== verification/Prometheus.v ===== *)
(** * Metrics as text (src/dnscrypt-proxy/scheduler_observability.go, monitoring_ui.go)

    The lines on the scheduler in the log, and the Prometheus exposition.  An exposition
    is a list of lines; [expose] is their text. *)

From stdpp Require Import sorting.
From S2P Require Import Prelude GoStrings GoFloat NetIP Common Crypto Dns Metrics ServerTypes Mds Servers Plugins RuleLog Url.
From S2P Require Import Clients XTransport Sources Observability Monitoring.

(** ** Decimal numbers *)

(** The decimal digits of a number of any size. *)
Definition decimal (n : Z) : bytes := itoa_fuel (Z.to_nat (Z.log2 n + 2)) n [].

Definition zero_padded (width : nat) (n : Z) : bytes := replicate (width - length (decimal n)) 48 ++ decimal n.

(** [m * 2^e * 10^digits], rounded to nearest, ties to even. *)
Definition scaled (digits m e : Z) : Z :=
  if 0 <=? e then m * 2 ^ e * 10 ^ digits
  else
    let d := 2 ^ (- e) in
    let q := m * 10 ^ digits / d in
    let r := m * 10 ^ digits mod d in
    if (d <? 2 * r) || ((2 * r =? d) && Z.odd q) then q + 1 else q.

Definition fixed_point (digits : nat) (n : Z) : bytes :=
  match digits with
  | O => decimal n
  | _ => decimal (n / 10 ^ Z.of_nat digits) ++ str "." ++ zero_padded digits (n mod 10 ^ Z.of_nat digits)
  end.

(** [fmt.Sprintf("%.<digits>f", x)]. *)
Definition fmt_f (digits : nat) (x : float) : bytes :=
  match Prim2SF x with
  | S754_nan => str "NaN"
  | S754_infinity s => if s then str "-Inf" else str "+Inf"
  | S754_zero s => (if s then str "-" else []) ++ fixed_point digits 0
  | S754_finite s m e => (if s then str "-" else []) ++ fixed_point digits (scaled (Z.of_nat digits) (Z.pos m) e)
  end.

Definition pct (x : float) : bytes := fmt_f 1 (x * 100)%float ++ str "%".
Definition msOrDash (ms : option float) : bytes := match ms with None => str "-" | Some ms => fmt_f 1 ms ++ str "ms" end.

Definition joined (sep : bytes) (l : list bytes) : bytes :=
  match l with
  | [] => []
  | s :: l' => s ++ (l' ≫= fun s => sep ++ s)
  end.

(** ** The lines of the log *)

Definition mds_line (i : nat) (r : ResolverReportRow) : bytes :=
  let props := (if rr_DNSSEC r then [str "dnssec"] else []) ++ (if rr_NoLog r then [str "nolog"] else [])
               ++ (if rr_NoFilter r then [str "nofilter"] else []) in
  str "[" ++ itoa (Z.of_nat i) ++ str "]" ++ (if rr_Primary r then str "*" else []) ++ str " " ++ rr_Name r
  ++ (if CircuitOpen r then str " open" else if Warming r then str " warming" else [])
  ++ str ": samples=" ++ fmt_d (rr_Samples r) ++ str "/" ++ fmt_d (rr_TotalSamples r)
  ++ str " p50=" ++ msOrDash (P50Ms r) ++ str " p95=" ++ msOrDash (P95Ms r) ++ str " p99=" ++ msOrDash (P99Ms r)
  ++ str " ewma=" ++ fmt_f 1 (rr_LatencyEwmaMs r) ++ str "ms jitter=" ++ fmt_f 1 (rr_JitterEwmaMs r) ++ str "ms "
  ++ str "timeout=" ++ pct (TimeoutRate r) ++ str " errors=" ++ pct (ErrorRate r)
  ++ str " servfail=" ++ pct (ServfailRate r) ++ str " bogus=" ++ pct (BogusRate r)
  ++ str " trunc=" ++ pct (TruncatedRate r) ++ str " tcpfb=" ++ pct (TCPFallbackRate r)
  ++ str " quicfb=" ++ pct (QUICFallbackRate r) ++ str " connnew=" ++ pct (ConnNewRate r)
  ++ str " ecs=" ++ pct (ECSRate r) ++ str " " ++ str "props=[" ++ joined (str ",") props
  ++ str "] score=" ++ fmt_f 3 (rr_Score r) ++ str " switches=" ++ fmt_d (SwitchesTo r).

Definition renderMDSReport (report : SchedulerReport) : list bytes :=
  (str "MDS Strategy Server Statistics: primary=[" ++ sr_PrimaryName report ++ str "] switches="
   ++ fmt_d (sr_TotalSwitches report) ++ str " open=[" ++ joined (str " ") (sr_OpenCircuits report) ++ str "]")
  :: imap mds_line (Rows report).

Definition wp2_line (i : nat) (server : ServerInfo) : bytes :=
  let total := totalQueries server in
  let successRate :=
    if total >? 0 then (float64 (uint64 (total - failedQueries server)) / float64 total)%float else 1%float in
  str "[" ++ itoa (Z.of_nat i) ++ str "] " ++ Name_ server ++ str ": RTT=" ++ fmt_d (int_of_float (ewma.Value (rtt server)))
  ++ str "ms, Score=" ++ fmt_f 3 (calculateServerScore server) ++ str ", Success=" ++ fmt_f 2 (successRate * 100)%float
  ++ str "%, Queries=" ++ fmt_d total.

Definition renderWP2StatsLocked (si : ServersInfo) : list bytes :=
  str "WP2 Strategy Server Statistics:" :: imap wp2_line (inner si).

(** The lines that are logged; [now] stands for the readings of the clock. *)
Definition logSchedulerStats (now : Time) (si : ServersInfo) : list bytes :=
  match lbStrategy si with
  | LBStrategyWP2 => renderWP2StatsLocked si
  | LBMds _ => renderMDSReport (buildSchedulerReportLocked (fun _ => now) (fun _ _ => now) si)
  | _ => []
  end.

(** ** The exposition *)

(** [Sample name labels value]: the labels are written with a comma between them, and the
    values of labels as they are. *)
Inductive prom_line :=
  | Help (name text : bytes)
  | Type_ (name typ : bytes)
  | Sample (name : bytes) (labels : list (bytes * bytes)) (v : bytes).

Definition label_text (l : bytes * bytes) : bytes := l.1 ++ [61; 34] ++ l.2 ++ [34].

Definition line_text (l : prom_line) : bytes :=
  match l with
  | Help name text => str "# HELP " ++ name ++ str " " ++ text
  | Type_ name typ => str "# TYPE " ++ name ++ str " " ++ typ
  | Sample name [] v => name ++ str " " ++ v
  | Sample name labels v => name ++ str "{" ++ joined (str ",") (label_text <$> labels) ++ str "} " ++ v
  end.

Definition expose (ls : list prom_line) : bytes := ls ≫= fun l => line_text l ++ [10].

Definition promWriteHeader (name typ help : bytes) : list prom_line := [Help name help; Type_ name typ].

Definition boolGauge (b : bool) : bytes := if b then str "1" else str "0".
Definition fmt_t (b : bool) : bytes := if b then str "true" else str "false".

Definition scheduler_headers : list prom_line :=
  promWriteHeader (str "dnscrypt_proxy_resolver_latency_ms") (str "gauge")
    (str "Observed resolver latency quantiles in milliseconds") ++
  promWriteHeader (str "dnscrypt_proxy_resolver_latency_ewma_ms") (str "gauge")
    (str "EWMA of resolver latency in milliseconds") ++
  promWriteHeader (str "dnscrypt_proxy_resolver_jitter_ewma_ms") (str "gauge")
    (str "EWMA of resolver latency jitter in milliseconds") ++
  promWriteHeader (str "dnscrypt_proxy_resolver_samples") (str "gauge")
    (str "Number of exchange samples in the current metric window") ++
  promWriteHeader (str "dnscrypt_proxy_resolver_timeout_window") (str "gauge")
    (str "Timeouts in the current metric window") ++
  promWriteHeader (str "dnscrypt_proxy_resolver_errors_window") (str "gauge")
    (str "Non-timeout exchange errors in the current metric window") ++
  promWriteHeader (str "dnscrypt_proxy_resolver_servfail_window") (str "gauge")
    (str "SERVFAIL responses in the current metric window") ++
  promWriteHeader (str "dnscrypt_proxy_resolver_dnssec_bogus_window") (str "gauge")
    (str "DNSSEC bogus responses in the current metric window") ++
  promWriteHeader (str "dnscrypt_proxy_resolver_truncated_window") (str "gauge")
    (str "Truncated responses in the current metric window") ++
  promWriteHeader (str "dnscrypt_proxy_resolver_tcp_fallback_window") (str "gauge")
    (str "TCP fallbacks in the current metric window") ++
  promWriteHeader (str "dnscrypt_proxy_resolver_quic_fallback_window") (str "gauge")
    (str "QUIC/H3-to-H2 fallbacks in the current metric window") ++
  promWriteHeader (str "dnscrypt_proxy_resolver_conn_new_window") (str "gauge")
    (str "New upstream connections in the current metric window") ++
  promWriteHeader (str "dnscrypt_proxy_resolver_conn_reused_window") (str "gauge")
    (str "Reused upstream connections in the current metric window") ++
  promWriteHeader (str "dnscrypt_proxy_resolver_ecs_returned_window") (str "gauge")
    (str "Responses carrying a non-zero-scope ECS option in the current metric window") ++
  promWriteHeader (str "dnscrypt_proxy_resolver_timeout_ratio") (str "gauge")
    (str "Timeout ratio over the metric window") ++
  promWriteHeader (str "dnscrypt_proxy_resolver_error_ratio") (str "gauge")
    (str "Non-timeout error ratio over the metric window") ++
  promWriteHeader (str "dnscrypt_proxy_resolver_servfail_ratio") (str "gauge")
    (str "SERVFAIL ratio over the metric window") ++
  promWriteHeader (str "dnscrypt_proxy_resolver_dnssec_bogus_ratio") (str "gauge")
    (str "DNSSEC bogus ratio over the metric window") ++
  promWriteHeader (str "dnscrypt_proxy_resolver_truncated_ratio") (str "gauge")
    (str "Truncated response ratio over the metric window") ++
  promWriteHeader (str "dnscrypt_proxy_resolver_tcp_fallback_ratio") (str "gauge")
    (str "TCP fallback ratio over the metric window") ++
  promWriteHeader (str "dnscrypt_proxy_resolver_quic_fallback_ratio") (str "gauge")
    (str "QUIC/H3-to-H2 fallback ratio over the metric window") ++
  promWriteHeader (str "dnscrypt_proxy_resolver_conn_new_ratio") (str "gauge")
    (str "New-connection ratio over the metric window") ++
  promWriteHeader (str "dnscrypt_proxy_resolver_ecs_scope_ratio") (str "gauge")
    (str "Ratio of responses carrying an ECS scope") ++
  promWriteHeader (str "dnscrypt_proxy_resolver_warming") (str "gauge")
    (str "1 while the resolver is within its warmup sample budget") ++
  promWriteHeader (str "dnscrypt_proxy_resolver_features") (str "gauge")
    (str "Static resolver stamp features (1: feature claimed)") ++
  promWriteHeader (str "dnscrypt_proxy_resolver_primary") (str "gauge")
    (str "1 for the current sticky primary (MDS strategy)") ++
  promWriteHeader (str "dnscrypt_proxy_resolver_circuit_open") (str "gauge")
    (str "1 while the resolver circuit breaker is open") ++
  promWriteHeader (str "dnscrypt_proxy_resolver_score") (str "gauge")
    (str "Strategy-specific scheduler selection score") ++
  promWriteHeader (str "dnscrypt_proxy_resolver_switch_total") (str "counter")
    (str "Primary switches toward this resolver") ++
  promWriteHeader (str "dnscrypt_proxy_scheduler_switch_total") (str "counter")
    (str "Total primary switches performed by the scheduler").

Definition row_before (a b : ResolverReportRow) : Prop := str_ltb (rr_Name b) (rr_Name a) = false.
#[global] Instance row_before_dec a b : Decision (row_before a b).
Proof. unfold row_before. apply _. Defined.

Definition writeQuantile (s q : bytes) (ms : option float) : list prom_line :=
  match ms with
  | Some ms => [Sample (str "dnscrypt_proxy_resolver_latency_ms") [(str "server", s); (str "quantile", q)] (fmt_f 2 ms)]
  | None => []
  end.

(** The samples of a resolver. *)
Definition row_samples (r : ResolverReportRow) : list prom_line :=
  let s := promEscapeLabel (rr_Name r) in
  let server name v := Sample (str name) [(str "server", s)] v in
  writeQuantile s (str "50") (P50Ms r) ++ writeQuantile s (str "95") (P95Ms r) ++ writeQuantile s (str "99") (P99Ms r) ++
  [server "dnscrypt_proxy_resolver_latency_ewma_ms" (fmt_f 2 (rr_LatencyEwmaMs r));
   server "dnscrypt_proxy_resolver_jitter_ewma_ms" (fmt_f 2 (rr_JitterEwmaMs r));
   server "dnscrypt_proxy_resolver_samples" (fmt_d (rr_Samples r));
   server "dnscrypt_proxy_resolver_timeout_window" (fmt_d (TimeoutCount r));
   server "dnscrypt_proxy_resolver_errors_window" (fmt_d (ErrorCount r));
   server "dnscrypt_proxy_resolver_servfail_window" (fmt_d (ServfailCount r));
   server "dnscrypt_proxy_resolver_dnssec_bogus_window" (fmt_d (BogusCount r));
   server "dnscrypt_proxy_resolver_truncated_window" (fmt_d (TruncatedCount r));
   server "dnscrypt_proxy_resolver_tcp_fallback_window" (fmt_d (TCPFallbackCount r));
   server "dnscrypt_proxy_resolver_quic_fallback_window" (fmt_d (QUICFallbackCount r));
   server "dnscrypt_proxy_resolver_conn_new_window" (fmt_d (ConnNewCount r));
   server "dnscrypt_proxy_resolver_conn_reused_window" (fmt_d (ConnReusedCount r));
   server "dnscrypt_proxy_resolver_ecs_returned_window" (fmt_d (ECSCount r));
   server "dnscrypt_proxy_resolver_timeout_ratio" (fmt_f 4 (TimeoutRate r));
   server "dnscrypt_proxy_resolver_error_ratio" (fmt_f 4 (ErrorRate r));
   server "dnscrypt_proxy_resolver_servfail_ratio" (fmt_f 4 (ServfailRate r));
   server "dnscrypt_proxy_resolver_dnssec_bogus_ratio" (fmt_f 4 (BogusRate r));
   server "dnscrypt_proxy_resolver_truncated_ratio" (fmt_f 4 (TruncatedRate r));
   server "dnscrypt_proxy_resolver_tcp_fallback_ratio" (fmt_f 4 (TCPFallbackRate r));
   server "dnscrypt_proxy_resolver_quic_fallback_ratio" (fmt_f 4 (QUICFallbackRate r));
   server "dnscrypt_proxy_resolver_conn_new_ratio" (fmt_f 4 (ConnNewRate r));
   server "dnscrypt_proxy_resolver_ecs_scope_ratio" (fmt_f 4 (ECSRate r));
   server "dnscrypt_proxy_resolver_warming" (boolGauge (Warming r));
   Sample (str "dnscrypt_proxy_resolver_features") [(str "server", s); (str "dnssec", fmt_t (rr_DNSSEC r)); (str "nolog", fmt_t (rr_NoLog r));
     (str "nofilter", fmt_t (rr_NoFilter r))] (str "1");
   server "dnscrypt_proxy_resolver_primary" (boolGauge (rr_Primary r));
   server "dnscrypt_proxy_resolver_circuit_open" (boolGauge (CircuitOpen r));
   server "dnscrypt_proxy_resolver_score" (fmt_f 4 (rr_Score r));
   server "dnscrypt_proxy_resolver_switch_total" (fmt_d (SwitchesTo r))].

(** [now] stands for the readings of the clock. *)
Definition appendResolverSchedulerMetrics (now : Time) (si : ServersInfo) : list prom_line :=
  let report := buildSchedulerReportLocked (fun _ => now) (fun _ _ => now) si in
  let rows := merge_sort row_before (Rows report) in
  scheduler_headers ++
  [Sample (str "dnscrypt_proxy_scheduler_switch_total") [(str "strategy", promEscapeLabel (Strategy report))]
     (fmt_d (sr_TotalSwitches report))] ++
  (rows ≫= row_samples).

Section prometheus.
(** Go's version and platform, and the version of the program. *)
Context (GOARCH GOOS goversion AppVersion : bytes).

Definition simple_metric (name typ help v : bytes) : list prom_line := promWriteHeader name typ help ++ [Sample name [] v].

(** The escaping of this function's own labels. *)
Definition escape_server (s : bytes) : bytes := replace_byte 34 [92; 34] (replace_byte 92 [92; 92] s).

Definition server_metrics (st : ServerTimes) : list prom_line :=
  promWriteHeader (str "dnscrypt_proxy_server_queries_total") (str "counter") (str "Total queries per server") ++
  ((fun '(server, n) => Sample (str "dnscrypt_proxy_server_queries_total") [(str "server", escape_server server)] (fmt_d n))
     <$> map_to_list (serverQueryCount st)) ++
  promWriteHeader (str "dnscrypt_proxy_server_response_time_average_ms") (str "gauge")
    (str "Average response time per server in milliseconds") ++
  (map_to_list (serverQueryCount st) ≫= fun '(server, n) =>
     if n >? 0 then
       [Sample (str "dnscrypt_proxy_server_response_time_average_ms") [(str "server", escape_server server)]
          (fmt_f 2 (float64 (default 0%Z (serverResponseTime st !! server)) / float64 n)%float)]
     else []).

Definition prometheus_lines (now : Time) (si : ServersInfo) (mc : MetricsCollector) : list prom_line :=
  let c := counters mc in
  let cacheHitRatio := averaged (cacheHits c) (uint64 (cacheHits c + cacheMisses c)) in
  promWriteHeader (str "dnscrypt_proxy_build_info") (str "gauge")
    (str "A metric with a constant '1' value labeled by version, goversion from which dnscrypt_proxy was built, and the goos and goarch for the build.") ++
  [Sample (str "dnscrypt_proxy_build_info")
     [(str "goarch", GOARCH); (str " goos", GOOS); (str " goversion", goversion); (str " version", AppVersion)] (str "1")] ++
  simple_metric (str "dnscrypt_proxy_queries_total") (str "counter") (str "Total number of DNS queries processed")
    (fmt_d (mc_totalQueries c)) ++
  simple_metric (str "dnscrypt_proxy_queries_per_second") (str "gauge") (str "Current queries per second rate")
    (fmt_f 2 (queriesPerSecond c)) ++
  simple_metric (str "dnscrypt_proxy_uptime_seconds") (str "counter") (str "Uptime in seconds")
    (fmt_f 0 (Seconds (time_sub now (startTime (cc mc))))) ++
  simple_metric (str "dnscrypt_proxy_cache_hits_total") (str "counter") (str "Total number of cache hits")
    (fmt_d (cacheHits c)) ++
  simple_metric (str "dnscrypt_proxy_cache_misses_total") (str "counter") (str "Total number of cache misses")
    (fmt_d (cacheMisses c)) ++
  simple_metric (str "dnscrypt_proxy_cache_hit_ratio") (str "gauge") (str "Current cache hit ratio") (fmt_f 4 cacheHitRatio) ++
  simple_metric (str "dnscrypt_proxy_blocked_queries_total") (str "counter") (str "Total number of blocked queries")
    (fmt_d (blockCount c)) ++
  simple_metric (str "dnscrypt_proxy_response_time_average_ms") (str "gauge") (str "Average response time in milliseconds")
    (fmt_f 2 (averaged (responseTimeSum c) (responseTimeCount c))) ++
  server_metrics (server_times mc) ++
  appendResolverSchedulerMetrics now si ++
  promWriteHeader (str "dnscrypt_proxy_query_type_total") (str "counter") (str "Total queries per DNS record type") ++
  ((fun '(qtype, n) => Sample (str "dnscrypt_proxy_query_type_total") [(str "type", qtype)] (fmt_d n))
     <$> map_to_list (queryTypes mc)) ++
  simple_metric (str "dnscrypt_proxy_query_log_entries") (str "gauge") (str "Current number of query log entries in memory")
    (fmt_d (len (recentQueries (query_log mc)))) ++
  simple_metric (str "dnscrypt_proxy_memory_usage_bytes") (str "gauge") (str "Current memory usage in bytes for query logs")
    (fmt_d (currentMemoryBytes (query_log mc))).

Definition generatePrometheusMetrics (now : Time) (si : ServersInfo) (mc : MetricsCollector) : bytes :=
  if prometheusEnabled (cc mc) then expose (prometheus_lines now si mc) else [].
End prometheus.

Example fmt_f_ex :
  fmt_f 2 0x1.5555555555555p-2%float = str "0.33" /\ fmt_f 1 (-0.25)%float = str "-0.2" /\
  fmt_f 4 1%float = str "1.0000" /\ fmt_f 0 1e22%float = str "10000000000000000000000" /\ fmt_f 2 (0 / 0)%float = str "NaN".
Proof. vm_compute. repeat split. Qed.
