(* ===== verification/MonitoringUI.v ===== *)
(** * The monitoring server (src/dnscrypt-proxy/monitoring_ui.go)

    Requests for the page, who may make them, the WebSocket clients and the updates they
    are sent.  What happens at the server is a sequence of events ([ui_event]): requests,
    messages of clients, critical sections of [UpdateMetrics], timers, and the goroutines
    that send updates; [ui_next] is the effect of an event, with what is sent in [outputs]. *)

From stdpp Require Import sorting.
From S2P Require Import Prelude GoStrings GoFloat NetIP Common Crypto Dns Metrics ServerTypes Mds Servers Plugins RuleLog Url.
From S2P Require Import Clients XTransport Sources Observability Monitoring Prometheus.

Record MonitoringUIConfig := {
  mu_Enabled : bool; mu_Username : bytes; mu_Password : bytes; mu_EnableQueryLog : bool; mu_PrivacyLevel : Z;
  mu_MaxQueryLogEntries : Z; mu_MaxMemoryMB : Z; mu_PrometheusEnabled : bool; mu_PrometheusPath : bytes;
}.

(** ** Requests *)

(** A request, as net/http presents it: [ur_BasicAuth] is the result of [r.BasicAuth()]. *)
Record ui_request := {
  ur_Method : bytes; ur_Path : bytes; ur_Query : Values; ur_Header : list (bytes * bytes); ur_TLS : bool;
  ur_Host : bytes; ur_BasicAuth : option (bytes * bytes);
}.

Definition header_Get (name : bytes) (r : ui_request) : bytes :=
  match list_find (fun h => h.1 = name) (ur_Header r) with Some (_, h) => h.2 | None => [] end.

(** The part of [url.URL] that [CheckOrigin] looks at. *)
Record origin_url := {
  ou_Scheme : bytes; ou_User : bool; ou_Host : bytes; ou_Path : bytes; ou_RawQuery : bytes; ou_Fragment : bytes;
}.

Inductive body :=
  | NoBody
  | Text (s : bytes)
  | Html
  | Script
  | Json (page : option MetricsPage)
  | Exposition (s : bytes).

Record ui_response := { us_Status : Z; us_Header : list (bytes * bytes); us_Body : body }.

Definition NotFound : ui_response := {| us_Status := 404; us_Header := []; us_Body := Text (str "404 page not found") |}.

Definition setDynamicCacheHeaders : list (bytes * bytes) :=
  [(str "Cache-Control", str "no-cache, no-store, must-revalidate"); (str "Pragma", str "no-cache"); (str "Expires", str "0")].

(** The value of Expires is the date in an hour. *)
Definition setStaticCacheHeaders (http_date : Time -> bytes) (now maxAge : Z) : list (bytes * bytes) :=
  [(str "Cache-Control", str "public, max-age=" ++ fmt_d maxAge); (str "Expires", http_date (now + maxAge * Second))].

(** ** The multiplexer *)

Inductive handler := HRoot | HMetrics | HWebSocket | HStaticJS | HStatic | HPrometheus.

(** [path.Clean] on a rooted path, and [cleanPath] of net/http. *)
Definition clean_segment (acc : list bytes) (s : bytes) : list bytes :=
  if bool_decide (s = []) || bool_decide (s = str ".") then acc
  else if bool_decide (s = str "..") then removelast acc
  else acc ++ [s].
Definition path_Clean (p : bytes) : bytes :=
  match foldl clean_segment [] (Split p 47) with
  | [] => [47]
  | l => l ≫= fun s => 47 :: s
  end.
Definition cleanPath (p : bytes) : bytes :=
  let p := match p with 47 :: _ => p | _ => 47 :: p end in
  let np := path_Clean p in
  if bool_decide (last p = Some 47) && negb (bool_decide (np = [47])) then np ++ [47] else np.

(** A pattern matches its path, and all the paths below it if it ends in a slash; the
    longest one that matches is the one that counts. *)
Definition pattern_matches (pattern path : bytes) : bool :=
  if bool_decide (last pattern = Some 47) then HasPrefix path pattern else bool_decide (pattern = path).

Definition mux_handler (mux : list (bytes * handler)) (path : bytes) : option handler :=
  snd <$> foldl (fun best e => if pattern_matches e.1 path
                               then match best with
                                    | Some b => if len b.1 <? len e.1 then Some e else best
                                    | None => Some e
                                    end
                               else best) None mux.

Definition fixed_patterns : list (bytes * handler) :=
  [(str "/", HRoot); (str "/api/metrics", HMetrics); (str "/api/ws", HWebSocket);
   (str "/static/monitoring.js", HStaticJS); (str "/static/", HStatic)].

(** The patterns that [Start] registers.  The path of the exposition is a plain path;
    registering a pattern twice panics. *)
Definition Start_patterns (prometheusEnabled : bool) (prometheusPath : bytes) : option (list (bytes * handler)) :=
  if prometheusEnabled then
    if existsb (fun e => bool_decide (e.1 = prometheusPath)) fixed_patterns then None
    else Some (fixed_patterns ++ [(prometheusPath, HPrometheus)])
  else Some fixed_patterns.

(** ** The server *)

(** The limit on updates: [timers] are the wake-up times of the goroutines that wait,
    [spawned] the number of [broadcastMetrics] that have been started. *)
Record Broadcast := { lastBroadcast : Time; pendingBroadcast : bool; timers : list Time; spawned : nat }.

Definition broadcastMinDelay : Duration := 100 * Millisecond.

Inductive ws_message := Pong | Page (page : option MetricsPage).

Inductive output :=
  | OResponse (r : ui_request) (resp : ui_response)
  | OUpgraded (r : ui_request) (conn : nat)
  | OSent (conn : nat) (m : ws_message).

(** [clients] are the registered connections, [readers] the connections that a goroutine
    reads from; connections are numbered. *)
Record MonitoringUI := {
  mu_config : MonitoringUIConfig;
  mux : list (bytes * handler);
  metricsCollector : MetricsCollector;
  clients : gset nat; readers : gset nat; nextConn : nat;
  broadcast : Broadcast;
  outputs : list output;
}.

Definition set_collector (mc : MetricsCollector) (ui : MonitoringUI) : MonitoringUI :=
  {| mu_config := mu_config ui; mux := mux ui; metricsCollector := mc; clients := clients ui; readers := readers ui;
     nextConn := nextConn ui; broadcast := broadcast ui; outputs := outputs ui |}.
Definition set_broadcast (b : Broadcast) (ui : MonitoringUI) : MonitoringUI :=
  {| mu_config := mu_config ui; mux := mux ui; metricsCollector := metricsCollector ui; clients := clients ui;
     readers := readers ui; nextConn := nextConn ui; broadcast := b; outputs := outputs ui |}.
Definition set_conns (c rd : gset nat) (n : nat) (ui : MonitoringUI) : MonitoringUI :=
  {| mu_config := mu_config ui; mux := mux ui; metricsCollector := metricsCollector ui; clients := c; readers := rd;
     nextConn := n; broadcast := broadcast ui; outputs := outputs ui |}.
Definition out (o : list output) (ui : MonitoringUI) : MonitoringUI :=
  {| mu_config := mu_config ui; mux := mux ui; metricsCollector := metricsCollector ui; clients := clients ui;
     readers := readers ui; nextConn := nextConn ui; broadcast := broadcast ui; outputs := outputs ui ++ o |}.

(** [NewMonitoringUI] and [Start]; [None] for a panic. *)
Definition NewMonitoringUI (now : Time) (config : MonitoringUIConfig) : option MonitoringUI :=
  let prometheusPath := if bool_decide (mu_PrometheusPath config = []) then str "/metrics" else mu_PrometheusPath config in
  m ← Start_patterns (mu_PrometheusEnabled config) prometheusPath;
  Some {| mu_config := config; mux := m;
          metricsCollector := NewMetricsCollector now (mu_MaxQueryLogEntries config) (mu_MaxMemoryMB config)
            (mu_PrivacyLevel config) (mu_PrometheusEnabled config);
          clients := ∅; readers := ∅; nextConn := 0;
          broadcast := {| lastBroadcast := zero_time; pendingBroadcast := false; timers := []; spawned := 0 |};
          outputs := [] |}.

(** ** Updates *)

Definition scheduleBroadcast (now : Time) (b : Broadcast) : Broadcast :=
  let timeSinceLastBroadcast := time_sub now (lastBroadcast b) in
  if broadcastMinDelay <=? timeSinceLastBroadcast then
    {| lastBroadcast := now; pendingBroadcast := false; timers := timers b; spawned := S (spawned b) |}
  else if pendingBroadcast b then b
  else
    {| lastBroadcast := lastBroadcast b; pendingBroadcast := true;
       timers := timers b ++ [now + (broadcastMinDelay - timeSinceLastBroadcast)]; spawned := spawned b |}.

(** The goroutine of a timer that wakes up. *)
Definition timer_fires (k : nat) (now : Time) (b : Broadcast) : Broadcast :=
  match timers b !! k with
  | Some t =>
      if t <=? now then
        let rest := delete k (timers b) in
        if pendingBroadcast b then
          {| lastBroadcast := now; pendingBroadcast := false; timers := rest; spawned := S (spawned b) |}
        else {| lastBroadcast := lastBroadcast b; pendingBroadcast := false; timers := rest; spawned := spawned b |}
      else b
  | None => b
  end.

Section server.
(** The dnsstamps and dns packages' names, the texts of the build. *)
Context (proto_String : Z -> bytes) (typeName : Z -> option bytes) (http_date : Time -> bytes).
Context (GOARCH GOOS goversion AppVersion : bytes).
(** [url.Parse]; the response of [websocket.Upgrader.Upgrade] to a request that is not a
    handshake; case folding beyond ASCII. *)
Context (url_Parse : bytes -> option origin_url) (handshake_error : ui_request -> option ui_response).
Context (unicode_lower : bytes -> bytes) (unicode_equal_fold : bytes -> bytes -> bool).

Definition requestScheme (r : ui_request) : bytes :=
  let forwarded := header_Get (str "X-Forwarded-Proto") r in
  let forwarded := match IndexByte forwarded 44 with Some comma => take comma forwarded | None => forwarded end in
  let s := ToLower unicode_lower (TrimSpace forwarded) in
  if bool_decide (s = str "http") then str "http"
  else if bool_decide (s = str "https") then str "https"
  else if ur_TLS r then str "https" else str "http".

Definition CheckOrigin (r : ui_request) : bool :=
  let origin := header_Get (str "Origin") r in
  if bool_decide (origin = []) then true
  else match url_Parse origin with
  | None => false
  | Some u =>
      if ou_User u || bool_decide (ou_Host u = []) || negb (bool_decide (ou_Path u = []))
         || negb (bool_decide (ou_RawQuery u = [])) || negb (bool_decide (ou_Fragment u = [])) then false
      else bool_decide (ou_Scheme u = requestScheme r) && EqualFold unicode_equal_fold (ou_Host u) (ur_Host r)
  end.

Definition isOptions (r : ui_request) : bool := bool_decide (ur_Method r = str "OPTIONS").

(** The state of a test query; the protocol, which is not set there, is not looked at. *)
Definition test_state (now : Time) : PluginsState :=
  {| requestStart := now - 10 * Millisecond; requestEnd := zero_time; clientProto := client_udp;
     serverName := str "cloudflare"; relayName := []; serverProto := udp; qName := str "test.example.com";
     clientAddr := None; synthResponse := None; questionMsg := None; whitelisted := false; stale := None;
     action := PluginsActionContinue; ps_timeout := 0; returnCode := PluginsReturnCodePass; maxPayloadSize := 0;
     originalMaxPayloadSize := 0; maxUnencryptedUDPSafePayloadSize := 0; rejectTTL := 0; cacheMaxTTL := 0;
     cacheNegMaxTTL := 0; cacheNegMinTTL := 0; cacheMinTTL := 0; cacheHit := false; dnssec := false;
     exchange := zero_outcome; exchangeStart := zero_time |}.

(** [UpdateMetrics] of the server. *)
Definition ui_UpdateMetrics (now later : Time) (ps : PluginsState) (msg : option Msg) (ui : MonitoringUI) : MonitoringUI :=
  if mu_Enabled (mu_config ui) then
    set_broadcast (scheduleBroadcast later (broadcast ui))
      (set_collector (UpdateMetrics typeName (mu_EnableQueryLog (mu_config ui)) now later ps msg (metricsCollector ui)) ui)
  else ui.

Definition handleTestQuery (now later : Time) (ui : MonitoringUI) : ui_response * MonitoringUI :=
  ({| us_Status := 200; us_Header := setDynamicCacheHeaders ++ [(str "Content-Type", str "text/plain")];
      us_Body := Text (str "Test query added") |},
   ui_UpdateMetrics now later (test_state now) (Some (NewMsg 0 (str "test.example.com.") TypeA)) ui).

Definition handleRoot (now later : Time) (r : ui_request) (ui : MonitoringUI) : ui_response * MonitoringUI :=
  if isOptions r then ({| us_Status := 200; us_Header := []; us_Body := NoBody |}, ui)
  else if bool_decide (values_Get (str "test") (ur_Query r) = str "1") then handleTestQuery now later ui
  else if negb (bool_decide (ur_Path r = str "/")) then (NotFound, ui)
  else ({| us_Status := 200; us_Header := setDynamicCacheHeaders ++ [(str "Content-Type", str "text/html")];
           us_Body := Html |}, ui).

Definition ui_GetMetrics (asked now : Time) (pv : ProxyView) (ui : MonitoringUI) : option MetricsPage * MonitoringUI :=
  let '(page, mc) := GetMetrics proto_String asked now pv (metricsCollector ui) in (page, set_collector mc ui).

Definition handleMetrics (asked now : Time) (pv : ProxyView) (r : ui_request) (ui : MonitoringUI)
    : ui_response * MonitoringUI :=
  if isOptions r then ({| us_Status := 200; us_Header := setDynamicCacheHeaders; us_Body := NoBody |}, ui)
  else
    let '(page, ui) := ui_GetMetrics asked now pv ui in
    ({| us_Status := 200; us_Header := setDynamicCacheHeaders ++ [(str "Content-Type", str "application/json")];
        us_Body := Json page |}, ui).

Definition handleStatic : ui_response := NotFound.
Definition handleStaticJS (now : Time) : ui_response :=
  {| us_Status := 200;
     us_Header := setStaticCacheHeaders http_date now 3600 ++ [(str "Content-Type", str "application/javascript")];
     us_Body := Script |}.

Definition handlePrometheus (now : Time) (pv : ProxyView) (ui : MonitoringUI) : ui_response :=
  if prometheusEnabled (cc (metricsCollector ui)) then
    {| us_Status := 200;
       us_Header := (str "Content-Type", str "text/plain; version=0.0.4; charset=utf-8") :: setDynamicCacheHeaders;
       us_Body := Exposition (generatePrometheusMetrics GOARCH GOOS goversion AppVersion now (pv_serversInfo pv)
                                (metricsCollector ui)) |}
  else NotFound.

(** The upgrade of a connection: [write_ok] tells whether the first description can be
    written.  A connection that fails then is closed and unregistered. *)
Definition upgrade (asked now : Time) (pv : ProxyView) (write_ok : bool) (r : ui_request) (ui : MonitoringUI) : MonitoringUI :=
  let conn := nextConn ui in
  let ui := out [OUpgraded r conn] (set_conns ({[conn]} ∪ clients ui) (readers ui) (S conn) ui) in
  let '(page, ui) := ui_GetMetrics asked now pv ui in
  if write_ok then out [OSent conn (Page page)] (set_conns (clients ui) ({[conn]} ∪ readers ui) (nextConn ui) ui)
  else set_conns (clients ui ∖ {[conn]}) (readers ui) (nextConn ui) ui.

(** [None] for a connection that is upgraded, which gets no response of its own. *)
Definition handleWebSocket (asked now : Time) (pv : ProxyView) (write_ok : bool) (r : ui_request) (ui : MonitoringUI)
    : option ui_response * MonitoringUI :=
  if isOptions r then (Some {| us_Status := 200; us_Header := []; us_Body := NoBody |}, ui)
  else match handshake_error r with
  | Some resp => (Some resp, ui)
  | None =>
      if negb (CheckOrigin r) then (Some {| us_Status := 403; us_Header := []; us_Body := Text (str "Forbidden") |}, ui)
      else (None, upgrade asked now pv write_ok r ui)
  end.

Definition serve_mux (asked now : Time) (pv : ProxyView) (write_ok : bool) (r : ui_request) (ui : MonitoringUI)
    : option ui_response * MonitoringUI :=
  if negb (bool_decide (cleanPath (ur_Path r) = ur_Path r)) then
    (Some {| us_Status := 301; us_Header := [(str "Location", cleanPath (ur_Path r))]; us_Body := NoBody |}, ui)
  else
  match mux_handler (mux ui) (ur_Path r) with
  | None => (Some NotFound, ui)
  | Some HRoot => let '(resp, ui) := handleRoot asked now r ui in (Some resp, ui)
  | Some HMetrics => let '(resp, ui) := handleMetrics asked now pv r ui in (Some resp, ui)
  | Some HWebSocket => handleWebSocket asked now pv write_ok r ui
  | Some HStaticJS => (Some (handleStaticJS now), ui)
  | Some HStatic => (Some handleStatic, ui)
  | Some HPrometheus => (Some (handlePrometheus now pv ui), ui)
  end.

Definition Unauthorized : ui_response :=
  {| us_Status := 401; us_Header := [(str "WWW-Authenticate", str "Basic realm=" ++ [34] ++ str "DNSCrypt Proxy Monitoring" ++ [34])];
     us_Body := Text (str "Unauthorized") |}.

(** [subtle.ConstantTimeCompare] compares all the bytes of strings of equal length. *)
Definition ConstantTimeCompare (x y : bytes) : Z :=
  if len x =? len y then (if foldl (fun v p => Z.lor v (Z.lxor p.1 p.2)) 0 (zip x y) =? 0 then 1 else 0) else 0.

Definition basicAuthMiddleware (asked now : Time) (pv : ProxyView) (write_ok : bool) (r : ui_request) (ui : MonitoringUI)
    : option ui_response * MonitoringUI :=
  let config := mu_config ui in
  if bool_decide (mu_Username config = []) then serve_mux asked now pv write_ok r ui
  else match ur_BasicAuth r with
  | None => (Some Unauthorized, ui)
  | Some (user, pass) =>
      if negb (ConstantTimeCompare user (mu_Username config) =? 1) || negb (ConstantTimeCompare pass (mu_Password config) =? 1)
      then (Some Unauthorized, ui)
      else serve_mux asked now pv write_ok r ui
  end.

(** ** Events *)

Inductive client_message := Ping | OtherMessage | ReadError.

Inductive ui_event :=
  | ERequest (asked now : Time) (pv : ProxyView) (write_ok : bool) (r : ui_request)
  | EMessage (conn : nat) (m : client_message) (asked now : Time) (pv : ProxyView) (pong_ok page_ok : bool)
  | ESection (now later : Time) (ps : PluginsState) (msg : option Msg) (s : section)
  | ESchedule (now : Time)
  | ETimer (k : nat) (now : Time)
  | EBroadcast (asked now : Time) (pv : ProxyView) (failing : gset nat).

(** The goroutine of a connection, when a message is read. *)
Definition read_message (conn : nat) (m : client_message) (asked now : Time) (pv : ProxyView) (pong_ok page_ok : bool)
    (ui : MonitoringUI) : MonitoringUI :=
  if decide (conn ∈ readers ui) then
    let stop ui := set_conns (clients ui ∖ {[conn]}) (readers ui ∖ {[conn]}) (nextConn ui) ui in
    match m with
    | ReadError => stop ui
    | OtherMessage => ui
    | Ping =>
        if pong_ok then
          let ui := out [OSent conn Pong] ui in
          let '(page, ui) := ui_GetMetrics asked now pv ui in
          if page_ok then out [OSent conn (Page page)] ui else ui
        else stop ui
    end
  else ui.

(** A goroutine that sends an update to all the clients; those that fail are closed. *)
Definition broadcastMetrics (asked now : Time) (pv : ProxyView) (failing : gset nat) (ui : MonitoringUI) : MonitoringUI :=
  let '(page, ui) := ui_GetMetrics asked now pv ui in
  let ui := out ((fun conn => OSent conn (Page page)) <$> elements (clients ui ∖ failing)) ui in
  set_conns (clients ui ∖ failing) (readers ui) (nextConn ui) ui.

Definition ui_next (e : ui_event) (ui : MonitoringUI) : MonitoringUI :=
  match e with
  | ERequest asked now pv write_ok r =>
      match basicAuthMiddleware asked now pv write_ok r ui with
      | (Some resp, ui) => out [OResponse r resp] ui
      | (None, ui) => ui
      end
  | EMessage conn m asked now pv pong_ok page_ok => read_message conn m asked now pv pong_ok page_ok ui
  | ESection now later ps msg s =>
      if mu_Enabled (mu_config ui) then
        set_collector (update_section typeName (mu_EnableQueryLog (mu_config ui)) now later ps msg s (metricsCollector ui)) ui
      else ui
  | ESchedule now => if mu_Enabled (mu_config ui) then set_broadcast (scheduleBroadcast now (broadcast ui)) ui else ui
  | ETimer k now => set_broadcast (timer_fires k now (broadcast ui)) ui
  | EBroadcast asked now pv failing =>
      match spawned (broadcast ui) with
      | S n =>
          let b := broadcast ui in
          broadcastMetrics asked now pv failing
            (set_broadcast {| lastBroadcast := lastBroadcast b; pendingBroadcast := pendingBroadcast b;
                              timers := timers b; spawned := n |} ui)
      | O => ui
      end
  end.

Definition ui_run (es : list ui_event) (ui : MonitoringUI) : MonitoringUI := foldl (fun ui e => ui_next e ui) ui es.
End server.
