(* ===== verification/MonitoringProps.v ===== *)
(** * Properties of the monitoring page

    What is kept of the queries is bounded; what is shown respects the level of privacy;
    descriptions are sent only to clients that may see them; updates are sent in time. *)

From stdpp Require Import sorting.
From S2P Require Import Prelude GoStrings GoFloat NetIP Common Crypto Dns Metrics ServerTypes Mds Servers Plugins RuleLog Url.
From S2P Require Import Clients XTransport Sources Observability Monitoring Prometheus MonitoringUI.

(** ** The collector *)

Fixpoint log_size (l : list QueryLogEntry) : Z :=
  match l with
  | [] => 0
  | e :: l => EstimateMemoryUsage e + log_size l
  end.

Lemma EstimateMemoryUsage_pos e : 0 < EstimateMemoryUsage e.
Proof. unfold EstimateMemoryUsage, len. lia. Qed.
#[local] Opaque EstimateMemoryUsage.

Lemma log_size_app l e : log_size (l ++ [e]) = log_size l + EstimateMemoryUsage e.
Proof. induction l as [|x l IH]; cbn; [lia|]. rewrite IH. lia. Qed.

Lemma log_size_nonneg l : 0 <= log_size l.
Proof. induction l as [|e l IH]; cbn; [lia|]. pose proof (EstimateMemoryUsage_pos e). lia. Qed.

(** The log is counted right, has at most [maxEntries] entries, and uses no more memory
    than [limit], unless it has one entry. *)
Definition log_ok (maxEntries limit : Z) (q : QueryLog) : Prop :=
  currentMemoryBytes q = log_size (recentQueries q) /\ len (recentQueries q) <= maxEntries /\
  (currentMemoryBytes q <= limit \/ len (recentQueries q) <= 1).

Lemma make_room_spec limit size l current l' current' : current = log_size l ->
  make_room limit size l current = (l', current') ->
  current' = log_size l' /\ (exists dropped, l = dropped ++ l') /\ (current' + size <= limit \/ l' = []).
Proof.
  revert current. induction l as [|e l IH]; intros current Hc; cbn [make_room].
  - case_match eqn:E; intros [= <- <-]; (split_and!; [done|by exists []|]); [by right|bools; left; lia].
  - case_match eqn:E.
    + intros H. apply IH in H as (H1 & [d ->] & H3); [|cbn in Hc; lia].
      split_and!; [done|by exists (e :: d)|done].
    + intros [= <- <-]. split_and!; [done|by exists []|bools; left; lia].
Qed.

Lemma add_entry_ok maxEntries limit e q : 1 <= maxEntries -> log_ok maxEntries limit q ->
  log_ok maxEntries limit (add_entry maxEntries limit e q) /\
  (forall P : QueryLogEntry -> Prop, P e -> Forall P (recentQueries q) -> Forall P (recentQueries (add_entry maxEntries limit e q))).
Proof.
  intros Hm (Hc & Hl & _). unfold add_entry.
  destruct (make_room limit _ _ _) as [l current] eqn:E.
  apply make_room_spec in E as (Hcur & [d Hd] & Hfit); [|done].
  assert (Forall_ok : forall P : QueryLogEntry -> Prop, P e -> Forall P (recentQueries q) -> Forall P (l ++ [e])).
  { intros P HP HF. rewrite Hd in HF. apply Forall_app in HF as [_ HF]. apply Forall_app. by split; [|constructor]. }
  assert (len l <= maxEntries) as Hlen by (rewrite Hd in Hl; unfold len in *; rewrite length_app in Hl; lia).
  pose proof (log_size_app l e) as Hs.
  destruct (l ++ [e]) as [|old rest] eqn:El; [by destruct l|].
  assert (len (old :: rest) = len l + 1) as Hol by (rewrite <-El; unfold len; rewrite length_app; cbn; lia).
  pose proof (EstimateMemoryUsage_pos old) as Hold.
  case_match eqn:E2; (split; [unfold log_ok; cbn [recentQueries currentMemoryBytes]|cbn [recentQueries]]).
  - cbn in Hs. unfold len in *. cbn in *. split_and!; [lia|lia|].
    destruct Hfit as [|Hn]; [left; lia|right]. subst l. cbn in *. lia.
  - intros P HP HF. specialize (Forall_ok P HP HF). by inversion Forall_ok.
  - bools. split_and!; [rewrite Hs; lia|lia|]. destruct Hfit as [|Hn]; [left; lia|right; subst l; unfold len in *; cbn in *; lia].
  - done.
Qed.

(** ** Frequent names *)

Lemma foldl_delete_lookup (l : list (bytes * Z)) (m : gmap bytes Z) :
  dom (foldl (fun m dc => delete dc.1 m) m l) = dom m ∖ list_to_set l.*1.
Proof.
  revert m. induction l as [|x l IH]; intros m; cbn; [set_solver|].
  rewrite IH, dom_delete_L. set_solver.
Qed.

Lemma foldl_delete_sub (l : list (bytes * Z)) (m : gmap bytes Z) : foldl (fun m dc => delete dc.1 m) m l ⊆ m.
Proof.
  revert m. induction l as [|x l IH]; intros m; cbn; [done|]. etrans; [apply IH|apply delete_subseteq].
Qed.

Lemma sorted_counts_perm m : sorted_counts m ≡ₚ map_to_list m.
Proof. apply merge_sort_Permutation. Qed.

(** The names that stay are the first half of the limit, in the order of the counts. *)
Lemma prune_dom m : dom (pruneTopDomainsLocked m) = list_to_set (take (maxTopDomains / 2) (sorted_counts m)).*1.
Proof.
  unfold pruneTopDomainsLocked. rewrite foldl_delete_lookup.
  set (n := (maxTopDomains / 2)%nat). pose proof (sorted_counts_perm m) as Hp.
  assert (dom m = list_to_set (sorted_counts m).*1) as ->.
  { rewrite <-(list_to_map_to_list m) at 1. rewrite dom_list_to_map_L. by rewrite Hp. }
  assert (NoDup (sorted_counts m).*1) as Hnd.
  { rewrite Hp. apply NoDup_fst_map_to_list. }
  rewrite <-(take_drop n (sorted_counts m)) at 1. rewrite <-(take_drop n (sorted_counts m)) in Hnd.
  rewrite fmap_app in *. rewrite list_to_set_app_L. apply NoDup_app in Hnd as (_ & Hd & _). set_solver.
Qed.

Lemma prune_size m : (size (pruneTopDomainsLocked m) <= maxTopDomains / 2)%nat.
Proof.
  rewrite <-size_dom, prune_dom, size_list_to_set.
  - rewrite length_fmap, length_take. lia.
  - eapply sublist_NoDup; [|apply fmap_sublist, sublist_take]. rewrite sorted_counts_perm. apply NoDup_fst_map_to_list.
Qed.

Lemma update_domains_size ps m : (size m <= maxTopDomains)%nat -> (size (update_domains ps m) <= maxTopDomains)%nat.
Proof.
  intros Hm. unfold update_domains, incr. rewrite map_size_insert.
  pose proof (prune_size m). assert (maxTopDomains / 2 < maxTopDomains)%nat by (vm_compute; lia).
  destruct (m !! qName ps) as [v|] eqn:E.
  - rewrite (bool_decide_false (Some v = None)) by done. cbn [andb]. by rewrite E.
  - rewrite (bool_decide_true (None = None)) by done. cbn [andb].
    destruct (maxTopDomains <=? size m)%nat eqn:E2.
    + case_match; unfold id; lia.
    + apply Nat.leb_gt in E2. rewrite E. lia.
Qed.

(** ** What is kept and what is shown *)

Definition anonymous (e : QueryLogEntry) : Prop := le_ClientIP e = str "anonymized".

(** What [GetMetrics] may show with these settings. *)
Definition page_ok (c : CollectorConfig) (p : MetricsPage) : Prop :=
  len (pg_recent_queries p) <= maxRecentQueries c /\ len (pg_top_domains p) <= 20 /\ len (pg_query_types p) <= 10 /\
  (1 <= privacyLevel c -> Forall anonymous (pg_recent_queries p)) /\
  (2 <= privacyLevel c -> pg_recent_queries p = [] /\ pg_top_domains p = []).

Record collector_ok (mc : MetricsCollector) : Prop := {
  ok_max : 1 <= maxRecentQueries (cc mc);
  ok_log : log_ok (maxRecentQueries (cc mc)) (maxMemoryBytes (cc mc)) (query_log mc);
  ok_names : (size (topDomains mc) <= maxTopDomains)%nat;
  ok_anonymous : 1 <= privacyLevel (cc mc) -> Forall anonymous (recentQueries (query_log mc));
  ok_private : 2 <= privacyLevel (cc mc) -> recentQueries (query_log mc) = [] /\ topDomains mc = ∅;
  ok_cached : forall p, cachedMetrics (page_cache mc) = Some p -> page_ok (cc mc) p;
}.

Lemma NewMetricsCollector_ok now n mb privacy prom : collector_ok (NewMetricsCollector now n mb privacy prom).
Proof.
  split; cbn; try done.
  - case_match; bools; lia.
  - split_and!; [done| |by right]. change (len (recentQueries _)) with 0. cbn. case_match; bools; lia.
  - apply Nat.leb_le. vm_compute. reflexivity.
Qed.

Lemma update_section_ok typeName enabled now later ps msg s mc : collector_ok mc ->
  collector_ok (update_section typeName enabled now later ps msg s mc) /\
  cc (update_section typeName enabled now later ps msg s mc) = cc mc.
Proof.
  intros [Hmax Hlog Hn Ha Hp Hc].
  destruct s; cbn [update_section]; try (split; [by split|done]).
  - destruct (privacyLevel (cc mc) <? 2) eqn:E; [|by split; [split|]]. bools.
    split; [|done]. split; cbn; try done; [by apply update_domains_size|lia].
  - destruct (enabled && _) eqn:E; [|by split; [split|]]. bools.
    match goal with |- context [add_entry _ _ ?e _] => set (entry := e) end.
    destruct (add_entry_ok _ _ entry _ Hmax Hlog) as [Hlog' HF].
    split; [|done]. split; cbn; try done; [|lia].
    intros Hl. apply HF; [|by apply Ha]. unfold anonymous, entry, log_entry, log_client. cbn.
    by rewrite (proj2 (Z.geb_le _ _)) by done.
Qed.

Lemma UpdateMetrics_ok typeName enabled now later ps msg mc : collector_ok mc ->
  collector_ok (UpdateMetrics typeName enabled now later ps msg mc) /\
  cc (UpdateMetrics typeName enabled now later ps msg mc) = cc mc.
Proof.
  unfold UpdateMetrics. generalize [SCounters; SInvalidate; STypes; SResponse; SServer; SDomains; SLog] as l.
  intros l. revert mc. induction l as [|s l IH]; intros mc Hok; [done|]. cbn [foldl].
  destruct (update_section_ok typeName enabled now later ps msg s mc Hok) as [Hok' Hcc].
  destruct (IH _ Hok') as [H1 H2]. split; [done|]. by rewrite H2.
Qed.

Lemma compute_metrics_ok proto_String now pv mc : collector_ok mc -> page_ok (cc mc) (compute_metrics proto_String now pv mc).
Proof.
  intros [Hmax [_ [Hl _]] Hn Ha Hp Hc]. unfold compute_metrics.
  destruct (collectResolverSnapshots _ _ _) as [[snaps index] report].
  unfold page_ok. cbn [pg_recent_queries pg_top_domains pg_query_types]. split_and!; [done| | |done|].
  - unfold top_domains, len. case_match; [|cbn; lia]. rewrite length_fmap, length_take. lia.
  - unfold len. rewrite length_take. lia.
  - intros H2. split; [by apply Hp|]. unfold top_domains. by rewrite (proj2 (Z.ltb_ge _ _)).
Qed.

Lemma GetMetrics_ok proto_String asked now pv mc page mc' : collector_ok mc ->
  GetMetrics proto_String asked now pv mc = (page, mc') ->
  collector_ok mc' /\ cc mc' = cc mc /\ (forall p, page = Some p -> page_ok (cc mc) p).
Proof.
  intros Hok. unfold GetMetrics. case_match; intros [= <- <-]; [split_and!; [done|done|by apply ok_cached]|].
  pose proof (compute_metrics_ok proto_String now pv mc Hok) as Hpage.
  split_and!; [|done|by intros p [= <-]].
  destruct Hok. split; cbn; try done. by intros p [= <-].
Qed.

(** ** The server *)

Lemma ConstantTimeCompare_spec x y : ConstantTimeCompare x y = 1 <-> x = y.
Proof.
  unfold ConstantTimeCompare, len.
  assert (forall l v, foldl (fun v (p : Z * Z) => Z.lor v (Z.lxor p.1 p.2)) v l = 0 <-> v = 0 /\ Forall (fun p => p.1 = p.2) l) as Hf.
  { induction l as [|p l IH]; intros v; cbn; [by split; [|intros [? _]]|].
    rewrite IH, Z.lor_eq_0_iff, Z.lxor_eq_0_iff, Forall_cons. tauto. }
  split.
  - destruct (Z.eqb_spec (Z.of_nat (length x)) (Z.of_nat (length y))) as [Hl|]; [|done].
    destruct (Z.eqb_spec (foldl (fun v (p : Z * Z) => Z.lor v (Z.lxor p.1 p.2)) 0 (zip x y)) 0) as [H0|]; [|done]. intros _.
    apply Hf in H0 as [_ H0]. apply list_eq_same_length with (length x); [lia|done|].
    intros i a b Hi Ha Hb. assert (zip x y !! i = Some (a, b)) as Hz by (apply lookup_zip_Some; done).
    by apply (Forall_lookup_1 _ _ _ _ H0 Hz).
  - intros ->. rewrite Z.eqb_refl, (proj2 (Z.eqb_eq _ 0)); [done|]. apply Hf. split; [done|].
    apply Forall_lookup. intros i [a b] Hi. apply lookup_zip_Some in Hi as [Ha Hb]. cbn. congruence.
Qed.

Definition authorised (c : MonitoringUIConfig) (r : ui_request) : Prop :=
  mu_Username c = [] \/ ur_BasicAuth r = Some (mu_Username c, mu_Password c).

Definition upgraded (outs : list output) (conn : nat) : Prop := exists r, OUpgraded r conn ∈ outs.

Section server.
Context (proto_String : Z -> bytes) (typeName : Z -> option bytes) (http_date : Time -> bytes).
Context (GOARCH GOOS goversion AppVersion : bytes).
Context (url_Parse : bytes -> option origin_url) (handshake_error : ui_request -> option ui_response).
Context (unicode_lower : bytes -> bytes) (unicode_equal_fold : bytes -> bytes -> bool).

Local Notation origin_ok := (CheckOrigin url_Parse unicode_lower unicode_equal_fold).
Local Notation next := (ui_next proto_String typeName http_date GOARCH GOOS goversion AppVersion url_Parse handshake_error
  unicode_lower unicode_equal_fold).
Local Notation run := (ui_run proto_String typeName http_date GOARCH GOOS goversion AppVersion url_Parse handshake_error
  unicode_lower unicode_equal_fold).
Local Notation auth := (basicAuthMiddleware proto_String typeName http_date GOARCH GOOS goversion AppVersion url_Parse
  handshake_error unicode_lower unicode_equal_fold).
Local Notation serve := (serve_mux proto_String typeName http_date GOARCH GOOS goversion AppVersion url_Parse
  handshake_error unicode_lower unicode_equal_fold).

Local Notation websocket := (handleWebSocket proto_String url_Parse handshake_error unicode_lower unicode_equal_fold).

(** What may be sent: responses to those who may see the page, connections from the same
    origin, and updates on connections that have been accepted; descriptions follow the settings. *)
Definition output_ok (config : MonitoringUIConfig) (settings : CollectorConfig) (outs : list output) (o : output) : Prop :=
  match o with
  | OResponse r resp =>
      (authorised config r \/ resp = Unauthorized) /\
      (forall p, authorised config r -> us_Body resp = Json (Some p) -> page_ok settings p \/ handshake_error r = Some resp)
  | OUpgraded r conn => authorised config r /\ origin_ok r = true
  | OSent conn m => upgraded outs conn /\ (forall p, m = Page (Some p) -> page_ok settings p)
  end.

Record ui_inv (config : MonitoringUIConfig) (settings : CollectorConfig) (ui : MonitoringUI) : Prop := {
  iv_config : mu_config ui = config;
  iv_settings : cc (metricsCollector ui) = settings;
  iv_collector : collector_ok (metricsCollector ui);
  iv_out : Forall (output_ok config settings (outputs ui)) (outputs ui);
  iv_conn : forall conn, conn ∈ clients ui ∪ readers ui -> upgraded (outputs ui) conn;
}.

Lemma upgraded_app outs o conn : upgraded outs conn -> upgraded (outs ++ o) conn.
Proof. intros [r Hr]. exists r. set_solver. Qed.

Lemma output_ok_app config settings outs o x : output_ok config settings outs x -> output_ok config settings (outs ++ o) x.
Proof. destruct x; cbn; try done. intros [H1 H2]. split; [by apply upgraded_app|done]. Qed.

Section steps.
Context (config : MonitoringUIConfig) (settings : CollectorConfig).
Local Notation inv := (ui_inv config settings).

Lemma out_inv o ui : inv ui -> Forall (output_ok config settings (outputs ui ++ o)) o -> inv (out o ui).
Proof.
  intros [H1 H2 H3 H4 H5] Ho. split; try done.
  - apply Forall_app. split; [|done]. eapply Forall_impl; [done|]. intros x. apply output_ok_app.
  - intros conn Hc. by apply upgraded_app, H5.
Qed.

Lemma set_collector_inv mc ui : inv ui -> collector_ok mc -> cc mc = settings -> inv (set_collector mc ui).
Proof. intros [] ? ?. by split. Qed.

Lemma set_broadcast_inv b ui : inv ui -> inv (set_broadcast b ui).
Proof. intros []. by split. Qed.

Lemma set_conns_inv c rd n ui : inv ui -> (forall conn, conn ∈ c ∪ rd -> upgraded (outputs ui) conn) -> inv (set_conns c rd n ui).
Proof. intros [] ?. by split. Qed.

Lemma ui_GetMetrics_inv asked now pv ui page ui' : inv ui -> ui_GetMetrics proto_String asked now pv ui = (page, ui') ->
  inv ui' /\ (forall p, page = Some p -> page_ok settings p) /\
  outputs ui' = outputs ui /\ clients ui' = clients ui /\ readers ui' = readers ui.
Proof.
  intros Hi. unfold ui_GetMetrics. destruct (GetMetrics _ _ _ _ _) as [pg mc] eqn:E. intros [= <- <-].
  destruct (GetMetrics_ok _ _ _ _ _ _ _ (iv_collector _ _ _ Hi) E) as (H1 & H2 & H3).
  pose proof (iv_settings _ _ _ Hi) as Hs. rewrite Hs in *. split_and!; try done. by apply set_collector_inv.
Qed.

Lemma ui_UpdateMetrics_inv now later ps msg ui : inv ui -> inv (ui_UpdateMetrics typeName now later ps msg ui).
Proof.
  intros Hi. unfold ui_UpdateMetrics. case_match; [|done]. apply set_broadcast_inv.
  destruct (UpdateMetrics_ok typeName (mu_EnableQueryLog (mu_config ui)) now later ps msg _ (iv_collector _ _ _ Hi)) as [H1 H2].
  apply set_collector_inv; [done|done|]. rewrite H2. apply Hi.
Qed.

Lemma upgrade_inv asked now pv write_ok r ui : inv ui -> authorised config r -> origin_ok r = true ->
  inv (upgrade proto_String asked now pv write_ok r ui).
Proof.
  intros Hi Ha Ho. unfold upgrade. pose proof (iv_conn _ _ _ Hi) as Hc.
  set (conn := nextConn ui). set (ui1 := set_conns _ _ _ ui).
  assert (upgraded (outputs ui ++ [OUpgraded r conn]) conn) as Hup by (exists r; set_solver).
  assert (inv (out [OUpgraded r conn] ui1)) as Hi1.
  { destruct Hi as [H1 H2 H3 H4 H5]. split; try done.
    - cbn. apply Forall_app. split; [|by apply Forall_singleton]. eapply Forall_impl; [done|]. intros x. apply output_ok_app.
    - cbn. intros c Hc'. destruct (decide (c = conn)) as [->|]; [done|]. apply upgraded_app, Hc. set_solver. }
  destruct (ui_GetMetrics _ _ _ _ _) as [page ui2] eqn:E.
  destruct (ui_GetMetrics_inv _ _ _ _ _ _ Hi1 E) as (Hi2 & Hp & Hout & Hcl & Hrd).
  pose proof (iv_conn _ _ _ Hi2) as Hc2.
  assert (outputs ui2 = outputs ui ++ [OUpgraded r conn]) as Hout' by done.
  destruct write_ok.
  - apply out_inv; [apply set_conns_inv; [done|]|].
    + intros c Hc'. destruct (decide (c = conn)) as [->|]; [by rewrite Hout'|]. apply Hc2. set_solver.
    + apply Forall_singleton. split; [apply upgraded_app; cbn; by rewrite Hout'|]. by intros p [= ->]; apply Hp.
  - apply set_conns_inv; [done|]. intros c Hc'. apply Hc2. set_solver.
Qed.

Definition body_ok (r : ui_request) (resp : option ui_response) : Prop :=
  forall rsp p, resp = Some rsp -> us_Body rsp = Json (Some p) -> page_ok settings p \/ handshake_error r = Some rsp.

Lemma serve_inv asked now pv write_ok r ui resp ui' : inv ui -> authorised config r ->
  serve asked now pv write_ok r ui = (resp, ui') -> inv ui' /\ body_ok r resp.
Proof.
  intros Hi Ha. unfold serve_mux.
  destruct (negb (bool_decide (cleanPath (ur_Path r) = ur_Path r))); [intros [= <- <-]; split; [done|by intros rsp p [= <-]]|].
  destruct (mux_handler _ _) as [[]|].
  - unfold handleRoot, handleTestQuery. repeat case_match; intros; simplify_eq; (split; [|by intros rsp p [= <-]]); try done.
    by apply ui_UpdateMetrics_inv.
  - unfold handleMetrics. destruct (isOptions r); [intros [= <- <-]; split; [done|by intros rsp p [= <-]]|].
    destruct (ui_GetMetrics _ _ _ _ _) as [page ui2] eqn:E. intros [= <- <-].
    destruct (ui_GetMetrics_inv _ _ _ _ _ _ Hi E) as (Hi2 & Hp & _). split; [done|].
    intros rsp p [= <-] [= ->]. left. by apply Hp.
  - unfold handleWebSocket. destruct (isOptions r); [intros [= <- <-]; split; [done|by intros rsp p [= <-]]|].
    destruct (handshake_error r) as [e|] eqn:He; [intros [= <- <-]; split; [done|]; intros rsp p [= <-] _; by right|].
    destruct (origin_ok r) eqn:Eo; intros [= <- <-]; [split; [by apply upgrade_inv|by intros rsp p [=]]|].
    split; [done|by intros rsp p [= <-]].
  - intros [= <- <-]. split; [done|by intros rsp p [= <-]].
  - intros [= <- <-]. split; [done|by intros rsp p [= <-]].
  - intros [= <- <-]. split; [done|]. intros rsp p [= <-]. unfold handlePrometheus. by case_match.
  - intros [= <- <-]. split; [done|by intros rsp p [= <-]].
Qed.

(** A request without the right credentials gets the response 401, and changes nothing. *)
Lemma auth_refuses asked now pv write_ok r ui : mu_config ui = config -> ~ authorised config r ->
  auth asked now pv write_ok r ui = (Some Unauthorized, ui).
Proof.
  intros Hc Hn. unfold basicAuthMiddleware. rewrite Hc. unfold authorised in Hn.
  rewrite bool_decide_false by tauto. destruct (ur_BasicAuth r) as [[user pass]|]; [|done].
  destruct (Z.eqb_spec (ConstantTimeCompare user (mu_Username config)) 1) as [Hu|]; [|done].
  destruct (Z.eqb_spec (ConstantTimeCompare pass (mu_Password config)) 1) as [Hp|]; [|done].
  apply ConstantTimeCompare_spec in Hu, Hp. subst. tauto.
Qed.

Lemma auth_passes asked now pv write_ok r ui : mu_config ui = config -> authorised config r ->
  auth asked now pv write_ok r ui = serve asked now pv write_ok r ui.
Proof.
  intros Hc Ha. unfold basicAuthMiddleware. rewrite Hc. case_bool_decide; [done|].
  destruct Ha as [|Ha]; [done|]. rewrite Ha.
  by rewrite !(proj2 (Z.eqb_eq _ 1)) by (by apply ConstantTimeCompare_spec).
Qed.

#[global] Instance authorised_dec r : Decision (authorised config r).
Proof. unfold authorised. apply _. Defined.

Lemma next_inv e ui : inv ui -> inv (next e ui).
Proof.
  intros Hi. pose proof (iv_conn _ _ _ Hi) as Hc. pose proof (iv_config _ _ _ Hi) as Hcf.
  destruct e as [asked now pv write_ok r|conn m asked now pv pong_ok page_ok'|now later ps msg s|now|k now|asked now pv failing].
  - cbn [ui_next]. destruct (decide (authorised config r)) as [Ha|Ha].
    + rewrite auth_passes by done. destruct (serve _ _ _ _ _ _) as [[resp|] ui'] eqn:E;
        destruct (serve_inv _ _ _ _ _ _ _ _ Hi Ha E) as [Hi' Hb]; [|done].
      apply out_inv; [done|]. apply Forall_singleton. split; [by left|]. intros p _ Hp. by apply (Hb resp p).
    + rewrite auth_refuses by done. apply out_inv; [done|]. apply Forall_singleton. split; [by right|done].
  - cbn [ui_next]. unfold read_message. case_decide; [|done].
    assert (inv (set_conns (clients ui ∖ {[conn]}) (readers ui ∖ {[conn]}) (nextConn ui) ui)) as Hstop
      by (apply set_conns_inv; [done|]; intros c ?; apply Hc; set_solver).
    assert (upgraded (outputs ui) conn) as Hup by (apply Hc; set_solver).
    destruct m; [|done|done]. destruct pong_ok; [|done].
    assert (inv (out [OSent conn Pong] ui)) as Hi1
      by (apply out_inv; [done|]; apply Forall_singleton; split; [by apply upgraded_app|done]).
    destruct (ui_GetMetrics _ _ _ _ _) as [page ui2] eqn:E.
    destruct (ui_GetMetrics_inv _ _ _ _ _ _ Hi1 E) as (Hi2 & Hp & Hout & _). destruct page_ok'; [|done].
    apply out_inv; [done|]. apply Forall_singleton. split; [rewrite Hout; by do 2 apply upgraded_app|].
    intros p [= ->]. by apply Hp.
  - cbn [ui_next]. case_match; [|done].
    destruct (update_section_ok typeName (mu_EnableQueryLog (mu_config ui)) now later ps msg s _ (iv_collector _ _ _ Hi)) as [H1 H2].
    apply set_collector_inv; [done|done|]. rewrite H2. apply Hi.
  - cbn [ui_next]. case_match; [by apply set_broadcast_inv|done].
  - by apply set_broadcast_inv.
  - cbn [ui_next]. destruct (spawned (broadcast ui)); [done|]. unfold broadcastMetrics.
    match goal with |- context [ui_GetMetrics _ _ _ _ (set_broadcast ?b ui)] =>
      pose proof (set_broadcast_inv b ui Hi) as Hi1; destruct (ui_GetMetrics _ _ _ _ (set_broadcast b ui)) as [page ui2] eqn:E end.
    destruct (ui_GetMetrics_inv _ _ _ _ _ _ Hi1 E) as (Hi2 & Hp & Hout & Hcl & Hrd).
    pose proof (iv_conn _ _ _ Hi2) as Hc2.
    apply set_conns_inv.
    + apply out_inv; [done|]. apply Forall_fmap, Forall_forall. intros c Hin. apply elem_of_elements in Hin.
      split; [apply upgraded_app, Hc2; set_solver|]. intros p [= ->]. by apply Hp.
    + intros c Hin. apply upgraded_app, Hc2. cbn in Hin. set_solver.
Qed.

Lemma run_inv es ui : inv ui -> inv (run es ui).
Proof. revert ui. induction es as [|e es IH]; intros ui Hi; [done|]. by apply IH, next_inv. Qed.
End steps.

Definition settings_of (now : Time) (config : MonitoringUIConfig) : CollectorConfig :=
  cc (NewMetricsCollector now (mu_MaxQueryLogEntries config) (mu_MaxMemoryMB config) (mu_PrivacyLevel config)
        (mu_PrometheusEnabled config)).

Lemma NewMonitoringUI_inv now config ui : NewMonitoringUI now config = Some ui -> ui_inv config (settings_of now config) ui.
Proof.
  unfold NewMonitoringUI. destruct (Start_patterns _ _); [|done]. cbn [mbind option_bind]. intros [= <-].
  split; cbn; try done. apply NewMetricsCollector_ok.
Qed.

(** The descriptions that an output carries. *)
Definition shows (o : output) (p : MetricsPage) : Prop :=
  match o with
  | OResponse r resp => us_Body resp = Json (Some p)
  | OUpgraded _ _ => False
  | OSent _ m => m = Page (Some p)
  end.

Lemma shown_ok config settings ui o p :
  (forall r resp, handshake_error r = Some resp -> us_Body resp <> Json (Some p)) ->
  ui_inv config settings ui -> o ∈ outputs ui -> shows o p -> page_ok settings p.
Proof.
  intros He Hi Ho Hs. pose proof (proj1 (Forall_forall _ _) (iv_out _ _ _ Hi) o Ho) as H.
  destruct o as [r resp|r conn|conn m]; cbn in *; [|done|by apply H].
  destruct H as [[Ha| ->] Hp]; [|done]. destruct (Hp p Ha Hs) as [|Hh]; [done|]. by destruct (He _ _ Hh).
Qed.

(** The header Origin names the scheme and the host that the request was made to, and nothing
    else. *)
Definition same_origin (r : ui_request) : Prop :=
  exists u, url_Parse (header_Get (str "Origin") r) = Some u /\
    ou_Scheme u = requestScheme unicode_lower r /\
    ou_Host u <> [] /\ EqualFold unicode_equal_fold (ou_Host u) (ur_Host r) = true /\
    ou_User u = false /\ ou_Path u = [] /\ ou_RawQuery u = [] /\ ou_Fragment u = [].

Lemma CheckOrigin_spec r : origin_ok r = true <-> header_Get (str "Origin") r = [] \/ same_origin r.
Proof.
  unfold CheckOrigin, same_origin. case_bool_decide as Ho; [tauto|].
  destruct (url_Parse _) as [u|]; [|split; [done|]; by intros [?|(u & ? & _)]].
  set (c := _ || _). assert (c = false <-> ou_Host u <> [] /\ ou_User u = false /\ ou_Path u = [] /\ ou_RawQuery u = [] /\
    ou_Fragment u = []) as Hc.
  { unfold c. rewrite !orb_false_iff, !negb_false_iff, !bool_decide_eq_true, bool_decide_eq_false. tauto. }
  destruct c; [split; [done|]; intros [?|(u' & [= <-] & ?)]; [done|]; discriminate (proj2 Hc ltac:(tauto))|].
  rewrite andb_true_iff, bool_decide_eq_true. pose proof (proj1 Hc eq_refl) as Hc'. split.
  - intros [H1 H2]. right. exists u. tauto.
  - intros [?|(u' & [= <-] & ?)]; [done|]. tauto.
Qed.

Lemma requestScheme_spec r :
  (requestScheme unicode_lower r = str "http" \/ requestScheme unicode_lower r = str "https") /\
  (header_Get (str "X-Forwarded-Proto") r = [] -> requestScheme unicode_lower r = if ur_TLS r then str "https" else str "http").
Proof.
  unfold requestScheme. split.
  - repeat case_bool_decide; auto. destruct (ur_TLS r); auto.
  - intros ->. done.
Qed.

(** C29: access to the monitoring page.  Whatever requests, messages, queries and timers there are, in any order: a
    response other than 401 goes to a request with the configured user name and password (or no user
    name is configured); a request without them changes nothing; a WebSocket connection is
    accepted from such a request only, and only if the request has no header Origin, as programs other than browsers make it,
    or one that names the host that the request was made to, with the same scheme: HTTPS if the
    connection is encrypted, HTTP otherwise, unless a header X-Forwarded-Proto says which.  A handshake
    that satisfies this is accepted, any other one is not.  Updates are sent on accepted connections only. *)
Theorem monitoring_access now config ui es : NewMonitoringUI now config = Some ui ->
  (forall r resp, OResponse r resp ∈ outputs (run es ui) -> authorised config r \/ resp = Unauthorized) /\
  (forall r conn, OUpgraded r conn ∈ outputs (run es ui) ->
     authorised config r /\ (header_Get (str "Origin") r = [] \/ same_origin r)) /\
  (forall r, (requestScheme unicode_lower r = str "http" \/ requestScheme unicode_lower r = str "https") /\
     (header_Get (str "X-Forwarded-Proto") r = [] ->
      requestScheme unicode_lower r = if ur_TLS r then str "https" else str "http")) /\
  (forall conn m, OSent conn m ∈ outputs (run es ui) -> exists r, OUpgraded r conn ∈ outputs (run es ui)) /\
  (forall asked later pv write_ok r, ~ authorised config r ->
     auth asked later pv write_ok r (run es ui) = (Some Unauthorized, run es ui)) /\
  (forall asked later pv write_ok r, isOptions r = false -> handshake_error r = None ->
     (websocket asked later pv write_ok r (run es ui)).1 = None <-> header_Get (str "Origin") r = [] \/ same_origin r).
Proof.
  intros Hn. pose proof (run_inv _ _ es _ (NewMonitoringUI_inv now config ui Hn)) as Hi.
  pose proof (proj1 (Forall_forall _ _) (iv_out _ _ _ Hi)) as H.
  split; [|split; [|split; [|split; [|split]]]].
  - intros r resp Ho. apply (H _ Ho).
  - intros r conn Ho. rewrite <-CheckOrigin_spec. apply (H _ Ho).
  - apply requestScheme_spec.
  - intros conn m Ho. apply (H _ Ho).
  - intros. eapply auth_refuses; [apply Hi|done].
  - intros asked later pv write_ok r Hopt Hhs. unfold handleWebSocket. rewrite Hopt, Hhs, <-CheckOrigin_spec.
    destruct (origin_ok r); done.
Qed.

(** Privacy of the monitoring page.  With a level of privacy of 1 or more, no description that is ever sent has the
    address of a client; with a level of 2 or more, none has a query or the name of a domain.
    The responses to broken handshakes, of the websocket package, are no descriptions. *)
Theorem monitoring_privacy now config ui es o p : NewMonitoringUI now config = Some ui ->
  (forall r resp, handshake_error r = Some resp -> us_Body resp <> Json (Some p)) ->
  o ∈ outputs (run es ui) -> shows o p ->
  (1 <= mu_PrivacyLevel config -> Forall anonymous (pg_recent_queries p)) /\
  (2 <= mu_PrivacyLevel config -> pg_recent_queries p = [] /\ pg_top_domains p = []).
Proof.
  intros Hn He Ho Hs. pose proof (run_inv _ _ es _ (NewMonitoringUI_inv now config ui Hn)) as Hi.
  by destruct (shown_ok _ _ _ _ _ He Hi Ho Hs) as (_ & _ & _ & H1 & H2).
Qed.

Definition default_limit (n d : Z) : Z := if n <=? 0 then d else n.

(** C30: limits of the monitoring page.  Whatever happens, the log has at most the configured number of entries (100 by
    default), its memory is counted right and within the limit (unless one entry alone
    exceeds it), at most 1000 names are counted, and a description shows at most 20 of them. *)
Theorem monitoring_limits now config ui es : NewMonitoringUI now config = Some ui ->
  let mc := metricsCollector (run es ui) in
  let log := recentQueries (query_log mc) in
  len log <= default_limit (mu_MaxQueryLogEntries config) 100 /\
  currentMemoryBytes (query_log mc) = log_size log /\
  (log_size log <= int64 (default_limit (mu_MaxMemoryMB config) 1 * 1024 * 1024) \/ len log <= 1) /\
  (size (topDomains mc) <= 1000)%nat /\
  (forall asked later pv page mc', GetMetrics proto_String asked later pv mc = (Some page, mc') ->
     len (pg_recent_queries page) <= default_limit (mu_MaxQueryLogEntries config) 100 /\
     len (pg_top_domains page) <= 20 /\ len (pg_query_types page) <= 10).
Proof.
  intros Hn mc log. pose proof (run_inv _ _ es _ (NewMonitoringUI_inv now config ui Hn)) as Hi.
  pose proof (iv_collector _ _ _ Hi) as Hok. pose proof (iv_settings _ _ _ Hi) as Hs.
  destruct (ok_log _ Hok) as (H1 & H2 & H3). rewrite Hs in H2, H3.
  split_and!; [exact H2|exact H1|rewrite H1 in H3; exact H3|apply Hok|].
  intros asked later pv page mc' E. destruct (GetMetrics_ok _ _ _ _ _ _ _ Hok E) as (_ & _ & Hp).
  rewrite Hs in Hp. destruct (Hp page eq_refl) as (? & ? & ? & _). done.
Qed.
End server.

(** ** The rate of updates *)

Definition clock_ok (t : Time) : Prop := 0 <= t < 2 ^ 62.

(** A wait for an update ends at most [broadcastMinDelay] after the last one. *)
Definition broadcast_ok (b : Broadcast) : Prop :=
  clock_ok (lastBroadcast b) /\ (pendingBroadcast b = true -> lastBroadcast b + broadcastMinDelay ∈ timers b).

Lemma scheduleBroadcast_ok now b : clock_ok now -> broadcast_ok b -> broadcast_ok (scheduleBroadcast now b).
Proof.
  unfold broadcast_ok, scheduleBroadcast, clock_ok. intros Hn [Hl Hp].
  rewrite time_sub_exact by (unfold min_int64, max_int64; lia).
  destruct (broadcastMinDelay <=? _) eqn:E; [done|]. destruct (pendingBroadcast b) eqn:Ep; [by split; [|intros _; apply Hp]|].
  split; [done|]. cbn. intros _. apply elem_of_app. right. apply list_elem_of_singleton. lia.
Qed.

Lemma timer_fires_ok k now b : clock_ok now -> broadcast_ok b -> broadcast_ok (timer_fires k now b).
Proof.
  unfold broadcast_ok, timer_fires. intros Hn [Hl Hp]. destruct (timers b !! k); [|done]. case_match; [|done].
  by destruct (pendingBroadcast b).
Qed.

(** Updates are scheduled and timers fire in any order. *)
Inductive broadcast_step : Broadcast -> Broadcast -> Prop :=
  | StepSchedule now b : clock_ok now -> broadcast_step b (scheduleBroadcast now b)
  | StepTimer k now b : clock_ok now -> broadcast_step b (timer_fires k now b)
  | StepSend b n : spawned b = S n ->
      broadcast_step b {| lastBroadcast := lastBroadcast b; pendingBroadcast := pendingBroadcast b;
                          timers := timers b; spawned := n |}.

Lemma broadcast_step_ok b b' : broadcast_step b b' -> broadcast_ok b -> broadcast_ok b'.
Proof. destruct 1; [by apply scheduleBroadcast_ok|by apply timer_fires_ok|done]. Qed.

Lemma broadcast_reachable_ok b b' : rtc broadcast_step b b' -> broadcast_ok b -> broadcast_ok b'.
Proof. induction 1; eauto using broadcast_step_ok. Qed.

Definition no_broadcast : Broadcast := {| lastBroadcast := zero_time; pendingBroadcast := false; timers := []; spawned := 0 |}.

(** Updates are sent.  In every reachable state, scheduling an update starts a broadcast or leaves one pending;
    while one is pending, a timer that ends 100 ms after the last broadcast is waiting, and
    starts one when it fires; and a pending update is never forgotten: it stays pending
    until a broadcast is started. *)
Theorem updates_are_sent b : rtc broadcast_step no_broadcast b ->
  (forall now, clock_ok now -> spawned (scheduleBroadcast now b) = S (spawned b) \/ pendingBroadcast (scheduleBroadcast now b) = true) /\
  (pendingBroadcast b = true -> exists k, timers b !! k = Some (lastBroadcast b + broadcastMinDelay) /\
     forall now, lastBroadcast b + broadcastMinDelay <= now -> spawned (timer_fires k now b) = S (spawned b)) /\
  (forall b', broadcast_step b b' -> pendingBroadcast b = true -> pendingBroadcast b' = false -> spawned b' = S (spawned b)).
Proof.
  intros Hr. destruct (broadcast_reachable_ok _ _ Hr) as [Hl Hp]; [by split; [split; vm_compute|]|].
  split_and!.
  - intros now _. unfold scheduleBroadcast. case_match; [by left|]. right. by destruct (pendingBroadcast b) eqn:?.
  - intros Hpend. apply Hp in Hpend as Hin. apply list_elem_of_lookup in Hin as [k Hk]. exists k. split; [done|].
    intros now Hnow. unfold timer_fires. rewrite Hk, Hpend, (proj2 (Z.leb_le _ _)) by done. done.
  - intros b' Hs Hpend Hn. destruct Hs as [now b _|k now b _|b n Hn'].
    + unfold scheduleBroadcast in *. case_match; [done|]. rewrite Hpend in *. congruence.
    + unfold timer_fires in *. destruct (timers b !! k); [|congruence]. case_match; [|congruence]. by rewrite Hpend in *.
    + cbn in Hn. congruence.
Qed.

(** A timer that is left over from a broadcast that was pending when another one was sent
    can send an update too early: two broadcasts, one millisecond apart. *)
Example updates_too_fast :
  exists b b', rtc broadcast_step no_broadcast b /\ broadcast_step b b' /\
    spawned b' = S (spawned b) /\ lastBroadcast b' - lastBroadcast b = Millisecond.
Proof.
  set (ms := fun n => n * Millisecond).
  set (b1 := scheduleBroadcast (ms 1000) no_broadcast).
  set (b2 := scheduleBroadcast (ms 1050) b1).
  set (b3 := scheduleBroadcast (ms 1100) b2).
  set (b4 := scheduleBroadcast (ms 1101) b3).
  exists b4, (timer_fires 0 (ms 1101) b4).
  split; [|split; [by constructor; vm_compute|split; vm_compute; reflexivity]].
  eapply rtc_l; [by apply (StepSchedule (ms 1000)); vm_compute|]. eapply rtc_l; [by apply (StepSchedule (ms 1050)); vm_compute|].
  eapply rtc_l; [by apply (StepSchedule (ms 1100)); vm_compute|]. eapply rtc_l; [by apply (StepSchedule (ms 1101)); vm_compute|].
  apply rtc_refl.
Qed.

(** ** Examples *)

Definition ex_config : MonitoringUIConfig :=
  {| mu_Enabled := true; mu_Username := str "admin"; mu_Password := str "secret"; mu_EnableQueryLog := true;
     mu_PrivacyLevel := 1; mu_MaxQueryLogEntries := 2; mu_MaxMemoryMB := 0; mu_PrometheusEnabled := true;
     mu_PrometheusPath := [] |}.

Definition ex_view : ProxyView :=
  {| pv_serversInfo := NewServersInfo; pv_cache := true; pv_cacheSize := 4096; pv_cacheMaxTTL := 86400; pv_cacheMinTTL := 2400;
     pv_cacheNegMaxTTL := 600; pv_cacheNegMinTTL := 60; pv_cachedResponses := Some (0, 4096); pv_sources := [];
     pv_Stat := fun _ => Err (str "no such file") |}.

Definition ex_ui_request (path : bytes) (auth : option (bytes * bytes)) : ui_request :=
  {| ur_Method := str "GET"; ur_Path := path; ur_Query := []; ur_Header := []; ur_TLS := false;
     ur_Host := str "127.0.0.1:8080"; ur_BasicAuth := auth |}.

Definition ex_admin : option (bytes * bytes) := Some (str "admin", str "secret").

Definition ex_events : list ui_event :=
  let t n := (1000 + n) * Second in
  let query n := (fun s => ESection (t n) (t n) (test_state (t n)) None s) <$> [SCounters; SInvalidate; SDomains; SLog] in
  query 0 ++ query 1 ++ query 2 ++
  [ERequest (t 2) (t 2) ex_view true (ex_ui_request (str "/api/metrics") None);
   ERequest (t 2) (t 2) ex_view true (ex_ui_request (str "/api/metrics") ex_admin);
   ERequest (t 3) (t 3) ex_view true (ex_ui_request (str "/api/ws") ex_admin);
   ESchedule (t 4); EBroadcast (t 5) (t 5) ex_view ∅].

Local Notation ex_server := (NewMonitoringUI (1000 * Second) ex_config).

Local Notation ex_ui_run := (ui_run (fun _ => str "DoH") (fun _ => None) (fun _ => []) (str "amd64") (str "linux")
  (str "go1.26") (str "2.1.15") (fun _ => None) (fun _ => None) (fun s => s) (fun _ _ => false)).

(** What the events send: a refusal, a description, a connection, two updates. *)
Example ex_outputs :
  option_map (fun ui => match outputs (ex_ui_run ex_events ui) with
                        | [OResponse _ r1; OResponse _ {| us_Body := Json (Some p) |}; OUpgraded _ 0%nat; OSent 0%nat (Page _); OSent 0%nat (Page _)] =>
                            (us_Status r1, len (pg_recent_queries p), le_ClientIP <$> pg_recent_queries p, pg_top_domains p)
                        | _ => (0, 0, [], [])
                        end) ex_server
  = Some (401, 2, [str "anonymized"; str "anonymized"], [(str "test.example.com", 3)]).
Proof. vm_compute. reflexivity. Qed.

(** A configured path that is taken already stops the program. *)
Example prometheus_path_taken now :
  NewMonitoringUI now
    {| mu_Enabled := true; mu_Username := []; mu_Password := []; mu_EnableQueryLog := false; mu_PrivacyLevel := 2;
       mu_MaxQueryLogEntries := 0; mu_MaxMemoryMB := 0; mu_PrometheusEnabled := true; mu_PrometheusPath := str "/" |} = None.
Proof. reflexivity. Qed.

Lemma monitoring_access_witness :
  exists ui, ex_server = Some ui /\ outputs (ex_ui_run ex_events ui) <> [] /\
    forall conn m, OSent conn m ∈ outputs (ex_ui_run ex_events ui) -> exists r, OUpgraded r conn ∈ outputs (ex_ui_run ex_events ui).
Proof.
  destruct ex_server as [ui|] eqn:E; [|vm_compute in E; discriminate E]. exists ui. split_and!; [reflexivity| |].
  - vm_compute in E. injection E as <-. vm_compute. discriminate.
  - apply (monitoring_access _ _ _ _ _ _ _ _ _ _ _ (1000 * Second) ex_config ui ex_events E).
Defined.

Definition json_page (o : output) : option MetricsPage :=
  match o with
  | OResponse _ resp => match us_Body resp with Json p => p | _ => None end
  | _ => None
  end.

Local Notation ex_page := (ui ← ex_server; o ← outputs (ex_ui_run ex_events ui) !! 1%nat; json_page o).

Lemma ex_page_shown : is_Some ex_page.
Proof. vm_compute. by eexists. Qed.

Lemma ex_page_output p : ex_page = Some p ->
  exists ui o, ex_server = Some ui /\ o ∈ outputs (ex_ui_run ex_events ui) /\ json_page o = Some p.
Proof.
  intros Hp. apply bind_Some in Hp as (ui & E & Hp). apply bind_Some in Hp as (o & Eo & Hp).
  apply list_elem_of_lookup_2 in Eo. by exists ui, o.
Qed.

Lemma monitoring_privacy_witness :
  exists p, ex_page = Some p /\ Forall anonymous (pg_recent_queries p).
Proof.
  destruct ex_page_shown as [p Hp]. exists p. split; [exact Hp|]. apply ex_page_output in Hp as (ui & o & E & Eo & Hp).
  assert (shows o p) as Hs.
  { unfold json_page in Hp. destruct o as [r [st hd b]|r c|c m]; try discriminate Hp.
    cbn [us_Body] in Hp. destruct b; try discriminate Hp. unfold shows. cbn [us_Body]. by rewrite Hp. }
  refine (proj1 (monitoring_privacy (fun _ => str "DoH") (fun _ => None) (fun _ => []) (str "amd64") (str "linux")
    (str "go1.26") (str "2.1.15") (fun _ => None) (fun _ => None) (fun s => s) (fun _ _ => false)
    (1000 * Second) ex_config ui ex_events o p E _ Eo Hs) _); [by intros|discriminate].
Defined.

Lemma monitoring_limits_witness : exists ui, ex_server = Some ui /\ len (recentQueries (query_log (metricsCollector (ex_ui_run ex_events ui)))) <= 2.
Proof.
  destruct ex_server as [ui|] eqn:E; [|vm_compute in E; discriminate E]. exists ui. split; [reflexivity|].
  exact (proj1 (monitoring_limits _ _ _ _ _ _ _ _ _ _ _ (1000 * Second) ex_config ui ex_events E)).
Defined.

Lemma updates_are_sent_witness :
  exists b k, rtc broadcast_step no_broadcast b /\ pendingBroadcast b = true /\ timers b !! k = Some (1100 * Millisecond).
Proof.
  set (b := scheduleBroadcast (1050 * Millisecond) (scheduleBroadcast (1000 * Millisecond) no_broadcast)).
  assert (rtc broadcast_step no_broadcast b) as Hr.
  { eapply rtc_l; [by apply (StepSchedule (1000 * Millisecond)); vm_compute|].
    eapply rtc_l; [by apply (StepSchedule (1050 * Millisecond)); vm_compute|apply rtc_refl]. }
  destruct (proj1 (proj2 (updates_are_sent b Hr)) eq_refl) as (k & Hk & _).
  exists b, k. split_and!; [exact Hr|reflexivity|exact Hk].
Defined.
