(* ===== verification/PrometheusProps.v ===== *)
(** * Properties of the exposition

    The text of the exposition has the lines that were meant, whatever the names of the
    servers in it, as long as these have no line ends. *)

From stdpp Require Import sorting.
From S2P Require Import Prelude GoStrings GoFloat NetIP NetIPProps Common Crypto Dns Metrics ServerTypes Mds Servers Plugins RuleLog Url.
From S2P Require Import Clients XTransport Sources Observability Monitoring Prometheus.

(** No line end. *)
Definition one_line (s : bytes) : Prop := 10 ∉ s.

#[global] Instance one_line_dec s : Decision (one_line s).
Proof. unfold one_line. apply _. Defined.

Lemma one_line_app s t : one_line s -> one_line t -> one_line (s ++ t).
Proof. unfold one_line. set_solver. Qed.

Lemma one_line_digits s : Forall (fun c => 48 <= c <= 57) s -> one_line s.
Proof. intros H Hin. apply (proj1 (Forall_forall _ _) H) in Hin. lia. Qed.

Lemma one_line_itoa n : one_line (itoa n).
Proof. apply one_line_digits, itoa_digits. Qed.

Lemma one_line_decimal n : one_line (decimal n).
Proof. apply one_line_digits, itoa_fuel_digits. constructor. Qed.

(** Closed strings, by computation. *)
Ltac closed_line := apply (bool_decide_unpack _); vm_compute; exact I.

Lemma one_line_fmt_d n : one_line (fmt_d n).
Proof. unfold fmt_d. case_match; [apply (one_line_app [45]); [closed_line|]|]; apply one_line_itoa. Qed.

Lemma one_line_fixed_point d n : one_line (fixed_point d n).
Proof.
  unfold fixed_point, zero_padded. destruct d; [apply one_line_decimal|].
  apply one_line_app; [apply one_line_decimal|]. apply one_line_app; [closed_line|].
  apply one_line_app; [|apply one_line_decimal]. apply one_line_digits, Forall_replicate. lia.
Qed.

Lemma one_line_fmt_f d x : one_line (fmt_f d x).
Proof.
  unfold fmt_f. destruct (Prim2SF x) as [neg|neg| |neg m e]; [|destruct neg; closed_line|closed_line|];
    (apply one_line_app; [destruct neg; closed_line|apply one_line_fixed_point]).
Qed.

Lemma one_line_bool b : one_line (boolGauge b).
Proof. destruct b; closed_line. Qed.
Lemma one_line_fmt_t b : one_line (fmt_t b).
Proof. destruct b; closed_line. Qed.

Lemma one_line_label v : one_line (promEscapeLabel v).
Proof. apply label_escaped. Qed.

Lemma one_line_bind (s : bytes) f : (forall c, c ∈ s -> one_line (f c)) -> one_line (s ≫= f).
Proof. intros H Hin. apply list_elem_of_bind in Hin as (c & Hc & Hs). by apply (H c Hs). Qed.

Lemma one_line_escape_server s : one_line s -> one_line (escape_server s).
Proof.
  intros Hs. unfold escape_server, replace_byte.
  assert (forall c by_ s, one_line by_ -> one_line s -> one_line (s ≫= fun x => if x =? c then by_ else [x])) as Hr.
  { intros c by_ t Hb Ht. apply one_line_bind. intros x Hx. case_match; [done|].
    intros Hin%list_elem_of_singleton. by subst. }
  apply Hr; [closed_line|]. apply Hr; [closed_line|done].
Qed.

Create HintDb one_line discriminated.
#[export] Hint Resolve one_line_fmt_d one_line_fmt_f one_line_bool one_line_fmt_t one_line_label one_line_escape_server : one_line.
#[export] Hint Extern 1 (one_line (str _)) => closed_line : one_line.

(** ** Lines *)

Definition line_ok (l : prom_line) : Prop := one_line (line_text l).

Lemma joined_ok sep l : one_line sep -> Forall one_line l -> one_line (joined sep l).
Proof.
  intros Hs Hl. destruct Hl as [|x l Hx Hl]; [closed_line|]. cbn. apply one_line_app; [done|].
  induction Hl; cbn; [closed_line|]. repeat apply one_line_app; done.
Qed.

Lemma Sample_ok name labels v : one_line name -> Forall (fun l => one_line l.1 /\ one_line l.2) labels -> one_line v ->
  line_ok (Sample name labels v).
Proof.
  intros Hn Hl Hv. unfold line_ok, line_text. destruct labels as [|l labels].
  - repeat (apply one_line_app; [done || closed_line|]); done || closed_line.
  - apply one_line_app; [done|]. apply one_line_app; [closed_line|]. apply one_line_app; [|apply one_line_app; [closed_line|done]].
    apply joined_ok; [closed_line|]. apply Forall_fmap. eapply Forall_impl; [done|].
    intros x [H1 H2]. cbn. unfold label_text. apply one_line_app; [done|]. apply one_line_app; [closed_line|].
    apply one_line_app; [done|closed_line].
Qed.

Lemma Help_ok name text : one_line name -> one_line text -> line_ok (Help name text).
Proof. intros. unfold line_ok, line_text. repeat (apply one_line_app; [done || closed_line|]); done || closed_line. Qed.
Lemma Type_ok name typ : one_line name -> one_line typ -> line_ok (Type_ name typ).
Proof. intros. unfold line_ok, line_text. repeat (apply one_line_app; [done || closed_line|]); done || closed_line. Qed.

Lemma header_ok name typ help : one_line name -> one_line typ -> one_line help -> Forall line_ok (promWriteHeader name typ help).
Proof. intros. unfold promWriteHeader. eauto using Forall_cons_2, Forall_nil_2, Help_ok, Type_ok. Qed.

Lemma simple_metric_ok name typ help v : one_line name -> one_line typ -> one_line help -> one_line v ->
  Forall line_ok (simple_metric name typ help v).
Proof.
  intros. unfold simple_metric. apply Forall_app. split; [by apply header_ok|].
  apply Forall_singleton, Sample_ok; [done|constructor|done].
Qed.

Ltac lines :=
  repeat first
    [ apply Forall_app_2 | apply header_ok | apply simple_metric_ok | apply Forall_nil_2 | apply Forall_cons_2
    | apply Sample_ok | split; [closed_line|cbn [fst snd]] | solve [auto with one_line] ].

Lemma scheduler_headers_ok : Forall line_ok scheduler_headers.
Proof. unfold scheduler_headers. lines. Qed.

Lemma row_samples_ok r : Forall line_ok (row_samples r).
Proof.
  assert (forall s q ms, one_line s -> one_line q -> Forall line_ok (writeQuantile s q ms)) as Hq.
  { intros s q [ms|] Hs Hq; cbn [writeQuantile]; lines; done. }
  unfold row_samples. cbn zeta. repeat (apply Forall_app_2; [apply Hq; auto with one_line|]). lines.
Qed.

Lemma append_ok now si : Forall line_ok (appendResolverSchedulerMetrics now si).
Proof.
  unfold appendResolverSchedulerMetrics. cbn zeta. apply Forall_app_2; [apply scheduler_headers_ok|]. lines.
  apply Forall_forall. intros l Hl. apply list_elem_of_bind in Hl as (r & Hl & _).
  apply (proj1 (Forall_forall _ _) (row_samples_ok r) l Hl).
Qed.

Lemma expose_Split ls : Forall line_ok ls -> Split (expose ls) 10 = (line_text <$> ls) ++ [[]].
Proof.
  unfold expose. intros H. induction H as [|l ls Hl H IH]; [done|]. cbn [mbind list_bind fmap list_fmap app].
  rewrite <-app_assoc. cbn [app]. rewrite Split_app by done. f_equal. exact IH.
Qed.

Lemma unescape_server s : unescape_label (escape_server s) = s \/ 10 ∈ s.
Proof.
  unfold escape_server, replace_byte. induction s as [|x s IH]; [by left|].
  destruct IH as [IH|]; [|right; set_solver]. destruct (decide (x = 10)) as [->|Hx]; [right; set_solver|left].
  cbn [mbind list_bind]. rewrite bind_app. destruct (Z.eqb_spec x 92) as [->|H92]; [cbn; by rewrite IH|].
  cbn. destruct (Z.eqb_spec x 34) as [->|H34]; cbn; [by rewrite IH|]. by rewrite (proj2 (Z.eqb_neq x 92)), IH.
Qed.

Section exposition.
Context (GOARCH GOOS goversion AppVersion : bytes).

Lemma server_metrics_ok st : (forall s, is_Some (serverQueryCount st !! s) -> one_line s) -> Forall line_ok (server_metrics st).
Proof.
  intros Hs. assert (forall s n, (s, n) ∈ map_to_list (serverQueryCount st) -> one_line (escape_server s)) as Hl.
  { intros s n Hin. apply elem_of_map_to_list in Hin. apply one_line_escape_server, Hs. by eexists. }
  unfold server_metrics. apply Forall_app_2; [lines|]. apply Forall_app_2.
  { apply Forall_fmap, Forall_forall. intros [s n] Hin. specialize (Hl s n Hin). unfold compose. cbn beta iota. lines. }
  apply Forall_app_2; [lines|]. apply Forall_forall. intros l Hin. apply list_elem_of_bind in Hin as ([s n] & Hin & Hsn).
  specialize (Hl s n Hsn). case_match; [|set_solver]. apply list_elem_of_singleton in Hin as ->. lines.
Qed.

Lemma prometheus_lines_ok now si mc :
  Forall one_line [GOARCH; GOOS; goversion; AppVersion] ->
  (forall s, is_Some (serverQueryCount (server_times mc) !! s) -> one_line s) ->
  (forall t, is_Some (queryTypes mc !! t) -> one_line t) ->
  Forall line_ok (prometheus_lines GOARCH GOOS goversion AppVersion now si mc).
Proof.
  intros Hb Hs Ht. repeat apply Forall_cons in Hb as [? Hb]. unfold prometheus_lines. cbn zeta.
  repeat match goal with
  | |- Forall _ (server_metrics _ ++ _) => apply Forall_app_2; [by apply server_metrics_ok|]
  | |- Forall _ (appendResolverSchedulerMetrics _ _ ++ _) => apply Forall_app_2; [apply append_ok|]
  | |- Forall _ ((_ <$> _) ++ _) => apply Forall_app_2
  | |- Forall _ (_ ++ _) => apply Forall_app_2; [solve [lines; done]|]
  end; [|solve [lines]].
  apply Forall_fmap, Forall_forall. intros [t n] Hin. apply elem_of_map_to_list in Hin.
  assert (one_line t) by (apply Ht; by eexists). unfold compose. cbn beta iota. lines.
Qed.

(** The exposition cannot be forged.  If the names of the servers that have answered have no line end, the lines
    of the text are exactly the lines that were meant, and the labels read back as the names, whatever
    quotes and backslashes the names have. *)
Theorem exposition_lines now si mc :
  Forall one_line [GOARCH; GOOS; goversion; AppVersion] ->
  (forall s, is_Some (serverQueryCount (server_times mc) !! s) -> one_line s) ->
  (forall t, is_Some (queryTypes mc !! t) -> one_line t) ->
  prometheusEnabled (cc mc) = true ->
  Split (generatePrometheusMetrics GOARCH GOOS goversion AppVersion now si mc) 10
    = (line_text <$> prometheus_lines GOARCH GOOS goversion AppVersion now si mc) ++ [[]] /\
  (forall s n, serverQueryCount (server_times mc) !! s = Some n ->
     Sample (str "dnscrypt_proxy_server_queries_total") [(str "server", escape_server s)] (fmt_d n)
       ∈ prometheus_lines GOARCH GOOS goversion AppVersion now si mc /\ unescape_label (escape_server s) = s).
Proof.
  intros Hb Hs Ht He. unfold generatePrometheusMetrics. rewrite He. split.
  - by apply expose_Split, prometheus_lines_ok.
  - intros s n Hsn. split.
    + unfold prometheus_lines. cbn zeta. assert (forall (x : prom_line) l k, x ∈ k -> x ∈ l ++ k) as Hr by (intros; set_solver).
      do 10 apply Hr. apply elem_of_app. left. unfold server_metrics. apply Hr, elem_of_app. left.
      apply list_elem_of_fmap. exists (s, n). split; [done|by apply elem_of_map_to_list].
    + destruct (unescape_server s) as [|Hin]; [done|]. assert (one_line s) by (apply Hs; by eexists). done.
Qed.
End exposition.

(** ** Examples *)

Definition ex_counts (server : bytes) : MetricsCollector :=
  set_server_times {| serverResponseTime := {[server := 40]}; serverQueryCount := {[server := 2]} |}
    (NewMetricsCollector 0 0 0 0 true).

(** A name with a line end makes a line of its own. *)
Example forged_line :
  let server := str "a" ++ [10] ++ str "dnscrypt_proxy_queries_total 9" in
  str "dnscrypt_proxy_queries_total 9" ++ [34] ++ str "} 2"
    ∈ Split (generatePrometheusMetrics [] [] [] [] 0 NewServersInfo (ex_counts server)) 10.
Proof. apply (bool_decide_unpack _). vm_compute. exact I. Qed.

Lemma exposition_lines_witness :
  let name := str "a" ++ [34; 92] ++ str "b" in
  Sample (str "dnscrypt_proxy_server_queries_total") [(str "server", escape_server name)] (fmt_d 2)
    ∈ prometheus_lines [] [] [] [] 0 NewServersInfo (ex_counts name).
Proof.
  intros name. refine (proj1 (proj2 (exposition_lines [] [] [] [] 0 NewServersInfo (ex_counts name) _ _ _ _) name 2 _)).
  - repeat apply Forall_cons_2; try apply Forall_nil_2; apply (bool_decide_unpack _); vm_compute; exact I.
  - intros s [n Hn]. cbn [ex_counts set_server_times server_times serverQueryCount] in Hn. apply lookup_singleton_Some in Hn as [<- _]. apply (bool_decide_unpack _). vm_compute. exact I.
  - intros t [n Hn]. cbn in Hn. rewrite lookup_empty in Hn. discriminate Hn.
  - reflexivity.
  - cbn [ex_counts set_server_times server_times serverQueryCount]. apply lookup_singleton_Some. split; reflexivity.
Defined.
