(* ===== verification/Probe.v ===== *)
(** * Probes of servers (src/dnscrypt-proxy/dnsutils.go)

    [DNSExchange]: the exchange of an unencrypted query, directly or through a relay, with
    up to six attempts at once, of which the first that succeeds counts.  The attempts
    are made in the order in which they end, which the environment chooses; after a
    success, an attempt may have been sent already or is canceled. *)

From S2P Require Import Prelude GoStrings GoFloat NetIP Common Crypto CryptoProps Dns DnsUtils DnsUtilsProps.
From S2P Require Import Metrics ServerTypes Mds Servers Plugins Feedback Query UdpPool Exchange Clients Url XTransport.

(** ** The environment *)

(** [udp_transact] is a dial, a deadline, a write and a read on a new socket, which all
    lead to an error in the same way; [tcp_transact] a dial, a deadline and a write, with the reads
    that follow, the error of the last one, and the time to the first one. *)
Class ProbeEnv (E : Type) := {
  udp_transact : SockAddr -> bytes -> E -> result exchange_error (bytes * Duration) * E;
  tcp_transact : SockAddr -> bytes -> E -> result exchange_error (list read_outcome * exchange_error * Duration) * E;
  arrivals : nat -> E -> list nat * E;
  was_sent : nat -> E -> bool * E;
  (** [rand.Intn] of the length of a list, random numbers, a shuffled list. *)
  pick : E -> (nat -> nat) * E;
  draws : nat -> E -> list Z * E;
  shuffled : forall A, list A -> E -> list A * E;
}.

Record probe := { pb_proto : proto; pb_addr : SockAddr; pb_payload : bytes }.

(** The HTTP transport with its own environment, the environment of the probes, and the
    packets that have been sent. *)
Record FWorld {S E : Type} := { fx : XWorld S; fenv : E; sent : list probe }.
Arguments FWorld : clear implicits.

Definition F (S E A : Type) : Type := FWorld S E -> A * FWorld S E.

Definition fbind {S E A B} (m : F S E A) (k : A -> F S E B) : F S E B := fun w => let '(a, w) := m w in k a w.
Definition fret {S E A} (a : A) : F S E A := fun w => (a, w).

(** Errors that are returned at once. *)
Definition ftry {S E A B} (m : F S E (result exchange_error A)) (k : A -> F S E (result exchange_error B))
    : F S E (result exchange_error B) :=
  fbind m (fun r => match r with Ok a => k a | Err e => fret (Err e) end).

Declare Scope probe_scope.
Delimit Scope probe_scope with probe.
Open Scope probe_scope.
Notation "x <~ m ;; k" := (fbind m (fun x => k)) (at level 100, m at next level, right associativity) : probe_scope.
Notation "' p <~ m ;; k" := (fbind m (fun x => match x with p => k end))
  (at level 100, p pattern, m at next level, right associativity) : probe_scope.
Notation "x <~? m ;; k" := (ftry m (fun x => k)) (at level 100, m at next level, right associativity) : probe_scope.
Notation "' p <~? m ;; k" := (ftry m (fun x => match x with p => k end))
  (at level 100, p pattern, m at next level, right associativity) : probe_scope.

Section probes.
Context {S E : Type} `{PE : !ProbeEnv E} `{D : DnsLib}.

Definition on_fenv {A} (f : E -> A * E) : F S E A := fun w =>
  let '(a, e) := f (fenv w) in (a, {| fx := fx w; fenv := e; sent := sent w |}).
Definition on_fx {A} (m : X S A) : F S E A := fun w =>
  let '(a, x) := m (fx w) in (a, {| fx := x; fenv := fenv w; sent := sent w |}).
Definition log_sent (p : proto) (addr : SockAddr) (payload : bytes) : F S E unit := fun w =>
  (tt, {| fx := fx w; fenv := fenv w; sent := sent w ++ [{| pb_proto := p; pb_addr := addr; pb_payload := payload |}] |}).

(** ** One attempt *)

Definition certProbePaddedLen : Z := 3200.
Definition certProbeFragmentsBlockedLen : Z := 480.

Definition packDNSExchangeQuery (query : Msg) (paddedLen : Z) (viaRelay : bool) : option bytes :=
  if paddedLen <=? 0 then Pack query
  else
    let paddedLen := if viaRelay then paddedLen - anonymizedDNSHeaderSize else paddedLen in
    if paddedLen <=? 0 then None
    else
      let with_padding p :=
        let q := set_Pseudo (Pseudo query ++ [PS_PADDING p]) query in
        if UDPSize (MH q) =? 0 then set_header (set_EDNS (uint16 MaxDNSPacketSize) (Security (MH q))) q else q in
      data ← Pack (with_padding []);
      let padding := paddedLen - len data in
      if padding >? 0 then Pack (with_padding (repeat_bytes (str "00") padding)) else Some data.

(** [net.ResolveUDPAddr] and [net.ResolveTCPAddr]. *)
Context (ResolveAddr : proto -> bytes -> option SockAddr).
(** The addresses of a relay: UDP and TCP. *)
Implicit Types relay : option (SockAddr * SockAddr).

Definition lift {A} (o : option A) : F S E (result exchange_error A) :=
  fret (match o with Some a => Ok a | None => Err OtherError end).

(** What is sent, and where. *)
Definition upstream (p : proto) (server : SockAddr) relay (binQuery : bytes) : SockAddr * bytes :=
  match relay with
  | Some (relayUDP, relayTCP) =>
      (match p with udp => relayUDP | tcp => relayTCP end, prepareForRelay (addr_IP server) (addr_Port server) binQuery)
  | None => (server, binQuery)
  end.

Definition exchange_udp (query : Msg) (serverAddress : bytes) relay (paddedLen : Z)
    : F S E (result exchange_error (bytes * Duration)) :=
  binQuery <~? lift (packDNSExchangeQuery query paddedLen (bool_decide (is_Some relay))) ;;
  udpAddr <~? lift (ResolveAddr udp serverAddress) ;;
  let '(upstreamAddr, binQuery) := upstream udp udpAddr relay binQuery in
  _ <~ log_sent udp upstreamAddr binQuery ;;
  '(packet, rtt) <~? on_fenv (udp_transact upstreamAddr binQuery) ;;
  fret (Ok (take (Z.to_nat MaxDNSPacketSize) packet, rtt)).

Definition exchange_tcp (query : Msg) (serverAddress : bytes) relay : F S E (result exchange_error (bytes * Duration)) :=
  binQuery <~? lift (match relay with None => Pack query | Some _ => packDNSExchangeQuery query certProbePaddedLen false end) ;;
  tcpAddr <~? lift (ResolveAddr tcp serverAddress) ;;
  let '(upstreamAddr, binQuery) := upstream tcp tcpAddr relay binQuery in
  framed <~? lift (match PrefixWithSize binQuery with Ok b => Some b | Err _ => None end) ;;
  _ <~ log_sent tcp upstreamAddr framed ;;
  '(reads, readErr, rtt) <~? on_fenv (tcp_transact upstreamAddr framed) ;;
  match ReadPrefixed reads with
  | Ok packet => fret (Ok (packet, rtt))
  | Err ReadError => fret (Err readErr)
  | Err _ => fret (Err OtherError)
  end.

Definition _dnsExchange (p : proto) (query : Msg) (serverAddress : bytes) relay (paddedLen : Z)
    : F S E (result exchange_error (Msg * Duration)) :=
  '(packet, rtt) <~? match p with
                     | udp => exchange_udp query serverAddress relay paddedLen
                     | tcp => exchange_tcp query serverAddress relay
                     end ;;
  msg <~? lift (Unpack packet) ;;
  match validateResponseForQuery (Some query) (Some msg) with
  | Some _ => fret (Err OtherError)
  | None => fret (Ok (msg, rtt))
  end.

(** ** The attempts *)

(** The lengths the queries are padded to, and what a success tells about fragments. *)
Definition options (tryFragmentsSupport : bool) : list (Z * bool) :=
  concat (replicate 3 (if tryFragmentsSupport
                       then [(certProbePaddedLen, false); (certProbeFragmentsBlockedLen, true)]
                       else [(certProbeFragmentsBlockedLen, true)])).

(** The copy of the query of the [k]-th attempt. *)
Definition query_copy (k : nat) (query : Msg) : Msg :=
  set_header (fun h => set_ID (uint16 (ID h + Z.of_nat k)) h) query.

Fixpoint attempts_loop (p : proto) (query : Msg) (serverAddress : bytes) relay (opts : list (Z * bool)) (order : list nat)
    (best : option (Msg * Duration * bool)) : F S E (option (Msg * Duration * bool)) :=
  match order with
  | [] => fret best
  | k :: order' =>
      match opts !! k with
      | None => attempts_loop p query serverAddress relay opts order' best
      | Some (paddedLen, fragmentsBlocked) =>
          let attempt := _dnsExchange p (query_copy k query) serverAddress relay paddedLen in
          match best with
          | Some _ =>
              early <~ on_fenv (was_sent k) ;;
              if early then _ <~ attempt ;; attempts_loop p query serverAddress relay opts order' best
              else attempts_loop p query serverAddress relay opts order' best
          | None =>
              r <~ attempt ;;
              attempts_loop p query serverAddress relay opts order'
                (match r with Ok (msg, rtt) => Some (msg, rtt, fragmentsBlocked) | Err _ => None end)
          end
      end
  end.

Definition attempts_round (p : proto) (query : Msg) (serverAddress : bytes) relay (tryFragmentsSupport : bool)
    : F S E (option (Msg * Duration * bool)) :=
  let opts := options tryFragmentsSupport in
  order <~ on_fenv (arrivals (length opts)) ;;
  attempts_loop p query serverAddress relay opts order None.

(** The response, the time it took and whether fragments are blocked.  A failure through a
    relay is followed by a direct attempt if that is allowed. *)
Definition DNSExchange (anonDirectCertFallback : bool) (p : proto) (query : Msg) (serverAddress : bytes) relay
    (tryFragmentsSupport : bool) : F S E (option (Msg * Duration) * bool) :=
  r <~ attempts_round p query serverAddress relay tryFragmentsSupport ;;
  match r with
  | Some (msg, rtt, fragmentsBlocked) => fret (Some (msg, rtt), fragmentsBlocked)
  | None =>
      if bool_decide (is_Some relay) && anonDirectCertFallback then
        r <~ attempts_round p query serverAddress None tryFragmentsSupport ;;
        match r with
        | Some (msg, rtt, fragmentsBlocked) => fret (Some (msg, rtt), fragmentsBlocked)
        | None => fret (None, false)
        end
      else fret (None, false)
  end.
End probes.
