(* ===== verification/FetchServer.v ===== *)
(** * What is asked of servers before they are used (src/dnscrypt-proxy/serversInfo.go)

    [route]: the choice of a relay; [fetchServerInfo]: the certificate of a DNSCrypt
    server, the tests of a DoH server and of an ODoH target; [refresh]: all the servers. *)

From stdpp Require Import sorting.
From S2P Require Import Prelude GoStrings GoFloat NetIP Common Crypto CryptoProps Dns DnsUtils DnsUtilsProps Certs.
From S2P Require Import Metrics ServerTypes Mds Servers Plugins Feedback RuleLog Query UdpPool Exchange Clients Url XTransport Probe.

(** [url.PathEscape]. *)
Definition path_byte (c : Z) : bytes :=
  if unreserved c || (c =? 36) || (c =? 38) || (c =? 43) || (c =? 58) || (c =? 61) || (c =? 64) then [c]
  else [37; upper_hex (c / 16); upper_hex (c mod 16)].
Definition PathEscape (s : bytes) : bytes := s ≫= path_byte.

(** [Fatal]: the program is ended. *)
Inductive fetch_error :=
  | Fatal | UnsupportedProtocol | NoSuchRelay | NoValidRelay | BadAddress | NotAnonymous | CertificateError (e : cert_error)
  | TransportError (e : exchange_error) | LyingResolver | BadResponse | BadCertificateHash | NoODoHConfig | NoODoHRelay.

(** The settings that are used here. *)
Record FetchProxy := {
  routes : option (gmap bytes (list bytes));
  serversBlockingFragments : list bytes;
  skipAnonIncompatibleResolvers : bool;
  cert_proxy : CertProxy;
  fp_timeout : Duration;
}.

Section fetch.
Context {S E : Type} `{HE : !HttpEnv S} `{PE : !ProbeEnv E} `{D : DnsLib} `{P : Primitives}.
Context (ResolveAddr : proto -> bytes -> option SockAddr).
(** The dnsstamps package; [url.Parse]; SHA-256; Ed25519. *)
Context (parse_stamp : bytes -> option ServerStamp) (stamp_String : ServerStamp -> bytes).
Context (parse_url : bytes -> option URL) (Sum256 : bytes -> bytes) (Verify : bytes -> bytes -> bytes -> bool).
(** The configurations of ODoH targets (ODoH.v), as opaque texts. *)
Context (parse_configs : bytes -> option (list bytes)) (encrypt_config : bytes -> bytes -> E -> option ODoHQuery * E).
(** The time, in seconds, and what the random source delivers. *)
Context (cert_now : E -> Z) (cert_rnd : E -> bytes -> bytes).
Context (proxy : FetchProxy).

Local Notation F := (F S E).
Local Notation R := (result fetch_error).

Definition ok {A} (a : A) : F (R A) := fret (Ok a).
Definition fail {A} (e : fetch_error) : F (R A) := fret (Err e).
Definition rtry {A B} (m : F (R A)) (k : A -> F (R B)) : F (R B) :=
  fbind m (fun r => match r with Ok a => k a | Err e => fret (Err e) end).
Local Notation "x <~! m ;; k" := (rtry m (fun x => k)) (at level 100, m at next level, right associativity).
Local Notation "' p <~! m ;; k" := (rtry m (fun x => match x with p => k end))
  (at level 100, p pattern, m at next level, right associativity).
Definition must {A} (e : fetch_error) (o : option A) : F (R A) := match o with Some a => ok a | None => fail e end.

(** ** Relays *)

(** The stamps of the relays, the names they are known by, and whether they came from a
    wildcard. *)
Fixpoint collect_relays (si : ServersInfo) (relayProto : Z) (relayNames : list bytes) (stamps : list ServerStamp)
    (names : gmap bytes bytes) (wildcard : bool) : list ServerStamp * gmap bytes bytes * bool :=
  match relayNames with
  | [] => (stamps, names, wildcard)
  | relayName :: relayNames' =>
      match parse_stamp relayName with
      | Some relayStamp =>
          if st_Proto relayStamp =? relayProto then
            collect_relays si relayProto relayNames' (stamps ++ [relayStamp]) (<[stamp_String relayStamp := relayName]> names) wildcard
          else collect_relays si relayProto relayNames' stamps names wildcard
      | None =>
          if bool_decide (relayName = str "*") then
            let found := filter (fun r => st_Proto (rs_stamp r) = relayProto) (registeredRelays si) in
            (stamps ++ (rs_stamp <$> found),
             foldl (fun names r => <[stamp_String (rs_stamp r) := rs_name r]> names) names found, true)
          else
            match list_find (fun r => rs_name r = relayName /\ st_Proto (rs_stamp r) = relayProto) (registeredRelays si) with
            | Some (_, r) =>
                collect_relays si relayProto relayNames' (stamps ++ [rs_stamp r])
                  (<[stamp_String (rs_stamp r) := relayName]> names) wildcard
            | None => collect_relays si relayProto relayNames' stamps names wildcard
            end
      end
  end.

(** The URL of an ODoH relay for a target. *)
Definition odoh_relay_url (base : URL) (target : ServerStamp) : URL :=
  let qs := ParseQuery (url_RawQuery base) in
  let qs := values_Add (str "targethost") (ProviderName target) qs in
  let qs := values_Add (str "targetpath") (Path target) qs in
  {| url_Host := url_Host base; url_Path := url_Path base; url_RawQuery := values_Encode qs |}.

(** The address of a stamp is used for its host from then on. *)
Definition remember_address (stamp : ServerStamp) : F unit :=
  if len (ServerAddrStr stamp) >? 0 then
    match xParseIP (ExtractHostAndPort (ServerAddrStr stamp) (-1)).1 with
    | Some ip => on_fx (saveCachedIP (ExtractHostAndPort (ProviderName stamp) (-1)).1 ip (-1 * Second))
    | None => fret tt
    end
  else fret tt.

Definition use_relay (si : ServersInfo) (name relayName : bytes) (stamp : ServerStamp) : F (R (option Relay)) :=
  if (st_Proto stamp =? StampProtoTypeDNSCrypt) || (st_Proto stamp =? StampProtoTypeDNSCryptRelay) then
    relayUDPAddr <~! must BadAddress (ResolveAddr udp (ServerAddrStr stamp)) ;;
    relayTCPAddr <~! must BadAddress (ResolveAddr tcp (ServerAddrStr stamp)) ;;
    ok (Some {| r_Proto := StampProtoTypeDNSCryptRelay; r_Dnscrypt := Some (relayUDPAddr, relayTCPAddr); r_ODoH := None;
                r_Name := relayName |})
  else if st_Proto stamp =? StampProtoTypeODoHRelay then
    relayBaseURL <~! must BadAddress (parse_url (str "https://" ++ PathEscape (ProviderName stamp) ++ Path stamp)) ;;
    match list_find (fun s => rs_name s = name /\ st_Proto (rs_stamp s) = StampProtoTypeODoHTarget) (registeredServers si) with
    | None => fail NoSuchRelay
    | Some (_, server) =>
        _ <~ remember_address stamp ;;
        ok (Some {| r_Proto := StampProtoTypeODoHRelay; r_Dnscrypt := None;
                    r_ODoH := Some (odoh_relay_url relayBaseURL (rs_stamp server)); r_Name := relayName |})
    end
  else fail NoValidRelay.

(** The names of the relays of a server, and whether they are those of the wildcard. *)
Definition relay_names (name : bytes) : option (list bytes * bool) :=
  m ← routes proxy;
  match m !! name with
  | Some l => Some (l, false)
  | None => l ← m !! str "*"; Some (l, true)
  end.

Definition route (si : ServersInfo) (name : bytes) (serverProto : Z) : F (R (option Relay)) :=
  match relay_names name with
  | None | Some ([], _) => ok None
  | Some (relayNames, wildcard) =>
      match relayProtoForServerProto serverProto with
      | None => ok None
      | Some relayProto =>
          let '(relayStamps, names, wildcard) := collect_relays si relayProto relayNames [] ∅ wildcard in
          if (length relayStamps =? 0)%nat then fail NoSuchRelay
          else
            choose <~ on_fenv pick ;;
            let candidate := if negb wildcard || (length relayStamps =? 1)%nat then relayStamps !! choose (length relayStamps)
                             else findFarthestRoute choose si name relayStamps in
            stamp <~! must NoValidRelay candidate ;;
            use_relay si name (default [] (names !! stamp_String stamp)) stamp
      end
  end.

(** ** Test queries *)

(** [charset[rand.Intn(len(charset))]], sixteen times. *)
Definition random_label : F bytes := fun w =>
  let '(l, w) := on_fenv (draws 16) w in ((fun k => 97 + k mod 26) <$> l, w).

Definition nx_query (label : bytes) : Msg := NewMsg 51966 (label ++ str ".test.dnscrypt.") TypeNS.

(** A query for the root with random padding, and one for a name that does not exist;
    [None] ends the program. *)
Definition test_packet (label : bytes) (padding : list Z) (root : bool) : Msg :=
  let query := if root then NewMsg 51966 (str ".") TypeNS else nx_query label in
  set_Pseudo [PS_PADDING (hex_EncodeToString ((fun k => k mod 256) <$> padding))]
    (set_header (set_EDNS (uint16 MaxDNSPacketSize) false) query).

Definition dohTestPacket : F (R bytes) :=
  padding <~ on_fenv (draws 16) ;;
  must Fatal (Pack (test_packet [] padding true)).

Definition dohNXTestPacket : F (R (Msg * bytes)) :=
  label <~ random_label ;;
  padding <~ on_fenv (draws 16) ;;
  let query := test_packet label padding false in
  data <~! must Fatal (Pack query) ;; ok (query, data).

Definition plainNXTestPacket : F Msg := label <~ random_label ;; fret (nx_query label).

(** ** DNSCrypt *)

(** A key in the stamp that is text is decoded. *)
Definition stamp_key (pk : bytes) : option bytes :=
  if len pk =? 32 then Some pk
  else
    match hex_DecodeString (filter (fun c => c <> 58) pk) with
    | Some key => if len key =? 32 then Some key else None
    | None => None
    end.

(** The probe of a server that may lie: an address for a name that does not exist. *)
Definition lying_answer (msg : Msg) : bool :=
  existsb (fun rr => (RRToType rr =? TypeA) || (RRToType rr =? TypeAAAA)) (Answer msg)
  || existsb (fun rr => RRToType rr =? TypeTXT) (Extra msg).

(** The exchange of probes with a server. *)
Definition exchange_with (serverAddress : bytes) (p : proto) (query : Msg) (relay : option (SockAddr * SockAddr))
    (tryFragmentsSupport : bool) (w : FWorld S E) : option (Msg * Duration) * bool * FWorld S E :=
  DNSExchange ResolveAddr (anonDirectCertFallback (cert_proxy proxy)) p query serverAddress relay tryFragmentsSupport w.

(** [FetchCurrentDNSCryptCert] with the probes. *)
Definition fetch_cert (p : proto) (key : bytes) (stamp : ServerStamp) (relay : option (SockAddr * SockAddr)) (known : bool)
    : F (result (cert_error * bool) (CertInfo * Z * bool)) :=
  ids <~ on_fenv (draws 1) ;;
  fun w => FetchCurrentDNSCryptCert Verify (cert_proxy proxy) key (cert_now (fenv w)) (cert_rnd (fenv w))
    (exchange_with (ServerAddrStr stamp)) (uint16 (hd 0 ids)) p (ProviderName stamp) relay known w.

Definition dnscrypt_info (name : bytes) (stamp : ServerStamp) (certInfo : CertInfo) (rtt : Z) (udpAddr tcpAddr : SockAddr)
    (relay : option Relay) (fragmentsBlocked : bool) : ServerInfo :=
  {| Name_ := name; Proto := StampProtoTypeDNSCrypt; Props := st_Props stamp; initialRtt := rtt;
     ServerTypes.rtt := ewma.NewMovingAverage RTTEwmaDecay; lastActionTS := zero_time; lastUpdateTime := zero_time;
     lastDecayTS := zero_time; totalQueries := 0; failedQueries := 0; s_Timeout := fp_timeout proxy; useGet := false;
     crypto := {| cs_CryptoConstruction := CryptoConstruction_ certInfo; cs_ServerPk := ServerPk certInfo;
                  cs_SharedKey := SharedKey certInfo; cs_MagicQuery := MagicQuery certInfo;
                  cs_PqPublicKey := default [] (PqPublicKey certInfo); cs_PqCertContext := default [] (PqCertContext certInfo);
                  cs_fragmentsBlocked := fragmentsBlocked; cs_hasRelay := bool_decide (is_Some relay) |};
     endpoint := {| UDPAddr := udpAddr; TCPAddr := tcpAddr; s_URL := no_URL; s_Relay := relay; odohTargetConfigs := [] |} |}.

(** The certificate and the probe, with the relay that was chosen: [mainProto] is that of
    the HTTP transport. *)
Definition fetch_with_relay (mainProto : proto) (name : bytes) (stamp : ServerStamp) (key : bytes) (relay : option Relay)
    : F (R ServerInfo) :=
  let known := bool_decide (name ∈ serversBlockingFragments proxy) in
  let dnscryptRelay := relay ≫= r_Dnscrypt in
  r <~ fetch_cert mainProto key stamp dnscryptRelay known ;;
  let blocked := match r with Ok (_, _, b) => b | Err (_, b) => b end in
  let known := known || blocked in
  let anonymous := bool_decide (is_Some dnscryptRelay) in
  if known && anonymous && skipAnonIncompatibleResolvers proxy then fail NotAnonymous
  else
  let relay := if known && anonymous then None else relay in
  match r with
  | Err (e, _) => fail (CertificateError e)
  | Ok (certInfo, rtt, _) =>
      remoteUDPAddr <~! must BadAddress (ResolveAddr udp (ServerAddrStr stamp)) ;;
      remoteTCPAddr <~! must BadAddress (ResolveAddr tcp (ServerAddrStr stamp)) ;;
      let info := dnscrypt_info name stamp certInfo rtt remoteUDPAddr remoteTCPAddr relay known in
      if bool_decide (CryptoConstruction_ certInfo = XSalsa20Poly1305) then
        query <~ plainNXTestPacket ;;
        probe <~ exchange_with (ServerAddrStr stamp) mainProto query dnscryptRelay false ;;
        match probe with
        | (Some (msg, _), _) => if lying_answer msg then fail LyingResolver else ok info
        | (None, _) => ok info
        end
      else ok info
  end.

Definition fetchDNSCryptServerInfo (mainProto : proto) (si : ServersInfo) (name : bytes) (stamp : ServerStamp) : F (R ServerInfo) :=
  key <~! must Fatal (stamp_key (st_ServerPk stamp)) ;;
  relay <~! route si name (st_Proto stamp) ;;
  fetch_with_relay mainProto name stamp key relay.

(** ** DoH *)

(** One of the hashes of the stamp is that of a certificate of the connection. *)
Definition hash_found (hashes : list bytes) (certs : list bytes) : bool :=
  existsb (fun cert => existsb (fun hash => (len hash =? 32) && bool_decide (Sum256 cert = hash)) hashes) certs.

Definition hashes_ok (hashes : list bytes) (certs : list bytes) : bool :=
  hash_found hashes certs || bool_decide (hashes = []).

(** The last test on the packet: its length, the identifier 0xcafe and one question. *)
Definition expected_packet (b : bytes) : bool :=
  (MinDNSPacketSize <=? len b) && (len b <=? MaxDNSPacketSize)
  && bool_decide (b !! 0%nat = Some 202) && bool_decide (b !! 1%nat = Some 254)
  && bool_decide (b !! 4%nat = Some 0) && bool_decide (b !! 5%nat = Some 1).

(** The response to the query for a name that does not exist. *)
Definition nx_response (query : Msg) (serverResponse : bytes) : R unit :=
  match Unpack serverResponse with
  | None => Err BadResponse
  | Some msg =>
      match validateResponseForQuery (Some query) (Some msg) with
      | Some _ => Err BadResponse
      | None => if Rcode_ (MH msg) =? RcodeNameError then Ok tt else Err LyingResolver
      end
  end.

Definition doh_info (name : bytes) (p : Z) (stamp : ServerStamp) (url : URL) (xrtt : Z) (useGet : bool) (relay : option Relay)
    (configs : list bytes) : ServerInfo :=
  {| Name_ := name; Proto := p; Props := st_Props stamp; initialRtt := xrtt;
     ServerTypes.rtt := ewma.NewMovingAverage RTTEwmaDecay; lastActionTS := zero_time; lastUpdateTime := zero_time;
     lastDecayTS := zero_time; totalQueries := 0; failedQueries := 0; s_Timeout := fp_timeout proxy;
     ServerTypes.useGet := useGet;
     crypto := {| cs_CryptoConstruction := UndefinedConstruction; cs_ServerPk := replicate 32 0; cs_SharedKey := replicate 32 0;
                  cs_MagicQuery := replicate 8 0; cs_PqPublicKey := []; cs_PqCertContext := []; cs_fragmentsBlocked := false;
                  cs_hasRelay := bool_decide (is_Some relay) |};
     endpoint := {| UDPAddr := {| addr_IP := []; addr_Port := 0 |}; TCPAddr := {| addr_IP := []; addr_Port := 0 |};
                    s_URL := url; s_Relay := relay; odohTargetConfigs := configs |} |}.

(** A request that has to succeed, by POST or else by GET. *)
Definition post_or_get (query : bool -> F fetched) : F (R bool) :=
  posted <~ query false ;;
  match f_err posted with
  | None => ok false
  | Some _ =>
      got <~ query true ;;
      match f_err got with None => ok true | Some e => fail (TransportError e) end
  end.

Definition stamp_url (stamp : ServerStamp) : URL :=
  {| url_Host := ProviderName stamp; url_Path := Path stamp; url_RawQuery := [] |}.

Definition fetchDoHServerInfo (name : bytes) (stamp : ServerStamp) : F (R ServerInfo) :=
  _ <~ remember_address stamp ;;
  let url := stamp_url stamp in
  body <~! dohTestPacket ;;
  useGet <~! post_or_get (fun get => on_fx (DoHQuery get url body (fp_timeout proxy))) ;;
  '(queryMsg, data) <~! dohNXTestPacket ;;
  f <~ on_fx (DoHQuery useGet url data (fp_timeout proxy)) ;;
  match f_err f, f_tls f with
  | Some e, _ => fail (TransportError e)
  | None, None => fail BadResponse
  | None, Some tls =>
      if negb (HandshakeComplete tls) then fail BadResponse
      else match nx_response queryMsg (f_body f) with
      | Err e => fail e
      | Ok _ =>
          if negb (hashes_ok (st_Hashes stamp) (PeerCertificates tls)) then fail BadCertificateHash
          else if negb (expected_packet (f_body f)) then fail BadResponse
          else ok (doh_info name StampProtoTypeDoH stamp url (go_div (f_rtt f) 1000000) useGet None [])
      end
  end.

(** ** Oblivious DoH *)

Definition fetchTargetConfigsFromWellKnown (url : URL) : F (R (list bytes)) :=
  f <~ on_fx (Get url (str "application/binary") 0) ;;
  match f_err f with
  | Some e => fail (TransportError e)
  | None =>
      if (f_status f <? 200) || (300 <=? f_status f) then fail NoODoHConfig
      else must NoODoHConfig (parse_configs (f_body f))
  end.

(** The probe of one configuration: [None] to go on with the next one. *)
Definition probe_config (name : bytes) (stamp : ServerStamp) (relay : Relay) (relayURL : URL) (config : bytes)
    : F (option (R ServerInfo)) :=
  let next := fret None in
  body <~ dohTestPacket ;;
  match body with
  | Err e => fret (Some (Err e))
  | Ok body =>
  q <~ on_fenv (encrypt_config config body) ;;
  match q with
  | None => next
  | Some q =>
  sent_ok <~ post_or_get (fun get => on_fx (ObliviousDoHQuery get relayURL (odohMessage q) (fp_timeout proxy))) ;;
  match sent_ok with
  | Err _ => next
  | Ok useGet =>
  nx <~ dohNXTestPacket ;;
  match nx with
  | Err e => fret (Some (Err e))
  | Ok (queryMsg, data) =>
  q <~ on_fenv (encrypt_config config data) ;;
  match q with
  | None => next
  | Some q =>
  f <~ on_fx (ObliviousDoHQuery useGet relayURL (odohMessage q) (fp_timeout proxy)) ;;
  if bool_decide (is_Some (f_err f)) then next
  else if f_status f =? 401 then fret (Some (Err NoODoHConfig))
  else if (f_status f <? 200) || (300 <=? f_status f) then next
  else match decryptResponse q (f_body f) with
  | None => next
  | Some serverResponse =>
      fret (Some (match nx_response queryMsg serverResponse with
      | Err e => Err e
      | Ok _ =>
          if match f_tls f with Some tls => negb (hashes_ok (st_Hashes stamp) (PeerCertificates tls)) | None => false end
          then Err BadCertificateHash
          else if negb (expected_packet serverResponse) then Err BadResponse
          else Ok (doh_info name StampProtoTypeODoHTarget stamp (stamp_url stamp) (go_div (f_rtt f) 1000000) useGet
                     (Some relay) [config])
      end))
  end end end end end end.

Fixpoint probe_configs (name : bytes) (stamp : ServerStamp) (relay : Relay) (relayURL : URL) (configs : list bytes) : F (R ServerInfo) :=
  match configs with
  | [] => fail NoODoHConfig
  | config :: configs' =>
      r <~ probe_config name stamp relay relayURL config ;;
      match r with
      | Some r => fret r
      | None => probe_configs name stamp relay relayURL configs'
      end
  end.

Definition _fetchODoHTargetInfo (si : ServersInfo) (name : bytes) (stamp : ServerStamp) : F (R ServerInfo) :=
  let configURL := {| url_Host := ProviderName stamp; url_Path := str "/.well-known/odohconfigs"; url_RawQuery := [] |} in
  configs <~! fetchTargetConfigsFromWellKnown configURL ;;
  if bool_decide (configs = []) then fail NoODoHConfig
  else
    relay <~! route si name (st_Proto stamp) ;;
    match relay with
    | None => fail NoODoHRelay
    | Some relay =>
        match r_ODoH relay with
        | None => fail NoODoHRelay
        | Some relayURL =>
            delay <~ on_fenv (draws 1) ;;
            _ <~ on_fx (log_event (EvSleep (hd 0 delay mod 5000 * Millisecond))) ;;
            configs <~ on_fenv (shuffled bytes configs) ;;
            probe_configs name stamp relay relayURL configs
        end
    end.

Fixpoint retry {A} (n : nat) (m : F (R A)) : F (R A) :=
  match n with
  | O => m
  | Datatypes.S n' => r <~ m ;; match r with Ok a => ok a | Err _ => retry n' m end
  end.

Definition fetchODoHTargetInfo (si : ServersInfo) (name : bytes) (stamp : ServerStamp) : F (R ServerInfo) :=
  retry 2 (_fetchODoHTargetInfo si name stamp).

(** ** All the servers *)

Definition fetchServerInfo (mainProto : proto) (si : ServersInfo) (name : bytes) (stamp : ServerStamp) : F (R ServerInfo) :=
  if st_Proto stamp =? StampProtoTypeDNSCrypt then fetchDNSCryptServerInfo mainProto si name stamp
  else if st_Proto stamp =? StampProtoTypeDoH then fetchDoHServerInfo name stamp
  else if st_Proto stamp =? StampProtoTypeODoHTarget then fetchODoHTargetInfo si name stamp
  else fail UnsupportedProtocol.

(** The servers are refreshed in the order in which their goroutines take the lock; a
    fetch reads the lists as they are then.  The number of those that are alive. *)
Fixpoint refresh_loop (mainProto : proto) (key : ClientKey) (servers : list RegisteredServer) (si : ServersInfo)
    (live : Z) : F (ServersInfo * Z) :=
  match servers with
  | [] => fret (si, live)
  | server :: servers' =>
      r <~ fetchServerInfo mainProto si (rs_name server) (rs_stamp server) ;;
      rnd <~ on_fenv (draws 32) ;;
      let '(alive, si) := refreshServer key ((fun k => k mod 256) <$> rnd) (rs_name server) (rs_stamp server)
                            (match r with Ok s => Some s | Err _ => None end) si in
      _ <~ (if alive then on_fx (modify (set_internalResolverReady true)) else fret tt) ;;
      refresh_loop mainProto key servers' si (if alive then live + 1 else live)
  end.

Definition rtt_le (a b : ServerInfo) : Prop := initialRtt a <= initialRtt b.
#[global] Instance rtt_le_dec a b : Decision (rtt_le a b).
Proof. unfold rtt_le. apply _. Defined.

(** The number of servers that are alive, and whether there is an error. *)
Definition refresh (mainProto : proto) (key : ClientKey) (si : ServersInfo) : F (ServersInfo * Z * bool) :=
  servers <~ on_fenv (shuffled RegisteredServer (registeredServers si)) ;;
  '(si, live) <~ refresh_loop mainProto key servers si 0 ;;
  fret (set_inner (merge_sort rtt_le (inner si)) si, live, negb (live >? 0) && negb (bool_decide (servers = []))).
End fetch.
