(* ===== verification/FetchServerProps.v ===== *)
(** * Properties of the tests of servers

    A DNSCrypt server with a relay is contacted through that relay only; a DoH server or an ODoH
    target is used only if it has answered a test query rightly, with the pinned
    certificate; responses to probes belong to their queries. *)

From stdpp Require Import sorting.
From S2P Require Import Prelude GoStrings GoFloat NetIP Common Crypto CryptoProps Dns DnsUtils DnsUtilsProps Certs.
From S2P Require Import Metrics ServerTypes Mds Servers Plugins Feedback RuleLog Query UdpPool Exchange Clients Url XTransport Probe.
From S2P Require Import FetchServer XTransportProps.

Section props.
Context {S E : Type} `{HE : !HttpEnv S} `{PE : !ProbeEnv E} `{D : DnsLib} `{P : Primitives}.
Context (ResolveAddr : proto -> bytes -> option SockAddr).
Implicit Types w : FWorld S E.

(** ** What is sent *)

(** All that [m] sends satisfies [Q]. *)
Definition sends {A} (Q : probe -> Prop) (m : F S E A) : Prop :=
  forall w a w', m w = (a, w') -> exists l, sent w' = sent w ++ l /\ Forall Q l.

Lemma sends_nothing {A} Q (m : F S E A) : (forall w, sent (m w).2 = sent w) -> sends Q m.
Proof. intros H w a w' Hm. exists []. specialize (H w). rewrite Hm in H. cbn in H. by rewrite H, app_nil_r. Qed.

Lemma sends_ret {A} Q (a : A) : sends Q (fret a : F S E A).
Proof. by apply sends_nothing. Qed.

Lemma sends_env {A} Q (f : E -> A * E) : sends Q (on_fenv f : F S E A).
Proof. apply sends_nothing. intros w. unfold on_fenv. by destruct (f (fenv w)). Qed.

Lemma sends_x {A} Q (m : X S A) : sends Q (on_fx m : F S E A).
Proof. apply sends_nothing. intros w. unfold on_fx. by destruct (m (fx w)). Qed.

Lemma sends_bind {A B} Q (m : F S E A) (k : A -> F S E B) : sends Q m -> (forall a, sends Q (k a)) -> sends Q (fbind m k).
Proof.
  intros Hm Hk w b w' Hb. unfold fbind in Hb. destruct (m w) as [a w1] eqn:E1.
  destruct (Hm _ _ _ E1) as (l1 & H1 & F1). destruct (Hk a _ _ _ Hb) as (l2 & H2 & F2).
  exists (l1 ++ l2). rewrite H2, H1, app_assoc. split; [done|by apply Forall_app].
Qed.

Lemma sends_try {A B} Q (m : F S E (result exchange_error A)) (k : A -> F S E (result exchange_error B)) :
  sends Q m -> (forall a, sends Q (k a)) -> sends Q (ftry m k).
Proof. intros Hm Hk. apply sends_bind; [done|]. intros [a|e]; [apply Hk|apply sends_ret]. Qed.

Lemma sends_rtry {A B} Q (m : F S E (result fetch_error A)) (k : A -> F S E (result fetch_error B)) :
  sends Q m -> (forall a, sends Q (k a)) -> sends Q (rtry m k).
Proof. intros Hm Hk. apply sends_bind; [done|]. intros [a|e]; [apply Hk|apply sends_ret]. Qed.

Lemma sends_must {A} Q e (o : option A) : sends Q (must e o : F S E (result fetch_error A)).
Proof. destruct o; apply sends_ret. Qed.

Lemma sends_impl {A} (Q Q' : probe -> Prop) (m : F S E A) : (forall x, Q x -> Q' x) -> sends Q m -> sends Q' m.
Proof. intros HQ Hm w a w' H. destruct (Hm _ _ _ H) as (l & H1 & H2). exists l. split; [done|]. by eapply Forall_impl. Qed.

(** A query of the form of a relay, for the server at the address. *)
Definition through (server : bytes) (relay : SockAddr * SockAddr) (pb : probe) : Prop :=
  pb_addr pb = (match pb_proto pb with udp => relay.1 | tcp => relay.2 end) /\
  exists addr q, ResolveAddr (pb_proto pb) server = Some addr /\
    match pb_proto pb with
    | udp => pb_payload pb = prepareForRelay (addr_IP addr) (addr_Port addr) q
    | tcp => PrefixWithSize (prepareForRelay (addr_IP addr) (addr_Port addr) q) = Ok (pb_payload pb)
    end.

(** A query sent to the server itself. *)
Definition direct (server : bytes) (pb : probe) : Prop := ResolveAddr (pb_proto pb) server = Some (pb_addr pb).

Definition sent_to (server : bytes) (relay : option (SockAddr * SockAddr)) (pb : probe) : Prop :=
  match relay with Some r => through server r pb | None => direct server pb end.

Lemma ftry_lift {A B} (o : option A) (k : A -> F S E (result exchange_error B)) w :
  ftry (lift o) k w = match o with Some a => k a w | None => (Err OtherError, w) end.
Proof. by destruct o. Qed.

Lemma sends_lift {A B} Q (o : option A) (k : A -> F S E (result exchange_error B)) :
  (forall a, o = Some a -> sends Q (k a)) -> sends Q (ftry (lift o) k).
Proof.
  intros Hk w b w' H. rewrite ftry_lift in H. destruct o as [a|]; [by apply (Hk a eq_refl w b)|].
  by apply (sends_ret Q (Err OtherError) w b).
Qed.

Lemma sends_log p server addr relay binQuery framed : ResolveAddr p server = Some addr ->
  (match p with udp => (upstream p addr relay binQuery).2 = framed
              | tcp => PrefixWithSize (upstream p addr relay binQuery).2 = Ok framed end) ->
  sends (sent_to server relay) (log_sent p (upstream p addr relay binQuery).1 framed : F S E unit).
Proof.
  intros Hr Hf w [] w' [= <-]. eexists. split; [reflexivity|]. apply Forall_singleton.
  destruct relay as [[ru rt]|]; cbn; [|by unfold direct].
  unfold through. cbn. split; [by destruct p|]. exists addr, binQuery. split; [done|]. by destruct p.
Qed.

Lemma sends_exchange p query server relay n :
  sends (sent_to server relay) (_dnsExchange ResolveAddr p query server relay n : F S E _).
Proof.
  unfold _dnsExchange. apply sends_try.
  - destruct p; unfold exchange_udp, exchange_tcp.
    + apply sends_lift. intros bin _. apply sends_lift. intros addr Ha.
      pose proof (sends_log udp server addr relay bin _ Ha eq_refl) as Hs.
      destruct (upstream udp addr relay bin) as [up payload]. apply sends_bind; [exact Hs|]. intros _.
      apply sends_try; [apply sends_env|]. intros [packet rtt]. apply sends_ret.
    + apply sends_lift. intros bin _. apply sends_lift. intros addr Ha.
      pose proof (sends_log tcp server addr relay bin) as Hs.
      destruct (upstream tcp addr relay bin) as [up payload]. apply sends_lift. intros framed Hf.
      apply sends_bind; [apply Hs; [done|]; cbn; by destruct (PrefixWithSize payload); simplify_eq|]. intros _.
      apply sends_try; [apply sends_env|]. intros [[reads err] rtt]. destruct (ReadPrefixed reads) as [|[]]; apply sends_ret.
  - intros [packet rtt]. apply sends_try; [apply sends_ret|]. intros msg. case_match; apply sends_ret.
Qed.

Lemma sends_attempts p query server relay opts order best :
  sends (sent_to server relay) (attempts_loop ResolveAddr p query server relay opts order best : F S E _).
Proof.
  revert best. induction order as [|k order IH]; intros best; cbn [attempts_loop]; [apply sends_ret|].
  destruct (opts !! k) as [[n fb]|]; [|apply IH]. destruct best as [b|].
  - apply sends_bind; [apply sends_env|]. intros []; [|apply IH].
    apply sends_bind; [apply sends_exchange|intros _; apply IH].
  - apply sends_bind; [apply sends_exchange|]. intros r. apply IH.
Qed.

Lemma sends_round p query server relay try :
  sends (sent_to server relay) (attempts_round ResolveAddr p query server relay try : F S E _).
Proof. apply sends_bind; [apply sends_env|]. intros order. apply sends_attempts. Qed.

(** With a relay, all the packets go through it, unless direct attempts are allowed. *)
Lemma sends_DNSExchange fallback p query server relay try :
  sends (fun pb => sent_to server relay pb \/ fallback = true /\ direct server pb)
    (DNSExchange ResolveAddr fallback p query server relay try : F S E _).
Proof.
  unfold DNSExchange. apply sends_bind; [eapply sends_impl; [|apply sends_round]; by left|].
  intros [[[msg rtt] fb]|]; [apply sends_ret|].
  destruct (bool_decide (is_Some relay) && fallback) eqn:Ef; [|apply sends_ret]. apply andb_true_iff in Ef as [_ ->].
  apply sends_bind; [eapply sends_impl; [|apply sends_round]; by right|].
  intros [[[msg rtt] fb]|]; apply sends_ret.
Qed.

(** ** Responses *)

Lemma exchange_validated p query server relay n w msg rtt w' :
  (_dnsExchange ResolveAddr p query server relay n : F S E _) w = (Ok (msg, rtt), w') ->
  validateResponseForQuery (Some query) (Some msg) = None.
Proof.
  unfold _dnsExchange, ftry, fbind.
  match goal with |- context [let '(a, w) := ?m w in _] => destruct (m w) as [[[packet rtt']|e] w1] end; [|done].
  unfold lift, fret. destruct (Unpack packet) as [m|]; [|done].
  case_match eqn:Ev; [done|]. by intros [= <- <- <-].
Qed.

Lemma attempts_validated p query server relay opts order best w r w' :
  (forall msg rtt fb, best = Some (msg, rtt, fb) -> exists k, validateResponseForQuery (Some (query_copy k query)) (Some msg) = None) ->
  (attempts_loop ResolveAddr p query server relay opts order best : F S E _) w = (r, w') ->
  forall msg rtt fb, r = Some (msg, rtt, fb) -> exists k, validateResponseForQuery (Some (query_copy k query)) (Some msg) = None.
Proof.
  revert best w. induction order as [|k order IH]; intros best w Hb; cbn [attempts_loop]; [by intros [= <- <-]|].
  destruct (opts !! k) as [[n fb]|]; [|by apply IH]. destruct best as [b|].
  - unfold fbind. destruct (on_fenv (was_sent k) w) as [[] w1]; [|by apply IH].
    match goal with |- context [let '(a, w) := ?m w1 in _] => destruct (m w1) as [x w2] end. by apply IH.
  - unfold fbind at 1. match goal with |- context [let '(a, w) := ?m w in _] => destruct (m w) as [x w2] eqn:Ex end.
    apply IH. intros msg rtt fb' Hx. destruct x as [[m rt]|e]; simplify_eq. exists k. by eapply exchange_validated.
Qed.

Lemma DNSExchange_validated fallback p query server relay try w msg rtt fb w' :
  (DNSExchange ResolveAddr fallback p query server relay try : F S E _) w = (Some (msg, rtt), fb, w') ->
  exists k, validateResponseForQuery (Some (query_copy k query)) (Some msg) = None.
Proof.
  unfold DNSExchange, attempts_round, fbind, fret.
  destruct (on_fenv (arrivals (length (options try))) w) as [order w1].
  destruct (attempts_loop _ _ _ _ _ _ _ _ w1) as [[[[m r] f]|] w2] eqn:E1.
  { intros [= <- <- <- <-]. by eapply attempts_validated; [|exact E1|reflexivity]. }
  destruct (_ && _); [|done]. destruct (on_fenv (arrivals (length (options try))) w2) as [order2 w3].
  destruct (attempts_loop _ _ _ _ _ _ _ _ w3) as [[[[m r] f]|] w4] eqn:E2; [|done].
  intros [= <- <- <- <-]. by eapply attempts_validated; [|exact E2|reflexivity].
Qed.

(** ** Relays *)

Context (parse_stamp : bytes -> option ServerStamp) (stamp_String : ServerStamp -> bytes).
Context (parse_url : bytes -> option URL) (Verify : bytes -> bytes -> bytes -> bool).
Context (cert_now : E -> Z) (cert_rnd : E -> bytes -> bytes).
Context (proxy : FetchProxy).

(** The relays that a list of names stands for. *)
Definition allowed_relay (si : ServersInfo) (relayProto : Z) (names : list bytes) (stamp : ServerStamp) : Prop :=
  st_Proto stamp = relayProto /\
  ((exists n, n ∈ names /\ parse_stamp n = Some stamp) \/
   (exists r, r ∈ registeredRelays si /\ rs_stamp r = stamp /\ (rs_name r ∈ names \/ str "*" ∈ names))).

Lemma collect_relays_allowed si relayProto all names stamps m wc stamps' m' wc' : names ⊆ all ->
  Forall (allowed_relay si relayProto all) stamps ->
  collect_relays parse_stamp stamp_String si relayProto names stamps m wc = (stamps', m', wc') ->
  Forall (allowed_relay si relayProto all) stamps'.
Proof.
  revert stamps m wc. induction names as [|n names IH]; intros stamps m wc Hsub Hall; cbn [collect_relays]; [by intros [= <- <- <-]|].
  assert (n ∈ all /\ names ⊆ all) as [Hn Hsub'] by set_solver.
  destruct (parse_stamp n) as [st|] eqn:Ep.
  - case_match eqn:Epr; [|by apply IH]. apply IH; [done|]. apply Forall_app. split; [done|].
    apply Forall_singleton. bools. split; [done|]. left. by exists n.
  - case_bool_decide as Hstar.
    + intros [= <- <- <-]. apply Forall_app. split; [done|]. apply Forall_fmap, Forall_forall. intros r Hr.
      apply list_elem_of_filter in Hr as [Hp Hr]. split; [done|]. right. exists r. subst n. tauto.
    + destruct (list_find _ _) as [[i r]|] eqn:Ef; [|by apply IH].
      apply list_find_Some in Ef as (Hr & [Hname Hp] & _). apply IH; [done|]. apply Forall_app. split; [done|].
      apply Forall_singleton. split; [done|]. right. exists r. apply list_elem_of_lookup_2 in Hr. subst n. tauto.
Qed.

Lemma findFarthestRoute_elem choose si name l s : findFarthestRoute choose si name l = Some s -> s ∈ l.
Proof.
  unfold findFarthestRoute. intros Hs. apply bind_Some in Hs as (server & _ & Hs).
  destruct (_ =? StampProtoTypeODoHTarget).
  - destruct (_ =? 0)%nat; [done|]. apply bind_Some in Hs as (i & _ & Hs). by eapply list_elem_of_lookup_2.
  - destruct (negb _); [done|]. destruct (ExtractHostAndPort _ _). apply bind_Some in Hs as (addr & _ & Hs).
    destruct (_ =? 0)%nat; [done|]. destruct (farthest_loop _ _ _ _ _). destruct (_ =? 0)%nat; [done|].
    apply bind_Some in Hs as (i & _ & Hs). by eapply list_elem_of_lookup_2.
Qed.

Local Notation route' := (route ResolveAddr parse_stamp stamp_String parse_url proxy).

(** A relay for a DNSCrypt server is one of those that are allowed, and there is one. *)
Lemma route_dnscrypt si name names wc w r w' : relay_names proxy name = Some (names, wc) -> names <> [] ->
  route' si name StampProtoTypeDNSCrypt w = (Ok r, w') ->
  exists relay stamp udpAddr tcpAddr, r = Some relay /\ allowed_relay si StampProtoTypeDNSCryptRelay names stamp /\
    r_Dnscrypt relay = Some (udpAddr, tcpAddr) /\
    ResolveAddr udp (ServerAddrStr stamp) = Some udpAddr /\ ResolveAddr tcp (ServerAddrStr stamp) = Some tcpAddr.
Proof.
  intros Hn Hne. unfold route. rewrite Hn. destruct names as [|n names]; [done|].
  change (relayProtoForServerProto StampProtoTypeDNSCrypt) with (Some StampProtoTypeDNSCryptRelay). cbn [fst snd].
  destruct (collect_relays _ _ _ _ _ _ _ _) as [[stamps m] wc'] eqn:Ec.
  pose proof (collect_relays_allowed si _ (n :: names) (n :: names) [] ∅ wc _ _ _ ltac:(set_solver) (Forall_nil_2 _) Ec) as Hall.
  case_match; [done|]. unfold fbind. destruct (on_fenv pick w) as [choose w1].
  match goal with |- context [must NoValidRelay ?c] => destruct c as [st|] eqn:Est end; [|done].
  assert (allowed_relay si StampProtoTypeDNSCryptRelay (n :: names) st) as Hst.
  { apply (proj1 (Forall_forall _ _) Hall). destruct (_ || _) in Est.
    - by eapply list_elem_of_lookup_2.
    - by eapply findFarthestRoute_elem. }
  clear Est. unfold rtry, fbind, must, ok, fret, use_relay.
  destruct Hst as [Hp Hst]. rewrite Hp. change (StampProtoTypeDNSCryptRelay =? StampProtoTypeDNSCrypt) with false.
  change (StampProtoTypeDNSCryptRelay =? StampProtoTypeDNSCryptRelay) with true. cbn [orb].
  unfold rtry, fbind, must, ok, fret, fail.
  destruct (ResolveAddr udp (ServerAddrStr st)) as [ua|] eqn:Eu; [|done].
  destruct (ResolveAddr tcp (ServerAddrStr st)) as [ta|] eqn:Et; [|done].
  intros [= <- <-]. eexists _, st, ua, ta. by split_and!.
Qed.

Lemma sends_remember Q stamp : sends Q (remember_address stamp : F S E unit).
Proof. unfold remember_address. case_match; [|apply sends_ret]. case_match; [apply sends_x|apply sends_ret]. Qed.

Lemma sends_route Q si name p : sends Q (route' si name p).
Proof.
  unfold route. destruct (relay_names proxy name) as [[[|n names] wc]|]; try apply sends_ret.
  destruct (relayProtoForServerProto p) as [rp|]; [|apply sends_ret].
  destruct (collect_relays _ _ _ _ _ _ _ _) as [[stamps m] wc']. case_match; [apply sends_ret|].
  apply sends_bind; [apply sends_env|]. intros choose. apply sends_rtry; [apply sends_must|]. intros st.
  unfold use_relay. destruct (_ || _); [|destruct (_ =? StampProtoTypeODoHRelay); [|apply sends_ret]].
  - apply sends_rtry; [apply sends_must|]. intros ua. apply sends_rtry; [apply sends_must|]. intros ta. apply sends_ret.
  - apply sends_rtry; [apply sends_must|]. intros base. destruct (list_find _ _) as [[i server]|]; [|apply sends_ret].
    apply sends_bind; [apply sends_remember|]. intros _. apply sends_ret.
Qed.

(** ** DNSCrypt servers *)

Local Notation exchange' := (exchange_with ResolveAddr proxy).
Local Notation fetch_cert' := (fetch_cert ResolveAddr Verify cert_now cert_rnd proxy).
Local Notation fetchDNSCrypt := (fetchDNSCryptServerInfo ResolveAddr parse_stamp stamp_String parse_url Verify cert_now cert_rnd proxy).

Section no_fallback.
Hypothesis no_fallback : anonDirectCertFallback (cert_proxy proxy) = false.

Lemma sends_exchange_with server p query relay try : sends (sent_to server relay) (exchange' server p query relay try : F S E _).
Proof.
  unfold exchange_with. rewrite no_fallback. eapply sends_impl; [|apply sends_DNSExchange]. by intros pb [|[? _]].
Qed.

Lemma sends_fetch_cert p key stamp relay known :
  sends (sent_to (ServerAddrStr stamp) relay) (fetch_cert' p key stamp relay known : F S E _).
Proof.
  unfold fetch_cert. apply sends_bind; [apply sends_env|]. intros ids w r w'.
  unfold FetchCurrentDNSCryptCert. destruct (negb _); [intros [= <- <-]; exists []; by rewrite app_nil_r|].
  cbv zeta. rewrite no_fallback. cbn [negb]. set (query := NewMsg _ _ _). clearbody query.
  match goal with |- context [exchange' _ p query ?rl _ w] => replace rl with relay by (by destruct (negb _)) end.
  destruct (exchange' (ServerAddrStr stamp) p query relay (negb known) w) as [[[[m rtt]|] fb] w1] eqn:E1;
    destruct (sends_exchange_with _ _ _ _ _ _ _ _ E1) as (l1 & H1 & F1); [|intros [= <- <-]; by exists l1].
  destruct (_ && _).
  - destruct (exchange' (ServerAddrStr stamp) tcp query relay false w1) as [[[[m2 rtt2]|] fb2] w2] eqn:E2;
      destruct (sends_exchange_with _ _ _ _ _ _ _ _ E2) as (l2 & H2 & F2);
      (case_bool_decide; intros [= <- <-]; exists (l1 ++ l2); rewrite H2, H1, app_assoc; (split; [done|by apply Forall_app])).
  - case_bool_decide; intros [= <- <-]; by exists l1.
Qed.


Local Notation with_relay := (fetch_with_relay ResolveAddr Verify cert_now cert_rnd proxy).

Lemma sends_label Q : sends Q (random_label : F S E bytes).
Proof. apply sends_nothing. intros w. unfold random_label, on_fenv. by destruct (draws 16 (fenv w)). Qed.

Lemma sends_with_relay mainProto name stamp key relay :
  sends (sent_to (ServerAddrStr stamp) (relay ≫= r_Dnscrypt)) (with_relay mainProto name stamp key relay : F S E _).
Proof.
  unfold fetch_with_relay. apply sends_bind; [apply sends_fetch_cert|]. intros r.
  match goal with |- sends _ (if ?c then _ else _) => destruct c end; [apply sends_ret|].
  destruct r as [[[ci rtt] fb]|[e fb]]; [|apply sends_ret].
  apply sends_rtry; [apply sends_must|]. intros ua. apply sends_rtry; [apply sends_must|]. intros ta.
  case_bool_decide; [|apply sends_ret].
  apply sends_bind; [apply sends_bind; [apply sends_label|intros; apply sends_ret]|]. intros query.
  apply sends_bind; [apply sends_exchange_with|]. intros [[[msg rt]|] f]; [|apply sends_ret]. case_match; apply sends_ret.
Qed.
End no_fallback.

(** What a server is used with: its relay is kept, unless it blocks fragments. *)
Lemma with_relay_info mainProto name stamp key relay ut w info w' : r_Dnscrypt relay = Some ut ->
  fetch_with_relay ResolveAddr Verify cert_now cert_rnd proxy mainProto name stamp key (Some relay) w = (Ok info, w') ->
  Name_ info = name /\
  (s_Relay (endpoint info) = Some relay \/
   (s_Relay (endpoint info) = None /\ cs_fragmentsBlocked (crypto info) = true /\ skipAnonIncompatibleResolvers proxy = false)).
Proof.
  intros Hr. unfold fetch_with_relay, fbind. destruct (fetch_cert' _ _ _ _ _ w) as [r w1].
  change (Some relay ≫= r_Dnscrypt) with (r_Dnscrypt relay). rewrite Hr.
  rewrite (bool_decide_true (is_Some (Some ut))) by done. rewrite !andb_true_r.
  match goal with |- context [if ?c && skipAnonIncompatibleResolvers proxy then _ else _] => set (known := c); clearbody known end.
  destruct (known && skipAnonIncompatibleResolvers proxy) eqn:Ek; [done|].
  destruct r as [[[ci rtt] fb]|[e fb]]; [|done]. unfold rtry, fbind, must, ok, fail, fret.
  destruct (ResolveAddr udp _) as [ua|]; [|done]. destruct (ResolveAddr tcp _) as [ta|]; [|done].
  assert (forall i, i = dnscrypt_info proxy name stamp ci rtt ua ta (if known then None else Some relay) known ->
    Name_ i = name /\ (s_Relay (endpoint i) = Some relay \/
      (s_Relay (endpoint i) = None /\ cs_fragmentsBlocked (crypto i) = true /\ skipAnonIncompatibleResolvers proxy = false))) as Hi.
  { intros i ->. split; [done|]. destruct known; [right; cbn in Ek; by split_and!|by left]. }
  case_bool_decide; [|by intros [= <- <-]; apply Hi].
  unfold plainNXTestPacket, fbind, fret. destruct (random_label w1) as [label w2].
  destruct (exchange' _ _ _ _ _ w2) as [[[[msg rt]|] f] w3]; [destruct (lying_answer msg); [done|]|]; intros [= <- <-]; by apply Hi.
Qed.

(** C16: anonymized DNS.  If relays are configured for a DNSCrypt server and direct retrievals of certificates are not
    allowed, then every packet that is sent in order to get its certificate and to test it goes to
    one of these relays, addressed to the server; and if incompatible servers are to be
    skipped, the server is then used through one of these relays or not at all. *)
Theorem anonymized_dns mainProto si name stamp names wc w r w' :
  relay_names proxy name = Some (names, wc) -> names <> [] -> st_Proto stamp = StampProtoTypeDNSCrypt ->
  anonDirectCertFallback (cert_proxy proxy) = false ->
  fetchDNSCrypt mainProto si name stamp w = (r, w') ->
  exists l, sent w' = sent w ++ l /\
    Forall (fun pb => exists relay udpAddr tcpAddr, allowed_relay si StampProtoTypeDNSCryptRelay names relay /\
              ResolveAddr udp (ServerAddrStr relay) = Some udpAddr /\ ResolveAddr tcp (ServerAddrStr relay) = Some tcpAddr /\
              through (ServerAddrStr stamp) (udpAddr, tcpAddr) pb) l /\
    (skipAnonIncompatibleResolvers proxy = true -> forall info, r = Ok info ->
     exists rl relay udpAddr tcpAddr, s_Relay (endpoint info) = Some rl /\
       allowed_relay si StampProtoTypeDNSCryptRelay names relay /\ r_Dnscrypt rl = Some (udpAddr, tcpAddr) /\
       ResolveAddr udp (ServerAddrStr relay) = Some udpAddr /\ ResolveAddr tcp (ServerAddrStr relay) = Some tcpAddr).
Proof.
  intros Hn Hne Hp Hf. unfold fetchDNSCryptServerInfo, rtry, fbind.
  destruct (must Fatal _ w) as [[key|e] w0] eqn:Ek; [|intros [= <- <-]].
  2:{ exists []. unfold must, fail, ok, fret in Ek. destruct (stamp_key _); simplify_eq. by rewrite app_nil_r. }
  assert (w0 = w) as -> by (unfold must, fail, ok, fret in Ek; by destruct (stamp_key _); simplify_eq).
  rewrite Hp. destruct (route' si name StampProtoTypeDNSCrypt w) as [[rl|e] w1] eqn:Er;
    destruct (sends_route (fun _ => False) _ _ _ _ _ _ Er) as (l1 & H1 & F1);
    (destruct l1 as [|x l1]; [|by apply Forall_cons in F1 as [[] _]]); rewrite app_nil_r in H1.
  2:{ intros [= <- <-]. exists []. by rewrite H1, app_nil_r. }
  destruct (route_dnscrypt _ _ _ _ _ _ _ Hn Hne Er) as (relay & rs & ua & ta & -> & Ha & Hd & Hu & Ht).
  intros Hfetch. destruct (sends_with_relay Hf _ _ _ _ _ _ _ _ Hfetch) as (l & H2 & F2).
  exists l. split; [congruence|]. split.
  - eapply Forall_impl; [exact F2|]. intros pb Hpb. exists rs, ua, ta. cbn in Hpb. rewrite Hd in Hpb. by split_and!.
  - intros Hskip info ->. destruct (with_relay_info _ _ _ _ _ _ _ _ _ Hd Hfetch) as [_ [Hr|(_ & _ & Hsk)]]; [|congruence].
    by exists relay, rs, ua, ta.
Qed.

(** ** DoH and ODoH servers *)

Context (Sum256 : bytes -> bytes).
Context (parse_configs : bytes -> option (list bytes)) (encrypt_config : bytes -> bytes -> E -> option ODoHQuery * E).

(** A query for the name servers of a random name under [test.dnscrypt], which does not exist. *)
Definition missing_name_query (query : Msg) : Prop :=
  exists label, Questions query = [{| q_Name := label ++ str ".test.dnscrypt."; q_Type := TypeNS; q_Class := ClassINET |}] /\
    Forall (fun c => 97 <= c <= 122) label /\ Response (MH query) = false /\ ID (MH query) = 51966 /\
    ((forall n e, length (draws n e : list Z * E).1 = n) -> length label = 16%nat).

(** A right answer to the test query: that the name does not exist. *)
Definition right_answer (query : Msg) (response : bytes) : Prop :=
  exists msg, Unpack response = Some msg /\ replies_to query msg /\ Rcode_ (MH msg) = RcodeNameError.

(** ** The log of the transport only grows *)

Definition grows {A} (m : F S E A) : Prop :=
  forall w a w', m w = (a, w') -> exists l, xlog (fx w') = xlog (fx w) ++ l.

Lemma grows_same {A} (m : F S E A) : (forall w, fx (m w).2 = fx w) -> grows m.
Proof. intros H w a w' Hm. exists []. specialize (H w). rewrite Hm in H. cbn in H. by rewrite H, app_nil_r. Qed.

Lemma grows_ret {A} (a : A) : grows (fret a).
Proof. by apply grows_same. Qed.

Lemma grows_env {A} (f : E -> A * E) : grows (on_fenv f).
Proof. apply grows_same. intros w. unfold on_fenv. by destruct (f (fenv w)). Qed.

Lemma grows_bind {A B} (m : F S E A) (k : A -> F S E B) : grows m -> (forall a, grows (k a)) -> grows (fbind m k).
Proof.
  intros Hm Hk w b w' Hb. unfold fbind in Hb. destruct (m w) as [a w1] eqn:E1.
  destruct (Hm _ _ _ E1) as (l1 & H1). destruct (Hk a _ _ _ Hb) as (l2 & H2).
  exists (l1 ++ l2). by rewrite H2, H1, app_assoc.
Qed.

Lemma grows_rtry {A B} (m : F S E (result fetch_error A)) (k : A -> F S E (result fetch_error B)) :
  grows m -> (forall a, grows (k a)) -> grows (rtry m k).
Proof. intros Hm Hk. apply grows_bind; [done|]. intros [a|e]; [apply Hk|apply grows_ret]. Qed.

Lemma grows_must {A} e (o : option A) : grows (must e o).
Proof. destruct o; apply grows_ret. Qed.

Lemma grows_fetch method url accept contentType body timeout compress :
  grows (on_fx (Fetch method url accept contentType body timeout compress)).
Proof.
  intros w a w'. unfold on_fx. destruct (Fetch _ _ _ _ _ _ _ (fx w)) as [f x] eqn:Ef. intros [= <- <-]. cbn.
  pose proof (fetch_requests_lemma method url accept contentType body timeout compress (fx w) f x) as H.
  destruct (ExtractHostAndPort _ _) as [host port]. destruct (H Ef) as (rq & l & Hl & _). by exists l.
Qed.

Lemma grows_doh dataType get url body timeout : grows (on_fx (dohLikeQuery dataType get url body timeout)).
Proof. unfold dohLikeQuery, Get, Post. destruct get; apply grows_fetch. Qed.

Lemma grows_log e : grows (on_fx (log_event e)).
Proof. intros w a w' [= <- <-]. cbn. by exists [e]. Qed.

Lemma grows_remember stamp : grows (remember_address stamp).
Proof.
  unfold remember_address. destruct (len _ >? 0); [|apply grows_ret]. destruct (xParseIP _) as [ip|]; [|apply grows_ret].
  intros w a w'. unfold on_fx. destruct (saveCachedIP _ _ _ (fx w)) as [[] x] eqn:Ex. intros [= <- <-]. cbn.
  assert (Keeps (fun _ => True) (fun _ _ => True)) as HK by (by repeat split).
  assert (does (fun _ => True) (fun _ => True) (fun _ _ => True)
    (saveCachedIP (ExtractHostAndPort (ProviderName stamp) (-1)).1 ip (-1 * Second))) as Hd.
  { unfold saveCachedIP, saveCachedIPs. steps; try done. by apply does_modify. }
  destruct (Hd _ _ _ I Ex) as [(l & Hl & _) _]. by exists l.
Qed.

Lemma grows_route si name p : grows (route' si name p).
Proof.
  unfold route. destruct (relay_names proxy name) as [[[|n ns] wc]|]; try apply grows_ret.
  destruct (relayProtoForServerProto p); [|apply grows_ret].
  destruct (collect_relays _ _ _ _ _ _ _ _) as [[stamps nm] wc']. destruct (_ =? 0)%nat; [apply grows_ret|].
  apply grows_bind; [apply grows_env|]. intros choose. apply grows_rtry; [apply grows_must|]. intros stamp.
  unfold use_relay. destruct (_ || _).
  { apply grows_rtry; [apply grows_must|]. intros ?. apply grows_rtry; [apply grows_must|]. intros ?. apply grows_ret. }
  destruct (_ =? _); [|apply grows_ret]. apply grows_rtry; [apply grows_must|]. intros base.
  destruct (list_find _ _) as [[? server]|]; [|apply grows_ret].
  apply grows_bind; [apply grows_remember|]. intros _. apply grows_ret.
Qed.

Lemma grows_test_packet : grows (dohTestPacket : F S E _).
Proof. apply grows_bind; [apply grows_env|]. intros padding. apply grows_must. Qed.

Lemma grows_label : grows (random_label : F S E _).
Proof. apply grows_same. intros w. unfold random_label, on_fenv. by destruct (draws 16 (fenv w)). Qed.

Lemma grows_nx_packet : grows (dohNXTestPacket : F S E _).
Proof.
  apply grows_bind; [apply grows_label|]. intros label. apply grows_bind; [apply grows_env|]. intros padding.
  apply grows_rtry; [apply grows_must|]. intros data. apply grows_ret.
Qed.

Lemma grows_post_or_get (query : bool -> F S E fetched) : (forall b, grows (query b)) -> grows (post_or_get query).
Proof.
  intros Hq. apply grows_bind; [apply Hq|]. intros posted. destruct (f_err posted); [|apply grows_ret].
  apply grows_bind; [apply Hq|]. intros got. destruct (f_err got); apply grows_ret.
Qed.

(** The log after a chain of computations. *)
Lemma grows_trans (x y z : list xevent) : (exists l, y = x ++ l) -> (exists l, z = y ++ l) -> exists l, z = x ++ l.
Proof. intros [l1 ->] [l2 ->]. exists (l1 ++ l2). by rewrite app_assoc. Qed.

(** One of the hashes of the stamp is that of one of the certificates. *)
Definition pinned (stamp : ServerStamp) (certs : list bytes) : Prop :=
  st_Hashes stamp = [] \/ exists cert, cert ∈ certs /\ Sum256 cert ∈ st_Hashes stamp.

Lemma nx_response_ok query b : nx_response query b = Ok tt -> right_answer query b.
Proof.
  unfold nx_response. destruct (Unpack b) as [msg|] eqn:Eu; [|done]. case_match eqn:Ev; [done|]. case_match eqn:Er; [|done].
  intros _. exists msg. bools. split_and!; [done|by apply validate_replies|done].
Qed.

Lemma hashes_ok_pinned stamp certs : hashes_ok Sum256 (st_Hashes stamp) certs = true -> pinned stamp certs.
Proof.
  unfold hashes_ok, hash_found. intros H. apply orb_true_iff in H as [H|H]; [|left; by apply bool_decide_eq_true in H].
  right. apply existsb_exists in H as (cert & Hc & H). apply existsb_exists in H as (hash & Hh & H).
  apply andb_true_iff in H as [_ H]. apply bool_decide_eq_true in H. exists cert. subst hash.
  by rewrite !list_elem_of_In.
Qed.

Lemma dohNXTestPacket_ok w query data w' : dohNXTestPacket w = (Ok (query, data), w') ->
  Pack query = Some data /\ missing_name_query query.
Proof.
  unfold dohNXTestPacket, rtry, fbind, must, ok, fail, fret. destruct (random_label w) as [label w1] eqn:El.
  destruct (on_fenv (draws 16) w1) as [padding w2]. destruct (Pack _) as [b|] eqn:Eb; [|done]. intros [= <- <- <-].
  split; [done|]. exists label. unfold random_label, on_fenv in El. destruct (draws 16 (fenv w)) as [l e] eqn:Ed.
  injection El as <- _. split_and!; [|apply Forall_fmap, Forall_true; intros k; pose proof (Z.mod_pos_bound k 26); cbn; lia|done|done|].
  - unfold test_packet, nx_query, NewMsg. cbn [Questions set_Pseudo set_header].
    match goal with |- context [HasSuffix ?a ?b] => replace (HasSuffix a b) with true end; [done|].
    symmetry. apply HasSuffix_spec.
    exists (((fun k => 97 + k mod 26) <$> l) ++ str ".test.dnscrypt"). by rewrite <-app_assoc.
  - intros Hlen. rewrite length_fmap. specialize (Hlen 16%nat (fenv w)). by rewrite Ed in Hlen.
Qed.

Local Notation fetchDoH := (fetchDoHServerInfo Sum256 proxy).

(** C17: DoH servers that are used have been tested.  A DoH server is used only after it has given, in the last query
    of the same run, over a completed TLS handshake and with one of the certificates that its stamp pins (if it pins any),
    a response to a query for a random name under [test.dnscrypt], which does not exist; the response is to that query,
    and says so.  The server is used at the URL of its stamp, where it was tested, and with the method of the test. *)
Theorem doh_server_tested name stamp w info w' :
  fetchDoH name stamp w = (Ok info, w') ->
  exists query data x f x' tls,
    missing_name_query query /\ Pack query = Some data /\
    (exists l, xlog x = xlog (fx w) ++ l) /\ x' = fx w' /\ DoHQuery (useGet info) (stamp_url stamp) data (fp_timeout proxy) x = (f, x') /\
    f_err f = None /\ f_tls f = Some tls /\ HandshakeComplete tls = true /\
    right_answer query (f_body f) /\ pinned stamp (PeerCertificates tls) /\
    Name_ info = name /\ Proto info = StampProtoTypeDoH /\ s_URL (endpoint info) = stamp_url stamp /\
    MinDNSPacketSize <= len (f_body f) <= MaxDNSPacketSize.
Proof.
  unfold fetchDoHServerInfo, rtry, fbind. destruct (remember_address stamp w) as [[] w1] eqn:E1.
  destruct (dohTestPacket w1) as [[body|e] w2] eqn:E2; [|done].
  destruct (post_or_get _ w2) as [[get|e] w3] eqn:E3; [|done].
  destruct (dohNXTestPacket w3) as [[[query data]|e] w4] eqn:En; [|done].
  assert (exists l, xlog (fx w4) = xlog (fx w) ++ l) as Hlog.
  { eapply grows_trans; [by eapply grows_remember|]. eapply grows_trans; [by eapply grows_test_packet|].
    eapply grows_trans; [|by eapply grows_nx_packet]. eapply grows_post_or_get, E3. intros b. apply grows_doh. }
  apply dohNXTestPacket_ok in En as [En Hmiss].
  unfold on_fx. destruct (DoHQuery get (stamp_url stamp) data (fp_timeout proxy) (fx w4)) as [f x'] eqn:Ef.
  destruct (f_err f) eqn:Ee; [done|]. destruct (f_tls f) as [tls|] eqn:Et; [|done].
  destruct (HandshakeComplete tls) eqn:Eh; [|done]. cbn [negb].
  destruct (nx_response query (f_body f)) as [[]|e] eqn:Ex; [|done]. apply nx_response_ok in Ex.
  destruct (hashes_ok Sum256 (st_Hashes stamp) (PeerCertificates tls)) eqn:Eha; [|done]. apply hashes_ok_pinned in Eha. cbn [negb].
  destruct (expected_packet (f_body f)) eqn:Epk; [|done]. cbn [negb]. intros [= <- <-].
  unfold expected_packet in Epk. rewrite !andb_true_iff, !Z.leb_le in Epk.
  exists query, data, (fx w4), f, x', tls. split_and!; try done; apply Epk.
Qed.

Local Notation fetchODoH := (_fetchODoHTargetInfo ResolveAddr parse_stamp stamp_String parse_url Sum256 parse_configs
  encrypt_config proxy).
Local Notation probe1 := (probe_config Sum256 encrypt_config proxy).

(** What is known of an ODoH target that is used. *)
Definition target_tested (name : bytes) (stamp : ServerStamp) (relay : Relay) (config : bytes) (info : ServerInfo) w w' : Prop :=
  exists relayURL q query data e e' x f x' response,
    r_ODoH relay = Some relayURL /\ s_Relay (endpoint info) = Some relay /\ odohTargetConfigs (endpoint info) = [config] /\
    missing_name_query query /\ Pack query = Some data /\ encrypt_config config data e = (Some q, e') /\
    (exists l, xlog x = xlog (fx w) ++ l) /\ x' = fx w' /\
    ObliviousDoHQuery (useGet info) relayURL (odohMessage q) (fp_timeout proxy) x = (f, x') /\
    f_err f = None /\ 200 <= f_status f < 300 /\
    decryptResponse q (f_body f) = Some response /\ right_answer query response /\
    (forall tls, f_tls f = Some tls -> pinned stamp (PeerCertificates tls)) /\
    Name_ info = name /\ Proto info = StampProtoTypeODoHTarget /\ s_URL (endpoint info) = stamp_url stamp.

Lemma probe_config_tested name stamp relay relayURL config w info w' : r_ODoH relay = Some relayURL ->
  probe1 name stamp relay relayURL config w = (Some (Ok info), w') -> target_tested name stamp relay config info w w'.
Proof.
  intros Hr. unfold probe_config, fbind, fret. destruct (dohTestPacket w) as [[body|e] w1] eqn:E1; [|done].
  destruct (on_fenv (encrypt_config config body) w1) as [[q0|] w2] eqn:E2; [|done].
  destruct (post_or_get _ w2) as [[get|e] w3] eqn:E3; [|done].
  destruct (dohNXTestPacket w3) as [[[query data]|e] w4] eqn:En; [|done].
  destruct (on_fenv (encrypt_config config data) w4) as [[q|] w5] eqn:E5; [|done].
  assert (exists l, xlog (fx w5) = xlog (fx w) ++ l) as Hlog.
  { eapply grows_trans; [by eapply grows_test_packet|]. eapply grows_trans; [by eapply grows_env|].
    eapply grows_trans; [eapply grows_post_or_get, E3; intros b; apply grows_doh|].
    eapply grows_trans; [by eapply grows_nx_packet|by eapply grows_env]. }
  apply dohNXTestPacket_ok in En as [En Hmiss].
  assert (exists e', encrypt_config config data (fenv w4) = (Some q, e')) as [e' He'].
  { unfold on_fenv in E5. destruct (encrypt_config config data (fenv w4)) as [o e']. injection E5 as -> _. by exists e'. }
  unfold on_fx. destruct (ObliviousDoHQuery get relayURL (odohMessage q) (fp_timeout proxy) (fx w5)) as [f x'] eqn:Ef.
  case_bool_decide as Herr; [done|]. destruct (f_status f =? 401); [done|].
  destruct (_ || _) eqn:Est; [done|]. destruct (decryptResponse q (f_body f)) as [response|] eqn:Ed; [|done].
  destruct (nx_response query response) as [[]|e] eqn:Ex; [|done]. apply nx_response_ok in Ex.
  destruct (match f_tls f with Some _ => _ | None => _ end) eqn:Etls; [done|]. destruct (negb (expected_packet response)); [done|].
  intros [= <- <-]. exists relayURL, q, query, data, (fenv w4), e', (fx w5), f, x', response.
  apply orb_false_iff in Est as [Es1 Es2]. bools.
  split_and!; try done; try lia; [by destruct (f_err f); [destruct Herr; eexists|]|].
  intros tls Ht. rewrite Ht in Etls. apply negb_false_iff in Etls. by apply hashes_ok_pinned.
Qed.

Lemma grows_probe name stamp relay relayURL config : grows (probe1 name stamp relay relayURL config).
Proof.
  unfold probe_config. apply grows_bind; [apply grows_test_packet|]. intros [body|e]; [|apply grows_ret].
  apply grows_bind; [apply grows_env|]. intros [q0|]; [|apply grows_ret].
  apply grows_bind; [apply grows_post_or_get; intros b; apply grows_doh|]. intros [get|e]; [|apply grows_ret].
  apply grows_bind; [apply grows_nx_packet|]. intros [[query data]|e]; [|apply grows_ret].
  apply grows_bind; [apply grows_env|]. intros [q|]; [|apply grows_ret].
  apply grows_bind; [apply grows_doh|]. intros f. case_bool_decide; [apply grows_ret|].
  destruct (_ =? 401); [apply grows_ret|]. destruct (_ || _); [apply grows_ret|].
  destruct (decryptResponse _ _); apply grows_ret.
Qed.

Lemma target_tested_later name stamp relay config info w0 w w' : (exists l, xlog (fx w) = xlog (fx w0) ++ l) ->
  target_tested name stamp relay config info w w' -> target_tested name stamp relay config info w0 w'.
Proof.
  intros Hl (url & q & query & data & e & e' & x & f & x' & r & H1 & H2 & H3 & H4 & H5 & H6 & H7 & H).
  exists url, q, query, data, e, e', x, f, x', r. split_and!; try done; [by eapply grows_trans|..]; apply H.
Qed.

Lemma probe_configs_tested name stamp relay relayURL configs w info w' : r_ODoH relay = Some relayURL ->
  probe_configs Sum256 encrypt_config proxy name stamp relay relayURL configs w = (Ok info, w') ->
  exists config : bytes, config ∈ (configs : list bytes) /\ target_tested name stamp relay config info w w'.
Proof.
  intros Hr. revert w. induction configs as [|c configs IH]; intros w; cbn [probe_configs]; [done|].
  unfold fbind. destruct (probe1 name stamp relay relayURL c w) as [[r|] w1] eqn:E1.
  - intros [= -> <-]. exists c. split; [left|]. by eapply probe_config_tested.
  - intros Hp. destruct (IH w1 Hp) as (config & Hin & Ht). exists config. split; [by right|].
    eapply target_tested_later; [|done]. by eapply grows_probe.
Qed.

(** The configurations that the target publishes. *)
Definition published (stamp : ServerStamp) w (configs : list bytes) : Prop :=
  exists f x, Get {| url_Host := ProviderName stamp; url_Path := str "/.well-known/odohconfigs"; url_RawQuery := [] |}
    (str "application/binary") 0 (fx w) = (f, x) /\ f_err f = None /\ 200 <= f_status f < 300 /\
    parse_configs (f_body f) = Some configs.

Lemma fetch_odoh_tested si name stamp w info w' :
  fetchODoH si name stamp w = (Ok info, w') ->
  exists relay (config : bytes) (configs configs' : list bytes) e, (shuffled bytes configs e : list bytes * E).1 = configs' /\ config ∈ configs' /\
    published stamp w configs /\ target_tested name stamp relay config info w w'.
Proof.
  unfold _fetchODoHTargetInfo, rtry. unfold fbind at 1. unfold fetchTargetConfigsFromWellKnown, fbind at 1, on_fx.
  destruct (Get _ _ _ (fx w)) as [f x] eqn:Eg. set (w1 := {| fx := x; fenv := fenv w; sent := sent w |}).
  destruct (f_err f) eqn:Ee; [done|]. destruct ((f_status f <? 200) || (300 <=? f_status f)) eqn:Es; [done|].
  destruct (parse_configs (f_body f)) as [configs|] eqn:Ec; [|done]. cbn [must ok fret].
  apply orb_false_iff in Es as [Es1 Es2]. bools.
  destruct (bool_decide (configs = [])); [done|]. unfold fbind.
  destruct (route' si name (st_Proto stamp) w1) as [[[relay|]|e] w2] eqn:E2; try done.
  destruct (r_ODoH relay) as [relayURL|] eqn:Hr; [|done].
  destruct (on_fenv (draws 1) w2) as [delay w3] eqn:E3. cbn [log_event].
  set (w4 := {| fx := _; fenv := fenv w3; sent := sent w3 |}).
  destruct (on_fenv (shuffled bytes configs) w4) as [configs' w5] eqn:E5. intros Hp.
  destruct (probe_configs_tested _ _ _ _ _ _ _ _ Hr Hp) as (config & Hin & Ht).
  exists relay, config, configs, configs', (fenv w4). split_and!; [|done| |].
  - unfold on_fenv in E5. destruct (shuffled bytes configs (fenv w4)) as [c e]. by injection E5.
  - exists f, x. split_and!; try done; lia.
  - eapply target_tested_later; [|done].
    eapply grows_trans; [eapply (grows_fetch _ _ _ _ _ _ _ w f w1); unfold on_fx; unfold Get in Eg; by rewrite Eg|].
    eapply grows_trans; [by eapply grows_route|]. eapply grows_trans; [by eapply grows_env|].
    eapply (grows_trans _ (xlog (fx w4))); [eexists [_]; reflexivity|by eapply grows_env].
Qed.

(** C18: ODoH targets that are used have been tested.  An ODoH target is used only with an ODoH relay, at the relay's URL, and
    with one configuration, which is one of those that the target publishes.  In the last query of the same run a query for a
    random name that does not exist was encrypted for that configuration and sent to that URL; the response could be decrypted,
    is to that query and says that the name does not exist; and it came with a certificate that the stamp pins, if there is
    TLS and the stamp pins any. *)
Theorem odoh_target_tested si name stamp w info w' :
  (forall l e, (shuffled bytes l e : list bytes * E).1 ≡ₚ l) ->
  fetchODoH si name stamp w = (Ok info, w') ->
  exists relay (config : bytes) (configs : list bytes), published stamp w configs /\ config ∈ configs /\
    target_tested name stamp relay config info w w'.
Proof.
  intros Hsh Hf. destruct (fetch_odoh_tested _ _ _ _ _ _ Hf) as (relay & config & configs & configs' & e & Hs & Hin & Hp & Ht).
  exists relay, config, configs. split_and!; [done| |done]. by rewrite <-(Hsh configs e), Hs.
Qed.

(** ** Refreshing *)

Lemma fetch_with_relay_name mainProto name stamp key relay w info w' :
  fetch_with_relay ResolveAddr Verify cert_now cert_rnd proxy mainProto name stamp key relay w = (Ok info, w') -> Name_ info = name.
Proof.
  unfold fetch_with_relay, fbind. destruct (fetch_cert' _ _ _ _ _ w) as [r w1].
  match goal with |- (if ?c then _ else _) w1 = _ -> _ => destruct c end; [done|].
  destruct r as [[[ci rtt] fb]|[e fb]]; [|done]. unfold rtry, fbind, must, ok, fail, fret.
  destruct (ResolveAddr udp _) as [ua|]; [|done]. destruct (ResolveAddr tcp _) as [ta|]; [|done].
  case_bool_decide; [|by intros [= <- <-]].
  unfold plainNXTestPacket, fbind, fret. destruct (random_label w1) as [label w2].
  destruct (exchange' _ _ _ _ _ w2) as [[[[msg rt]|] f] w3]; [destruct (lying_answer msg); [done|]|]; by intros [= <- <-].
Qed.

Local Notation fetchServer := (fetchServerInfo ResolveAddr parse_stamp stamp_String parse_url Sum256 Verify parse_configs
  encrypt_config cert_now cert_rnd proxy).

Lemma retry_ok {A} n (m : F S E (result fetch_error A)) w a w' : retry n m w = (Ok a, w') -> exists w1 w2, m w1 = (Ok a, w2).
Proof.
  revert w. induction n as [|n IH]; intros w; cbn [retry]; [by intros; eexists _, _|].
  unfold fbind. destruct (m w) as [[x|e] w1] eqn:Em; [intros [= <- <-]; by exists w, w1|apply IH].
Qed.

Lemma fetchServerInfo_name mainProto si name stamp w info w' :
  fetchServer mainProto si name stamp w = (Ok info, w') -> Name_ info = name.
Proof.
  unfold fetchServerInfo. case_match; [|case_match; [|case_match; [|done]]].
  - unfold fetchDNSCryptServerInfo, rtry, fbind. destruct (must Fatal _ w) as [[key|e] w0]; [|done].
    destruct (route' _ _ _ w0) as [[rl|e] w1]; [|done]. apply fetch_with_relay_name.
  - intros Hf. unfold fetchDoHServerInfo, rtry, fbind in Hf. destruct (remember_address stamp w) as [[] w1].
    destruct (dohTestPacket w1) as [[body|e] w2]; [|done].
    destruct (post_or_get _ w2) as [[get|e] w3]; [|done].
    destruct (dohNXTestPacket w3) as [[[query data]|e] w4]; [|done].
    destruct (on_fx _ w4) as [f w5]. destruct (f_err f); [done|]. destruct (f_tls f) as [tls|]; [|done].
    destruct (negb _); [done|]. destruct (nx_response _ _); [|done]. destruct (negb _); [done|]. destruct (negb _); [done|].
    by injection Hf as <- <-.
  - intros (w1 & w2 & Ht)%retry_ok. revert Ht. unfold _fetchODoHTargetInfo, rtry, fbind.
    destruct (fetchTargetConfigsFromWellKnown _ _ w1) as [[configs|e] w3]; [|done]. case_bool_decide; [done|].
    destruct (route' si name (st_Proto stamp) w3) as [[[relay|]|e] w4]; try done.
    destruct (r_ODoH relay) as [relayURL|] eqn:Hr; [|done].
    destruct (on_fenv (draws 1) w4) as [delay w5]. destruct (on_fx _ w5) as [[] w6].
    destruct (on_fenv (shuffled bytes configs) w6) as [configs' w7]. intros Hp.
    destruct (probe_configs_tested _ _ _ _ _ _ _ _ Hr Hp) as (? & _ & ? & ? & ? & ? & ? & ? & ? & ? & ? & ? & ?). tauto.
Qed.

Lemma replace_server_names new l l' : replace_server new l = Some l' -> Name_ <$> l' = Name_ <$> l /\ new ∈ l'.
Proof.
  revert l'. induction l as [|old l IH]; intros l'; cbn [replace_server]; [done|]. case_bool_decide as Hn.
  - intros [= <-]. split; [csimpl; by rewrite Hn|left].
  - intros Hl. apply fmap_Some in Hl as (l1 & H1 & ->). apply IH in H1 as [H1 H2]. split; [csimpl; by rewrite H1|by right].
Qed.

Lemma registerServer_inner name stamp si : inner (registerServer name stamp si) = inner si.
Proof. unfold registerServer. by repeat case_match. Qed.

Lemma refreshServer_names key rnd name stamp fetched si alive si' :
  refreshServer key rnd name stamp fetched si = (alive, si') -> (forall info, fetched = Some info -> Name_ info = name) ->
  (alive = true -> exists s, s ∈ inner si' /\ Name_ s = name) /\
  (forall n, n ∈ Name_ <$> inner si' -> n ∈ Name_ <$> inner si \/ n = name) /\
  (forall n, n ∈ Name_ <$> inner si -> n ∈ Name_ <$> inner si') /\ alive = bool_decide (is_Some fetched).
Proof.
  unfold refreshServer. destruct fetched as [info|]; [|intros [= <- <-]; naive_solver].
  set (new := set_crypto _ _). assert (Name_ new = Name_ info) as Hname by done. clearbody new.
  intros Hr Hf. specialize (Hf info eq_refl). rewrite Hf in Hname.
  destruct (replace_server new (inner si)) as [l|] eqn:El.
  - apply replace_server_names in El as [El Hin].
    destruct (metricsForLocked name (set_inner l si)) as [m si1] eqn:Em.
    assert (inner si1 = l) as Hi. { unfold metricsForLocked in Em. by case_match; simplify_eq. }
    injection Hr as <- <-. rewrite Hi, El. split_and!; [intros _; by exists new|by left|done|done].
  - destruct (metricsForLocked name (set_inner (inner si ++ [new]) si)) as [m si1] eqn:Em.
    assert (inner si1 = inner si ++ [new]) as Hi. { unfold metricsForLocked in Em. by case_match; simplify_eq. }
    injection Hr as <- <-. rewrite registerServer_inner, Hi, fmap_app. split_and!; [|set_solver|set_solver|done].
    intros _. exists new. set_solver.
Qed.

Lemma refreshServer_registered (Q : bytes -> ServerStamp -> Prop) key rnd name stamp fetched si alive si' :
  refreshServer key rnd name stamp fetched si = (alive, si') -> Q name stamp ->
  Forall (fun s => Q (rs_name s) (rs_stamp s)) (registeredServers si) ->
  Forall (fun s => Q (rs_name s) (rs_stamp s)) (registeredServers si') /\ registeredRelays si' = registeredRelays si.
Proof.
  assert (forall l, Q name stamp -> Forall (fun s => Q (rs_name s) (rs_stamp s)) l ->
            Forall (fun s => Q (rs_name s) (rs_stamp s)) (register {| rs_name := name; rs_stamp := stamp; rs_description := [] |} l)) as Hreg.
  { intros l HQ. induction l as [|old l IH]; cbn; intros Hl; [by repeat constructor|].
    apply Forall_cons in Hl as [H1 H2]. case_bool_decide; constructor; auto. }
  unfold refreshServer. destruct fetched as [info|]; [|by intros [= <- <-]].
  destruct (match replace_server _ _ with Some l => _ | None => _ end) as [found l].
  destruct (metricsForLocked name (set_inner l si)) as [m si1] eqn:Em.
  assert (registeredServers si1 = registeredServers si /\ registeredRelays si1 = registeredRelays si) as [H1 H2].
  { unfold metricsForLocked in Em. by case_match; simplify_eq. }
  intros [= <- <-] HQ Hs. destruct found; [by rewrite H1|]. cbn. rewrite H1, H2. split; [|done]. by apply Hreg.
Qed.

Local Notation loop := (refresh_loop ResolveAddr parse_stamp stamp_String parse_url Sum256 Verify parse_configs
  encrypt_config cert_now cert_rnd proxy).

Lemma refresh_loop_spec mainProto key servers si live w si' live' w' :
  loop mainProto key servers si live w = (si', live', w') ->
  live <= live' <= live + len servers /\
  (forall n, n ∈ Name_ <$> inner si -> n ∈ Name_ <$> inner si') /\
  (forall n, n ∈ Name_ <$> inner si' -> n ∈ Name_ <$> inner si \/ n ∈ rs_name <$> servers) /\
  (live < live' -> inner si' <> []).
Proof.
  revert si live w. induction servers as [|server servers IH]; intros si live w; cbn [refresh_loop].
  { intros [= <- <- <-]. unfold len. cbn. split_and!; [lia|lia|done|by left|lia]. }
  unfold fbind. destruct (fetchServer mainProto si (rs_name server) (rs_stamp server) w) as [r w1] eqn:Ef.
  destruct (on_fenv (draws 32) w1) as [rnd w2].
  destruct (refreshServer _ _ _ _ _ si) as [alive si1] eqn:Er.
  apply refreshServer_names in Er as (H1 & H2 & H3 & _).
  2:{ intros info Hi. destruct r as [i|e]; simplify_eq. by eapply fetchServerInfo_name. }
  match goal with |- context [match ?m w2 with pair _ _ => _ end] => destruct (m w2) as [u w3] end. intros (I1 & I2 & I3 & I4)%IH. unfold len in *. cbn [length].
  split_and!; [destruct alive; lia|destruct alive; lia|by intros; apply I2, H3| |].
  - intros n Hn. apply I3 in Hn as [Hn|Hn]; [|right; csimpl; by right]. apply H2 in Hn as [Hn| ->]; [by left|right; csimpl; by left].
  - intros Hl. destruct alive; [|by apply I4]. destruct (H1 eq_refl) as (s & Hs & _).
    assert (Name_ s ∈ Name_ <$> inner si') as Hin by (apply I2, list_elem_of_fmap_2; done).
    intros Hnil. rewrite Hnil in Hin. by apply not_elem_of_nil in Hin.
Qed.

Lemma refresh_spec mainProto key si w si' live err w' :
  (forall A l e, (shuffled A l e : list A * E).1 ≡ₚ l) ->
  refresh ResolveAddr parse_stamp stamp_String parse_url Sum256 Verify parse_configs encrypt_config cert_now cert_rnd proxy
    mainProto key si w = (si', live, err, w') ->
  StronglySorted rtt_le (inner si') /\
  (forall n, n ∈ Name_ <$> inner si -> n ∈ Name_ <$> inner si') /\
  (forall n, n ∈ Name_ <$> inner si' -> n ∈ Name_ <$> inner si \/ n ∈ rs_name <$> registeredServers si) /\
  0 <= live <= len (registeredServers si) /\ (0 < live -> inner si' <> []) /\
  (err = true <-> live = 0 /\ registeredServers si <> []).
Proof.
  intros Hsh. unfold refresh, fbind, fret.
  destruct (on_fenv (shuffled RegisteredServer (registeredServers si)) w) as [servers w1] eqn:Es.
  assert (servers ≡ₚ registeredServers si) as Hp.
  { unfold on_fenv in Es. destruct (shuffled _ _ _) as [l e] eqn:El. injection Es as <- _.
    by rewrite <-(Hsh RegisteredServer (registeredServers si) (fenv w)), El. }
  destruct (loop mainProto key servers si 0 w1) as [[si1 n] w2] eqn:El.
  destruct (refresh_loop_spec _ _ _ _ _ _ _ _ _ El) as (H1 & H2 & H3 & H4). intros [= <- <- <- <-]. cbn [inner set_inner].
  assert (len servers = len (registeredServers si)) as Hlen by (unfold len; by rewrite Hp).
  assert (forall x, x ∈ Name_ <$> merge_sort rtt_le (inner si1) <-> x ∈ Name_ <$> inner si1) as Hm
    by (intros x; by rewrite merge_sort_Permutation).
  split_and!.
  - apply StronglySorted_merge_sort; [intros a b c; unfold rtt_le; lia|intros a b; unfold rtt_le; lia].
  - intros x Hx. by apply Hm, H2.
  - intros x Hx. apply Hm, H3 in Hx as [|Hx]; [by left|right]. by rewrite <-Hp.
  - lia.
  - lia.
  - intros Hl Hnil. apply H4; [done|]. apply Permutation_nil_r. by rewrite <-Hnil, merge_sort_Permutation.
  - rewrite andb_true_iff, !negb_true_iff, bool_decide_eq_false, Z.gtb_ltb, Z.ltb_ge.
    assert (servers = [] <-> registeredServers si = []) as -> by (split; intros Hn; apply Permutation_nil_r; by rewrite <-Hn, ?Hp).
    intuition lia.
Qed.
(** What is registered is registered again, or kept. *)
Lemma refresh_loop_registered (Q : bytes -> ServerStamp -> Prop) mainProto key servers si live w si' live' w' :
  loop mainProto key servers si live w = (si', live', w') ->
  Forall (fun s => Q (rs_name s) (rs_stamp s)) servers ->
  Forall (fun s => Q (rs_name s) (rs_stamp s)) (registeredServers si) ->
  Forall (fun s => Q (rs_name s) (rs_stamp s)) (registeredServers si') /\ registeredRelays si' = registeredRelays si.
Proof.
  revert si live w. induction servers as [|server servers IH]; intros si live w; cbn [refresh_loop]; [by intros [= <- <- <-]|].
  unfold fbind. destruct (fetchServer mainProto si (rs_name server) (rs_stamp server) w) as [r w1].
  destruct (on_fenv (draws 32) w1) as [rnd w2]. destruct (refreshServer _ _ _ _ _ si) as [alive si1] eqn:Er.
  match goal with |- context [match ?m w2 with pair _ _ => _ end] => destruct (m w2) as [u w3] end.
  intros El [Hs Hl]%Forall_cons Hsi. destruct (refreshServer_registered Q _ _ _ _ _ _ _ _ Er Hs Hsi) as [H1 H2].
  rewrite <- H2. by eapply IH.
Qed.

Lemma refresh_registered (Q : bytes -> ServerStamp -> Prop) mainProto key si w si' live err w' :
  (forall A l e, (shuffled A l e : list A * E).1 ≡ₚ l) ->
  refresh ResolveAddr parse_stamp stamp_String parse_url Sum256 Verify parse_configs encrypt_config cert_now cert_rnd proxy
    mainProto key si w = (si', live, err, w') ->
  Forall (fun s => Q (rs_name s) (rs_stamp s)) (registeredServers si) ->
  Forall (fun s => Q (rs_name s) (rs_stamp s)) (registeredServers si') /\ registeredRelays si' = registeredRelays si.
Proof.
  intros Hsh. unfold refresh, fbind, fret.
  destruct (on_fenv (shuffled RegisteredServer (registeredServers si)) w) as [servers w1] eqn:Es.
  assert (servers ≡ₚ registeredServers si) as Hp.
  { unfold on_fenv in Es. destruct (shuffled _ _ _) as [l e] eqn:El. injection Es as <- _.
    by rewrite <-(Hsh RegisteredServer (registeredServers si) (fenv w)), El. }
  destruct (loop mainProto key servers si 0 w1) as [[si1 n] w2] eqn:El. intros [= <- <- <- <-] HQ.
  refine (refresh_loop_registered Q _ _ _ _ _ _ _ _ _ El _ HQ). by rewrite Hp.
Qed.

(** Refreshing the servers.  A refresh keeps every server that was there, adds registered servers only,
    leaves the servers ordered by their initial latency, reports no more servers alive than are
    registered, has a server to use if one is alive, and is an error exactly when none is
    although some are registered. *)
Theorem refresh_servers mainProto key si w si' live err w' :
  (forall A l e, (shuffled A l e : list A * E).1 ≡ₚ l) ->
  refresh ResolveAddr parse_stamp stamp_String parse_url Sum256 Verify parse_configs encrypt_config cert_now cert_rnd proxy
    mainProto key si w = (si', live, err, w') ->
  StronglySorted rtt_le (inner si') /\
  (forall n, n ∈ Name_ <$> inner si -> n ∈ Name_ <$> inner si') /\
  (forall n, n ∈ Name_ <$> inner si' -> n ∈ Name_ <$> inner si \/ n ∈ rs_name <$> registeredServers si) /\
  0 <= live <= len (registeredServers si) /\ (0 < live -> inner si' <> []) /\
  (err = true <-> live = 0 /\ registeredServers si <> []).
Proof. apply refresh_spec. Qed.
End props.

(** ** Examples *)

Lemma pair_of_fst {A B} (p : A * B) a : p.1 = a -> p = (a, p.2).
Proof. destruct p. by intros <-. Qed.
Lemma pair_of_proj {A B C D} (p : A * B * C * D) : p = (p.1.1.1, p.1.1.2, p.1.2, p.2).
Proof. by destruct p as [[[] ] ]. Qed.

Section example.
Definition ex_label : bytes := replicate 16 97.
Definition ex_nx_reply : Msg :=
  set_header (fun h => set_Rcode RcodeNameError (set_Response true h)) (nx_query ex_label).
Definition ex_packet : bytes := [202; 254; 129; 131; 0; 1] ++ replicate 20 0.

(** Every packet is the reply to the test query. *)
#[local] Instance ex_test_lib : DnsLib := {
  Unpack := fun _ => Some ex_nx_reply; Pack := fun _ => Some ex_packet; EqualName := fun a b => bool_decide (a = b)
}.

#[local] Instance ex_probes : ProbeEnv unit := {
  udp_transact := fun _ _ e => (Err TimeoutError, e); tcp_transact := fun _ _ e => (Err TimeoutError, e);
  arrivals := fun n e => (seq 0 n, e); was_sent := fun _ e => (false, e); pick := fun e => (fun _ => 0%nat, e);
  draws := fun n e => (replicate n 0, e); shuffled := fun _ l e => (l, e)
}.

Definition ex_tls : tls_state :=
  {| DidResume := false; NegotiatedProtocol := str "h2"; HandshakeComplete := true; PeerCertificates := [[1]; [2]] |}.

#[local] Instance ex_doh : HttpEnv unit := {
  Now := fun s => (Second, s); Int63n := fun n s => (0, s); MsgID := fun s => (1, s);
  LookupIP := fun _ s => ([[192; 0; 2; 1]], None, s); dns_Exchange := fun _ _ _ s => (Err TimeoutError, s);
  client_Do := fun h3 rq s => ({| do_resp := Some {| rs_StatusCode := 200; rs_AltSvc := None; rs_gzip := false;
                                    rs_TLS := Some ex_tls; rs_Body := (ex_packet, None) |};
                                  do_err := None; do_gotConn := Some false; do_dials := [] |}, s);
  NewReader := fun s => Ok s; Sum512 := fun _ => replicate 64 0
}.

Definition ex_stamp (p : Z) (hashes : list bytes) : ServerStamp :=
  {| st_Proto := p; ServerAddrStr := str "192.0.2.1:443"; ProviderName := str "2.dnscrypt-cert.example"; Path := str "/dns-query";
     st_Props := 0; st_ServerPk := replicate 32 5; st_Hashes := hashes |}.

Definition ex_registered (name : bytes) (p : Z) : RegisteredServer :=
  {| rs_name := name; rs_stamp := ex_stamp p []; rs_description := [] |}.

Definition ex_servers : ServersInfo :=
  set_registered [ex_registered (str "doh") StampProtoTypeDoH; ex_registered (str "odoh") StampProtoTypeODoHTarget;
                  ex_registered (str "tls") StampProtoTypeTLS]
    [ex_registered (str "relay") StampProtoTypeDNSCryptRelay; ex_registered (str "orelay") StampProtoTypeODoHRelay] NewServersInfo.

Definition ex_fetch_proxy : FetchProxy :=
  {| routes := Some (<[str "dnscrypt" := [str "relay"]]> {[str "*" := [str "*"]]}); serversBlockingFragments := [];
     skipAnonIncompatibleResolvers := true; cert_proxy := sample_cert_proxy; fp_timeout := 5 * Second |}.

Definition ex_fworld : FWorld unit unit := {| fx := {| xt := ex_transport false; xenv := tt; xlog := [] |}; fenv := tt; sent := [] |}.

Definition ex_resolve (p : proto) (addr : bytes) : option SockAddr := Some {| addr_IP := [192; 0; 2; 9]; addr_Port := 443 |}.

Local Notation ex_fetchDNSCrypt := (fetchDNSCryptServerInfo ex_resolve (fun _ => None) ServerAddrStr
  (fun _ => None) (fun _ _ _ => true) (fun _ => 0) (fun _ _ => []) ex_fetch_proxy udp ex_servers (str "dnscrypt")
  (ex_stamp StampProtoTypeDNSCrypt [])).

(** Six queries, all of them to the relay. *)
Lemma anonymized_dns_witness :
  length (sent (ex_fetchDNSCrypt ex_fworld).2) = 6%nat /\
  exists l, sent (ex_fetchDNSCrypt ex_fworld).2 = l /\
    Forall (fun pb => pb_addr pb = {| addr_IP := [192; 0; 2; 9]; addr_Port := 443 |}) l.
Proof.
  split; [vm_compute; reflexivity|].
  destruct (anonymized_dns ex_resolve (fun _ => None) ServerAddrStr (fun _ => None) (fun _ _ _ => true) (fun _ => 0) (fun _ _ => [])
    ex_fetch_proxy udp ex_servers (str "dnscrypt") (ex_stamp StampProtoTypeDNSCrypt []) [str "relay"] false ex_fworld
    (ex_fetchDNSCrypt ex_fworld).1 (ex_fetchDNSCrypt ex_fworld).2) as (l & Hl & HF & _).
  - vm_compute. reflexivity.
  - discriminate.
  - reflexivity.
  - reflexivity.
  - apply surjective_pairing.
  - exists l. split; [exact Hl|]. eapply Forall_impl; [exact HF|].
    intros pb (relay & ua & ta & _ & Hu & Ht & Ha & _). unfold ex_resolve in Hu, Ht.
    injection Hu as <-. injection Ht as <-. rewrite Ha. destruct (pb_proto pb); reflexivity.
Defined.

(** With direct retrievals allowed, any exchange that fails through the relay is tried again
    without it, the test for plain DNS included. *)
Example direct_probe :
  (pb_addr <$> sent (exchange_with ex_resolve
     {| routes := routes ex_fetch_proxy; serversBlockingFragments := []; skipAnonIncompatibleResolvers := true; fp_timeout := 0;
        cert_proxy := {| pqDNSCrypt := false; certIgnoreTimestamp := false; anonDirectCertFallback := true;
                         client_key := client_key sample_cert_proxy |} |}
     (str "192.0.2.9:443") udp (nx_query ex_label)
     (Some ({| addr_IP := [198; 51; 100; 1]; addr_Port := 443 |}, {| addr_IP := [198; 51; 100; 1]; addr_Port := 443 |})) false
     ex_fworld).2)
  = replicate 3 {| addr_IP := [198; 51; 100; 1]; addr_Port := 443 |} ++ replicate 3 {| addr_IP := [192; 0; 2; 9]; addr_Port := 443 |}.
Proof. vm_compute. reflexivity. Qed.

Local Notation ex_fetchDoH := (fetchDoHServerInfo (fun c => replicate 31 7 ++ c) ex_fetch_proxy (str "doh")
  (ex_stamp StampProtoTypeDoH [replicate 31 7 ++ [2]])).

Lemma ex_doh_ok : exists info, (ex_fetchDoH ex_fworld).1 = Ok info.
Proof. vm_compute. by eexists. Qed.

Lemma doh_server_tested_witness :
  exists info, (ex_fetchDoH ex_fworld).1 = Ok info /\ s_URL (endpoint info) = stamp_url (ex_stamp StampProtoTypeDoH []).
Proof.
  destruct ex_doh_ok as [info Hi]. exists info. split; [exact Hi|].
  destruct (doh_server_tested ex_fetch_proxy (fun c => replicate 31 7 ++ c) (str "doh")
    (ex_stamp StampProtoTypeDoH [replicate 31 7 ++ [2]]) ex_fworld info (ex_fetchDoH ex_fworld).2)
    as (query & data & x & f & x' & tls & _ & _ & _ & _ & _ & _ & _ & _ & _ & _ & _ & _ & Hu & _).
  - exact (pair_of_fst _ _ Hi).
  - exact Hu.
Defined.

Local Notation ex_fetchODoH := (_fetchODoHTargetInfo ex_resolve (fun _ => None) ServerAddrStr
  (fun _ => Some (stamp_url (ex_stamp 0 []))) (fun c => c) (fun _ => Some [[1]])
  (fun c d e => (Some {| odohMessage := d; decryptResponse := fun b => Some b |}, e)) ex_fetch_proxy ex_servers (str "odoh")
  (ex_stamp StampProtoTypeODoHTarget [])).

Lemma ex_odoh_ok : exists info, (ex_fetchODoH ex_fworld).1 = Ok info.
Proof. vm_compute. by eexists. Qed.

Lemma odoh_target_tested_witness :
  exists info relay, (ex_fetchODoH ex_fworld).1 = Ok info /\ s_Relay (endpoint info) = Some relay.
Proof.
  destruct ex_odoh_ok as [info Hi].
  destruct (odoh_target_tested ex_resolve (fun _ => None) ServerAddrStr (fun _ => Some (stamp_url (ex_stamp 0 []))) ex_fetch_proxy (fun c => c)
    (fun _ => Some [[1]]) (fun c d e => (Some {| odohMessage := d; decryptResponse := fun b => Some b |}, e))
    ex_servers (str "odoh") (ex_stamp StampProtoTypeODoHTarget []) ex_fworld info (ex_fetchODoH ex_fworld).2)
    as (relay & config & configs & _ & _ & url & q & query & data & e & e' & x & f & x' & response & _ & Hr & _).
  - reflexivity.
  - exact (pair_of_fst _ _ Hi).
  - exists info, relay. split; [exact Hi|exact Hr].
Defined.

Local Notation ex_refresh := (refresh ex_resolve (fun _ => None) ServerAddrStr (fun _ => Some (stamp_url (ex_stamp 0 [])))
  (fun c => c) (fun _ _ _ => true) (fun _ => Some [[1]])
  (fun c d e => (Some {| odohMessage := d; decryptResponse := fun b => Some b |}, e)) (fun _ => 0) (fun _ _ => [])
  ex_fetch_proxy udp (client_key sample_cert_proxy) ex_servers).

(** Two of the three servers are alive. *)
Lemma refresh_servers_witness :
  (ex_refresh ex_fworld).1.1.2 = 2 /\ inner (ex_refresh ex_fworld).1.1.1 <> [].
Proof.
  assert ((ex_refresh ex_fworld).1.1.2 = 2) as H2 by (vm_compute; reflexivity). split; [exact H2|].
  refine (proj1 (proj2 (proj2 (proj2 (proj2 (refresh_servers ex_resolve (fun _ => None) ServerAddrStr (fun _ => Some (stamp_url (ex_stamp 0 [])))
    (fun _ _ _ => true) (fun _ => 0) (fun _ _ => []) ex_fetch_proxy (fun c => c) (fun _ => Some [[1]])
    (fun c d e => (Some {| odohMessage := d; decryptResponse := fun b => Some b |}, e)) udp (client_key sample_cert_proxy) ex_servers ex_fworld (ex_refresh ex_fworld).1.1.1 (ex_refresh ex_fworld).1.1.2
    (ex_refresh ex_fworld).1.2 (ex_refresh ex_fworld).2 _ _))))) _).
  - intros A l e. reflexivity.
  - exact (pair_of_proj _).
  - rewrite H2. reflexivity.
Defined.
End example.
