(* ===== verification/Listeners.v ===== *)
(** * Listening sockets and the change of user (src/dnscrypt-proxy/proxy.go, config_loader.go,
    privilege_linux.go, netprobe_others.go, systemd_linux.go)

    With [user_name], a first process opens the log file and the sockets, gives up its
    privileges and executes the program again; the new process, started with [-child],
    finds the open files under numbers it knows.  A process is its open files, the list
    [FileDescriptors], the counter [FileDescriptorNum] and its listeners; [None] is
    [dlog.Fatal]. *)

From S2P Require Import Prelude GoStrings NetIP Common.

(** What a file descriptor refers to. *)
Inductive handle :=
  | LogFile (path : bytes)
  | UdpSocket (network addr : bytes)
  | TcpSocket (network addr : bytes).

#[global] Instance handle_eq_dec : EqDecision handle.
Proof. solve_decision. Defined.

Record Listeners := { udpListeners : list handle; tcpListeners : list handle; localDoHListeners : list handle }.

Record Process := {
  table : gmap Z handle;
  FileDescriptors : list Z;
  FileDescriptorNum : Z;
  log_file : option handle;
  listeners : Listeners;
}.

Definition InheritedDescriptorsBase : Z := 50.

Definition no_listeners : Listeners := {| udpListeners := []; tcpListeners := []; localDoHListeners := [] |}.
Definition new_process (files : gmap Z handle) : Process :=
  {| table := files; FileDescriptors := []; FileDescriptorNum := 0; log_file := None; listeners := no_listeners |}.

(** Who runs the code: a process that keeps its user, the one that opens the sockets for
    its child, or the child. *)
Inductive role := SameUser | Parent | Child.

Definition role_of (userName : bytes) (child : bool) : role :=
  if (length userName =? 0)%nat then SameUser else if child then Child else Parent.

Section process.
(** The addresses that resolve, the files and sockets that can be opened, and the number
    of a new descriptor. *)
Context (resolves : bytes -> bytes -> bool) (can_open : handle -> bool) (fresh : gmap Z handle -> Z).
Implicit Types p : Process.

Definition set_listeners (l : Listeners) p : Process :=
  {| table := table p; FileDescriptors := FileDescriptors p; FileDescriptorNum := FileDescriptorNum p;
     log_file := log_file p; listeners := l |}.

Definition registerUDPListener (h : handle) p : Process :=
  let l := listeners p in
  set_listeners {| udpListeners := udpListeners l ++ [h]; tcpListeners := tcpListeners l;
                   localDoHListeners := localDoHListeners l |} p.
Definition registerTCPListener (h : handle) p : Process :=
  let l := listeners p in
  set_listeners {| udpListeners := udpListeners l; tcpListeners := tcpListeners l ++ [h];
                   localDoHListeners := localDoHListeners l |} p.
Definition registerLocalDoHListener (h : handle) p : Process :=
  let l := listeners p in
  set_listeners {| udpListeners := udpListeners l; tcpListeners := tcpListeners l;
                   localDoHListeners := localDoHListeners l ++ [h] |} p.

(** A new file, which is kept for the child. *)
Definition keep_open (h : handle) p : option Process :=
  if can_open h then
    let fd := fresh (table p) in
    Some {| table := <[fd := h]> (table p); FileDescriptors := FileDescriptors p ++ [fd];
            FileDescriptorNum := FileDescriptorNum p; log_file := log_file p; listeners := listeners p |}
  else None.

(** The next inherited file. *)
Definition inherited p : option handle * Process :=
  (table p !! (InheritedDescriptorsBase + FileDescriptorNum p),
   {| table := table p; FileDescriptors := FileDescriptors p; FileDescriptorNum := FileDescriptorNum p + 1;
      log_file := log_file p; listeners := listeners p |}).

Definition is_ipv4_text (addr : bytes) : bool := match addr with c :: _ => isDigit c | [] => false end.
Definition udp_network (addr : bytes) : bytes := if is_ipv4_text addr then str "udp4" else str "udp".
Definition tcp_network (addr : bytes) : bytes := if is_ipv4_text addr then str "tcp4" else str "tcp".

(** The sockets of a process that keeps its user.  The address is the text of the resolved one. *)
Definition udpListenerFromAddr (addr : bytes) p : option Process :=
  let clientPc := UdpSocket (udp_network addr) addr in
  if can_open clientPc then Some (registerUDPListener clientPc p) else None.
Definition tcpListenerFromAddr (addr : bytes) p : option Process :=
  let acceptPc := TcpSocket (tcp_network addr) addr in
  if can_open acceptPc then Some (registerTCPListener acceptPc p) else None.
Definition localDoHListenerFromAddr (addr : bytes) p : option Process :=
  let acceptPc := TcpSocket (tcp_network addr) addr in
  if can_open acceptPc then Some (registerLocalDoHListener acceptPc p) else None.

Definition addDNSListener (who : role) (addr : bytes) p : option Process :=
  let udp := UdpSocket (udp_network addr) addr in
  let tcp := TcpSocket (tcp_network addr) addr in
  if negb (resolves (udp_network addr) addr) || negb (resolves (tcp_network addr) addr) then None
  else match who with
  | SameUser => p ← udpListenerFromAddr addr p; tcpListenerFromAddr addr p
  | Parent => p ← keep_open udp p; keep_open tcp p
  | Child =>
      match inherited p with
      | (Some (UdpSocket n a), p) =>
          match inherited p with
          | (Some (TcpSocket n' a'), p) =>
              Some (registerTCPListener (TcpSocket n' a') (registerUDPListener (UdpSocket n a) p))
          | _ => None
          end
      | _ => None
      end
  end.

Definition addLocalDoHListener (who : role) (addr : bytes) p : option Process :=
  let tcp := TcpSocket (tcp_network addr) addr in
  if negb (resolves (tcp_network addr) addr) then None
  else match who with
  | SameUser => localDoHListenerFromAddr addr p
  | Parent => keep_open tcp p
  | Child =>
      match inherited p with
      | (Some (TcpSocket n a), p) => Some (registerLocalDoHListener (TcpSocket n a) p)
      | _ => None
      end
  end.

Fixpoint add_each (add : bytes -> Process -> option Process) (l : list bytes) p : option Process :=
  match l with
  | [] => Some p
  | addr :: l' => p ← add addr p; add_each add l' p
  end.

(** The part of [configureLogging] that opens the log file; nothing is opened in command
    mode or with syslog. *)
Definition configureLogging (commandMode useSyslog : bool) (logFile : option bytes) (child : bool) p : option Process :=
  if commandMode || useSyslog then Some p
  else match logFile with
  | None => Some p
  | Some path =>
      if child then
        let '(h, p) := inherited p in
        Some {| table := table p; FileDescriptors := FileDescriptors p; FileDescriptorNum := FileDescriptorNum p;
                log_file := h; listeners := listeners p |}
      else
        p ← keep_open (LogFile path) p;
        Some {| table := table p; FileDescriptors := FileDescriptors p; FileDescriptorNum := FileDescriptorNum p;
                log_file := Some (LogFile path); listeners := listeners p |}
  end.

(** ** Sockets of systemd *)

Definition handle_addr (h : handle) : bytes :=
  match h with UdpSocket _ a | TcpSocket _ a => a | LogFile _ => [] end.

Definition systemd_socket (acc : list bytes * Process) (h : handle) : list bytes * Process :=
  let '(addrs, p) := acc in
  let p := match h with
           | TcpSocket _ _ => registerTCPListener h p
           | UdpSocket _ _ => registerUDPListener h p
           | LogFile _ => p
           end in
  let a := handle_addr h in
  (if (0 <? length a)%nat && negb (bool_decide (a ∈ addrs)) then addrs ++ [a] else addrs, p).

(** [files] is what [activation.Files] returns; the listening addresses are replaced. *)
Definition addSystemDListeners (files : list handle) (userName : bytes) (child : bool) (addrs : list bytes) p
    : option (list bytes * Process) :=
  match files with
  | [] => Some (addrs, p)
  | _ => if (0 <? length userName)%nat || child then None else Some (foldl systemd_socket ([], p) files)
  end.

(** ** The change of user *)

(** The files are duplicated to the numbers from the base on; the originals are closed
    when the program is executed again. *)
Fixpoint duplicate (fds : list Z) (i : Z) (t : gmap Z handle) : option (gmap Z handle) :=
  match fds with
  | [] => Some t
  | fd :: fds' =>
      if fd >=? InheritedDescriptorsBase then None
      else match t !! fd with
           | None => None
           | Some h => duplicate fds' (i + 1) (<[InheritedDescriptorsBase + i := h]> t)
           end
  end.

(** [drop_user] is whether the system calls that change the user and its groups succeed. *)
Definition dropPrivilege (drop_user : bool) p : option Process :=
  if negb drop_user then None
  else
    t ← duplicate (FileDescriptors p) 0 (table p);
    Some (new_process (foldr delete t (FileDescriptors p))).
End process.

(** ** Waiting for the network *)

Definition MaxTimeout : Z := 3600.

(** [dial i] is whether the network can be reached at the [i]th attempt; the result is
    the number of seconds that were spent. *)
Fixpoint netprobe_loop (dial : nat -> bool) (tries i : nat) : nat :=
  match tries with
  | O => i
  | S tries' => if dial i then i else netprobe_loop dial tries' (S i)
  end.

(** [NetProbe] once the captive portals are taken care of; [None] is an error: the address is not one. *)
Definition netprobe_wait (resolves : bytes -> bytes -> bool) (dial : nat -> bool) (address : bytes) (timeout : Z) : option nat :=
  if negb (resolves (str "udp") address) then None
  else
    let timeout := if timeout <? 0 then MaxTimeout else Min MaxTimeout timeout in
    Some (netprobe_loop dial (Z.to_nat timeout) 0).

(** ** Start of a process *)

(** [initializeNetworking], after the network is there. *)
Definition open_sockets (resolves : bytes -> bytes -> bool) (can_open : handle -> bool) (fresh : gmap Z handle -> Z)
    (commandMode : bool) (who : role) (listenAddresses localDoHListenAddresses : list bytes) (p : Process) : option Process :=
  if commandMode then Some p
  else
    p ← add_each (addDNSListener resolves can_open fresh who) listenAddresses p;
    add_each (addLocalDoHListener resolves can_open fresh who) localDoHListenAddresses p.
