(* ===== verification/ListenersProps.v ===== *)
(** * Properties of the start of a process

    A process that was started again without privileges has the log file and the listeners
    that a process has which keeps its user; the wait for the network is bounded. *)

From S2P Require Import Prelude GoStrings NetIP Common Listeners.

(** The files that are opened for a listening address, in order. *)
Definition dns_sockets (addr : bytes) : list handle :=
  [UdpSocket (udp_network addr) addr; TcpSocket (tcp_network addr) addr].
Definition doh_sockets (addr : bytes) : list handle := [TcpSocket (tcp_network addr) addr].

(** The kept descriptors refer to [hs]. *)
Definition kept (p : Process) (hs : list handle) : Prop :=
  Forall2 (fun fd h => table p !! fd = Some h) (FileDescriptors p) hs.
(** The next inherited descriptors refer to [hs]. *)
Definition offered (p : Process) (hs : list handle) : Prop :=
  forall j h, hs !! j = Some h -> table p !! (InheritedDescriptorsBase + FileDescriptorNum p + Z.of_nat j) = Some h.

Lemma offered_cons p h hs : offered p (h :: hs) ->
  (inherited p).1 = Some h /\ offered (inherited p).2 hs.
Proof.
  intros H. split; [by rewrite <- (H 0%nat h eq_refl), Z.add_0_r|].
  intros j h' Hj. rewrite <- (H (S j) h' Hj). cbn. f_equal. lia.
Qed.

Section process.
Context (resolves : bytes -> bytes -> bool) (can_open : handle -> bool) (fresh : gmap Z handle -> Z).
Context (fresh_new : forall t, t !! fresh t = None).

Lemma keep_open_kept h p p' hs : keep_open can_open fresh h p = Some p' -> kept p hs ->
  kept p' (hs ++ [h]) /\ can_open h = true /\ log_file p' = log_file p /\ listeners p' = listeners p.
Proof.
  unfold keep_open, kept. destruct (can_open h); [|done]. intros [= <-] Hk; cbn. split_and!; [|done..].
  apply Forall2_app; [|constructor; [by rewrite lookup_insert_eq|constructor]].
  eapply Forall2_impl; [exact Hk|]. intros fd h' Hl; cbn in Hl. rewrite lookup_insert_ne; [done|].
  intros <-. by rewrite fresh_new in Hl.
Qed.

(** What a listening address does in each of the roles. *)
Definition parent_keeps (add : role -> bytes -> Process -> option Process) (socks : bytes -> list handle) : Prop :=
  forall addr p p' hs, add Parent addr p = Some p' -> kept p hs ->
    kept p' (hs ++ socks addr) /\ log_file p' = log_file p /\
    forall q, exists q', add SameUser addr q = Some q' /\ log_file q' = log_file q /\
      forall c rest, offered c (socks addr ++ rest) -> listeners c = listeners q ->
        exists c', add Child addr c = Some c' /\ offered c' rest /\ listeners c' = listeners q' /\ log_file c' = log_file c.

Lemma addDNSListener_keeps : parent_keeps (addDNSListener resolves can_open fresh) dns_sockets.
Proof.
  intros addr p p' hs. unfold addDNSListener. destruct (negb _ || negb _) eqn:Er; [done|].
  destruct (keep_open _ _ _ p) as [p1|] eqn:E1; [|done]. cbn [mbind option_bind]. intros E2 Hk.
  destruct (keep_open_kept _ _ _ _ E1 Hk) as (Hk1 & Hu & Hl1 & _).
  destruct (keep_open_kept _ _ _ _ E2 Hk1) as (Hk2 & Ht & Hl2 & _).
  rewrite <- app_assoc in Hk2. split_and!; [done|congruence|]. intros q.
  unfold udpListenerFromAddr, tcpListenerFromAddr. rewrite Hu. cbn [mbind option_bind]. rewrite Ht.
  eexists. split_and!; [done|done|]. intros c rest Hc Hl.
  destruct (offered_cons _ _ _ Hc) as [H1 Hc1]. destruct (offered_cons _ _ _ Hc1) as [H2 Hc2].
  destruct (inherited c) as [o c1] eqn:Ec. cbn [fst snd] in H1, Hc1, H2, Hc2. subst o.
  destruct (inherited c1) as [o c2] eqn:Ec2. cbn [fst snd] in H2, Hc2. subst o.
  eexists. split_and!; [done|exact Hc2| |]; injection Ec as _ <-; injection Ec2 as _ <-; cbn; [by rewrite Hl|done].
Qed.

Lemma addLocalDoHListener_keeps : parent_keeps (addLocalDoHListener resolves can_open fresh) doh_sockets.
Proof.
  intros addr p p' hs. unfold addLocalDoHListener. destruct (negb _) eqn:Er; [done|].
  intros E1 Hk. destruct (keep_open_kept _ _ _ _ E1 Hk) as (Hk1 & Ht & Hl1 & _).
  split_and!; [done..|]. intros q. unfold localDoHListenerFromAddr. rewrite Ht. eexists. split_and!; [done|done|]. intros c rest Hc Hl.
  destruct (offered_cons _ _ _ Hc) as [H1 Hc1]. destruct (inherited c) as [o c1] eqn:Ec. cbn [fst snd] in H1, Hc1. subst o.
  eexists. split_and!; [done|exact Hc1| |]; injection Ec as _ <-; cbn; [by rewrite Hl|done].
Qed.

Lemma add_each_keeps add socks : parent_keeps add socks -> forall l p p' hs,
  add_each (add Parent) l p = Some p' -> kept p hs ->
  kept p' (hs ++ concat (socks <$> l)) /\ log_file p' = log_file p /\
  forall q, exists q', add_each (add SameUser) l q = Some q' /\ log_file q' = log_file q /\
    forall c rest, offered c (concat (socks <$> l) ++ rest) -> listeners c = listeners q ->
      exists c', add_each (add Child) l c = Some c' /\ offered c' rest /\ listeners c' = listeners q' /\ log_file c' = log_file c.
Proof.
  intros Hadd. induction l as [|addr l IH]; intros p p' hs; csimpl.
  - intros [= <-] Hk. rewrite app_nil_r. split_and!; [done..|]. intros q. eexists. split_and!; [done..|]. eauto.
  - destruct (add Parent addr p) as [p1|] eqn:E1; [|done]. cbn [mbind option_bind]. intros E2 Hk.
    destruct (Hadd _ _ _ _ E1 Hk) as (Hk1 & Hl1 & Hr1). destruct (IH _ _ _ E2 Hk1) as (Hk2 & Hl2 & Hr2).
    rewrite <- app_assoc in Hk2. split_and!; [done|congruence|]. intros q.
    destruct (Hr1 q) as (q1 & -> & Hq1 & Hc1). destruct (Hr2 q1) as (q2 & Eq2 & Hq2 & Hc2). cbn [mbind option_bind].
    exists q2. split_and!; [done|congruence|]. intros c rest Hc Hl. rewrite <- app_assoc in Hc.
    destruct (Hc1 c _ Hc Hl) as (c1 & -> & Ho & Hlc & Hlog). cbn [mbind option_bind].
    destruct (Hc2 c1 rest Ho Hlc) as (c2 & E & Ho2 & Hl3 & Hlog2). exists c2. split_and!; [done..|congruence].
Qed.

Lemma duplicate_low fds : forall i t t', duplicate fds i t = Some t' -> Forall (fun fd => fd < InheritedDescriptorsBase) fds.
Proof.
  induction fds as [|a fds IH]; intros i t t'; cbn [duplicate]; [by constructor|].
  destruct (a >=? InheritedDescriptorsBase) eqn:Ea; [done|]. destruct (t !! a); [|done]. intros H.
  constructor; [by rewrite Z.geb_leb, Z.leb_gt in Ea|eauto].
Qed.

Lemma duplicate_offered fds hs : forall i t t', Forall2 (fun fd h => t !! fd = Some h) fds hs ->
  0 <= i -> duplicate fds i t = Some t' ->
  Forall (fun fd => fd < InheritedDescriptorsBase) fds /\
  (forall fd, fd < InheritedDescriptorsBase + i -> t' !! fd = t !! fd) /\
  forall j h, hs !! j = Some h -> t' !! (InheritedDescriptorsBase + i + Z.of_nat j) = Some h.
Proof.
  revert hs. induction fds as [|fd fds IH]; intros hs i t t' Hf Hi; cbn [duplicate].
  - intros [= <-]. inversion Hf; subst. by split_and!.
  - destruct (fd >=? InheritedDescriptorsBase) eqn:Eb; [done|]. rewrite Z.geb_leb, Z.leb_gt in Eb.
    inversion Hf as [|? h ? hs' Hl Hf' E1 E2]; subst. rewrite Hl. intros Hd.
    pose proof (duplicate_low _ _ _ _ Hd) as Hlow.
    edestruct (IH hs' (i + 1) (<[InheritedDescriptorsBase + i := h]> t) t') as (G1 & G2 & G3); [|lia|done|].
    { clear -Hf' Hlow Hi. induction Hf' as [|a b la lb Hab Hl IH]; [constructor|].
      apply Forall_cons in Hlow as [Ha Hlow]. constructor; [|by apply IH]. rewrite lookup_insert_ne by lia. done. }
    split_and!; [by constructor| |].
    + intros fd' Hfd. rewrite G2 by lia. by rewrite lookup_insert_ne by lia.
    + intros [|j] h' Hj; cbn in Hj.
      * injection Hj as <-. rewrite Z.add_0_r, G2 by lia. by rewrite lookup_insert_eq.
      * rewrite <- (G3 j h' Hj). f_equal. lia.
Qed.

Lemma foldr_delete_high (fds : list Z) (t : gmap Z handle) k :
  Forall (fun fd => fd < InheritedDescriptorsBase) fds -> InheritedDescriptorsBase <= k -> foldr delete t fds !! k = t !! k.
Proof. intros H Hk. induction H as [|fd fds Hfd _ IH]; cbn; [done|]. rewrite lookup_delete_ne by lia. done. Qed.

Lemma dropPrivilege_offers p p' hs : kept p hs -> dropPrivilege true p = Some p' ->
  offered p' hs /\ listeners p' = no_listeners /\ log_file p' = None.
Proof.
  intros Hk. unfold dropPrivilege. cbn [negb]. destruct (duplicate _ _ _) as [t|] eqn:E; [|done].
  intros [= <-]. destruct (duplicate_offered _ _ _ _ _ Hk (Z.le_refl 0) E) as (H1 & H2 & H3).
  split_and!; [|done..]. intros j h Hj. cbn [table FileDescriptorNum new_process].
  rewrite foldr_delete_high; [exact (H3 j h Hj)|done|unfold InheritedDescriptorsBase; lia].
Qed.

Lemma configureLogging_keeps cm sys log p p' : configureLogging can_open fresh cm sys log false p = Some p' ->
  kept p [] -> log_file p = None -> exists hs, kept p' hs /\ listeners p' = listeners p /\
    forall c rest, offered c (hs ++ rest) -> log_file c = None ->
      exists c', configureLogging can_open fresh cm sys log true c = Some c' /\ offered c' rest /\
        listeners c' = listeners c /\ log_file c' = log_file p'.
Proof.
  unfold configureLogging. destruct (cm || sys); [intros [= <-] Hk Hn; exists []; split_and!; [done..|]; intros c rest; eexists; split_and!; [done..|congruence]|].
  destruct log as [path|]; [|intros [= <-] Hk Hn; exists []; split_and!; [done..|]; intros c rest; eexists; split_and!; [done..|congruence]].
  destruct (keep_open _ _ _ p) as [p1|] eqn:E1; [|done]. cbn [mbind option_bind]. intros [= <-] Hk Hn.
  destruct (keep_open_kept _ _ _ _ E1 Hk) as (Hk1 & _ & _ & Hl). exists [LogFile path]. split_and!; [exact Hk1|done|].
  intros c rest Hc _. destruct (offered_cons _ _ _ Hc) as [H1 Hc1]. destruct (inherited c) as [o c1] eqn:Ec.
  cbn [fst snd] in H1, Hc1. subst o. eexists. split_and!; [done|exact Hc1| |done]. by injection Ec as _ <-.
Qed.

(** C26: the process without privileges listens where it should.  If the first process could open the log
    file and the sockets, and hand them over, the process that it starts again as another
    user does not fail: its log file and its listeners, each of the right kind and in the
    order of the addresses, are those of a process that opens them itself. *)
Theorem inherited_listeners cm sys log addrs dohAddrs files p0 p1 c0 :
  configureLogging can_open fresh cm sys log false (new_process files) = Some p0 ->
  open_sockets resolves can_open fresh cm Parent addrs dohAddrs p0 = Some p1 ->
  dropPrivilege true p1 = Some c0 ->
  exists c1 c2 q, configureLogging can_open fresh cm sys log true c0 = Some c1 /\
    open_sockets resolves can_open fresh cm Child addrs dohAddrs c1 = Some c2 /\
    open_sockets resolves can_open fresh cm SameUser addrs dohAddrs p0 = Some q /\
    listeners c2 = listeners q /\ log_file c2 = log_file q.
Proof.
  intros E0 E1 Ed. destruct (configureLogging_keeps _ _ _ _ _ E0) as (hs & Hk & Hl & Hc); [constructor|done|].
  unfold open_sockets in *. destruct cm.
  - injection E1 as <-. destruct (dropPrivilege_offers _ _ _ Hk Ed) as (Ho & Hl0 & Hn).
    destruct (Hc c0 []) as (c1 & E & _ & Hl1 & Hlog); [by rewrite app_nil_r|done|].
    exists c1, c1, p0. split_and!; [done..| |done]. by rewrite Hl1, Hl0, Hl.
  - destruct (add_each _ addrs p0) as [p|] eqn:Ea; [|done]. cbn [mbind option_bind] in E1.
    destruct (add_each_keeps _ _ addDNSListener_keeps _ _ _ _ Ea Hk) as (Hk1 & _ & Hr1).
    destruct (add_each_keeps _ _ addLocalDoHListener_keeps _ _ _ _ E1 Hk1) as (Hk2 & _ & Hr2).
    destruct (dropPrivilege_offers _ _ _ Hk2 Ed) as (Ho & Hl0 & Hn).
    rewrite <- app_assoc in Ho. destruct (Hc c0 _ Ho Hn) as (c1 & Ec1 & Ho1 & Hl1 & Hlog1).
    destruct (Hr1 p0) as (q1 & Eq1 & Hq1 & Hd1). destruct (Hd1 c1 _ Ho1) as (c2 & Ec2 & Ho2 & Hl2 & Hlog2); [by rewrite Hl1, Hl0, Hl|].
    destruct (Hr2 q1) as (q2 & Eq2 & Hq2 & Hd2). rewrite <- (app_nil_r (concat _)) in Ho2.
    destruct (Hd2 c2 _ Ho2 Hl2) as (c3 & Ec3 & _ & Hl3 & Hlog3).
    exists c1, c3, q2. rewrite Ec2, Eq1. cbn [mbind option_bind]. split_and!; [done..|congruence].
Qed.
End process.

Definition ex_fresh (t : gmap Z handle) : Z := foldr Z.max 2 (map_to_list t).*1 + 1.
Lemma ex_fresh_new t : t !! ex_fresh t = None.
Proof.
  destruct (t !! ex_fresh t) as [h|] eqn:E; [|done]. exfalso. apply elem_of_map_to_list in E.
  assert (forall (l : list (Z * handle)) k h, (k, h) ∈ l -> k < foldr Z.max 2 l.*1 + 1) as Hmax.
  { intros l k h'. induction l as [|[k' h''] l IH]; csimpl; [by intros ?%elem_of_nil|].
    rewrite elem_of_cons. intros [[= <- <-]|H%IH]; lia. }
  apply Hmax in E. unfold ex_fresh in E. lia.
Qed.

Local Notation ex_open := (fun _ : handle => true).
Local Notation ex_resolves := (fun _ _ : bytes => true).
Local Notation ex_addrs := [str "127.0.0.1:53"; str "[::1]:53"].
Local Notation ex_log := (Some (str "/var/log/dnscrypt-proxy.log")).

Lemma inherited_listeners_witness :
  exists c1 c2,
    (p0 ← configureLogging ex_open ex_fresh false false ex_log false (new_process ∅);
     p1 ← open_sockets ex_resolves ex_open ex_fresh false Parent ex_addrs [str "127.0.0.1:443"] p0;
     c0 ← dropPrivilege true p1; configureLogging ex_open ex_fresh false false ex_log true c0) = Some c1 /\
    open_sockets ex_resolves ex_open ex_fresh false Child ex_addrs [str "127.0.0.1:443"] c1 = Some c2 /\
    tcpListeners (listeners c2) = [TcpSocket (str "tcp4") (str "127.0.0.1:53"); TcpSocket (str "tcp") (str "[::1]:53")].
Proof.
  destruct (configureLogging ex_open ex_fresh false false ex_log false (new_process ∅)) as [p0|] eqn:E0; [|by vm_compute in E0].
  destruct (open_sockets ex_resolves ex_open ex_fresh false Parent ex_addrs [str "127.0.0.1:443"] p0) as [p1|] eqn:E1;
    [|vm_compute in E0; injection E0 as <-; by vm_compute in E1].
  destruct (dropPrivilege true p1) as [c0|] eqn:E2;
    [|vm_compute in E0; injection E0 as <-; vm_compute in E1; injection E1 as <-; by vm_compute in E2].
  destruct (inherited_listeners ex_resolves ex_open ex_fresh ex_fresh_new _ _ _ _ _ _ _ _ _ E0 E1 E2)
    as (c1 & c2 & q & H1 & H2 & H3 & H4 & _).
  exists c1, c2. cbn [mbind option_bind]. rewrite E1. cbn [mbind option_bind]. rewrite E2.
  split_and!; [exact H1|exact H2|]. rewrite H4.
  vm_compute in E0. injection E0 as <-. vm_compute in H3. injection H3 as <-. reflexivity.
Defined.

(** ** Waiting for the network *)

Lemma netprobe_loop_bounds dial tries : forall i, (i <= netprobe_loop dial tries i <= i + tries)%nat /\
  ((netprobe_loop dial tries i < i + tries)%nat -> dial (netprobe_loop dial tries i) = true).
Proof.
  induction tries as [|tries IH]; intros i; cbn; [split; lia|]. destruct (dial i) eqn:E; [split; [lia|done]|].
  destruct (IH (S i)) as [H1 H2]. split; [lia|]. intros H. apply H2. lia.
Qed.
