(* ===== verification/ColdStart.v ===== *)
(** * Waiting for the network (src/dnscrypt-proxy/coldstart.go, netprobe_others.go, netprobe_windows.go)

    Before it opens its sockets, the proxy waits for the network, and answers meanwhile the
    queries for the names of captive portals on the addresses it will listen to.  A goroutine per
    address does this, until [Stop] closes the channel and waits for them.

    When the wait is over, the addresses are free again: otherwise the proxy could not
    listen to them.  The goroutines and the caller of [Stop] are the steps of [cold_step]; the
    end of the loop of a goroutine, the closing of its socket and its end are three moments. *)

From S2P Require Import Prelude GoStrings NetIP Common Dns DnsUtils DnsUtilsProps Plugins QueryPlugins QueryPluginsProps Listeners ListenersProps.

(** ** The goroutines *)

(** Where a goroutine is: in its loop, after it, or at its end. *)
Inductive cold_pc := Looping | Closing | Ended.

(** A listener is its socket, whether it is open, where its goroutine is, and what it sent. *)
Record ColdListener := { cl_socket : handle; cl_open : bool; cl_pc : cold_pc; cl_sent : list bytes }.

(** [wg] has the goroutines that were started. *)
Record CaptivePortalHandler := { cancelChannel_closed : bool; wg : list ColdListener }.

Section cold.
Context `{D : DnsLib}.
(** The addresses that resolve, and the sockets that can be opened. *)
Context (resolves : bytes -> bytes -> bool) (can_listen : handle -> bool).

Inductive cold_error := BadAddress | CannotListen | CannotReadMap | PortalSyntax (line : nat) | PortalName (e : name_error).

(** A round of the loop of a goroutine.  The read ends after a second at most, with
    [ColdTimeout] if nothing was received; the loop ends when the round says so. *)
Definition listener_round (cancelled : bool) (read : cold_read) (ipsMap : CaptivePortalMap) (g : ColdListener) : ColdListener :=
  let '(response, exit) := handleColdStartClient cancelled read ipsMap in
  {| cl_socket := cl_socket g; cl_open := cl_open g; cl_pc := if exit then Closing else Looping;
     cl_sent := cl_sent g ++ option_list response |}.

(** [clientPc.Close], after the loop. *)
Definition listener_close (g : ColdListener) : ColdListener :=
  {| cl_socket := cl_socket g; cl_open := false; cl_pc := Ended; cl_sent := cl_sent g |}.

(** [wg.Wait] returns when the goroutines have ended. *)
Definition wg_Wait (h : CaptivePortalHandler) : Prop := Forall (fun g => cl_pc g = Ended) (wg h).

(** The caller of [Stop]: it has not called it, it waits in it, or it has returned from it. *)
Inductive stop_pc := NotCalled | Waiting | Returned.
Record ColdRun := { cr_handler : CaptivePortalHandler; cr_stop : stop_pc }.

Inductive Stop : ColdRun -> ColdRun -> Prop :=
  | StopClose h : Stop {| cr_handler := h; cr_stop := NotCalled |}
      {| cr_handler := {| cancelChannel_closed := true; wg := wg h |}; cr_stop := Waiting |}
  | StopWait h : wg_Wait h -> Stop {| cr_handler := h; cr_stop := Waiting |} {| cr_handler := h; cr_stop := Returned |}.

Definition set_listener (i : nat) (g : ColdListener) (r : ColdRun) : ColdRun :=
  {| cr_handler := {| cancelChannel_closed := cancelChannel_closed (cr_handler r); wg := <[i := g]> (wg (cr_handler r)) |};
     cr_stop := cr_stop r |}.

Inductive cold_step (ipsMap : CaptivePortalMap) : ColdRun -> ColdRun -> Prop :=
  | ColdRound r i g read :
      wg (cr_handler r) !! i = Some g -> cl_pc g = Looping ->
      cold_step ipsMap r (set_listener i (listener_round (cancelChannel_closed (cr_handler r)) read ipsMap g) r)
  | ColdClose r i g :
      wg (cr_handler r) !! i = Some g -> cl_pc g = Closing -> cold_step ipsMap r (set_listener i (listener_close g) r)
  | ColdStop r r' : Stop r r' -> cold_step ipsMap r r'.

(** ** The start *)

(** An empty address is not listened to, and is not an error. *)
Definition addColdStartListener (addr : bytes) (h : CaptivePortalHandler) : option cold_error * CaptivePortalHandler :=
  if bool_decide (addr = []) then (None, h)
  else
    let network := udp_network addr in
    if negb (resolves network addr) then (Some BadAddress, h)
    else if negb (can_listen (UdpSocket network addr)) then (Some CannotListen, h)
    else (None, {| cancelChannel_closed := cancelChannel_closed h;
                   wg := wg h ++ [{| cl_socket := UdpSocket network addr; cl_open := true; cl_pc := Looping; cl_sent := [] |}] |}).

(** The rules: [err] keeps the error of the last name that could not be normalised. *)
Fixpoint cold_lines (lineNo : nat) (lines : list bytes) (err : option cold_error) (ipsMap : CaptivePortalMap)
    : result cold_error (option cold_error * CaptivePortalMap) :=
  match lines with
  | [] => Ok (err, ipsMap)
  | line :: lines' =>
      let line := TrimAndStripInlineComments line in
      if len line =? 0 then cold_lines (S lineNo) lines' err ipsMap
      else
        let '(name, ipsStr, ok) := StringTwoFields line in
        if negb ok then Err (PortalSyntax (1 + lineNo))
        else match NormalizeQName name with
        | Err e => cold_lines (S lineNo) lines' (Some (PortalName e)) ipsMap
        | Ok name =>
            if Contains ipsStr (str "*") then Err (PortalSyntax (1 + lineNo))
            else match parse_portal_ips (Split ipsStr 44) with
            | None => Err (PortalSyntax (1 + lineNo))
            | Some ips => cold_lines (S lineNo) lines' None (<[name := ips]> ipsMap)
            end
        end
  end.

Fixpoint add_cold_listeners (addrs : list bytes) (err : option cold_error) (ok : bool) (h : CaptivePortalHandler)
    : option cold_error * bool * CaptivePortalHandler :=
  match addrs with
  | [] => (err, ok, h)
  | addr :: addrs' =>
      let '(err, h) := addColdStartListener addr h in
      add_cold_listeners addrs' err (ok || bool_decide (err = None)) h
  end.

(** What [ColdStart] returns, and the map that it leaves in the proxy. *)
Record ColdStarted := {
  cs_handler : option CaptivePortalHandler;
  cs_error : option cold_error;
  cs_map : option CaptivePortalMap;
}.

Definition ColdStart (read_file : bytes -> option bytes) (mapFile : bytes) (listenAddresses : list bytes)
    (captivePortalMap : option CaptivePortalMap) : ColdStarted :=
  if bool_decide (mapFile = []) then {| cs_handler := None; cs_error := None; cs_map := captivePortalMap |}
  else match read_file mapFile with
  | None => {| cs_handler := None; cs_error := Some CannotReadMap; cs_map := captivePortalMap |}
  | Some bin =>
      match cold_lines 0 (Split (ReadTextFile bin) 10) None ∅ with
      | Err e => {| cs_handler := None; cs_error := Some e; cs_map := captivePortalMap |}
      | Ok (err, ipsMap) =>
          let '(err, ok, h) :=
            add_cold_listeners listenAddresses err false {| cancelChannel_closed := false; wg := [] |} in
          {| cs_handler := Some h; cs_error := if ok then None else err; cs_map := Some ipsMap |}
      end
  end.

(** ** The wait *)

(** An attempt to reach the network: the dial, and the write of one byte on Windows. *)
Inductive attempt := DialFailed | WriteFailed | Connected.
Definition reached_unix (a : attempt) : bool := match a with DialFailed => false | _ => true end.
Definition reached_windows (a : attempt) : bool := match a with Connected => true | _ => false end.

(** The answer of [NetProbe], the map in the proxy, and the handler that was started and then
    stopped, if any. *)
Record Probed := {
  pb_wait : option nat;
  pb_map : option CaptivePortalMap;
  pb_handler : option CaptivePortalHandler;
}.

Definition NetProbe_with (reached : attempt -> bool) (read_file : bytes -> option bytes) (attempts : nat -> attempt)
    (mapFile : bytes) (listenAddresses : list bytes) (captivePortalMap : option CaptivePortalMap) (address : bytes) (timeout : Z)
    : Probed :=
  if (length address =? 0)%nat || (timeout =? 0) then {| pb_wait := Some O; pb_map := captivePortalMap; pb_handler := None |}
  else
    let started := ColdStart read_file mapFile listenAddresses captivePortalMap in
    {| pb_wait := netprobe_wait resolves (fun i => reached (attempts i)) address timeout;
       pb_map := cs_map started;
       pb_handler := match cs_error started with None => cs_handler started | Some _ => None end |}.

Definition NetProbe := NetProbe_with reached_unix.
Definition NetProbe_windows := NetProbe_with reached_windows.
End cold.

(** ** Properties *)

Example cold_lines_ex : cold_lines 0 (Split (str "a 192.0.2.1, 2001:db8::1") 10) None ∅ =
  Ok (None, {[ str "a" := [v4_in_v6_prefix ++ [192; 0; 2; 1]; [32; 1; 13; 184; 0; 0; 0; 0; 0; 0; 0; 0; 0; 0; 0; 1]] ]}).
Proof. reflexivity. Qed.

(** The wait for the network at start-up is bounded: at most an hour whatever the setting, at most
    the configured number of seconds if it is positive, and none if it is zero; when it ends earlier, the network
    answers. *)
Lemma netprobe_wait_bounded resolves dial address timeout n : netprobe_wait resolves dial address timeout = Some n ->
  Z.of_nat n <= MaxTimeout /\ (0 <= timeout -> Z.of_nat n <= timeout) /\
  (Z.of_nat n < Min MaxTimeout timeout -> dial n = true).
Proof.
  unfold netprobe_wait, Min, MaxTimeout. destruct (negb _); [done|]. intros [= <-].
  destruct (timeout <? 0) eqn:E1, (3600 <? timeout) eqn:E2; bools;
    match goal with |- context [netprobe_loop dial ?k ?i] => destruct (netprobe_loop_bounds dial k i) as [H1 H2] end;
    split_and!; try lia; intros Hlt; apply H2; lia.
Qed.

Section cold.
Context `{D : DnsLib} (resolves : bytes -> bytes -> bool) (can_listen : handle -> bool).
Implicit Types (h : CaptivePortalHandler) (g : ColdListener).

(** An answer of the map: the response to a query for a name of the map, with addresses that the
    map has for it. *)
Definition portal_answer (ipsMap : CaptivePortalMap) (response : bytes) : Prop :=
  exists packet msg q name ips m, Unpack packet = Some msg /\ Questions msg = [q] /\
    NormalizeQName (q_Name q) = Ok name /\ ipsMap !! name = Some ips /\ Pack m = Some response /\ ID (MH m) = ID (MH msg) /\
    forall rr, rr ∈ Answer m -> Name (hdr rr) = q_Name q /\ RRToType rr = q_Type q /\
      exists ip, ip ∈ ips /\ (data rr = RD_A (default [] (To4 ip)) \/ data rr = RD_AAAA (default [] (To16 ip))).

Lemma handleColdStartClient_answer cancelled read ipsMap response exit :
  handleColdStartClient cancelled read ipsMap = (Some response, exit) -> portal_answer ipsMap response.
Proof.
  unfold handleColdStartClient. destruct cancelled; [done|]. destruct read as [packet| |]; [|done..].
  destruct (Unpack packet) as [msg|] eqn:Eu; [|done]. unfold GetEntry.
  destruct (Questions msg) as [|q [|]] eqn:Eq; [done| |done].
  destruct (NormalizeQName (q_Name q)) as [name|] eqn:En; [|done].
  destruct (ipsMap !! name) as [ips|] eqn:Em; [|done]. destruct (negb _); [done|].
  intros [= Hp <-]. exists packet, msg, q, name, ips, (HandleCaptivePortalQuery msg q ips). split_and!; try done.
  intros rr Hrr. apply HandleCaptivePortalQuery_answers in Hrr as (H1 & _ & H2 & H3). done.
Qed.

(** What a listener may be: a socket of a listening address, that only sent answers of the map,
    and that is closed at the end. *)
Record listener_ok (addrs : list bytes) (ipsMap : CaptivePortalMap) (g : ColdListener) : Prop := {
  lo_address : exists addr, addr ∈ addrs /\ addr <> [] /\ cl_socket g = UdpSocket (udp_network addr) addr;
  lo_sent : Forall (portal_answer ipsMap) (cl_sent g);
  lo_closed : cl_pc g = Ended -> cl_open g = false;
}.

Lemma listener_round_ok addrs ipsMap cancelled read g :
  listener_ok addrs ipsMap g -> listener_ok addrs ipsMap (listener_round cancelled read ipsMap g).
Proof.
  intros [H1 H2 _]. unfold listener_round. destruct (handleColdStartClient cancelled read ipsMap) as [r exit] eqn:E.
  constructor; [done| |by destruct exit]. apply Forall_app. split; [done|]. destruct r as [r|]; [|done].
  apply Forall_singleton. by eapply handleColdStartClient_answer.
Qed.

Lemma listener_close_ok addrs ipsMap g : listener_ok addrs ipsMap g -> listener_ok addrs ipsMap (listener_close g).
Proof. by intros [H1 H2 _]. Qed.

(** The channel is closed once [Stop] has been called, and the goroutines have ended once it has returned. *)
Definition run_ok (addrs : list bytes) (ipsMap : CaptivePortalMap) (r : ColdRun) : Prop :=
  Forall (listener_ok addrs ipsMap) (wg (cr_handler r)) /\
  (cr_stop r <> NotCalled -> cancelChannel_closed (cr_handler r) = true) /\
  (cr_stop r = Returned -> wg_Wait (cr_handler r)).

Lemma cold_step_ok addrs ipsMap r r' : cold_step ipsMap r r' -> run_ok addrs ipsMap r -> run_ok addrs ipsMap r'.
Proof.
  assert (forall i g k, wg (cr_handler r) !! i = Some g -> cl_pc g <> Ended -> listener_ok addrs ipsMap k ->
    run_ok addrs ipsMap r -> run_ok addrs ipsMap (set_listener i k r)) as Hset.
  { intros i g k Hi Hg Hk (H1 & H2 & H3). split_and!; cbn; [by apply Forall_insert|done|].
    intros Hr. destruct Hg. exact (Forall_lookup_1 _ _ _ _ (H3 Hr) Hi). }
  intros Hs Hok. assert (forall i g, wg (cr_handler r) !! i = Some g -> listener_ok addrs ipsMap g) as Hg.
  { intros i g. by apply Forall_lookup_1, Hok. }
  destruct Hs as [r i g read Hi Hpc|r i g Hi Hpc|r r' Hs].
  - eapply Hset; [done|congruence|by eapply listener_round_ok, Hg|done].
  - eapply Hset; [done|congruence|by eapply listener_close_ok, Hg|done].
  - destruct Hok as (H1 & H2 & H3). destruct Hs as [h|h Hw]; split_and!; try done. cbn. intros _. by apply H2.
Qed.

Lemma cold_steps_ok addrs ipsMap r r' : rtc (cold_step ipsMap) r r' -> run_ok addrs ipsMap r -> run_ok addrs ipsMap r'.
Proof. induction 1; [done|]. eauto using cold_step_ok. Qed.

(** *** The end of the goroutines *)

(** What is left to do: a round and a close, or a close, per goroutine, and the return of [Stop]. *)
Definition todo (g : ColdListener) : nat := match cl_pc g with Looping => 2 | Closing => 1 | Ended => 0 end.
Definition steps_left (r : ColdRun) : nat :=
  (sum_list_with todo (wg (cr_handler r)) + match cr_stop r with Waiting => 1 | _ => 0 end)%nat.

Lemma todo_insert (l : list ColdListener) i g k : l !! i = Some g ->
  (sum_list_with todo (<[i := k]> l) + todo g = sum_list_with todo l + todo k)%nat.
Proof.
  revert i. induction l as [|x l IH]; intros [|i]; try done; cbn [insert list_insert sum_list_with lookup list_lookup].
  - intros [= ->]. lia.
  - intros Hi. rewrite <-!Nat.add_assoc. f_equal. exact (IH i Hi).
Qed.

Lemma todo_bound l : (sum_list_with todo l <= 2 * length l)%nat.
Proof.
  induction l as [|g l IH]; cbn [sum_list_with length]; [lia|].
  assert (todo g <= 2)%nat by (unfold todo; destruct (cl_pc g); lia). lia.
Qed.

(** Once the channel is closed, a round is the last one of its goroutine, whatever was read. *)
Lemma cancelled_round read ipsMap g : cl_pc (listener_round true read ipsMap g) = Closing.
Proof. done. Qed.

Lemma cancelled_step addrs ipsMap r r' : run_ok addrs ipsMap r -> cr_stop r <> NotCalled -> cold_step ipsMap r r' ->
  cr_stop r' <> NotCalled /\ steps_left r = S (steps_left r').
Proof.
  intros (_ & H2 & _) Hc Hs. destruct Hs as [r i g read Hi Hpc|r i g Hi Hpc|r r' Hs].
  - split; [done|]. rewrite H2 by done. unfold steps_left. cbn [set_listener cr_handler cr_stop wg].
    pose proof (todo_insert _ _ _ (listener_round true read ipsMap g) Hi) as Hl.
    assert (todo g = 2%nat) by (unfold todo; by rewrite Hpc). change (todo (listener_round _ _ _ _)) with 1%nat in Hl. lia.
  - split; [done|]. unfold steps_left. cbn [set_listener cr_handler cr_stop wg].
    pose proof (todo_insert _ _ _ (listener_close g) Hi) as Hl.
    assert (todo g = 1%nat) by (unfold todo; by rewrite Hpc). change (todo (listener_close g)) with 0%nat in Hl. lia.
  - destruct Hs as [h|h Hw]; [done|]. split; [done|]. unfold steps_left. cbn. lia.
Qed.

Lemma cancelled_steps addrs ipsMap n r r' : run_ok addrs ipsMap r -> cr_stop r <> NotCalled ->
  nsteps (cold_step ipsMap) n r r' -> (n + steps_left r' = steps_left r)%nat.
Proof.
  intros Hok Hc Hn. revert Hok Hc. induction Hn as [|n r r1 r2 Hs Hn IH]; intros Hok Hc; [done|].
  destruct (cancelled_step _ _ _ _ Hok Hc Hs) as [Hc' Hm]. specialize (IH (cold_step_ok _ _ _ _ Hs Hok) Hc'). lia.
Qed.

(** As long as [Stop] has not returned, something can be done. *)
Lemma waiting_progress ipsMap r : cr_stop r = Waiting -> exists r', cold_step ipsMap r r'.
Proof.
  intros Hw. destruct r as [h stop]. cbn in Hw. subst stop.
  destruct (decide (Forall (fun g => todo g = 0%nat) (wg h))) as [H|H].
  - exists {| cr_handler := h; cr_stop := Returned |}. constructor. constructor. eapply Forall_impl; [exact H|].
    intros g. unfold todo. by destruct (cl_pc g).
  - apply not_Forall_Exists, Exists_exists in H as (g & (i & Hi)%list_elem_of_lookup_1 & Hg); [|apply _].
    destruct (cl_pc g) eqn:Hpc.
    + eexists. by apply (ColdRound ipsMap _ i g ColdTimeout).
    + eexists. by apply (ColdClose ipsMap _ i g).
    + destruct Hg. unfold todo. by rewrite Hpc.
Qed.

(** *** The start *)

Lemma add_cold_listeners_ok addrs0 ipsMap addrs err ok h err' ok' h' :
  add_cold_listeners resolves can_listen addrs err ok h = (err', ok', h') ->
  (forall a, a ∈ addrs -> a ∈ addrs0) -> (ok = false -> wg h = []) -> Forall (listener_ok addrs0 ipsMap) (wg h) ->
  (ok' = false -> wg h' = []) /\ Forall (listener_ok addrs0 ipsMap) (wg h').
Proof.
  revert err ok h. induction addrs as [|addr addrs IH]; intros err ok h; cbn [add_cold_listeners]; [by intros [= <- <- <-]|].
  destruct (addColdStartListener _ _ addr h) as [err1 h1] eqn:E. intros H Hin Ho Hok.
  apply (IH _ _ _ H); [set_solver| |].
  - intros [Hof Hd]%orb_false_iff. apply bool_decide_eq_false in Hd. revert E. unfold addColdStartListener.
    destruct (bool_decide (addr = [])); [by intros [= <- <-]|]. destruct (negb (resolves _ _)); [intros [= <- <-]; auto|].
    destruct (negb (can_listen _)); intros [= <- <-]; [auto|done].
  - revert E. unfold addColdStartListener. destruct (bool_decide_reflect (addr = [])); [by intros [= <- <-]|].
    destruct (negb (resolves _ _)); [by intros [= <- <-]|]. destruct (negb (can_listen _)); intros [= <- <-]; [done|].
    cbn. apply Forall_app. split; [done|]. apply Forall_singleton. constructor; [|done..]. exists addr. set_solver.
Qed.

(** C28: while the proxy waits for the network, and whatever happens meanwhile, nothing is sent but
    answers to queries for names of the captive portal map, with the addresses that the map has for them,
    from the addresses that are configured; the map is the one that the proxy keeps.  A handler that is not stopped, because of an error, has no goroutine.
    [Stop] always ends: once it has been called, in any order of the steps and whatever
    is received, or if nothing is, a goroutine makes at most one more round, at most two steps per goroutine and one of the caller
    are made, and as long as [Stop] has not returned a step can be made.  When it has returned, every
    socket has been closed, so that the proxy can listen to the same addresses, and nothing moves any more. *)
Theorem cold_start_released read_file mapFile addrs m h
  (Hh : cs_handler (ColdStart resolves can_listen read_file mapFile addrs m) = Some h) :
  exists ipsMap, cs_map (ColdStart resolves can_listen read_file mapFile addrs m) = Some ipsMap /\
  (cs_error (ColdStart resolves can_listen read_file mapFile addrs m) <> None -> wg h = []) /\
  forall r, rtc (cold_step ipsMap) {| cr_handler := h; cr_stop := NotCalled |} r ->
    Forall (fun g => (exists addr, addr ∈ addrs /\ addr <> [] /\ cl_socket g = UdpSocket (udp_network addr) addr) /\
                     Forall (portal_answer ipsMap) (cl_sent g)) (wg (cr_handler r)) /\
    (cr_stop r = Waiting ->
       (forall i g read, wg (cr_handler r) !! i = Some g -> cl_pc g = Looping ->
          cl_pc (listener_round (cancelChannel_closed (cr_handler r)) read ipsMap g) = Closing) /\
       (forall n r', nsteps (cold_step ipsMap) n r r' -> (n <= 2 * length (wg (cr_handler r)) + 1)%nat) /\
       (exists r', cold_step ipsMap r r')) /\
    (cr_stop r = Returned ->
       Forall (fun g => cl_open g = false) (wg (cr_handler r)) /\ ~ exists r', cold_step ipsMap r r').
Proof.
  revert Hh. unfold ColdStart. case_bool_decide; [done|]. destruct (read_file mapFile) as [bin|]; [|done].
  destruct (cold_lines _ _ _ _) as [[err ipsMap]|e]; [|done].
  destruct (add_cold_listeners _ _ _ _ _ _) as [[err' ok] h0] eqn:E. cbn. intros [= <-]. exists ipsMap.
  destruct (add_cold_listeners_ok addrs ipsMap _ _ _ _ _ _ _ E) as [H1 H2]; [done|done|done|].
  split_and!; [done|by destruct ok; auto|]. intros r Hr.
  assert (run_ok addrs ipsMap r) as Hok by (by eapply cold_steps_ok; [exact Hr|]). split_and!.
  - eapply Forall_impl; [exact (proj1 Hok)|]. by intros g [? ? _].
  - intros Hw. split_and!; [|intros n r' Hn|by apply waiting_progress].
    + intros i g read _ _. by rewrite (proj1 (proj2 Hok)) by congruence.
    + assert (Hb := cancelled_steps _ _ _ _ _ Hok ltac:(congruence) Hn). unfold steps_left in Hb. rewrite Hw in Hb.
      pose proof (todo_bound (wg (cr_handler r))). lia.
  - intros Hret. destruct Hok as (Hl & _ & Hend). specialize (Hend Hret). split.
    + apply Forall_lookup. intros i g Hi. apply (lo_closed addrs ipsMap); [by eapply Forall_lookup_1|].
      exact (Forall_lookup_1 _ _ _ _ Hend Hi).
    + intros [r' Hs]. destruct Hs as [r i g read Hi Hpc|r i g Hi Hpc|r r' Hs];
        [assert (Hg := Forall_lookup_1 _ _ _ _ Hend Hi); cbn in Hg; congruence..|]. by destruct Hs.
Qed.
End cold.

Definition ex_cold : ColdStarted :=
  ColdStart (fun _ _ => true) (fun _ => true) (fun _ => Some (str "a 192.0.2.1")) (str "portals.txt") [str "127.0.0.1:53"; []] None.

(** One goroutine; [Stop] is called, a round and a close are made, and it returns. *)
Lemma cold_start_released_witness : exists h ipsMap r, cs_handler ex_cold = Some h /\ length (wg h) = 1%nat /\
  rtc (cold_step (D := sample_DnsLib) ipsMap) {| cr_handler := h; cr_stop := NotCalled |} r /\
  cr_stop r = Returned /\ Forall (fun g => cl_open g = false) (wg (cr_handler r)).
Proof.
  assert (exists h, cs_handler ex_cold = Some h /\ wg h = [{| cl_socket := UdpSocket (str "udp4") (str "127.0.0.1:53");
    cl_open := true; cl_pc := Looping; cl_sent := [] |}]) as (h & Hh & Hl) by (eexists; split; vm_compute; reflexivity).
  destruct (cold_start_released (D := sample_DnsLib) _ _ _ _ _ _ _ Hh) as (ipsMap & _ & _ & H).
  assert (exists r, rtc (cold_step (D := sample_DnsLib) ipsMap) {| cr_handler := h; cr_stop := NotCalled |} r /\
    cr_stop r = Returned) as (r & Hr & Hs).
  { eexists. split.
    - eapply rtc_l; [apply ColdStop, StopClose|]. eapply rtc_l; [eapply (ColdRound _ _ 0 _ ColdTimeout); [cbn; rewrite Hl; reflexivity|reflexivity]|].
      eapply rtc_l; [eapply (ColdClose _ _ 0); [cbn; rewrite Hl; reflexivity|reflexivity]|].
      eapply rtc_l; [apply ColdStop, StopWait; unfold wg_Wait; cbn; rewrite Hl; by repeat constructor|]. apply rtc_refl.
    - reflexivity. }
  exists h, ipsMap, r. split; [exact Hh|]. split; [by rewrite Hl|]. split; [exact Hr|]. split; [exact Hs|].
  exact (proj1 (proj2 (proj2 (H r Hr)) Hs)).
Defined.
