(* ===== verification/Config.v ===== *)
(** * Settings (src/dnscrypt-proxy/config.go, config_loader.go)

    The configuration, its defaults, and the functions that check the settings and set the
    fields of the proxy.  The fields of [Proxy] are grouped by the function that sets them;
    a function returns its group, or the error that ends the program.  [toml] decodes the
    file: a [Config] is its result. *)

From S2P Require Import Prelude GoStrings GoFloat NetIP Common Crypto Dns Metrics ServerTypes Mds Servers Feedback TimeRanges.
From S2P Require Import Plugins RuleLog Query Clients Url XTransport Sources Observability Monitoring Prometheus MonitoringUI.

(** ** Durations ([time.ParseDuration]) *)

Definition two63 : Z := 2 ^ 63.

Fixpoint leadingInt (s : bytes) (x : Z) : option (Z * bytes) :=
  match s with
  | c :: s' =>
      if is_digit_byte c then
        if x >? two63 / 10 then None
        else
          let x := x * 10 + (c - 48) in
          if x >? two63 then None else leadingInt s' x
      else Some (x, s)
  | [] => Some (x, s)
  end.

Fixpoint leadingFraction (s : bytes) (x : Z) (scale : float) (overflow : bool) : Z * float * bytes :=
  match s with
  | c :: s' =>
      if is_digit_byte c then
        if overflow || (x >? (two63 - 1) / 10) then leadingFraction s' x scale true
        else
          let y := x * 10 + (c - 48) in
          if y >? two63 then leadingFraction s' x scale true else leadingFraction s' y (scale * 10)%float false
      else (x, scale, s)
  | [] => (x, scale, s)
  end.

Definition unitMap (u : bytes) : option Z :=
  if bool_decide (u = str "ns") then Some 1
  else if bool_decide (u = str "us" \/ u = [194; 181; 115] \/ u = [206; 188; 115]) then Some 1000
  else if bool_decide (u = str "ms") then Some Millisecond
  else if bool_decide (u = str "s") then Some Second
  else if bool_decide (u = str "m") then Some Minute
  else if bool_decide (u = str "h") then Some Hour
  else None.

Fixpoint unit_length (s : bytes) : nat :=
  match s with
  | c :: s' => if (c =? 46) || is_digit_byte c then O else Datatypes.S (unit_length s')
  | [] => O
  end.

(** A number and its unit; the duration and the rest of the text. *)
Definition parse_term (s : bytes) : option (Z * bytes) :=
  match s with
  | [] => None
  | c :: _ =>
      if negb ((c =? 46) || is_digit_byte c) then None
      else
        p ← leadingInt s 0;
        let '(v, s1) := p in
        let pre := negb (length s =? length s1)%nat in
        let '(f, scale, s2, post) :=
          match s1 with
          | 46 :: r =>
              let '(f, scale, s2) := leadingFraction r 0 1%float false in
              (f, scale, s2, negb (length r =? length s2)%nat)
          | _ => (0, 1%float, s1, false)
          end in
        if negb pre && negb post then None
        else
          let i := unit_length s2 in
          if (i =? 0)%nat then None
          else
            unit ← unitMap (take i s2);
            if v >? two63 / unit then None
            else
              let v := v * unit in
              let v := if f >? 0 then v + int_of_float (float64 f * (float64 unit / scale))%float else v in
              if v >? two63 then None else Some (v, drop i s2)
  end.

(** Every term takes a byte at least, so that the length of the text is enough fuel. *)
Fixpoint parse_terms (fuel : nat) (s : bytes) (d : Z) : option Z :=
  match s, fuel with
  | [], _ => Some d
  | _, O => None
  | _, Datatypes.S fuel' =>
      p ← parse_term s;
      let '(v, s) := p in
      let d := d + v in
      if d >? two63 then None else parse_terms fuel' s d
  end.

Definition ParseDuration (s : bytes) : option Duration :=
  let '(neg, s) := match s with 45 :: r => (true, r) | 43 :: r => (false, r) | _ => (false, s) end in
  if bool_decide (s = str "0") then Some 0
  else if bool_decide (s = []) then None
  else
    d ← parse_terms (length s) s 0;
    if (neg : bool) then Some (- d) else if d >? two63 - 1 then None else Some d.

(** ** The scheduler *)

(** [None] is a key that is not set. *)
Record MDSSchedulerConfig := {
  mc_WarmupSamples : option Z;
  mc_PenaltyMinSamples : option Z;
  mc_SwitchMargin : option float;
  mc_TieBand : option float;
  mc_Dwell : option bytes;
  mc_ExplorationProbability : option float;
  mc_CircuitBreakerThreshold : option Z;
  mc_HalfOpenInterval : option bytes;
  mc_MetricsWindow : option bytes;
  mc_WeightTimeout : option float;
  mc_WeightErrors : option float;
  mc_WeightServfail : option float;
  mc_WeightDNSSECBogus : option float;
  mc_WeightTruncated : option float;
  mc_WeightFallback : option float;
  mc_WeightConnNew : option float;
  mc_WeightJitter : option float;
}.

(** The value if it is in the range, the default otherwise. *)
Definition floatInRange (p : option float) (lo hi dst : float) : float :=
  match p with
  | None => dst
  | Some v => if (v <? lo)%float || (hi <? v)%float then dst else v
  end.

Definition durationInRange (p : option bytes) (lo hi dst : Duration) : Duration :=
  match p with
  | None => dst
  | Some s =>
      match ParseDuration s with
      | Some d => if (d <? lo) || (d >? hi) then dst else d
      | None => dst
      end
  end.

Definition intInRange (p : option Z) (lo hi dst : Z) : Z :=
  match p with
  | None => dst
  | Some v => if (v <? lo) || (v >? hi) then dst else v
  end.

Definition applyMDSConfig (cfg : MDSSchedulerConfig) : MDSParams * Duration :=
  let def := DefaultMDSParams in
  let warmup := intInRange (mc_WarmupSamples cfg) 1 10000 (WarmupSamples def) in
  let penaltyMin := intInRange (mc_PenaltyMinSamples cfg) 1 10000 (PenaltyMinSamples def) in
  let '(warmup, penaltyMin) :=
    if penaltyMin >? warmup then (WarmupSamples def, PenaltyMinSamples def) else (warmup, penaltyMin) in
  let margin := floatInRange (mc_SwitchMargin cfg) 0 1 (SwitchMargin def) in
  let tie := floatInRange (mc_TieBand cfg) 0 0.5 (TieBand def) in
  let '(margin, tie) := if (margin <? tie)%float then (SwitchMargin def, TieBand def) else (margin, tie) in
  let weight p dst := floatInRange p 0 10 dst in
  ({| WarmupSamples := warmup; PenaltyMinSamples := penaltyMin; SwitchMargin := margin; TieBand := tie;
      Dwell := durationInRange (mc_Dwell cfg) 0 Hour (Dwell def);
      ExploreProb := floatInRange (mc_ExplorationProbability cfg) 0 1 (ExploreProb def);
      BreakerThreshold := intInRange (mc_CircuitBreakerThreshold cfg) 1 100 (BreakerThreshold def);
      HalfOpenInterval := durationInRange (mc_HalfOpenInterval cfg) Second Hour (HalfOpenInterval def);
      WeightTimeout := weight (mc_WeightTimeout cfg) (WeightTimeout def);
      WeightErrors := weight (mc_WeightErrors cfg) (WeightErrors def);
      WeightServfail := weight (mc_WeightServfail cfg) (WeightServfail def);
      WeightBogus := weight (mc_WeightDNSSECBogus cfg) (WeightBogus def);
      WeightTruncated := weight (mc_WeightTruncated cfg) (WeightTruncated def);
      WeightFallback := weight (mc_WeightFallback cfg) (WeightFallback def);
      WeightConnNew := weight (mc_WeightConnNew cfg) (WeightConnNew def);
      WeightJitter := weight (mc_WeightJitter cfg) (WeightJitter def) |},
   durationInRange (mc_MetricsWindow cfg) (30 * Second) (30 * Minute) metricsWindow).

(** ** The configuration *)

Record StaticConfig := { sc_Stamp : bytes }.
Record SourceConfig := {
  so_URL : bytes; so_URLs : list bytes; so_MinisignKeyStr : bytes; so_CacheFile : bytes; so_FormatStr : bytes;
  so_RefreshDelay : Z; so_CacheTTL : Z; so_Prefix : bytes;
}.
Record QueryLogConfig := { qlc_File : bytes; qlc_Format : bytes; qlc_IgnoredQtypes : list bytes }.
Record NxLogConfig := { nlc_File : bytes; nlc_Format : bytes }.
(** The sections of the block and allow lists, the renamed ones included. *)
Record ListConfig := { lc_File : bytes; lc_LogFile : bytes; lc_Format : bytes }.
Record AnonymizedDNSRouteConfig := { ServerName_ : bytes; RelayNames : list bytes }.
Record AnonymizedDNSConfig := {
  Routes : option (list AnonymizedDNSRouteConfig); SkipIncompatible : bool; DirectCertFallback : bool;
}.
Record BrokenImplementationsConfig := { BrokenQueryPadding : list bytes; FragmentsBlocked : list bytes }.
Record LocalDoHConfig := { ld_ListenAddresses : list bytes; ld_Path : bytes; ld_CertFile : bytes; ld_CertKeyFile : bytes }.
Record TLSClientAuthCredsConfig := { tc_ServerName : bytes; tc_ClientCert : bytes; tc_ClientKey : bytes; tc_RootCA : bytes }.
Record DNS64Config := { d6_Prefixes : list bytes; d6_Resolvers : list bytes }.
Record IPEncryptionConfig := { ie_Key : bytes; ie_Algorithm : bytes }.

Record Config := {
  c_LogFile : option bytes;
  c_UseSyslog : bool;
  c_ServerNames : list bytes;
  c_DisabledServerNames : list bytes;
  c_ListenAddresses : list bytes;
  c_LocalDoH : LocalDoHConfig;
  c_MonitoringUI : MonitoringUIConfig;
  c_UserName : bytes;
  c_ForceTCP : bool;
  c_HTTP3 : bool;
  c_HTTP3Probe : bool;
  c_Timeout : Z;
  c_KeepAlive : Z;
  c_Proxy : bytes;
  c_CertRefreshConcurrency : Z;
  c_CertRefreshDelay : Z;
  c_CertIgnoreTimestamp : bool;
  c_PQDNSCrypt : bool;
  c_EphemeralKeys : bool;
  c_LBStrategy : bytes;
  c_LBEstimator : bool;
  c_SchedulerMDS : MDSSchedulerConfig;
  c_BlockIPv6 : bool;
  c_BlockUnqualified : bool;
  c_BlockUndelegated : bool;
  c_EnableHotReload : bool;
  c_Cache : bool;
  c_CacheSize : Z;
  c_CacheNegTTL : Z;
  c_CacheNegMinTTL : Z;
  c_CacheNegMaxTTL : Z;
  c_CacheMinTTL : Z;
  c_CacheMaxTTL : Z;
  c_RejectTTL : Z;
  c_CloakTTL : Z;
  c_QueryLog : QueryLogConfig;
  c_NxLog : NxLogConfig;
  c_BlockName : ListConfig;
  c_BlockNameLegacy : ListConfig;
  c_WhitelistNameLegacy : ListConfig;
  c_AllowedName : ListConfig;
  c_BlockIP : ListConfig;
  c_BlockIPLegacy : ListConfig;
  c_AllowIP : ListConfig;
  c_ForwardFile : bytes;
  c_CloakFile : bytes;
  c_CaptivePortalsMapFile : bytes;
  c_StaticsConfig : gmap bytes StaticConfig;
  c_SourcesConfig : gmap bytes SourceConfig;
  c_BrokenImplementations : BrokenImplementationsConfig;
  c_SourceRequireDNSSEC : bool;
  c_SourceRequireNoLog : bool;
  c_SourceRequireNoFilter : bool;
  c_SourceDNSCrypt : bool;
  c_SourceDoH : bool;
  c_SourceODoH : bool;
  c_SourceIPv4 : bool;
  c_SourceIPv6 : bool;
  c_MaxClients : Z;
  c_TimeoutLoadReduction : float;
  c_BootstrapResolversLegacy : list bytes;
  c_BootstrapResolvers : list bytes;
  c_IgnoreSystemDNS : bool;
  c_AllWeeklyRanges : gmap bytes WeeklyRangesStr;
  c_LogMaxSize : Z;
  c_LogMaxAge : Z;
  c_LogMaxBackups : Z;
  c_TLSDisableSessionTickets : bool;
  c_TLSPreferRSA : bool;
  c_TLSKeyLogFile : bytes;
  c_NetprobeAddress : bytes;
  c_NetprobeTimeout : Z;
  c_OfflineMode : bool;
  c_HTTPProxyURL : bytes;
  c_BlockedQueryResponse : bytes;
  c_QueryMeta : list bytes;
  c_CloakedPTR : bool;
  c_AnonymizedDNS : AnonymizedDNSConfig;
  c_DoHClientX509Auth : list TLSClientAuthCredsConfig;
  c_DoHClientX509AuthLegacy : option (list TLSClientAuthCredsConfig);
  c_DNS64 : DNS64Config;
  c_EDNSClientSubnet : list bytes;
  c_IPEncryption : IPEncryptionConfig;
}.

Definition no_list : ListConfig := {| lc_File := []; lc_LogFile := []; lc_Format := [] |}.
Definition no_mds : MDSSchedulerConfig :=
  {| mc_WarmupSamples := None; mc_PenaltyMinSamples := None; mc_SwitchMargin := None; mc_TieBand := None;
     mc_Dwell := None; mc_ExplorationProbability := None; mc_CircuitBreakerThreshold := None;
     mc_HalfOpenInterval := None; mc_MetricsWindow := None; mc_WeightTimeout := None; mc_WeightErrors := None;
     mc_WeightServfail := None; mc_WeightDNSSECBogus := None; mc_WeightTruncated := None; mc_WeightFallback := None;
     mc_WeightConnNew := None; mc_WeightJitter := None |}.

Definition newConfig : Config :=
  {| c_LogFile := None; c_UseSyslog := false; c_ServerNames := []; c_DisabledServerNames := [];
     c_ListenAddresses := [str "127.0.0.1:53"];
     c_LocalDoH := {| ld_ListenAddresses := []; ld_Path := str "/dns-query"; ld_CertFile := []; ld_CertKeyFile := [] |};
     c_MonitoringUI := {| mu_Enabled := false; mu_Username := str "admin"; mu_Password := str "changeme";
       mu_EnableQueryLog := false; mu_PrivacyLevel := 2; mu_MaxQueryLogEntries := 0; mu_MaxMemoryMB := 0;
       mu_PrometheusEnabled := false; mu_PrometheusPath := [] |};
     c_UserName := []; c_ForceTCP := false; c_HTTP3 := false; c_HTTP3Probe := false; c_Timeout := 5000;
     c_KeepAlive := 5; c_Proxy := []; c_CertRefreshConcurrency := 10; c_CertRefreshDelay := 240;
     c_CertIgnoreTimestamp := false; c_PQDNSCrypt := true; c_EphemeralKeys := false; c_LBStrategy := [];
     c_LBEstimator := true; c_SchedulerMDS := no_mds; c_BlockIPv6 := false; c_BlockUnqualified := false;
     c_BlockUndelegated := false; c_EnableHotReload := false; c_Cache := true; c_CacheSize := 512; c_CacheNegTTL := 0;
     c_CacheNegMinTTL := 60; c_CacheNegMaxTTL := 600; c_CacheMinTTL := 60; c_CacheMaxTTL := 86400; c_RejectTTL := 600;
     c_CloakTTL := 600; c_QueryLog := {| qlc_File := []; qlc_Format := []; qlc_IgnoredQtypes := [] |};
     c_NxLog := {| nlc_File := []; nlc_Format := [] |}; c_BlockName := no_list; c_BlockNameLegacy := no_list;
     c_WhitelistNameLegacy := no_list; c_AllowedName := no_list; c_BlockIP := no_list; c_BlockIPLegacy := no_list;
     c_AllowIP := no_list; c_ForwardFile := []; c_CloakFile := []; c_CaptivePortalsMapFile := [];
     c_StaticsConfig := ∅; c_SourcesConfig := ∅;
     c_BrokenImplementations := {| BrokenQueryPadding := [];
       FragmentsBlocked := [str "cisco"; str "cisco-ipv6"; str "cisco-familyshield"; str "cisco-familyshield-ipv6";
         str "cleanbrowsing-adult"; str "cleanbrowsing-adult-ipv6"; str "cleanbrowsing-family";
         str "cleanbrowsing-family-ipv6"; str "cleanbrowsing-security"; str "cleanbrowsing-security-ipv6"] |};
     c_SourceRequireDNSSEC := false; c_SourceRequireNoLog := true; c_SourceRequireNoFilter := true;
     c_SourceDNSCrypt := true; c_SourceDoH := true; c_SourceODoH := false; c_SourceIPv4 := true;
     c_SourceIPv6 := false; c_MaxClients := 250; c_TimeoutLoadReduction := 0.75%float;
     c_BootstrapResolversLegacy := []; c_BootstrapResolvers := [DefaultBootstrapResolver];
     c_IgnoreSystemDNS := false; c_AllWeeklyRanges := ∅; c_LogMaxSize := 10; c_LogMaxAge := 7; c_LogMaxBackups := 1;
     c_TLSDisableSessionTickets := false; c_TLSPreferRSA := false; c_TLSKeyLogFile := []; c_NetprobeAddress := [];
     c_NetprobeTimeout := 60; c_OfflineMode := false; c_HTTPProxyURL := []; c_BlockedQueryResponse := str "hinfo";
     c_QueryMeta := []; c_CloakedPTR := false;
     c_AnonymizedDNS := {| Routes := None; SkipIncompatible := false; DirectCertFallback := true |};
     c_DoHClientX509Auth := []; c_DoHClientX509AuthLegacy := None;
     c_DNS64 := {| d6_Prefixes := []; d6_Resolvers := [] |}; c_EDNSClientSubnet := [];
     c_IPEncryption := {| ie_Key := []; ie_Algorithm := [] |} |}.

Record ConfigFlags := {
  fl_List : bool; fl_ListAll : bool; fl_IncludeRelays : bool; fl_JSONOutput : bool; fl_Check : bool; fl_Child : bool;
  fl_NetprobeTimeoutOverride : option Z; fl_ShowCerts : bool;
}.

(** What ends the loading of the configuration.  [Fatal] is [dlog.Fatal], [Exit] is
    [os.Exit(0)], [Reexecuted] the change of user; the others are returned to the caller, for which they are fatal. *)
Inductive address_error := HostNotIP | PortMissing | PortInvalid | NoBrackets.
Inductive config_error :=
  | FatalError | Exit
  | UnsupportedKey (key : bytes) | BadBootstrapResolver (resolver : bytes) (e : address_error) | BadHTTPProxyURL | BadProxyURL
  | ProxyUnusable | TLSClientAuthRenamed | BadClientSubnet (cidr : bytes) | BadLogFormat | TwoSections
  | BadWeeklyRanges (e : time_error) | IPEncryptionError (e : ipcrypt_error) | NetProbeError | Reexecuted |
   MissingMinisignKey | MissingCacheFile
  | SourceUnavailable (e : source_error) | MissingStamp | StampError | SourceUnusable (e : option nat) | NoServerFound.

(** ** Server parameters and transport *)

Record ServerParams := {
  sp_blockedQueryResponse : bytes;
  sp_timeout : Duration;
  sp_maxClients : Z;
  sp_timeoutLoadReduction : float;
  sp_forceTCP : bool;
  sp_certRefreshConcurrency : Z;
  sp_certRefreshDelay : Duration;
  sp_certRefreshDelayAfterFailure : Duration;
  sp_certIgnoreTimestamp : bool;
  sp_pqDNSCrypt : bool;
  sp_ephemeralKeys : bool;
  sp_monitoringUI : MonitoringUIConfig;
}.

(** The parameters, and the protocol for the transport. *)
Definition configureServerParams (config : Config) : ServerParams * bytes :=
  let r := c_TimeoutLoadReduction config in
  ({| sp_blockedQueryResponse := c_BlockedQueryResponse config;
      sp_timeout := int64 (c_Timeout config * Millisecond);
      sp_maxClients := c_MaxClients config;
      sp_timeoutLoadReduction := if (r <? 0)%float || (1 <? r)%float then 0.75%float else r;
      sp_forceTCP := c_ForceTCP config;
      sp_certRefreshConcurrency := Max 1 (c_CertRefreshConcurrency config);
      sp_certRefreshDelay := int64 (Max 60 (c_CertRefreshDelay config) * Minute);
      sp_certRefreshDelayAfterFailure := 10 * Second;
      sp_certIgnoreTimestamp := c_CertIgnoreTimestamp config;
      sp_pqDNSCrypt := c_PQDNSCrypt config;
      sp_ephemeralKeys := c_EphemeralKeys config;
      sp_monitoringUI := c_MonitoringUI config |},
   if c_ForceTCP config then str "tcp" else str "udp").

Definition isIPAndPort (addrStr : bytes) : option address_error :=
  let '(host, port) := ExtractHostAndPort addrStr (-1) in
  match xParseIP host with
  | None => Some HostNotIP
  | Some ip =>
      if port =? -1 then Some PortMissing
      else if negb ((0 <=? port) && (port <=? 65535)) then Some PortInvalid
      else match To4 ip with
           | Some _ => None
           | None => if negb (HasPrefix host [91]) || negb (HasSuffix host [93]) then Some NoBrackets else None
           end
  end.

(** The settings from which [rebuildTransport] makes the HTTP and TLS clients. *)
Record DOHClientCreds := { clientCert : bytes; clientKey : bytes; rootCA : bytes }.
Record TransportOptions := {
  tlsDisableSessionTickets : bool; tlsPreferRSA : bool; http3 : bool; keepAlive : Duration; keyLogFile : option bytes;
}.

Definition bootstrap_resolvers (config : Config) : list bytes :=
  if (length (c_BootstrapResolvers config) =? 0)%nat && (0 <? length (c_BootstrapResolversLegacy config))%nat
  then c_BootstrapResolversLegacy config else c_BootstrapResolvers config.

Fixpoint check_resolvers (l : list bytes) : result config_error unit :=
  match l with
  | [] => Ok tt
  | resolver :: l' =>
      match isIPAndPort resolver with
      | Some e => Err (BadBootstrapResolver resolver e)
      | None => check_resolvers l'
      end
  end.

(** The assignments to the transport before the proxies are looked at. *)
Definition set_transport (config : Config) (resolvers : list bytes) (proto : bytes) (x : XTransport) : XTransport :=
  {| h3Transport := h3Transport x; quicDialCount := quicDialCount x; xt_timeout := xt_timeout x; cachedIPs := cachedIPs x;
     altSupport := altSupport x; internalResolvers := internalResolvers x; bootstrapResolvers := resolvers;
     mainProto := proto;
     ignoreSystemDNS := if (0 <? length resolvers)%nat then c_IgnoreSystemDNS config else ignoreSystemDNS x;
     internalResolverReady := internalResolverReady x; useIPv4 := c_SourceIPv4 config; useIPv6 := c_SourceIPv6 config;
     http3Probe := c_HTTP3Probe config; xt_proxyDialer := xt_proxyDialer x; httpProxyFunction := httpProxyFunction x |}.

(** The proxies, and the transports that [rebuildTransport] makes. *)
Definition set_proxies (httpProxy dialer : bool) (h3 : bool) (x : XTransport) : XTransport :=
  {| h3Transport := h3Transport x || h3; quicDialCount := quicDialCount x; xt_timeout := xt_timeout x;
     cachedIPs := cachedIPs x; altSupport := altSupport x; internalResolvers := internalResolvers x;
     bootstrapResolvers := bootstrapResolvers x; mainProto := if dialer then str "tcp" else mainProto x;
     ignoreSystemDNS := ignoreSystemDNS x; internalResolverReady := internalResolverReady x; useIPv4 := useIPv4 x;
     useIPv6 := useIPv6 x; http3Probe := http3Probe x; xt_proxyDialer := xt_proxyDialer x || dialer;
     httpProxyFunction := httpProxyFunction x || httpProxy |}.

Section transport.
Context {S : Type} `{HE : !HttpEnv S}.
(** [url.Parse] and [Hostname] of its result; [FromURL] of the proxy package; whether
    the key log file can be opened. *)
Context (parse_hostname : bytes -> option bytes) (proxy_usable : bytes -> bool) (can_open : bytes -> bool).

(** The name of the HTTP proxy is resolved with the bootstrap resolvers; a failure is
    only reported. *)
Definition resolve_http_proxy (hostname : bytes) : X S unit :=
  if bool_decide (hostname = []) || negb (bool_decide (xParseIP hostname = None)) then xret tt
  else
    x <-- gets id ;;
    '(ips, ttl, err) <-- resolve hostname (useIPv4 x) (useIPv6 x) ;;
    match err with
    | Some _ => xret tt
    | None => if (0 <? length ips)%nat then saveCachedIPs hostname ips ttl else xret tt
    end.

(** Whether there is an HTTP proxy, and whether there is a dialer. *)
Definition http_proxy (config : Config) : X S (result config_error bool) :=
  if bool_decide (c_HTTPProxyURL config = []) then xret (Ok false)
  else match parse_hostname (c_HTTPProxyURL config) with
       | None => xret (Err BadHTTPProxyURL)
       | Some hostname => resolve_http_proxy hostname ;;; xret (Ok true)
       end.

Definition proxy_dialer (config : Config) : result config_error bool :=
  if bool_decide (c_Proxy config = []) then Ok false
  else match parse_hostname (c_Proxy config) with
       | None => Err BadProxyURL
       | Some _ => if proxy_usable (c_Proxy config) then Ok true else Err ProxyUnusable
       end.

Definition configureXTransport (config : Config) (proto : bytes) : X S (result config_error TransportOptions) :=
  let resolvers := bootstrap_resolvers config in
  match check_resolvers resolvers with
  | Err e => xret (Err e)
  | Ok _ =>
      modify (set_transport config resolvers proto) ;;;
      httpProxy <-- http_proxy config ;;
      match httpProxy with
      | Err e => xret (Err e)
      | Ok httpProxy =>
          match proxy_dialer config with
          | Err e => xret (Err e)
          | Ok dialer =>
              modify (set_proxies httpProxy dialer (c_HTTP3 config)) ;;;
              let keyLog := c_TLSKeyLogFile config in
              if negb (bool_decide (keyLog = [])) && negb (can_open keyLog) then xret (Err FatalError)
              else xret (Ok {| tlsDisableSessionTickets := c_TLSDisableSessionTickets config;
                               tlsPreferRSA := c_TLSPreferRSA config; http3 := c_HTTP3 config;
                               keepAlive := int64 (c_KeepAlive config * Second);
                               keyLogFile := if bool_decide (keyLog = []) then None else Some keyLog |})
          end
      end
  end.
End transport.

Definition configureDoHClientAuth (config : Config) : result config_error (option DOHClientCreds) :=
  match c_DoHClientX509AuthLegacy config with
  | Some _ => Err TLSClientAuthRenamed
  | None =>
      match c_DoHClientX509Auth config with
      | [] => Ok None
      | [c] => Ok (Some {| clientCert := tc_ClientCert c; clientKey := tc_ClientKey c; rootCA := tc_RootCA c |})
      | _ => Err FatalError
      end
  end.

(** ** Load balancing *)

Definition NewLBStrategyMDS (p : MDSParams) : LBStrategy := LBMds (newLBStrategyMDS p).

(** [strconv.ParseInt] with 32 bits. *)
Definition ParseInt32 (s : bytes) : option Z :=
  n ← Atoi s; if (- 2 ^ 31 <=? n) && (n <? 2 ^ 31) then Some n else None.

(** The [default] case: [pN], or the default strategy with a warning. *)
Definition pn_strategy (s : bytes) : LBStrategy :=
  match s with
  | 112 :: after =>
      match ParseInt32 after with
      | Some n => if n <=? 0 then DefaultLBStrategy else LBStrategyPN n
      | None => DefaultLBStrategy
      end
  | _ => DefaultLBStrategy
  end.

Definition configureLoadBalancing (unicode_lower : bytes -> bytes) (config : Config) (si : ServersInfo) : ServersInfo :=
  let s := ToLower unicode_lower (c_LBStrategy config) in
  let '(strategy, window) :=
    if bool_decide (s = []) then (DefaultLBStrategy, metricsWindow_ si)
    else if bool_decide (s = str "p2") then (LBStrategyP2, metricsWindow_ si)
    else if bool_decide (s = str "ph") then (LBStrategyPH, metricsWindow_ si)
    else if bool_decide (s = str "fastest" \/ s = str "first") then (LBStrategyFirst, metricsWindow_ si)
    else if bool_decide (s = str "random") then (LBStrategyRandom, metricsWindow_ si)
    else if bool_decide (s = str "wp2") then (LBStrategyWP2, metricsWindow_ si)
    else if bool_decide (s = str "mds") then
      let '(params, window) := applyMDSConfig (c_SchedulerMDS config) in (NewLBStrategyMDS params, window)
    else
      (pn_strategy s, metricsWindow_ si) in
  {| inner := inner si; registeredServers := registeredServers si; registeredRelays := registeredRelays si;
     lbStrategy := strategy; lbEstimator := c_LBEstimator config; metrics := metrics si; metricsWindow_ := window;
     odohRefreshInFlight := odohRefreshInFlight si; odohLastFailureAt := odohLastFailureAt si |}.

(** ** Plugins and their files *)

Record PluginSettings := {
  pg_listenAddresses : list bytes;
  pg_localDoHListenAddresses : list bytes;
  pg_localDoHPath : bytes;
  pg_localDoHCertFile : bytes;
  pg_localDoHCertKeyFile : bytes;
  pg_pluginBlockIPv6 : bool;
  pg_pluginBlockUnqualified : bool;
  pg_pluginBlockUndelegated : bool;
  pg_cache : bool;
  pg_cacheSize : Z;
  pg_cacheNegMinTTL : Z;
  pg_cacheNegMaxTTL : Z;
  pg_cacheMinTTL : Z;
  pg_cacheMaxTTL : Z;
  pg_rejectTTL : Z;
  pg_cloakTTL : Z;
  pg_cloakedPTR : bool;
  pg_queryMeta : list bytes;
}.

Definition configurePlugins (config : Config) : result config_error PluginSettings :=
  let d := c_LocalDoH config in
  if match ld_Path d with c :: _ => negb (c =? 47) | [] => false end then Err FatalError
  else
    let neg := c_CacheNegTTL config in
    Ok {| pg_listenAddresses := c_ListenAddresses config; pg_localDoHListenAddresses := ld_ListenAddresses d;
          pg_localDoHPath := ld_Path d; pg_localDoHCertFile := ld_CertFile d; pg_localDoHCertKeyFile := ld_CertKeyFile d;
          pg_pluginBlockIPv6 := c_BlockIPv6 config; pg_pluginBlockUnqualified := c_BlockUnqualified config;
          pg_pluginBlockUndelegated := c_BlockUndelegated config; pg_cache := c_Cache config;
          pg_cacheSize := c_CacheSize config;
          pg_cacheNegMinTTL := if neg >? 0 then neg else c_CacheNegMinTTL config;
          pg_cacheNegMaxTTL := if neg >? 0 then neg else c_CacheNegMaxTTL config;
          pg_cacheMinTTL := c_CacheMinTTL config; pg_cacheMaxTTL := c_CacheMaxTTL config;
          pg_rejectTTL := c_RejectTTL config; pg_cloakTTL := c_CloakTTL config; pg_cloakedPTR := c_CloakedPTR config;
          pg_queryMeta := c_QueryMeta config |}.

Fixpoint configureEDNSClientSubnet (l : list bytes) : result config_error (list IPNet) :=
  match l with
  | [] => Ok []
  | cidr :: l' =>
      match ParseCIDR cidr with
      | None => Err (BadClientSubnet cidr)
      | Some ipnet => rest ← configureEDNSClientSubnet l'; Ok (ipnet :: rest)
      end
  end.

Section files.
Context (unicode_lower : bytes -> bytes).

Definition normalizeLogFormat (format : bytes) : bytes :=
  if (length format =? 0)%nat then str "tsv" else ToLower unicode_lower format.

Definition log_format (format : bytes) : result config_error bytes :=
  let format := normalizeLogFormat format in
  if negb (bool_decide (format = str "tsv")) && negb (bool_decide (format = str "ltsv")) then Err BadLogFormat
  else Ok format.

Definition configureQueryLog (config : Config) : result config_error QueryLogConfig :=
  let q := c_QueryLog config in
  format ← log_format (qlc_Format q);
  Ok {| qlc_File := qlc_File q; qlc_Format := format; qlc_IgnoredQtypes := qlc_IgnoredQtypes q |}.

Definition configureNXLog (config : Config) : result config_error NxLogConfig :=
  let n := c_NxLog config in
  format ← log_format (nlc_Format n); Ok {| nlc_File := nlc_File n; nlc_Format := format |}.

(** A section and its former name, of which only one may have a file. *)
Definition configure_list (l legacy : ListConfig) : result config_error ListConfig :=
  let has (c : ListConfig) := (0 <? length (lc_File c))%nat in
  if has l && has legacy then Err TwoSections
  else
    let l := if has legacy then legacy else l in
    format ← log_format (lc_Format l);
    Ok {| lc_File := lc_File l; lc_LogFile := lc_LogFile l; lc_Format := format |}.

Definition configureBlockedNames (config : Config) := configure_list (c_BlockName config) (c_BlockNameLegacy config).
Definition configureAllowedNames (config : Config) := configure_list (c_AllowedName config) (c_WhitelistNameLegacy config).
Definition configureBlockedIPs (config : Config) := configure_list (c_BlockIP config) (c_BlockIPLegacy config).
Definition configureAllowedIPs (config : Config) := configure_list (c_AllowIP config) no_list.
End files.

Definition configureAdditionalFiles (config : Config) : bytes * bytes * bytes :=
  (c_ForwardFile config, c_CloakFile config, c_CaptivePortalsMapFile config).

Definition configureWeeklyRanges (config : Config) : result config_error (gmap bytes WeeklyRanges) :=
  match ParseAllWeeklyRanges (c_AllWeeklyRanges config) with
  | Ok m => Ok m
  | Err e => Err (BadWeeklyRanges e)
  end.

Definition configureBrokenImplementations (config : Config) : list bytes :=
  FragmentsBlocked (c_BrokenImplementations config) ++ BrokenQueryPadding (c_BrokenImplementations config).

Definition configureIPEncryption (unicode_lower : bytes -> bytes) (config : Config) : result config_error (option IPCryptConfig) :=
  match NewIPCryptConfig unicode_lower (ie_Key (c_IPEncryption config)) (ie_Algorithm (c_IPEncryption config)) with
  | Ok c => Ok c
  | Err e => Err (IPEncryptionError e)
  end.

(** ** Anonymized DNS *)

Record AnonymizedSettings := {
  an_routes : option (gmap bytes (list bytes));
  an_skipAnonIncompatibleResolvers : bool;
  an_anonDirectCertFallback : bool;
}.

Definition configureAnonymizedDNS (config : Config) : AnonymizedSettings :=
  let a := c_AnonymizedDNS config in
  {| an_routes := foldl (fun m r => <[ServerName_ r := RelayNames r]> m) ∅ <$> Routes a;
     an_skipAnonIncompatibleResolvers := SkipIncompatible a;
     an_anonDirectCertFallback := DirectCertFallback a |}.

(** ** Restrictions on the servers of the lists *)

Record Restrictions := {
  rq_requiredProps : Z;
  rq_ServerNames : list bytes;
  rq_DisabledServerNames : list bytes;
  rq_SourceIPv4 : bool;
  rq_SourceIPv6 : bool;
  rq_SourceDNSCrypt : bool;
  rq_SourceDoH : bool;
  rq_SourceODoH : bool;
}.

(** With [-list-all] every restriction is lifted. *)
Definition configureSourceRestrictions (flags : ConfigFlags) (config : Config) : Restrictions :=
  let all := fl_ListAll flags in
  let flag (b : bool) (p : Z) := if b && negb all then p else 0 in
  {| rq_requiredProps := Z.lor (Z.lor (flag (c_SourceRequireDNSSEC config) ServerInformalPropertyDNSSEC)
                                      (flag (c_SourceRequireNoLog config) ServerInformalPropertyNoLog))
                               (flag (c_SourceRequireNoFilter config) ServerInformalPropertyNoFilter);
     rq_ServerNames := if all then [] else c_ServerNames config;
     rq_DisabledServerNames := if all then [] else c_DisabledServerNames config;
     rq_SourceIPv4 := all || c_SourceIPv4 config;
     rq_SourceIPv6 := all || c_SourceIPv6 config;
     rq_SourceDNSCrypt := all || c_SourceDNSCrypt config;
     rq_SourceDoH := all || c_SourceDoH config;
     rq_SourceODoH := all || c_SourceODoH config |}.

(** ** The network *)

Definition DefaultNetprobeAddress : bytes := str "9.9.9.9:53".

(** [resolvers] is the list that the configuration shares with the transport. *)
Definition determineNetprobeAddress (flags : ConfigFlags) (config : Config) (resolvers : list bytes) : bytes * Z :=
  (match c_NetprobeAddress config, resolvers with
   | _ :: _, _ => c_NetprobeAddress config
   | [], r :: _ => r
   | [], [] => DefaultNetprobeAddress
   end,
   default (c_NetprobeTimeout config) (fl_NetprobeTimeoutOverride flags)).
