(* ===== verification/Tls.v ===== *)
(** * The HTTP and TLS clients (src/dnscrypt-proxy/xtransport.go)

    [rebuildTransport] without its dial functions, which are in XTransport.v: the settings of
    the TLS connections to DoH and ODoH servers, with the certificates they trust.  What it uses
    of Go's [encoding/pem] and of the certificate pools of [crypto/x509] is modelled; the
    parser of a certificate is a parameter.

    Whatever the order in which the settings become known, the clients that are used have
    all of them.  The root certificate of Let's Encrypt that is written in the source is never
    added, because of the space before its last line. *)

From S2P Require Import Prelude GoStrings NetIP Common Clients Url XTransport Config.

(** ** PEM *)

Module Pem.
Fixpoint Index (s sub : bytes) : option nat :=
  if HasPrefix s sub then Some O
  else match s with [] => None | _ :: s' => S <$> Index s' sub end.

Definition pemStart : bytes := 10 :: str "-----BEGIN ".
Definition pemEnd : bytes := 10 :: str "-----END ".
Definition pemEndOfLine : bytes := str "-----".

Fixpoint drop_blank (s : bytes) : bytes :=
  match s with c :: s' => if (c =? 32) || (c =? 9) then drop_blank s' else s | [] => [] end.

(** [bytes.TrimRight] with a space and a tab. *)
Definition TrimRight_blank (s : bytes) : bytes := reverse (drop_blank (reverse s)).

Definition getLine (data : bytes) : bytes * bytes :=
  match IndexByte data 10 with
  | None => (TrimRight_blank data, [])
  | Some i =>
      let line := take i data in
      (TrimRight_blank (if HasSuffix line [13] then take (i - 1) line else line), drop (i + 1) data)
  end.

Record Block := { Type_ : bytes; Headers : gmap bytes bytes; Bytes_ : bytes }.

(** The headers, and what follows them; [None] if the text ends there. *)
Fixpoint headers_loop (fuel : nat) (rest : bytes) (h : gmap bytes bytes) : option (gmap bytes bytes * bytes) :=
  match fuel with
  | O => None
  | S fuel' =>
      if bool_decide (rest = []) then None
      else
        let '(line, next) := getLine rest in
        match IndexByte line 58 with
        | None => Some (h, rest)
        | Some i => headers_loop fuel' next (<[TrimSpace (take i line) := TrimSpace (drop (i + 1) line)]> h)
        end
  end.

(** [base64.StdEncoding]: the digits of the other alphabet, with a full last quantum. *)
Definition std_value (c : Z) : option Z :=
  if c =? 43 then Some 62 else if c =? 47 then Some 63 else if (c =? 45) || (c =? 95) then None else b64_value c.

Definition Std_Decode (s : bytes) : option bytes :=
  let s := List.filter (fun c => negb ((c =? 10) || (c =? 13))) s in
  let digits := if HasSuffix s [61; 61] then take (length s - 2) s
                else if HasSuffix s [61] then take (length s - 1) s else s in
  if negb (length s mod 4 =? 0)%nat then None else vs ← mapM std_value digits; b64_quanta vs.

Definition removeSpacesAndTabs (s : bytes) : bytes := List.filter (fun c => negb ((c =? 32) || (c =? 9))) s.

(** Where the last line starts, and what follows its mark.  Without headers, it may come at once. *)
Definition find_end (h : gmap bytes bytes) (rest : bytes) : option (nat * nat) :=
  if bool_decide (h = ∅) && HasPrefix rest (drop 1 pemEnd) then Some (O, (length pemEnd - 1)%nat)
  else i ← Index rest pemEnd; Some (i, (i + length pemEnd)%nat).

(** The block that starts after a line [-----BEGIN]; [None] is the [continue] of the loop. *)
Definition block (typeLine : bytes) (h : gmap bytes bytes) (rest : bytes) : option (Block * bytes) :=
  e ← find_end h rest;
  let '(endIndex, endTrailerIndex) := e in
  let endTrailer := drop endTrailerIndex rest in
  let endTrailerLen := (length typeLine + length pemEndOfLine)%nat in
  if (length endTrailer <? endTrailerLen)%nat then None
  else if negb (HasPrefix endTrailer (typeLine ++ pemEndOfLine)) then None
  else if negb (bool_decide ((getLine (drop endTrailerLen endTrailer)).1 = [])) then None
  else
    decoded ← Std_Decode (removeSpacesAndTabs (take endIndex rest));
    Some ({| Type_ := typeLine; Headers := h; Bytes_ := decoded |},
          (getLine (drop (endIndex + length pemEnd - 1) rest)).2).

Fixpoint decode_loop (fuel : nat) (rest : bytes) : option (Block * bytes) :=
  match fuel with
  | O => None
  | S fuel' =>
      rest ← (if HasPrefix rest (drop 1 pemStart) then Some (drop (length pemStart - 1) rest)
              else i ← Index rest pemStart; Some (drop (i + length pemStart) rest));
      let '(typeLine, rest) := getLine rest in
      if negb (HasSuffix typeLine pemEndOfLine) then decode_loop fuel' rest
      else
        let typeLine := take (length typeLine - length pemEndOfLine) typeLine in
        match headers_loop (S (length rest)) rest ∅ with
        | None => None
        | Some (h, rest) =>
            match block typeLine h rest with
            | Some found => Some found
            | None => decode_loop fuel' rest
            end
        end
  end.

(** Every round starts further in the text. *)
Definition Decode (data : bytes) : option (Block * bytes) := decode_loop (S (length data)) data.

(** The certificates that a text holds; [parses] is whether [x509.ParseCertificate] accepts one. *)
Fixpoint certificates (parses : bytes -> bool) (fuel : nat) (data : bytes) : list bytes :=
  match fuel with
  | O => []
  | S fuel' =>
      match Decode data with
      | None => []
      | Some (b, rest) =>
          (if bool_decide (Type_ b = str "CERTIFICATE" /\ Headers b = ∅) && parses (Bytes_ b) then [Bytes_ b] else []) ++
          certificates parses fuel' rest
      end
  end.
End Pem.

(** A pool of certificates has no duplicates. *)
Definition CertPool := list bytes.
Definition AddCert (pool : CertPool) (c : bytes) : CertPool := if bool_decide (c ∈ pool) then pool else pool ++ [c].
Definition AppendCertsFromPEM (parses : bytes -> bool) (pool : CertPool) (data : bytes) : CertPool :=
  foldl AddCert pool (Pem.certificates parses (S (length data)) data).

(** ** The root certificate of Let's Encrypt *)

Definition letsEncryptX1Base64 : bytes :=
  str "MIIFazCCA1OgAwIBAgIRAIIQz7DSQONZRGPgu2OCiwAwDQYJKoZIhvcNAQELBQAwTzELMAkGA1UEBhMCVVMxKTAnBgNVBAoTIEludGVybmV0IFNlY3VyaXR5IFJlc2VhcmNoIEdyb3VwMRUwEwYDVQQDEwxJU1JHIFJvb3QgWDEwHhcNMTUwNjA0MTEwNDM4WhcNMzUwNjA0MTEwNDM4WjBPMQswCQYDVQQGEwJVUzEpMCcGA1UEChMgSW50ZXJuZXQgU2VjdXJpdHkgUmVzZWFyY2ggR3JvdXAxFTATBgNVBAMTDElTUkcgUm9vdCBYMTCCAiIwDQYJKoZIhvcNAQEBBQADggIPADCCAgoCggIBAK3oJHP0FDfzm54rVygch77ct984kIxuPOZXoHj3dcKi/vVqbvYATyjb3miGbESTtrFj/RQSa78f0uoxmyF+0TM8ukj13Xnfs7j/EvEhmkvBioZxaUpmZmyPfjxwv60pIgbz5MDmgK7iS4+3mX6UA5/TR5d8mUgjU+g4rk8Kb4Mu0UlXjIB0ttov0DiNewNwIRt18jA8+o+u3dpjq+sWT8KOEUt+zwvo/7V3LvSye0rgTBIlDHCNAymg4VMk7BPZ7hm/ELNKjD+Jo2FR3qyHB5T0Y3HsLuJvW5iB4YlcNHlsdu87kGJ55tukmi8mxdAQ4Q7e2RCOFvu396j3x+UCB5iPNgiV5+I3lg02dZ77DnKxHZu8A/lJBdiB3QW0KtZB6awBdpUKD9jf1b0SHzUvKBds0pjBqAlkd25HN7rOrFleaJ1/ctaJxQZBKT5ZPt0m9STJEadao0xAH0ahmbWnOlFuhjuefXKnEgV4We0+UXgVCwOPjdAvBbI+e0ocS3MFEvzG6uBQE3xDk3SzynTnjh8BCNAw1FtxNrQHusEwMFxIt4I7mKZ9YIqioymCzLq9gwQbooMDQaHWBfEbwrbwqHyGO0aoSCqI3Haadr8faqU9GY/rOPNk3sgrDQoo//fb4hVC1CLQJ13hef4Y53CIrU7m2Ys6xt0nUW7/vGT1M0NPAgMBAAGjQjBAMA4GA1UdDwEB/wQEAwIBBjAPBgNVHRMBAf8EBTADAQH/MB0GA1UdDgQWBBR5tFnme7bl5AFzgAiIyBpY9umbbjANBgkqhkiG9w0BAQsFAAOCAgEAVR9YqbyyqFDQDLHYGmkgJykIrGF1XIpu+ILlaS/V9lZLubhzEFnTIZd+50xx+7LSYK05qAvqFyFWhfFQDlnrzuBZ6brJFe+GnY+EgPbk6ZGQ3BebYhtF8GaV0nxvwuo77x/Py9auJ/GpsMiu/X1+mvoiBOv/2X/qkSsisRcOj/KKNFtY2PwByVS5uCbMiogziUwthDyC3+6WVwW6LLv3xLfHTjuCvjHIInNzktHCgKQ5ORAzI4JMPJ+GslWYHb4phowim57iaztXOoJwTdwJx4nLCgdNbOhdjsnvzqvHu7UrTkXWStAmzOVyyghqpZXjFaH3pO3JLF+l+/+sKAIuvtd7u+Nxe5AW0wdeRlN8NwdCjNPElpzVmbUq4JUagEiuTDkHzsxHpFKVK7q4+63SM1N95R1NbdWhscdCb+ZAJzVcoyi3B43njTOQ5yOf+1CceWxG1bQVs5ZufpsMljq4Ui0/1lvh+wjChP4kqKOJ2qxq4RgqsahDYVvTH9w7jXbyLeiNdd8XM2w9U/t7y0Ff/9yi0GE44Za4rF2LN9d11TPAmRGunUHBcnWEvgJBQl9nJEiU0Zsnvgc/ubhPgXRR4Xq37Z0j4r7g1SgEEzwxA57demyPxgcYxn/eR44/KJ4EBs+lVDR3veyJm+kXQ99b21/+jh5Xos1AnX5iItreGCc=".

(** The text of the source; there is a space at the start of its second and third lines. *)
Definition letsEncryptX1Cert : bytes :=
  str "-----BEGIN CERTIFICATE-----" ++ [10; 32] ++ letsEncryptX1Base64 ++ [10; 32] ++ str "-----END CERTIFICATE-----".

(** ** The settings *)

Record Cpu := {
  X86_HasAES : bool; X86_HasPCLMULQDQ : bool; ARM64_HasAES : bool; ARM64_HasPMULL : bool; S390X_HasAES : bool; S390X_HasAESGCM : bool;
}.
Definition hasAESGCMHardwareSupport (c : Cpu) : bool :=
  X86_HasAES c && X86_HasPCLMULQDQ c || ARM64_HasAES c && ARM64_HasPMULL c || S390X_HasAES c && S390X_HasAESGCM c.

Inductive suite :=
  | ECDHE_RSA_AES_128_GCM_SHA256 | ECDHE_RSA_AES_256_GCM_SHA384 | ECDHE_RSA_CHACHA20_POLY1305_SHA256
  | ECDHE_ECDSA_AES_128_GCM_SHA256 | ECDHE_ECDSA_AES_256_GCM_SHA384 | ECDHE_ECDSA_CHACHA20_POLY1305_SHA256.

Definition VersionTLS12 : Z := 771.
Definition VersionTLS13 : Z := 772.

(** A chain of certificates with its key. *)
Record tls_Certificate := { Certificate : list bytes; PrivateKey : bytes }.

(** [RootCAs] is [None] for the roots of the system, [MaxVersion] is [None] for the highest
    version and [CipherSuites] is empty for the default ones. *)
Record tls_Config := {
  KeyLogWriter : option bytes;
  RootCAs : option CertPool;
  Certificates : list tls_Certificate;
  SessionTicketsDisabled : bool;
  MaxVersion : option Z;
  CipherSuites : list suite;
}.

Record http_Transport := {
  DisableKeepAlives : bool;
  DisableCompression : bool;
  MaxIdleConns : Z;
  IdleConnTimeout : Duration;
  ResponseHeaderTimeout : Duration;
  ExpectContinueTimeout : Duration;
  MaxResponseHeaderBytes : Z;
  Proxy_ : bool;
  TLSClientConfig : tls_Config;
  http2_ReadIdleTimeout : option Duration;
}.

(** The clients of a transport, and those that were replaced, whose idle connections are closed. *)
Record Clients_ := {
  client : option (http_Transport);
  h3_client : option (tls_Config);
  closed : list (http_Transport);
  h3_closed : list (tls_Config);
}.
Definition no_clients : Clients_ := {| client := None; h3_client := None; closed := []; h3_closed := [] |}.

Definition DefaultMaxIdleConns : Z := 16.
Definition DefaultIdleConnTimeout : Duration := 90 * Second.

(** The system: its processor, its roots, its files, the pairs of a certificate and a key that
    can be loaded, whether HTTP/2 can be configured; and the parser of certificates. *)
Class TlsEnv := {
  cpu : Cpu;
  SystemCertPool : option CertPool;
  tls_ReadFile : bytes -> option bytes;
  LoadX509KeyPair : bytes -> bytes -> option tls_Certificate;
  http2_ok : bool;
  parses : bytes -> bool;
}.

Section tls.
Context `{TE : TlsEnv}.

Definition rsa_suites : list suite :=
  if hasAESGCMHardwareSupport cpu then
    [ECDHE_RSA_AES_128_GCM_SHA256; ECDHE_RSA_AES_256_GCM_SHA384; ECDHE_RSA_CHACHA20_POLY1305_SHA256;
     ECDHE_ECDSA_AES_128_GCM_SHA256; ECDHE_ECDSA_AES_256_GCM_SHA384; ECDHE_ECDSA_CHACHA20_POLY1305_SHA256]
  else
    [ECDHE_RSA_CHACHA20_POLY1305_SHA256; ECDHE_RSA_AES_128_GCM_SHA256; ECDHE_RSA_AES_256_GCM_SHA384;
     ECDHE_ECDSA_CHACHA20_POLY1305_SHA256; ECDHE_ECDSA_AES_128_GCM_SHA256; ECDHE_ECDSA_AES_256_GCM_SHA384].

(** [None] is [dlog.Fatalf]. *)
Definition add_rootCA (creds : DOHClientCreds) (pool : option CertPool) : option (option CertPool) :=
  if bool_decide (rootCA creds = []) then Some pool
  else
    pool ← pool;
    additionalCaCert ← tls_ReadFile (rootCA creds);
    Some (Some (AppendCertsFromPEM parses pool additionalCaCert)).

Definition client_certificates (creds : DOHClientCreds) : option (list tls_Certificate) :=
  if bool_decide (clientCert creds = []) then Some []
  else cert ← LoadX509KeyPair (clientCert creds) (clientKey creds); Some [cert].

Definition tlsClientConfig (o : TransportOptions) (creds : DOHClientCreds) : option (tls_Config) :=
  certPool ← add_rootCA creds SystemCertPool;
  certs ← client_certificates creds;
  Some {| KeyLogWriter := keyLogFile o;
          RootCAs := pool ← certPool; Some (AppendCertsFromPEM parses pool letsEncryptX1Cert);
          Certificates := certs;
          SessionTicketsDisabled := tlsDisableSessionTickets o;
          MaxVersion := if tlsPreferRSA o then Some VersionTLS12 else None;
          CipherSuites := if tlsPreferRSA o then rsa_suites else [] |}.

Definition rebuildTransport (x : XTransport) (o : TransportOptions) (creds : DOHClientCreds) (t : Clients_)
    : option (Clients_) :=
  tls ← tlsClientConfig o creds;
  let timeout := xt_timeout x in
  Some {| client :=
            Some {| DisableKeepAlives := false; DisableCompression := true; MaxIdleConns := DefaultMaxIdleConns;
                    IdleConnTimeout := DefaultIdleConnTimeout; ResponseHeaderTimeout := timeout;
                    ExpectContinueTimeout := timeout; MaxResponseHeaderBytes := 4096; Proxy_ := httpProxyFunction x;
                    TLSClientConfig := tls; http2_ReadIdleTimeout := if http2_ok then Some timeout else None |};
          h3_client := if http3 o then Some tls else h3_client t;
          closed := closed t ++ option_list (client t);
          h3_closed := h3_closed t ++ option_list (h3_client t) |}.

Definition no_creds : DOHClientCreds := {| clientCert := []; clientKey := []; rootCA := [] |}.
Definition set_keyLog (k : option bytes) (o : TransportOptions) : TransportOptions :=
  {| tlsDisableSessionTickets := tlsDisableSessionTickets o; tlsPreferRSA := tlsPreferRSA o; http3 := http3 o;
     keepAlive := keepAlive o; keyLogFile := k |}.

(** The calls of [configureXTransport] and [configureDoHClientAuth], each once its settings are known. *)
Definition configured_clients (x : XTransport) (o : TransportOptions) (creds : option DOHClientCreds) : option (Clients_) :=
  t ← rebuildTransport x (set_keyLog None o) no_creds no_clients;
  t ← (if bool_decide (keyLogFile o = None) then Some t else rebuildTransport x o no_creds t);
  match creds with None => Some t | Some c => rebuildTransport x o c t end.
End tls.

(** ** Properties *)

(** *** Enough fuel *)

Lemma getLine_rest data : (length (Pem.getLine data).2 <= length data - 1)%nat.
Proof.
  unfold Pem.getLine. destruct (IndexByte data 10) as [i|]; simpl; [rewrite length_drop|]; lia.
Qed.

Lemma headers_loop_rest fuel rest h h' rest' :
  Pem.headers_loop fuel rest h = Some (h', rest') -> (length rest' <= length rest)%nat.
Proof.
  revert rest h. induction fuel as [|fuel IH]; intros rest h; simpl; [done|]. case_bool_decide; [done|].
  destruct (Pem.getLine rest) as [line next] eqn:E. destruct (IndexByte line 58) as [i|]; [|by intros [= _ <-]].
  intros H1%IH. assert (Hn := getLine_rest rest). rewrite E in Hn. simpl in Hn. lia.
Qed.

(** Every round drops the mark at least. *)
Lemma decode_loop_fuel fuel fuel' rest :
  (length rest < fuel)%nat -> (length rest < fuel')%nat -> Pem.decode_loop fuel rest = Pem.decode_loop fuel' rest.
Proof.
  revert fuel' rest. induction fuel as [|fuel IH]; intros [|fuel'] rest H1 H2; [lia..|]. cbn [Pem.decode_loop].
  destruct (if HasPrefix rest _ then _ else _) as [rest1|] eqn:E1; [|done]. cbn [mbind option_bind].
  assert (length rest1 < length rest \/ length rest1 = 0)%nat as Hlt.
  { destruct (HasPrefix rest _); [injection E1 as <-; rewrite length_drop; cbn; lia|].
    destruct (Pem.Index rest Pem.pemStart) as [i|]; [|done]. injection E1 as <-. rewrite length_drop. cbn. lia. }
  assert (Hn := getLine_rest rest1). destruct (Pem.getLine rest1) as [typeLine rest2]. simpl in Hn.
  destruct rest as [|c rest]; [by vm_compute in E1|]. cbn [length] in *.
  destruct (negb _); [apply IH; lia|].
  destruct (Pem.headers_loop _ _ _) as [[h rest3]|] eqn:E3; [|done]. apply headers_loop_rest in E3.
  destruct (Pem.block _ _ _); [done|]. apply IH; lia.
Qed.

(** *** The certificates that are trusted *)

(** The root of Let's Encrypt is not added: [pem.Decode] wants the last line at the start of a line. *)
Lemma letsEncrypt_not_added parses pool : AppendCertsFromPEM parses pool letsEncryptX1Cert = pool.
Proof.
  unfold AppendCertsFromPEM. replace (Pem.certificates _ _ _) with (@nil bytes); [done|].
  cbn [Pem.certificates]. replace (Pem.Decode letsEncryptX1Cert) with (@None (Pem.Block * bytes)); [done|]. by vm_compute.
Qed.

(** Without the space before its last line, it would be. *)
Example letsEncrypt_repaired :
  let text := str "-----BEGIN CERTIFICATE-----" ++ [10; 32] ++ letsEncryptX1Base64 ++ [10] ++ str "-----END CERTIFICATE-----" in
  length <$> AppendCertsFromPEM (fun _ => true) [] text = [1391%nat].
Proof. by vm_compute. Qed.

Lemma AddCert_elem pool c d : d ∈ AddCert pool c <-> d ∈ pool \/ d = c.
Proof. unfold AddCert. case_bool_decide; set_solver. Qed.

Lemma AppendCerts_elem parses pool data d :
  d ∈ AppendCertsFromPEM parses pool data <-> d ∈ pool \/ d ∈ Pem.certificates parses (S (length data)) data.
Proof.
  unfold AppendCertsFromPEM. generalize (Pem.certificates parses (S (length data)) data) as l. intros l. revert pool.
  induction l as [|c l IH]; intros pool; simpl; [set_solver|]. rewrite IH, AddCert_elem. set_solver.
Qed.

#[local] Opaque AppendCertsFromPEM letsEncryptX1Cert.

Section tls.
Context `{TE : TlsEnv}.


(** The settings of the connections, with the roots as they are. *)
Lemma tlsClientConfig_eq o creds :
  tlsClientConfig o creds =
    certPool ← add_rootCA creds SystemCertPool;
    certs ← client_certificates creds;
    Some {| KeyLogWriter := keyLogFile o; RootCAs := certPool; Certificates := certs;
            SessionTicketsDisabled := tlsDisableSessionTickets o;
            MaxVersion := if tlsPreferRSA o then Some VersionTLS12 else None;
            CipherSuites := if tlsPreferRSA o then rsa_suites else [] |}.
Proof.
  unfold tlsClientConfig. destruct (add_rootCA _ _) as [[pool|]|]; [|done..]. cbn [mbind option_bind].
  by rewrite letsEncrypt_not_added.
Qed.

(** The rebuilds that are done while the settings become known leave the clients that one rebuild
    with all the settings makes, and end the program in the same cases. *)
Lemma configured_once x o creds :
  let once := rebuildTransport x o (default no_creds creds) no_clients in
  client <$> configured_clients x o creds = client <$> once /\ h3_client <$> configured_clients x o creds = h3_client <$> once.
Proof.
  unfold configured_clients, rebuildTransport. rewrite !tlsClientConfig_eq.
  assert (add_rootCA no_creds SystemCertPool = Some SystemCertPool) as Hr by done.
  assert (client_certificates no_creds = Some []) as Hc by done.
  cbv zeta. destruct creds as [c|]; cbn [default from_option id]; rewrite ?Hr, ?Hc; cbn [mbind option_bind].
  - destruct (add_rootCA c SystemCertPool) as [pool|] eqn:E1, (client_certificates c) as [certs|] eqn:E2;
      (case_bool_decide as Hk; cbn [mbind option_bind]; rewrite ?tlsClientConfig_eq, ?E1, ?E2, ?Hr, ?Hc; cbn;
       by destruct (http3 o)).
  - case_bool_decide as Hk; cbn; rewrite ?Hk; by destruct (http3 o).
Qed.

Definition is_rsa (s : suite) : bool :=
  match s with
  | ECDHE_RSA_AES_128_GCM_SHA256 | ECDHE_RSA_AES_256_GCM_SHA384 | ECDHE_RSA_CHACHA20_POLY1305_SHA256 => true
  | _ => false
  end.

(** The settings of a client: the certificates of the [root_ca] file are trusted, which must be
    readable, and nothing else than the roots of the system; the client certificate is
    presented, and no other; session tickets and the key log are as configured; with
    [tls_prefer_rsa], the version is at most TLS 1.2 and the cipher suites with RSA come first, whatever
    the processor. *)
Record client_settings (o : TransportOptions) (creds : DOHClientCreds) (c : tls_Config) : Prop := {
  cs_system_roots : rootCA creds = [] -> RootCAs c = SystemCertPool;
  cs_added_roots : rootCA creds <> [] ->
    exists pool text trusted, SystemCertPool = Some pool /\ tls_ReadFile (rootCA creds) = Some text /\ RootCAs c = Some trusted /\
      forall cert, cert ∈ trusted <-> cert ∈ pool \/ cert ∈ Pem.certificates parses (S (length text)) text;
  cs_anonymous : clientCert creds = [] -> Certificates c = [];
  cs_certificate : clientCert creds <> [] ->
    exists pair, LoadX509KeyPair (clientCert creds) (clientKey creds) = Some pair /\ Certificates c = [pair];
  cs_log : KeyLogWriter c = keyLogFile o;
  cs_tickets : SessionTicketsDisabled c = tlsDisableSessionTickets o;
  cs_rsa : tlsPreferRSA o = true -> MaxVersion c = Some VersionTLS12 /\
    exists rsa others, CipherSuites c = rsa ++ others /\ rsa <> [] /\
      Forall (fun s => is_rsa s = true) rsa /\ Forall (fun s => is_rsa s = false) others;
  cs_default : tlsPreferRSA o = false -> MaxVersion c = None /\ CipherSuites c = [];
}.

Lemma configured_tls x o creds t : configured_clients x o creds = Some t ->
  exists h, client t = Some h /\ h3_client t = (if http3 o then Some (TLSClientConfig h) else None) /\
  client_settings o (default no_creds creds) (TLSClientConfig h) /\
  DisableCompression h = true /\ Proxy_ h = httpProxyFunction x.
Proof.
  intros Hok. destruct (configured_once x o creds) as [E1 E2]. rewrite Hok in E1, E2. revert E1 E2.
  unfold rebuildTransport. rewrite tlsClientConfig_eq. set (cr := default no_creds creds). clearbody cr.
  destruct (add_rootCA _ _) as [pool|] eqn:Er; [|done]. destruct (client_certificates _) as [certs|] eqn:Ec; [|done].
  cbn. intros [= ->] [= ->]. eexists. split_and!; [done..| |done|done]. cbn.
  unfold add_rootCA in Er. unfold client_certificates in Ec. constructor; cbn; try done.
  - intros Hr. rewrite bool_decide_true in Er by done. congruence.
  - intros Hr. rewrite bool_decide_false in Er by done. destruct SystemCertPool as [sys|]; [|done]. cbn in Er.
    destruct (tls_ReadFile _) as [text|]; [|done]. injection Er as <-. exists sys, text. eexists.
    split_and!; [done..|]. intros cert. apply AppendCerts_elem.
  - intros Hc. rewrite bool_decide_true in Ec by done. congruence.
  - intros Hc. rewrite bool_decide_false in Ec by done. destruct (LoadX509KeyPair _ _) as [pair|]; [|done].
    injection Ec as <-. eauto.
  - intros ->. split; [done|]. unfold rsa_suites.
    destruct (hasAESGCMHardwareSupport cpu); (eexists (_ :: _ :: _ :: []), _; split_and!; [done..| |]; by repeat constructor).
  - by intros ->.
Qed.

(** With [tls_prefer_rsa], the HTTP/3 client accepts no version that QUIC can use. *)
Lemma http3_without_tls13 x o creds t (Hok : configured_clients x o creds = Some t) :
  http3 o = true -> tlsPreferRSA o = true ->
  exists c v, h3_client t = Some c /\ MaxVersion c = Some v /\ v < VersionTLS13.
Proof.
  intros H3 Hr. destruct (configured_once x o creds) as [_ E]. rewrite Hok in E. revert E.
  unfold rebuildTransport. rewrite tlsClientConfig_eq, H3, Hr.
  destruct (add_rootCA _ _); [|done]. destruct (client_certificates _); [|done]. cbn. intros [= ->]. by eexists _, _.
Qed.
End tls.


(** *** Examples *)

Definition ex_ca : bytes := str "-----BEGIN CERTIFICATE-----" ++ [10] ++ str "AQID" ++ [10] ++ str "-----END CERTIFICATE-----" ++ [10].

(** A system with one root, and a file with another. *)
#[local] Instance ex_tls : TlsEnv := {
  cpu := {| X86_HasAES := false; X86_HasPCLMULQDQ := true; ARM64_HasAES := false; ARM64_HasPMULL := false;
            S390X_HasAES := false; S390X_HasAESGCM := false |};
  SystemCertPool := Some [[7]];
  tls_ReadFile p := if bool_decide (p = str "ca.pem") then Some ex_ca else None;
  LoadX509KeyPair c k := Some {| Certificate := [c]; PrivateKey := k |};
  http2_ok := true;
  parses _ := true;
}.
Definition ex_tls_options : TransportOptions :=
  {| tlsDisableSessionTickets := true; tlsPreferRSA := true; http3 := true; keepAlive := 5 * Second; keyLogFile := Some (str "keys.log") |}.
Definition ex_creds : DOHClientCreds := {| clientCert := str "cert.pem"; clientKey := str "key.pem"; rootCA := str "ca.pem" |}.

Example ex_clients_roots :
  (fun t => (fun h => (RootCAs (TLSClientConfig h), length (CipherSuites (TLSClientConfig h)))) <$> client t) <$>
    configured_clients NewXTransport ex_tls_options (Some ex_creds) = Some (Some (Some [[7]; [1; 2; 3]], 6%nat)).
Proof. by vm_compute. Qed.
