(* ===== verification/Registration.v ===== *)
(** * The servers to use (src/dnscrypt-proxy/config.go, proxy.go)

    The sources and static servers of the configuration, the selection of the servers of
    the lists, and [ConfigLoad], which puts the settings together. *)

From S2P Require Import Prelude GoStrings GoFloat NetIP Common Crypto Dns Metrics ServerTypes Mds Servers Feedback TimeRanges.
From S2P Require Import Plugins RuleLog Query Clients Url XTransport Sources Observability Monitoring Prometheus MonitoringUI Config.

(** ** Selection of servers *)

Definition is_relay (stamp : ServerStamp) : bool :=
  (st_Proto stamp =? StampProtoTypeDNSCryptRelay) || (st_Proto stamp =? StampProtoTypeODoHRelay).

(** The fields of the proxy that keep the servers. *)
Record Registry := {
  rg_registeredServers : list RegisteredServer;
  rg_registeredRelays : list RegisteredServer;
  rg_serversInfo : ServersInfo;
}.

Section selection.
(** The case folding of [strings.EqualFold] where a name is not ASCII; the text of a stamp. *)
Context (unicode_equal_fold : bytes -> bytes -> bool) (stamp_String : ServerStamp -> bytes).

Definition includesName (names : list bytes) (name : bytes) : bool :=
  existsb (fun found => EqualFold unicode_equal_fold found name) names.

Definition has_props (props required : Z) : bool := Z.land props required =? required.

(** Whether the server has an address of a family that is wanted; without a wanted
    family, there is no restriction. *)
Definition right_family (r : Restrictions) (stamp : ServerStamp) : bool :=
  if rq_SourceIPv4 r || rq_SourceIPv6 r then
    let '(isIPv4, isIPv6) := if st_Proto stamp =? StampProtoTypeDoH then (true, true) else (true, false) in
    let '(isIPv4, isIPv6) := if HasPrefix (ServerAddrStr stamp) [91] then (false, true) else (isIPv4, isIPv6) in
    Bool.eqb (rq_SourceIPv4 r) isIPv4 || Bool.eqb (rq_SourceIPv6 r) isIPv6
  else true.

Definition right_protocol (r : Restrictions) (stamp : ServerStamp) : bool :=
  rq_SourceDNSCrypt r && (st_Proto stamp =? StampProtoTypeDNSCrypt) ||
  rq_SourceDoH r && (st_Proto stamp =? StampProtoTypeDoH) ||
  rq_SourceODoH r && (st_Proto stamp =? StampProtoTypeODoHTarget).

(** The [continue]s of the loop before the lists are updated. *)
Definition wanted (r : Restrictions) (s : RegisteredServer) : bool :=
  let stamp := rs_stamp s in
  (is_relay stamp ||
   (if (0 <? length (rq_ServerNames r))%nat then includesName (rq_ServerNames r) (rs_name s)
    else has_props (st_Props stamp) (rq_requiredProps r))) &&
  negb (includesName (rq_DisabledServerNames r) (rs_name s)) &&
  right_family r stamp && (is_relay stamp || right_protocol r stamp).

(** Every entry with the name gets the stamp, if its text is another one. *)
Definition update_stamp (new current : RegisteredServer) : RegisteredServer :=
  if bool_decide (rs_name current = rs_name new) then
    if bool_decide (stamp_String (rs_stamp current) = stamp_String (rs_stamp new)) then current
    else {| rs_name := rs_name current; rs_stamp := rs_stamp new; rs_description := rs_description current |}
  else current.
Definition update_or_add (new : RegisteredServer) (l : list RegisteredServer) : list RegisteredServer :=
  if existsb (fun current => bool_decide (rs_name current = rs_name new)) l then update_stamp new <$> l
  else l ++ [new].

Definition select_server (r : Restrictions) (rg : Registry) (s : RegisteredServer) : Registry :=
  if negb (wanted r s) then rg
  else if is_relay (rs_stamp s) then
    {| rg_registeredServers := rg_registeredServers rg; rg_registeredRelays := update_or_add s (rg_registeredRelays rg);
       rg_serversInfo := rg_serversInfo rg |}
  else
    {| rg_registeredServers := update_or_add s (rg_registeredServers rg); rg_registeredRelays := rg_registeredRelays rg;
       rg_serversInfo := rg_serversInfo rg |}.

(** [source.Parse()]; the second component is the error. *)
Context (Parse : Source -> list RegisteredServer * option (option nat)).

Fixpoint select_sources (r : Restrictions) (sources : list Source) (rg : Registry) : result config_error unit * Registry :=
  match sources with
  | [] => (Ok tt, rg)
  | source :: sources' =>
      match Parse source with
      | ([], Some e) => (Err (SourceUnusable e), rg)
      | (servers, _) => select_sources r sources' (foldl (select_server r) rg servers)
      end
  end.

Definition register_all (rg : Registry) : Registry :=
  let si := foldl (fun si s => registerServer (rs_name s) (rs_stamp s) si) (rg_serversInfo rg) (rg_registeredServers rg) in
  let si := foldl (fun si s => registerRelay (rs_name s) (rs_stamp s) si) si (rg_registeredRelays rg) in
  {| rg_registeredServers := rg_registeredServers rg; rg_registeredRelays := rg_registeredRelays rg; rg_serversInfo := si |}.

Definition updateRegisteredServers (r : Restrictions) (sources : list Source) (rg : Registry)
    : result config_error unit * Registry :=
  match select_sources r sources rg with
  | (Err e, rg) => (Err e, rg)
  | (Ok _, rg) => (Ok tt, register_all rg)
  end.
End selection.

(** ** Sources *)

Section load.
Context {S : Type} `{HE : !HttpEnv S}.
Context (io_fails : nat -> bool) (verify : bytes -> bytes -> bytes -> bool).
Context (parseURL : bytes -> option URL) (valid_key : bytes -> bool).
Context (shuffle : list bytes -> list bytes) (parse_stamp : bytes -> option ServerStamp) (stamp_String : ServerStamp -> bytes).
Context (unicode_equal_fold : bytes -> bytes -> bool).
(** The order in which the loop with a number visits a map. *)
Context (range : nat -> forall {A}, gmap bytes A -> list (bytes * A)).

Definition refresh_hours (cfg : SourceConfig) : Z :=
  let d := if so_RefreshDelay cfg <=? 0 then 72 else so_RefreshDelay cfg in Min 169 (Max 25 d).
Definition cache_hours (cfg : SourceConfig) : Z :=
  let t := if so_CacheTTL cfg <=? 0 then 168 else so_CacheTTL cfg in Min 168 (Max (refresh_hours cfg) t).

Definition loadSource (name : bytes) (cfg : SourceConfig) (w : SWorld S) : result config_error Source * SWorld S :=
  let urls := if (length (so_URLs cfg) =? 0)%nat && negb (bool_decide (so_URL cfg = [])) then [so_URL cfg] else so_URLs cfg in
  if bool_decide (so_MinisignKeyStr cfg = []) then (Err MissingMinisignKey, w)
  else if bool_decide (so_CacheFile cfg = []) then (Err MissingCacheFile, w)
  else
    let format := if bool_decide (so_FormatStr cfg = []) then str "v2" else so_FormatStr cfg in
    let '(err, source, w) :=
      NewSource io_fails verify parseURL valid_key name urls (so_MinisignKeyStr cfg) (so_CacheFile cfg) format
        (refresh_hours cfg * Hour) (cache_hours cfg * Hour) (so_Prefix cfg) w in
    match err with
    | Some e => if (length (src_bin source) =? 0)%nat then (Err (SourceUnavailable e), w) else (Ok source, w)
    | None => (Ok source, w)
    end.

Fixpoint load_each (l : list (bytes * SourceConfig)) (w : SWorld S) : result config_error (list Source) * SWorld S :=
  match l with
  | [] => (Ok [], w)
  | (name, cfg) :: l' =>
      let cfg := {| so_URL := so_URL cfg; so_URLs := shuffle (so_URLs cfg); so_MinisignKeyStr := so_MinisignKeyStr cfg;
                    so_CacheFile := so_CacheFile cfg; so_FormatStr := so_FormatStr cfg; so_RefreshDelay := so_RefreshDelay cfg;
                    so_CacheTTL := so_CacheTTL cfg; so_Prefix := so_Prefix cfg |} in
      match loadSource name cfg w with
      | (Err e, w) => (Err e, w)
      | (Ok source, w) =>
          match load_each l' w with
          | (Err e, w) => (Err e, w)
          | (Ok sources, w) => (Ok (source :: sources), w)
          end
      end
  end.

(** ** Static servers *)

Definition static_relay (c : bytes * StaticConfig) : option RegisteredServer :=
  stamp ← parse_stamp (sc_Stamp c.2);
  if is_relay stamp then Some {| rs_name := c.1; rs_stamp := stamp; rs_description := str "static relay" |} else None.

Fixpoint static_servers (statics : gmap bytes StaticConfig) (names : list bytes) : result config_error (list RegisteredServer) :=
  match names with
  | [] => Ok []
  | name :: names' =>
      match statics !! name with
      | None => static_servers statics names'
      | Some c =>
          if (length (sc_Stamp c) =? 0)%nat then Err MissingStamp
          else match parse_stamp (sc_Stamp c) with
               | None => Err StampError
               | Some stamp =>
                   rest ← static_servers statics names';
                   Ok ({| rs_name := name; rs_stamp := stamp; rs_description := [] |} :: rest)
               end
      end
  end.

(** [r] has the names and restrictions that were copied to the proxy; without names, the
    names of all the static servers are used for the configuration only. *)
Definition loadSources (config : Config) (r : Restrictions) (si : ServersInfo) (w : SWorld S)
    : result config_error (list Source * Registry) * SWorld S :=
  match load_each (range 0%nat _ (c_SourcesConfig config)) w with
  | (Err e, w) => (Err e, w)
  | (Ok sources, w) =>
      let relays := omap static_relay (range 1%nat _ (c_StaticsConfig config)) in
      let names := if (length (rq_ServerNames r) =? 0)%nat then (range 2%nat _ (c_StaticsConfig config)).*1 else rq_ServerNames r in
      match static_servers (c_StaticsConfig config) names with
      | Err e => (Err e, w)
      | Ok servers =>
          let rg := {| rg_registeredServers := servers; rg_registeredRelays := relays; rg_serversInfo := si |} in
          match updateRegisteredServers unicode_equal_fold stamp_String (parseV2 shuffle parse_stamp) r sources rg with
          | (Err e, _) => (Err e, w)
          | (Ok _, rg) => (Ok (sources, rg), w)
          end
      end
  end.
End load.
