(* ===== verification/ConfigLoad.v ===== *)
(** * Loading the configuration (src/dnscrypt-proxy/config.go)

    [ConfigLoad]: from the decoded file to the settings of the proxy, its sources and its
    servers.  The steps are those of the source and in its order; each of them may end the
    program. *)

From S2P Require Import Prelude GoStrings GoFloat NetIP Common Crypto Dns Metrics ServerTypes Mds Servers Feedback TimeRanges.
From S2P Require Import Plugins RuleLog Query Clients Url XTransport Sources Observability Monitoring Prometheus MonitoringUI.
From S2P Require Import QueryPlugins Config Tls Registration Listeners ColdStart.

(** The settings of [Proxy], by the function that sets them. *)
Record Proxy := {
  px_showCerts : bool;
  px_userName : bytes;
  px_child : bool;
  px_enableHotReload : bool;
  px_log_limits : Z * Z * Z;
  px_params : ServerParams;
  px_transport : TransportOptions;
  px_tlsClientCreds : option DOHClientCreds;
  px_clients : Clients_;
  px_plugins : PluginSettings;
  px_ednsClientSubnets : list IPNet;
  px_queryLog : QueryLogConfig;
  px_nxLog : NxLogConfig;
  px_blockName : ListConfig;
  px_allowName : ListConfig;
  px_blockIP : ListConfig;
  px_allowIP : ListConfig;
  px_files : bytes * bytes * bytes;
  px_allWeeklyRanges : gmap bytes WeeklyRanges;
  px_anonymized : AnonymizedSettings;
  px_serversBlockingFragments : list bytes;
  px_dns64 : DNS64Config;
  px_ipCryptConfig : option IPCryptConfig;
  px_restrictions : Restrictions;
  px_listenAddresses : list bytes;
  px_captivePortalMap : option CaptivePortalMap;
  px_sources : list Source;
  px_registry : Registry;
}.

(** One line of the list of servers. *)
Record ServerSummary := {
  ss_Name : bytes; ss_Proto : bytes; ss_IPv6 : bool; ss_Addrs : list bytes; ss_Ports : list Z; ss_DNSSEC : option bool;
  ss_NoLog : bool; ss_NoFilter : bool; ss_Description : bytes; ss_Stamp : bytes;
}.

Section summary.
Context (stamp_String : ServerStamp -> bytes) (proto_String : Z -> bytes).

Definition addresses (stamp : ServerStamp) : list bytes * Z :=
  let addrStr := ServerAddrStr stamp in
  let '(hostAddr, port) := ExtractHostAndPort addrStr DefaultPort in
  let '(addrs, port) :=
    if ((st_Proto stamp =? StampProtoTypeDoH) || (st_Proto stamp =? StampProtoTypeODoHTarget)) &&
       (0 <? length (ProviderName stamp))%nat
    then let '(host, port) := ExtractHostAndPort (ProviderName stamp) port in ([host], port)
    else ([], port) in
  (if (0 <? length addrStr)%nat then addrs ++ [hostAddr] else addrs, port).

Definition has_prop (stamp : ServerStamp) (p : Z) : bool := negb (Z.land (st_Props stamp) p =? 0).

Definition summary (s : RegisteredServer) (dnssec : option bool) (nolog nofilter : bool) : ServerSummary :=
  let stamp := rs_stamp s in
  let '(addrs, port) := addresses stamp in
  {| ss_Name := rs_name s; ss_Proto := proto_String (st_Proto stamp); ss_IPv6 := HasPrefix (ServerAddrStr stamp) [91];
     ss_Addrs := addrs; ss_Ports := [port]; ss_DNSSEC := dnssec; ss_NoLog := nolog; ss_NoFilter := nofilter;
     ss_Description := rs_description s; ss_Stamp := stamp_String stamp |}.

(** The relays, if they are asked for, and the servers. *)
Definition printRegisteredServers (includeRelays : bool) (rg : Registry) : list ServerSummary :=
  (if includeRelays then
     (fun s => summary s None
        (if st_Proto (rs_stamp s) =? StampProtoTypeODoHRelay then has_prop (rs_stamp s) ServerInformalPropertyNoLog else true)
        true) <$> rg_registeredRelays rg
   else []) ++
  ((fun s => summary s (Some (has_prop (rs_stamp s) ServerInformalPropertyDNSSEC))
      (has_prop (rs_stamp s) ServerInformalPropertyNoLog) (has_prop (rs_stamp s) ServerInformalPropertyNoFilter))
   <$> rg_registeredServers rg).
End summary.

(** ** The steps *)

Record LWorld {S : Type} := { lw_sources : SWorld S; lw_process : Process }.
Arguments LWorld : clear implicits.
Definition L (S A : Type) : Type := LWorld S -> result config_error A * LWorld S.

Definition lbind {S A B} (m : L S A) (k : A -> L S B) : L S B := fun w =>
  match m w with (Ok a, w) => k a w | (Err e, w) => (Err e, w) end.
Definition lret {S A} (r : result config_error A) : L S A := fun w => (r, w).

Declare Scope load_scope.
Open Scope load_scope.
Notation "x <=- m ;; k" := (lbind m (fun x => k)) (at level 100, m at next level, right associativity) : load_scope.

Section load.
Context {S : Type} `{HE : !HttpEnv S} `{TE : TlsEnv}.
(** The text functions that depend on Unicode tables. *)
Context (unicode_lower : bytes -> bytes) (unicode_equal_fold : bytes -> bytes -> bool).
(** [url.Parse], the proxy package, the key log file. *)
Context (parse_hostname : bytes -> option bytes) (proxy_usable : bytes -> bool) (can_open_log : bytes -> bool).
(** Files, signatures, URLs, keys, random choices, stamps, and orders of maps. *)
Context (io_fails : nat -> bool) (verify : bytes -> bytes -> bytes -> bool).
Context (parseURL : bytes -> option URL) (valid_key : bytes -> bool).
Context (shuffle : list bytes -> list bytes) (parse_stamp : bytes -> option ServerStamp) (stamp_String : ServerStamp -> bytes).
Context (range : nat -> forall A, gmap bytes A -> list (bytes * A)).
(** The network, and the file of the captive portals. *)
Context (resolves : bytes -> bytes -> bool) (can_open : handle -> bool) (fresh : gmap Z handle -> Z) (attempts : nat -> attempt).
Context (read_map : bytes -> option bytes).
Context (systemd_files : list handle).

Definition on_sources {A} (m : SWorld S -> result config_error A * SWorld S) : L S A := fun w =>
  let '(r, s) := m (lw_sources w) in (r, {| lw_sources := s; lw_process := lw_process w |}).
Definition on_transport {A} (m : X S (result config_error A)) : L S A := on_sources (on_x m).
Definition on_process (f : Process -> option Process) : L S unit := fun w =>
  match f (lw_process w) with
  | Some p => (Ok tt, {| lw_sources := lw_sources w; lw_process := p |})
  | None => (Err FatalError, w)
  end.

(** The addresses that are listened to at the end, and the captive portals. *)
Definition initializeNetworking (commandMode : bool) (flags : ConfigFlags) (config : Config) (plugins : PluginSettings)
    : L S (list bytes * option CaptivePortalMap) :=
  if commandMode then lret (Ok (pg_listenAddresses plugins, None))
  else fun w =>
    let resolvers := bootstrapResolvers (xt (sx (lw_sources w))) in
    let '(address, timeout) := determineNetprobeAddress flags config resolvers in
    let probed := NetProbe resolves can_open read_map attempts (configureAdditionalFiles config).2 (pg_listenAddresses plugins)
                    None address timeout in
    match pb_wait probed with
    | None => (Err NetProbeError, w)
    | Some _ =>
        (_ <=- on_process (open_sockets resolves can_open fresh commandMode (role_of (c_UserName config) (fl_Child flags))
                             (pg_listenAddresses plugins) (pg_localDoHListenAddresses plugins)) ;;
         fun w =>
           match addSystemDListeners systemd_files (c_UserName config) (fl_Child flags) (pg_listenAddresses plugins) (lw_process w) with
           | None => (Err FatalError, w)
           | Some (addrs, p) => (Ok (addrs, pb_map probed), {| lw_sources := lw_sources w; lw_process := p |})
           end) w
    end.

Definition ConfigLoad (flags : ConfigFlags) (show_certs_env : bool) (undecoded : list bytes) (config : Config) (si : ServersInfo)
    : L S Proxy :=
  _ <=- lret (match undecoded with key :: _ => Err (UnsupportedKey key) | [] => Ok tt end) ;;
  let showCerts := fl_ShowCerts flags || show_certs_env in
  let commandMode := fl_Check flags || showCerts || fl_List flags || fl_ListAll flags in
  _ <=- on_transport (modify (fun _ => NewXTransport) ;;; xret (Ok tt)) ;;
  _ <=- on_process (configureLogging can_open fresh commandMode (c_UseSyslog config) (c_LogFile config) (fl_Child flags)) ;;
  let '(params, proto) := configureServerParams config in
  options <=- on_transport (configureXTransport parse_hostname proxy_usable can_open_log config proto) ;;
  creds <=- lret (configureDoHClientAuth config) ;;
  clients <=- (fun w => match configured_clients (xt (sx (lw_sources w))) options creds with
                        | Some t => (Ok t, w)
                        | None => (Err FatalError, w)
                        end) ;;
  let si := configureLoadBalancing unicode_lower config si in
  plugins <=- lret (configurePlugins config) ;;
  subnets <=- lret (configureEDNSClientSubnet (c_EDNSClientSubnet config)) ;;
  queryLog <=- lret (configureQueryLog unicode_lower config) ;;
  nxLog <=- lret (configureNXLog unicode_lower config) ;;
  blockName <=- lret (configureBlockedNames unicode_lower config) ;;
  allowName <=- lret (configureAllowedNames unicode_lower config) ;;
  blockIP <=- lret (configureBlockedIPs unicode_lower config) ;;
  allowIP <=- lret (configureAllowedIPs unicode_lower config) ;;
  weekly <=- lret (configureWeeklyRanges config) ;;
  ipCrypt <=- lret (configureIPEncryption unicode_lower config) ;;
  let r := configureSourceRestrictions flags config in
  networking <=- initializeNetworking commandMode flags config plugins ;;
  _ <=- lret (if (0 <? length (c_UserName config))%nat && negb (fl_Child flags) then Err Reexecuted else Ok tt) ;;
  loaded <=-
    (if c_OfflineMode config then
       lret (Ok ([], {| rg_registeredServers := []; rg_registeredRelays := []; rg_serversInfo := si |}))
     else
       l <=- on_sources (loadSources io_fails verify parseURL valid_key shuffle parse_stamp stamp_String unicode_equal_fold range
                           config r si) ;;
       lret (if (length (rg_registeredServers l.2) =? 0)%nat then Err NoServerFound else Ok l)) ;;
  _ <=- lret (if fl_List flags || fl_ListAll flags || fl_Check flags then Err Exit else Ok tt) ;;
  lret (Ok {| px_showCerts := showCerts; px_userName := c_UserName config; px_child := fl_Child flags;
              px_enableHotReload := c_EnableHotReload config;
              px_log_limits := (c_LogMaxSize config, c_LogMaxAge config, c_LogMaxBackups config);
              px_params := params; px_transport := options; px_tlsClientCreds := creds; px_clients := clients; px_plugins := plugins;
              px_ednsClientSubnets := subnets; px_queryLog := queryLog; px_nxLog := nxLog; px_blockName := blockName;
              px_allowName := allowName; px_blockIP := blockIP; px_allowIP := allowIP;
              px_files := configureAdditionalFiles config; px_allWeeklyRanges := weekly;
              px_anonymized := configureAnonymizedDNS config;
              px_serversBlockingFragments := configureBrokenImplementations config; px_dns64 := c_DNS64 config;
              px_ipCryptConfig := ipCrypt; px_restrictions := r; px_listenAddresses := networking.1;
              px_captivePortalMap := networking.2;
              px_sources := loaded.1; px_registry := loaded.2 |}).
End load.
