(* ===== verification/ConfigProps.v ===== *)
(** * Properties of the settings

    The settings of the scheduler are in their ranges whatever the file says, and the
    servers that are used are those that the configuration allows. *)

From S2P Require Import Prelude GoStrings GoFloat NetIP Common Crypto Dns Metrics MetricsProps ServerTypes Mds Servers ServersProps Feedback TimeRanges.
From S2P Require Import Plugins RuleLog Query Clients Url XTransport Sources SourcesProps Observability Monitoring Prometheus MonitoringUI.
From S2P Require Import Config Registration Listeners ConfigLoad.

(** ** The scheduler *)

Definition not_nan (x : float) : Prop := (x =? x)%float = true.
Definition float_in (lo hi x : float) : Prop := (lo <=? x)%float = true /\ (x <=? hi)%float = true.

Lemma not_ltb_leb x y : not_nan x -> not_nan y -> (x <? y)%float = false -> (y <=? x)%float = true.
Proof.
  unfold not_nan. rewrite !FloatAxioms.eqb_spec, FloatAxioms.ltb_spec, FloatAxioms.leb_spec. unfold SFeqb, SFltb, SFleb.
  intros Hx Hy H. destruct (SFcompare (Prim2SF y) (Prim2SF x)) as [[]|] eqn:E; [done..| |].
  - by rewrite (SFcompare_Gt_Lt _ _ E) in H.
  - destruct (Prim2SF x) as [[]|[]| |[] m1 e1], (Prim2SF y) as [[]|[]| |[] m2 e2]; by cbn in *.
Qed.

Lemma floatInRange_in p lo hi dst : (forall v, p = Some v -> not_nan v) -> not_nan lo -> not_nan hi -> float_in lo hi dst ->
  float_in lo hi (floatInRange p lo hi dst).
Proof.
  intros Hp Hlo Hhi Hd. destruct p as [v|]; cbn; [|done]. destruct (_ || _) eqn:E; bools; [done|].
  specialize (Hp v eq_refl). split; by apply not_ltb_leb.
Qed.

Lemma durationInRange_in p lo hi dst : lo <= dst <= hi -> lo <= durationInRange p lo hi dst <= hi.
Proof.
  intros Hd. destruct p as [s|]; cbn; [|done]. destruct (ParseDuration s) as [d|]; [|done].
  destruct (_ || _) eqn:E; bools; lia.
Qed.

Lemma intInRange_in p lo hi dst : lo <= dst <= hi -> lo <= intInRange p lo hi dst <= hi.
Proof. intros Hd. destruct p as [v|]; cbn; [|done]. destruct (_ || _) eqn:E; bools; lia. Qed.

(** No value of the section is NaN. *)
Definition no_nan (cfg : MDSSchedulerConfig) : Prop :=
  forall p v, p ∈ [mc_SwitchMargin cfg; mc_TieBand cfg; mc_ExplorationProbability cfg; mc_WeightTimeout cfg;
                   mc_WeightErrors cfg; mc_WeightServfail cfg; mc_WeightDNSSECBogus cfg; mc_WeightTruncated cfg;
                   mc_WeightFallback cfg; mc_WeightConnNew cfg; mc_WeightJitter cfg] -> p = Some v -> not_nan v.

Record params_ok (p : MDSParams) : Prop := {
  po_samples : 1 <= PenaltyMinSamples p <= WarmupSamples p /\ WarmupSamples p <= 10000;
  po_margins : float_in 0 1 (SwitchMargin p) /\ float_in 0 0.5 (TieBand p) /\ (TieBand p <=? SwitchMargin p)%float = true;
  po_times : 0 <= Dwell p <= Hour /\ Second <= HalfOpenInterval p <= Hour;
  po_explore : float_in 0 1 (ExploreProb p);
  po_breaker : 1 <= BreakerThreshold p <= 100;
  po_weights : Forall (float_in 0 10) [WeightTimeout p; WeightErrors p; WeightServfail p; WeightBogus p; WeightTruncated p;
                                       WeightFallback p; WeightConnNew p; WeightJitter p];
}.

Lemma leb_not_nan x y : (x <=? y)%float = true -> not_nan x /\ not_nan y.
Proof.
  unfold not_nan. rewrite !FloatAxioms.eqb_spec, FloatAxioms.leb_spec. unfold SFeqb, SFleb. intros H.
  assert (forall z, z <> S754_nan -> match SFcompare z z with Some Eq => true | _ => false end = true) as Hz.
  { intros [[]|[]| |[] m e] Hz; cbn; try done; rewrite Z.compare_refl; by rewrite (Pos.compare_refl m : Pos.compare_cont Eq m m = Eq). }
  split; apply Hz; intros E; rewrite E in H; [done|]. by destruct (Prim2SF x) as [[]|[]| |[] m e].
Qed.

Lemma samples_ok a b dst dst' : 1 <= a <= 10000 -> 1 <= b <= 10000 -> 1 <= dst' <= dst -> dst <= 10000 ->
  let '(warmup, penaltyMin) := if b >? a then (dst, dst') else (a, b) in 1 <= penaltyMin <= warmup /\ warmup <= 10000.
Proof. intros. destruct (b >? a) eqn:E; bools; lia. Qed.

Lemma margins_ok m t dm dt : float_in 0 1 m -> float_in 0 0.5 t -> float_in 0 1 dm -> float_in 0 0.5 dt -> (dt <=? dm)%float = true ->
  let '(margin, tie) := if (m <? t)%float then (dm, dt) else (m, t) in
  float_in 0 1 margin /\ float_in 0 0.5 tie /\ (tie <=? margin)%float = true.
Proof.
  intros Hm Ht Hdm Hdt Hd. destruct (m <? t)%float eqn:E; [done|]. split_and!; [done..|].
  apply not_ltb_leb; [by eapply leb_not_nan, Hm|by eapply leb_not_nan, Ht|done].
Qed.

Lemma applyMDSConfig_ok cfg : no_nan cfg ->
  params_ok (applyMDSConfig cfg).1 /\ 30 * Second <= (applyMDSConfig cfg).2 <= 30 * Minute.
Proof.
  intros Hn.
  assert (forall p lo hi dst, p ∈ [mc_SwitchMargin cfg; mc_TieBand cfg; mc_ExplorationProbability cfg; mc_WeightTimeout cfg;
            mc_WeightErrors cfg; mc_WeightServfail cfg; mc_WeightDNSSECBogus cfg; mc_WeightTruncated cfg;
            mc_WeightFallback cfg; mc_WeightConnNew cfg; mc_WeightJitter cfg] -> not_nan lo -> not_nan hi ->
            float_in lo hi dst -> float_in lo hi (floatInRange p lo hi dst)) as Hf.
  { intros p lo hi dst Hp Hlo Hhi Hd. apply floatInRange_in; [|done..]. intros v. by apply Hn. }
  pose proof (samples_ok (intInRange (mc_WarmupSamples cfg) 1 10000 20) (intInRange (mc_PenaltyMinSamples cfg) 1 10000 10) 20 10)
    as Hs.
  pose proof (margins_ok (floatInRange (mc_SwitchMargin cfg) 0 1 0.15) (floatInRange (mc_TieBand cfg) 0 0.5 0.03) 0.15 0.03)
    as Hm.
  unfold applyMDSConfig. cbn [DefaultMDSParams WarmupSamples PenaltyMinSamples SwitchMargin TieBand].
  destruct (if _ >? _ then _ else _) as [warmup penaltyMin]. destruct (if (_ <? _)%float then _ else _) as [margin tie].
  cbn [fst snd]. split; [|by apply durationInRange_in]. split; cbn.
  - apply Hs; [apply intInRange_in; lia..|lia|lia].
  - apply Hm; [apply Hf; [by repeat constructor|done..]|apply Hf; [by repeat constructor|done..]|done..].
  - split; by apply durationInRange_in.
  - apply Hf; [by repeat constructor|done..].
  - apply intInRange_in. lia.
  - repeat constructor; (apply Hf; [by repeat constructor|done..]).
Qed.

Lemma pn_strategy_cases s : pn_strategy s = DefaultLBStrategy \/ exists n, 1 <= n < 2 ^ 31 /\ pn_strategy s = LBStrategyPN n.
Proof.
  assert (forall after n, ParseInt32 after = Some n -> n < 2 ^ 31) as HP.
  { intros after n. unfold ParseInt32. destruct (Atoi after) as [n'|]; [|done]. cbn [mbind option_bind].
    destruct (_ && _) eqn:E; [|done]. intros [= <-]. by bools. }
  unfold pn_strategy. repeat case_match; auto. bools. right. eexists. split; [|done]. split; [lia|by eapply HP].
Qed.

(** C22: the scheduler is set up within its limits.  Whatever the [lb_strategy] and [scheduler_mds] settings, as
    long as no number of them is NaN, the strategy is one that always finds a server: the
    count of a [pN] strategy is a positive 32-bit number, and the parameters of the
    scheduler are in the documented ranges, with [penalty_min_samples] at most
    [warmup_samples] and [tie_band] at most [switch_margin]; the window of the metrics, if it
    is at first, stays between 30 seconds and 30 minutes. *)
Theorem configured_scheduler lower config si :
  no_nan (c_SchedulerMDS config) -> 30 * Second <= metricsWindow_ si <= 30 * Minute ->
  let si' := configureLoadBalancing lower config si in
  strategy_ok (lbStrategy si') /\ (forall n, lbStrategy si' = LBStrategyPN n -> 1 <= n < 2 ^ 31) /\
  (forall mds, lbStrategy si' = LBMds mds -> params_ok (params mds)) /\
  30 * Second <= metricsWindow_ si' <= 30 * Minute /\
  (ToLower lower (c_LBStrategy config) = str "mds" -> exists mds, lbStrategy si' = LBMds mds).
Proof.
  intros Hn Hw. unfold configureLoadBalancing. destruct (applyMDSConfig_ok _ Hn) as [Hp Hwin].
  destruct (applyMDSConfig (c_SchedulerMDS config)) as [ps window]. cbn [fst snd] in Hp, Hwin.
  remember (ToLower lower (c_LBStrategy config)) as s eqn:Es.
  do 6 (case_bool_decide as Hs; [cbn [lbStrategy metricsWindow_ strategy_ok]; split_and!; try done; try (by apply Hw);
          intros Hm; rewrite Hm in Hs; by repeat destruct Hs as [Hs|Hs]|clear Hs]).
  case_bool_decide; cbn [lbStrategy metricsWindow_].
  { split_and!; [done|done|by intros ? [= <-]|apply Hwin|apply Hwin|by eexists]. }
  destruct (pn_strategy_cases s) as [->|(n & Hn2 & ->)]; cbn [strategy_ok DefaultLBStrategy];
    split_and!; try done; try lia. by intros ? [= <-].
Qed.

(** The default configuration with some settings. *)
Definition sample_config (strategy : bytes) (mds : MDSSchedulerConfig) (names : list bytes) (statics : gmap bytes StaticConfig)
    (sources : gmap bytes SourceConfig) : Config :=
  let c := newConfig in
  {| c_LogFile := c_LogFile c; c_UseSyslog := c_UseSyslog c; c_ServerNames := names;
     c_DisabledServerNames := c_DisabledServerNames c; c_ListenAddresses := c_ListenAddresses c; c_LocalDoH := c_LocalDoH c;
     c_MonitoringUI := c_MonitoringUI c; c_UserName := c_UserName c; c_ForceTCP := c_ForceTCP c; c_HTTP3 := c_HTTP3 c;
     c_HTTP3Probe := c_HTTP3Probe c; c_Timeout := c_Timeout c; c_KeepAlive := c_KeepAlive c; c_Proxy := c_Proxy c;
     c_CertRefreshConcurrency := c_CertRefreshConcurrency c; c_CertRefreshDelay := c_CertRefreshDelay c;
     c_CertIgnoreTimestamp := c_CertIgnoreTimestamp c; c_PQDNSCrypt := c_PQDNSCrypt c; c_EphemeralKeys := c_EphemeralKeys c;
     c_LBStrategy := strategy; c_LBEstimator := c_LBEstimator c; c_SchedulerMDS := mds; c_BlockIPv6 := c_BlockIPv6 c;
     c_BlockUnqualified := c_BlockUnqualified c; c_BlockUndelegated := c_BlockUndelegated c;
     c_EnableHotReload := c_EnableHotReload c; c_Cache := c_Cache c; c_CacheSize := c_CacheSize c;
     c_CacheNegTTL := c_CacheNegTTL c; c_CacheNegMinTTL := c_CacheNegMinTTL c; c_CacheNegMaxTTL := c_CacheNegMaxTTL c;
     c_CacheMinTTL := c_CacheMinTTL c; c_CacheMaxTTL := c_CacheMaxTTL c; c_RejectTTL := c_RejectTTL c; c_CloakTTL := c_CloakTTL c;
     c_QueryLog := c_QueryLog c; c_NxLog := c_NxLog c; c_BlockName := c_BlockName c; c_BlockNameLegacy := c_BlockNameLegacy c;
     c_WhitelistNameLegacy := c_WhitelistNameLegacy c; c_AllowedName := c_AllowedName c; c_BlockIP := c_BlockIP c;
     c_BlockIPLegacy := c_BlockIPLegacy c; c_AllowIP := c_AllowIP c; c_ForwardFile := c_ForwardFile c; c_CloakFile := c_CloakFile c;
     c_CaptivePortalsMapFile := c_CaptivePortalsMapFile c; c_StaticsConfig := statics;
     c_SourcesConfig := sources; c_BrokenImplementations := c_BrokenImplementations c;
     c_SourceRequireDNSSEC := c_SourceRequireDNSSEC c; c_SourceRequireNoLog := c_SourceRequireNoLog c;
     c_SourceRequireNoFilter := c_SourceRequireNoFilter c; c_SourceDNSCrypt := c_SourceDNSCrypt c; c_SourceDoH := c_SourceDoH c;
     c_SourceODoH := c_SourceODoH c; c_SourceIPv4 := c_SourceIPv4 c; c_SourceIPv6 := c_SourceIPv6 c; c_MaxClients := c_MaxClients c;
     c_TimeoutLoadReduction := c_TimeoutLoadReduction c; c_BootstrapResolversLegacy := c_BootstrapResolversLegacy c;
     c_BootstrapResolvers := c_BootstrapResolvers c; c_IgnoreSystemDNS := c_IgnoreSystemDNS c;
     c_AllWeeklyRanges := c_AllWeeklyRanges c; c_LogMaxSize := c_LogMaxSize c; c_LogMaxAge := c_LogMaxAge c;
     c_LogMaxBackups := c_LogMaxBackups c; c_TLSDisableSessionTickets := c_TLSDisableSessionTickets c;
     c_TLSPreferRSA := c_TLSPreferRSA c; c_TLSKeyLogFile := c_TLSKeyLogFile c; c_NetprobeAddress := c_NetprobeAddress c;
     c_NetprobeTimeout := c_NetprobeTimeout c; c_OfflineMode := c_OfflineMode c; c_HTTPProxyURL := c_HTTPProxyURL c;
     c_BlockedQueryResponse := c_BlockedQueryResponse c; c_QueryMeta := c_QueryMeta c; c_CloakedPTR := c_CloakedPTR c;
     c_AnonymizedDNS := c_AnonymizedDNS c; c_DoHClientX509Auth := c_DoHClientX509Auth c;
     c_DoHClientX509AuthLegacy := c_DoHClientX509AuthLegacy c; c_DNS64 := c_DNS64 c; c_EDNSClientSubnet := c_EDNSClientSubnet c;
     c_IPEncryption := c_IPEncryption c |}.

Definition sample_mds : MDSSchedulerConfig :=
  {| mc_WarmupSamples := Some 5; mc_PenaltyMinSamples := Some 50; mc_SwitchMargin := Some 0.01%float;
     mc_TieBand := Some 0.2%float; mc_Dwell := Some (str "2h"); mc_ExplorationProbability := Some 1%float;
     mc_CircuitBreakerThreshold := Some 101; mc_HalfOpenInterval := Some (str "30s"); mc_MetricsWindow := Some (str "2m30s");
     mc_WeightTimeout := Some (-1)%float; mc_WeightErrors := Some 10%float; mc_WeightServfail := None; mc_WeightDNSSECBogus := None;
     mc_WeightTruncated := None; mc_WeightFallback := None; mc_WeightConnNew := None; mc_WeightJitter := Some infinity |}.

Lemma configured_scheduler_witness :
  let config := sample_config (str "MdS") sample_mds [] ∅ ∅ in
  no_nan (c_SchedulerMDS config) /\
  exists mds, lbStrategy (configureLoadBalancing id config NewServersInfo) = LBMds mds /\ params_ok (params mds) /\
    WarmupSamples (params mds) = 20 /\ HalfOpenInterval (params mds) = 30 * Second /\ WeightErrors (params mds) = 10%float.
Proof.
  assert (no_nan sample_mds) as Hn.
  { intros p v Hp ->. cbn in Hp. repeat (apply elem_of_cons in Hp as [Hp|Hp]; [by try injection Hp as ->|]). by apply elem_of_nil in Hp. }
  split; [exact Hn|].
  destruct (configured_scheduler id (sample_config (str "MdS") sample_mds [] ∅ ∅) NewServersInfo Hn) as (_ & _ & H & _ & Hm);
    [by vm_compute|]. destruct Hm as [mds Hm]; [done|]. exists mds. split_and!; [exact Hm|by apply H|..];
  vm_compute in Hm; injection Hm as <-; reflexivity.
Defined.

(** A value that is not a number passes the range checks. *)
Example nan_accepted :
  let config := {| mc_WarmupSamples := None; mc_PenaltyMinSamples := None; mc_SwitchMargin := Some nan; mc_TieBand := None;
     mc_Dwell := None; mc_ExplorationProbability := None; mc_CircuitBreakerThreshold := None;
     mc_HalfOpenInterval := None; mc_MetricsWindow := None; mc_WeightTimeout := Some nan; mc_WeightErrors := None;
     mc_WeightServfail := None; mc_WeightDNSSECBogus := None; mc_WeightTruncated := None; mc_WeightFallback := None;
     mc_WeightConnNew := None; mc_WeightJitter := None |} in
  let p := (applyMDSConfig config).1 in
  (SwitchMargin p =? SwitchMargin p)%float = false /\ (WeightTimeout p =? WeightTimeout p)%float = false /\
  ~ params_ok p.
Proof.
  cbv zeta. split_and!; [reflexivity..|]. intros H. by destruct (po_margins _ H) as ((H1 & _) & _).
Qed.
