(* ===== verification/RegistrationProps.v ===== *)
(** * Properties of the selection of servers

    The servers that are used are static servers of the configuration, or servers of signed
    lists that pass the restrictions of the configuration. *)

From S2P Require Import Prelude GoStrings GoFloat NetIP Common Crypto Dns Metrics MetricsProps ServerTypes Mds Servers ServersProps Feedback TimeRanges.
From S2P Require Import Plugins RuleLog Query Clients Url XTransport XTransportProps Sources SourcesProps Observability Monitoring Prometheus MonitoringUI.
From S2P Require Import QueryPlugins Config Tls Registration Listeners ColdStart ConfigLoad ConfigProps.

(** ** Lists of servers *)

(** A property of the names and stamps of a list. *)
Definition every (P : bytes -> ServerStamp -> Prop) (l : list RegisteredServer) : Prop :=
  Forall (fun s => P (rs_name s) (rs_stamp s)) l.

Section selection.
Context (unicode_equal_fold : bytes -> bytes -> bool) (stamp_String : ServerStamp -> bytes).
Context (Parse : Source -> list RegisteredServer * option (option nat)).
Context (P PR : bytes -> ServerStamp -> Prop) (r : Restrictions).
Implicit Types s : RegisteredServer.

Lemma update_or_add_every Q new l : every Q l -> Q (rs_name new) (rs_stamp new) -> every Q (update_or_add stamp_String new l).
Proof.
  intros Hl Hn. unfold update_or_add, every in *. destruct (existsb _ _); [|by apply Forall_app; auto].
  apply Forall_fmap. eapply Forall_impl; [exact Hl|]. intros s Hs; cbn.
  unfold update_stamp. case_bool_decide as E; [|done]. case_bool_decide; [done|]. cbn. by rewrite E.
Qed.

Definition registry_ok (rg : Registry) : Prop := every P (rg_registeredServers rg) /\ every PR (rg_registeredRelays rg).
(** What is asked of a server of a list. *)
Definition selectable s : Prop :=
  wanted unicode_equal_fold r s = true -> if is_relay (rs_stamp s) then PR (rs_name s) (rs_stamp s) else P (rs_name s) (rs_stamp s).

Lemma select_server_ok rg s : registry_ok rg -> selectable s ->
  registry_ok (select_server unicode_equal_fold stamp_String r rg s).
Proof.
  intros [H1 H2] Hs. unfold selectable, select_server, registry_ok in *. destruct (wanted _ _ s); [|done]. cbn [negb].
  specialize (Hs eq_refl). destruct (is_relay (rs_stamp s)); split; cbn; auto using update_or_add_every.
Qed.

Lemma select_sources_ok sources rg res rg' : registry_ok rg ->
  (forall source s, source ∈ sources -> s ∈ (Parse source).1 -> selectable s) ->
  select_sources unicode_equal_fold stamp_String Parse r sources rg = (res, rg') -> registry_ok rg' /\ rg_serversInfo rg' = rg_serversInfo rg.
Proof.
  revert rg. induction sources as [|source sources IH]; intros rg Hrg Hs; cbn [select_sources]; [by intros [= <- <-]|].
  assert (forall l rg, registry_ok rg -> (forall s, s ∈ l -> selectable s) ->
            let rg' := foldl (select_server unicode_equal_fold stamp_String r) rg l in
            registry_ok rg' /\ rg_serversInfo rg' = rg_serversInfo rg) as Hfold.
  { clear. induction l as [|s l IH]; intros rg Hrg Hl; cbn; [done|].
    destruct (IH (select_server unicode_equal_fold stamp_String r rg s)) as [G1 G2].
    - apply select_server_ok; [done|]. apply Hl, elem_of_cons. by left.
    - intros s' Hs'. apply Hl, elem_of_cons. by right.
    - split; [done|]. rewrite G2. unfold select_server. by repeat case_match. }
  pose proof (fun s H => Hs source s (list_elem_of_here _ _) H) as Hhead.
  destruct (Parse source) as [servers e]. cbn [fst] in Hhead. intros E.
  assert (forall servers, (forall s, s ∈ servers -> selectable s) ->
            select_sources unicode_equal_fold stamp_String Parse r sources
              (foldl (select_server unicode_equal_fold stamp_String r) rg servers) = (res, rg') ->
            registry_ok rg' /\ rg_serversInfo rg' = rg_serversInfo rg) as Hgo.
  { intros l Hl El. destruct (Hfold l rg Hrg Hl) as [G1 G2]. rewrite <- G2. eapply IH; [done| |exact El].
    intros source' s H1. eapply Hs, list_elem_of_further, H1. }
  destruct servers as [|s servers]; [destruct e; [by injection E as <- <-|]|]; by eapply Hgo.
Qed.
End selection.

Lemma register_every Q new l : every Q l -> Q (rs_name new) (rs_stamp new) -> every Q (register new l).
Proof.
  unfold every. induction l as [|old l IH]; cbn; intros Hl Hn; [by repeat constructor|].
  apply Forall_cons in Hl as [H1 H2]. case_bool_decide; constructor; auto.
Qed.

Lemma register_all_ok P PR rg : registry_ok P PR rg -> every P (registeredServers (rg_serversInfo rg)) ->
  every PR (registeredRelays (rg_serversInfo rg)) ->
  let si := rg_serversInfo (register_all rg) in every P (registeredServers si) /\ every PR (registeredRelays si).
Proof.
  intros [H1 H2] G1 G2. unfold register_all; cbn.
  assert (forall l si, every P l -> every P (registeredServers si) -> every PR (registeredRelays si) ->
            let si' := foldl (fun si s => registerServer (rs_name s) (rs_stamp s) si) si l in
            every P (registeredServers si') /\ every PR (registeredRelays si')) as Hs.
  { clear. induction l as [|s l IH]; intros si Hl A B; cbn; [done|]. apply Forall_cons in Hl as [Hs Hl].
    apply IH; [done| |done]. cbn. by apply register_every. }
  assert (forall l si, every PR l -> every P (registeredServers si) -> every PR (registeredRelays si) ->
            let si' := foldl (fun si s => registerRelay (rs_name s) (rs_stamp s) si) si l in
            every P (registeredServers si') /\ every PR (registeredRelays si')) as Hr.
  { clear. induction l as [|s l IH]; intros si Hl A B; cbn; [done|]. apply Forall_cons in Hl as [Hs Hl].
    apply IH; [done|done|]. cbn. by apply register_every. }
  destruct (Hs _ _ H1 G1 G2). by apply Hr.
Qed.

Lemma register_all_inner rg : inner (rg_serversInfo (register_all rg)) = inner (rg_serversInfo rg).
Proof.
  unfold register_all; cbn.
  assert (forall l si, inner (foldl (fun si s => registerServer (rs_name s) (rs_stamp s) si) si l) = inner si) as Hs.
  { induction l as [|s l IH]; intros si; cbn; [done|]. by rewrite IH. }
  assert (forall l si, inner (foldl (fun si s => registerRelay (rs_name s) (rs_stamp s) si) si l) = inner si) as Hr.
  { induction l as [|s l IH]; intros si; cbn; [done|]. by rewrite IH. }
  by rewrite Hr, Hs.
Qed.

(** ** Sources *)

Section load.
Context {S : Type} `{HE : !HttpEnv S}.
Context (io_fails : nat -> bool) (verify : bytes -> bytes -> bytes -> bool).
Context (parseURL : bytes -> option URL) (valid_key : bytes -> bool).
Context (shuffle : list bytes -> list bytes) (parse_stamp : bytes -> option ServerStamp) (stamp_String : ServerStamp -> bytes).
Context (unicode_equal_fold : bytes -> bytes -> bool).
Context (range : nat -> forall A, gmap bytes A -> list (bytes * A)).

(** A source that was set up for a section of the configuration: its list has a signature
    by the key of the section. *)
Definition configured_source (config : Config) (source : Source) : Prop :=
  signed verify source /\ exists name cfg, c_SourcesConfig config !! name = Some cfg /\
    minisignKey source = so_MinisignKeyStr cfg /\ 25 * Hour <= prefetchDelay source <= 169 * Hour /\
    cacheTTL source <= 168 * Hour.

Lemma refresh_hours_range cfg : 25 <= refresh_hours cfg <= 169.
Proof. unfold refresh_hours, Min, Max. repeat case_match; bools; lia. Qed.

Lemma loadSource_spec name cfg (w : SWorld S) source w' :
  loadSource io_fails verify parseURL valid_key name cfg w = (Ok source, w') ->
  signed verify source /\ minisignKey source = so_MinisignKeyStr cfg /\
  25 * Hour <= prefetchDelay source <= 169 * Hour /\ cacheTTL source <= 168 * Hour.
Proof.
  unfold loadSource. case_bool_decide; [done|]. case_bool_decide; [done|].
  destruct (NewSource _ _ _ _ _ _ _ _ _ _ _ _ _) as [[err s] w1] eqn:E1. intros E.
  assert (s = source) as ->. { revert E. clear. destruct err; [destruct (length _ =? _)%nat|]; congruence. }
  destruct (NewSource_signed _ _ _ _ _ _ _ _ _ _ _ _ _ _ _ _ E1) as (H1 & H2 & -> & ->). split_and!; [done|done|..];
    pose proof (refresh_hours_range cfg); unfold Max, Min, DefaultPrefetchDelay, Hour, Minute, Second; repeat case_match; bools; lia.
Qed.

Lemma load_each_spec l (w : SWorld S) sources w' :
  load_each io_fails verify parseURL valid_key shuffle l w = (Ok sources, w') ->
  Forall (fun source => signed verify source /\ exists name cfg, (name, cfg) ∈ l /\
    minisignKey source = so_MinisignKeyStr cfg /\ 25 * Hour <= prefetchDelay source <= 169 * Hour /\
    cacheTTL source <= 168 * Hour) sources.
Proof.
  revert w sources w'. induction l as [|[name cfg] l IH]; intros w sources w'; cbn [load_each]; [intros [= <- <-]; constructor|].
  destruct (loadSource _ _ _ _ _ _ _) as [[source|e] w1] eqn:E1; [|done].
  destruct (load_each _ _ _ _ _ _ _) as [[rest|e] w2] eqn:E2; [|done]. intros [= <- <-].
  destruct (loadSource_spec _ _ _ _ _ E1) as (H1 & H2 & H3 & H4). constructor.
  - split; [done|]. exists name, cfg. split; [left|done].
  - eapply Forall_impl; [exact (IH _ _ _ E2)|]. cbn. intros s (G1 & n & c & G2 & G3). split; [done|].
    exists n, c. split; [by right|done].
Qed.

(** ** The restrictions *)

(** What the configuration says about a server that is not static. *)
Record allowed (config : Config) (name : bytes) (stamp : ServerStamp) : Prop := {
  al_names : c_ServerNames config <> [] ->
    exists n, n ∈ c_ServerNames config /\ EqualFold unicode_equal_fold n name = true;
  al_props : c_ServerNames config = [] ->
    (c_SourceRequireDNSSEC config = true -> Z.testbit (st_Props stamp) 0 = true) /\
    (c_SourceRequireNoLog config = true -> Z.testbit (st_Props stamp) 1 = true) /\
    (c_SourceRequireNoFilter config = true -> Z.testbit (st_Props stamp) 2 = true);
  al_disabled : forall n, n ∈ c_DisabledServerNames config -> EqualFold unicode_equal_fold n name = false;
  al_ipv4 : c_SourceIPv4 config = true -> c_SourceIPv6 config = false -> HasPrefix (ServerAddrStr stamp) [91] = false;
  al_ipv6 : c_SourceIPv4 config = false -> c_SourceIPv6 config = true ->
    HasPrefix (ServerAddrStr stamp) [91] = true \/ st_Proto stamp = StampProtoTypeDoH;
  al_proto : c_SourceDNSCrypt config = true /\ st_Proto stamp = StampProtoTypeDNSCrypt \/
    c_SourceDoH config = true /\ st_Proto stamp = StampProtoTypeDoH \/
    c_SourceODoH config = true /\ st_Proto stamp = StampProtoTypeODoHTarget;
}.

(** The server is a static one that is used, or is in the list of a source. *)
Definition is_static (config : Config) (name : bytes) (stamp : ServerStamp) : Prop :=
  (c_ServerNames config = [] \/ name ∈ c_ServerNames config) /\
  exists c, c_StaticsConfig config !! name = Some c /\ parse_stamp (sc_Stamp c) = Some stamp.
Definition in_list (sources : list Source) (name : bytes) (stamp : ServerStamp) : Prop :=
  exists source s, source ∈ sources /\ s ∈ (parseV2 shuffle parse_stamp source).1 /\ rs_name s = name /\ rs_stamp s = stamp.

Lemma includesName_spec names name : includesName unicode_equal_fold names name = true <->
  exists n, n ∈ names /\ EqualFold unicode_equal_fold n name = true.
Proof. unfold includesName. rewrite existsb_exists. by setoid_rewrite list_elem_of_In. Qed.

Lemma land_testbit a b n : Z.land a b = b -> 0 <= n -> Z.testbit b n = true -> Z.testbit a n = true.
Proof. intros <- Hn. rewrite Z.land_spec. by intros [? ?]%andb_true_iff. Qed.

Lemma wanted_allowed flags config s : fl_ListAll flags = false -> is_relay (rs_stamp s) = false ->
  wanted unicode_equal_fold (configureSourceRestrictions flags config) s = true -> allowed config (rs_name s) (rs_stamp s).
Proof.
  intros Hall Hr. unfold wanted, configureSourceRestrictions. rewrite Hall, Hr. cbn [orb andb negb].
  rewrite !andb_true_r. cbn. rewrite !andb_true_iff. intros [[[Hn Hd] Hf] Hp]. constructor.
  - intros Hne. apply includesName_spec. by destruct (c_ServerNames config).
  - intros Hne. rewrite Hne in Hn. cbn in Hn. unfold has_props in Hn. apply Z.eqb_eq in Hn.
    split_and!; intros E; rewrite E in Hn; (eapply land_testbit; [exact Hn|lia|]);
      by destruct (c_SourceRequireDNSSEC config), (c_SourceRequireNoLog config), (c_SourceRequireNoFilter config).
  - intros n Hin. destruct (EqualFold _ _ _) eqn:E; [|done]. apply negb_true_iff in Hd. rewrite <- Hd. symmetry.
    apply includesName_spec. by exists n.
  - intros E4 E6. revert Hf. unfold right_family. cbn [rq_SourceIPv4 rq_SourceIPv6]. rewrite E4, E6. cbn [orb].
    destruct (HasPrefix _ _); [|done]. by destruct (_ =? _).
  - intros E4 E6. revert Hf. unfold right_family. cbn [rq_SourceIPv4 rq_SourceIPv6]. rewrite E4, E6. cbn [orb].
    destruct (HasPrefix _ _); [by left|].
    destruct (st_Proto _ =? _) eqn:E; [|done]. right. by apply Z.eqb_eq.
  - unfold right_protocol in Hp; cbn in Hp.
    apply orb_true_iff in Hp as [Hp|[? ?%Z.eqb_eq]%andb_true_iff]; [|by auto].
    apply orb_true_iff in Hp as [[? ?%Z.eqb_eq]%andb_true_iff|[? ?%Z.eqb_eq]%andb_true_iff]; by auto.
Qed.

Lemma static_servers_spec statics names l : static_servers parse_stamp statics names = Ok l ->
  every (fun name stamp => name ∈ names /\ exists c, statics !! name = Some c /\ parse_stamp (sc_Stamp c) = Some stamp) l.
Proof.
  revert l. induction names as [|name names IH]; intros l; cbn [static_servers]; [intros [= <-]; constructor|].
  assert (forall l, static_servers parse_stamp statics names = Ok l -> every (fun n stamp => n ∈ name :: names /\
            exists c, statics !! n = Some c /\ parse_stamp (sc_Stamp c) = Some stamp) l) as IH'.
  { intros l' Hl. eapply Forall_impl; [exact (IH _ Hl)|]. cbn. intros s [H1 H2]. split; [by right|done]. }
  destruct (statics !! name) as [c|] eqn:Ec; [|by apply IH'].
  destruct (_ =? _)%nat; [done|]. destruct (parse_stamp _) as [stamp|] eqn:Es; [|done].
  destruct (static_servers _ _ names) as [rest|]; [|done]. cbn. intros [= <-].
  constructor; [|by apply IH']. cbn. split; [left|by exists c].
Qed.

(** The loops visit the entries of the maps. *)
Context (range_perm : forall i A (m : gmap bytes A), range i A m ≡ₚ map_to_list m).

Lemma range_lookup (A : Type) (i : nat) (m : gmap bytes A) (k : bytes) (v : A) : (k, v) ∈ range i A m -> m !! k = Some v.
Proof. rewrite range_perm. apply elem_of_map_to_list. Qed.

(** What is known of the servers and of the relays that are registered. *)
Definition server_ok (config : Config) (sources : list Source) (name : bytes) (stamp : ServerStamp) : Prop :=
  is_static config name stamp \/ in_list sources name stamp /\ allowed config name stamp.
Definition relay_ok (config : Config) (sources : list Source) (name : bytes) (stamp : ServerStamp) : Prop :=
  is_relay stamp = true /\
  ((exists c, c_StaticsConfig config !! name = Some c /\ parse_stamp (sc_Stamp c) = Some stamp) \/
   in_list sources name stamp /\ forall n, n ∈ c_DisabledServerNames config -> EqualFold unicode_equal_fold n name = false).

Lemma wanted_relay flags config s : fl_ListAll flags = false ->
  wanted unicode_equal_fold (configureSourceRestrictions flags config) s = true ->
  forall n, n ∈ c_DisabledServerNames config -> EqualFold unicode_equal_fold n (rs_name s) = false.
Proof.
  intros Hall. unfold wanted, configureSourceRestrictions. rewrite Hall, !andb_true_iff.
  cbn [rq_DisabledServerNames]. intros [[[_ Hd] _] _] n Hin. destruct (EqualFold _ _ _) eqn:E; [|done].
  apply negb_true_iff in Hd. rewrite <- Hd. symmetry. apply includesName_spec. by exists n.
Qed.

Lemma static_relays_ok config sources :
  every (relay_ok config sources) (omap (static_relay parse_stamp) (range 1%nat _ (c_StaticsConfig config))).
Proof.
  apply Forall_forall. intros s Hs. apply list_elem_of_omap in Hs as ([name c] & Hin & Hs).
  unfold static_relay in Hs. cbn [fst snd] in Hs. destruct (parse_stamp (sc_Stamp c)) as [stamp|] eqn:E; [|done]. cbn in Hs.
  destruct (is_relay stamp) eqn:Er; [|done]. injection Hs as <-. split; [done|]. left. exists c. split; [|done].
  by eapply range_lookup.
Qed.

Lemma loadSources_spec flags config si (w : SWorld S) sources rg w' : fl_ListAll flags = false ->
  registeredServers si = [] -> registeredRelays si = [] ->
  loadSources io_fails verify parseURL valid_key shuffle parse_stamp stamp_String unicode_equal_fold range config
    (configureSourceRestrictions flags config) si w = (Ok (sources, rg), w') ->
  Forall (configured_source config) sources /\
  every (server_ok config sources) (registeredServers (rg_serversInfo rg)) /\
  every (relay_ok config sources) (registeredRelays (rg_serversInfo rg)) /\
  registry_ok (server_ok config sources) (relay_ok config sources) rg.
Proof.
  intros Hall Hs0 Hr0. unfold loadSources.
  destruct (load_each _ _ _ _ _ _ w) as [[srcs|e] w1] eqn:El; [|done].
  destruct (static_servers _ _ _) as [servers|e] eqn:Es; [|done]. unfold updateRegisteredServers.
  destruct (select_sources _ _ _ _ _ _) as [[u|e] rg1] eqn:E1; [|done]. intros [= <- <- <-].
  assert (registry_ok (server_ok config srcs) (relay_ok config srcs) rg1 /\ rg_serversInfo rg1 = si) as [Hok Hsi].
  { refine (select_sources_ok _ _ _ (server_ok config srcs) (relay_ok config srcs) _ _ _ _ _ _ _ E1);
      [|intros source s Hsrc Hin Hw].
    - split; cbn; [|apply static_relays_ok]. eapply Forall_impl; [exact (static_servers_spec _ _ _ Es)|].
      cbn. intros s [Hn Hc]. left. split; [|done]. unfold configureSourceRestrictions in Hn. rewrite Hall in Hn. cbn in Hn.
      destruct (c_ServerNames config); [by left|by right].
    - destruct (is_relay (rs_stamp s)) eqn:Er.
      + split; [done|]. right. split; [by exists source, s|by eapply wanted_relay].
      + right. split; [by exists source, s|by eapply wanted_allowed]. }
  destruct (register_all_ok _ _ _ Hok) as [H1 H2]; [rewrite Hsi, Hs0; constructor|rewrite Hsi, Hr0; constructor|].
  split_and!; [|done..]. eapply Forall_impl; [exact (load_each_spec _ _ _ _ El)|]. cbn.
  intros source (G1 & name & cfg & G2 & G3). split; [done|]. exists name, cfg. split; [by eapply range_lookup|done].
Qed.
End load.

(** ** The configuration as a whole *)

Lemma lbind_ok {S A B} (m : L S A) (k : A -> L S B) w b w' : lbind m k w = (Ok b, w') ->
  exists a w1, m w = (Ok a, w1) /\ k a w1 = (Ok b, w').
Proof. unfold lbind. destruct (m w) as [[a|e] w1]; [|done]. by exists a, w1. Qed.

Lemma lret_ok {S A} (r : result config_error A) (w : LWorld S) a w' : lret r w = (Ok a, w') -> r = Ok a /\ w' = w.
Proof. unfold lret. by intros [= -> ->]. Qed.

(** Inverts the steps of [ConfigLoad] that succeed. *)
Ltac load_step H :=
  let a := fresh "a" in let w1 := fresh "w" in let E := fresh "E" in
  apply lbind_ok in H as (a & w1 & E & H);
  try (apply lret_ok in E as [E ->]).

Lemma register_nonempty new l : register new l <> [].
Proof. destruct l; cbn; [done|]. by case_bool_decide. Qed.

Lemma register_all_nonempty rg : rg_registeredServers rg <> [] -> registeredServers (rg_serversInfo (register_all rg)) <> [].
Proof.
  unfold register_all; cbn. intros Hne.
  assert (forall l si, registeredServers si <> [] ->
            registeredServers (foldl (fun si s => registerRelay (rs_name s) (rs_stamp s) si) si l) <> []) as Hr.
  { induction l as [|s l IH]; intros si Hsi; cbn; [done|]. by apply IH. }
  apply Hr. clear Hr. destruct (rg_registeredServers rg) as [|s l]; [done|]. cbn.
  assert (forall l si, registeredServers si <> [] ->
            registeredServers (foldl (fun si s => registerServer (rs_name s) (rs_stamp s) si) si l) <> []) as Hs.
  { clear. induction l as [|s l IH]; intros si Hsi; cbn; [done|]. apply IH, register_nonempty. }
  apply Hs, register_nonempty.
Qed.

Lemma configureLoadBalancing_registered lower config si :
  registeredServers (configureLoadBalancing lower config si) = registeredServers si /\
  registeredRelays (configureLoadBalancing lower config si) = registeredRelays si.
Proof. unfold configureLoadBalancing. by destruct (if bool_decide (ToLower _ _ = []) then _ else _) as [strategy window]. Qed.

Lemma configureLoadBalancing_inner lower config si : inner (configureLoadBalancing lower config si) = inner si.
Proof. unfold configureLoadBalancing. by destruct (if bool_decide (ToLower _ _ = []) then _ else _) as [strategy window]. Qed.

Section config.
Context {S : Type} `{HE : !HttpEnv S} `{TE : TlsEnv}.
Context (unicode_lower : bytes -> bytes) (unicode_equal_fold : bytes -> bytes -> bool).
Context (parse_hostname : bytes -> option bytes) (proxy_usable : bytes -> bool) (can_open_log : bytes -> bool).
Context (io_fails : nat -> bool) (verify : bytes -> bytes -> bytes -> bool).
Context (parseURL : bytes -> option URL) (valid_key : bytes -> bool).
Context (shuffle : list bytes -> list bytes) (parse_stamp : bytes -> option ServerStamp) (stamp_String : ServerStamp -> bytes).
Context (range : nat -> forall A, gmap bytes A -> list (bytes * A)).
Context (resolves : bytes -> bytes -> bool) (can_open : handle -> bool) (fresh : gmap Z handle -> Z) (attempts : nat -> attempt).
Context (read_map : bytes -> option bytes).
Context (systemd_files : list handle).

Local Notation load := (ConfigLoad unicode_lower unicode_equal_fold parse_hostname proxy_usable can_open_log io_fails verify
  parseURL valid_key shuffle parse_stamp stamp_String range resolves can_open fresh attempts read_map systemd_files).

Lemma loadSources_nonempty config r si (w : SWorld S) sources rg w' :
  loadSources io_fails verify parseURL valid_key shuffle parse_stamp stamp_String unicode_equal_fold range config r si w =
    (Ok (sources, rg), w') ->
  rg_registeredServers rg <> [] -> registeredServers (rg_serversInfo rg) <> [].
Proof.
  unfold loadSources. destruct (load_each _ _ _ _ _ _ w) as [[srcs|e] w1]; [|done].
  destruct (static_servers _ _ _) as [servers|e]; [|done]. unfold updateRegisteredServers.
  destruct (select_sources _ _ _ _ _ _) as [[u|e] rg1]; [|done]. intros [= <- <- <-] Hne.
  by apply register_all_nonempty.
Qed.

(** The options of the transport that are in the configuration. *)
Definition transport_options (config : Config) : TransportOptions :=
  {| tlsDisableSessionTickets := c_TLSDisableSessionTickets config; tlsPreferRSA := c_TLSPreferRSA config;
     http3 := c_HTTP3 config; keepAlive := int64 (c_KeepAlive config * Second);
     keyLogFile := if bool_decide (c_TLSKeyLogFile config = []) then None else Some (c_TLSKeyLogFile config) |}.

(** The steps of [ConfigLoad] when it succeeds. *)
Record loaded (flags : ConfigFlags) (undecoded : list bytes) (config : Config) (si : ServersInfo) (px : Proxy) : Prop := {
  ld_keys : undecoded = [];
  ld_resolvers : check_resolvers (bootstrap_resolvers config) = Ok tt;
  ld_params : px_params px = (configureServerParams config).1;
  ld_creds : configureDoHClientAuth config = Ok (px_tlsClientCreds px);
  ld_plugins : configurePlugins config = Ok (px_plugins px);
  ld_subnets : configureEDNSClientSubnet (c_EDNSClientSubnet config) = Ok (px_ednsClientSubnets px);
  ld_queryLog : configureQueryLog unicode_lower config = Ok (px_queryLog px);
  ld_nxLog : configureNXLog unicode_lower config = Ok (px_nxLog px);
  ld_blockName : configureBlockedNames unicode_lower config = Ok (px_blockName px);
  ld_allowName : configureAllowedNames unicode_lower config = Ok (px_allowName px);
  ld_blockIP : configureBlockedIPs unicode_lower config = Ok (px_blockIP px);
  ld_allowIP : configureAllowedIPs unicode_lower config = Ok (px_allowIP px);
  ld_weekly : configureWeeklyRanges config = Ok (px_allWeeklyRanges px);
  ld_ipCrypt : configureIPEncryption unicode_lower config = Ok (px_ipCryptConfig px);
  ld_user : c_UserName config = [] \/ fl_Child flags = true;
  ld_flags : fl_List flags = false /\ fl_ListAll flags = false /\ fl_Check flags = false;
  ld_servers : c_OfflineMode config = false ->
    rg_registeredServers (px_registry px) <> [] /\
    exists ws ws', loadSources io_fails verify parseURL valid_key shuffle parse_stamp stamp_String unicode_equal_fold range config
      (configureSourceRestrictions flags config) (configureLoadBalancing unicode_lower config si) ws =
      (Ok (px_sources px, px_registry px), ws');
  ld_options : px_transport px = transport_options config;
  ld_clients : exists x, configured_clients x (px_transport px) (px_tlsClientCreds px) = Some (px_clients px);
  ld_portals : match px_captivePortalMap px with
               | None => True
               | Some m =>
                   default (c_NetprobeTimeout config) (fl_NetprobeTimeoutOverride flags) <> 0 /\
                   exists bin err, read_map (c_CaptivePortalsMapFile config) = Some bin /\
                     cold_lines 0 (Split (ReadTextFile bin) 10) None ∅ = Ok (err, m)
               end;
}.

Lemma on_sources_ok {A} (m : SWorld S -> result config_error A * SWorld S) (w : LWorld S) a w' : on_sources m w = (Ok a, w') ->
  exists s s', m s = (Ok a, s').
Proof. unfold on_sources. destruct (m (lw_sources w)) as [r s] eqn:E. intros [= -> <-]. eauto. Qed.

Lemma configureXTransport_resolvers config proto (w : LWorld S) o w' :
  on_transport (configureXTransport parse_hostname proxy_usable can_open_log config proto) w = (Ok o, w') ->
  check_resolvers (bootstrap_resolvers config) = Ok tt.
Proof.
  intros (s & s' & E)%on_sources_ok. revert E. unfold on_x, configureXTransport.
  destruct (check_resolvers _) as [[]|e]; [done|]. cbn. by intros [=].
Qed.

Lemma configureXTransport_options config proto (w : LWorld S) o w' :
  on_transport (configureXTransport parse_hostname proxy_usable can_open_log config proto) w = (Ok o, w') ->
  o = transport_options config.
Proof.
  intros (s & s' & E)%on_sources_ok. revert E. unfold on_x, configureXTransport.
  destruct (check_resolvers _) as [[]|e]; [|cbn; by intros [=]]. unfold xbind at 1. unfold modify at 1. unfold xbind at 1.
  destruct (http_proxy _ _ _) as [[hp|e] w1]; [|cbn; by intros [=]]. destruct (proxy_dialer _ _ _); [|cbn; by intros [=]].
  cbn. destruct (_ && _); cbn; by intros [= <- <-].
Qed.

Lemma ColdStart_map rs cl file addrs m : cs_map (ColdStart rs cl read_map file addrs None) = Some m ->
  exists bin err, read_map file = Some bin /\ cold_lines 0 (Split (ReadTextFile bin) 10) None ∅ = Ok (err, m).
Proof.
  unfold ColdStart. case_bool_decide; [done|]. destruct (read_map file) as [bin|]; [|done].
  destruct (cold_lines _ _ _ _) as [[err ipsMap]|e] eqn:E; [|done].
  destruct (add_cold_listeners _ _ _ _ _ _) as [[err' ok] h0]. intros [= <-]. eauto.
Qed.

Lemma initializeNetworking_portals commandMode flags config plugins (w : LWorld S) addrs m w' :
  initializeNetworking resolves can_open fresh attempts read_map systemd_files commandMode flags config plugins w = (Ok (addrs, Some m), w') ->
  default (c_NetprobeTimeout config) (fl_NetprobeTimeoutOverride flags) <> 0 /\
  exists bin err, read_map (c_CaptivePortalsMapFile config) = Some bin /\ cold_lines 0 (Split (ReadTextFile bin) 10) None ∅ = Ok (err, m).
Proof.
  unfold initializeNetworking. destruct commandMode; [done|].
  destruct (determineNetprobeAddress _ _ _) as [address timeout] eqn:Et. injection Et as _ <-.
  destruct (pb_wait _) as [n|]; [|done]. unfold lbind. destruct (on_process _ _) as [[u|e] w1]; [|done].
  destruct (addSystemDListeners _ _ _ _ _) as [[addrs' p]|]; [|done]. intros [= _ Hm _]. revert Hm.
  unfold NetProbe, NetProbe_with. destruct (_ || _) eqn:E0; [done|]. apply orb_false_iff in E0 as [_ E0%Z.eqb_neq]. cbn.
  intros Hm. split; [done|]. by eapply ColdStart_map.
Qed.

Lemma ConfigLoad_loaded flags env undecoded config si w px w' :
  load flags env undecoded config si w = (Ok px, w') -> loaded flags undecoded config si px.
Proof.
  intros H. unfold ConfigLoad in H. do 3 load_step H.
  destruct (configureServerParams config) as [params proto] eqn:Ep. do 17 load_step H.
  apply lret_ok in H as [[= <-] _]. constructor; cbn [px_params px_tlsClientCreds px_transport px_clients px_captivePortalMap px_plugins px_ednsClientSubnets px_queryLog px_nxLog
    px_blockName px_allowName px_blockIP px_allowIP px_allWeeklyRanges px_ipCryptConfig px_registry px_sources]; try done.
  - by destruct undecoded.
  - by eapply configureXTransport_resolvers.
  - by rewrite Ep.
  - match goal with H : (if (0 <? length (c_UserName config))%nat && _ then _ else _) = Ok _ |- _ => revert H end.
    destruct (c_UserName config); [by left|]. cbn. destruct (fl_Child flags); [by right|done].
  - match goal with H : (if fl_List flags || _ || _ then _ else _) = Ok _ |- _ => revert H end.
    by destruct (fl_List flags), (fl_ListAll flags), (fl_Check flags).
  - intros Hoff. match goal with H : (if c_OfflineMode config then _ else _) _ = _ |- _ => rename H into El end.
    rewrite Hoff in El. load_step El. apply lret_ok in El as [El _].
    match goal with H : on_sources _ _ = (Ok ?x, _) |- _ => apply on_sources_ok in H as (ws & ws' & Els); destruct x as [srcs rg] end.
    cbn [snd] in El. destruct (rg_registeredServers rg) eqn:Er; [done|]. injection El as <-. cbn [fst snd].
    split; [by rewrite Er|]. by exists ws, ws'.
  - by eapply configureXTransport_options.
  - match goal with H : (match configured_clients ?x ?o ?c with _ => _ end) = _ |- _ => revert H; destruct (configured_clients x o c) eqn:Ex end;
      [|done]. intros [= <- _]. by eexists.
  - match goal with H : initializeNetworking _ _ _ _ _ _ _ _ _ _ _ = (Ok ?x, _) |- _ => destruct x as [addrs [m|]]; [|done] end.
    by eapply initializeNetworking_portals.
Qed.

(** C15: only servers that the configuration allows are used.  When the configuration is loaded, and
    the proxy is not offline, it has a server; each of its servers, under its name and with
    its stamp, is a static server of the configuration, or comes from a list that is signed
    by a configured key and satisfies the restrictions: it is named in [server_names] or has
    the required properties, it is not disabled, and its address family and protocol are
    wanted.  Relays are static, or come from a list and are not disabled.  Lists are
    refreshed every 25 to 169 hours, and cached for a week at most. *)
Theorem configured_servers flags env undecoded config si w px w' :
  (forall i A (m : gmap bytes A), range i A m ≡ₚ map_to_list m) ->
  registeredServers si = [] -> registeredRelays si = [] -> c_OfflineMode config = false ->
  load flags env undecoded config si w = (Ok px, w') ->
  let info := rg_serversInfo (px_registry px) in
  registeredServers info <> [] /\ Forall (configured_source verify config) (px_sources px) /\
  every (server_ok shuffle parse_stamp unicode_equal_fold config (px_sources px)) (registeredServers info) /\
  every (relay_ok shuffle parse_stamp unicode_equal_fold config (px_sources px)) (registeredRelays info).
Proof.
  intros Hrange Hs Hr Hoff H%ConfigLoad_loaded. destruct (ld_servers _ _ _ _ _ H Hoff) as (Hne & ws & ws' & El).
  split; [by eapply loadSources_nonempty|]. destruct (ld_flags _ _ _ _ _ H) as (_ & Hall & _).
  destruct (configureLoadBalancing_registered unicode_lower config si) as [Es Er].
  rewrite Hs in Es. rewrite Hr in Er.
  by destruct (loadSources_spec _ _ _ _ _ _ _ _ _ Hrange _ _ _ _ _ _ _ Hall Es Er El) as (H1 & H2 & H3 & _).
Qed.

(** An IP address and a port; an IPv6 address is in brackets. *)
Definition ip_and_port (addr : bytes) : Prop :=
  exists host port ip, ExtractHostAndPort addr (-1) = (host, port) /\ xParseIP host = Some ip /\ 0 <= port <= 65535 /\
    (To4 ip = None -> HasPrefix host [91] = true /\ HasSuffix host [93] = true).

Lemma isIPAndPort_spec addr : isIPAndPort addr = None <-> ip_and_port addr.
Proof.
  unfold isIPAndPort, ip_and_port. destruct (ExtractHostAndPort addr (-1)) as [host port]. split.
  - destruct (xParseIP host) as [ip|] eqn:Ei; [|done]. destruct (port =? -1); [done|].
    destruct (negb (_ && _)) eqn:Ep; [done|]. bools. intros Hr. exists host, port, ip. split_and!; [done..|].
    intros E. rewrite E in Hr. destruct (negb _ || negb _) eqn:Eb; [done|]. by bools.
  - intros (h & p & ip & [= <- <-] & -> & Hp & Hb). destruct (Z.eqb_spec port (-1)); [lia|].
    replace (0 <=? port) with true by (symmetry; apply Z.leb_le; lia).
    replace (port <=? 65535) with true by (symmetry; apply Z.leb_le; lia). cbn [andb negb].
    destruct (To4 ip); [done|]. destruct Hb as [-> ->]; done.
Qed.

Lemma check_resolvers_spec l : check_resolvers l = Ok tt <-> Forall ip_and_port l.
Proof.
  induction l as [|a l IH]; cbn [check_resolvers]; [done|]. rewrite Forall_cons, <- IH, <- isIPAndPort_spec.
  destruct (isIPAndPort a); naive_solver.
Qed.

Definition known_format (f : bytes) : Prop := f = str "tsv" \/ f = str "ltsv".

Lemma log_format_spec format f : log_format unicode_lower format = Ok f -> known_format f.
Proof.
  unfold log_format. destruct (negb _ && negb _) eqn:E; [done|]. intros [= <-]. unfold known_format.
  apply andb_false_iff in E as [E|E]; bools; auto.
Qed.

(** The section in use is the one that has a file, and there is only one. *)
Definition list_from (l legacy r : ListConfig) : Prop :=
  known_format (lc_Format r) /\ ~ (lc_File l <> [] /\ lc_File legacy <> []) /\
  (lc_File r = lc_File l /\ lc_LogFile r = lc_LogFile l /\ lc_File legacy = [] \/
   lc_File r = lc_File legacy /\ lc_LogFile r = lc_LogFile legacy /\ lc_File l = []).

Lemma configure_list_spec l legacy r : configure_list unicode_lower l legacy = Ok r -> list_from l legacy r.
Proof.
  unfold configure_list. destruct (lc_File l) as [|c f] eqn:E1, (lc_File legacy) as [|c' f'] eqn:E2; cbn [length Nat.ltb Nat.leb andb];
    try done; (destruct (log_format _ _) as [format|] eqn:Ef; [|done]); cbn; intros [= <-]; apply log_format_spec in Ef;
    unfold list_from; cbn; rewrite ?E1, ?E2; naive_solver.
Qed.

(** Once the configuration is loaded, the TLS connections of the DoH and ODoH clients have the
    settings of the configuration: the certificates of the [root_ca] file are trusted, which must be readable,
    and nothing else than the roots of the system; the client certificate is presented, and no other; session
    tickets and the key log are as configured; with [tls_prefer_rsa], the version is at most TLS 1.2 and the cipher
    suites with RSA come first, whatever the processor.  If there is an HTTP/3 client, it has the same
    settings, and there is one exactly if the configuration asks for it. *)
Theorem loaded_tls flags env undecoded config si w px w' (Hload : load flags env undecoded config si w = (Ok px, w')) :
  exists h creds, client (px_clients px) = Some h /\
    h3_client (px_clients px) = (if c_HTTP3 config then Some (TLSClientConfig h) else None) /\
    configureDoHClientAuth config = Ok creds /\
    client_settings (transport_options config) (default no_creds creds) (TLSClientConfig h).
Proof.
  apply ConfigLoad_loaded in Hload. destruct (ld_clients _ _ _ _ _ Hload) as [x Hx]. rewrite (ld_options _ _ _ _ _ Hload) in Hx.
  destruct (configured_tls _ _ _ _ Hx) as (h & H1 & H2 & H3 & _). exists h, (px_tlsClientCreds px).
  split_and!; [done|done|by apply ld_creds in Hload|done].
Qed.

(** The captive portal map is only read while the proxy waits for the network: with a wait of zero,
    the setting has no effect. *)
Lemma portals_need_wait flags env undecoded config si w px w' : load flags env undecoded config si w = (Ok px, w') ->
  default (c_NetprobeTimeout config) (fl_NetprobeTimeoutOverride flags) = 0 -> px_captivePortalMap px = None.
Proof.
  intros H%ConfigLoad_loaded Ht. assert (Hp := ld_portals _ _ _ _ _ H). destruct (px_captivePortalMap px); [|done].
  destruct Hp as [Hp _]. by rewrite Ht in Hp.
Qed.
End config.

(** ** Example *)

Local Notation ex_range := (fun (_ : nat) (A : Type) (m : gmap bytes A) => map_to_list m).
Definition ex_list : bytes := str "# list" ++ [10] ++ str "## fast" ++ [10] ++ str "sdns://dnscrypt" ++ [10] ++
  str "## slow" ++ [10] ++ str "sdns://logged" ++ [10].
Definition ex_stamps (s : bytes) : option ServerStamp :=
  let stamp props := {| st_Proto := StampProtoTypeDNSCrypt; ServerAddrStr := str "192.0.2.1:443"; ProviderName := []; Path := [];
                        st_Props := props; st_ServerPk := []; st_Hashes := [] |} in
  if bool_decide (s = str "sdns://dnscrypt") then Some (stamp 7)
  else if bool_decide (s = str "sdns://logged") then Some (stamp 5)
  else if bool_decide (s = str "sdns://home") then Some (stamp 0) else None.
Definition ex_section : SourceConfig :=
  {| so_URL := str "https://example"; so_URLs := []; so_MinisignKeyStr := str "K"; so_CacheFile := str "list.md";
     so_FormatStr := []; so_RefreshDelay := 0; so_CacheTTL := 0; so_Prefix := [] |}.
Local Notation ex_config := (sample_config [] no_mds [] {[str "home" := {| sc_Stamp := str "sdns://home" |}]}
  {[str "public" := ex_section]}).
Definition ex_lworld : LWorld Z :=
  {| lw_sources := {| sx := ex_xworld false;
       disk := {[str "list.md" := {| f_content := ex_list; f_modTime := 10 |};
                 str "list.md.minisig" := {| f_content := str "K" ++ ex_list; f_modTime := 10 |}]}; ops := 0 |};
     lw_process := new_process ∅ |}.
Definition ex_flags : ConfigFlags :=
  {| fl_List := false; fl_ListAll := false; fl_IncludeRelays := false; fl_JSONOutput := false; fl_Check := false;
     fl_Child := false; fl_NetprobeTimeoutOverride := None; fl_ShowCerts := false |}.
Local Notation ex_load := (ConfigLoad (HE := ex_http) (TE := ex_tls) id (fun _ _ => false) (fun _ => None) (fun _ => true) (fun _ => true)
  (fun _ => false) ex_verify (fun _ => None) (fun _ => true) id ex_stamps ServerAddrStr ex_range (fun _ _ => true)
  (fun _ => true) (fun _ => 5) (fun _ => Connected) (fun _ => None) [] ex_flags false [] ex_config NewServersInfo ex_lworld).

(** The server that keeps logs is not used. *)
Lemma ex_load_ok : exists px w', ex_load = (Ok px, w') /\
  rs_name <$> registeredServers (rg_serversInfo (px_registry px)) = [str "home"; str "fast"].
Proof. eexists _, _. split; [vm_compute; reflexivity|vm_compute; reflexivity]. Qed.

Lemma configured_servers_witness : exists px w', ex_load = (Ok px, w') /\
  rs_name <$> registeredServers (rg_serversInfo (px_registry px)) = [str "home"; str "fast"] /\
  Forall (configured_source ex_verify ex_config) (px_sources px) /\
  every (server_ok id ex_stamps (fun _ _ => false) ex_config (px_sources px))
    (registeredServers (rg_serversInfo (px_registry px))).
Proof.
  destruct ex_load_ok as (px & w' & E & Hn). exists px, w'. split; [exact E|]. split; [exact Hn|].
  pose proof (fun H0 H1 H2 H3 => configured_servers _ _ _ _ _ _ _ _ _ _ _ _ _ _ _ _ _ _ _ _ _ _ _ _ _ _ _ H0 H1 H2 H3 E) as H.
  specialize (H (fun i A m => Permutation_refl _) eq_refl eq_refl eq_refl).
  exact (conj (proj1 (proj2 H)) (proj1 (proj2 (proj2 H)))).
Defined.

Lemma loaded_tls_witness : exists px w' h, ex_load = (Ok px, w') /\ client (px_clients px) = Some h /\
  RootCAs (TLSClientConfig h) = Some [[7]] /\ h3_client (px_clients px) = None.
Proof.
  destruct ex_load_ok as (px & w' & E & _).
  destruct (loaded_tls _ _ _ _ _ _ _ _ _ _ _ _ _ _ _ _ _ _ _ _ _ _ _ _ _ _ _ E) as (h & creds & H1 & H2 & H3 & H4).
  exists px, w', h. split_and!; [exact E|exact H1| |exact H2].
  injection H3 as <-. exact (cs_system_roots _ _ _ H4 eq_refl).
Defined.


(** ** Proxies *)

Lemma resolve_http_proxy_resolves {S} `{HE : !HttpEnv S} hostname (w : XWorld S) u w' :
  resolve_http_proxy hostname w = (u, w') -> resolves (Some hostname) (xt w) (xt w').
Proof.
  set (own := internalResolvers (xt w)). set (boot := bootstrapResolvers (xt w)).
  assert (does (S := S) (resolvers_are own boot) no_request (resolves (Some hostname)) (resolve_http_proxy hostname)) as H.
  { unfold resolve_http_proxy. steps; auto using resolve_does, saveCachedIPs_does. }
  intros E. by apply (H w u w').
Qed.

Lemma http_proxy_spec {S} `{HE : !HttpEnv S} parse_hostname config (w : XWorld S) b w' :
  http_proxy parse_hostname config w = (Ok b, w') ->
  (b = true <-> c_HTTPProxyURL config <> []) /\ exists host, resolves host (xt w) (xt w').
Proof.
  unfold http_proxy. case_bool_decide as E; [intros [= <- <-]; split; [done|]; exists None; reflexivity|].
  destruct (parse_hostname _) as [host|]; [|done]. unfold xbind.
  destruct (resolve_http_proxy host w) as [u w1] eqn:E1. intros [= <- <-]. split; [done|]. eexists.
  by eapply resolve_http_proxy_resolves.
Qed.

Lemma proxy_dialer_spec parse_hostname proxy_usable config d : proxy_dialer parse_hostname proxy_usable config = Ok d ->
  d = true <-> c_Proxy config <> [].
Proof.
  unfold proxy_dialer. case_bool_decide; [by intros [= <-]|]. destruct (parse_hostname _); [|done].
  destruct (proxy_usable _); [|done]. by intros [= <-].
Qed.

(** With a proxy, queries go through it and over TCP.  When the transport is configured: with a
    [proxy] setting, connections are made by its dialer and the protocol is TCP, whatever
    [force_tcp] says; with [http_proxy], HTTP requests go through it; and HTTP/3 is used only
    if it was asked for. *)
Theorem proxy_settings {S} `{HE : !HttpEnv S} parse_hostname proxy_usable can_open_log config (w : XWorld S) o w' :
  configureXTransport parse_hostname proxy_usable can_open_log config (configureServerParams config).2 w = (Ok o, w') ->
  h3Transport (xt w) = false -> xt_proxyDialer (xt w) = false -> httpProxyFunction (xt w) = false ->
  (c_Proxy config <> [] -> mainProto (xt w') = str "tcp") /\ (xt_proxyDialer (xt w') = true <-> c_Proxy config <> []) /\
  (httpProxyFunction (xt w') = true <-> c_HTTPProxyURL config <> []) /\ h3Transport (xt w') = c_HTTP3 config /\
  (c_ForceTCP config = true -> mainProto (xt w') = str "tcp") /\
  bootstrapResolvers (xt w') ≡ₚ bootstrap_resolvers config.
Proof.
  unfold configureXTransport. destruct (check_resolvers _) as [u|e]; [|done]. unfold xbind, modify at 1.
  intros H Hh Hp Hf. destruct (http_proxy _ _ _) as [[b|e] w2] eqn:E1; [|done].
  destruct (http_proxy_spec _ _ _ _ _ E1) as (Hb & host & Hr & _ & _ & _ & Hbr & _). injection Hr as R1 R2 R3 R4 R5 R6 R7 R8 R9 R10.
  cbn in R1, R3, R4, R8, Hbr.
  destruct (proxy_dialer _ _ _) as [d|e] eqn:E2; [|done]. apply proxy_dialer_spec in E2.
  assert (xt w' = set_proxies b d (c_HTTP3 config) (xt w2)) as ->.
  { revert H. cbn. by destruct (_ && _); intros [= _ <-]. }
  cbn. rewrite R1, R3, R4, R8, Hbr, Hh, Hp, Hf. cbn. split_and!; [|apply E2|apply Hb|done| |done].
  - intros Hc. by rewrite (proj2 E2 Hc).
  - intros ->. by destruct d.
Qed.

Definition ex_new_world : XWorld Z := {| xt := NewXTransport; xenv := 10; xlog := [] |}.
Lemma proxy_settings_witness :
  let config := sample_config [] no_mds [] ∅ ∅ in
  exists w', configureXTransport (fun _ => None) (fun _ => true) (fun _ => true) config (configureServerParams config).2 ex_new_world =
    (Ok {| tlsDisableSessionTickets := false; tlsPreferRSA := false; http3 := false; keepAlive := 5 * Second; keyLogFile := None |}, w') /\
    h3Transport (xt w') = false /\ bootstrapResolvers (xt w') ≡ₚ [DefaultBootstrapResolver].
Proof.
  cbv zeta. destruct (configureXTransport (fun _ => None) (fun _ => true) (fun _ => true) (sample_config [] no_mds [] ∅ ∅)
    (configureServerParams (sample_config [] no_mds [] ∅ ∅)).2 ex_new_world) as [r w'] eqn:E.
  assert (r = Ok {| tlsDisableSessionTickets := false; tlsPreferRSA := false; http3 := false; keepAlive := 5 * Second;
                    keyLogFile := None |}) as -> by (vm_compute in E; by injection E as <- _).
  exists w'. split; [reflexivity|]. destruct (proxy_settings _ _ _ _ _ _ _ E) as (_ & _ & _ & H & _ & Hb); [reflexivity..|].
  split; [exact H|exact Hb].
Defined.
