(* ===== verification/NetMon.v ===== *)
(** * Network changes (src/dnscrypt-proxy/netmon.go)

    The monitor compares fingerprints of the network interfaces once a minute.  When they
    change, the network epoch is increased, which makes the sessions of the servers
    unusable, and the client key is replaced.

    Fingerprints do not depend on the order in which interfaces and addresses are
    enumerated, and a change of network makes the keys and sessions of the former one
    unusable. *)

From stdpp Require Import sorting.
From S2P Require Import Prelude GoStrings NetIP NetIPProps Common Crypto CryptoProps Dns DnsUtils Metrics Plugins RuleLog RuleLogProps ServerTypes.

(** ** Masks and addresses of the net package *)

(** The ones of the mask, if they come first. *)
Fixpoint leading_ones (v : Z) (n : nat) : Z :=
  match n with
  | O => 0
  | S n' => if Z.testbit v (Z.of_nat n') then 1 + leading_ones v n' else 0
  end.
Fixpoint simpleMaskLength (mask : bytes) : option Z :=
  match mask with
  | [] => Some 0
  | v :: rest =>
      if v =? 255 then Z.add 8 <$> simpleMaskLength rest
      else
        let n := leading_ones v 8 in
        if (Z.land (Z.shiftl v n) 255 =? 0) && forallb (Z.eqb 0) rest then Some n else None
  end.

(** [IPMask.Size]. *)
Definition mask_Size (mask : bytes) : Z * Z :=
  match simpleMaskLength mask with Some ones => (ones, 8 * len mask) | None => (0, 0) end.

(** [IP.Mask]. *)
Definition ip_Mask (ip mask : bytes) : option bytes :=
  let mask := if (length mask =? 16)%nat && (length ip =? 4)%nat && forallb (Z.eqb 255) (take 12 mask) then drop 12 mask else mask in
  let ip := if (length mask =? 4)%nat && (length ip =? 16)%nat && HasPrefix ip v4_in_v6_prefix then drop 12 ip else ip in
  if negb (length ip =? length mask)%nat then None else Some (zip_with Z.land ip mask).

(** [IP.IsGlobalUnicast]. *)
Definition IsGlobalUnicast (ip : bytes) : bool :=
  match To4 ip with
  | Some (a :: b :: rest) =>
      negb (bool_decide (a :: b :: rest = [255; 255; 255; 255])) && negb (bool_decide (a :: b :: rest = [0; 0; 0; 0])) &&
      negb (a =? 127) && negb (Z.land a 240 =? 224) && negb ((a =? 169) && (b =? 254))
  | Some _ => false
  | None =>
      match ip with
      | a :: b :: _ =>
          (length ip =? 16)%nat && negb (bool_decide (ip = replicate 16 0)) && negb (bool_decide (ip = replicate 15 0 ++ [1])) &&
          negb (a =? 255) && negb ((a =? 254) && (Z.land b 192 =? 128))
      | _ => false
      end
  end.

(** ** Snapshots *)

(** An address with its mask; no address is the empty text. *)
Record IfaceAddr := { ia_IP : bytes; ia_Mask : bytes }.

Definition FlagUp : Z := 1.
Definition FlagLoopback : Z := 4.

Record networkInterfaceSnapshot := {
  if_Name : bytes; if_Index : Z; if_MTU : Z; if_Flags : Z; if_HardwareAddr : bytes; if_Addrs : list IfaceAddr;
}.

(** The kinds of addresses that the system reports. *)
Inductive net_addr :=
  | NilAddr
  | NetAddr (ip mask : bytes)
  | IPAddr (ip : bytes)
  | OtherAddr (text : bytes).

Definition CIDRMask (ones bits : Z) : bytes := (fun i => mask_byte ones i) <$> seq 0 (Z.to_nat (bits / 8)).

Definition snapshotNetworkAddress (addr : net_addr) : option IfaceAddr :=
  match addr with
  | NilAddr => None
  | NetAddr ip mask => Some {| ia_IP := ip; ia_Mask := mask |}
  | IPAddr ip =>
      let bits := if bool_decide (To4 ip <> None) then 32 else 128 in
      Some {| ia_IP := ip; ia_Mask := CIDRMask bits bits |}
  | OtherAddr text =>
      n ← ParseCIDR text; i ← IndexByte text 47; ip ← ParseIP (take i text);
      Some {| ia_IP := ip; ia_Mask := CIDRMask (net_ones n) (net_bits n) |}
  end.

(** An interface as the system reports it, with the addresses or an error. *)
Record Interface := {
  i_Name : bytes; i_Index : Z; i_MTU : Z; i_Flags : Z; i_HardwareAddr : bytes; i_Addrs : option (list net_addr);
}.

Fixpoint snapshotNetworkInterfaces (l : list Interface) : option (list networkInterfaceSnapshot) :=
  match l with
  | [] => Some []
  | iface :: l' =>
      addrs ← i_Addrs iface;
      rest ← snapshotNetworkInterfaces l';
      Some ({| if_Name := i_Name iface; if_Index := i_Index iface; if_MTU := i_MTU iface; if_Flags := i_Flags iface;
               if_HardwareAddr := i_HardwareAddr iface; if_Addrs := omap snapshotNetworkAddress addrs |} :: rest)
  end.

(** ** Fingerprints *)

(** The order of [sort.Strings]. *)
Fixpoint bytes_leb (a b : bytes) : bool :=
  match a, b with
  | [], _ => true
  | _ :: _, [] => false
  | x :: a', y :: b' => (x <? y) || ((x =? y) && bytes_leb a' b')
  end.
Definition bytes_le (a b : bytes) : Prop := bytes_leb a b = true.
#[global] Instance bytes_le_dec : RelDecision bytes_le := fun a b => decide (bytes_leb a b = true).
Definition sort_Strings (l : list bytes) : list bytes := merge_sort bytes_le l.

Definition Itoa (n : Z) : bytes := if n <? 0 then 45 :: itoa (- n) else itoa n.

(** The text of an address that counts. *)
Definition address_text (addr : IfaceAddr) : option bytes :=
  let ip := ia_IP addr in
  if bool_decide (ip = []) || negb (IsGlobalUnicast ip) then None
  else
    let ip := if bool_decide (To4 ip = None) then default ip (ip_Mask ip (ia_Mask addr)) else ip in
    let '(prefixLength, bits) := mask_Size (ia_Mask addr) in
    let mask := if bits =? 0 then str "/mask=" ++ hex_EncodeToString (ia_Mask addr) else str "/" ++ Itoa prefixLength in
    Some (ip_String ip ++ mask).

Fixpoint unseen (l : list bytes) (seen : gset bytes) : list bytes :=
  match l with
  | [] => []
  | a :: l' => if bool_decide (a ∈ seen) then unseen l' seen else a :: unseen l' ({[a]} ∪ seen)
  end.

Definition counted (iface : networkInterfaceSnapshot) : bool :=
  (Z.land (if_Flags iface) FlagLoopback =? 0) && negb (Z.land (if_Flags iface) FlagUp =? 0).

Definition interface_part (iface : networkInterfaceSnapshot) : bytes :=
  str "name=" ++ if_Name iface ++ str "|index=" ++ Itoa (if_Index iface) ++
  str "|addrs=" ++ Join (sort_Strings (unseen (omap address_text (if_Addrs iface)) ∅)) (str ",").

Definition parts (interfaces : list networkInterfaceSnapshot) : list bytes :=
  interface_part <$> filter (fun iface => counted iface = true) interfaces.

Section monitor.
Context `{P : Primitives}.

Definition hashNetworkFingerprint (l : list bytes) : bytes :=
  hex_EncodeToString (sha256_Sum256 (sort_Strings l ≫= fun part => part ++ [0])).
Definition buildNetworkInterfaceFingerprint (interfaces : list networkInterfaceSnapshot) : bytes :=
  hashNetworkFingerprint (parts interfaces).

(** ** The monitor *)

Record networkMonitor := { epochValue : Z; sampling : bool; initialized : bool; lastInterfaces : bytes }.

Definition newNetworkMonitor : networkMonitor :=
  {| epochValue := 0; sampling := false; initialized := false; lastInterfaces := [] |}.

(** The new state, and whether [onChange] is called. *)
Definition sample (interfaces : option (list networkInterfaceSnapshot)) (notify : bool) (m : networkMonitor) : networkMonitor * bool :=
  match interfaces with
  | None => (m, false)
  | Some interfaces =>
      let fingerprint := buildNetworkInterfaceFingerprint interfaces in
      let changed := negb (bool_decide (lastInterfaces m = [])) && negb (bool_decide (lastInterfaces m = fingerprint)) in
      let m := {| epochValue := if changed && notify then uint64 (epochValue m + 1) else epochValue m;
                  sampling := sampling m; initialized := initialized m; lastInterfaces := fingerprint |} in
      (m, changed && notify)
  end.

Definition set_initialized (m : networkMonitor) : networkMonitor :=
  {| epochValue := epochValue m; sampling := sampling m; initialized := true; lastInterfaces := lastInterfaces m |}.

(** A call that finds another one sampling does nothing; the flag is as before at the end. *)
Definition init (interfaces : option (list networkInterfaceSnapshot)) (m : networkMonitor) : networkMonitor :=
  if sampling m || initialized m then m else (sample interfaces false (set_initialized m)).1.

Definition check (interfaces : option (list networkInterfaceSnapshot)) (m : networkMonitor) : networkMonitor * bool :=
  if sampling m then (m, false)
  else if negb (initialized m) then sample interfaces false (set_initialized m)
  else sample interfaces true m.

(** ** The proxy *)

Record NetProxy := { np_monitor : networkMonitor; np_key : ClientKey; np_servers : list CryptoServer }.

(** [handleNetworkChange]: [secretKey] is what the random source delivers. *)
Definition handleNetworkChange (ephemeralKeys : bool) (secretKey : option bytes) (rnd : nat -> bytes) (p : NetProxy) : NetProxy :=
  if ephemeralKeys then p
  else match rotateDNSCryptClientKey secretKey rnd (np_key p) (np_servers p) with
       | Ok (key, servers) => {| np_monitor := np_monitor p; np_key := key; np_servers := servers |}
       | Err _ => p
       end.

(** A tick of the monitor. *)
Definition tick (ephemeralKeys : bool) (interfaces : option (list networkInterfaceSnapshot)) (secretKey : option bytes) (rnd : nat -> bytes)
    (p : NetProxy) : NetProxy :=
  let '(m, changed) := check interfaces (np_monitor p) in
  let p := {| np_monitor := m; np_key := np_key p; np_servers := np_servers p |} in
  if changed then handleNetworkChange ephemeralKeys secretKey rnd p else p.

Definition networkEpoch (p : NetProxy) : Z := epochValue (np_monitor p).
End monitor.

(** ** Properties *)

(** ** Sorting of texts *)

#[global] Instance bytes_le_total : Total bytes_le.
Proof.
  unfold Total, bytes_le. intros a. induction a as [|x a IH]; intros [|y b]; cbn; auto.
  destruct (Z.ltb_spec x y), (Z.ltb_spec y x), (Z.eqb_spec x y), (Z.eqb_spec y x); cbn; auto; lia.
Qed.
#[global] Instance bytes_le_trans : Transitive bytes_le.
Proof.
  unfold Transitive, bytes_le. intros a. induction a as [|x a IH]; intros [|y b] [|z c]; cbn; auto; try done.
  destruct (Z.ltb_spec x y), (Z.ltb_spec y z), (Z.eqb_spec x y), (Z.eqb_spec y z), (Z.ltb_spec x z), (Z.eqb_spec x z);
    cbn; try done; try lia. apply IH.
Qed.
#[global] Instance bytes_le_antisymm : AntiSymm (=) bytes_le.
Proof.
  unfold AntiSymm, bytes_le. intros a. induction a as [|x a IH]; intros [|y b]; cbn; auto; try done.
  destruct (Z.ltb_spec x y), (Z.ltb_spec y x), (Z.eqb_spec x y), (Z.eqb_spec y x); cbn; try done; try lia.
  intros H1 H2. f_equal; [done|by apply IH].
Qed.

Lemma sort_Strings_perm l : sort_Strings l ≡ₚ l.
Proof. apply merge_sort_Permutation. Qed.

Lemma sort_Strings_unique l l' : l ≡ₚ l' <-> sort_Strings l = sort_Strings l'.
Proof.
  split.
  - intros H. apply (Sorted_unique bytes_le); [apply Sorted_merge_sort, _..|]. by rewrite !sort_Strings_perm.
  - intros H. by rewrite <- (sort_Strings_perm l), H, sort_Strings_perm.
Qed.

(** ** Fingerprints *)

Lemma unseen_spec l seen : NoDup (unseen l seen) /\ forall a, a ∈ unseen l seen <-> a ∈ l /\ a ∉ seen.
Proof.
  revert seen. induction l as [|x l IH]; intros seen; cbn [unseen].
  - split; [constructor|]. set_solver.
  - case_bool_decide as Hx; [destruct (IH seen) as [H1 H2]; split; [done|]; set_solver|].
    destruct (IH ({[x]} ∪ seen)) as [H1 H2]. split.
    + constructor; [|done]. rewrite H2. set_solver.
    + intros a. rewrite elem_of_cons, H2. destruct (decide (a = x)); set_solver.
Qed.

(** What counts of an address: the IPv4 address or the IPv6 prefix, on 16 bytes, and the length of
    the mask, or the mask itself if it has none.  Addresses that are not global do not count. *)
Definition place : Type := bytes * (Z + bytes).
Definition place_of (addr : IfaceAddr) : option place :=
  ip ← To16 (ia_IP addr);
  let mask := ia_Mask addr in
  if IsGlobalUnicast (ia_IP addr) then
    Some (if bool_decide (To4 ip = None) && (length mask =? 16)%nat then zip_with Z.land ip mask else ip,
          match simpleMaskLength mask, mask with Some ones, _ :: _ => inl ones | _, _ => inr mask end)
  else None.

(** The interfaces that count: those that are up, the loopback excepted, with the sets of
    their addresses. *)
Definition network (interfaces : list networkInterfaceSnapshot) : list (bytes * Z * gset place) :=
  (fun iface => (if_Name iface, if_Index iface, list_to_set (omap place_of (if_Addrs iface)))) <$>
  filter (fun iface => Z.testbit (if_Flags iface) 0 = true /\ Z.testbit (if_Flags iface) 2 = false) interfaces.

(** *** Texts *)

(** Texts are cut at the first, or at the last, occurrence of a byte. *)
Lemma cut_first (c : Z) (p q r s : bytes) : c ∉ p -> c ∉ q -> p ++ c :: r = q ++ c :: s -> p = q /\ r = s.
Proof.
  revert q. induction p as [|x p IH]; intros [|y q] Hp Hq; cbn; [by intros [= ->]| | |].
  - intros [= <- _]. set_solver.
  - intros [= -> _]. set_solver.
  - intros [= <- H]. destruct (IH q) as [-> ->]; [set_solver..|done|done].
Qed.

Lemma cut_last (c : Z) (p q r s : bytes) : c ∉ r -> c ∉ s -> p ++ c :: r = q ++ c :: s -> p = q /\ r = s.
Proof.
  intros Hr Hs H. apply (f_equal reverse) in H. rewrite !reverse_app, !reverse_cons, <-!app_assoc in H.
  apply cut_first in H as [H1 H2]; [|by rewrite elem_of_reverse..]. by apply (inj reverse) in H1, H2.
Qed.

Lemma not_in_chars (Q : Z -> Prop) (c : Z) (s : bytes) : Forall Q s -> ~ Q c -> c ∉ s.
Proof. rewrite Forall_forall. intros H Hc Hin. by apply Hc, H. Qed.

Lemma itoa_fuel_value fuel n acc : 0 <= n < 10 ^ Z.of_nat fuel ->
  exists ds, itoa_fuel fuel n acc = ds ++ acc /\ digits_value ds = n /\ (fuel <> O -> ds <> []).
Proof.
  revert n acc. induction fuel as [|fuel IH]; intros n acc Hn; cbn [itoa_fuel].
  { exists []. split_and!; [done| |done]. change (10 ^ Z.of_nat 0) with 1 in Hn. cbn. lia. }
  destruct (Z.ltb_spec n 10).
  - exists [48 + n mod 10]. split_and!; [done| |done]. rewrite Z.mod_small by lia. cbn. lia.
  - rewrite Nat2Z.inj_succ, Z.pow_succ_r in Hn by lia.
    destruct (IH (n / 10) (48 + n mod 10 :: acc)) as (ds & -> & Hv & _); [Z.to_euclidean_division_equations; lia|].
    exists (ds ++ [48 + n mod 10]). rewrite <-app_assoc, digits_value_app, Hv. split_and!; [done| |].
    + Z.to_euclidean_division_equations; lia.
    + intros _. by destruct ds.
Qed.

Lemma itoa_value n : 0 <= n < 2 ^ 63 -> digits_value (itoa n) = n /\ itoa n <> [].
Proof.
  intros Hn. destruct (itoa_fuel_value 20 n []) as (ds & E & Hv & Hne); [change (10 ^ Z.of_nat 20) with 100000000000000000000; lia|].
  unfold itoa. rewrite E, app_nil_r. auto.
Qed.

Lemma Itoa_nonneg n : 0 <= n -> Itoa n = itoa n.
Proof. intros Hn. unfold Itoa. by rewrite (proj2 (Z.ltb_ge n 0)). Qed.

Lemma Itoa_inj n m : 0 <= n < 2 ^ 63 -> 0 <= m < 2 ^ 63 -> Itoa n = Itoa m -> n = m.
Proof.
  intros Hn Hm. rewrite !Itoa_nonneg by lia. intros E. apply (f_equal digits_value) in E.
  by rewrite (proj1 (itoa_value n Hn)), (proj1 (itoa_value m Hm)) in E.
Qed.

Lemma hex_chars (s : bytes) : are_bytes s -> Forall ip_char (hex_EncodeToString s).
Proof.
  unfold hex_EncodeToString. induction 1 as [|b bs Hb _ IH]; csimpl; [constructor|].
  change (Z.land b 15) with (Z.land b (Z.ones 4)).
  rewrite Z.shiftr_div_pow2, (Z.land_ones b 4) by lia. change (2 ^ 4) with 16. unfold is_byte in Hb.
  pose proof (hex_digit_char (b / 16) ltac:(Z.to_euclidean_division_equations; lia)) as H1.
  pose proof (hex_digit_char (b mod 16) ltac:(Z.to_euclidean_division_equations; lia)) as H2.
  constructor; [unfold ip_char; lia|]. constructor; [unfold ip_char; lia|done].
Qed.

Definition place_text (p : place) : bytes :=
  ip_String p.1 ++ str "/" ++ match p.2 with inl n => Itoa n | inr mask => str "mask=" ++ hex_EncodeToString mask end.

(** A global address has 16 bytes in its long form, which is written in the same way. *)
Lemma global_To16 ip : IsGlobalUnicast ip = true ->
  exists ip16, To16 ip = Some ip16 /\ ip_String ip16 = ip_String ip /\ To4 ip16 = To4 ip /\
    (To4 ip = None -> ip16 = ip /\ length ip = 16%nat).
Proof.
  unfold IsGlobalUnicast, ip_String, To16. destruct (To4 ip) as [v4|] eqn:E4.
  - intros _. unfold To4 in E4. destruct (length ip =? 4)%nat eqn:El.
    + injection E4 as <-. exists (v4_in_v6_prefix ++ ip). apply Nat.eqb_eq in El.
      destruct ip as [|a [|b [|c [|d [|]]]]]; try discriminate. by split_and!.
    + destruct (length ip =? 16)%nat eqn:E16; [|done]. exists ip. unfold To4. rewrite El, E16. by rewrite E4.
  - destruct ip as [|a [|b rest]] eqn:Ei; try done. rewrite <-Ei in *. rewrite !andb_true_iff. intros [[[[El _] _] _] _].
    exists ip. pose proof El as El'. apply Nat.eqb_eq in El'. rewrite El, E4.
    rewrite (proj2 (Nat.eqb_neq (length ip) 4)) by lia. by split_and!.
Qed.

(** The mask of an IPv6 address. *)
Lemma ip_Mask_v6 ip mask : To4 ip = None -> length ip = 16%nat ->
  default ip (ip_Mask ip mask) = if (length mask =? 16)%nat then zip_with Z.land ip mask else ip.
Proof.
  intros H4 Hl. unfold To4 in H4. unfold ip_Mask. rewrite Hl in *.
  destruct (HasPrefix ip v4_in_v6_prefix); [done|]. cbn [Nat.eqb]. rewrite !andb_false_r. cbn [andb].
  rewrite Hl, (Nat.eqb_sym 16). by destruct (length mask =? 16)%nat.
Qed.

Lemma address_text_place addr : address_text addr = place_text <$> place_of addr.
Proof.
  unfold address_text, place_of, place_text. set (ip := ia_IP addr). set (mask := ia_Mask addr).
  destruct (IsGlobalUnicast ip) eqn:Eg; cbn [negb]; [|rewrite orb_true_r; by destruct (To16 ip)]. rewrite orb_false_r.
  destruct (global_To16 ip Eg) as (ip16 & E16 & Es & E4 & E6). rewrite E16. cbn [mbind option_bind]. rewrite E4.
  assert (ip <> []) as Hne by (intros Hn; by rewrite Hn in E16). rewrite (bool_decide_false (ip = [])) by done.
  assert (forall t, (let '(prefixLength, bits) := mask_Size mask in
      Some (t ++ if bits =? 0 then str "/mask=" ++ hex_EncodeToString mask else str "/" ++ Itoa prefixLength)) =
    Some (t ++ str "/" ++ match match simpleMaskLength mask, mask with Some ones, _ :: _ => inl ones | _, _ => inr mask end with
      | inl n => Itoa n | inr m => str "mask=" ++ hex_EncodeToString m end)) as Hmask.
  { intros t. unfold mask_Size. destruct (simpleMaskLength mask) as [ones|]; [|done].
    destruct mask as [|x m]; [done|]. by rewrite (proj2 (Z.eqb_neq _ 0)) by (rewrite len_cons; pose proof (len_nonneg m); lia). }
  case_bool_decide as H4; cbn [andb fmap option_fmap option_map fst snd].
  - destruct (E6 H4) as [-> Hl]. rewrite ip_Mask_v6 by done. apply Hmask.
  - rewrite Es. apply Hmask.
Qed.

Definition place_wf (p : place) : Prop :=
  are_bytes p.1 /\ length p.1 = 16%nat /\ match p.2 with inl n => 0 <= n < 2 ^ 63 | inr mask => are_bytes mask end.

Definition place_char (c : Z) : Prop := 45 <= c <= 122 /\ c <> 124.

Lemma place_text_chars p : place_wf p -> Forall place_char (place_text p).
Proof.
  intros (H1 & H2 & H3). unfold place_text. assert (forall c, ip_char c -> place_char c) as Hc.
  { unfold ip_char, place_char. lia. }
  apply Forall_app_2; [by eapply Forall_impl; [by apply ip_String_chars|]|].
  apply Forall_app_2; [by repeat constructor|]. destruct p.2 as [n|mask].
  - rewrite Itoa_nonneg by lia. eapply Forall_impl; [apply itoa_digits|]. unfold place_char. cbn. lia.
  - apply Forall_app_2; [by repeat constructor|]. by eapply Forall_impl; [by apply hex_chars|].
Qed.

Lemma place_text_inj p q : place_wf p -> place_wf q -> place_text p = place_text q -> p = q.
Proof.
  destruct p as [ip m], q as [ip' m']. intros (H1 & H2 & H3) (G1 & G2 & G3) E. cbn in *. unfold place_text in E. cbn in E.
  apply cut_first in E as [E1 E2]; [|eapply not_in_chars; [by apply ip_String_chars|unfold ip_char; lia]..].
  apply (f_equal ParseIP) in E1. rewrite !ParseIP_ip_String in E1 by done. injection E1 as ->. f_equal.
  assert (forall n s, 0 <= n < 2 ^ 63 -> Itoa n = str "mask=" ++ s -> False) as Hno.
  { intros n s Hn En. rewrite Itoa_nonneg in En by lia. pose proof (itoa_digits n) as Hd. rewrite En in Hd.
    apply Forall_inv in Hd. change (48 <= 109 <= 57) in Hd. lia. }
  destruct m as [n|mask], m' as [n'|mask'].
  - f_equal. by apply Itoa_inj.
  - by destruct (Hno _ _ H3 E2).
  - by destruct (Hno n' (hex_EncodeToString mask)).
  - injection E2 as E2. apply (f_equal hex_DecodeString) in E2. rewrite !hex_decode_encode in E2 by done. by injection E2 as ->.
Qed.

(** Lists of texts, none empty, without commas. *)
Lemma Join_inj l l' : Forall (fun s => 44 ∉ s /\ s <> []) l -> Forall (fun s => 44 ∉ s /\ s <> []) l' ->
  Join l (str ",") = Join l' (str ",") -> l = l'.
Proof.
  intros Hl. revert l'.
  induction Hl as [|s l [Hs Hne] Hl IH]; intros l' Hl'; destruct Hl' as [|s' l' [Hs' Hne'] Hl'].
  - done.
  - cbn. destruct l'; intros H; [done|]. destruct s'; done.
  - cbn. destruct l; intros H; [done|]. destruct s; done.
  - destruct l as [|t l], l' as [|t' l']; cbn [Join]; intros E.
    + by rewrite E.
    + destruct Hs. rewrite E. set_solver.
    + destruct Hs'. rewrite <-E. set_solver.
    + apply cut_first in E as [-> E]; [|done..]. f_equal. by apply IH.
Qed.

(** *** Descriptions *)

(** The text of an interface is a function of what counts. *)
Definition render (d : bytes * Z * gset place) : bytes :=
  str "name=" ++ d.1.1 ++ str "|index=" ++ Itoa d.1.2 ++
  str "|addrs=" ++ Join (sort_Strings (elements (set_map (D := gset bytes) place_text d.2))) (str ",").

Lemma counted_flags iface : counted iface = true <->
  Z.testbit (if_Flags iface) 0 = true /\ Z.testbit (if_Flags iface) 2 = false.
Proof.
  unfold counted, FlagUp, FlagLoopback. generalize (if_Flags iface). intros f.
  rewrite andb_true_iff, negb_true_iff, Z.eqb_eq, Z.eqb_neq.
  assert (forall n, 0 <= n -> Z.land f (2 ^ n) = 0 <-> Z.testbit f n = false) as H.
  { intros n Hn. split.
    - intros E. apply (f_equal (fun z => Z.testbit z n)) in E. by rewrite Z.land_spec, Z.pow2_bits_true, andb_true_r, Z.bits_0 in E.
    - intros E. apply Z.bits_inj'. intros k Hk. rewrite Z.land_spec, Z.pow2_bits_eqb, Z.bits_0 by done.
      destruct (Z.eqb_spec n k) as [<-|]; [by rewrite E|apply andb_false_r]. }
  pose proof (H 0 ltac:(lia)) as H0. pose proof (H 2 ltac:(lia)) as H2. change (2 ^ 0) with 1 in H0. change (2 ^ 2) with 4 in H2.
  rewrite H0, H2. destruct (Z.testbit f 0), (Z.testbit f 2); naive_solver.
Qed.

Lemma parts_network l : parts l = render <$> network l.
Proof.
  unfold parts, network. rewrite <- list_fmap_compose.
  rewrite (list_filter_iff _ (fun iface => Z.testbit (if_Flags iface) 0 = true /\ Z.testbit (if_Flags iface) 2 = false))
    by apply counted_flags.
  apply list_fmap_ext. intros _ iface _. unfold interface_part, render.
  cbn [fst snd compose]. enough (sort_Strings (unseen (omap address_text (if_Addrs iface)) ∅) =
    sort_Strings (elements (set_map (C := gset place) (D := gset bytes) place_text
      (list_to_set (omap place_of (if_Addrs iface)))))) as -> by done.
  apply sort_Strings_unique, NoDup_Permutation; [apply unseen_spec|apply NoDup_elements|].
  intros a. rewrite (proj2 (unseen_spec _ _)), elem_of_elements, elem_of_map.
  setoid_rewrite elem_of_list_to_set. rewrite list_elem_of_omap. setoid_rewrite list_elem_of_omap. setoid_rewrite address_text_place.
  split.
  - intros [(addr & Hin & Ha) _]. destruct (place_of addr) as [p|] eqn:Ep; [|done]. injection Ha as <-. eauto.
  - intros (p & -> & addr & Hin & Hp). split; [|set_solver]. exists addr. by rewrite Hp.
Qed.

(** A snapshot as the system makes it: names have no zero byte, indices are not negative, and
    addresses and masks are bytes, of at most 16 for a mask. *)
Definition snapshot_wf (iface : networkInterfaceSnapshot) : Prop :=
  0 ∉ if_Name iface /\ 0 <= if_Index iface < 2 ^ 63 /\
  Forall (fun a => are_bytes (ia_IP a) /\ are_bytes (ia_Mask a) /\ (length (ia_Mask a) <= 16)%nat) (if_Addrs iface).

Definition description_wf (d : bytes * Z * gset place) : Prop :=
  0 ∉ d.1.1 /\ 0 <= d.1.2 < 2 ^ 63 /\ forall p, p ∈ d.2 -> place_wf p.

Lemma leading_ones_range v n : 0 <= leading_ones v n <= Z.of_nat n.
Proof. induction n as [|n IH]; cbn [leading_ones]; [lia|]. destruct (Z.testbit _ _); lia. Qed.

Lemma simpleMaskLength_range mask n : simpleMaskLength mask = Some n -> 0 <= n <= 8 * Z.of_nat (length mask).
Proof.
  revert n. induction mask as [|v mask IH]; intros n; cbn [simpleMaskLength]; [intros [= <-]; lia|].
  destruct (v =? 255).
  - destruct (simpleMaskLength mask) as [m|]; [|done]. intros [= <-]. specialize (IH _ eq_refl). cbn [length]. lia.
  - destruct (_ && _); [|done]. intros <-%(inj Some). pose proof (leading_ones_range v 8). cbn [length]. lia.
Qed.

Lemma zip_land_bytes (a b : bytes) : are_bytes a -> are_bytes b -> are_bytes (zip_with Z.land a b).
Proof.
  intros Ha. revert b. induction Ha as [|x a Hx Ha IH]; intros b Hb; destruct Hb as [|y b Hy Hb]; cbn; constructor; [|by apply IH].
  unfold is_byte in *. assert (Z.land x y = Z.land (Z.land x y) (Z.ones 8)) as ->.
  { rewrite <-Z.land_assoc, (Z.land_ones y 8), (Z.mod_small y) by lia. done. }
  rewrite Z.land_ones by lia. apply Z.mod_pos_bound. lia.
Qed.

Lemma place_of_wf addr p : are_bytes (ia_IP addr) -> are_bytes (ia_Mask addr) -> (length (ia_Mask addr) <= 16)%nat ->
  place_of addr = Some p -> place_wf p.
Proof.
  intros Hip Hm Hl. unfold place_of. destruct (To16 (ia_IP addr)) as [ip|] eqn:E; [|done]. cbn.
  destruct (IsGlobalUnicast _); [|done]. intros [= <-]. destruct (To16_typed _ _ Hip E) as [H1 H2]. unfold place_wf. cbn.
  assert (match match simpleMaskLength (ia_Mask addr), ia_Mask addr with Some ones, _ :: _ => inl ones | _, _ => inr (ia_Mask addr) end with
    | inl n => 0 <= n < 2 ^ 63 | inr mask => are_bytes mask end) as Hsize.
  { destruct (simpleMaskLength (ia_Mask addr)) as [n|] eqn:En; [|done]. apply simpleMaskLength_range in En.
    destruct (ia_Mask addr); [done|]. lia. }
  split_and!; [| |done]; destruct (bool_decide _ && (length (ia_Mask addr) =? 16)%nat) eqn:Eb; try done.
  - by apply zip_land_bytes.
  - apply andb_true_iff in Eb as [_ Eb%Nat.eqb_eq]. rewrite length_zip_with. lia.
Qed.

Lemma network_wf l : Forall snapshot_wf l -> Forall description_wf (network l).
Proof.
  rewrite !Forall_forall. intros Hl d (iface & -> & [_ Hin]%list_elem_of_filter)%list_elem_of_fmap.
  destruct (Hl _ Hin) as (H1 & H2 & H3). unfold description_wf. cbn [fst snd]. split; [done|]. split; [done|].
  intros p (addr & Ha & Hp)%elem_of_list_to_set%list_elem_of_omap. rewrite Forall_forall in H3.
  destruct (H3 _ Ha) as (G1 & G2 & G3). by eapply place_of_wf.
Qed.

Lemma place_texts_wf d : description_wf d ->
  Forall (fun s => Forall place_char s /\ s <> []) (sort_Strings (elements (set_map (D := gset bytes) place_text d.2))).
Proof.
  intros (_ & _ & H). rewrite sort_Strings_perm. apply Forall_forall. intros s (p & -> & Hp)%elem_of_elements%elem_of_map.
  split; [by apply place_text_chars, H|]. unfold place_text. destruct (ip_String p.1); done.
Qed.

Lemma Join_chars (Q : Z -> Prop) l : Q 44 -> Forall (fun s => Forall Q s /\ s <> []) l -> Forall Q (Join l (str ",")).
Proof.
  intros HQ Hl. induction Hl as [|s l [Hs _] Hl IH]; cbn [Join]; [constructor|].
  destruct l; [done|]. apply Forall_app_2; [done|]. by constructor.
Qed.

Lemma render_inj d d' : description_wf d -> description_wf d' -> render d = render d' -> d = d'.
Proof.
  intros Hd Hd'. pose proof (place_texts_wf _ Hd) as Ht. pose proof (place_texts_wf _ Hd') as Ht'.
  destruct d as [[name index] places], d' as [[name' index'] places']. cbn [fst snd] in *. unfold render. cbn [fst snd]. intros E.
  destruct Hd as (_ & Hi & Hp), Hd' as (_ & Hi' & Hp'). cbn [fst snd] in *.
  set (l := sort_Strings _) in *. set (l' := sort_Strings (elements (set_map place_text places'))) in *.
  assert (forall k, Forall (fun s => Forall place_char s /\ s <> []) k -> 124 ∉ str "addrs=" ++ Join k (str ",")) as Hbar.
  { intros k Hk. apply (not_in_chars (fun c => c <> 124)); [|lia]. apply Forall_app_2; [by repeat constructor|].
    apply Join_chars; [done|]. eapply Forall_impl; [exact Hk|]. intros s [Hs ?]. split; [|done].
    eapply Forall_impl; [exact Hs|]. by intros c [_ ?]. }
  assert (forall n, 0 <= n -> 124 ∉ str "index=" ++ Itoa n) as Hbar2.
  { intros n Hn. apply (not_in_chars (fun c => c <> 124)); [|lia]. apply Forall_app_2; [by repeat constructor|].
    rewrite Itoa_nonneg by done. eapply Forall_impl; [apply itoa_digits|]. cbn. lia. }
  change (str "|index=") with (124 :: str "index=") in E. change (str "|addrs=") with (124 :: str "addrs=") in E.
  apply app_inv_head in E.
  assert ((name ++ 124 :: str "index=" ++ Itoa index) ++ 124 :: str "addrs=" ++ Join l (str ",") =
    (name' ++ 124 :: str "index=" ++ Itoa index') ++ 124 :: str "addrs=" ++ Join l' (str ",")) as E' by (by rewrite <-!app_assoc).
  apply cut_last in E' as [E1 E2]; [|by apply Hbar..]. apply cut_last in E1 as [-> E1]; [|by apply Hbar2; lia..].
  apply app_inv_head in E1, E2. apply Itoa_inj in E1 as ->; [|done..]. f_equal.
  assert (l = l') as El.
  { apply Join_inj in E2; [done|eapply Forall_impl; [eassumption|]..]; intros s [Hs ?]; (split; [|done]);
      (eapply not_in_chars; [exact Hs|unfold place_char; lia]). }
  apply sort_Strings_unique in El. apply set_eq.
  assert (forall A B : gset place, (forall p, p ∈ A -> place_wf p) -> (forall p, p ∈ B -> place_wf p) ->
    elements (set_map (D := gset bytes) place_text A) ⊆ elements (set_map (D := gset bytes) place_text B) -> A ⊆ B) as Hsub.
  { intros A B HA HB Hs p Hpa. assert (place_text p ∈ set_map (D := gset bytes) place_text B) as (q & Hq & Hqb)%elem_of_map.
    { apply elem_of_elements, Hs, elem_of_elements, elem_of_map. by exists p. }
    by apply place_text_inj in Hq as ->; auto. }
  intros p. split; apply Hsub; try done; intros x; by rewrite El.
Qed.

(** A permutation of the images is one of the elements, where the function is injective. *)
Lemma fmap_Permutation_inj {A B} (f : A -> B) (Q : A -> Prop) (l l' : list A) :
  (forall x y, Q x -> Q y -> f x = f y -> x = y) -> Forall Q l -> Forall Q l' -> f <$> l ≡ₚ f <$> l' -> l ≡ₚ l'.
Proof.
  intros Hinj Hl. revert l'. induction Hl as [|x l Hx Hl IH]; intros l' Hl' Hp.
  { symmetry in Hp. apply Permutation_nil_r in Hp. by apply fmap_nil_inv in Hp as ->. }
  assert (f x ∈ f <$> l') as (y & Hy & (l1 & l2 & ->)%list_elem_of_split)%list_elem_of_fmap by (rewrite <-Hp; by left).
  apply Forall_app in Hl' as [Hl1 [Hy' Hl2]%Forall_cons]. assert (y = x) as -> by (by apply Hinj).
  rewrite <-Permutation_middle. constructor. apply IH; [by apply Forall_app_2|].
  rewrite fmap_app, !fmap_cons, <-Permutation_middle in Hp. apply Permutation_cons_inv in Hp. by rewrite fmap_app.
Qed.

Lemma render_no_zero d : description_wf d -> 0 ∉ render d.
Proof.
  intros Hd. pose proof (place_texts_wf _ Hd) as Ht. destruct Hd as (Hn & Hi & _). unfold render.
  assert (forall s, Forall (fun c => c <> 0) s -> 0 ∉ s) as H by (intros s Hs; by apply (not_in_chars _ _ _ Hs); lia).
  rewrite !not_elem_of_app. split_and!; try done; apply H; try (by repeat constructor).
  - rewrite Itoa_nonneg by lia. eapply Forall_impl; [apply itoa_digits|]. cbn. lia.
  - apply Join_chars; [done|]. eapply Forall_impl; [exact Ht|]. intros s [Hs ?]. split; [|done].
    eapply Forall_impl; [exact Hs|]. unfold place_char. lia.
Qed.

Lemma zero_terminated_inj (l l' : list bytes) : Forall (fun p => 0 ∉ p) l -> Forall (fun p => 0 ∉ p) l' ->
  (l ≫= fun p => p ++ [0]) = (l' ≫= fun p => p ++ [0]) -> l = l'.
Proof.
  intros Hl. revert l'. induction Hl as [|p l Hp Hl IH]; intros l' Hl'; destruct Hl' as [|q l' Hq Hl']; cbn.
  - done.
  - by destruct q.
  - by destruct p.
  - rewrite <- !app_assoc. cbn. intros H. destruct (cut_first _ _ _ _ _ Hp Hq H) as [-> H2]. f_equal. by apply IH.
Qed.

Section monitor.
Context `{P : Primitives}.

(** The text that is hashed. *)
Definition hashed (interfaces : list networkInterfaceSnapshot) : bytes :=
  sort_Strings (parts interfaces) ≫= fun part => part ++ [0].

(** C25: the fingerprint identifies the network.  Two snapshots with the same interfaces that
    are up, the loopback excepted, the same indices, the same sets of global IPv4 addresses and of
    prefixes of global IPv6 addresses, and the same masks, have the same fingerprint, in whatever
    order they are listed and whatever else differs (inactive interfaces, MTU, hardware
    addresses, duplicated or local addresses).  Conversely, two snapshots with the same
    fingerprint have the same interfaces, indices, sets of addresses and masks, unless
    the texts that were hashed for these two are a collision of the hash. *)
Theorem fingerprint_network a b :
  (network a ≡ₚ network b -> buildNetworkInterfaceFingerprint a = buildNetworkInterfaceFingerprint b) /\
  (Forall snapshot_wf a -> Forall snapshot_wf b ->
   buildNetworkInterfaceFingerprint a = buildNetworkInterfaceFingerprint b ->
   network a ≡ₚ network b \/
   hashed a <> hashed b /\ hex_EncodeToString (sha256_Sum256 (hashed a)) = hex_EncodeToString (sha256_Sum256 (hashed b))).
Proof.
  unfold buildNetworkInterfaceFingerprint, hashNetworkFingerprint. fold (hashed a) (hashed b). split.
  - intros H. unfold hashed. rewrite !parts_network. do 3 f_equal. apply sort_Strings_unique. by rewrite H.
  - intros Ha%network_wf Hb%network_wf H. destruct (decide (hashed a = hashed b)) as [E|E]; [left|by right].
    assert (forall l, Forall description_wf (network l) -> Forall (fun p => 0 ∉ p) (sort_Strings (parts l))) as Hz.
    { intros l Hl. rewrite sort_Strings_perm, parts_network. apply Forall_fmap. eapply Forall_impl; [exact Hl|].
      intros d Hd. by apply render_no_zero. }
    apply zero_terminated_inj in E; [|by apply Hz..]. apply sort_Strings_unique in E. rewrite !parts_network in E.
    revert E. apply (fmap_Permutation_inj render description_wf); [apply render_inj|done|done].
Qed.

(** ** Changes *)

(** What the monitor takes for a change. *)
Definition network_changed (interfaces : option (list networkInterfaceSnapshot)) (m : networkMonitor) : Prop :=
  initialized m = true /\ sampling m = false /\ lastInterfaces m <> [] /\
  exists l, interfaces = Some l /\ buildNetworkInterfaceFingerprint l <> lastInterfaces m.

Lemma check_spec interfaces m m' changed : check interfaces m = (m', changed) ->
  (changed = true <-> network_changed interfaces m) /\
  epochValue m' = (if changed then uint64 (epochValue m + 1) else epochValue m).
Proof.
  unfold check, network_changed. destruct (sampling m); [intros [= <- <-]; split; [|done]; split; [done|]; by intros (_ & ? & _)|].
  destruct (initialized m); cbn [negb]; unfold sample.
  - destruct interfaces as [l|].
    + rewrite !andb_true_r. intros [= <- <-]. cbn [epochValue]. split; [|done].
      rewrite andb_true_iff, !negb_true_iff, !bool_decide_eq_false. split.
      * intros [H1 H2]. split_and!; [done..|]. exists l. split; [done|congruence].
      * intros (_ & _ & H1 & l' & [= <-] & H2). split; [done|congruence].
    + intros [= <- <-]. split; [|done]. split; [done|]. by intros (_ & _ & _ & l & ? & _).
  - destruct interfaces as [l|]; [rewrite !andb_false_r|]; intros [= <- <-]; (split; [|done]); (split; [done|]); by intros (? & _).
Qed.

(** C24: what was used in a network is not used in the next one.  When the monitor sees a change, the
    network epoch increases, so that no session ticket and no encapsulated key of this or
    of an earlier epoch is used any more; and the client key and the shared keys of the
    servers are computed from a new secret, unless keys are ephemeral or there is no
    randomness.  Otherwise nothing changes. *)
Theorem network_change ephemeral interfaces secretKey rnd p :
  0 <= networkEpoch p < 2 ^ 64 - 1 ->
  let p' := tick ephemeral interfaces secretKey rnd p in
  (network_changed interfaces (np_monitor p) ->
     networkEpoch p' = networkEpoch p + 1 /\
     (forall st now, epoch st <= networkEpoch p -> (get (Some st) now (networkEpoch p')).2 = None) /\
     (forall st, encapEpoch st <= networkEpoch p -> (getCachedEncapsulation (Some st) (networkEpoch p')).2 = None) /\
     (forall sk, ephemeral = false -> secretKey = Some sk ->
        np_key p' = setDNSCryptClientKeyLocked sk /\
        np_servers p' = imap (fun i => recomputeServerSharedKeyLocked (np_key p') (rnd i)) (np_servers p))) /\
  (~ network_changed interfaces (np_monitor p) ->
     networkEpoch p' = networkEpoch p /\ np_key p' = np_key p /\ np_servers p' = np_servers p).
Proof.
  intros He. unfold tick, networkEpoch in *. destruct (check interfaces (np_monitor p)) as [m changed] eqn:E.
  destruct (check_spec _ _ _ _ E) as [Hc Hm]. destruct changed; cbn in *; (split; [|intros Hn; try tauto; done]).
  - assert (epochValue m = epochValue (np_monitor p) + 1) as Hm' by (rewrite Hm; unfold uint64; apply Z.mod_small; lia).
    assert (epochValue (np_monitor (handleNetworkChange ephemeral secretKey rnd
      {| np_monitor := m; np_key := np_key p; np_servers := np_servers p |})) = epochValue m) as ->.
    { unfold handleNetworkChange. destruct ephemeral; [done|]. by destruct secretKey. }
    intros _. split_and!; [done| | |].
    + intros st now Hs. unfold get. destruct (ticket st); [|done]. destruct (now <? expiry st); [|done]. cbn.
      by destruct (Z.eqb_spec (epoch st) (epochValue m)); [lia|].
    + intros st Hs. unfold getCachedEncapsulation. destruct (encap st); [|done].
      by destruct (Z.eqb_spec (encapEpoch st) (epochValue m)); [lia|].
    + intros sk -> ->. done.
  - intros Hn. apply Hc in Hn. done.
Qed.
End monitor.

(** ** Examples *)

Definition ex_addr (s : string) : IfaceAddr := default {| ia_IP := []; ia_Mask := [] |} (snapshotNetworkAddress (OtherAddr (str s))).
Definition ex_iface (name : string) (index flags : Z) (addrs : list string) : networkInterfaceSnapshot :=
  {| if_Name := str name; if_Index := index; if_MTU := 1500; if_Flags := flags; if_HardwareAddr := []; if_Addrs := ex_addr <$> addrs |}.
Definition ex_home : list networkInterfaceSnapshot :=
  [ex_iface "lo" 1 5 ["127.0.0.1/8"]; ex_iface "eth0" 2 19 ["192.168.1.10/24"; "2001:db8:1::10/64"; "fe80::10/64"]; ex_iface "vpn0" 8 9 ["10.8.0.2/24"]].
Definition ex_home' : list networkInterfaceSnapshot :=
  [ex_iface "vpn0" 8 41 ["10.8.0.2/24"]; ex_iface "eth0" 2 19 ["2001:db8:1::20/64"; "2001:db8:1::30/64"; "192.168.1.10/24"]].
Definition ex_cafe : list networkInterfaceSnapshot := [ex_iface "eth0" 2 19 ["192.0.2.7/24"]].

(** Other addresses of the same prefix, in another order. *)
Lemma ex_home_same : network ex_home ≡ₚ network ex_home'.
Proof.
  assert (forall l, network l = (fun t => (t.1, list_to_set t.2)) <$> ((fun iface => (if_Name iface, if_Index iface,
    omap place_of (if_Addrs iface))) <$> filter (fun iface => Z.testbit (if_Flags iface) 0 = true /\
    Z.testbit (if_Flags iface) 2 = false) l)) as Hn by (intros l; unfold network; by rewrite <-list_fmap_compose).
  rewrite (Hn ex_home), (Hn ex_home').
  match goal with |- _ <$> ?l ≡ₚ _ <$> ?l' =>
    let x := eval vm_compute in l in let x' := eval vm_compute in l' in
    replace l with x by (vm_compute; reflexivity); replace l' with x' by (vm_compute; reflexivity) end.
  rewrite !fmap_cons, !fmap_nil. cbn [fst snd]. rewrite Permutation_swap.
  match goal with |- [?x; (?n, ?s)] ≡ₚ [?x'; (?n', ?s')] => assert (s = s') as -> end; [|done].
  apply set_eq. intros q. rewrite !elem_of_list_to_set, !elem_of_cons. tauto.
Qed.

Lemma ex_home_wf : Forall snapshot_wf ex_home /\ Forall snapshot_wf ex_cafe.
Proof. unfold snapshot_wf. split; repeat (constructor; [split_and!; apply (bool_decide_unpack _); vm_compute; exact I|]); constructor. Qed.

(** The same network, and another one that is not taken for it. *)
Lemma fingerprint_network_witness :
  buildNetworkInterfaceFingerprint (P := toy) ex_home = buildNetworkInterfaceFingerprint (P := toy) ex_home' /\
  (buildNetworkInterfaceFingerprint (P := toy) ex_home = buildNetworkInterfaceFingerprint (P := toy) ex_cafe ->
   network ex_home ≡ₚ network ex_cafe \/ hashed ex_home <> hashed ex_cafe).
Proof.
  split; [exact (proj1 (fingerprint_network (P := toy) ex_home ex_home') ex_home_same)|]. intros E.
  destruct (proj2 (fingerprint_network (P := toy) ex_home ex_cafe) (proj1 ex_home_wf) (proj2 ex_home_wf) E) as [H|[H _]]; [by left|by right].
Defined.

Definition ex_np : NetProxy :=
  {| np_monitor := init (P := toy) (Some ex_home) newNetworkMonitor;
     np_key := {| proxySecretKey := replicate 32 1; proxyPublicKey := replicate 32 1 |}; np_servers := [] |}.

Lemma network_change_witness :
  let p' := tick (P := toy) false (Some ex_cafe) (Some (replicate 32 9)) (fun _ => []) ex_np in
  network_changed (P := toy) (Some ex_cafe) (np_monitor ex_np) /\ networkEpoch p' = 1 /\
  np_key p' = setDNSCryptClientKeyLocked (P := toy) (replicate 32 9).
Proof.
  assert (network_changed (P := toy) (Some ex_cafe) (np_monitor ex_np)) as Hc.
  { split_and!; [done|done|by vm_compute|]. exists ex_cafe. split; [done|]. by vm_compute. }
  destruct (network_change (P := toy) false (Some ex_cafe) (Some (replicate 32 9)) (fun _ => []) ex_np) as [H _]; [by vm_compute|].
  destruct (H Hc) as (H1 & _ & _ & H2). cbv zeta. split_and!; [exact Hc|exact H1|]. by apply (H2 (replicate 32 9)).
Defined.
