(* ===== verification/Startup.v ===== *)
(** * The background tasks (src/dnscrypt-proxy/proxy.go)

    [StartProxy] once the settings are there: the first refresh of the servers, then two
    tasks that run forever.  One fetches the lists of servers and selects servers from them,
    the other refreshes the servers.  A round of either of them is a step of the running
    proxy; rounds come in any order.

    However the background tasks interleave, the servers that are used remain those that the
    configuration allows. *)

From S2P Require Import Prelude GoStrings GoFloat NetIP Common Crypto CryptoProps Dns DnsUtils Metrics ServerTypes Mds Servers.
From S2P Require Import Feedback TimeRanges Plugins RuleLog ODoH Query Clients Certs Url XTransport XTransportProps Sources.
From S2P Require Import SourcesProps Observability Monitoring Prometheus MonitoringUI Probe FetchServer FetchServerProps.
From S2P Require Import QueryPlugins Config Tls Registration Listeners ColdStart ConfigLoad ConfigProps RegistrationProps.

(** The part of the proxy that the tasks change; [live] is the number of servers that were
    alive at the last refresh. *)
Record Running := {
  rn_proxy : FetchProxy;
  rn_sources : list Source;
  rn_registry : Registry;
  rn_live : Z;
}.

Definition set_certIgnoreTimestamp (v : bool) (p : FetchProxy) : FetchProxy :=
  let c := cert_proxy p in
  {| routes := routes p; serversBlockingFragments := serversBlockingFragments p;
     skipAnonIncompatibleResolvers := skipAnonIncompatibleResolvers p;
     cert_proxy := {| pqDNSCrypt := pqDNSCrypt c; certIgnoreTimestamp := v;
                      anonDirectCertFallback := anonDirectCertFallback c; client_key := client_key c |};
     fp_timeout := fp_timeout p |}.

Definition set_info (si : ServersInfo) (rg : Registry) : Registry :=
  {| rg_registeredServers := rg_registeredServers rg; rg_registeredRelays := rg_registeredRelays rg; rg_serversInfo := si |}.

(** The delay before the next refresh. *)
Definition refresh_delay (params : ServerParams) (live : Z) : Duration :=
  if live =? 0 then sp_certRefreshDelayAfterFailure params else sp_certRefreshDelay params.

Section tasks.
Context {S E : Type} `{HE : !HttpEnv S} `{PE : !ProbeEnv E} `{D : DnsLib} `{P : Primitives}.
Context (ResolveAddr : proto -> bytes -> option SockAddr).
Context (parse_stamp : bytes -> option ServerStamp) (stamp_String : ServerStamp -> bytes).
Context (parse_url : bytes -> option URL) (Sum256 : bytes -> bytes) (Verify : bytes -> bytes -> bytes -> bool).
Context (parse_configs : bytes -> option (list bytes)) (encrypt_config : bytes -> bytes -> E -> option ODoHQuery * E).
Context (cert_now : E -> Z) (cert_rnd : E -> bytes -> bytes).
Context (io_fails : nat -> bool) (verify : bytes -> bytes -> bytes -> bool).
Context (shuffle : list bytes -> list bytes) (unicode_equal_fold : bytes -> bytes -> bool).

(** A refresh of the servers: the first one, or a round of the task. *)
Definition refresh_round (mainProto : proto) (key : ClientKey) (st : Running) : F S E Running :=
  '(si, live, _) <~ refresh ResolveAddr parse_stamp stamp_String parse_url Sum256 Verify parse_configs encrypt_config
                      cert_now cert_rnd (rn_proxy st) mainProto key (rg_serversInfo (rn_registry st)) ;;
  fret {| rn_proxy := if live >? 0 then set_certIgnoreTimestamp false (rn_proxy st) else rn_proxy st;
          rn_sources := rn_sources st; rn_registry := set_info si (rn_registry st); rn_live := live |}.

(** A round of the other task: the delay to the next round, and the new state.  An error
    of the update is ignored. *)
Definition sources_round (r : Restrictions) (st : Running) (w : SWorld S) : Duration * Running * SWorld S :=
  let '(sources, interval, w) := PrefetchSources io_fails verify (rn_sources st) w in
  let '(_, rg) := updateRegisteredServers unicode_equal_fold stamp_String (parseV2 shuffle parse_stamp) r sources (rn_registry st) in
  (interval, {| rn_proxy := rn_proxy st; rn_sources := sources; rn_registry := rg; rn_live := rn_live st |}, w).

(** The world of a step is arbitrary: time passes between the rounds.  The task that refreshes
    the servers only runs if there are some; it is allowed here in any case. *)
Inductive task_step (r : Restrictions) : Running -> Running -> Prop :=
  | StepRefresh mainProto key st st' w w' : refresh_round mainProto key st w = (st', w') -> task_step r st st'
  | StepSources st st' w d w' : sources_round r st w = (d, st', w') -> task_step r st st'.
End tasks.

(** The proxy when the tasks start: the settings that the refreshes use, and the key of the client. *)
Definition started (px : Proxy) (key : ClientKey) : Running :=
  {| rn_proxy :=
       {| routes := an_routes (px_anonymized px); serversBlockingFragments := px_serversBlockingFragments px;
          skipAnonIncompatibleResolvers := an_skipAnonIncompatibleResolvers (px_anonymized px);
          cert_proxy := {| pqDNSCrypt := sp_pqDNSCrypt (px_params px); certIgnoreTimestamp := sp_certIgnoreTimestamp (px_params px);
                           anonDirectCertFallback := an_anonDirectCertFallback (px_anonymized px); client_key := key |};
          fp_timeout := sp_timeout (px_params px) |};
     rn_sources := px_sources px; rn_registry := px_registry px; rn_live := 0 |}.

(** ** Properties *)

Section tasks.
Context {S E : Type} `{HE : !HttpEnv S} `{PE : !ProbeEnv E} `{D : DnsLib} `{P : Primitives}.
Context (ResolveAddr : proto -> bytes -> option SockAddr).
Context (parse_stamp : bytes -> option ServerStamp) (stamp_String : ServerStamp -> bytes).
Context (parse_url : bytes -> option URL) (Sum256 : bytes -> bytes) (Verify : bytes -> bytes -> bytes -> bool).
Context (parse_configs : bytes -> option (list bytes)) (encrypt_config : bytes -> bytes -> E -> option ODoHQuery * E).
Context (cert_now : E -> Z) (cert_rnd : E -> bytes -> bytes).
Context (io_fails : nat -> bool) (verify : bytes -> bytes -> bytes -> bool).
Context (shuffle : list bytes -> list bytes) (unicode_equal_fold : bytes -> bytes -> bool).
Context (shuffled_perm : forall A l e, (shuffled A l e : list A * E).1 ≡ₚ l).
Context (flags : ConfigFlags) (config : Config) (Hall : fl_ListAll flags = false).

Local Notation r := (configureSourceRestrictions flags config).
Local Notation step := (task_step (S := S) ResolveAddr parse_stamp stamp_String parse_url Sum256 Verify parse_configs encrypt_config
  cert_now cert_rnd io_fails verify shuffle unicode_equal_fold r).

Definition permitted (name : bytes) (stamp : ServerStamp) : Prop :=
  is_static parse_stamp config name stamp \/ allowed unicode_equal_fold config name stamp.
Definition permitted_relay (name : bytes) (stamp : ServerStamp) : Prop :=
  is_relay stamp = true /\
  ((exists c, c_StaticsConfig config !! name = Some c /\ parse_stamp (sc_Stamp c) = Some stamp) \/
   forall n, n ∈ c_DisabledServerNames config -> EqualFold unicode_equal_fold n name = false).

Record running_ok (st : Running) : Prop := {
  ro_sources : Forall (signed verify) (rn_sources st);
  ro_registry : registry_ok permitted permitted_relay (rn_registry st);
  ro_servers : every permitted (registeredServers (rg_serversInfo (rn_registry st)));
  ro_relays : every permitted_relay (registeredRelays (rg_serversInfo (rn_registry st)));
  ro_used : Forall (fun s => exists stamp, permitted (Name_ s) stamp) (inner (rg_serversInfo (rn_registry st)));
  ro_live : 0 < rn_live st -> certIgnoreTimestamp (cert_proxy (rn_proxy st)) = false;
}.

Lemma refresh_round_ok mainProto key st (w : FWorld S E) st' w' :
  refresh_round ResolveAddr parse_stamp stamp_String parse_url Sum256 Verify parse_configs encrypt_config cert_now cert_rnd
    mainProto key st w = (st', w') -> running_ok st -> running_ok st'.
Proof.
  unfold refresh_round, fbind. destruct (refresh _ _ _ _ _ _ _ _ _ _ _ _ _ _ _) as [[[si live] err] w1] eqn:E1.
  intros [= <- <-] [H1 H2 H3 H4 H5 H6].
  destruct (refresh_registered _ _ _ _ _ _ _ _ _ _ _ permitted _ _ _ _ _ _ _ _ shuffled_perm E1 H3) as [G1 G2].
  destruct (refresh_spec _ _ _ _ _ _ _ _ _ _ _ _ _ _ _ _ _ _ _ shuffled_perm E1) as (_ & _ & Hn & _).
  constructor; cbn; [done|done|done|by rewrite G2| |].
  - apply Forall_forall. intros s Hs. destruct (Hn (Name_ s)) as [Hin|Hin]; [by apply list_elem_of_fmap_2| |].
    + apply list_elem_of_fmap in Hin as (s0 & -> & Hs0). by apply (proj1 (Forall_forall _ _) H5).
    + apply list_elem_of_fmap in Hin as (s0 & -> & Hs0). exists (rs_stamp s0). by apply (proj1 (Forall_forall _ _) H3).
  - intros Hl. destruct (live >? 0) eqn:El; [done|]. rewrite Z.gtb_ltb, Z.ltb_ge in El. lia.
Qed.

Lemma updateRegisteredServers_ok sources rg res rg' :
  updateRegisteredServers unicode_equal_fold stamp_String (parseV2 shuffle parse_stamp) r sources rg = (res, rg') ->
  registry_ok permitted permitted_relay rg -> every permitted (registeredServers (rg_serversInfo rg)) ->
  every permitted_relay (registeredRelays (rg_serversInfo rg)) ->
  registry_ok permitted permitted_relay rg' /\ every permitted (registeredServers (rg_serversInfo rg')) /\
  every permitted_relay (registeredRelays (rg_serversInfo rg')) /\ inner (rg_serversInfo rg') = inner (rg_serversInfo rg).
Proof.
  unfold updateRegisteredServers. destruct (select_sources _ _ _ _ _ _) as [res1 rg1] eqn:E1. intros E2 H1 H2 H3.
  assert (registry_ok permitted permitted_relay rg1 /\ rg_serversInfo rg1 = rg_serversInfo rg) as [G1 G2].
  { refine (select_sources_ok _ _ _ permitted permitted_relay _ _ _ _ _ H1 _ E1). intros source s _ _ Hw.
    destruct (is_relay (rs_stamp s)) eqn:Er.
    - split; [done|right]. by eapply wanted_relay.
    - right. by eapply wanted_allowed. }
  destruct res1 as [u|e]; injection E2 as _ <-; [|by rewrite G2].
  destruct (register_all_ok _ _ _ G1) as [A1 A2]; [by rewrite G2..|]. split_and!; [done..|].
  rewrite <- G2. apply register_all_inner.
Qed.

Lemma sources_round_ok st (w : SWorld S) d st' w' :
  sources_round parse_stamp stamp_String io_fails verify shuffle unicode_equal_fold r st w = (d, st', w') ->
  running_ok st -> running_ok st'.
Proof.
  unfold sources_round, PrefetchSources. destruct (getCurrentTime w) as [now w0].
  destruct (prefetch_loop _ _ _ _ _ _) as [[sources interval] w1] eqn:E1.
  destruct (updateRegisteredServers _ _ _ _ _ _) as [res rg] eqn:E2. intros [= <- <- <-] [H1 H2 H3 H4 H5 H6].
  destruct (prefetch_loop_spec _ _ _ _ _ _ _ _ _ E1) as (_ & Hs & _).
  destruct (updateRegisteredServers_ok _ _ _ _ E2 H2 H3 H4) as (G1 & G2 & G3 & G4).
  constructor; cbn; [by apply Hs|done..|by rewrite G4|done].
Qed.

Lemma task_steps_ok st st' : rtc step st st' -> running_ok st -> running_ok st'.
Proof.
  induction 1 as [|st st1 st2 Hstep _ IH]; [done|]. intros Hok. apply IH.
  destruct Hstep; [by eapply refresh_round_ok|by eapply sources_round_ok].
Qed.

Lemma task_steps_timestamps st st' : rtc step st st' -> certIgnoreTimestamp (cert_proxy (rn_proxy st)) = false ->
  certIgnoreTimestamp (cert_proxy (rn_proxy st')) = false.
Proof.
  induction 1 as [|st st1 st2 Hstep _ IH]; [done|]. intros Hok. apply IH. destruct Hstep as [mainProto key st st' w w' E1|st st' w d w' E1].
  - revert E1. unfold refresh_round, fbind. destruct (refresh _ _ _ _ _ _ _ _ _ _ _ _ _ _ _) as [[[si live] err] w1].
    intros [= <- <-]. cbn. by destruct (live >? 0).
  - revert E1. unfold sources_round. destruct (PrefetchSources _ _ _ _) as [[sources interval] w1].
    destruct (updateRegisteredServers _ _ _ _ _ _) as [res rg]. by intros [= <- <- <-].
Qed.
End tasks.

(** ** From the configuration on *)

Section running.
Context {S E : Type} `{HE : !HttpEnv S} `{PE : !ProbeEnv E} `{D : DnsLib} `{P : Primitives} `{TE : TlsEnv}.
Context (unicode_lower : bytes -> bytes) (unicode_equal_fold : bytes -> bytes -> bool).
Context (parse_hostname : bytes -> option bytes) (proxy_usable : bytes -> bool) (can_open_log : bytes -> bool).
Context (io_fails : nat -> bool) (verify : bytes -> bytes -> bytes -> bool).
Context (parseURL : bytes -> option URL) (valid_key : bytes -> bool).
Context (shuffle : list bytes -> list bytes) (parse_stamp : bytes -> option ServerStamp) (stamp_String : ServerStamp -> bytes).
Context (range : nat -> forall A, gmap bytes A -> list (bytes * A)).
Context (resolves : bytes -> bytes -> bool) (can_open : handle -> bool) (fresh : gmap Z handle -> Z) (attempts : nat -> attempt).
Context (read_map : bytes -> option bytes).
Context (systemd_files : list handle).
Context (ResolveAddr : proto -> bytes -> option SockAddr) (Sum256 : bytes -> bytes) (Verify : bytes -> bytes -> bytes -> bool).
Context (parse_configs : bytes -> option (list bytes)) (encrypt_config : bytes -> bytes -> E -> option ODoHQuery * E).
Context (cert_now : E -> Z) (cert_rnd : E -> bytes -> bytes).

Local Notation load := (ConfigLoad unicode_lower unicode_equal_fold parse_hostname proxy_usable can_open_log io_fails verify
  parseURL valid_key shuffle parse_stamp stamp_String range resolves can_open fresh attempts read_map systemd_files).
Local Notation steps flags config := (rtc (task_step (S := S) ResolveAddr parse_stamp stamp_String parseURL Sum256 Verify parse_configs
  encrypt_config cert_now cert_rnd io_fails verify shuffle unicode_equal_fold (configureSourceRestrictions flags config))).
Local Notation permitted := (permitted parse_stamp unicode_equal_fold).
Local Notation permitted_relay := (permitted_relay parse_stamp unicode_equal_fold).

Lemma server_ok_permitted config sources l : every (server_ok shuffle parse_stamp unicode_equal_fold config sources) l ->
  every (permitted config) l.
Proof. intros H. eapply Forall_impl; [exact H|]. intros s [?|[_ ?]]; first [by left|by right]. Qed.

Lemma relay_ok_permitted config sources l : every (relay_ok shuffle parse_stamp unicode_equal_fold config sources) l ->
  every (permitted_relay config) l.
Proof. intros H. eapply Forall_impl; [exact H|]. intros s [? [?|[_ ?]]]; (split; [done|]); first [by left|by right]. Qed.

Lemma loadSources_inner config r si (w : SWorld S) sources rg w' :
  loadSources io_fails verify parseURL valid_key shuffle parse_stamp stamp_String unicode_equal_fold range config r si w =
    (Ok (sources, rg), w') -> inner (rg_serversInfo rg) = inner si.
Proof.
  unfold loadSources. destruct (load_each _ _ _ _ _ _ w) as [[srcs|e] w1]; [|done].
  destruct (static_servers _ _ _) as [servers|e]; [|done]. unfold updateRegisteredServers.
  destruct (select_sources _ _ _ _ _ _) as [[u|e] rg1] eqn:E1; [|done]. intros [= <- <- <-].
  rewrite register_all_inner.
  assert (registry_ok (fun _ _ => True) (fun _ _ => True) rg1 /\ rg_serversInfo rg1 = si) as [_ ->]; [|done].
  refine (select_sources_ok _ _ _ (fun _ _ => True) (fun _ _ => True) _ _ _ _ _ _ _ E1).
  - split; by apply Forall_true.
  - intros source s _ _ _. by destruct (is_relay (rs_stamp s)).
Qed.

Lemma started_ok flags env undecoded config si w px w' key :
  (forall i A (m : gmap bytes A), range i A m ≡ₚ map_to_list m) ->
  registeredServers si = [] -> registeredRelays si = [] -> inner si = [] -> c_OfflineMode config = false ->
  load flags env undecoded config si w = (Ok px, w') ->
  fl_ListAll flags = false /\ running_ok parse_stamp verify unicode_equal_fold config (started px key).
Proof.
  intros Hrange Hs Hr Hi Hoff H%ConfigLoad_loaded. destruct (ld_servers _ _ _ _ _ _ _ _ _ _ _ _ _ _ _ _ H Hoff) as (_ & ws & ws' & El).
  destruct (ld_flags _ _ _ _ _ _ _ _ _ _ _ _ _ _ _ _ H) as (_ & Hall & _). split; [done|].
  destruct (configureLoadBalancing_registered unicode_lower config si) as [Es Er]. rewrite Hs in Es. rewrite Hr in Er.
  destruct (loadSources_spec _ _ _ _ _ _ _ _ _ Hrange _ _ _ _ _ _ _ Hall Es Er El) as (H1 & H2 & H3 & H4 & H5).
  pose proof (loadSources_inner _ _ _ _ _ _ _ El) as Hin. rewrite configureLoadBalancing_inner, Hi in Hin.
  constructor; cbn; [eapply Forall_impl; [exact H1|by intros ? []]|split|..];
    [by eapply server_ok_permitted|by eapply relay_ok_permitted|by eapply server_ok_permitted|by eapply relay_ok_permitted| |lia].
  rewrite Hin. constructor.
Qed.

(** C11: as long as the proxy runs, and is not offline, whatever the servers and the network do and however the rounds
    of the background tasks are ordered, the configuration decides which servers are used.  The
    registered servers are static ones of the configuration or satisfy all its restrictions,
    the relays are static or are not disabled, a server that queries are sent to has the name of
    a server of one of these two kinds, and every list of servers in use is signed by its configured key.  Once
    a refresh found a server alive, the validity periods of certificates are enforced, for good. *)
Theorem used_servers flags env undecoded config si w px w' key st :
  (forall i A (m : gmap bytes A), range i A m ≡ₚ map_to_list m) ->
  (forall A l e, (shuffled A l e : list A * E).1 ≡ₚ l) ->
  registeredServers si = [] -> registeredRelays si = [] -> inner si = [] -> c_OfflineMode config = false ->
  load flags env undecoded config si w = (Ok px, w') ->
  steps flags config (started px key) st ->
  let info := rg_serversInfo (rn_registry st) in
  every (permitted config) (registeredServers info) /\ every (permitted_relay config) (registeredRelays info) /\
  Forall (fun s => exists stamp, permitted config (Name_ s) stamp) (inner info) /\
  Forall (signed verify) (rn_sources st) /\
  (0 < rn_live st -> forall st', steps flags config st st' -> certIgnoreTimestamp (cert_proxy (rn_proxy st')) = false).
Proof.
  intros Hrange Hshuf Hs Hr Hi Hoff Hl Hsteps. destruct (started_ok _ _ _ _ _ _ _ _ key Hrange Hs Hr Hi Hoff Hl) as [Hall Hok].
  destruct (task_steps_ok _ _ _ _ _ _ _ _ _ _ _ _ _ _ Hshuf _ _ Hall _ _ Hsteps Hok) as [H1 H2 H3 H4 H5 H6].
  split_and!; [done..|]. intros Hlive st' Hst'. by eapply task_steps_timestamps; [|apply H6].
Qed.
End running.

(** ** Example *)

Local Notation ex_range := (fun (_ : nat) (A : Type) (m : gmap bytes A) => map_to_list m).
Local Notation ex_config := (sample_config [] no_mds [] {[str "home" := {| sc_Stamp := str "sdns://home" |}]}
  {[str "public" := ex_section]}).
Local Notation ex_load := (ConfigLoad (HE := ex_http) (TE := ex_tls) id (fun _ _ => false) (fun _ => None) (fun _ => true) (fun _ => true)
  (fun _ => false) ex_verify (fun _ => None) (fun _ => true) id ex_stamps ServerAddrStr ex_range (fun _ _ => true)
  (fun _ => true) (fun _ => 5) (fun _ => Connected) (fun _ => None) [] ex_flags false [] ex_config NewServersInfo ex_lworld).
Local Notation ex_steps := (rtc (task_step (HE := ex_http) (PE := ex_probes) (D := ex_test_lib) (P := toy)
  (fun _ _ => None) ex_stamps ServerAddrStr (fun _ => None)
  (fun c => c) (fun _ _ _ => true) (fun _ => None) (fun _ _ e => (None, e)) (fun _ => 0) (fun _ _ => []) (fun _ => false) ex_verify id
  (fun _ _ => false) (configureSourceRestrictions ex_flags ex_config))).

(** The list is fetched again, then the servers are refreshed. *)
Lemma ex_run : exists px w' st, ex_load = (Ok px, w') /\ ex_steps (started px (client_key sample_cert_proxy)) st /\
  rs_name <$> registeredServers (rg_serversInfo (rn_registry st)) = [str "home"; str "fast"].
Proof.
  eexists _, _, _. split; [vm_compute; reflexivity|]. split.
  - eapply rtc_l.
    + eapply (StepSources (HE := ex_http)) with (w := lw_sources ex_lworld). vm_compute; reflexivity.
    + eapply rtc_l; [|apply rtc_refl]. eapply (StepRefresh (HE := ex_http) (PE := ex_probes)) with (mainProto := udp)
        (key := client_key sample_cert_proxy) (w := {| fx := ex_xworld false; fenv := tt; sent := [] |}).
      vm_compute; reflexivity.
  - vm_compute; reflexivity.
Qed.

Lemma used_servers_witness : exists px w' st, ex_load = (Ok px, w') /\
  ex_steps (started px (client_key sample_cert_proxy)) st /\
  rs_name <$> registeredServers (rg_serversInfo (rn_registry st)) = [str "home"; str "fast"] /\
  every (permitted ex_stamps (fun _ _ => false) ex_config) (registeredServers (rg_serversInfo (rn_registry st))) /\
  Forall (signed ex_verify) (rn_sources st).
Proof.
  destruct ex_run as (px & w' & st & E & Hs & Hn). exists px, w', st. do 2 (split; [done|]). split; [exact Hn|].
  pose proof (fun H0 H1 H2 H3 H4 H5 => used_servers _ _ _ _ _ _ _ _ _ _ _ _ _ _ _ _ _ _ _ _ _ _ _ _ _ _ _ _ _ _ _ _ _ _ _ _
    H0 H1 H2 H3 H4 H5 E Hs) as H.
  specialize (H (fun i A m => Permutation_refl _) (fun A l e => Permutation_refl _) eq_refl eq_refl eq_refl eq_refl).
  exact (conj (proj1 H) (proj1 (proj2 (proj2 (proj2 H))))).
Defined.
