(* ===== verification/App.v ===== *)
(** * The program (src/dnscrypt-proxy/main.go, proxy.go, config.go, crypto.go, privilege_linux.go,
    privilege_others.go, service_linux.go)

    From the command line to a proxy that accepts clients: [main], [AppMain], which loads the
    configuration and initialises the plugins, [StartProxy], the change of user and the
    notifications to the service manager.  A run is the list of what the process does, and a
    result if it gets to the end: [dlog.Fatal], [os.Exit] and the execution of another program end
    it earlier.

    Clients are served only once everything is in place, by every listener that was opened; with
    [user_name], this is in a process that has given up the privileges, in the right order. *)

From S2P Require Import Prelude GoStrings GoFloat NetIP Common Platform Crypto CryptoProps Dns DnsUtils Metrics ServerTypes Mds Servers.
From S2P Require Import Feedback TimeRanges Plugins UdpPool RuleLog ODoH Query Clients QueryPlugins Certs Url XTransport XTransportProps Sources.
From S2P Require Import SourcesProps Observability Monitoring Prometheus MonitoringUI Probe FetchServer FetchServerProps.
From S2P Require Import Config Tls Registration Listeners ListenersProps ColdStart ConfigLoad ConfigProps RegistrationProps Startup.

(** ** Runs *)

(** The numbers of users and groups are those that the kernel gets: it has 32 bits for them. *)
Inductive call :=
  | Setgroups | Setgid (gid : Z) | Setuid (uid : Z)
  | Dup2 (fd target : Z) | SetCloexec (fd : Z)
  | Exec (path : bytes) (args : list bytes).

Inductive event :=
  | EvVersion | EvStarting | EvControl (action : bytes)
  | EvLoaded (px : Proxy) | EvPidFile (ok : bool) | EvPlugins (names : list plugin_name) | EvHotReload (ok : bool)
  | EvKey (key : ClientKey) | EvNetMonitor | EvMonitoring
  | EvAccept (h : handle) | EvReady | EvWatchdog (interval : Duration)
  | EvRefreshed (live : Z) | EvSourcesTask | EvRefreshTask
  | EvCall (c : call) | EvFatal | EvExit.

Definition Run (A : Type) : Type := list event * option A.

Definition rret {A} (a : A) : Run A := ([], Some a).
Definition rbind {A B} (m : Run A) (k : A -> Run B) : Run B :=
  match m with
  | (l, Some a) => let '(l', r) := k a in (l ++ l', r)
  | (l, None) => (l, None)
  end.
Definition emit (e : event) : Run unit := ([e], Some tt).
Definition fatal {A} : Run A := ([EvFatal], None).
Definition exit {A} : Run A := ([EvExit], None).

Declare Scope run_scope.
Open Scope run_scope.
Notation "x <=~ m ;; k" := (rbind m (fun x => k)) (at level 100, m at next level, right associativity) : run_scope.
Notation "m ~~; k" := (rbind m (fun _ => k)) (at level 100, right associativity) : run_scope.

Definition or_fatal {A} (o : option A) : Run A := match o with Some a => rret a | None => fatal end.
Definition guard_fatal (ok : bool) : Run unit := if ok then rret tt else fatal.
Fixpoint emit_all (l : list event) : Run unit := match l with [] => rret tt | e :: l' => emit e ~~; emit_all l' end.

(** The system that the process runs on. *)
Class System := {
  Geteuid : Z;
  (** [user.Lookup]: the texts of the user and group numbers. *)
  user_Lookup : bytes -> option (bytes * bytes);
  LookPath : bytes -> option bytes;
  filepath_Abs : bytes -> option bytes;
  syscall_ok : call -> bool;
  (** [daemon.SdWatchdogEnabled]: [None] is an error. *)
  SdWatchdogEnabled : option Duration;
  MkdirAll : bytes -> bool;
  WriteFile_ : bytes -> bytes -> bool;
  Remove_ : bytes -> bool;
  Getpid : Z;
  (** The 32 bytes of the random source. *)
  crypto_rand : option bytes;
  (** Whether [Init] of a plugin and the set-up of the reloads succeed. *)
  plugin_Init_ok : Proxy -> plugin_name -> bool;
  InitHotReload_ok : Proxy -> bool;
}.

Section app.
Context `{SY : System}.

(** ** The service manager *)

Definition systemDWatchdog : Run unit :=
  watchdogFailureDelay <=~ or_fatal SdWatchdogEnabled ;;
  if watchdogFailureDelay =? 0 then rret tt else emit (EvWatchdog (go_div watchdogFailureDelay 3)).

Definition ServiceManagerStartNotify : Run unit := emit EvStarting.
Definition ServiceManagerReadyNotify : Run unit := emit EvReady ~~; systemDWatchdog.

(** ** The change of user *)

Definition syscall (c : call) : Run unit := if syscall_ok c then emit (EvCall c) else fatal.

(** The numbers of the user and of the group. *)
Definition user_ids (userStr : bytes) : option (Z * Z) :=
  userInfo ← match user_Lookup userStr with
             | Some u => Some u
             | None => uid ← Atoi userStr; if uid <=? 0 then None else Some (userStr, userStr)
             end;
  uid ← Atoi userInfo.1;
  gid ← Atoi userInfo.2;
  Some (uid, gid).

Fixpoint clone_files (fds : list Z) (i : Z) (t : gmap Z handle) : Run (gmap Z handle) :=
  match fds with
  | [] => rret t
  | fd :: fds' =>
      guard_fatal (negb (fd >=? InheritedDescriptorsBase)) ~~;
      h <=~ or_fatal (t !! fd) ;;
      syscall (Dup2 fd (InheritedDescriptorsBase + i)) ~~;
      syscall (SetCloexec fd) ~~;
      clone_files fds' (i + 1) (<[InheritedDescriptorsBase + i := h]> t)
  end.

(** The result is the process that runs the program again. *)
Definition dropPrivilege (userStr : bytes) (args : list bytes) (p : Process) : Run Process :=
  guard_fatal (Geteuid =? 0) ~~;
  ids <=~ or_fatal (user_ids userStr) ;;
  execPath <=~ or_fatal (arg0 ← head args; LookPath arg0) ;;
  path <=~ or_fatal (filepath_Abs execPath) ;;
  ServiceManagerReadyNotify ~~;
  syscall Setgroups ~~;
  syscall (Setgid (uint32 ids.2)) ~~;
  syscall (Setuid (uint32 ids.1)) ~~;
  t <=~ clone_files (FileDescriptors p) 0 (table p) ;;
  syscall (Exec path (args ++ [str "-child"])) ~~;
  rret (new_process (foldr delete t (FileDescriptors p))).

(** The other systems than Linux make the same calls, through [unix]. *)
Definition dropPrivilege_others : bytes -> list bytes -> Process -> Run Process := dropPrivilege.

(** ** The start of the proxy *)

(** The options that [InitPluginsGlobals] looks at. *)
Definition plugin_options (px : Proxy) : PluginOptions :=
  let g := px_plugins px in
  let set (file : bytes) := negb (bool_decide (file = [])) in
  {| opt_captivePortal := bool_decide (is_Some (px_captivePortalMap px)); opt_queryMeta := negb (bool_decide (pg_queryMeta g = []));
     opt_allowName := set (lc_File (px_allowName px)); opt_ecs := (0 <? length (px_ednsClientSubnets px))%nat;
     opt_blockName := set (lc_File (px_blockName px)); opt_blockIPv6 := pg_pluginBlockIPv6 g; opt_cloak := set (px_files px).1.2;
     opt_cache := pg_cache g; opt_forward := set (px_files px).1.1; opt_blockUnqualified := pg_pluginBlockUnqualified g;
     opt_blockUndelegated := pg_pluginBlockUndelegated g; opt_nxLog := set (nlc_File (px_nxLog px));
     opt_allowedIP := set (lc_File (px_allowIP px)); opt_blockIP := set (lc_File (px_blockIP px));
     opt_dns64Resolvers := negb (bool_decide (d6_Resolvers (px_dns64 px) = []));
     opt_dns64Prefixes := negb (bool_decide (d6_Prefixes (px_dns64 px) = []));
     opt_queryLog := set (qlc_File (px_queryLog px)) |}.

(** The plugins in the order in which they are initialised; the first failure ends the program. *)
Definition init_plugins (px : Proxy) : Run unit :=
  let o := plugin_options px in
  let names := query_chain o ++ response_chain o ++ logging_chain o in
  if forallb (plugin_Init_ok px) names then emit (EvPlugins names) else fatal.

Definition initDNSCryptClientKey `{P : Primitives} : option ClientKey := setDNSCryptClientKeyLocked <$> crypto_rand.

(** A goroutine per listener; the lists of listeners are emptied. *)
Definition startAcceptingClients (p : Process) : Run Process :=
  emit_all (EvAccept <$> udpListeners (listeners p) ++ tcpListeners (listeners p) ++ localDoHListeners (listeners p)) ~~;
  rret (set_listeners no_listeners p).

(** [refresh_live] is the number of servers that are alive after the first refresh. *)
Definition StartProxy `{P : Primitives} (refresh_live : ClientKey -> Z) (px : Proxy) (p : Process) : Run Process :=
  key <=~ or_fatal initDNSCryptClientKey ;;
  emit (EvKey key) ~~;
  emit EvNetMonitor ~~;
  (if mu_Enabled (sp_monitoringUI (px_params px)) then emit EvMonitoring else rret tt) ~~;
  p <=~ startAcceptingClients p ;;
  (if px_child px then rret tt else ServiceManagerReadyNotify) ~~;
  let liveServers := refresh_live key in
  emit (EvRefreshed liveServers) ~~;
  (if px_showCerts px then exit else rret tt) ~~;
  emit EvSourcesTask ~~;
  (if (0 <? length (registeredServers (rg_serversInfo (px_registry px))))%nat then emit EvRefreshTask else rret tt) ~~;
  rret p.

(** [AppMain] from the result of [ConfigLoad] on. *)
Definition app_loaded `{P : Primitives} (refresh_live : Proxy -> ClientKey -> Z) (pidFile : bytes) (px : Proxy) (p : Process) : Run Process :=
  emit (EvLoaded px) ~~;
  emit (EvPidFile (PidFileCreate MkdirAll WriteFile_ Getpid pidFile)) ~~;
  init_plugins px ~~;
  emit (EvHotReload (InitHotReload_ok px)) ~~;
  StartProxy (refresh_live px) px p.

(** ** The configuration file *)

(** The file system as the search of the configuration file sees it, and the decoder: the configuration
    and the keys that it does not know. *)
Class ConfigFiles := {
  stat_in : bytes -> bytes -> found;
  Executable : option bytes;
  Chdir : bytes -> bool;
  getwd_ok : bool;
  DecodeFile : bytes -> option (Config * list bytes);
}.

(** The start of [ConfigLoad]; a [-resolve] command ends the program after it is carried out. *)
Definition read_config `{CF : ConfigFiles} (configFile cwd : bytes) (resolve_command : bool) : Run (Config * list bytes) :=
  let '(foundConfigFile, _) := findConfigFile stat_in Executable Chdir getwd_ok configFile cwd in
  path <=~ or_fatal foundConfigFile ;;
  decoded <=~ or_fatal (DecodeFile path) ;;
  (if resolve_command then exit else rret tt) ~~;
  _ <=~ or_fatal (cdFileDir Chdir path) ;;
  rret decoded.

(** What [ConfigLoad] ends with: an error is fatal, the commands exit, and the process that opened the sockets
    for another user executes the program again. *)
Definition after_load {A} (userName : bytes) (args : list bytes) (r : result config_error A) (p : Process) : Run A :=
  match r with
  | Ok px => rret px
  | Err Exit => exit
  | Err Reexecuted => dropPrivilege userName args p ~~; ([], None)
  | Err _ => fatal
  end.

(** ** The command *)

Record Command := {
  cmd_version : bool;
  cmd_service : bytes;
  cmd_args : list bytes;
}.

(** [service.New] may fail; [control] is what the control of the service does, [run] is [svc.Run], which calls
    [Start], and otherwise [AppMain] is called.  [app] is [AppMain]. *)
Definition main {A} (c : Command) (svc : bool) (control : bytes -> bool) (app : Run A) : Run A :=
  if cmd_version c then emit EvVersion ~~; exit
  else
    ServiceManagerStartNotify ~~;
    if negb (bool_decide (cmd_service c = [])) then
      guard_fatal svc ~~;
      guard_fatal (control (cmd_service c)) ~~;
      emit (EvControl (cmd_service c)) ~~; ([], None)
    else app.
End app.

Section run.
Context {S E : Type} `{HE : !HttpEnv S} `{PE : !ProbeEnv E} `{D : DnsLib} `{P : Primitives} `{TE : TlsEnv} `{SY : System} `{CF : ConfigFiles}.
Context (unicode_lower : bytes -> bytes) (unicode_equal_fold : bytes -> bytes -> bool).
Context (parse_hostname : bytes -> option bytes) (proxy_usable : bytes -> bool) (can_open_log : bytes -> bool).
Context (io_fails : nat -> bool) (verify : bytes -> bytes -> bytes -> bool).
Context (parseURL : bytes -> option URL) (valid_key : bytes -> bool).
Context (shuffle : list bytes -> list bytes) (parse_stamp : bytes -> option ServerStamp) (stamp_String : ServerStamp -> bytes).
Context (range : nat -> forall A, gmap bytes A -> list (bytes * A)).
Context (resolves : bytes -> bytes -> bool) (can_open : handle -> bool) (fresh : gmap Z handle -> Z) (attempts : nat -> attempt).
Context (read_map : bytes -> option bytes) (systemd_files : list handle).
Context (ResolveAddr : proto -> bytes -> option SockAddr) (Sum256 : bytes -> bytes) (Verify : bytes -> bytes -> bytes -> bool).
Context (parse_configs : bytes -> option (list bytes)) (encrypt_config : bytes -> bytes -> E -> option ODoHQuery * E).
Context (cert_now : E -> Z) (cert_rnd : E -> bytes -> bytes).

Local Notation load := (ConfigLoad unicode_lower unicode_equal_fold parse_hostname proxy_usable can_open_log io_fails verify
  parseURL valid_key shuffle parse_stamp stamp_String range resolves can_open fresh attempts read_map systemd_files).

Definition main_proto (x : XTransport) : proto := if bool_decide (mainProto x = str "tcp") then tcp else udp.

(** The first refresh of the servers; from now on, the proxy itself may be asked for addresses. *)
Definition first_refresh (e : E) (w : LWorld S) (px : Proxy) (key : ClientKey) : Z :=
  let x := sx (lw_sources w) in
  let x := {| xt := set_resolvers (px_listenAddresses px) (bootstrapResolvers (xt x)) (set_internalResolverReady false (xt x));
              xenv := xenv x; xlog := xlog x |} in
  rn_live (refresh_round ResolveAddr parse_stamp stamp_String parseURL Sum256 Verify parse_configs encrypt_config cert_now cert_rnd
             (main_proto (xt x)) key (started px key) {| fx := x; fenv := e; sent := [] |}).1.

Definition AppMain (flags : ConfigFlags) (show_certs_env : bool) (configFile cwd pidFile : bytes) (resolve_command : bool)
    (args : list bytes) (e : E) (w : LWorld S) : Run Process :=
  decoded <=~ read_config configFile cwd resolve_command ;;
  let '(config, undecoded) := decoded in
  let '(r, w') := load flags show_certs_env undecoded config NewServersInfo w in
  px <=~ after_load (c_UserName config) args r (lw_process w') ;;
  app_loaded (first_refresh e w') pidFile px (lw_process w').

(** [Stop]: the pool of sockets is closed, and the PID file removed; a failure is only reported. *)
Definition Stop_ (pool : pool_world) (pidFile : bytes) : pool_world * bool := (Close pool, PidFileRemove Remove_ pidFile).
End run.

(** ** Properties *)

(** *** Runs *)

Lemma rbind_inv {A B} (m : Run A) (k : A -> Run B) l r : rbind m k = (l, r) ->
  (exists l1 a l2, m = (l1, Some a) /\ k a = (l2, r) /\ l = l1 ++ l2) \/ (m = (l, None) /\ r = None).
Proof.
  unfold rbind. destruct m as [l1 [a|]]; [|intros [= <- <-]; by right]. destruct (k a) as [l2 r2] eqn:E.
  intros [= <- <-]. left. by exists l1, a, l2.
Qed.

Lemma emit_all_run l : emit_all l = (l, Some tt).
Proof. induction l as [|e l IH]; cbn; [done|]. by rewrite IH. Qed.

(** Takes a step of a run that is one event. *)
Lemma emit_inv {B} e (k : unit -> Run B) l r : rbind (emit e) k = (l, r) -> exists l', l = e :: l' /\ k tt = (l', r).
Proof. unfold rbind, emit. destruct (k tt) as [l' r']. intros [= <- <-]. by exists l'. Qed.

Lemma or_fatal_inv {A B} (o : option A) (k : A -> Run B) l r : rbind (or_fatal o) k = (l, r) ->
  (exists a, o = Some a /\ k a = (l, r)) \/ (l = [EvFatal] /\ r = None).
Proof. unfold rbind, or_fatal. destruct o as [a|]; cbn; [|intros [= <- <-]; by right]. destruct (k a) eqn:E. intros [= <- <-]. left. by exists a. Qed.

Lemma guard_fatal_inv {B} (b : bool) (k : unit -> Run B) l r : rbind (guard_fatal b) k = (l, r) ->
  (b = true /\ k tt = (l, r)) \/ (l = [EvFatal] /\ r = None).
Proof. destruct b; cbn; [destruct (k tt) eqn:E|]; intros [= <- <-]; [by left|by right]. Qed.

Section app.
Context `{SY : System}.

Lemma syscall_inv {B} c (k : unit -> Run B) l r : rbind (syscall c) k = (l, r) ->
  (syscall_ok c = true /\ exists l', l = EvCall c :: l' /\ k tt = (l', r)) \/ (l = [EvFatal] /\ r = None).
Proof.
  unfold syscall. destruct (syscall_ok c) eqn:E; [intros H%emit_inv; by left|]. cbn. intros [= <- <-]. by right.
Qed.

(** The notification, when it returns. *)
Definition ready_events : list event :=
  EvReady :: match SdWatchdogEnabled with Some d => if d =? 0 then [] else [EvWatchdog (go_div d 3)] | None => [] end.

Lemma ReadyNotify_run : ServiceManagerReadyNotify =
  match SdWatchdogEnabled with Some _ => (ready_events, Some tt) | None => ([EvReady; EvFatal], None) end.
Proof.
  unfold ServiceManagerReadyNotify, systemDWatchdog, ready_events. destruct SdWatchdogEnabled as [d|]; [|done]. cbn.
  by destruct (d =? 0).
Qed.

(** *** The change of user *)

(** The calls that give the files to the next program. *)
Fixpoint clone_calls (fds : list Z) (i : Z) : list event :=
  match fds with
  | [] => []
  | fd :: fds' => EvCall (Dup2 fd (InheritedDescriptorsBase + i)) :: EvCall (SetCloexec fd) :: clone_calls fds' (i + 1)
  end.

Lemma clone_calls_elem fds i e : e ∈ clone_calls fds i -> exists fd t, e = EvCall (Dup2 fd t) \/ e = EvCall (SetCloexec fd).
Proof.
  revert i. induction fds as [|fd fds IH]; intros i; cbn; [by intros ?%not_elem_of_nil|].
  intros [->|[->|He]%elem_of_cons]%elem_of_cons; [by eexists _, _; left|by exists fd, 0; right|by eapply IH].
Qed.

Lemma clone_files_run fds : forall i t l r, clone_files fds i t = (l, r) ->
  match r with
  | Some t' => l = clone_calls fds i /\ duplicate fds i t = Some t'
  | None => forall path args, EvCall (Exec path args) ∉ l
  end.
Proof.
  induction fds as [|fd fds IH]; intros i t l r; cbn [clone_files]; [by intros [= <- <-]|].
  intros [[Hb H]|[-> ->]]%guard_fatal_inv; [|set_solver]. apply negb_true_iff in Hb.
  apply or_fatal_inv in H as [(h & Ht & H)|[-> ->]]; [|set_solver].
  apply syscall_inv in H as [[_ (l1 & -> & H)]|[-> ->]]; [|set_solver].
  apply syscall_inv in H as [[_ (l2 & -> & H)]|[-> ->]]; [|set_solver].
  apply IH in H. destruct r as [t'|].
  - destruct H as [-> H]. cbn. by rewrite Hb, Ht.
  - intros path args. specialize (H path args). set_solver.
Qed.

(** The privileges are given up before the program runs again, in the only order that works: the other groups, the
    group, the user. *)
Lemma dropPrivilege_run userStr args p l r : dropPrivilege userStr args p = (l, r) ->
  match r with
  | Some p' =>
      exists uid gid path, user_ids userStr = Some (uid, gid) /\ Geteuid = 0 /\
        l = ready_events ++ [EvCall Setgroups; EvCall (Setgid (uint32 gid)); EvCall (Setuid (uint32 uid))] ++
            clone_calls (FileDescriptors p) 0 ++ [EvCall (Exec path (args ++ [str "-child"]))] /\
        Listeners.dropPrivilege true p = Some p'
  | None => forall path args, EvCall (Exec path args) ∉ l
  end.
Proof.
  unfold dropPrivilege. intros [[He%Z.eqb_eq H]|[-> ->]]%guard_fatal_inv; [|set_solver].
  apply or_fatal_inv in H as [([uid gid] & Hu & H)|[-> ->]]; [|set_solver].
  apply or_fatal_inv in H as [(ep & _ & H)|[-> ->]]; [|set_solver].
  apply or_fatal_inv in H as [(path & _ & H)|[-> ->]]; [|set_solver].
  rewrite ReadyNotify_run in H. assert (forall path args, EvCall (Exec path args) ∉ ready_events) as Hre.
  { intros ? ?. unfold ready_events. destruct SdWatchdogEnabled as [d|]; [|set_solver]. destruct (d =? 0); set_solver. }
  destruct SdWatchdogEnabled as [d|] eqn:Ew; [|injection H as <- <-; set_solver].
  apply rbind_inv in H as [(l1 & a & l2 & [= <- <-] & H & ->)|[[=] _]].
  apply syscall_inv in H as [[_ (l3 & -> & H)]|[-> ->]]; [|set_solver].
  apply syscall_inv in H as [[_ (l4 & -> & H)]|[-> ->]]; [|set_solver].
  apply syscall_inv in H as [[_ (l5 & -> & H)]|[-> ->]]; [|set_solver].
  apply rbind_inv in H as [(l6 & t & l7 & Hc & H & ->)|[Hc ->]]; apply clone_files_run in Hc; [|set_solver].
  destruct Hc as [-> Hd]. apply syscall_inv in H as [[_ (l8 & -> & H)]|[-> ->]].
  - injection H as <- <-. exists uid, gid, path. split_and!; [done|done| |].
    + done.
    + unfold Listeners.dropPrivilege. cbn. by rewrite Hd.
  - intros path' args'. assert (EvCall (Exec path' args') ∉ clone_calls (FileDescriptors p) 0) as Hcc
      by (intros (fd & t' & [?|?])%clone_calls_elem; done).
    set_solver.
Qed.
End app.

(** An event of a kind that does not occur before, or after, a point of a run. *)
Lemma split_after {A} (Q : A -> Prop) pre x l1 e l2 : (forall y, y ∈ pre -> ~ Q y) -> Q e -> pre ++ x = l1 ++ e :: l2 ->
  exists a, l1 = pre ++ a /\ x = a ++ e :: l2.
Proof.
  revert l1. induction pre as [|y pre IH]; intros l1 Hn He; cbn; [by exists l1|]. destruct l1 as [|z l1]; cbn; intros [= -> H].
  - by destruct (Hn e); [set_solver|].
  - destruct (IH l1) as (a & -> & ->); [set_solver|done|done|]. by exists a.
Qed.

Lemma split_before {A} (Q : A -> Prop) acc rest l1 e l2 : (forall y, y ∈ rest -> ~ Q y) -> Q e -> acc ++ rest = l1 ++ e :: l2 ->
  exists a, acc = l1 ++ e :: a /\ l2 = a ++ rest.
Proof.
  revert l1. induction acc as [|y acc IH]; intros l1 Hn He; cbn.
  - intros ->. destruct (Hn e); [set_solver|done].
  - destruct l1 as [|z l1]; cbn; intros [= -> H]; [by exists acc|].
    destruct (IH l1) as (a & -> & ->); [done..|]. by exists a.
Qed.

Section start.
Context `{SY : System}.

Definition is_exec (e : event) : Prop := match e with EvCall (Exec _ _) => True | _ => False end.

Lemma user_ids_positive userStr uid gid : user_ids userStr = Some (uid, gid) -> user_Lookup userStr = None -> 0 < uid.
Proof.
  unfold user_ids. intros H HL. rewrite HL in H. destruct (Atoi userStr) as [n|] eqn:E; [|done]. cbn in H.
  destruct (n <=? 0) eqn:En; [done|]. cbn in H. rewrite E in H. cbn in H. injection H as <- _. lia.
Qed.

(** C27: the program is only executed again by a process that was root, as the configured user, and after the privileges
    were given up in the only order that works: first the other groups, then the group, then the
    user.  The number of the user is positive unless the system knows the user under that number, and is
    the one that the kernel gets if it has at most 32 bits (see [root_after_all] for the others).  Nothing
    comes after, the new process is started as a child, and has the open files of the first one under the numbers
    that it expects. *)
Theorem privileges_dropped userStr args p l r l1 path args' l2
  (Hrun : dropPrivilege userStr args p = (l, r)) (Hexec : l = l1 ++ EvCall (Exec path args') :: l2) :
  exists uid gid before files p', user_ids userStr = Some (uid, gid) /\ Geteuid = 0 /\
    (user_Lookup userStr = None -> 0 < uid) /\ (0 <= uid < 2 ^ 32 -> uint32 uid = uid) /\
    l1 = before ++ [EvCall Setgroups; EvCall (Setgid (uint32 gid)); EvCall (Setuid (uint32 uid))] ++ files /\
    (forall c, EvCall c ∉ before) /\ (forall uid, EvCall (Setuid uid) ∉ files) /\
    args' = args ++ [str "-child"] /\ l2 = [] /\ r = Some p' /\ Listeners.dropPrivilege true p = Some p'.
Proof.
  apply dropPrivilege_run in Hrun. destruct r as [p'|].
  - destruct Hrun as (uid & gid & path' & Hu & He & Hl & Hd). rewrite Hl, !app_assoc in Hexec.
    apply (split_after is_exec) in Hexec as (a & -> & Ha); [| |done].
    + destruct a as [|? a]; [|by destruct a]. injection Ha as <- <- <-. rewrite app_nil_r, <- !app_assoc.
      exists uid, gid, ready_events, (clone_calls (FileDescriptors p) 0), p'.
      split_and!; try done; [by eapply user_ids_positive|intros; by apply Z.mod_small| |].
      * intros c. unfold ready_events. destruct SdWatchdogEnabled as [d|]; [|set_solver]. destruct (d =? 0); set_solver.
      * by intros u (fd & t & [?|?])%clone_calls_elem.
    + intros y [[Hy|Hy]%elem_of_app|Hy]%elem_of_app.
      * unfold ready_events in Hy. destruct SdWatchdogEnabled as [d|]; [destruct (d =? 0)|]; set_unfold in Hy;
          destruct_or? Hy; subst; cbn; tauto.
      * set_unfold in Hy. destruct_or? Hy; subst; cbn; tauto.
      * apply clone_calls_elem in Hy as (fd & t & [-> | ->]); cbn; tauto.
  - exfalso. apply (Hrun path args'). set_solver.
Qed.

(** *** The start of the proxy *)

Context `{P : Primitives}.

Definition all_listeners (p : Process) : list handle :=
  udpListeners (listeners p) ++ tcpListeners (listeners p) ++ localDoHListeners (listeners p).
Definition is_accept (e : event) : Prop := match e with EvAccept _ => True | _ => False end.
Definition plugin_names (px : Proxy) : list plugin_name :=
  let o := plugin_options px in query_chain o ++ response_chain o ++ logging_chain o.

(** What has happened when the first client is accepted. *)
Definition prepared (pidFile : bytes) (px : Proxy) (key : ClientKey) : list event :=
  [EvLoaded px; EvPidFile (PidFileCreate MkdirAll WriteFile_ Getpid pidFile); EvPlugins (plugin_names px);
   EvHotReload (InitHotReload_ok px); EvKey key; EvNetMonitor] ++
  (if mu_Enabled (sp_monitoringUI (px_params px)) then [EvMonitoring] else []).

(** The end of [StartProxy], once clients are accepted. *)
Definition start_end (live : Z) (px : Proxy) (p : Process) : Run Process :=
  (if px_child px then rret tt else ServiceManagerReadyNotify) ~~;
  emit (EvRefreshed live) ~~;
  (if px_showCerts px then exit else rret tt) ~~;
  emit EvSourcesTask ~~;
  (if (0 <? length (registeredServers (rg_serversInfo (px_registry px))))%nat then emit EvRefreshTask else rret tt) ~~;
  rret p.

Lemma start_end_run live px p l r : start_end live px p = (l, r) ->
  (forall e, e ∈ l -> ~ is_accept e) /\
  (px_child px = true -> forall e, e ∈ l -> e <> EvReady /\ forall i, e <> EvWatchdog i) /\
  (px_child px = false -> EvReady ∈ l) /\ forall p', r = Some p' -> p' = p.
Proof.
  unfold start_end. rewrite ReadyNotify_run. unfold ready_events. intros H.
  destruct (px_child px), SdWatchdogEnabled as [d|], (px_showCerts px), (0 <? length _)%nat; try destruct (d =? 0);
    cbn in H; injection H as <- <-; split_and!; intros; set_unfold;
    repeat match goal with H : _ \/ _ |- _ => destruct H | H : _ /\ _ |- _ => destruct H end; naive_solver.
Qed.

Lemma app_loaded_run live pidFile px p l r : app_loaded live pidFile px p = (l, r) ->
  (r = None /\ (forall e, e ∈ l -> ~ is_accept e) /\ forall i, EvWatchdog i ∉ l) \/
  exists key rest, initDNSCryptClientKey = Some key /\ forallb (plugin_Init_ok px) (plugin_names px) = true /\
    l = prepared pidFile px key ++ (EvAccept <$> all_listeners p) ++ rest /\ (forall e, e ∈ rest -> ~ is_accept e) /\
    (px_child px = true -> forall e, e ∈ rest -> e <> EvReady /\ forall i, e <> EvWatchdog i) /\
    (px_child px = false -> EvReady ∈ rest) /\
    forall p', r = Some p' -> p' = set_listeners no_listeners p.
Proof.
  unfold app_loaded. intros (l1 & -> & H)%emit_inv. apply emit_inv in H as (l2 & -> & H).
  unfold init_plugins in H. fold (plugin_names px) in H. destruct (forallb _ _) eqn:Ef.
  2:{ injection H as <- <-. left. split_and!; [done| |set_solver]. intros e He. set_unfold in He. destruct_or? He; subst; cbn; tauto. }
  apply emit_inv in H as (l3 & -> & H). apply emit_inv in H as (l4 & -> & H). unfold StartProxy in H.
  apply or_fatal_inv in H as [(key & Hk & H)|[-> ->]].
  2:{ left. split_and!; [done| |set_solver]. intros e He. set_unfold in He. destruct_or? He; subst; cbn; tauto. }
  apply emit_inv in H as (l5 & -> & H). apply emit_inv in H as (l6 & -> & H). right.
  apply rbind_inv in H as [(lm & [] & l7 & Hm & H & ->)|[Hm _]]; [|by destruct (mu_Enabled _)].
  assert (lm = if mu_Enabled (sp_monitoringUI (px_params px)) then [EvMonitoring] else []) as ->
    by (destruct (mu_Enabled _); by injection Hm).
  apply rbind_inv in H as [(la & q & l8 & Ha & H & ->)|[Ha _]]; unfold startAcceptingClients in Ha;
    rewrite emit_all_run in Ha; [|done]. cbn in Ha. injection Ha as <- <-. rewrite app_nil_r.
  exists key, l8. assert (Hend := start_end_run _ _ _ _ _ H). destruct Hend as (H1 & H2 & H3 & H4). split_and!; try done.
Qed.

(** The watchdog of the service manager: the process that changes the user starts the task that feeds it, and then
    executes the program again, which ends the task; the new process, a child, never starts it. *)
Lemma watchdog_lost userStr args p l p' d : dropPrivilege userStr args p = (l, Some p') -> SdWatchdogEnabled = Some d -> d <> 0 ->
  EvWatchdog (go_div d 3) ∈ l /\
  forall live pidFile px q l' r', px_child px = true -> app_loaded live pidFile px q = (l', r') -> forall i, EvWatchdog i ∉ l'.
Proof.
  intros Hd Hw Hne. split.
  - apply dropPrivilege_run in Hd as (uid & gid & path & _ & _ & -> & _). apply elem_of_app. left.
    unfold ready_events. rewrite Hw. destruct (Z.eqb_spec d 0); [done|]. set_solver.
  - intros live pidFile px q l' r' Hc H i. destruct (app_loaded_run _ _ _ _ _ _ H) as [(_ & _ & Hq)|(key & rest & _ & _ & -> & _ & Hr & _ & _)];
      [done|]. rewrite !elem_of_app. intros [Hin|[Hin|Hin]].
    + unfold prepared in Hin. destruct (mu_Enabled _); set_unfold in Hin; by destruct_or? Hin.
    + by apply list_elem_of_fmap in Hin as (? & [=] & _).
    + destruct (Hr Hc _ Hin) as [_ Hi]. by apply (Hi i).
Qed.
End start.

(** With [user_name], the service manager is told that the proxy is ready by the process that opens the sockets,
    which accepts no client; the one that does is only started after it, and tells nothing. *)
Lemma ready_before_clients `{SY : System} userStr args p l p' : dropPrivilege userStr args p = (l, Some p') ->
  exists l1 path args', l = EvReady :: l1 ++ [EvCall (Exec path args')] /\ forall h, EvAccept h ∉ l.
Proof.
  intros (uid & gid & path & _ & _ & -> & _)%dropPrivilege_run.
  destruct (ready_events ++ _) as [|x l1] eqn:E; [by unfold ready_events in E|].
  assert (x = EvReady) as -> by (unfold ready_events in E; by injection E).
  rewrite !app_assoc in E.
  match type of E with ?a ++ ?b = _ => assert (exists c, a = EvReady :: c) as [c Hc] end.
  { unfold ready_events. by eexists. }
  rewrite Hc in E. injection E as <-. exists c, path. eexists. split; [done|].
  intros h Hin. rewrite app_comm_cons, <-Hc in Hin. rewrite <-!app_assoc in Hin.
  apply elem_of_app in Hin as [Hin|Hin].
  - unfold ready_events in Hin. destruct SdWatchdogEnabled as [d|]; [destruct (d =? 0)|]; set_solver.
  - apply elem_of_app in Hin as [Hin|[Hin|Hin]%elem_of_app]; [set_solver| |set_solver].
    by apply clone_calls_elem in Hin as (fd & t & [?|?]).
Qed.

(** *** Runs that accept no client *)

Definition quiet {A} (m : Run A) : Prop := forall e, e ∈ m.1 -> ~ is_accept e.

Lemma quiet_bind {A B} (m : Run A) (k : A -> Run B) : quiet m -> (forall a, quiet (k a)) -> quiet (rbind m k).
Proof.
  unfold quiet, rbind. destruct m as [l [a|]]; cbn; [|done]. intros H1 H2. specialize (H2 a). destruct (k a) as [l' r]; cbn in *.
  intros e [He|He]%elem_of_app; auto.
Qed.

Lemma quiet_ret {A} (a : A) : quiet (rret a).
Proof. by intros e ?%not_elem_of_nil. Qed.
Lemma quiet_none {A} : quiet (([], None) : Run A).
Proof. by intros e ?%not_elem_of_nil. Qed.
Lemma quiet_one {A} ev (r : option A) : ~ is_accept ev -> quiet ([ev], r).
Proof. by intros H e ->%list_elem_of_singleton. Qed.
Lemma quiet_fatal {A} : quiet (fatal : Run A).
Proof. apply quiet_one; cbn; tauto. Qed.
Lemma quiet_exit {A} : quiet (exit : Run A).
Proof. apply quiet_one; cbn; tauto. Qed.
Lemma quiet_emit ev : ~ is_accept ev -> quiet (emit ev).
Proof. apply quiet_one. Qed.
Lemma quiet_or_fatal {A} (o : option A) : quiet (or_fatal o).
Proof. destruct o; [apply quiet_ret|apply quiet_fatal]. Qed.
Lemma quiet_guard b : quiet (guard_fatal b).
Proof. destruct b; [apply quiet_ret|apply quiet_fatal]. Qed.
Lemma quiet_syscall `{SY : System} c : quiet (syscall c).
Proof. unfold syscall. destruct (syscall_ok c); apply quiet_one; cbn; tauto. Qed.
Lemma quiet_if {A} (b : bool) (m m' : Run A) : quiet m -> quiet m' -> quiet (if b then m else m').
Proof. by destruct b. Qed.

Create HintDb quiet.
#[local] Hint Resolve quiet_bind quiet_ret quiet_none quiet_fatal quiet_exit quiet_emit quiet_or_fatal quiet_guard quiet_syscall quiet_if : quiet.
#[local] Hint Extern 1 (~ is_accept _) => cbn; tauto : quiet.

Lemma quiet_clone `{SY : System} fds : forall i t, quiet (clone_files fds i t).
Proof. induction fds as [|fd fds IH]; intros i t; cbn [clone_files]; auto 10 with quiet. Qed.
#[local] Hint Resolve quiet_clone : quiet.

Lemma quiet_ready `{SY : System} : quiet ServiceManagerReadyNotify.
Proof. unfold ServiceManagerReadyNotify, systemDWatchdog. auto 10 with quiet. Qed.
#[local] Hint Resolve quiet_ready : quiet.

Lemma quiet_drop `{SY : System} userStr args p : quiet (dropPrivilege userStr args p).
Proof. unfold dropPrivilege. auto 20 with quiet. Qed.
#[local] Hint Resolve quiet_drop : quiet.

Lemma quiet_load `{SY : System} {A} user args (res : result config_error A) p : quiet (after_load user args res p).
Proof. destruct res as [a|e]; cbn; [auto with quiet|]. destruct e; auto with quiet. Qed.

Lemma quiet_config `{CF : ConfigFiles} file cwd b : quiet (read_config file cwd b).
Proof. unfold read_config. destruct (findConfigFile _ _ _ _ _ _) as [o c]. auto 10 with quiet. Qed.

(** The steps before the settings are used do nothing when they succeed. *)
Lemma read_config_run `{CF : ConfigFiles} file cwd b l d : read_config file cwd b = (l, Some d) -> l = [].
Proof.
  unfold read_config. destruct (findConfigFile _ _ _ _ _ _) as [[path|] c]; [|done]. cbn.
  destruct (DecodeFile path); [|done]. destruct b; [done|]. cbn. destruct (cdFileDir _ _); [|done]. by intros [= <- _].
Qed.

Lemma after_load_run `{SY : System} {A} user args (res : result config_error A) p l a :
  after_load user args res p = (l, Some a) -> l = [] /\ res = Ok a.
Proof.
  destruct res as [b|e]; cbn; [by intros [= <- ->]|]. destruct e; try done. unfold rbind.
  by destruct (dropPrivilege _ _ _) as [l1 [q|]].
Qed.

Section run.
Context {S E : Type} `{HE : !HttpEnv S} `{PE : !ProbeEnv E} `{D : DnsLib} `{P : Primitives} `{TE : TlsEnv} `{SY : System} `{CF : ConfigFiles}.
Context (unicode_lower : bytes -> bytes) (unicode_equal_fold : bytes -> bytes -> bool).
Context (parse_hostname : bytes -> option bytes) (proxy_usable : bytes -> bool) (can_open_log : bytes -> bool).
Context (io_fails : nat -> bool) (verify : bytes -> bytes -> bytes -> bool).
Context (parseURL : bytes -> option URL) (valid_key : bytes -> bool).
Context (shuffle : list bytes -> list bytes) (parse_stamp : bytes -> option ServerStamp) (stamp_String : ServerStamp -> bytes).
Context (range : nat -> forall A, gmap bytes A -> list (bytes * A)).
Context (resolves : bytes -> bytes -> bool) (can_open : handle -> bool) (fresh : gmap Z handle -> Z) (attempts : nat -> attempt).
Context (read_map : bytes -> option bytes) (systemd_files : list handle).
Context (ResolveAddr : proto -> bytes -> option SockAddr) (Sum256 : bytes -> bytes) (Verify : bytes -> bytes -> bytes -> bool).
Context (parse_configs : bytes -> option (list bytes)) (encrypt_config : bytes -> bytes -> E -> option ODoHQuery * E).
Context (cert_now : E -> Z) (cert_rnd : E -> bytes -> bytes).

Local Notation load := (ConfigLoad unicode_lower unicode_equal_fold parse_hostname proxy_usable can_open_log io_fails verify
  parseURL valid_key shuffle parse_stamp stamp_String range resolves can_open fresh attempts read_map systemd_files).
Local Notation app_main := (AppMain unicode_lower unicode_equal_fold parse_hostname proxy_usable can_open_log io_fails verify
  parseURL valid_key shuffle parse_stamp stamp_String range resolves can_open fresh attempts read_map systemd_files
  ResolveAddr Sum256 Verify parse_configs encrypt_config cert_now cert_rnd).

(** Before the configuration is loaded, nothing is accepted. *)
Lemma AppMain_run flags env file cwd pidFile resolve args e w l r :
  app_main flags env file cwd pidFile resolve args e w = (l, r) ->
  (r = None /\ forall ev, ev ∈ l -> ~ is_accept ev) \/
  exists config undecoded px w', load flags env undecoded config NewServersInfo w = (Ok px, w') /\
    app_loaded (first_refresh (S := S) parseURL parse_stamp stamp_String ResolveAddr Sum256 Verify parse_configs encrypt_config
      cert_now cert_rnd e w') pidFile px (lw_process w') = (l, r).
Proof.
  unfold AppMain. intros [(l1 & [config undecoded] & l2 & H1 & H & ->)|[H ->]]%rbind_inv.
  2:{ left. split; [done|]. intros ev Hev. apply (quiet_config file cwd resolve). by rewrite H. }
  apply read_config_run in H1 as ->. destruct (load flags env undecoded config NewServersInfo w) as [res w'] eqn:El.
  apply rbind_inv in H as [(l1 & px & l3 & H1 & H & ->)|[H ->]].
  - apply after_load_run in H1 as [-> ->]. right. by exists config, undecoded, px, w'.
  - left. split; [done|]. intros ev Hev. apply (quiet_load (c_UserName config) args res (lw_process w')). by rewrite H.
Qed.

(** C12: clients are served only when everything is in place, and by every listener.  When the program accepts clients
    on a socket, the configuration has been loaded, which is not the case in the process that opened sockets for another user nor
    for a command; the plugins of the configuration are initialised, in the order of the chains; the client has
    its key; and this process has not told the service manager yet that the proxy is ready.  The socket is one
    of those that were opened for the configuration.  If the program gets to the end of its start, every listener is
    served, and once; and the process has told the service manager, after that, that it is ready, unless it was started again by
    another process, as a child, in which case it never does ([ready_before_clients]: the other process has). *)
Theorem start_up flags env file cwd pidFile resolve args e w l r
  (Hrun : app_main flags env file cwd pidFile resolve args e w = (l, r)) :
  (forall l1 h l2, l = l1 ++ EvAccept h :: l2 ->
     exists config undecoded px w' key, load flags env undecoded config NewServersInfo w = (Ok px, w') /\
       (c_UserName config = [] \/ fl_Child flags = true) /\
       (fl_List flags = false /\ fl_ListAll flags = false /\ fl_Check flags = false) /\
       [EvLoaded px; EvPlugins (plugin_names px); EvKey key] `sublist_of` l1 /\
       Forall (fun name => plugin_Init_ok px name = true) (plugin_names px) /\ initDNSCryptClientKey = Some key /\
       EvReady ∉ l1 /\ h ∈ all_listeners (lw_process w')) /\
  (forall p', r = Some p' -> exists config undecoded px w', load flags env undecoded config NewServersInfo w = (Ok px, w') /\
     omap (fun ev => match ev with EvAccept h => Some h | _ => None end) l = all_listeners (lw_process w') /\
     all_listeners p' = [] /\ (EvReady ∈ l <-> px_child px = false)).
Proof.
  destruct (AppMain_run _ _ _ _ _ _ _ _ _ _ _ Hrun) as [[-> Hq]|(config & undecoded & px & w' & Hl & H)].
  { split; [|done]. intros l1 h l2 ->. destruct (Hq (EvAccept h)); [set_solver|done]. }
  destruct (app_loaded_run _ _ _ _ _ _ H) as [(-> & Hq & _)|(key & rest & Hk & Hp & -> & Hrest & Hchild & Hready & Hend)].
  { split; [|done]. intros l1 h l2 ->. destruct (Hq (EvAccept h)); [set_solver|done]. }
  assert (forall ev, ev ∈ prepared pidFile px key -> ~ is_accept ev) as Hpre.
  { intros ev Hev. unfold prepared in Hev. destruct (mu_Enabled _); set_unfold in Hev; destruct_or? Hev; subst; cbn; tauto. }
  split.
  - intros l1 h l2 Hs. apply (split_after is_accept) in Hs as (a & -> & Hs); [|done|done].
    apply (split_before is_accept) in Hs as (b & Ha & _); [|done|done].
    assert (Hld := ConfigLoad_loaded _ _ _ _ _ _ _ _ _ _ _ _ _ _ _ _ _ _ _ _ _ _ _ _ _ _ _ Hl).
    exists config, undecoded, px, w', key. assert (Hf := Hld). apply ld_flags in Hf as (F1 & F2 & F3).
    apply ld_user in Hld. split_and!; [done|done|done|done|done| | |done| |].
    + unfold prepared. cbn. apply sublist_skip, sublist_cons, sublist_skip, sublist_cons, sublist_skip, sublist_nil_l.
    + apply List.Forall_forall. intros name Hin. by apply (proj1 (forallb_forall _ _) Hp).
    + intros [Hr|Hr]%elem_of_app.
      * unfold prepared in Hr. destruct (mu_Enabled _); set_unfold in Hr; by destruct_or? Hr.
      * assert (EvReady ∈ EvAccept <$> all_listeners (lw_process w')) as (? & [=] & _)%list_elem_of_fmap by (rewrite Ha; set_solver).
    + assert (EvAccept h ∈ EvAccept <$> all_listeners (lw_process w')) as (? & [= ->] & ?)%list_elem_of_fmap by (rewrite Ha; set_solver).
      done.
  - intros p' Hp'. exists config, undecoded, px, w'. split_and!; [done| |by rewrite (Hend _ Hp')|].
    2:{ split; [|intros Hc; rewrite !elem_of_app; auto]. intros [Hr|[Hr|Hr]%elem_of_app]%elem_of_app.
        - unfold prepared in Hr. destruct (mu_Enabled _); set_unfold in Hr; by destruct_or? Hr.
        - by apply list_elem_of_fmap in Hr as (? & [=] & _).
        - destruct (px_child px); [|done]. by destruct (Hchild eq_refl _ Hr). }
    rewrite !omap_app. replace (omap _ (prepared pidFile px key)) with (@nil handle) by (unfold prepared; by destruct (mu_Enabled _)).
    assert (omap (fun ev => match ev with EvAccept h => Some h | _ => None end) rest = []) as ->.
    { clear -Hrest. induction rest as [|ev rest IH]; [done|]. cbn. rewrite IH by (intros; apply Hrest; set_solver).
      assert (Hn := Hrest ev ltac:(set_solver)). by destruct ev. }
    rewrite app_nil_r. cbn [app]. clear. generalize (all_listeners (lw_process w')) as hs.
    induction hs as [|h hs IH]; [done|]. cbn. by f_equal.
Qed.
End run.

(** ** Examples *)

(** A system where [nobody] has the numbers 65534, and the watchdog is on. *)
#[local] Instance ex_system (root : bool) : System := {
  Geteuid := if root then 0 else 1000;
  user_Lookup u := if bool_decide (u = str "nobody") then Some (str "65534", str "65534") else None;
  LookPath a := Some (str "/usr/bin/" ++ a);
  filepath_Abs p := Some p;
  syscall_ok _ := true;
  SdWatchdogEnabled := Some (30 * Second);
  MkdirAll _ := true;
  WriteFile_ _ _ := true;
  Remove_ _ := true;
  Getpid := 42;
  crypto_rand := Some (replicate 32 7);
  plugin_Init_ok _ _ := true;
  InitHotReload_ok _ := true;
}.

Definition ex_parent : Process :=
  {| table := {[5 := UdpSocket (str "udp4") (str "127.0.0.1:53")]}; FileDescriptors := [5]; FileDescriptorNum := 0; log_file := None;
     listeners := no_listeners |}.

Example ex_drop : (dropPrivilege (SY := ex_system true) (str "nobody") [str "dnscrypt-proxy"] ex_parent).1 =
  [EvReady; EvWatchdog (10 * Second); EvCall Setgroups; EvCall (Setgid 65534); EvCall (Setuid 65534);
   EvCall (Dup2 5 50); EvCall (SetCloexec 5); EvCall (Exec (str "/usr/bin/dnscrypt-proxy") [str "dnscrypt-proxy"; str "-child"])].
Proof. by vm_compute. Qed.

Example ex_not_root : dropPrivilege (SY := ex_system false) (str "nobody") [str "dnscrypt-proxy"] ex_parent = ([EvFatal], None).
Proof. by vm_compute. Qed.

(** A number of a user that does not fit in 32 bits is accepted, and the kernel gets the number of root. *)
Lemma root_after_all : exists p', dropPrivilege (SY := ex_system true) (str "4294967296") [str "dnscrypt-proxy"] ex_parent =
  ([EvReady; EvWatchdog (10 * Second); EvCall Setgroups; EvCall (Setgid 0); EvCall (Setuid 0);
    EvCall (Dup2 5 50); EvCall (SetCloexec 5); EvCall (Exec (str "/usr/bin/dnscrypt-proxy") [str "dnscrypt-proxy"; str "-child"])],
   Some p').
Proof. eexists. vm_compute. reflexivity. Qed.

Lemma privileges_dropped_witness : exists l p', dropPrivilege (SY := ex_system true) (str "12") [str "d"] ex_parent = (l, Some p') /\
  Listeners.dropPrivilege true ex_parent = Some p' /\
  exists uid gid, user_ids (SY := ex_system true) (str "12") = Some (uid, gid) /\ 0 < uid.
Proof.
  assert (exists l p' l1 path args', dropPrivilege (SY := ex_system true) (str "12") [str "d"] ex_parent = (l, Some p') /\
    l = l1 ++ EvCall (Exec path args') :: []) as (l & p' & l1 & path & args' & H & Hl).
  { eexists _, _, (take 7 (dropPrivilege (SY := ex_system true) (str "12") [str "d"] ex_parent).1), (str "/usr/bin/d"), [str "d"; str "-child"].
    split; [vm_compute; reflexivity|vm_compute; reflexivity]. }
  destruct (privileges_dropped (SY := ex_system true) _ _ _ _ _ _ _ _ _ H Hl) as (uid & gid & b & f & q & H1 & _ & H2 & _ & _ & _ & _ & _ & _ & H3 & H4).
  exists l, p'. split; [exact H|]. injection H3 as ->. split; [exact H4|]. exists uid, gid. split; [exact H1|]. by apply H2.
Defined.

Local Notation ex_range := (fun (_ : nat) (A : Type) (m : gmap bytes A) => map_to_list m).
Local Notation ex_config := (sample_config [] no_mds [] {[str "home" := {| sc_Stamp := str "sdns://home" |}]}
  {[str "public" := ex_section]}).

#[local] Instance ex_config_files : ConfigFiles := {
  stat_in cwd file := if bool_decide (cwd = str "/opt/proxy") then Exists else NotExist;
  Executable := Some (str "/opt/proxy/dnscrypt-proxy");
  Chdir _ := true;
  getwd_ok := true;
  DecodeFile path := if bool_decide (path = str "/opt/proxy/dnscrypt-proxy.toml") then Some (ex_config, []) else None;
}.

Local Notation ex_main := (AppMain (HE := ex_http) (PE := ex_probes) (D := ex_test_lib) (P := toy) (TE := ex_tls) (SY := ex_system false)
  (CF := ex_config_files) id (fun _ _ => false) (fun _ => None) (fun _ => true) (fun _ => true) (fun _ => false) ex_verify
  (fun _ => None) (fun _ => true) id ex_stamps ServerAddrStr ex_range (fun _ _ => true) (fun _ => true) (fun _ => 5) (fun _ => Connected)
  (fun _ => None) [] (fun _ _ => None) (fun c => c) (fun _ _ _ => true) (fun _ => None) (fun _ _ e => (None, e)) (fun _ => 0) (fun _ _ => [])
  ex_flags false (str "dnscrypt-proxy.toml") (str "/home/user") (str "/run/proxy.pid") false [str "dnscrypt-proxy"] tt ex_lworld).

Definition accepted (l : list event) : list handle := omap (fun ev => match ev with EvAccept h => Some h | _ => None end) l.

Lemma ex_main_run : exists l p', ex_main = (l, Some p') /\
  accepted l = [UdpSocket (str "udp4") (str "127.0.0.1:53"); TcpSocket (str "tcp4") (str "127.0.0.1:53")].
Proof. eexists _, _. split; vm_compute; reflexivity. Qed.

Lemma start_up_witness : exists l p', ex_main = (l, Some p') /\ all_listeners p' = [] /\
  forall l1 h l2, l = l1 ++ EvAccept h :: l2 -> EvReady ∉ l1.
Proof.
  destruct ex_main_run as (l & p' & H & _). exists l, p'. split; [exact H|].
  destruct (start_up (HE := ex_http) (PE := ex_probes) (D := ex_test_lib) (P := toy) (TE := ex_tls) (SY := ex_system false)
    (CF := ex_config_files) _ _ _ _ _ _ _ _ _ _ _ _ _ _ _ _ _ _ _ _ _ _ _ _ _ _ _ _ _ _ _ _ _ _ _ _ _ H) as [H1 H2].
  split.
  - destruct (H2 _ eq_refl) as (? & ? & ? & ? & _ & _ & H3 & _). exact H3.
  - intros l1 h l2 Hl. destruct (H1 _ _ _ Hl) as (? & ? & ? & ? & ? & _ & _ & _ & _ & _ & _ & H3 & _). exact H3.
Defined.
