(* ===== verification/Resolve.v ===== *)
(** * The resolve command (src/dnscrypt-proxy/resolve.go)

    [Resolve] asks a resolver about itself and about a name, and prints what it learns.  The
    state is what the network is left in, the text that was printed and the queries that were
    sent.  A block of the source that is left by [break] is a definition of its own.

    How many queries it sends, to whom, and about what. *)

From S2P Require Import Prelude GoStrings NetIP Common Crypto Dns DnsUtils Metrics RuleLog.

Definition myResolverHost : bytes := str "resolver.dnscrypt.info.".
Definition nonexistentName : bytes := str "nonexistent-zone.dnscrypt-test.".
Definition bogusDNSSECName : bytes := str "dnssec-failed.org.".

(** [strings.CutPrefix]. *)
Definition CutPrefix (s p : bytes) : option bytes := if HasPrefix s p then Some (drop (length p) s) else None.

(** A query over UDP, with the time it is given. *)
Record Asked := { as_server : bytes; as_timeout : Duration; as_msg : Msg }.

Section resolve.
(** The network: errors may be timeouts, and have a text. *)
Context {S X : Type} (exchange : Msg -> Duration -> bytes -> S -> result X Msg * S) (newID : S -> Z * S).
Context (Timeout : X -> bool) (error_text : X -> bytes).
(** The names of response codes, and the parameters of an HTTPS record as the library prints them. *)
Context (RcodeToString : Z -> bytes) (https_values : RR -> list (bytes * bytes)).

Record RWorld := { r_env : S; r_out : bytes; r_asked : list Asked }.
Definition M (A : Type) : Type := RWorld -> A * RWorld.
Definition mret {A} (a : A) : M A := fun w => (a, w).
Definition mbind' {A B} (m : M A) (k : A -> M B) : M B := fun w => let '(a, w) := m w in k a w.
Local Notation "x <=~ m ;; k" := (mbind' m (fun x => k)) (at level 100, m at next level, right associativity).
Local Notation "m ~;; k" := (mbind' m (fun _ => k)) (at level 100, right associativity).

Definition print (s : bytes) : M unit := fun w =>
  (tt, {| r_env := r_env w; r_out := r_out w ++ s; r_asked := r_asked w |}).
Definition println (s : bytes) : M unit := print (s ++ [10]).

(** One exchange, which is recorded. *)
Definition ask (server : bytes) (readTimeout : Duration) (msg : Msg) : M (result X Msg) := fun w =>
  let '(r, e) := exchange msg readTimeout server (r_env w) in
  (r, {| r_env := e; r_out := r_out w;
         r_asked := r_asked w ++ [{| as_server := server; as_timeout := readTimeout; as_msg := msg |}] |}).
Definition draw_id : M Z := fun w =>
  let '(id, e) := newID (r_env w) in (id, {| r_env := e; r_out := r_out w; r_asked := r_asked w |}).

(** ** A query *)

Inductive resolve_error := RTimeout | RError (e : X).

Definition resolve_error_text (e : resolve_error) : bytes :=
  match e with RTimeout => str "Timeout" | RError e => error_text e end.

(** The record types that are asked for are all known to the library. *)
Definition query_msg (qName : bytes) (qType : Z) (sendClientSubnet : bool) : Msg :=
  let msg := set_header (set_EDNS (uint16 MaxDNSPacketSize) true) (NewMsg 0 qName qType) in
  if sendClientSubnet then set_Pseudo [PS_SUBNET 1 24 0 (v4_in_v6_prefix ++ [93; 184; 216; 0])] msg else msg.

Fixpoint query_loop (n : nat) (server : bytes) (msg : Msg) (readTimeout : Duration) : M (result resolve_error Msg) :=
  match n with
  | O => mret (Err RTimeout)
  | Datatypes.S n' =>
      id <=~ draw_id ;;
      let msg := set_header (set_ID id) msg in
      r <=~ ask server readTimeout msg ;;
      match r with
      | Ok response => mret (Ok response)
      | Err e => if Timeout e then query_loop n' server msg (readTimeout * 2) else mret (Err (RError e))
      end
  end.

Definition resolveQuery (server qName : bytes) (qType : Z) (sendClientSubnet : bool) : M (result resolve_error Msg) :=
  query_loop 3 server (query_msg qName qType sendClientSubnet) (2 * Second).

(** ** The resolver *)

(** What one TXT record says: the address of the resolver, and the client subnet. *)
Definition txt_info (acc : bytes * bytes) (txt : bytes) : bytes * bytes :=
  match CutPrefix txt (str "Resolver IP: ") with
  | Some after => (after, acc.2)
  | None =>
      match CutPrefix txt (str "EDNS0 client subnet: ") with
      | Some after => (acc.1, after)
      | None => acc
      end
  end.

(** A record of class IN with this content. *)
Definition in_class (answer : RR) : bool := Class_ (hdr answer) =? ClassINET.

Definition ptr_of (answer : RR) : option bytes :=
  match data answer with RD_PTR ptr => if in_class answer then Some ptr else None | _ => None end.

(** The loop over the answers: the addresses with their names, and the client subnet. *)
Fixpoint resolver_loop (server : bytes) (answers : list RR) (res : list bytes) (clientSubnet : bytes)
    : M (list bytes * bytes) :=
  match answers with
  | [] => mret (res, clientSubnet)
  | answer :: answers' =>
      match data answer with
      | RD_TXT txts =>
          if negb (in_class answer) then resolver_loop server answers' res clientSubnet
          else
            let '(ip, clientSubnet) := foldl txt_info ([], clientSubnet) txts in
            if bool_decide (ip = []) then resolver_loop server answers' res clientSubnet
            else match reverseAddr ip with
            | None => resolver_loop server answers' (res ++ [ip]) clientSubnet
            | Some rev =>
                r <=~ resolveQuery server rev TypePTR false ;;
                match r with
                | Err _ => mret (res, clientSubnet)
                | Ok response =>
                    let ip := match omap ptr_of (Answer response) with
                              | ptr :: _ => ip ++ str " (" ++ ptr ++ str ")"
                              | [] => ip
                              end in
                    resolver_loop server answers' (res ++ [ip]) clientSubnet
                end
            end
      | _ => resolver_loop server answers' res clientSubnet
      end
  end.

Definition print_list (l : list bytes) : M unit := println (match l with [] => str "-" | _ => Join l (str ", ") end).

(** The client subnet that the resolver reports; [None] ends the program. *)
Definition resolver_block (server : bytes) : M (option bytes) :=
  r <=~ resolveQuery server myResolverHost TypeTXT true ;;
  match r with
  | Err e => println (str "Unable to resolve: [" ++ resolve_error_text e ++ str "]") ~;; mret None
  | Ok response =>
      print (str "Resolver      : ") ~;;
      res <=~ resolver_loop server (Answer response) [] [] ;;
      print_list res.1 ~;; mret (Some res.2)
  end.

Definition dnssec_text (validatesDenial rejectsBogus : bool) : bytes :=
  if validatesDenial && rejectsBogus then str "yes, the resolver supports DNSSEC"
  else if rejectsBogus then
    str "incomplete, the resolver rejects bogus signatures but doesn't validate authenticated denial of existence"
  else if validatesDenial then
    str "incomplete, the resolver validates authenticated denial of existence but accepts bogus signatures"
  else str "no, the resolver doesn't support DNSSEC".

Definition single_block (server clientSubnet : bytes) : M unit :=
  print (str "Lying         : ") ~;;
  r <=~ resolveQuery server nonexistentName TypeA false ;;
  match r with
  | Err e => print (str "[" ++ resolve_error_text e ++ str "]")
  | Ok response =>
      let rcode := Rcode_ (MH response) in
      (if rcode =? RcodeSuccess then println (str "yes. That resolver returns wrong responses")
       else if rcode =? RcodeNameError then println (str "no")
       else println (str "unknown - query returned " ++ RcodeToString rcode)) ~;;
      (if rcode =? RcodeNameError then
         print (str "DNSSEC        : ") ~;;
         bogus <=~ resolveQuery server bogusDNSSECName TypeA false ;;
         let rejectsBogus := match bogus with Ok b => Rcode_ (MH b) =? RcodeServerFailure | Err _ => false end in
         println (dnssec_text (AuthenticatedData (MH response)) rejectsBogus)
       else mret tt) ~;;
      print (str "ECS           : ") ~;;
      println (if bool_decide (clientSubnet <> []) then str "client network address is sent to authoritative servers"
               else str "ignored or selective")
  end.

(** ** The name *)

Definition cname_of (answer : RR) : option bytes :=
  match data answer with RD_CNAME target => if in_class answer then Some target else None | _ => None end.

(** The last name of the chain, and whether every query was answered. *)
Fixpoint cname_loop (n : nat) (server cname : bytes) : M (bytes * bool) :=
  match n with
  | O => mret (cname, true)
  | Datatypes.S n' =>
      r <=~ resolveQuery server cname TypeCNAME false ;;
      match r with
      | Err _ => mret (cname, false)
      | Ok response =>
          match omap cname_of (Answer response) with
          | target :: _ => cname_loop n' server target
          | [] => mret (cname, true)
          end
      end
  end.

Definition cname_block (server cname : bytes) : M bytes :=
  print (str "Canonical name: ") ~;;
  r <=~ cname_loop 100 server cname ;;
  (if r.2 then println r.1 else mret tt) ~;; mret r.1.

(** A block that asks for records of one type, and prints something about the response. *)
Definition record_block (label server cname : bytes) (qType : Z) (show : Msg -> M unit) : M unit :=
  print label ~;;
  r <=~ resolveQuery server cname qType false ;;
  match r with Err _ => mret tt | Ok response => show response end.

Definition records (f : RR -> option bytes) (response : Msg) : list bytes :=
  omap (fun answer => if in_class answer then f answer else None) (Answer response).

Definition ipv4_block (server cname : bytes) : M unit :=
  record_block (str "IPv4 addresses: ") server cname TypeA (fun response =>
    print_list (records (fun a => match data a with RD_A addr => Some (ip_String addr) | _ => None end) response)).
Definition ipv6_block (server cname : bytes) : M unit :=
  record_block (str "IPv6 addresses: ") server cname TypeAAAA (fun response =>
    print_list (records (fun a => match data a with RD_AAAA addr => Some (ip_String addr) | _ => None end) response)).

Definition ns_block (server cname : bytes) : M unit :=
  record_block (str "Name servers  : ") server cname TypeNS (fun response =>
    let nss := records (fun a => match data a with RD_NS ns => Some ns | _ => None end) response in
    let rcode := Rcode_ (MH response) in
    (if rcode =? RcodeNameError then println (str "name does not exist")
     else if negb (rcode =? RcodeSuccess) then print (str "server returned " ++ RcodeToString rcode)
     else match nss with [] => println (str "no name servers found") | _ => println (Join nss (str ", ")) end) ~;;
    print (str "DNSSEC signed : ") ~;;
    println (if AuthenticatedData (MH response) then str "yes" else str "no")).

Definition mx_block (server cname : bytes) : M unit :=
  record_block (str "Mail servers  : ") server cname TypeMX (fun response =>
    let mxs := records (fun a => match data a with RD_MX _ mx => Some mx | _ => None end) response in
    if len mxs =? 0 then println (str "no mail servers found")
    else if len mxs >? 1 then println (fmt_d (len mxs) ++ str " mail servers found")
    else println (str "1 mail server found")).

Definition https_alias (answer : RR) : option bytes :=
  match data answer with
  | RD_HTTPS priority target => if negb (priority =? 0) || (len target <? 2) then None else Some target
  | _ => None
  end.
Definition https_info (answer : RR) : list bytes :=
  match data answer with
  | RD_HTTPS priority target =>
      if negb (in_class answer) || (priority =? 0) || (len target >? 1) then []
      else (fun '(k, v) => str "[" ++ k ++ str "]=[" ++ v ++ str "]") <$> https_values answer
  | _ => []
  end.
Definition https_block (server cname : bytes) : M unit :=
  record_block (str "HTTPS alias   : ") server cname TypeHTTPS (fun response =>
    print_list (records https_alias response) ~;;
    print (str "HTTPS info    : ") ~;;
    print_list (Answer response ≫= https_info)).

Definition hinfo_block (server cname : bytes) : M unit :=
  record_block (str "Host info     : ") server cname TypeHINFO (fun response =>
    print_list (records (fun a => match data a with RD_HINFO cpu os => Some (cpu ++ str " " ++ os) | _ => None end) response)).
Definition txt_block (server cname : bytes) : M unit :=
  record_block (str "TXT records   : ") server cname TypeTXT (fun response =>
    print_list (records (fun a => match data a with RD_TXT txt => Some (Join txt (str " ")) | _ => None end) response)).

(** ** The command *)

(** The address of the resolver: one that listens everywhere is asked locally. *)
Definition resolver_host (host : bytes) : bytes :=
  if bool_decide (host = str "0.0.0.0") then str "127.0.0.1"
  else if bool_decide (host = str "[::]") then str "[::1]" else host.

(** The arguments: a resolver may follow the name. *)
Definition resolve_args (server name : bytes) (singleResolver : bool) : bytes * bytes * bool :=
  match IndexByte name 44 with
  | Some i => (drop (i + 1) name, take i name, true)
  | None => (server, name, singleResolver)
  end.

(** Whether the program goes on, or ends with an error. *)
Definition Resolve (server name : bytes) (singleResolver : bool) : M bool :=
  let '(server, name, singleResolver) := resolve_args server name singleResolver in
  let '(host, port) := ExtractHostAndPort server 53 in
  let host := resolver_host host in
  let server := host ++ str ":" ++ fmt_d port in
  println (str "Resolving [" ++ name ++ str "] using " ++ host ++ str " port " ++ fmt_d port) ~;;
  println [] ~;;
  let name := fqdn name in
  subnet <=~ resolver_block server ;;
  match subnet with
  | None => mret false
  | Some clientSubnet =>
      (if singleResolver then single_block server clientSubnet else mret tt) ~;;
      println [] ~;;
      cname <=~ cname_block server name ;;
      println [] ~;;
      ipv4_block server cname ~;; ipv6_block server cname ~;;
      println [] ~;;
      ns_block server cname ~;; mx_block server cname ~;;
      println [] ~;;
      https_block server cname ~;;
      println [] ~;;
      hinfo_block server cname ~;; txt_block server cname ~;;
      println [] ~;; mret true
  end.
End resolve.

(** ** Properties *)

(** The address that queries are sent to. *)
Definition server_of (server : bytes) : bytes :=
  let '(host, port) := ExtractHostAndPort server 53 in resolver_host host ++ str ":" ++ fmt_d port.

Section resolve.
Context {S X : Type} (exchange : Msg -> Duration -> bytes -> S -> result X Msg * S) (newID : S -> Z * S).
Context (Timeout : X -> bool) (error_text : X -> bytes).
Context (RcodeToString : Z -> bytes) (https_values : RR -> list (bytes * bytes)).

Local Notation W := (RWorld (S := S)).
Local Notation M := (M (S := S)).
Local Notation resolveQuery := (resolveQuery exchange newID Timeout).
Local Notation resolver_loop := (resolver_loop exchange newID Timeout).
Local Notation Resolve := (Resolve exchange newID Timeout error_text RcodeToString https_values).

(** ** Counting queries *)

Definition asked_type (a : Asked) : Z := default 0 (q_Type <$> head (Questions (as_msg a))).
Definition asked_name (a : Asked) : bytes := default [] (q_Name <$> head (Questions (as_msg a))).
(** The queries that are not for names of addresses. *)
Definition main_queries (l : list Asked) : nat := length (filter (fun a => asked_type a <> TypePTR) l).

(** A computation only sends queries with [P], at most [n] of them main ones, and its result has [R]. *)
Definition sends {A} (P : Asked -> Prop) (n : nat) (R : A -> Prop) (m : M A) : Prop := forall w : W,
  R (m w).1 /\ exists l, r_asked (m w).2 = r_asked w ++ l /\ Forall P l /\ (main_queries l <= n)%nat.

Lemma rsends_ret {A} P n (R : A -> Prop) a : R a -> sends P n R (mret a).
Proof. intros Ha w. split; [done|]. exists []. split_and!; [by rewrite app_nil_r|done|apply Nat.le_0_l]. Qed.

Lemma sends_print P n s : sends P n (fun _ => True) (print s).
Proof. intros w. split; [done|]. exists []. split_and!; [by rewrite app_nil_r|done|apply Nat.le_0_l]. Qed.

Lemma rsends_bind {A B} P n k R (Q : B -> Prop) (m : M A) (f : A -> M B) :
  sends P n R m -> (forall a, R a -> sends P k Q (f a)) -> sends P (n + k) Q (mbind' m f).
Proof.
  intros Hm Hf w. unfold mbind'. destruct (Hm w) as (Ha & l1 & E1 & H1 & N1). destruct (m w) as [a w1]. cbn in Ha, E1.
  destruct (Hf a Ha w1) as (Hb & l2 & E2 & H2 & N2). split; [done|]. exists (l1 ++ l2).
  rewrite E2, E1, app_assoc. split_and!; [done|by apply Forall_app|].
  unfold main_queries in *. rewrite filter_app, length_app. lia.
Qed.

Lemma sends_weaken {A} (P Q : Asked -> Prop) n k (R R' : A -> Prop) (m : M A) : sends P n R m -> (forall a, P a -> Q a) ->
  (n <= k)%nat -> (forall a, R a -> R' a) -> sends Q k R' m.
Proof.
  intros Hm HP Hn HR w. destruct (Hm w) as (Ha & l & E & HF & N). split; [by apply HR|]. exists l.
  split_and!; [done|by eapply Forall_impl|lia].
Qed.

(** ** One query *)

(** A query with its attempts: the question, the server, and the times. *)
Definition attempt (server qName : bytes) (qType : Z) (subnet : bool) (a : Asked) : Prop :=
  as_server a = server /\ as_timeout a ∈ [2 * Second; 4 * Second; 8 * Second] /\
  Questions (as_msg a) = Questions (NewMsg 0 qName qType) /\
  Pseudo (as_msg a) = if subnet then [PS_SUBNET 1 24 0 (v4_in_v6_prefix ++ [93; 184; 216; 0])] else [].

(** A response to this question. *)
Definition answers (qName : bytes) (qType : Z) (response : Msg) : Prop :=
  exists msg t server e e', exchange msg t server e = (Ok response, e') /\ Questions msg = Questions (NewMsg 0 qName qType).

Lemma query_loop_asked n server msg t (w : W) : exists ids,
  r_asked (query_loop exchange newID Timeout n server msg t w).2 =
    r_asked w ++ imap (fun i id => {| as_server := server; as_timeout := t * 2 ^ Z.of_nat i; as_msg := set_header (set_ID id) msg |}) ids /\
  (length ids <= n)%nat /\
  match (query_loop exchange newID Timeout n server msg t w).1 with
  | Ok response => exists id t e e', exchange (set_header (set_ID id) msg) t server e = (Ok response, e')
  | Err _ => True
  end.
Proof.
  revert msg t w. induction n as [|n IH]; intros msg t w; [exists []; split_and!; [by rewrite app_nil_r|done..]|].
  cbn [query_loop]. unfold mbind', draw_id, ask, mret. destruct (newID (r_env w)) as [id e1]. cbn.
  destruct (exchange _ _ _ _) as [[r|e] e2] eqn:E; cbn.
  - exists [id]. cbn. rewrite Z.mul_1_r. split_and!; [done|lia|by eauto].
  - destruct (Timeout e); cbn; [|exists [id]; cbn; rewrite Z.mul_1_r; split_and!; [done|lia|done]].
    match goal with |- context [query_loop _ _ _ n server ?m ?t' ?w'] => destruct (IH m t' w') as (ids & -> & Hn & Hr) end.
    exists (id :: ids). cbn [imap r_asked length]. rewrite Z.mul_1_r, <- app_assoc. split_and!; [|lia|].
    + do 2 f_equal. apply imap_ext. intros i x _. cbn. f_equal. rewrite Nat2Z.inj_succ, Z.pow_succ_r by lia. lia.
    + destruct (query_loop _ _ _ n _ _ _ _).1; [|done]. destruct Hr as (id' & t' & e' & e'' & Hr). by exists id', t', e', e''.
Qed.

Lemma resolveQuery_sends server qName qType subnet :
  sends (attempt server qName qType subnet) (if qType =? TypePTR then 0 else 3)
    (fun r => match r with Ok response => answers qName qType response | Err _ => True end)
    (resolveQuery server qName qType subnet).
Proof.
  intros w. unfold Resolve.resolveQuery. set (msg := query_msg qName qType subnet).
  destruct (query_loop_asked 3 server msg (2 * Second) w) as (ids & El & Hn & Hr).
  assert (forall id, Questions (set_header (set_ID id) msg) = Questions (NewMsg 0 qName qType)) as Hq by (by destruct subnet).
  split.
  { destruct (query_loop _ _ _ 3 _ _ _ _).1; [|done]. destruct Hr as (id & t & e & e' & Hr). eexists _, t, server, e, e'. by split. }
  eexists. split; [exact El|].
  assert (Forall (attempt server qName qType subnet) (imap (fun i id => {| as_server := server;
    as_timeout := 2 * Second * 2 ^ Z.of_nat i; as_msg := set_header (set_ID id) msg |}) ids)) as HF.
  { apply Forall_lookup. intros i a (id & Hi & ->)%list_lookup_imap_Some. split_and!; [done| |apply Hq|by destruct subnet].
    pose proof (lookup_lt_Some _ _ _ Hi). destruct i as [|[|[|i]]]; [| | |lia]; cbn; set_solver. }
  split; [exact HF|]. unfold main_queries. destruct (Z.eqb_spec qType TypePTR) as [->|].
  - clear -HF. induction HF as [|a l (_ & _ & Ha & _) _ IH]; [done|]. rewrite filter_cons_False; [done|].
    unfold asked_type. rewrite Ha. cbn. tauto.
  - etransitivity; [apply length_filter|]. by rewrite length_imap.
Qed.

(** ** The command *)

Section names.
(** The names of interest: the one that is given, and the targets of aliases. *)
Context (server : bytes) (about : bytes -> Prop).
Context (about_alias : forall qName response target, about qName -> answers qName TypeCNAME response ->
  target ∈ omap cname_of (Answer response) -> about target).

Definition record_types : list Z := [TypeCNAME; TypeA; TypeAAAA; TypeNS; TypeMX; TypeHTTPS; TypeHINFO; TypeTXT].

(** What may be asked: who the resolver is, with a fixed client subnet; the names of its
    addresses; two test names; and records of the names of interest. *)
Definition allowed_query (a : Asked) : Prop :=
  attempt server myResolverHost TypeTXT true a \/
  (exists ip rev, reverseAddr ip = Some rev /\ attempt server rev TypePTR false a) \/
  attempt server nonexistentName TypeA false a \/ attempt server bogusDNSSECName TypeA false a \/
  exists qName qType, about qName /\ qType ∈ record_types /\ attempt server qName qType false a.

Local Notation any := (fun _ => True).

Lemma sends_query qName qType subnet n : (forall a, attempt server qName qType subnet a -> allowed_query a) ->
  ((if (qType =? TypePTR)%Z then 0 else 3) <= n)%nat ->
  sends allowed_query n (fun r => match r with Ok response => answers qName qType response | Err _ => True end)
    (resolveQuery server qName qType subnet).
Proof. intros HP Hn. eapply sends_weaken; [apply resolveQuery_sends|done|done|done]. Qed.

(** A computation that only prints. *)
Lemma sends_seq {A B} n (m : M A) (k : M B) R : sends allowed_query 0 any m -> sends allowed_query n R k ->
  sends allowed_query n R (mbind' m (fun _ => k)).
Proof. intros Hm Hk. apply (rsends_bind _ 0 n any); [done|by intros]. Qed.

Lemma sends_then {A B} n k (m : M A) (f : M B) R : sends allowed_query n any m -> sends allowed_query k R f ->
  sends allowed_query (n + k) R (mbind' m (fun _ => f)).
Proof. intros Hm Hk. apply (rsends_bind _ n k any); [done|by intros]. Qed.

Lemma resolver_loop_sends l res subnet : sends allowed_query 0 any (resolver_loop server l res subnet).
Proof.
  revert res subnet. induction l as [|a l IH]; intros res subnet; cbn [Resolve.resolver_loop]; [by apply rsends_ret|].
  destruct (data a); try apply IH. destruct (negb _); [apply IH|]. destruct (foldl _ _ _) as [ip sub].
  case_bool_decide; [apply IH|]. destruct (reverseAddr ip) as [rev|] eqn:Er; [|apply IH].
  eapply (rsends_bind _ 0 0); [apply sends_query; [|done]|].
  - intros a' Ha. right; left. by exists ip, rev.
  - intros [response|e] _; [apply IH|by apply rsends_ret].
Qed.

Lemma resolver_block_sends : sends allowed_query 3 any (resolver_block exchange newID Timeout error_text server).
Proof.
  unfold resolver_block. eapply (rsends_bind _ 3 0); [apply sends_query; [by left|done]|]. intros [response|e] _.
  - apply sends_seq; [apply sends_print|]. eapply (rsends_bind _ 0 0); [apply resolver_loop_sends|]. intros res _.
    apply sends_seq; [apply sends_print|by apply rsends_ret].
  - apply sends_seq; [apply sends_print|by apply rsends_ret].
Qed.

Lemma single_block_sends subnet : sends allowed_query 6 any (single_block exchange newID Timeout error_text RcodeToString server subnet).
Proof.
  unfold single_block. apply sends_seq; [apply sends_print|].
  eapply (rsends_bind _ 3 3); [apply sends_query; [by right; right; left|done]|]. intros [response|e] _; [|apply sends_print].
  apply sends_seq; [by repeat case_match; apply sends_print|]. apply (sends_then 3 0).
  - destruct (_ =? _); [|by apply rsends_ret]. apply sends_seq; [apply sends_print|].
    eapply (rsends_bind _ 3 0); [apply sends_query; [by right; right; right; left|done]|]. intros ? _. apply sends_print.
  - apply sends_seq; apply sends_print.
Qed.

Lemma about_query qName qType a : about qName -> qType ∈ record_types -> attempt server qName qType false a -> allowed_query a.
Proof. intros. do 4 right. by exists qName, qType. Qed.

Lemma cname_loop_sends n qName : about qName ->
  sends allowed_query (3 * n) (fun r => about r.1) (cname_loop exchange newID Timeout n server qName).
Proof.
  revert qName. induction n as [|n IH]; intros qName Hq; cbn [cname_loop]; [by apply rsends_ret|].
  replace (3 * Datatypes.S n)%nat with (3 + 3 * n)%nat by lia.
  eapply rsends_bind; [apply sends_query; [|done]; intros a; apply about_query; [done|set_solver]|].
  intros [response|e] Hr; [|by apply rsends_ret].
  destruct (omap cname_of (Answer response)) as [|target l] eqn:E; [by apply rsends_ret|].
  apply IH. eapply about_alias; [exact Hq|exact Hr|]. rewrite E. left.
Qed.

Lemma cname_block_sends qName : about qName -> sends allowed_query 300 about (cname_block exchange newID Timeout server qName).
Proof.
  intros Hq. unfold cname_block. apply sends_seq; [apply sends_print|].
  eapply (rsends_bind _ (3 * 100) 0); [by apply cname_loop_sends|]. intros [c ok] Hc.
  apply sends_seq; [destruct ok; [apply sends_print|by apply rsends_ret]|by apply rsends_ret].
Qed.

Lemma record_block_sends label qName qType show : about qName -> qType ∈ record_types ->
  (forall response, sends allowed_query 0 any (show response)) ->
  sends allowed_query 3 any (record_block exchange newID Timeout label server qName qType show).
Proof.
  intros Hq Ht Hs. unfold record_block. apply sends_seq; [apply sends_print|].
  eapply (rsends_bind _ 3 0); [apply sends_query; [intros a; by apply about_query|destruct (_ =? _)%Z; lia]|].
  intros [response|e] _; [apply Hs|by apply rsends_ret].
Qed.

Ltac show_sends := intros; cbv zeta; repeat first [apply sends_print | apply sends_seq | case_match].

Lemma name_blocks_sends qName : about qName -> sends allowed_query 321 any
  (mbind' (cname_block exchange newID Timeout server qName) (fun cname =>
   mbind' (println []) (fun _ =>
   mbind' (ipv4_block exchange newID Timeout server cname) (fun _ => mbind' (ipv6_block exchange newID Timeout server cname) (fun _ =>
   mbind' (println []) (fun _ =>
   mbind' (ns_block exchange newID Timeout RcodeToString server cname) (fun _ =>
   mbind' (mx_block exchange newID Timeout server cname) (fun _ =>
   mbind' (println []) (fun _ =>
   mbind' (https_block exchange newID Timeout https_values server cname) (fun _ =>
   mbind' (println []) (fun _ =>
   mbind' (hinfo_block exchange newID Timeout server cname) (fun _ => mbind' (txt_block exchange newID Timeout server cname) (fun _ =>
   mbind' (println []) (fun _ => mret true)))))))))))))).
Proof.
  intros Hq. apply (rsends_bind _ 300 21 about); [by apply cname_block_sends|]. intros cname Hc.
  apply sends_seq; [apply sends_print|].
  apply (sends_then 3 18); [apply record_block_sends; [done|set_solver|show_sends]|].
  apply (sends_then 3 15); [apply record_block_sends; [done|set_solver|show_sends]|].
  apply sends_seq; [apply sends_print|].
  apply (sends_then 3 12); [apply record_block_sends; [done|set_solver|show_sends]|].
  apply (sends_then 3 9); [apply record_block_sends; [done|set_solver|show_sends]|].
  apply sends_seq; [apply sends_print|].
  apply (sends_then 3 6); [apply record_block_sends; [done|set_solver|show_sends]|].
  apply sends_seq; [apply sends_print|].
  apply (sends_then 3 3); [apply record_block_sends; [done|set_solver|show_sends]|].
  apply (sends_then 3 0); [apply record_block_sends; [done|set_solver|show_sends]|].
  apply sends_seq; [apply sends_print|by apply rsends_ret].
Qed.
End names.

(** The queries of the resolve command.  All go to the one resolver that was asked for (to the
    local one if it listens everywhere), with timeouts of 2, 4 and 8 seconds.  They ask who the resolver is, the only query with a client
    subnet, which is a fixed one; the names of the addresses it reports; two test names; and
    records of the given name and of the names that aliases lead to.  Whatever the resolver
    answers, there are at most 330 of them, not counting those for names of addresses. *)
Theorem resolve_queries server name single (w : W) (about : bytes -> Prop) :
  let '(server', name', _) := resolve_args server name single in
  about (fqdn name') ->
  (forall qName response target, about qName -> answers qName TypeCNAME response ->
    target ∈ omap cname_of (Answer response) -> about target) ->
  exists l, r_asked (Resolve server name single w).2 = r_asked w ++ l /\
    Forall (allowed_query (server_of server') about) l /\ (main_queries l <= 330)%nat.
Proof.
  unfold Resolve.Resolve, server_of. destruct (resolve_args server name single) as [[server' name'] single'].
  intros Hq Halias. destruct (ExtractHostAndPort server' 53) as [host port]. cbv zeta.
  set (sv := resolver_host host ++ str ":" ++ fmt_d port).
  match goal with |- context [(?m w).2] =>
    assert (sends (allowed_query sv about) 330 (fun _ => True) m) as H; [|by destruct (H w) as [_ ?]] end.
  do 2 (apply sends_seq; [apply sends_print|]).
  apply (rsends_bind _ 3 327 (fun _ => True)); [apply resolver_block_sends|]. intros [subnet|] _; [|by apply rsends_ret].
  apply (sends_then _ _ 6 321); [destruct single'; [apply single_block_sends|by apply rsends_ret]|].
  apply sends_seq; [apply sends_print|]. by apply name_blocks_sends.
Qed.
End resolve.

(** ** Example *)

(** The first attempt of each query times out; the name is an alias. *)
Definition ex_answer (name : bytes) (d : rdata) : RR := {| hdr := {| Name := name; Class_ := ClassINET; TTL := 60 |}; data := d |}.
Definition ex_exchange (msg : Msg) (t : Duration) (server : bytes) (n : Z) : result bool Msg * Z :=
  (if Z.even n then Err true
   else match Questions msg with
   | q :: _ =>
       if (q_Type q =? TypeCNAME) && bool_decide (q_Name q = str "www.example.com.") then
         Ok (set_Answer [ex_answer (q_Name q) (RD_CNAME (str "example.com."))] msg)
       else if q_Type q =? TypeA then Ok (set_Answer [ex_answer (q_Name q) (RD_A [192; 0; 2; 1])] msg)
       else Ok msg
   | [] => Err false
   end, n + 1).
Local Notation ex_resolved := (Resolve ex_exchange (fun n => (n, n)) id (fun _ => []) (fun _ => []) (fun _ => [])
  (str "0.0.0.0:5353") (str "www.example.com") false {| r_env := 0; r_out := []; r_asked := [] |}).

Lemma resolve_queries_witness :
  ex_resolved.1 = true /\ length (r_asked ex_resolved.2) = 20%nat /\
  (main_queries (r_asked ex_resolved.2) <= 330)%nat /\
  Forall (fun a => as_server a = str "127.0.0.1:5353") (r_asked ex_resolved.2).
Proof.
  split; [vm_compute; reflexivity|]. split; [vm_compute; reflexivity|].
  destruct (resolve_queries ex_exchange (fun n => (n, n)) id (fun _ => []) (fun _ => []) (fun _ => [])
    (str "0.0.0.0:5353") (str "www.example.com") false {| r_env := 0; r_out := []; r_asked := [] |} (fun _ => True)) as (l & E & H1 & H2);
    [exact I|intros; exact I|].
  cbn [r_asked app] in E. rewrite E. split; [exact H2|]. eapply Forall_impl; [exact H1|].
  intros a. replace (server_of _) with (str "127.0.0.1:5353") by (vm_compute; reflexivity).
  intros [[H _]|[(ip & rev & _ & H & _)|[[H _]|[[H _]|(q & t & _ & _ & H & _)]]]]; exact H.
Defined.
